(* ===== verification/_CoqProject ===== *)
-Q . S2P
Prelude.v
JsStr.v
JsRegex.v
JsNum.v
JsInt.v
JsArray.v
JsJson.v
JsPrint.v
BillingExpr.v
BillingSplit.v
BillingRoundTrip.v
BillingRules.v
BillingProps.v
TierExpr.v
TierProps.v
Currency.v
Pricing.v
PricingProps.v
HttpStatus.v
Messages.v
MessageProps.v
PlaygroundStorage.v
ChatHandler.v
ChatProps.v
Flow.v
FlowSums.v
FlowProps.v
FlowLimits.v
ModelMapping.v
ModelPricing.v
ModelPricingProps.v
Sidebar.v
SidebarProps.v
SettingsForm.v
SettingsFormProps.v
Topup.v
TopupDialog.v
TopupProps.v
ParamOverride.v
ParamEditor.v
ParamOverrideProps.v
ParamEditorProps.v
TableUrl.v
TableUrlProps.v
AdvancedCustom.v
AdvancedProps.v
RouteEditor.v
RouteEditorProps.v
ChannelForm.v
ChannelFormProps.v
ChannelUtils.v
ChannelUtilsProps.v
UpstreamUpdates.v
Plans.v
PlansProps.v
PlanPurchase.v
PlanPurchaseProps.v
ApiKeys.v
ApiKeysPage.v
ApiKeysProps.v
UsageLog.v
TierEditor.v
TierEditorProps.v
TierEditorOpen.v
PricingSheet.v
PricingSheetProps.v
JsUri.v
SeoRoutes.v
SeoRoutesProps.v
Passkeys.v
PasskeysProps.v
SiteHelpers.v
AuthPage.v
SiteWeb.v
AuthProps.v
SiteShell.v
SiteProps.v
SiteSession.v
