(* ===== verification/Prelude.v ===== *)
(** * aitokensflux web front end: a verification development

    aitokensflux is a gateway for language model APIs.  Its server is written
    in Go; this development is about the logic of its TypeScript front ends,
    under src/web/default/src/ unless another path is given: the expressions
    and tables that set prices, the playground that talks to models, the
    dashboard that aggregates usage, the editors of the administration, and
    the sign-in, routes, payments, plans and keys of the customer site.
    Functions of the source are Gallina functions of the same name, its records are records, a handler of a React
    hook or component is a function from the state before to the state after,
    and a component with state is a transition system whose invariants are
    proved by induction on its transitions.

    ** The language

    - This file: the scope and notation of the development, its tactics and
      hint databases, [outcome] (a result or an exception, with [let!]), and
      list lemmas the other files share.
    - JsStr, JsRegex: strings as lists of 16-bit code units, the string
      methods the source uses, and a backtracking matcher for its regular
      expressions.
    - JsNum, JsInt: numbers as IEEE doubles (SpecFloat), decimal text to and
      from numbers, rounding, toFixed and parseFloat; JsInt shows that integers
      below 2^53 add, subtract and compare as integers.
    - JsArray: stable sorting, maps in insertion order, sets.
    - JsJson, JsPrint: JSON values, JSON.parse and JSON.stringify; the text of
      a value is read back as the value ([parse_stringify]).
    - JsUri: percent encoding and decoding of URI components, inverse on text
      that can be encoded.

    ** The components

    - BillingExpr (features/pricing/lib/billing-expr.ts) with BillingSplit,
      BillingRoundTrip, BillingRules and BillingProps: a price is an expression
      times request rules.  The printer and the parser of rules are inverse on
      well-formed rules, a base expression and its rules are recovered from
      their combination, and the cases in which the parser refuses or throws
      on what the editor wrote are proved as such.
    - TierExpr, TierProps (features/pricing/lib/tier-expr.ts): the visual
      editor of tiers; an expression generated from a tier is read back as it.
    - Currency (lib/currency.ts, stores/system-config-store.ts): display
      currencies; rates are positive, tiny amounts are raised to the smallest
      displayable one.
    - Pricing, PricingProps (features/pricing/lib/price.ts, dynamic-price.ts,
      filters.ts, model-helpers.ts): group prices, summaries, and the list of
      models, which shows exactly the models that pass every filter.
    - ModelPricing, ModelPricingProps (features/system-settings/models/): the
      ten price options as JSON texts, their rows, and the visual editor that
      saves, copies and deletes models; saving changes exactly the targets and
      the split of BillingExpr recovers saved rules.
    - TierEditor, TierEditorProps, TierEditorOpen (features/system-settings/
      models/tiered-pricing-editor.tsx): the editor of tiers and rules with its
      effects; they come to rest after at most six renders, at rest form and
      editor agree, and opening keeps a price the editor can read.
    - PricingSheet, PricingSheetProps (features/system-settings/models/
      model-pricing-sheet.tsx): the price form of one model, with the editor on
      its third tab; ratios follow prices, and showing the tab loses a price
      the editor cannot read.
    - HttpStatus (lib/http-status-code-rules.ts): lists of status codes; merging
      yields the canonical list of ranges and printing it round trips.
    - ModelMapping (features/channels/lib/model-mapping-validation.ts): model
      lists and mappings of a channel.
    - AdvancedCustom, AdvancedProps (features/channels/lib/advanced-custom.ts):
      routes of a custom channel; the validator accepts exactly the well-formed
      configurations ([config_ok], a declarative description).
    - RouteEditor, RouteEditorProps (features/channels/components/dialogs/
      advanced-custom-editor-dialog.tsx): the dialog that edits them, as a
      transition system; rows keep distinct keys and only well-formed
      configurations are saved.
    - TableUrl, TableUrlProps (hooks/use-table-url-state.ts): tables whose page
      and filters live in the URL; the hook refines an abstract table that
      keeps them in memory.
    - Sidebar, SidebarProps (hooks/use-sidebar-data.ts, use-sidebar-config.ts,
      use-sidebar-view.ts, components/layout/lib/sidebar-view-registry.ts,
      components/layout/config/system-settings.config.ts and the section
      registries of features/system-settings, lib/roles.ts,
      lib/admin-permissions.ts): the navigation; which entries are shown, against
      a table of entries, roles and switches written out in SidebarProps, the
      nested view of the system settings included.
    - SettingsForm, SettingsFormProps (features/system-settings/hooks/
      use-settings-form.ts): settings with dotted names as a nested form; the
      form library is a class with laws, and for every library that keeps them
      a submission sends exactly the fields that differ from the saved ones.
    - Topup, TopupDialog, TopupProps (src/web/customer/src/helpers/payments.ts,
      components/topup/TopupDialog.tsx): the customer's top-up; renders with
      their effects, orders, estimates and answers in any order.  Orders are for
      offered methods and allowed amounts, the shown estimate is the current
      one, the panel of a payment never gets stuck.
    - Plans, PlansProps, PlanPurchase, PlanPurchaseProps
      (src/web/customer/src/helpers/plans.ts, hooks/usePlanPurchase.tsx,
      components/topup/PlanPurchaseDialog.tsx, PurchaseProgressDialog.tsx,
      PriceCard.tsx, pages/Subscription/index.tsx): the plans a customer sees
      and how one is bought.  The cards against the records of the server, one
      purchase at a time, and every order within the limits of its record.
    - ApiKeys, ApiKeysPage, ApiKeysProps (src/web/customer/src/helpers/
      api-keys.ts, components/token/, pages/Token/index.tsx): the customer's
      keys; handlers keep the values of the render they started in.  The list
      follows its latest request, a key is read by one request at a time,
      saved forms are valid, and the link that exports a key carries it.
    - UsageLog (src/web/customer/src/helpers/usage-log.ts): the lines that
      explain a cost and the pager of the log.
    - ParamOverride, ParamEditor, ParamOverrideProps, ParamEditorProps
      (features/channels/components/dialogs/param-override-editor-dialog.tsx):
      rules that rewrite requests, and the dialog that edits them.  Saved rules
      are opened and saved again as the same text, the rules keep distinct ids
      with one of them selected, and the rules of the prune mode cannot be
      edited.
    - ChannelForm, ChannelFormProps (features/channels/lib/channel-form.ts,
      channel-form-errors.ts, hooks/use-channel-mutate-form.ts): the form of a
      channel; the stored settings against a table of members, the values shown
      when the form is opened again, what users without a permission send, and
      that the form accepts what the rule editor saves.
    - ChannelUtils, ChannelUtilsProps (features/channels/lib/channel-utils.ts,
      status-code-risk-guard.ts, multi-key-utils.ts, upstream-update-utils.ts):
      rows by tag, keys, labels and the guard against risky redirections.
    - UpstreamUpdates (features/channels/hooks/use-channel-upstream-updates.ts):
      the modal of pending models and its four requests.
    - Messages, MessageProps (features/playground/lib/message/): messages of
      the playground, reasoning tags, streamed chunks, edits.
    - PlaygroundStorage (features/playground/lib/storage/): the stored history,
      its schema, its limits and its repair.
    - ChatHandler, ChatProps (features/playground/hooks/use-chat-handler.ts,
      use-stream-request.ts, use-playground-conversation.ts): sending,
      streaming, stopping, regenerating and editing, as a transition system
      over Messages; reachable states satisfy an invariant, however a
      generation ends its sources are closed and its requests over, an error is
      never overwritten, and a streamed answer ends up in the last message.
    - Flow, FlowSums, FlowProps, FlowLimits (features/dashboard/lib/flow.ts,
      flow-selection.ts): the graph of usage, with counters as doubles; FlowSums
      shows that sums of whole numbers below 2^53 are exact, and for such
      counters links are balanced at inner nodes and every stage carries the
      total; limits and masking hold for all.
    - SeoRoutes, SeoRoutesProps (src/web/customer/src/seo/metadata.ts,
      helpers/navigation.ts, constants/navigation.ts): the public pages of the
      customer site in two languages; what a validated manifest guarantees, and
      that a redirect leads to a page that does not redirect.
    - Passkeys, PasskeysProps (lib/passkey.ts, src/web/customer/src/helpers/
      passkeys.ts): base64url and credential requests; bytes are kept.
    - SiteHelpers, SiteWeb (src/web/customer/src/services/api.ts,
      i18n/languages.ts, helpers/auth-redirect.ts, auth-form.ts, oauth.ts,
      account.ts): answers of requests, languages, redirects, the stored user.
      The browser is the class [Web] with the laws [WebLaws]; SiteWeb is an
      instance for the examples.
    - AuthPage, AuthProps (src/web/customer/src/pages/Auth/index.tsx,
      components/auth/, helpers/auth-copy.ts): the sign-in page; its handlers
      give the state after and a list of effects.  One request of the form at a
      time, spaced verification codes, and every request within the rules of
      its form.
    - SiteShell, SiteProps, SiteSession (src/web/customer/src/App.tsx,
      pages/OAuth/index.tsx): the site around the sign-in page, with answers in
      any order.  Which answers bring a user, where a sign-in leads, what page
      the site remembers, and that sign-in links lead back.

    Components meet where the source makes them meet: ChatHandler uses
    Messages, ModelPricing and Pricing use BillingExpr, buying a plan uses the
    payments of Topup and the cards of Plans, the price form mounts the tier
    editor, the site performs the effects of the sign-in page, the editors use
    JsJson and JsPrint for the texts they exchange with forms.

    ** Parameters

    Code that is not in the repository is an argument of the definitions that
    use it: localeCompare, toLowerCase, Intl number formatting, the URL
    constructor and query strings, the translation function, the clock and the
    calendar, the colour scheme of the chart library, the form library, and
    the serialisers of filters.  Theorems hold for all of them, or name what they need as
    hypotheses or laws of a class (a total order, a codec that reads back what
    it wrote), with an instance in the witness.

    ** Fuel

    [JsJson.parse] runs with twice the length of the text, and [pfuel_text]
    shows that a printed value never needs more; [digits_of] runs with the bit
    length, which [digits_fuel_val] shows to be enough; loops over strings
    (splitting, unwrapping parentheses, reasoning tags, counting matches) run
    with the length of the string, of which every round consumes a character;
    the snap loop of prices has the nine rounds of the source; the effects of
    the top-up dialog run for three renders, after which nothing changes
    ([settle_rests]), those of the tier editor for the six renders that its
    settling theorem proves to be enough.

    ** Not modelled

    The Go server and the classic front end (other languages), markup, styles
    and toasts, HTTP clients, generated routes and translation tables, browser
    credential calls, chart options and tooltips, and evalExprLocally, which
    compiles text with new Function.  Exceptions of localStorage are modelled
    where the code catches them.  Object keys are own properties: names that
    Object.prototype defines are outside the models that index objects by
    user-chosen names. *)

From Stdlib Require Export ZArith NArith Lia.
From stdpp Require Export prelude gmap strings.

(** ** Scope, tactics and hint databases *)

Declare Scope js_scope.
Delimit Scope js_scope with js.

Create HintDb js_db.
Create Rewrite HintDb js_db.

(** [simp_if] resolves a boolean guard of the code whose value is in the
    context, or splits on it. *)
Ltac simp_if :=
  match goal with
  | H : ?b = _ |- context [if ?b then _ else _] => rewrite H
  | |- context [if ?b then _ else _] => destruct b eqn:?
  end.

Ltac simp_if_in H :=
  match type of H with
  | context [if ?b then _ else _] => destruct b eqn:?
  end.

(** [inv_some] turns [Some a = Some b], pairs and impossible cases into
    equations of the context. *)
Ltac inv_some :=
  repeat match goal with
  | H : Some _ = Some _ |- _ => injection H as H; try subst
  | H : None = Some _ |- _ => discriminate H
  | H : Some _ = None |- _ => discriminate H
  | H : (_, _) = (_, _) |- _ => injection H as ? ?; try subst
  end.

(** ** Lists *)

Section Lists.
Context {A : Type}.
Implicit Types (p : A -> bool) (l : list A).

(** [takeb p l] and [dropb p l]: the longest prefix of [l] whose elements
    satisfy [p], and what follows it. *)
Fixpoint takeb p l : list A :=
  match l with
  | [] => []
  | x :: t => if p x then x :: takeb p t else []
  end.

Fixpoint dropb p l : list A :=
  match l with
  | [] => []
  | x :: t => if p x then dropb p t else l
  end.

Lemma takeb_dropb p l : takeb p l ++ dropb p l = l.
Proof. induction l as [|x t IH]; simpl; [done|]. destruct (p x); simpl; congruence. Qed.

Lemma dropb_length p l : length (dropb p l) <= length l.
Proof. induction l as [|x t IH]; simpl; [lia|]. destruct (p x); simpl; lia. Qed.

Lemma dropb_all p l : forallb p l = true -> dropb p l = [].
Proof.
  induction l as [|x t IH]; simpl; [done|].
  intros [-> ?]%andb_true_iff. auto.
Qed.

Lemma dropb_app p l r :
  forallb p l = true -> dropb p (l ++ r) = dropb p r.
Proof.
  induction l as [|x t IH]; simpl; [done|].
  intros [-> ?]%andb_true_iff. auto.
Qed.

Lemma takeb_app p l r :
  forallb p l = true -> takeb p (l ++ r) = l ++ takeb p r.
Proof.
  induction l as [|x t IH]; simpl; [done|].
  intros [-> ?]%andb_true_iff. f_equal; auto.
Qed.

Lemma dropb_stop p l :
  match l with x :: _ => p x = false | [] => True end -> dropb p l = l.
Proof. destruct l; simpl; [done|]. by intros ->. Qed.

Lemma takeb_stop p l :
  match l with x :: _ => p x = false | [] => True end -> takeb p l = [].
Proof. destruct l; simpl; [done|]. by intros ->. Qed.

Lemma takeb_until p (u v : list A) c :
  forallb p u = true -> p c = false -> takeb p (u ++ c :: v) = u.
Proof. intros Hu Hc. rewrite takeb_app by done. cbn. rewrite Hc. apply app_nil_r. Qed.

Lemma dropb_until p (u v : list A) c :
  forallb p u = true -> p c = false -> dropb p (u ++ c :: v) = c :: v.
Proof. intros Hu Hc. rewrite dropb_app by done. cbn. by rewrite Hc. Qed.

Lemma takeb_whole p (u : list A) : forallb p u = true -> takeb p u = u.
Proof. intros Hu. rewrite <- (app_nil_r u) at 1. rewrite takeb_app by done. apply app_nil_r. Qed.

Lemma forallb_takeb p l : forallb p (takeb p l) = true.
Proof. induction l as [|x t IH]; simpl; [done|]. destruct (p x) eqn:E; simpl; [|done]. by rewrite E. Qed.

Lemma dropb_head p l x t : dropb p l = x :: t -> p x = false.
Proof.
  induction l as [|y l IH]; simpl; [done|].
  destruct (p y) eqn:E; [auto|]. by intros [= <- <-].
Qed.

Lemma forallb_app_iff p l r :
  forallb p (l ++ r) = true <-> forallb p l = true /\ forallb p r = true.
Proof. rewrite forallb_app. apply andb_true_iff. Qed.

Lemma forallb_impl p (q : A -> bool) l :
  (forall x, p x = true -> q x = true) -> forallb p l = true -> forallb q l = true.
Proof.
  intros Hpq. induction l as [|x t IH]; simpl; [done|].
  intros [H1 H2]%andb_true_iff. rewrite (Hpq _ H1); simpl; auto.
Qed.

Lemma forallb_forall_iff p l :
  forallb p l = true <-> Forall (fun x => p x = true) l.
Proof.
  induction l as [|x t IH]; simpl.
  - split; constructor.
  - rewrite andb_true_iff, IH, Forall_cons_iff. done.
Qed.

Lemma existsb_false_iff p l :
  existsb p l = false <-> Forall (fun x => p x = false) l.
Proof.
  induction l as [|x t IH]; simpl.
  - split; constructor.
  - rewrite orb_false_iff, IH, Forall_cons_iff. done.
Qed.

Lemma filter_all p l : forallb p l = true -> List.filter p l = l.
Proof.
  induction l as [|x t IH]; simpl; [done|].
  intros [-> ?]%andb_true_iff. f_equal; auto.
Qed.

Lemma last_app_cons l (x : A) r : last (l ++ x :: r) = last (x :: r).
Proof. rewrite last_app. by destruct (last (x :: r)) eqn:E; [|apply last_None in E]. Qed.

End Lists.

Lemma in_imap {A B} (f : nat -> A -> B) l b : In b (imap f l) <-> exists n a, l !! n = Some a /\ b = f n a.
Proof.
  rewrite <- list_elem_of_In, list_elem_of_lookup. setoid_rewrite list_lookup_imap_Some.
  split; intros (n & a & H1 & H2); by exists n, a.
Qed.

(** ** Exceptions

    A function of the source that can throw returns an [outcome]; the payload
    of [Throws] is the error's message or name. *)
Inductive outcome (A : Type) :=
| Returns (a : A)
| Throws (msg : list N).
Arguments Returns {A} a.
Arguments Throws {A} msg.

Definition obind {A B} (o : outcome A) (f : A -> outcome B) : outcome B :=
  match o with
  | Returns a => f a
  | Throws m => Throws m
  end.

Notation "'let!' x ':=' a 'in' b" := (obind a (fun x => b))
  (at level 10, x name, a at level 100, b at level 200) : js_scope.

(** The [for] loops that build an array and return early on [null]. *)
Fixpoint otraverse {A B} (f : A -> outcome (option B)) (l : list A)
    : outcome (option (list B)) :=
  match l with
  | [] => Returns (Some [])
  | a :: t =>
      obind (f a) (fun r =>
        match r with
        | None => Returns None
        | Some b =>
            obind (otraverse f t) (fun rs => Returns (cons b <$> rs))
        end)
  end.

Lemma otraverse_all {A B} (f : A -> outcome (option B)) l r :
  Forall2 (fun a b => f a = Returns (Some b)) l r ->
  otraverse f l = Returns (Some r).
Proof. induction 1 as [|a b l r Hab _ IH]; simpl; [done|]. by rewrite Hab, IH. Qed.

Lemma returns_inj {A} (a b : A) : Returns a = Returns b -> a = b.
Proof. congruence. Qed.

Lemma obind_returns {A B} (o : outcome A) (f : A -> outcome B) b :
  obind o f = Returns b <-> exists a, o = Returns a /\ f a = Returns b.
Proof. destruct o; cbn; split; intros H; [by eauto|by destruct H as (? & [= ->] & ?)|done|by destruct H as (? & ? & ?)]. Qed.
