(* ===== verification/JsStr.v ===== *)
(** * Strings of the language

    A JavaScript string is a sequence of 16-bit code units; here it is a
    [list N] of code units.  This file models the string operations the
    sources call: [trim], [startsWith], [endsWith], [includes], [indexOf],
    [slice], [join], and the truth value of a string. *)

From S2P Require Import Prelude.
From Stdlib Require Ascii String.

Abbreviation jschar := N (only parsing).
Abbreviation jsstr := (list N) (only parsing).

(** An ASCII literal of the source. *)
Definition js (s : string) : jsstr :=
  map Ascii.N_of_ascii (String.list_ascii_of_string s).
#[global] Arguments js _ : simpl never.

(** The code units of a literal that is not ASCII, from its bytes in UTF-8
    (characters of the basic plane). *)
Fixpoint utf8_units (bytes : jsstr) : jsstr :=
  match bytes with
  | b :: t =>
      if (b <? 128)%N then b :: utf8_units t
      else match t with
           | c :: t =>
               if (b <? 224)%N then ((b - 192) * 64 + (c - 128))%N :: utf8_units t
               else match t with
                    | d :: t => ((b - 224) * 4096 + (c - 128) * 64 + (d - 128))%N :: utf8_units t
                    | [] => []
                    end
           | [] => []
           end
  | [] => []
  end.
Definition uni (s : string) : jsstr := utf8_units (js s).

(** The double quote, which cannot be written inside a literal. *)
Definition dq : jsstr := [34%N].

Ltac norm_js :=
  repeat match goal with
  | |- context [js ?s] => let v := eval vm_compute in (js s) in change (js s) with v
  | |- context [dq] => change dq with [34%N]
  end.

Ltac norm_js_in H :=
  repeat match type of H with
  | context [js ?s] => let v := eval vm_compute in (js s) in change (js s) with v in H
  | context [dq] => change dq with [34%N] in H
  end.

Definition str_eqb (a b : jsstr) : bool := bool_decide (a = b).

(** [Boolean(s)]: only the empty string is falsy. *)
Definition truthy (s : jsstr) : bool := match s with [] => false | _ => true end.

(** [s || d] on strings. *)
Definition str_or (s d : jsstr) : jsstr := if truthy s then s else d.

(** WhiteSpace and LineTerminator of ECMA-262: what [trim] removes and [\s]
    matches. *)
Definition is_space (c : jschar) : bool :=
  ((9 <=? c) && (c <=? 13) || (c =? 32) || (c =? 160) || (c =? 5760)
   || (8192 <=? c) && (c <=? 8202) || (c =? 8232) || (c =? 8233)
   || (c =? 8239) || (c =? 8287) || (c =? 12288) || (c =? 65279))%N.

Definition is_line_term (c : jschar) : bool :=
  ((c =? 10) || (c =? 13) || (c =? 8232) || (c =? 8233))%N.

Definition is_digit (c : jschar) : bool := ((48 <=? c) && (c <=? 57))%N.

Definition is_word (c : jschar) : bool :=
  (is_digit c || (65 <=? c) && (c <=? 90) || (97 <=? c) && (c <=? 122) || (c =? 95))%N.

Definition trimStart (s : jsstr) : jsstr := dropb is_space s.
Definition trimEnd (s : jsstr) : jsstr := rev (dropb is_space (rev s)).
Definition trim (s : jsstr) : jsstr := trimEnd (trimStart s).

Fixpoint strip_prefix (p s : jsstr) : option jsstr :=
  match p, s with
  | [], _ => Some s
  | c :: p', d :: s' => if (c =? d)%N then strip_prefix p' s' else None
  | _ :: _, [] => None
  end.

(** Evaluation of [strip_prefix] on literal code units. *)
Ltac strip_lit :=
  cbn [app];
  repeat match goal with
  | |- context [strip_prefix (?a :: ?w) (?b :: ?t)] =>
      let v := eval vm_compute in (N.eqb a b) in
      lazymatch v with
      | true => change (strip_prefix (a :: w) (b :: t)) with (strip_prefix w t)
      | false => change (strip_prefix (a :: w) (b :: t)) with (@None (list N))
      end
  | |- context [strip_prefix (?a :: ?w) []] =>
      change (strip_prefix (a :: w) []) with (@None (list N))
  | |- context [strip_prefix [] ?t] => change (strip_prefix [] t) with (Some t)
  end.

Definition startsWith (s p : jsstr) : bool :=
  match strip_prefix p s with Some _ => true | None => false end.

Definition endsWith (s p : jsstr) : bool := startsWith (rev s) (rev p).

(** [s.indexOf(p)]: [None] stands for -1. *)
Fixpoint indexOf (p s : jsstr) : option nat :=
  if startsWith s p then Some 0
  else match s with
       | [] => None
       | _ :: t => S <$> indexOf p t
       end.

(** [s.indexOf(p, from)] for [from <= s.length]. *)
Definition indexOfFrom (p s : jsstr) (from : nat) : option nat :=
  (fun i => from + i) <$> indexOf p (drop from s).

Definition includes (s p : jsstr) : bool :=
  match indexOf p s with Some _ => true | None => false end.

(** [s.slice(a, b)] and [s.slice(a)] for non-negative bounds. *)
Definition slice (s : jsstr) (a b : nat) : jsstr := take (b - a) (drop a s).
Definition sliceFrom (s : jsstr) (a : nat) : jsstr := drop a s.

(** [parts.join(sep)]. *)
Fixpoint join (sep : jsstr) (parts : list jsstr) : jsstr :=
  match parts with
  | [] => []
  | [p] => p
  | p :: ps => p ++ sep ++ join sep ps
  end.

(** ** Facts *)

(** A string that neither starts nor ends with a white space. *)
Definition trimmed (s : jsstr) : bool :=
  match s with
  | [] => true
  | c :: _ => negb (is_space c) && match last s with Some d => negb (is_space d) | None => true end
  end.

Lemma str_eqb_eq a b : str_eqb a b = true <-> a = b.
Proof. unfold str_eqb. apply bool_decide_eq_true. Qed.

Lemma str_eqb_refl a : str_eqb a a = true.
Proof. by apply str_eqb_eq. Qed.

Lemma str_eqb_neq a b : str_eqb a b = false <-> a <> b.
Proof. unfold str_eqb. apply bool_decide_eq_false. Qed.

Lemma truthy_true s : truthy s = true <-> s <> [].
Proof. by destruct s. Qed.

Lemma truthy_false s : truthy s = false <-> s = [].
Proof. by destruct s. Qed.

Lemma trimmed_last s c t :
  rev s = c :: t -> trimmed s = true -> is_space c = false.
Proof.
  intros Hr Ht. assert (s = rev t ++ [c]) as ->.
  { rewrite <- (rev_involutive s), Hr. done. }
  pose proof (last_snoc c (rev t)) as Hl. unfold trimmed in Ht.
  destruct (rev t ++ [c]) as [|d u]; [done|]. rewrite Hl in Ht.
  by apply andb_true_iff in Ht as [_ ?%negb_true_iff].
Qed.

Lemma trim_id s : trimmed s = true -> trim s = s.
Proof.
  intros Ht. unfold trim, trimStart.
  rewrite dropb_stop.
  - unfold trimEnd. rewrite dropb_stop; [apply rev_involutive|].
    destruct (rev s) as [|c t] eqn:E; [done|]. eapply trimmed_last; eauto.
  - destruct s as [|c t]; [done|]. unfold trimmed in Ht.
    by apply andb_true_iff in Ht as [?%negb_true_iff _].
Qed.

Lemma trim_trimmed s : trimmed (trim s) = true.
Proof.
  unfold trim, trimEnd, trimStart.
  destruct (dropb is_space s) as [|c t] eqn:E; [done|].
  assert (is_space c = false) as Hc by (eapply dropb_head; eauto).
  destruct (dropb is_space (rev (c :: t))) as [|d u] eqn:E2; [done|].
  assert (is_space d = false) as Hd by (eapply dropb_head; eauto).
  assert (rev u ++ [d] <> []) by (by destruct (rev u)).
  assert (exists v, rev (d :: u) = c :: v) as [v Hv].
  { pose proof (takeb_dropb is_space (rev (c :: t))) as Hs. rewrite E2 in Hs.
    apply (f_equal (@rev _)) in Hs. rewrite rev_involutive, rev_app_distr in Hs.
    simpl in *. destruct (rev u ++ [d]) as [|x v] eqn:Eu; [done|].
    simpl in Hs. injection Hs as -> _. eauto. }
  rewrite Hv. unfold trimmed. rewrite Hc.
  assert (last (c :: v) = Some d) as ->; [|by rewrite Hd].
  rewrite <- Hv. simpl. apply last_snoc.
Qed.

Lemma trim_length s : length (trim s) <= length s.
Proof.
  unfold trim, trimEnd, trimStart. rewrite length_rev.
  pose proof (dropb_length is_space (rev (dropb is_space s))).
  pose proof (dropb_length is_space s). rewrite length_rev in *. lia.
Qed.

Lemma dropb_nil {A} (p : A -> bool) l : dropb p l = [] -> forallb p l = true.
Proof. induction l as [|x l IH]; [done|]. cbn. by destruct (p x). Qed.

Lemma trim_blank s : trim s = [] -> forallb is_space s = true.
Proof.
  intros H. apply dropb_nil. unfold trim, trimEnd in H. change (dropb is_space s) with (trimStart s).
  assert (Hr : dropb is_space (rev (trimStart s)) = []) by (rewrite <- (rev_involutive (dropb _ _)), H; done).
  apply dropb_nil in Hr. rewrite forallb_forall in Hr. unfold trimStart in *.
  destruct (dropb is_space s) as [|c t] eqn:E; [done|]. apply dropb_head in E.
  rewrite Hr in E; [done|]. apply in_rev. rewrite rev_involutive. by left.
Qed.

Lemma trim_idemp s : trim (trim s) = trim s.
Proof. apply trim_id, trim_trimmed. Qed.

Lemma strip_prefix_app p s : strip_prefix p (p ++ s) = Some s.
Proof. induction p as [|c p IH]; simpl; [done|]. by rewrite N.eqb_refl. Qed.

Lemma strip_prefix_some p s t : strip_prefix p s = Some t <-> s = p ++ t.
Proof.
  split; [|intros ->; apply strip_prefix_app].
  revert s. induction p as [|c p IH]; intros s; simpl; [by intros [= ->]|].
  destruct s as [|d s]; [done|].
  destruct (c =? d)%N eqn:E; [|done]. apply N.eqb_eq in E as ->.
  intros ?%IH. by subst.
Qed.

Lemma startsWith_app p s : startsWith (p ++ s) p = true.
Proof. unfold startsWith. by rewrite strip_prefix_app. Qed.

Lemma startsWith_true p s : startsWith s p = true <-> exists t, s = p ++ t.
Proof.
  unfold startsWith. split.
  - destruct (strip_prefix p s) as [t|] eqn:E; [|done]. intros _. exists t.
    by apply strip_prefix_some.
  - intros [t ->]. by rewrite strip_prefix_app.
Qed.

Lemma indexOf_some p s i :
  indexOf p s = Some i ->
  s = take i s ++ p ++ drop (i + length p) s /\ i + length p <= length s.
Proof.
  revert i. induction s as [|c t IH]; intros i; simpl.
  - destruct (startsWith [] p) eqn:E; [|done].
    apply startsWith_true in E as [u Hu]. destruct p; [|done]. intros [= <-]. done.
  - destruct (startsWith (c :: t) p) eqn:E.
    + intros [= <-]. apply startsWith_true in E as [u Hu]. 
      pose proof (f_equal length Hu) as Hl. rewrite length_app in Hl. simpl in Hl.
      change (0 + length p) with (length p). split; [|lia].
      rewrite Hu, drop_app_length. done.
    + destruct (indexOf p t) as [j|] eqn:Ej; [|done]. intros [= <-].
      destruct (IH j eq_refl) as [H1 H2]. simpl. split; [|lia]. by f_equal.
Qed.

Lemma indexOf_none p s :
  indexOf p s = None <-> forall a b, s <> a ++ p ++ b.
Proof.
  induction s as [|c t IH]; simpl.
  - destruct (startsWith [] p) eqn:E.
    + apply startsWith_true in E as [u Hu]. split; [done|]. intros H.
      by destruct (H [] u).
    + split; [|done]. intros _ a b Hab. destruct a, p; try done.
  - destruct (startsWith (c :: t) p) eqn:E.
    + apply startsWith_true in E as [u Hu]. split; [done|]. intros H.
      by destruct (H [] u).
    + rewrite fmap_None, IH. split.
      * intros H a b Hab. destruct a as [|x a].
        -- simpl in Hab. assert (startsWith (c :: t) p = true) as ?; [|congruence].
           apply startsWith_true. eauto.
        -- injection Hab as -> Hab. by apply (H a b).
      * intros H a b Hab. apply (H (c :: a) b). by rewrite Hab.
Qed.

Lemma includes_true s p : includes s p = true <-> exists a b, s = a ++ p ++ b.
Proof.
  unfold includes. destruct (indexOf p s) as [i|] eqn:E.
  - apply indexOf_some in E as [H _]. split; [|done]. intros _. eauto.
  - rewrite indexOf_none in E. split; [done|]. intros (a & b & H). by destruct (E a b).
Qed.

Lemma includes_false s p : includes s p = false <-> forall a b, s <> a ++ p ++ b.
Proof.
  unfold includes. rewrite <- indexOf_none. by destruct (indexOf p s).
Qed.

(** A character that does not occur in [s] cannot belong to a substring. *)
Lemma includes_absent s p c :
  In c p -> ~ In c s -> includes s p = false.
Proof.
  intros Hc Hs. apply includes_false. intros a b ->. apply Hs.
  rewrite !in_app_iff. auto.
Qed.

Lemma join_cons sep p ps :
  ps <> [] -> join sep (p :: ps) = p ++ sep ++ join sep ps.
Proof. by destruct ps. Qed.

#[export] Hint Resolve str_eqb_refl trim_trimmed : js_db.
#[export] Hint Rewrite str_eqb_refl trim_idemp : js_db.

(** Texts without spaces are trimmed. *)
Lemma trimmed_no_space s : forallb (fun c => negb (is_space c)) s = true -> trimmed s = true.
Proof.
  destruct s as [|c t]; [done|]. intros H. unfold trimmed.
  rewrite forallb_forall in H. rewrite (H c) by (by left).
  destruct (last (c :: t)) as [d|] eqn:E; [|done].
  apply H. by apply list_elem_of_In, last_Some_elem_of.
Qed.

(** A text whose first code unit occurs once in it does not overlap itself: its
    first occurrence after a text free of it is at the end of that text. *)
Lemma indexOf_first c p v t :
  ~ In c p -> includes v (c :: p) = false -> indexOf (c :: p) (v ++ (c :: p) ++ t) = Some (length v).
Proof.
  intros Hc Hv. induction v as [|d v IH].
  - cbn [app indexOf length]. assert (startsWith (c :: p ++ t) (c :: p) = true) as ->; [|done].
    apply startsWith_true. by exists t.
  - cbn [app indexOf length].
    assert (startsWith (d :: v ++ c :: p ++ t) (c :: p) = false) as ->.
    { destruct (startsWith _ _) eqn:E; [|done]. apply startsWith_true in E as [u E].
      change (d :: v ++ c :: p ++ t) with ((d :: v) ++ (c :: p ++ t)) in E.
      apply app_eq_app in E as [w [[E1 E2]|[E1 E2]]].
      - rewrite includes_false in Hv. by destruct (Hv [] w).
      - destruct w as [|e w].
        + rewrite app_nil_r in E1. rewrite includes_false in Hv. destruct (Hv [] []). by rewrite E1, app_nil_r.
        + injection E2 as <- _. exfalso. apply Hc. injection E1 as _ E1. rewrite E1.
          apply in_or_app. right. by left. }
    cbn [app] in IH. rewrite IH; [done|]. rewrite includes_false in *. intros a b ->. by destruct (Hv (d :: a) b).
Qed.

(** ** Splitting *)

(** [s.split(c)] on one code unit. *)
Fixpoint split_char (c : jschar) (s : jsstr) : list jsstr :=
  match s with
  | [] => [[]]
  | d :: t =>
      if (d =? c)%N then [] :: split_char c t
      else match split_char c t with
           | p :: ps => (d :: p) :: ps
           | [] => [[d]]
           end
  end.

Lemma includes_char s c : includes s [c] = false <-> ~ In c s.
Proof.
  rewrite includes_false. split.
  - intros H Hin. apply in_split in Hin as (a & b & ->). by apply (H a b).
  - intros H a b ->. apply H. rewrite !in_app_iff. cbn. tauto.
Qed.

Lemma split_char_none c s : forallb (fun d => negb (d =? c)%N) s = true -> split_char c s = [s].
Proof.
  induction s as [|d s IH]; [done|]. cbn. intros [Hd%negb_true_iff Hs]%andb_true_iff.
  by rewrite Hd, IH.
Qed.

Lemma split_char_alone c s : includes s [c] = false -> split_char c s = [s].
Proof.
  intros Hs%includes_char. apply split_char_none, forallb_forall. intros d Hd. apply negb_true_iff, N.eqb_neq.
  by intros ->.
Qed.

Lemma split_char_nonempty c s : split_char c s <> [].
Proof. destruct s as [|d s]; [done|]. cbn. destruct (d =? c)%N; [done|]. by destruct (split_char c s). Qed.

Lemma join_split_char c s : join [c] (split_char c s) = s.
Proof.
  induction s as [|d s IH]; [done|]. cbn [split_char]. destruct (N.eqb_spec d c) as [-> |].
  - rewrite join_cons by apply split_char_nonempty. by rewrite IH.
  - destruct (split_char c s) as [|p ps] eqn:E; [by destruct (split_char_nonempty c s)|].
    rewrite <- IH. destruct ps as [|q ps]; [done|]. reflexivity.
Qed.

Lemma split_char_app c a b :
  forallb (fun d => negb (d =? c)%N) a = true -> split_char c (a ++ c :: b) = a :: split_char c b.
Proof.
  induction a as [|d a IH]; cbn; [by rewrite N.eqb_refl|].
  intros [Hd%negb_true_iff Ha]%andb_true_iff. by rewrite Hd, IH.
Qed.
