(* ===== verification/JsRegex.v ===== *)
(** * Regular expressions of the language

    The sources parse and test strings with regular expression literals.
    This file models the backtracking matcher of ECMA-262 for the constructs
    they use: a matcher takes a continuation, alternation and the greedy
    quantifier try their branches in the order of the standard, and an
    iteration of a quantifier that consumes nothing is refused.  The captures
    are kept as substrings, the most recent first. *)

From S2P Require Import Prelude JsStr.

Inductive regex :=
| REps                              (* the empty pattern *)
| RChar (p : jschar -> bool)        (* one code unit of a class *)
| RSeq (a b : regex)
| RAlt (a b : regex)                (* a|b *)
| RStar (a : regex)                 (* a*, greedy *)
| RGroup (n : nat) (a : regex)      (* the n-th capturing group *)
| RBackref (n : nat)                (* \n *)
| RBol                              (* ^ without the m flag *)
| REol                              (* $ without the m flag *)
| RMBol                             (* ^ with the m flag *)
| RMEol                             (* $ with the m flag *)
| RWordB.                           (* \b *)

Definition ROpt (a : regex) : regex := RAlt a REps.
Definition RPlus (a : regex) : regex := RSeq a (RStar a).
Definition RStr (w : jsstr) : regex :=
  foldr (fun c r => RSeq (RChar (N.eqb c)) r) REps w.
Definition RAlts (ws : list jsstr) : regex :=
  match ws with
  | [] => REps
  | w :: ws => foldl (fun r w => RAlt r (RStr w)) (RStr w) ws
  end.

Declare Scope regex_scope.
Delimit Scope regex_scope with re.
Bind Scope regex_scope with regex.
Notation "a +> b" := (RSeq a b) (at level 55, right associativity) : regex_scope.

(** Character classes. *)
Definition cls_dot (c : jschar) : bool := negb (is_line_term c).
Definition cls_any (_ : jschar) : bool := true.
Definition cls_not (x : jschar) (c : jschar) : bool := negb (c =? x)%N.
(** [[\d.eE+-]] and [[\d.eE+]]. *)
Definition cls_num (c : jschar) : bool :=
  (is_digit c || (c =? 46) || (c =? 101) || (c =? 69) || (c =? 43) || (c =? 45))%N.
Definition cls_unum (c : jschar) : bool :=
  (is_digit c || (c =? 46) || (c =? 101) || (c =? 69) || (c =? 43))%N.

Definition caps := list (nat * jsstr).

Fixpoint cap (n : nat) (cs : caps) : option jsstr :=
  match cs with
  | [] => None
  | (m, w) :: cs => if Nat.eqb n m then Some w else cap n cs
  end.

(** A position in the input: the code unit before it, what follows it, and
    the captures so far. *)
Record mstate := MS { ms_prev : option jschar; ms_rest : jsstr; ms_caps : caps }.

Definition prev_of (p : option jschar) (w : jsstr) : option jschar :=
  match last w with Some c => Some c | None => p end.

Definition at_word (o : option jschar) : bool :=
  match o with Some c => is_word c | None => false end.

Fixpoint rmatch (r : regex) (k : mstate -> option mstate) (s : mstate)
    : option mstate :=
  match r with
  | REps => k s
  | RChar p =>
      match ms_rest s with
      | c :: t => if p c then k (MS (Some c) t (ms_caps s)) else None
      | [] => None
      end
  | RSeq a b => rmatch a (rmatch b k) s
  | RAlt a b =>
      match rmatch a k s with
      | Some x => Some x
      | None => rmatch b k s
      end
  | RStar a =>
      (fix star (n : nat) (s : mstate) : option mstate :=
         match n with
         | O => k s
         | S n' =>
             match rmatch a (fun s' =>
                     if Nat.ltb (length (ms_rest s')) (length (ms_rest s))
                     then star n' s' else None) s with
             | Some x => Some x
             | None => k s
             end
         end) (length (ms_rest s)) s
  | RGroup n a =>
      rmatch a (fun s' =>
        k (MS (ms_prev s') (ms_rest s')
              ((n, take (length (ms_rest s) - length (ms_rest s')) (ms_rest s))
                 :: ms_caps s'))) s
  | RBackref n =>
      match cap n (ms_caps s) with
      | None => k s
      | Some w =>
          match strip_prefix w (ms_rest s) with
          | Some t => k (MS (prev_of (ms_prev s) w) t (ms_caps s))
          | None => None
          end
      end
  | RBol => match ms_prev s with None => k s | Some _ => None end
  | REol => match ms_rest s with [] => k s | _ => None end
  | RMBol =>
      match ms_prev s with
      | None => k s
      | Some c => if is_line_term c then k s else None
      end
  | RMEol =>
      match ms_rest s with
      | [] => k s
      | c :: _ => if is_line_term c then k s else None
      end
  | RWordB =>
      if xorb (at_word (ms_prev s)) (at_word (head (ms_rest s)))
      then k s else None
  end.

(** The first match at or after a position: the text skipped, the text
    matched, the captures and the text left. *)
Record mresult := MR { mr_before : jsstr; mr_text : jsstr; mr_caps : caps;
                       mr_prev : option jschar; mr_after : jsstr }.

Fixpoint rsearch (r : regex) (skipped : jsstr) (prev : option jschar) (s : jsstr)
    : option mresult :=
  match rmatch r Some (MS prev s []) with
  | Some e => Some (MR (rev skipped)
                       (take (length s - length (ms_rest e)) s)
                       (ms_caps e) (ms_prev e) (ms_rest e))
  | None =>
      match s with
      | [] => None
      | c :: t => rsearch r (c :: skipped) (Some c) t
      end
  end.

(** [s.match(re)] without the g flag. *)
Definition rexec (r : regex) (s : jsstr) : option mresult := rsearch r [] None s.
(** [re.test(s)]. *)
Definition rtest (r : regex) (s : jsstr) : bool :=
  match rexec r s with Some _ => true | None => false end.
(** [m[n]] of a match. *)
Definition group (m : mresult) (n : nat) : option jsstr := cap n (mr_caps m).

(** The loop [while ((m = re.exec(s)) !== null)] of a global expression, for
    expressions whose matches are not empty: each search starts where the
    match before it ended. *)
Fixpoint rexec_all (fuel : nat) (r : regex) (prev : option jschar) (s : jsstr)
    : list mresult :=
  match fuel with
  | O => []
  | S fuel =>
      match rsearch r [] prev s with
      | None => []
      | Some m => m :: rexec_all fuel r (mr_prev m) (mr_after m)
      end
  end.

Definition rexec_g (r : regex) (s : jsstr) : list mresult :=
  rexec_all (S (length s)) r None s.

(** ** Equations of the matcher *)

(** A continuation that rejects every position whose next code unit is in
    the class [p]. *)
Definition rejects (p : jschar -> bool) (k : mstate -> option mstate) : Prop :=
  forall s c t, ms_rest s = c :: t -> p c = true -> k s = None.

Section Matcher.
Implicit Types (k : mstate -> option mstate) (w t : jsstr) (cs : caps).

Lemma rmatch_seq a b k s : rmatch (RSeq a b) k s = rmatch a (rmatch b k) s.
Proof. done. Qed.

Lemma rmatch_char p k prev c t cs :
  rmatch (RChar p) k (MS prev (c :: t) cs)
  = if p c then k (MS (Some c) t cs) else None.
Proof. done. Qed.

Lemma prev_of_cons p c w : prev_of (Some c) w = prev_of p (c :: w).
Proof.
  unfold prev_of. destruct w as [|d w]; [done|].
  change (last (c :: d :: w)) with (last (d :: w)).
  destruct (last (d :: w)) eqn:E; [done|]. by apply last_None in E.
Qed.

Lemma rmatch_str w t p cs k :
  rmatch (RStr w) k (MS p (w ++ t) cs) = k (MS (prev_of p w) t cs).
Proof.
  revert p. induction w as [|c w IH]; intros p; [done|].
  simpl. rewrite N.eqb_refl.
  change (foldr _ REps w) with (RStr w). rewrite IH.
  by rewrite (prev_of_cons p).
Qed.

Lemma rmatch_str_none w s p cs k :
  strip_prefix w s = None -> rmatch (RStr w) k (MS p s cs) = None.
Proof.
  revert s p. induction w as [|c w IH]; intros s p; simpl; [done|].
  destruct s as [|d s]; [done|]. simpl.
  destruct (c =? d)%N; [|done]. intros H. by apply IH.
Qed.

Lemma rmatch_str_gen w s p cs k :
  rmatch (RStr w) k (MS p s cs)
  = match strip_prefix w s with
    | Some t => k (MS (prev_of p w) t cs)
    | None => None
    end.
Proof.
  destruct (strip_prefix w s) as [t|] eqn:E.
  - apply strip_prefix_some in E as ->. apply rmatch_str.
  - by apply rmatch_str_none.
Qed.

(** The greedy loop over a class tries the longest run first. *)
Fixpoint star_run (p : jschar -> bool) k (prev : option jschar) (s : jsstr) cs
    : option mstate :=
  match s with
  | c :: t =>
      if p c then
        match star_run p k (Some c) t cs with
        | Some x => Some x
        | None => k (MS prev s cs)
        end
      else k (MS prev s cs)
  | [] => k (MS prev [] cs)
  end.

Lemma rmatch_star_char p k prev s cs :
  rmatch (RStar (RChar p)) k (MS prev s cs) = star_run p k prev s cs.
Proof.
  simpl. revert prev. induction s as [|c t IH]; intros prev; [done|].
  simpl. destruct (p c); [|done].
  assert (Nat.ltb (length t) (S (length t)) = true) as -> by (apply Nat.ltb_lt; lia).
  by rewrite IH.
Qed.

Lemma star_run_reject p k prev s cs :
  rejects p k ->
  star_run p k prev s cs
  = k (MS (prev_of prev (takeb p s)) (dropb p s) cs).
Proof.
  intros Hk. revert prev. induction s as [|c t IH]; intros prev; [done|].
  simpl. destruct (p c) eqn:E; [|done].
  rewrite IH. destruct (k _) eqn:Ek.
  - by rewrite <- (prev_of_cons prev), Ek.
  - rewrite <- (prev_of_cons prev), Ek. by apply (Hk _ c t).
Qed.

(** When what follows cannot start with a code unit of the class, the loop
    is deterministic. *)
Lemma rmatch_star_reject p k prev s cs :
  rejects p k ->
  rmatch (RStar (RChar p)) k (MS prev s cs)
  = k (MS (prev_of prev (takeb p s)) (dropb p s) cs).
Proof. intros. rewrite rmatch_star_char. by apply star_run_reject. Qed.

Lemma rmatch_plus_reject p k prev s cs :
  rejects p k ->
  rmatch (RPlus (RChar p)) k (MS prev s cs)
  = if truthy (takeb p s)
    then k (MS (prev_of prev (takeb p s)) (dropb p s) cs) else None.
Proof.
  intros Hk. unfold RPlus. rewrite rmatch_seq.
  destruct s as [|c t]; [done|]. rewrite rmatch_char. simpl takeb. simpl dropb.
  destruct (p c) eqn:E; [|done]. rewrite rmatch_star_reject by done.
  by rewrite <- (prev_of_cons prev).
Qed.

(** The loop fails when the continuation rejects every run. *)
Lemma star_run_none p k prev s cs :
  (forall u v, s = u ++ v -> forallb p u = true ->
     k (MS (prev_of prev u) v cs) = None) ->
  star_run p k prev s cs = None.
Proof.
  revert prev. induction s as [|c t IH]; intros prev H; simpl.
  - by apply (H [] []).
  - destruct (p c) eqn:E.
    + rewrite IH; [by apply (H [] (c :: t))|].
      intros u v -> Hu. rewrite (prev_of_cons prev). apply (H (c :: u) v); [done|].
      simpl. by rewrite E.
    + by apply (H [] (c :: t)).
Qed.

(** The loop succeeds with the longest run the continuation accepts. *)
Lemma star_run_longest p k prev u v cs x :
  forallb p u = true ->
  (forall w1 w2 c, v = (c :: w1) ++ w2 -> forallb p (c :: w1) = true ->
     k (MS (prev_of prev (u ++ c :: w1)) w2 cs) = None) ->
  k (MS (prev_of prev u) v cs) = Some x ->
  star_run p k prev (u ++ v) cs = Some x.
Proof.
  revert prev. induction u as [|c u IH]; intros prev Hu Hlong Hk; simpl in *.
  - clear Hu. unfold prev_of in Hk; simpl in Hk.
    destruct v as [|c t]; [done|]. simpl. destruct (p c) eqn:E; [|done].
    rewrite star_run_none; [done|].
    intros u v -> Hu. rewrite (prev_of_cons prev).
    apply (Hlong u v c); [done|]. simpl. by rewrite E.
  - apply andb_true_iff in Hu as [Hc Hu]. rewrite Hc.
    rewrite (IH (Some c)); [done|done| |].
    + intros w1 w2 d Hv Hw. rewrite (prev_of_cons prev). by apply Hlong.
    + by rewrite (prev_of_cons prev).
Qed.

(** An anchored expression is decided at the first position. *)
Lemma rsearch_anchored r s sk c :
  rsearch (RSeq RBol r) sk (Some c) s = None.
Proof. revert sk c. induction s as [|d s IH]; intros sk c; simpl; [done|]. apply IH. Qed.

Lemma rexec_anchored r s :
  rexec (RSeq RBol r) s
  = match rmatch r Some (MS None s []) with
    | Some e => Some (MR [] (take (length s - length (ms_rest e)) s)
                         (ms_caps e) (ms_prev e) (ms_rest e))
    | None => None
    end.
Proof.
  unfold rexec. destruct s as [|c s]; simpl.
  - by destruct (rmatch r Some _).
  - destruct (rmatch r Some _); [done|]. apply rsearch_anchored.
Qed.

(** ... and fails at once when it starts with a literal the text lacks. *)
Lemma rexec_lit_none w r s :
  strip_prefix w s = None -> rexec (RSeq RBol (RSeq (RStr w) r)) s = None.
Proof. intros H. by rewrite rexec_anchored, rmatch_seq, rmatch_str_none. Qed.

(** Every class of the expression is contained in [p]. *)
Fixpoint within (p : jschar -> bool) (r : regex) : Prop :=
  match r with
  | RChar q => forall c, q c = true -> p c = true
  | RSeq a b | RAlt a b => within p a /\ within p b
  | RStar a | RGroup _ a => within p a
  | RBackref _ => False
  | _ => True
  end.

Lemma within_str p w : forallb p w = true -> within p (RStr w).
Proof.
  induction w as [|c w IH]; cbn; [done|]. intros [Hc Hw]%andb_true_iff.
  split; [|by apply IH]. by intros d <-%N.eqb_eq.
Qed.

(** What a match consumes is made of the expression's classes. *)
Lemma rmatch_within p r k s x :
  within p r -> rmatch r k s = Some x ->
  exists s' w, ms_rest s = w ++ ms_rest s' /\ forallb p w = true /\ k s' = Some x.
Proof.
  revert k s. induction r as [|q|a IHa b IHb|a IHa b IHb|a IHa|n a IHa|n| | | | |];
    intros k s Hin H; cbn in Hin, H.
  - by exists s, [].
  - destruct (ms_rest s) as [|c t] eqn:E; [done|]. destruct (q c) eqn:Eq; [|done].
    exists (MS (Some c) t (ms_caps s)), [c]. cbn. by rewrite Hin.
  - destruct Hin as [Ha Hb].
    apply IHa in H as (s1 & w1 & H1 & H2 & H3); [|done].
    apply IHb in H3 as (s2 & w2 & H4 & H5 & H6); [|done].
    exists s2, (w1 ++ w2). rewrite H1, H4, app_assoc. split; [done|].
    split; [by apply forallb_app_iff|done].
  - destruct Hin as [Ha Hb]. destruct (rmatch a k s) eqn:Ea; [|by apply IHb].
    injection H as ->. by apply IHa.
  - revert H. generalize (length (ms_rest s)) at 1. intros n. revert s.
    induction n as [|n IHn]; intros s H; [by exists s, []|].
    destruct (rmatch a _ s) eqn:Ea; [|by exists s, []].
    injection H as ->. apply IHa in Ea as (s1 & w1 & H1 & H2 & H3); [|done].
    match type of H3 with (if ?b then _ else _) = _ => destruct b; [|done] end.
    apply IHn in H3 as (s2 & w2 & H4 & H5 & H6).
    exists s2, (w1 ++ w2). rewrite H1, H4, app_assoc. split; [done|].
    split; [by apply forallb_app_iff|done].
  - apply IHa in H as (s1 & w & H1 & H2 & H3); [|done].
    eexists _, w. split; [|split; [done|exact H3]]. done.
  - done.
  - destruct (ms_prev s); [done|]. by exists s, [].
  - destruct (ms_rest s) eqn:E; [|done]. exists s, []. by rewrite E.
  - exists s, []. split; [done|]. split; [done|].
    destruct (ms_prev s); [|done]. by destruct (is_line_term _).
  - exists s, []. split; [done|]. split; [done|].
    destruct (ms_rest s); [done|]. by destruct (is_line_term _).
  - destruct (xorb _ _); [|done]. by exists s, [].
Qed.

(** The expression ends with [$]. *)
Fixpoint closed (r : regex) : bool :=
  match r with
  | RSeq _ b => closed b
  | REol => true
  | _ => false
  end.

Lemma rmatch_closed p r s e :
  within p r -> closed r = true -> rmatch r Some s = Some e -> ms_rest e = [].
Proof.
  revert s. induction r as [|q|a _ b IHb|a _ b _|a _|n a _|n| | | | |]; intros s Hin Hc H;
    try done; cbn in Hin, H.
  - destruct Hin as [Ha Hb]. apply (rmatch_within p) in H as (s' & w & _ & _ & H); [|done].
    by apply IHb in H.
  - destruct (ms_rest s) eqn:E; [|done]. by injection H as <-.
Qed.

(** A text that passes an expression anchored on both sides is made of its
    classes. *)
Lemma rtest_within p r s :
  within p r -> closed r = true -> rtest (RSeq RBol r) s = true -> forallb p s = true.
Proof.
  intros Hin Hc. unfold rtest. rewrite rexec_anchored.
  destruct (rmatch r Some _) as [e|] eqn:E; [|done]. intros _.
  pose proof (rmatch_closed _ _ _ _ Hin Hc E) as He.
  apply (rmatch_within p) in E as (s' & w & H1 & H2 & [= ->]); [|done].
  cbn in H1. by rewrite H1, He, app_nil_r.
Qed.

(** ** Deterministic evaluation

    Equations that evaluate, without backtracking, the expressions made of
    literals, captured classes and alternatives of literals. *)

Lemma rejects_str p c w r k :
  p c = false -> rejects p (rmatch (RSeq (RStr (c :: w)) r) k).
Proof.
  intros Hp [prev rest cs] d t Hr Hd. cbn in Hr. subst rest.
  rewrite rmatch_seq. apply rmatch_str_none. cbn [strip_prefix].
  destruct (c =? d)%N eqn:E; [|done]. apply N.eqb_eq in E as ->. congruence.
Qed.

Lemma rejects_eol p k : rejects p (rmatch REol k).
Proof. intros [prev rest cs] d t Hr _. cbn in *. by rewrite Hr. Qed.

Lemma take_prefix w t : take (length (w ++ t) - length t) (w ++ t) = w.
Proof.
  rewrite length_app. replace (length w + length t - length t) with (length w) by lia.
  apply take_app_length.
Qed.

Lemma rmatch_group n a k s :
  rmatch (RGroup n a) k s
  = rmatch a (fun s' =>
      k (MS (ms_prev s') (ms_rest s')
            ((n, take (length (ms_rest s) - length (ms_rest s')) (ms_rest s)) :: ms_caps s'))) s.
Proof. done. Qed.

Lemma rmatch_group_plus n p k prev s cs :
  rejects p k ->
  rmatch (RGroup n (RPlus (RChar p))) k (MS prev s cs)
  = if truthy (takeb p s)
    then k (MS (prev_of prev (takeb p s)) (dropb p s) ((n, takeb p s) :: cs)) else None.
Proof.
  intros Hk. rewrite rmatch_group, rmatch_plus_reject.
  - cbn [ms_rest ms_prev ms_caps]. rewrite <- (takeb_dropb p s) at 4 6.
    by rewrite take_prefix.
  - intros s' c t Hs Hc. by apply (Hk _ c t).
Qed.

Lemma rmatch_group_star n p k prev s cs :
  rejects p k ->
  rmatch (RGroup n (RStar (RChar p))) k (MS prev s cs)
  = k (MS (prev_of prev (takeb p s)) (dropb p s) ((n, takeb p s) :: cs)).
Proof.
  intros Hk. rewrite rmatch_group, rmatch_star_reject.
  - cbn [ms_rest ms_prev ms_caps]. rewrite <- (takeb_dropb p s) at 3 5.
    by rewrite take_prefix.
  - intros s' c t Hs Hc. by apply (Hk _ c t).
Qed.

(** The same for a loop whose body consumes one code unit of [q] on a run of
    [q], and fails where the run ends. *)
Lemma rmatch_star_atom a q k prev u v cs :
  (forall k' p c t, q c = true -> rmatch a k' (MS p (c :: t) cs) = k' (MS (Some c) t cs)) ->
  (forall k' p, rmatch a k' (MS p v cs) = None) ->
  rejects q k -> forallb q u = true ->
  rmatch (RStar a) k (MS prev (u ++ v) cs) = k (MS (prev_of prev u) v cs).
Proof.
  intros Ha Hstop Hk Hu. cbn [rmatch ms_rest].
  assert (length u <= length (u ++ v)) as Hn by (rewrite length_app; lia).
  revert Hn. generalize (length (u ++ v)). intros n Hn.
  revert n Hn prev. induction u as [|c u IH]; intros n Hn prev.
  - destruct n as [|n]; [done|]. cbn [app]. by rewrite Hstop.
  - cbn [forallb] in Hu. apply andb_true_iff in Hu as [Hc Hu].
    destruct n as [|n]; [cbn in Hn; lia|]. cbn [app]. rewrite Ha by done.
    cbn [ms_rest length]. rewrite (proj2 (Nat.ltb_lt _ _)) by lia.
    rewrite IH by (done || cbn in Hn; lia). rewrite (prev_of_cons prev).
    destruct (k (MS (prev_of prev (c :: u)) v cs)) eqn:E; [done|].
    by apply (Hk _ c (u ++ v)).
Qed.

Lemma rmatch_group_str n w k prev s cs :
  rmatch (RGroup n (RStr w)) k (MS prev s cs)
  = match strip_prefix w s with
    | Some t => k (MS (prev_of prev w) t ((n, w) :: cs))
    | None => None
    end.
Proof.
  rewrite rmatch_group, rmatch_str_gen.
  destruct (strip_prefix w s) as [t|] eqn:E; [|done].
  apply strip_prefix_some in E as ->. cbn [ms_rest ms_prev ms_caps]. by rewrite take_prefix.
Qed.

Lemma rmatch_group_alt n a b k s :
  rmatch (RGroup n (RAlt a b)) k s
  = match rmatch (RGroup n a) k s with
    | Some x => Some x
    | None => rmatch (RGroup n b) k s
    end.
Proof. done. Qed.

Lemma rmatch_alt a b k s :
  rmatch (RAlt a b) k s
  = match rmatch a k s with Some x => Some x | None => rmatch b k s end.
Proof. done. Qed.

Lemma rmatch_backref n k prev s cs :
  rmatch (RBackref n) k (MS prev s cs)
  = match cap n cs with
    | None => k (MS prev s cs)
    | Some w =>
        match strip_prefix w s with
        | Some t => k (MS (prev_of prev w) t cs)
        | None => None
        end
    end.
Proof. done. Qed.

Lemma rmatch_eol k prev s cs :
  rmatch REol k (MS prev s cs) = match s with [] => k (MS prev [] cs) | _ => None end.
Proof. by destruct s. Qed.

(** A text that lacks a code unit of [w] does not start with [w]. *)
Lemma strip_prefix_absent w s c :
  In c w -> ~ In c s -> strip_prefix w s = None.
Proof.
  intros Hw Hs. destruct (strip_prefix w s) as [t|] eqn:E; [|done].
  apply strip_prefix_some in E as ->. exfalso. apply Hs, in_or_app. auto.
Qed.

End Matcher.

#[export] Hint Resolve rejects_str rejects_eol : js_db.

(** [within_tac] reduces [within] to its classes. *)
Ltac within_tac :=
  repeat first
  [ apply within_str; reflexivity
  | match goal with
    | |- within _ (RSeq _ _) => split
    | |- within _ (RAlt _ _) => split
    | |- within ?p (RStar ?a) => change (within p a)
    | |- within ?p (RGroup _ ?a) => change (within p a)
    | |- within _ REps => exact I
    | |- within _ REol => exact I
    | |- within _ (RChar _) => let c := fresh "c" in let H := fresh "H" in intros c H
    end ].

(** [re_step] evaluates one construct of an expression on a text whose shape
    is known; the side conditions on classes are left to [js_db]. *)
Ltac re_side :=
  solve [ done | assumption | auto with js_db
        | apply rejects_str; reflexivity | apply rejects_eol ].

Ltac re_step :=
  first
  [ progress strip_lit
  | rewrite takeb_until, dropb_until by re_side
  | rewrite takeb_whole, dropb_all by re_side
  | rewrite rmatch_seq
  | rewrite rmatch_str_gen; strip_lit
  | rewrite rmatch_eol
  | rewrite rmatch_group_alt
  | rewrite rmatch_group_str; strip_lit
  | rewrite rmatch_alt
  | rewrite rmatch_group_plus by re_side
  | rewrite rmatch_group_star by re_side
  | rewrite rmatch_backref; cbn [cap Nat.eqb]; strip_lit
  | rewrite strip_prefix_app; strip_lit
  | match goal with H : truthy ?x = true |- context [if truthy ?x then _ else _] => rewrite H end ];
  cbn beta iota.
