(* ===== verification/JsNum.v ===== *)
(** * Numbers of the language

    A JavaScript number is an IEEE 754 binary64.  The Standard Library's
    [SpecFloat] gives its operations as executable functions on integers; this
    file instantiates them at precision 53 and adds the conversions between
    numbers and decimal strings ([Number(s)], [String(x)]) and the [Math] and
    [Number] functions the sources call. *)

From S2P Require Import Prelude JsStr.
From Stdlib Require Export SpecFloat.
From Stdlib Require Import Recdef.

Local Open Scope Z_scope.

Abbreviation num := spec_float (only parsing).

Definition prec : Z := 53.
Definition emax : Z := 1024.

Definition nan : num := S754_nan.
Definition inf : num := S754_infinity false.
Definition zero : num := S754_zero false.

Definition nadd : num -> num -> num := SFadd prec emax.
Definition nsub : num -> num -> num := SFsub prec emax.
Definition nmul : num -> num -> num := SFmul prec emax.
Definition ndiv : num -> num -> num := SFdiv prec emax.
Definition nlt : num -> num -> bool := SFltb.
Definition nle : num -> num -> bool := SFleb.
Definition ngt (x y : num) : bool := SFltb y x.
Definition nge (x y : num) : bool := SFleb y x.
(** [x === y] on numbers: NaN differs from itself, the zeros are equal. *)
Definition neq (x y : num) : bool := SFeqb x y.

(** The number an integer literal denotes. *)
Definition num_of_Z (z : Z) : num := binary_normalize prec emax z 0 false.
Definition num_of_nat (n : nat) : num := num_of_Z (Z.of_nat n).

Definition isNaN (x : num) : bool := match x with S754_nan => true | _ => false end.
Definition isFinite (x : num) : bool :=
  match x with S754_nan | S754_infinity _ => false | _ => true end.

(** [Boolean(x)] and [x || d]. *)
Definition ntruthy (x : num) : bool :=
  match x with S754_nan | S754_zero _ => false | _ => true end.
Definition num_or (x d : num) : num := if ntruthy x then x else d.

(** [Math.max(a, b)] and [Math.min(a, b)]. *)
Definition nmax (a b : num) : num :=
  match a, b with
  | S754_nan, _ | _, S754_nan => nan
  | S754_zero s, S754_zero t => S754_zero (s && t)
  | _, _ => if SFltb a b then b else a
  end.
Definition nmin (a b : num) : num :=
  match a, b with
  | S754_nan, _ | _, S754_nan => nan
  | S754_zero s, S754_zero t => S754_zero (s || t)
  | _, _ => if SFltb b a then b else a
  end.

(** [Math.floor(x)] and [Math.ceil(x)]. *)
Definition signed_int (s : bool) (q : Z) : num :=
  match q with
  | Z0 => S754_zero s
  | Zpos p => binary_round prec emax s p 0
  | Zneg _ => nan
  end.
Definition nround_away (up : bool) (x : num) : num :=
  match x with
  | S754_finite s m e =>
      if 0 <=? e then x
      else
        let d := 2 ^ (- e) in
        let q := Zpos m / d in
        if Zpos m mod d =? 0 then x
        else signed_int s (if Bool.eqb up (negb s) then q + 1 else q)
  | _ => x
  end.
Definition nfloor : num -> num := nround_away false.
Definition nceil : num -> num := nround_away true.

(** ** Decimal strings to numbers *)

Definition digits_val (ds : jsstr) : Z :=
  foldl (fun a c => a * 10 + (Z.of_N c - 48)) 0 ds.

(** The number nearest to [m * 10^e]. *)
Definition dec_to_num (neg : bool) (m e : Z) : num :=
  match m with
  | Zpos p =>
      if 0 <=? e then
        match m * 10 ^ e with
        | Zpos q => binary_round prec emax neg q 0
        | _ => nan
        end
      else
        let '(q, e', l) := SFdiv_core_binary prec emax (Zpos p) 0 (10 ^ (- e)) 0 in
        binary_round_aux prec emax neg q e' l
  | _ => S754_zero neg
  end.

(** An unsigned decimal literal, as a mantissa and a power of ten. *)
Definition parse_exp (s : jsstr) : option Z :=
  match s with
  | [] => Some 0
  | c :: t =>
      if ((c =? 101) || (c =? 69))%N then
        let '(sg, ds) :=
          match t with
          | d :: t' => if (d =? 43)%N then (1, t') else if (d =? 45)%N then (-1, t') else (1, t)
          | [] => (1, [])
          end in
        if truthy ds && forallb is_digit ds then Some (sg * digits_val ds) else None
      else None
  end.

Definition parse_udec (s : jsstr) : option (Z * Z) :=
  let ip := takeb is_digit s in
  let r := dropb is_digit s in
  let '(fp, r') :=
    match r with
    | c :: t => if (c =? 46)%N then (takeb is_digit t, dropb is_digit t) else ([], r)
    | [] => ([], [])
    end in
  if truthy (ip ++ fp) then
    (fun e => (digits_val (ip ++ fp), e - Z.of_nat (length fp))) <$> parse_exp r'
  else None.

Definition hex_val (c : jschar) : option Z :=
  if is_digit c then Some (Z.of_N c - 48)
  else if ((97 <=? c) && (c <=? 102))%N then Some (Z.of_N c - 87)
  else if ((65 <=? c) && (c <=? 70))%N then Some (Z.of_N c - 55)
  else None.

(** An unsigned literal of radix 16, 8 or 2 after its prefix. *)
Fixpoint radix_val (b : Z) (acc : Z) (s : jsstr) : option Z :=
  match s with
  | [] => Some acc
  | c :: t =>
      match hex_val c with
      | Some d => if d <? b then radix_val b (acc * b + d) t else None
      | None => None
      end
  end.

Definition parse_radix (s : jsstr) : option num :=
  match s with
  | z :: c :: t =>
      if (z =? 48)%N && truthy t then
        let b := if ((c =? 120) || (c =? 88))%N then 16
                 else if ((c =? 111) || (c =? 79))%N then 8
                 else if ((c =? 98) || (c =? 66))%N then 2 else 0 in
        if b =? 0 then None else (fun v => num_of_Z v) <$> radix_val b 0 t
      else None
  | _ => None
  end.

Definition parse_dec (neg : bool) (s : jsstr) : num :=
  if str_eqb s (js "Infinity") then S754_infinity neg
  else match parse_udec s with
       | Some (m, e) => dec_to_num neg m e
       | None => nan
       end.

(** [Number(s)] on a string. *)
Definition num_of_str (s0 : jsstr) : num :=
  let s := trim s0 in
  match s with
  | [] => zero
  | c :: t =>
      match parse_radix s with
      | Some x => x
      | None =>
          if (c =? 43)%N then parse_dec false t
          else if (c =? 45)%N then parse_dec true t
          else parse_dec false s
      end
  end.

(** ** [parseFloat]: the longest prefix that is a decimal literal *)

Definition float_exp (s : jsstr) : Z :=
  match s with
  | c :: t =>
      if ((c =? 101) || (c =? 69))%N then
        let '(sg, r) := match t with
                        | d :: t' => if (d =? 43)%N then (1%Z, t') else if (d =? 45)%N then ((-1)%Z, t') else (1%Z, t)
                        | [] => (1%Z, [])
                        end in
        (sg * digits_val (takeb is_digit r))%Z
      else 0%Z
  | [] => 0%Z
  end.
Definition parse_float_unsigned (neg : bool) (s : jsstr) : num :=
  if startsWith s (js "Infinity") then S754_infinity neg
  else
    let ip := takeb is_digit s in
    let r := dropb is_digit s in
    let '(fp, r') := match r with
                     | c :: t => if (c =? 46)%N then (takeb is_digit t, dropb is_digit t) else ([], r)
                     | [] => ([], [])
                     end in
    if truthy (ip ++ fp) then dec_to_num neg (digits_val (ip ++ fp)) (float_exp r' - Z.of_nat (length fp)) else nan.
Definition parseFloat (s : jsstr) : num :=
  match trimStart s with
  | c :: t => if (c =? 43)%N then parse_float_unsigned false t
              else if (c =? 45)%N then parse_float_unsigned true t else parse_float_unsigned false (c :: t)
  | [] => nan
  end.

(** ** Numbers to strings *)

(** Decimal digits of a non-negative integer, most significant first. *)
Fixpoint digits_fuel (fuel : nat) (z : Z) (acc : jsstr) : jsstr :=
  match fuel with
  | O => acc
  | S f =>
      let acc' := Z.to_N (z mod 10 + 48) :: acc in
      if z <? 10 then acc' else digits_fuel f (z / 10) acc'
  end.
Definition digits_of (z : Z) : jsstr := digits_fuel (S (Z.to_nat (Z.log2 z))) z [].

Definition rep (n : Z) (c : jschar) : jsstr := replicate (Z.to_nat n) c.

(** The exponent [n] with [10^(n-1) <= a/b < 10^n], from an estimate. *)
Fixpoint dec_exp (fuel : nat) (a b n : Z) : Z :=
  match fuel with
  | O => n
  | S f =>
      let lt_pow (k : Z) :=   (* a/b < 10^k *)
        if 0 <=? k then a <? b * 10 ^ k else a * 10 ^ (- k) <? b in
      if negb (lt_pow n) then dec_exp f a b (n + 1)
      else if lt_pow (n - 1) then dec_exp f a b (n - 1)
      else n
  end.

(** [s] and [q] such that [s * 10^q] has [k] digits, is nearest to [a/b] and
    denotes [x], when there is one. *)
Definition try_digits (x : num) (a b n k : Z) : option (Z * Z) :=
  let q := n - k in
  let '(u, v) := if 0 <=? q then (a, b * 10 ^ q) else (a * 10 ^ (- q), b) in
  let lo := u / v in
  let ok s := neq (dec_to_num false s q) x in
  let hi_first := (v <? 2 * (u mod v)) || ((2 * (u mod v) =? v) && Z.odd lo) in
  let '(s1, s2) := if hi_first then (lo + 1, lo) else (lo, lo + 1) in
  if ok s1 then Some (s1, q) else if ok s2 then Some (s2, q) else None.

Fixpoint shortest (fuel : nat) (x : num) (a b n k : Z) : Z * Z :=
  match fuel with
  | O => ((if 0 <=? n - k then a / (b * 10 ^ (n - k)) else a * 10 ^ (k - n) / b), n - k)
  | S f =>
      match try_digits x a b n k with
      | Some r => r
      | None => shortest f x a b n (k + 1)
      end
  end.

Definition strip_zeros (ds : jsstr) : jsstr := rev (dropb (N.eqb 48) (rev ds)).

(** The digits and the decimal point of [Number::toString]. *)
Definition layout (ds : jsstr) (n : Z) : jsstr :=
  let k := Z.of_nat (length ds) in
  if (k <=? n) && (n <=? 21) then ds ++ rep (n - k) 48%N
  else if (0 <? n) && (n <=? 21) then
    take (Z.to_nat n) ds ++ [46%N] ++ drop (Z.to_nat n) ds
  else if (-6 <? n) && (n <=? 0) then js "0." ++ rep (- n) 48%N ++ ds
  else
    let e := n - 1 in
    let es := (if 0 <=? e then [43%N] else [45%N]) ++ digits_of (Z.abs e) in
    match ds with
    | d :: (_ :: _) as t => d :: 46%N :: drop 1 ds ++ [101%N] ++ es
    | _ => ds ++ [101%N] ++ es
    end.

Definition pos_to_str (m : positive) (e : Z) : jsstr :=
  let x := S754_finite false m e in
  let '(a, b) := if 0 <=? e then (Zpos m * 2 ^ e, 1) else (Zpos m, 2 ^ (- e)) in
  let n0 := (Z.log2 a - Z.log2 b) * 30103 / 100000 + 1 in
  let n := dec_exp 8 a b n0 in
  let '(s, q) := shortest 17 x a b n 1 in
  let ds := digits_of s in
  layout (strip_zeros ds) (q + Z.of_nat (length ds)).

(** [String(x)] on a number. *)
Definition num_to_str (x : num) : jsstr :=
  match x with
  | S754_nan => js "NaN"
  | S754_zero _ => js "0"
  | S754_infinity s => (if s then js "-" else []) ++ js "Infinity"
  | S754_finite s m e => (if s then js "-" else []) ++ pos_to_str m e
  end.

(** [-x] and [Math.abs(x)]. *)
Definition nneg (x : num) : num := SFopp x.
Definition nabs (x : num) : num := SFabs x.

(** [Math.round(x)]: halves go up, and a result of zero keeps the sign. *)
Definition nround (x : num) : num :=
  match x with
  | S754_finite s m e =>
      if 0 <=? e then x
      else
        let d := 2 ^ (- e) in
        let r := ((if s then - Zpos m else Zpos m) * 2 + d) / (2 * d) in
        if r =? 0 then S754_zero s else num_of_Z r
  | _ => x
  end.

(** [x % y]: the exact remainder, with the sign of [x]. *)
Definition nrem (x y : num) : num :=
  match x, y with
  | S754_nan, _ | _, S754_nan | S754_infinity _, _ | _, S754_zero _ => nan
  | S754_zero _, _ | _, S754_infinity _ => x
  | S754_finite s m e, S754_finite _ n f =>
      let g := Z.min e f in
      let r := (Zpos m * 2 ^ (e - g)) mod (Zpos n * 2 ^ (f - g)) in
      match r with
      | Zpos p => binary_round prec emax s p g
      | _ => S754_zero s
      end
  end.

(** The integer part of a finite number. *)
Definition num_to_Z (x : num) : Z :=
  match x with
  | S754_finite s m e =>
      let a := if 0 <=? e then Zpos m * 2 ^ e else Zpos m / 2 ^ (- e) in
      if s then - a else a
  | _ => 0
  end.

(** The number nearest to [10^k], as [Math.pow(10, k)]. *)
Definition npow10 (k : Z) : num := dec_to_num false 1 k.

(** The integer nearest to [m * 2^e * 10^f], the larger of two. *)
Definition fixed_int (m : positive) (e f : Z) : Z :=
  let a := Zpos m * 10 ^ f in
  if 0 <=? e then a * 2 ^ e else (2 * a + 2 ^ (- e)) / (2 * 2 ^ (- e)).

(** Digits with [f] of them after the point. *)
Definition fixed_layout (n f : Z) : jsstr :=
  let ds := digits_of n in
  if f =? 0 then ds
  else
    let k := Z.of_nat (length ds) in
    let ds := if k <=? f then rep (f + 1 - k) 48%N ++ ds else ds in
    let i := (length ds - Z.to_nat f)%nat in
    take i ds ++ [46%N] ++ drop i ds.

(** [x.toFixed(f)]. *)
Definition toFixed (x : num) (f : Z) : jsstr :=
  match x with
  | S754_nan | S754_infinity _ => num_to_str x
  | S754_zero _ => fixed_layout 0 f
  | S754_finite s m e =>
      if nge (nabs x) (num_of_Z (10 ^ 21)) then num_to_str x
      else (if s then js "-" else []) ++ fixed_layout (fixed_int m e f) f
  end.

(** ** Facts *)

Lemma SFcompare_antisym x y :
  SFcompare y x = CompOpp <$> SFcompare x y.
Proof.
  destruct x as [s| s| |s m e], y as [t|t| |t n f]; simpl; try done;
    try (by destruct s); try (by destruct t); try (by destruct s, t).
  destruct s, t; simpl; try done;
    rewrite (Z.compare_antisym e f); destruct (e ?= f); simpl; try done;
    change (Pos.compare_cont Eq ?a ?b) with (Pos.compare a b);
    rewrite (Pos.compare_antisym m n); by destruct (Pos.compare m n).
Qed.

Lemma nlt_irrefl x : nlt x x = false.
Proof.
  unfold nlt, SFltb. pose proof (SFcompare_antisym x x) as H.
  destruct (SFcompare x x) as [[]|]; simpl in H; congruence.
Qed.

Lemma nlt_nle_false x y : nlt x y = true -> nle y x = false.
Proof.
  unfold nlt, nle, SFltb, SFleb. rewrite (SFcompare_antisym x y).
  by destruct (SFcompare x y) as [[]|].
Qed.

Lemma nle_cases x y : nle x y = nlt x y || neq x y.
Proof. unfold nle, nlt, neq, SFleb, SFltb, SFeqb. by destruct (SFcompare x y) as [[]|]. Qed.

(** [Math.max(0, x)] is never below zero; it is NaN only on NaN. *)
Lemma nmax_zero_nonneg x : isNaN x = false -> nle zero (nmax zero x) = true.
Proof. by destruct x as [s|s| |s m e]; try destruct s. Qed.

Lemma nmax_zero_nan x : isNaN (nmax zero x) = isNaN x.
Proof. by destruct x as [s|s| |s m e]; try destruct s. Qed.

#[export] Instance num_eq_dec : EqDecision num.
Proof. solve_decision. Defined.

(** ** Decimal digits are read back *)

Lemma digits_fuel_acc f z acc : digits_fuel f z acc = digits_fuel f z [] ++ acc.
Proof.
  revert z acc. induction f as [|f IH]; intros z acc; [done|]. cbn [digits_fuel].
  destruct (z <? 10); [done|]. rewrite IH, (IH _ [_]), <- app_assoc. done.
Qed.

Lemma digits_val_snoc ds c : digits_val (ds ++ [c]) = digits_val ds * 10 + (Z.of_N c - 48).
Proof. unfold digits_val. rewrite foldl_app. cbn. lia. Qed.

Lemma digits_fuel_val f z : 0 <= z < 2 ^ Z.of_nat f -> digits_val (digits_fuel f z []) = z.
Proof.
  revert z. induction f as [|f IH]; intros z Hz; [cbn in *; lia|]. cbn [digits_fuel].
  pose proof (Z.mod_pos_bound z 10 ltac:(lia)). pose proof (Z.div_mod z 10 ltac:(lia)).
  rewrite Nat2Z.inj_succ, Z.pow_succ_r in Hz by lia.
  destruct (Z.ltb_spec z 10) as [Hlt|Hge].
  - rewrite <- (app_nil_l [_]), digits_val_snoc. change (digits_val []) with 0.
    rewrite Z2N.id, Z.mod_small by lia. lia.
  - rewrite digits_fuel_acc, digits_val_snoc, IH by lia. rewrite Z2N.id by lia. lia.
Qed.

Lemma digits_val_of z : 0 <= z -> digits_val (digits_of z) = z.
Proof.
  intros Hz. apply digits_fuel_val. split; [done|]. rewrite Nat2Z.inj_succ, Z2Nat.id by apply Z.log2_nonneg.
  destruct (Z.eq_dec z 0) as [->|]; [done|]. apply Z.log2_spec. lia.
Qed.

Lemma digits_of_inj a b : 0 <= a -> 0 <= b -> digits_of a = digits_of b -> a = b.
Proof. intros Ha Hb H. by rewrite <- (digits_val_of a), <- (digits_val_of b), H. Qed.
