(* ===== verification/JsInt.v ===== *)
(** * Integers as numbers

    A double holds every integer of fewer than 53 bits exactly.  On these
    [nadd], [nsub] and the comparisons, which work on mantissas and
    exponents, are the operations of the integers: page indexes, counts and
    byte sizes can be reasoned about in [Z]. *)

From Stdlib Require Import SpecFloat.
From S2P Require Import Prelude JsStr JsNum.
Local Open Scope Z_scope.

(** ** Binary digits *)

Lemma digits2_bounds p : 2 ^ (Zpos (digits2_pos p) - 1) <= Zpos p < 2 ^ Zpos (digits2_pos p).
Proof.
  induction p as [p IH|p IH|]; cbn [digits2_pos]; [| |cbn; lia];
    rewrite Pos2Z.inj_succ; set (d := Zpos (digits2_pos p)) in *;
    replace (Z.succ d - 1) with (Z.succ (d - 1)) by lia; rewrite !Z.pow_succ_r by lia; lia.
Qed.

Lemma digits2_unique p d : 0 < d -> 2 ^ (d - 1) <= Zpos p < 2 ^ d -> Zpos (digits2_pos p) = d.
Proof.
  intros Hd H. pose proof (digits2_bounds p) as Hp. set (k := Zpos (digits2_pos p)) in *.
  assert (0 < k) by lia.
  assert (k - 1 < d) by (apply (Z.pow_lt_mono_r_iff 2); lia).
  assert (d - 1 < k) by (apply (Z.pow_lt_mono_r_iff 2); lia). lia.
Qed.

(** A positive with [k] more binary digits. *)
Definition scale (p : positive) (k : Z) : positive := Z.to_pos (Zpos p * 2 ^ k).

Lemma scale_val p k : 0 <= k -> Zpos (scale p k) = Zpos p * 2 ^ k.
Proof. intros Hk. unfold scale. rewrite Z2Pos.id; [done|]. pose proof (Z.pow_pos_nonneg 2 k). lia. Qed.

Lemma scale_0 p : scale p 0 = p.
Proof. unfold scale. rewrite Z.mul_1_r. done. Qed.

Lemma scale_scale p a b : 0 <= a -> 0 <= b -> scale (scale p a) b = scale p (a + b).
Proof.
  intros Ha Hb. apply Pos2Z.inj. rewrite !scale_val by lia. rewrite Z.pow_add_r by lia. lia.
Qed.

Lemma digits2_scale p k : 0 <= k -> Zpos (digits2_pos (scale p k)) = Zpos (digits2_pos p) + k.
Proof.
  intros Hk. pose proof (digits2_bounds p) as Hp. apply digits2_unique; [lia|].
  rewrite scale_val by done.
  replace (Zpos (digits2_pos p) + k - 1) with (Zpos (digits2_pos p) - 1 + k) by lia.
  rewrite !Z.pow_add_r by lia. pose proof (Z.pow_pos_nonneg 2 k). nia.
Qed.

(** ** Shifts *)

Lemma iter_xO p d : Pos.iter xO p d = scale p (Zpos d).
Proof.
  apply Pos2Z.inj. rewrite scale_val by lia. revert p. induction d as [|d IH] using Pos.peano_ind; intros p; [cbn; lia|].
  rewrite Pos.iter_succ, Pos2Z.inj_succ, Z.pow_succ_r by lia.
  rewrite Pos2Z.inj_xO, IH. lia.
Qed.

Lemma shl_align_le p e e' : e' <= e -> shl_align p e e' = (scale p (e - e'), e').
Proof.
  intros H. unfold shl_align. destruct (e' - e) as [|d|d] eqn:E; [| lia|].
  - replace (e - e') with 0 by lia. rewrite scale_0. f_equal. lia.
  - rewrite iter_xO. do 2 f_equal. lia.
Qed.

Lemma shl_align_gt p e e' : e < e' -> shl_align p e e' = (p, e).
Proof. intros H. unfold shl_align. destruct (e' - e) as [|d|d] eqn:E; [done|done|lia]. Qed.

Lemma shr_1_even m : shr_1 (Build_shr_record (2 * m) false false) = Build_shr_record m false false.
Proof. by destruct m. Qed.

Lemma iter_shr n m :
  iter_pos shr_1 n (Build_shr_record (m * 2 ^ Zpos n) false false) = Build_shr_record m false false.
Proof.
  revert m. induction n as [n IH|n IH|]; intros m; cbn [iter_pos].
  - replace (m * 2 ^ Zpos (xI n)) with (2 * (m * 2 ^ Zpos n * 2 ^ Zpos n)).
    + by rewrite shr_1_even, !IH.
    + rewrite (Pos2Z.inj_xI n), Z.pow_add_r, Z.pow_twice_r by lia. lia.
  - replace (m * 2 ^ Zpos (xO n)) with (m * 2 ^ Zpos n * 2 ^ Zpos n) by (rewrite (Pos2Z.inj_xO n), Z.pow_twice_r; lia).
    by rewrite !IH.
  - replace (m * 2 ^ 1) with (2 * m) by lia. apply shr_1_even.
Qed.

Lemma shr_exact m e n : 0 <= n -> shr (Build_shr_record (m * 2 ^ n) false false) e n = (Build_shr_record m false false, e + n).
Proof.
  intros Hn. unfold shr. destruct n as [|n|n]; [|by rewrite iter_shr|lia].
  rewrite Z.mul_1_r, Z.add_0_r. done.
Qed.

(** ** Rounding what needs no rounding *)

Lemma fexp_normal e : -1074 + 53 <= e -> fexp prec emax e = e - 53.
Proof. unfold fexp, emin, prec, emax. lia. Qed.

(** A mantissa of 53 digits is kept. *)
Lemma shr_fexp_id m e :
  Zpos (digits2_pos m) = 53 -> -1074 <= e ->
  shr_fexp prec emax (Zpos m) e loc_Exact = (Build_shr_record (Zpos m) false false, e).
Proof.
  intros Hm He. unfold shr_fexp. cbn [Zdigits2 shr_record_of_loc]. rewrite Hm, fexp_normal by lia.
  by replace (53 + e - 53 - e) with 0 by lia.
Qed.

Lemma round_aux_exact s m e k :
  Zpos (digits2_pos m) = 53 -> 0 <= k -> -1074 <= e + k <= 971 ->
  binary_round_aux prec emax s (Zpos (scale m k)) e loc_Exact = S754_finite s m (e + k).
Proof.
  intros Hm Hk He. unfold binary_round_aux.
  assert (shr_fexp prec emax (Zpos (scale m k)) e loc_Exact = (Build_shr_record (Zpos m) false false, e + k)) as ->.
  { unfold shr_fexp. cbn [Zdigits2 shr_record_of_loc]. rewrite digits2_scale, Hm, fexp_normal by lia.
    replace (53 + k + e - 53 - e) with k by lia. rewrite scale_val by done. by apply shr_exact. }
  cbn [shr_m loc_of_shr_record round_nearest_even]. rewrite shr_fexp_id by lia. cbn [shr_m].
  destruct (Z.leb_spec (e + k) (emax - prec)) as [_|H]; [done|]. unfold emax, prec in H. lia.
Qed.

(** The digits of an integer, and its mantissa. *)
Definition ndigits (p : positive) : Z := Zpos (digits2_pos p).

Lemma binary_round_scaled s p k :
  0 <= k -> ndigits p <= 53 ->
  binary_round prec emax s (scale p k) (- k) = S754_finite s (scale p (53 - ndigits p)) (ndigits p - 53).
Proof.
  unfold ndigits. intros Hk Hp. unfold binary_round. rewrite digits2_scale by done.
  replace (Zpos (digits2_pos p) + k + - k) with (Zpos (digits2_pos p)) by lia.
  rewrite fexp_normal by lia. set (d := Zpos (digits2_pos p)) in *.
  assert (Zpos (digits2_pos (scale p (53 - d))) = 53) as Hm by (rewrite digits2_scale by lia; lia).
  destruct (Z.le_gt_cases (d - 53) (- k)) as [H|H].
  - rewrite shl_align_le by done. rewrite scale_scale by lia.
    replace (k + (- k - (d - 53))) with (53 - d) by lia.
    rewrite <- (scale_0 (scale p (53 - d))) at 1.
    rewrite round_aux_exact by lia. by rewrite Z.add_0_r.
  - rewrite shl_align_gt by done.
    replace (scale p k) with (scale (scale p (53 - d)) (k + d - 53)) by (rewrite scale_scale by lia; f_equal; lia).
    rewrite round_aux_exact by lia. f_equal. lia.
Qed.

(** ** Integers *)

Definition exact (z : Z) : Prop := Z.abs z < 2 ^ 53.

Lemma exact_digits p : exact (Zpos p) -> ndigits p <= 53.
Proof.
  unfold exact, ndigits. cbn [Z.abs]. intros H. pose proof (digits2_bounds p) as Hp.
  assert (Zpos (digits2_pos p) - 1 < 53); [|lia]. apply (Z.pow_lt_mono_r_iff 2); lia.
Qed.

Definition mant (p : positive) : positive := scale p (53 - ndigits p).

Lemma num_of_Z_pos p : exact (Zpos p) -> num_of_Z (Zpos p) = S754_finite false (mant p) (ndigits p - 53).
Proof.
  intros H. unfold num_of_Z. cbn [binary_normalize].
  rewrite <- (scale_0 p) at 1. apply (binary_round_scaled false p 0); [lia|by apply exact_digits].
Qed.

Lemma num_of_Z_neg p : exact (Zneg p) -> num_of_Z (Zneg p) = S754_finite true (mant p) (ndigits p - 53).
Proof.
  intros H. unfold num_of_Z. cbn [binary_normalize].
  rewrite <- (scale_0 p) at 1. apply (binary_round_scaled true p 0); [lia|by apply (exact_digits p)].
Qed.

Lemma normalize_scaled z k : exact z -> 0 <= k -> binary_normalize prec emax (z * 2 ^ k) (- k) false = num_of_Z z.
Proof.
  intros Hz Hk. destruct z as [|p|p].
  - by rewrite Z.mul_0_l.
  - rewrite <- scale_val by done. cbn [binary_normalize].
    rewrite num_of_Z_pos by done. apply binary_round_scaled; [done|by apply exact_digits].
  - replace (Zneg p * 2 ^ k) with (- (Zpos p * 2 ^ k)) by lia. rewrite <- scale_val by done. cbn [binary_normalize Z.opp].
    rewrite num_of_Z_neg by done. apply binary_round_scaled; [done|by apply (exact_digits p)].
Qed.

Lemma mant_align p ez :
  ndigits p <= 53 -> ez <= ndigits p - 53 ->
  Zpos (shl_align (mant p) (ndigits p - 53) ez).1 = Zpos p * 2 ^ (- ez).
Proof.
  intros Hp He. rewrite shl_align_le by done. cbn [fst]. unfold mant.
  rewrite scale_scale, scale_val by lia. do 2 f_equal. lia.
Qed.

(** The finite number of a non-zero integer. *)
Lemma num_of_Z_cases z :
  exact z ->
  (z = 0 /\ num_of_Z z = zero)
  \/ exists s p, z = cond_Zopp s (Zpos p) /\ ndigits p <= 53
             /\ num_of_Z z = S754_finite s (mant p) (ndigits p - 53).
Proof.
  intros H. destruct z as [|p|p]; [by left|right; exists false, p|right; exists true, p];
    (split; [done|]); (split; [by apply (exact_digits p)|]);
    [by apply num_of_Z_pos|by apply num_of_Z_neg].
Qed.

Lemma sum_aligned s p ez :
  ndigits p <= 53 -> ez <= ndigits p - 53 ->
  cond_Zopp s (Zpos (shl_align (mant p) (ndigits p - 53) ez).1) = cond_Zopp s (Zpos p) * 2 ^ (- ez).
Proof. intros Hp He. rewrite mant_align by done. destruct s; cbn [cond_Zopp]; lia. Qed.

(** Addition and subtraction are exact while the result is. *)
Lemma nadd_Z a b : exact a -> exact b -> exact (a + b) -> nadd (num_of_Z a) (num_of_Z b) = num_of_Z (a + b).
Proof.
  intros Ha Hb Hab.
  destruct (num_of_Z_cases a Ha) as [[-> Na]|(s & p & Ea & Hp & Na)];
  destruct (num_of_Z_cases b Hb) as [[-> Nb]|(s' & p' & Eb & Hp' & Nb)].
  - done.
  - rewrite Z.add_0_l, Nb. done.
  - rewrite Z.add_0_r, Na. done.
  - rewrite Na, Nb. unfold nadd. cbn [SFadd].
    rewrite !sum_aligned, <- Ea, <- Eb, <- Z.mul_add_distr_r by lia.
    set (ez := Z.min _ _). rewrite <- (Z.opp_involutive ez) at 2.
    apply normalize_scaled; [done|lia].
Qed.

Lemma num_of_Z_opp a : exact a -> a <> 0 -> num_of_Z (- a) = SFopp (num_of_Z a).
Proof.
  intros Ha H0. destruct a as [|p|p]; [done| |].
  - change (- Zpos p) with (Zneg p). by rewrite num_of_Z_pos, num_of_Z_neg.
  - change (- Zneg p) with (Zpos p). by rewrite num_of_Z_pos, num_of_Z_neg.
Qed.

Lemma nsub_Z a b : exact a -> exact b -> exact (a - b) -> nsub (num_of_Z a) (num_of_Z b) = num_of_Z (a - b).
Proof.
  intros Ha Hb Hab.
  destruct (num_of_Z_cases a Ha) as [[-> Na]|(s & p & Ea & Hp & Na)];
  destruct (num_of_Z_cases b Hb) as [[-> Nb]|(s' & p' & Eb & Hp' & Nb)].
  - done.
  - rewrite Z.sub_0_l, num_of_Z_opp, Nb by (done || destruct s'; cbn in Eb; lia). done.
  - rewrite Z.sub_0_r, Na. done.
  - rewrite Na, Nb. unfold nsub. cbn [SFsub].
    rewrite !sum_aligned, <- Ea, <- Eb, <- Z.mul_sub_distr_r by lia.
    set (ez := Z.min _ _). rewrite <- (Z.opp_involutive ez) at 2.
    apply normalize_scaled; [done|lia].
Qed.

(** ** Comparison *)

Lemma mant_compare p q :
  ndigits p <= 53 -> ndigits q <= 53 ->
  match (ndigits p - 53 ?= ndigits q - 53) with
  | Lt => Lt | Gt => Gt | Eq => Pos.compare_cont Eq (mant p) (mant q)
  end = (Zpos p ?= Zpos q).
Proof.
  intros Hp Hq. pose proof (digits2_bounds p) as Bp. pose proof (digits2_bounds q) as Bq.
  unfold ndigits in *. set (dp := Zpos (digits2_pos p)) in *. set (dq := Zpos (digits2_pos q)) in *.
  symmetry. destruct (Z.compare_spec (dp - 53) (dq - 53)) as [E|L|G].
  - change (Pos.compare_cont Eq (mant p) (mant q)) with (Zpos (mant p) ?= Zpos (mant q)).
    unfold mant, ndigits. fold dp dq. rewrite !scale_val by lia. replace dq with dp by lia.
    pose proof (Z.pow_pos_nonneg 2 (53 - dp)). rewrite !(Z.mul_comm _ (2 ^ _)).
    apply Zmult_compare_compat_l. lia.
  - apply Z.compare_lt_iff. assert (2 ^ dp <= 2 ^ (dq - 1)) by (apply Z.pow_le_mono_r; lia). lia.
  - apply Z.compare_gt_iff. assert (2 ^ dq <= 2 ^ (dp - 1)) by (apply Z.pow_le_mono_r; lia). lia.
Qed.

Lemma compare_Z a b : exact a -> exact b -> SFcompare (num_of_Z a) (num_of_Z b) = Some (a ?= b).
Proof.
  intros Ha Hb. destruct a as [|p|p], b as [|q|q];
    rewrite ?num_of_Z_pos, ?num_of_Z_neg by done; try done;
    pose proof (exact_digits p Ha); pose proof (exact_digits q Hb); cbn [SFcompare]; f_equal.
  - by apply mant_compare.
  - cbn [Z.compare]. change (p ?= q)%positive with (Zpos p ?= Zpos q). rewrite <- mant_compare by done.
    by destruct (_ ?= _).
Qed.

Lemma nlt_Z a b : exact a -> exact b -> nlt (num_of_Z a) (num_of_Z b) = (a <? b).
Proof. intros Ha Hb. unfold nlt, SFltb, Z.ltb. rewrite compare_Z by done. by destruct (a ?= b). Qed.

Lemma nle_Z a b : exact a -> exact b -> nle (num_of_Z a) (num_of_Z b) = (a <=? b).
Proof. intros Ha Hb. unfold nle, SFleb, Z.leb. rewrite compare_Z by done. by destruct (a ?= b). Qed.

Lemma neq_Z a b : exact a -> exact b -> neq (num_of_Z a) (num_of_Z b) = (a =? b).
Proof.
  intros Ha Hb. unfold neq, SFeqb. rewrite compare_Z by done. rewrite Z.eqb_compare. by destruct (a ?= b).
Qed.

Lemma num_of_Z_inj a b : exact a -> exact b -> num_of_Z a = num_of_Z b -> a = b.
Proof.
  intros Ha Hb H. pose proof (compare_Z a b Ha Hb) as Hc. rewrite H, compare_Z in Hc by done.
  rewrite Z.compare_refl in Hc. symmetry in Hc. injection Hc as Hc. by apply Z.compare_eq in Hc.
Qed.

(** ** Rounding gives a number *)

Lemma shr_1_nonneg r : 0 <= shr_m r -> 0 <= shr_m (shr_1 r).
Proof. destruct r as [[|[]|[]] ? ?]; cbn; lia. Qed.

Lemma iter_shr_nonneg p r : 0 <= shr_m r -> 0 <= shr_m (iter_pos shr_1 p r).
Proof. revert r. induction p as [p IH|p IH|]; intros r Hr; cbn [iter_pos]; auto using shr_1_nonneg. Qed.

Lemma shr_fexp_nonneg m e l : 0 <= m -> 0 <= shr_m (shr_fexp prec emax m e l).1.
Proof.
  intros Hm. unfold shr_fexp, shr. assert (0 <= shr_m (shr_record_of_loc m l)) as H by (by destruct l as [|[]]).
  destruct (_ - e); cbn [fst]; [done|by apply iter_shr_nonneg|done].
Qed.

Lemma round_even_nonneg m l : 0 <= m -> 0 <= round_nearest_even m l.
Proof. intros Hm. unfold round_nearest_even. destruct l as [|[]]; try lia. destruct (Z.even m); lia. Qed.

Lemma round_aux_number s m e l : 0 <= m -> isNaN (binary_round_aux prec emax s m e l) = false.
Proof.
  intros Hm. unfold binary_round_aux. pose proof (shr_fexp_nonneg m e l Hm) as H1.
  destruct (shr_fexp prec emax m e l) as [r e']. cbn [fst] in H1.
  pose proof (shr_fexp_nonneg _ e' loc_Exact (round_even_nonneg _ (loc_of_shr_record r) H1)) as H2.
  destruct (shr_fexp _ _ _ e' loc_Exact) as [r2 e2]. cbn [fst] in H2.
  destruct (shr_m r2); [done| |lia]. by destruct (_ <=? _).
Qed.

Lemma nfloor_number x : isNaN x = false -> isNaN (nfloor x) = false.
Proof.
  unfold nfloor, nround_away. destruct x as [s|s| |s m e]; try done. intros _.
  destruct (0 <=? e) eqn:He; [done|]. apply Z.leb_gt in He. cbv zeta. destruct (_ =? 0); [done|].
  assert (0 <= Zpos m / 2 ^ (- e)) as Hq by (apply Z.div_pos; lia).
  assert (0 <= (if Bool.eqb false (negb s) then Zpos m / 2 ^ (- e) + 1 else Zpos m / 2 ^ (- e))) as H
    by (destruct (Bool.eqb _ _); lia).
  unfold signed_int. destruct (if Bool.eqb _ _ then _ else _) as [|p|p]; [done| |lia].
  unfold binary_round. destruct (shl_align _ _ _) as [mz ez]. by apply round_aux_number.
Qed.

Lemma nlt_false_le x y : isNaN x = false -> isNaN y = false -> nlt x y = false -> nle y x = true.
Proof.
  unfold nlt, nle, SFltb, SFleb. intros Hx Hy.
  destruct x as [[]|[]| |[] m e], y as [[]|[]| |[] m' e']; try done; cbn [SFcompare];
    rewrite (Z.compare_antisym e e');
    (assert (Pos.compare_cont Eq m' m = CompOpp (Pos.compare_cont Eq m m')) as ->
       by (symmetry; apply Pos.compare_cont_antisym));
    destruct (e ?= e'); cbn [CompOpp]; try done; by destruct (Pos.compare_cont Eq m m').
Qed.
