(* ===== verification/JsArray.v ===== *)
(** * Arrays, maps and sets of the language

    [Array.prototype.sort] is stable: for a comparator that orders its
    arguments consistently every stable sorting algorithm gives the same array,
    and insertion is the one written here.  A [Map] (or an object used as one)
    and a [Set] keep the order in which their keys were first added. *)

From S2P Require Import Prelude JsStr JsNum.
From Stdlib Require Import Sorting.Permutation Sorting.Sorted.

(** ** Sorting *)

Section Sorting.
Context {A : Type} (le : A -> A -> bool).

Fixpoint insert_sorted (x : A) (l : list A) : list A :=
  match l with
  | [] => [x]
  | y :: t => if le x y then x :: l else y :: insert_sorted x t
  end.

Fixpoint isort (l : list A) : list A :=
  match l with
  | [] => []
  | x :: t => insert_sorted x (isort t)
  end.

Lemma insert_sorted_perm x l : Permutation (x :: l) (insert_sorted x l).
Proof.
  induction l as [|y t IH]; [done|]. cbn. destruct (le x y); [done|].
  rewrite perm_swap. by rewrite IH.
Qed.

Lemma isort_perm l : Permutation l (isort l).
Proof. induction l as [|x t IH]; [done|]. cbn. by rewrite <- insert_sorted_perm, <- IH. Qed.

Lemma isort_length l : length (isort l) = length l.
Proof. by rewrite <- (Permutation_length (isort_perm l)). Qed.

Lemma isort_In x l : In x (isort l) <-> In x l.
Proof.
  split; apply Permutation_in; [symmetry|]; apply isort_perm.
Qed.

Definition total_order : Prop := forall a b, le a b = false -> le b a = true.

Lemma insert_hdrel y x l :
  total_order -> le x y = false ->
  HdRel (fun a b => le a b = true) y l -> HdRel (fun a b => le a b = true) y (insert_sorted x l).
Proof.
  intros Ht Hxy Hd. destruct l as [|z t]; cbn; [constructor; by apply Ht|].
  destruct (le x z); constructor; [by apply Ht|by inversion Hd].
Qed.

(** Neighbours are in order. *)
Lemma isort_sorted l : total_order -> Sorted (fun a b => le a b = true) (isort l).
Proof.
  intros Ht. induction l as [|x t IH]; [constructor|]. cbn.
  induction (isort t) as [|y u IHu]; cbn; [repeat constructor|].
  destruct (le x y) eqn:E; [by constructor; [|constructor]|].
  apply Sorted_inv in IH as [IH1 IH2]. constructor; [by apply IHu|].
  by apply insert_hdrel.
Qed.

(** Elements the comparator does not tell apart keep their order. *)
Lemma isort_stable p l :
  (forall a b, p a = true -> p b = true -> le a b = true) ->
  List.filter p (isort l) = List.filter p l.
Proof.
  intros Hp. assert (forall x u, List.filter p (insert_sorted x u) = List.filter p (x :: u)) as Hi.
  { intros x u. induction u as [|y u IH]; [done|]. cbn [insert_sorted].
    destruct (le x y) eqn:E; [done|]. cbn [List.filter] in *. rewrite IH.
    destruct (p x) eqn:Ex, (p y) eqn:Ey; try done. by rewrite Hp in E. }
  induction l as [|x t IH]; [done|]. cbn [isort]. rewrite Hi. cbn [List.filter]. by rewrite IH.
Qed.

(** A list already in order is left as it is. *)
Lemma isort_id l : StronglySorted (fun a b => le a b = true) l -> isort l = l.
Proof.
  induction 1 as [|x l Hl IH Hx]; [done|]. cbn. rewrite IH.
  destruct l as [|y t]; [done|]. cbn. apply Forall_inv in Hx. by rewrite Hx.
Qed.
End Sorting.

(** [l.sort(cmp)]: a result above zero puts the second argument first; a NaN
    counts as zero. *)
Definition cmp_le {A} (cmp : A -> A -> num) (a b : A) : bool := negb (ngt (cmp a b) zero).
Definition sort_with {A} (cmp : A -> A -> num) (l : list A) : list A := isort (cmp_le cmp) l.

Lemma sort_with_perm {A} (cmp : A -> A -> num) l : Permutation l (sort_with cmp l).
Proof. apply isort_perm. Qed.

(** ** Maps and sets *)

Section Maps.
Context {K V : Type} `{EqDecision K}.

Fixpoint mget (k : K) (m : list (K * V)) : option V :=
  match m with
  | [] => None
  | (k', v) :: t => if decide (k = k') then Some v else mget k t
  end.

(** A key that is present keeps its place. *)
Fixpoint mset (k : K) (v : V) (m : list (K * V)) : list (K * V) :=
  match m with
  | [] => [(k, v)]
  | (k', v') :: t => if decide (k = k') then (k, v) :: t else (k', v') :: mset k v t
  end.

Definition mhas (k : K) (m : list (K * V)) : bool :=
  match mget k m with Some _ => true | None => false end.

Lemma mget_mset k v m : mget k (mset k v m) = Some v.
Proof.
  induction m as [|[k' v'] t IH]; cbn; [by rewrite decide_True|].
  destruct (decide (k = k')); cbn; [by rewrite decide_True|by rewrite decide_False].
Qed.

Lemma mget_mset_ne k k' v m : k <> k' -> mget k (mset k' v m) = mget k m.
Proof.
  intros Hne. induction m as [|[k2 v2] t IH]; cbn; [by rewrite decide_False|].
  destruct (decide (k' = k2)) as [->|]; cbn; [by rewrite !decide_False|]. by rewrite IH.
Qed.

Lemma mget_None_keys k m : mget k m = None <-> ~ In k (map fst m).
Proof.
  induction m as [|[k' v'] t IH]; cbn; [tauto|].
  destruct (decide (k = k')) as [->|Hne]; [split; [done|tauto]|].
  rewrite IH. split; [intros H [Hk|Hk]; [by destruct Hne|tauto]|tauto].
Qed.

Lemma mset_keys k v m :
  map fst (mset k v m) = if mhas k m then map fst m else map fst m ++ [k].
Proof.
  unfold mhas. induction m as [|[k' v'] t IH]; cbn; [done|].
  destruct (decide (k = k')) as [->|Hne]; [done|]. cbn. rewrite IH.
  by destruct (mget k t).
Qed.

Lemma mset_NoDup k v m : NoDup (map fst m) -> NoDup (map fst (mset k v m)).
Proof.
  intros Hm. rewrite mset_keys. unfold mhas. destruct (mget k m) eqn:E; [done|].
  apply mget_None_keys in E. apply NoDup_app. split; [done|]. split; [|apply NoDup_singleton].
  intros x Hx%list_elem_of_In ->%list_elem_of_singleton. done.
Qed.

Lemma mget_In k v m : mget k m = Some v -> In (k, v) m.
Proof.
  induction m as [|[k' v'] t IH]; cbn; [done|].
  destruct (decide (k = k')) as [->|]; [intros [= ->]; by left|intros H; right; by apply IH].
Qed.

Lemma In_mget k v m : NoDup (map fst m) -> In (k, v) m -> mget k m = Some v.
Proof.
  induction m as [|[k' v'] t IH]; cbn; [done|]. intros Hnd [[= -> ->]|Hin].
  - by rewrite decide_True.
  - apply NoDup_cons in Hnd as [Hk Hnd]. rewrite decide_False; [by apply IH|].
    intros ->. apply Hk, list_elem_of_In, in_map_iff. by exists (k', v).
Qed.
End Maps.

Section Sets.
Context {A : Type} `{EqDecision A}.

#[export] Instance In_decision (x : A) (l : list A) : Decision (In x l) :=
  in_dec (fun a b => decide (a = b)) x l.

Definition sadd (x : A) (s : list A) : list A := if decide (In x s) then s else s ++ [x].

(** [Array.from(new Set(l))]. *)
Definition uniq (l : list A) : list A := foldl (fun s x => sadd x s) [] l.

Lemma sadd_In x y s : In y (sadd x s) <-> y = x \/ In y s.
Proof.
  unfold sadd. destruct (decide (In x s)) as [Hx|Hx].
  - split; [tauto|]. by intros [->|].
  - rewrite in_app_iff. cbn. split; [intros [?|[->|[]]]|intros [->|?]]; tauto.
Qed.

Lemma sadd_NoDup x s : NoDup s -> NoDup (sadd x s).
Proof.
  intros Hs. unfold sadd. destruct (decide (In x s)) as [Hx|Hx]; [done|].
  apply NoDup_app. split; [done|]. split; [|apply NoDup_singleton].
  intros y Hy%list_elem_of_In ->%list_elem_of_singleton. done.
Qed.

Lemma fold_sadd_In y s l : In y (foldl (fun s x => sadd x s) s l) <-> In y s \/ In y l.
Proof.
  revert s. induction l as [|x l IH]; intros s; cbn; [tauto|].
  rewrite IH, sadd_In. split; [intros [[->|?]|?]|intros [?|[->|?]]]; tauto.
Qed.

Lemma uniq_In y l : In y (uniq l) <-> In y l.
Proof. unfold uniq. rewrite fold_sadd_In. cbn. tauto. Qed.

Lemma uniq_NoDup l : NoDup (uniq l).
Proof.
  unfold uniq. assert (NoDup (@nil A)) as Hn by constructor. revert Hn. generalize (@nil A).
  induction l as [|x l IH]; intros s Hs; cbn; [done|]. by apply IH, sadd_NoDup.
Qed.
End Sets.
