(* ===== verification/JsJson.v ===== *)
(** * JSON.stringify on strings and JSON.parse

    The billing expressions quote their strings with [JSON.stringify] and read
    them back with [JSON.parse]; the playground parses the server's events
    with [JSON.parse].  [parse] is the whole grammar; [quote] is
    [JSON.stringify] on a string. *)

From S2P Require Import Prelude JsStr JsNum.

#[warnings="-register-all"]
Inductive json :=
| JNull
| JBool (b : bool)
| JNum (x : num)
| JStr (s : jsstr)
| JArr (l : list json)
| JObj (l : list (jsstr * json)).

Definition is_high (c : jschar) : bool := ((55296 <=? c) && (c <=? 56319))%N.
Definition is_low (c : jschar) : bool := ((56320 <=? c) && (c <=? 57343))%N.

(** ** QuoteJSONString *)

Definition hex_digit (d : N) : jschar := (if d <? 10 then d + 48 else d + 87)%N.

(** [\uXXXX] with lower-case digits. *)
Definition unicode_escape (c : jschar) : jsstr :=
  [92%N; 117%N; hex_digit (c / 4096 mod 16); hex_digit (c / 256 mod 16);
   hex_digit (c / 16 mod 16); hex_digit (c mod 16)]%N.

Definition quote_char (c : jschar) : jsstr :=
  (if c =? 8 then [92; 98]
   else if c =? 9 then [92; 116]
   else if c =? 10 then [92; 110]
   else if c =? 12 then [92; 102]
   else if c =? 13 then [92; 114]
   else if c =? 34 then [92; 34]
   else if c =? 92 then [92; 92]
   else if c <? 32 then unicode_escape c
   else [c])%N.

(** A surrogate that is not part of a pair is escaped; [after_high] says that
    the code unit before was the first of a pair. *)
Fixpoint quote_body (after_high : bool) (s : jsstr) : jsstr :=
  match s with
  | [] => []
  | c :: t =>
      if is_high c then
        match t with
        | d :: _ => if is_low d then c :: quote_body true t
                    else unicode_escape c ++ quote_body false t
        | [] => unicode_escape c
        end
      else if is_low c && negb after_high then unicode_escape c ++ quote_body false t
      else quote_char c ++ quote_body false t
  end.

(** [JSON.stringify(s)]. *)
Definition quote (s : jsstr) : jsstr := dq ++ quote_body false s ++ dq.

(** ** JSON.parse *)

Definition json_ws (c : jschar) : bool :=
  ((c =? 32) || (c =? 9) || (c =? 10) || (c =? 13))%N.

Definition hex4 (a b c d : jschar) : option N :=
  match hex_val a, hex_val b, hex_val c, hex_val d with
  | Some a, Some b, Some c, Some d =>
      Some (Z.to_N (((a * 16 + b) * 16 + c) * 16 + d)%Z)
  | _, _, _, _ => None
  end.

(** The characters of a string after its opening quote, and what follows the
    closing one. *)
Fixpoint parse_chars (s : jsstr) : option (jsstr * jsstr) :=
  match s with
  | [] => None
  | c :: t =>
      if (c =? 34)%N then Some ([], t)
      else if (c <? 32)%N then None
      else if (c =? 92)%N then
        match t with
        | [] => None
        | e :: t' =>
            if (e =? 117)%N then
              match t' with
              | h1 :: h2 :: h3 :: h4 :: t4 =>
                  match hex4 h1 h2 h3 h4 with
                  | Some u => (fun r => (u :: r.1, r.2)) <$> parse_chars t4
                  | None => None
                  end
              | _ => None
              end
            else
              let simple (d : jschar) := (fun r => (d :: r.1, r.2)) <$> parse_chars t' in
              if (e =? 34)%N then simple 34%N
              else if (e =? 92)%N then simple 92%N
              else if (e =? 47)%N then simple 47%N
              else if (e =? 98)%N then simple 8%N
              else if (e =? 102)%N then simple 12%N
              else if (e =? 110)%N then simple 10%N
              else if (e =? 114)%N then simple 13%N
              else if (e =? 116)%N then simple 9%N
              else None
        end
      else (fun r => (c :: r.1, r.2)) <$> parse_chars t
  end.

(** A number: [-? (0 | [1-9] digits) (. digits+)? ([eE] [+-]? digits+)?]. *)
Definition take_frac (s : jsstr) : option (jsstr * jsstr) :=
  match s with
  | c :: t =>
      if (c =? 46)%N then
        if truthy (takeb is_digit t) then Some (c :: takeb is_digit t, dropb is_digit t) else None
      else Some ([], s)
  | [] => Some ([], [])
  end.

Definition take_exp (s : jsstr) : option (jsstr * jsstr) :=
  match s with
  | c :: t =>
      if ((c =? 101) || (c =? 69))%N then
        let '(sg, t') :=
          match t with
          | d :: u => if ((d =? 43) || (d =? 45))%N then ([d], u) else ([], t)
          | [] => ([], [])
          end in
        if truthy (takeb is_digit t')
        then Some (c :: sg ++ takeb is_digit t', dropb is_digit t') else None
      else Some ([], s)
  | [] => Some ([], [])
  end.

(** The number after its sign. *)
Definition number_body (sg s1 : jsstr) : option (num * jsstr) :=
  let ip := takeb is_digit s1 in
  let s2 := dropb is_digit s1 in
  match ip with
  | [] => None
  | d :: rest =>
      if (d =? 48)%N && truthy rest then None
      else
        match take_frac s2 with
        | None => None
        | Some (fr, s3) =>
            match take_exp s3 with
            | None => None
            | Some (ex, s4) => Some (num_of_str (sg ++ ip ++ fr ++ ex), s4)
            end
        end
  end.

Definition parse_number (s : jsstr) : option (num * jsstr) :=
  match s with
  | c :: t => if (c =? 45)%N then number_body [c] t else number_body [] s
  | [] => None
  end.

Definition skip_ws (s : jsstr) : jsstr := dropb json_ws s.

(** A duplicate key keeps its first place and takes the last value. *)
Fixpoint obj_set (k : jsstr) (v : json) (l : list (jsstr * json)) : list (jsstr * json) :=
  match l with
  | [] => [(k, v)]
  | (k', v') :: t => if str_eqb k k' then (k, v) :: t else (k', v') :: obj_set k v t
  end.

Fixpoint parse_value (fuel : nat) (s0 : jsstr) : option (json * jsstr) :=
  match fuel with
  | O => None
  | S f =>
      let s := skip_ws s0 in
      match s with
      | [] => None
      | c :: t =>
          if (c =? 34)%N then (fun r => (JStr r.1, r.2)) <$> parse_chars t
          else if (c =? 91)%N then
            match skip_ws t with
            | d :: t' =>
                if (d =? 93)%N then Some (JArr [], t')
                else (fun r => (JArr r.1, r.2)) <$> parse_elems f t
            | [] => None
            end
          else if (c =? 123)%N then
            match skip_ws t with
            | d :: t' =>
                if (d =? 125)%N then Some (JObj [], t')
                else (fun r => (JObj r.1, r.2)) <$> parse_members f t []
            | [] => None
            end
          else
            match strip_prefix (js "null") s with
            | Some r => Some (JNull, r)
            | None =>
                match strip_prefix (js "true") s with
                | Some r => Some (JBool true, r)
                | None =>
                    match strip_prefix (js "false") s with
                    | Some r => Some (JBool false, r)
                    | None => (fun r => (JNum r.1, r.2)) <$> parse_number s
                    end
                end
            end
      end
  end
with parse_elems (fuel : nat) (s : jsstr) : option (list json * jsstr) :=
  match fuel with
  | O => None
  | S f =>
      match parse_value f s with
      | None => None
      | Some (v, r) =>
          match skip_ws r with
          | c :: t =>
              if (c =? 44)%N then (fun r => (v :: r.1, r.2)) <$> parse_elems f t
              else if (c =? 93)%N then Some ([v], t)
              else None
          | [] => None
          end
      end
  end
with parse_members (fuel : nat) (s : jsstr) (acc : list (jsstr * json))
    : option (list (jsstr * json) * jsstr) :=
  match fuel with
  | O => None
  | S f =>
      match skip_ws s with
      | q :: t =>
          if (q =? 34)%N then
            match parse_chars t with
            | None => None
            | Some (k, r) =>
                match skip_ws r with
                | c :: r' =>
                    if (c =? 58)%N then
                      match parse_value f r' with
                      | None => None
                      | Some (v, r2) =>
                          match skip_ws r2 with
                          | e :: r3 =>
                              if (e =? 44)%N then parse_members f r3 (obj_set k v acc)
                              else if (e =? 125)%N then Some (obj_set k v acc, r3)
                              else None
                          | [] => None
                          end
                      end
                    else None
                | [] => None
                end
            end
          else None
      | [] => None
      end
  end.

(** [JSON.parse(s)]; [None] is the SyntaxError. *)
Definition parse (s : jsstr) : option json :=
  match parse_value (S (2 * length s)) s with
  | Some (v, r) => match skip_ws r with [] => Some v | _ => None end
  | None => None
  end.

(** [o.k] on a value: [None] is [undefined]; [null] has no properties. *)
Definition jfield (k : jsstr) (v : json) : option json :=
  match v with
  | JObj l => snd <$> find (fun p => str_eqb p.1 k) l
  | _ => None
  end.

(** [!!v]. *)
Definition json_truthy (v : json) : bool :=
  match v with
  | JNull | JBool false => false
  | JNum x => ntruthy x
  | JStr s => truthy s
  | _ => true
  end.

(** [String(v)] on a parsed value. *)
Fixpoint json_to_str (v : json) : jsstr :=
  match v with
  | JNull => js "null"
  | JBool true => js "true"
  | JBool false => js "false"
  | JNum x => num_to_str x
  | JStr s => s
  | JArr l => join [44%N] (map (fun e => match e with JNull => [] | _ => json_to_str e end) l)
  | JObj _ => js "[object Object]"
  end.

(** ** The quoted form is read back *)

Lemma hex_digit_val d : (d < 16)%N -> hex_val (hex_digit d) = Some (Z.of_N d).
Proof.
  intros H. unfold hex_digit, hex_val, is_digit.
  destruct (d <? 10)%N eqn:E; [apply N.ltb_lt in E|apply N.ltb_ge in E].
  - assert (((48 <=? d + 48) && (d + 48 <=? 57))%N = true) as ->.
    { apply andb_true_iff; split; apply N.leb_le; lia. }
    f_equal. lia.
  - assert (((48 <=? d + 87) && (d + 87 <=? 57))%N = false) as ->.
    { apply andb_false_iff; right. apply N.leb_gt. lia. }
    assert (((97 <=? d + 87) && (d + 87 <=? 102))%N = true) as ->.
    { apply andb_true_iff; split; apply N.leb_le; lia. }
    f_equal. lia.
Qed.

Lemma hex4_escape c :
  (c < 65536)%N ->
  hex4 (hex_digit (c / 4096 mod 16)) (hex_digit (c / 256 mod 16))
       (hex_digit (c / 16 mod 16)) (hex_digit (c mod 16)) = Some c.
Proof.
  intros H. unfold hex4. rewrite !hex_digit_val by (apply N.mod_lt; lia).
  f_equal. apply N2Z.inj.
  rewrite Z2N.id by (repeat apply Z.add_nonneg_nonneg; repeat apply Z.mul_nonneg_nonneg;
    repeat apply Z.add_nonneg_nonneg; repeat apply Z.mul_nonneg_nonneg;
    repeat apply Z.add_nonneg_nonneg; repeat apply Z.mul_nonneg_nonneg;
    first [apply N2Z.is_nonneg | done]).
  rewrite !N2Z.inj_mod, !N2Z.inj_div.
  assert (0 <= Z.of_N c < 65536)%Z as Hc by lia. generalize dependent (Z.of_N c).
  intros z Hz. change (Z.of_N 4096) with 4096%Z. change (Z.of_N 256) with 256%Z.
  change (Z.of_N 16) with 16%Z.
  replace (z / 256)%Z with (z / 16 / 16)%Z by (rewrite Z.div_div by lia; done).
  replace (z / 4096)%Z with (z / 16 / 16 / 16)%Z by (rewrite !Z.div_div by lia; done).
  set (a := (z / 16)%Z). set (b := (a / 16)%Z).
  pose proof (Z.div_mod z 16 ltac:(lia)). pose proof (Z.div_mod a 16 ltac:(lia)).
  pose proof (Z.div_mod b 16 ltac:(lia)).
  rewrite (Z.mod_small (b / 16)) by (subst a b; Z.div_mod_to_equations; lia).
  lia.
Qed.

Lemma parse_chars_escape c r t s :
  (c < 65536)%N -> parse_chars t = Some (s, r) ->
  parse_chars (unicode_escape c ++ t) = Some (c :: s, r).
Proof.
  intros Hc Ht. unfold unicode_escape. cbn [app parse_chars].
  change (92 =? 34)%N with false. change (92 <? 32)%N with false.
  change (92 =? 92)%N with true. change (117 =? 117)%N with true. cbn iota.
  rewrite hex4_escape by done. by rewrite Ht.
Qed.

Lemma parse_chars_plain c t s r :
  (c =? 34)%N = false -> (c <? 32)%N = false -> (c =? 92)%N = false ->
  parse_chars t = Some (s, r) -> parse_chars (c :: t) = Some (c :: s, r).
Proof. intros H1 H2 H3 H. simpl. by rewrite H1, H2, H3, H. Qed.

Lemma parse_chars_quote_char c t s r :
  (c < 65536)%N -> parse_chars t = Some (s, r) ->
  parse_chars (quote_char c ++ t) = Some (c :: s, r).
Proof.
  intros Hc Ht. unfold quote_char.
  repeat match goal with
  | |- context [if (c =? ?n)%N then _ else _] =>
      destruct (c =? n)%N eqn:?;
      [match goal with H : (c =? n)%N = true |- _ => apply N.eqb_eq in H; subst c end;
       simpl; by rewrite Ht|]
  end.
  destruct (c <? 32)%N eqn:E; [by apply parse_chars_escape|].
  by apply parse_chars_plain.
Qed.

Lemma surrogate_plain c :
  is_high c || is_low c = true ->
  (c =? 34)%N = false /\ (c <? 32)%N = false /\ (c =? 92)%N = false.
Proof.
  unfold is_high, is_low. rewrite orb_true_iff, !andb_true_iff, !N.leb_le. intros H.
  rewrite !N.eqb_neq, N.ltb_ge. lia.
Qed.

Lemma parse_chars_quote b s r :
  Forall (fun c => (c < 65536)%N) s ->
  parse_chars (quote_body b s ++ 34%N :: r) = Some (s, r).
Proof.
  intros Hs. revert b. induction s as [|c t IH]; intros b; [done|].
  apply Forall_cons_iff in Hs as [Hc Ht]. specialize (IH Ht). cbn [quote_body].
  destruct (is_high c) eqn:Eh.
  - destruct t as [|d t'].
    + rewrite <- (app_nil_l (34%N :: r)), app_assoc, app_nil_r.
      by apply parse_chars_escape.
    + destruct (is_low d).
      * destruct (surrogate_plain c) as (? & ? & ?); [by rewrite Eh|].
        by apply parse_chars_plain.
      * rewrite <- app_assoc. by apply parse_chars_escape.
  - destruct (is_low c && negb b).
    + rewrite <- app_assoc. by apply parse_chars_escape.
    + rewrite <- app_assoc. by apply parse_chars_quote_char.
Qed.

(** [JSON.parse(JSON.stringify(s))] is [s]. *)
Lemma parse_quote s :
  Forall (fun c => (c < 65536)%N) s -> parse (quote s) = Some (JStr s).
Proof.
  intros Hs. unfold parse, quote.
  generalize (2 * length (dq ++ quote_body false s ++ dq)). intros n.
  cbn -[parse_chars app quote_body]. unfold dq, skip_ws. cbn [app dropb].
  change (json_ws 34) with false. cbn iota. change (34 =? 34)%N with true. cbn iota.
  rewrite parse_chars_quote by done. done.
Qed.

(** On strings without quotes, backslashes, controls and surrogates the
    quoted form is the string between quotes. *)
Definition plain_char (c : jschar) : bool :=
  negb (c =? 34)%N && negb (c =? 92)%N && negb (c <? 32)%N
  && negb (is_high c) && negb (is_low c).

Lemma quote_body_plain b s :
  forallb plain_char s = true -> quote_body b s = s.
Proof.
  revert b. induction s as [|c t IH]; intros b; [done|]. cbn [forallb quote_body].
  intros [Hc Ht]%andb_true_iff. unfold plain_char in Hc.
  rewrite !andb_true_iff, !negb_true_iff in Hc.
  destruct Hc as [[[[H34 H92] H32] Hh] Hl]. rewrite Hh, Hl. cbn [andb].
  rewrite IH by done. unfold quote_char. rewrite H34, H92, H32.
  apply N.ltb_ge in H32.
  repeat match goal with
  | |- context [if (c =? ?n)%N then _ else _] =>
      destruct (c =? n)%N eqn:E; [apply N.eqb_eq in E; lia|clear E]
  end. done.
Qed.

Lemma quote_plain s : forallb plain_char s = true -> quote s = dq ++ s ++ dq.
Proof. intros H. unfold quote. by rewrite quote_body_plain. Qed.

(** ** Properties of objects *)

Lemma jfield_set k k' v l :
  jfield k (JObj (obj_set k' v l)) = if str_eqb k' k then Some v else jfield k (JObj l).
Proof.
  cbn [jfield]. induction l as [|[q x] l IH]; cbn [obj_set find fst].
  - by destruct (str_eqb k' k).
  - destruct (str_eqb k' q) eqn:E.
    + apply str_eqb_eq in E as <-. cbn [find fst]. by destruct (str_eqb k' k).
    + cbn [find fst]. destruct (str_eqb q k) eqn:Eq; [|done].
      apply str_eqb_eq in Eq as ->. by rewrite E.
Qed.

Lemma jfield_unset k k' l :
  str_eqb k' k = false -> jfield k (JObj (List.filter (fun q => negb (str_eqb q.1 k')) l)) = jfield k (JObj l).
Proof.
  intros Hk. cbn [jfield]. induction l as [|[q x] l IH]; [done|]. cbn [List.filter fst].
  destruct (str_eqb q k') eqn:E; cbn [negb find fst].
  - apply str_eqb_eq in E as ->. by rewrite Hk.
  - by destruct (str_eqb q k).
Qed.

Lemma jfield_removed k l : jfield k (JObj (List.filter (fun q => negb (str_eqb q.1 k)) l)) = None.
Proof.
  cbn [jfield]. induction l as [|[q x] l IH]; [done|]. cbn [List.filter fst].
  destruct (str_eqb q k) eqn:E; cbn [negb find fst]; [done|]. by rewrite E.
Qed.
