(* ===== verification/JsPrint.v ===== *)
(** * JSON.stringify on values

    [JSON.stringify(v)] and [JSON.stringify(v, null, gap)] on a value that
    [JSON.parse] can produce, and the proof that the printed text of a value
    is read back by [parse].  The members of an object are printed in list
    order, which is the property order of an object none of whose keys is an
    array index. *)

From S2P Require Import Prelude JsStr JsNum JsJson.

(** ** The printer *)

(** A line break followed by the indentation, or nothing without a gap. *)
Definition newline (gap ind : nat) : jsstr :=
  match gap with O => [] | _ => 10%N :: replicate ind 32%N end.

Definition colon (gap : nat) : jsstr := match gap with O => js ":" | _ => js ": " end.

(** The text of an array or an object around its printed items. *)
Definition bracket (gap ind : nat) (o c : jschar) (items : list jsstr) : jsstr :=
  match items with
  | [] => [o; c]
  | _ => [o] ++ newline gap (ind + gap)
             ++ join (44%N :: newline gap (ind + gap)) items
             ++ newline gap ind ++ [c]
  end.

Fixpoint stringify (gap ind : nat) (v : json) : jsstr :=
  match v with
  | JNull => js "null"
  | JBool true => js "true"
  | JBool false => js "false"
  | JNum x => if isFinite x then num_to_str x else js "null"
  | JStr s => quote s
  | JArr l => bracket gap ind 91%N 93%N (map (stringify gap (ind + gap)) l)
  | JObj l =>
      bracket gap ind 123%N 125%N
        (map (fun p => let '(k, v) := p in quote k ++ colon gap ++ stringify gap (ind + gap) v) l)
  end.

(** ** Values that are read back *)

Definition units (s : jsstr) : bool := forallb (fun c => (c <? 65536)%N) s.

Fixpoint distinct (l : list jsstr) : bool :=
  match l with
  | [] => true
  | k :: t => negb (existsb (str_eqb k) t) && distinct t
  end.

(** A number whose decimal text denotes it, as ECMAScript requires of
    [Number::toString]; the text of [-0] denotes [0]. *)
Definition num_printable (x : num) : bool :=
  isFinite x && bool_decide (parse_number (num_to_str x) = Some (x, [])).

(** Numbers that are read back, strings of 16-bit code units, and distinct
    keys. *)
Fixpoint printable (v : json) : bool :=
  match v with
  | JNull | JBool _ => true
  | JNum x => num_printable x
  | JStr s => units s
  | JArr l => forallb printable l
  | JObj l => distinct (map fst l) && forallb (fun p => let '(k, v) := p in units k && printable v) l
  end.

(** Induction on a value through its lists. *)
Section JsonInd.
  Variable P : json -> Prop.
  Hypothesis Hnull : P JNull.
  Hypothesis Hbool : forall b, P (JBool b).
  Hypothesis Hnum : forall x, P (JNum x).
  Hypothesis Hstr : forall s, P (JStr s).
  Hypothesis Harr : forall l, Forall P l -> P (JArr l).
  Hypothesis Hobj : forall l, Forall (fun p => P p.2) l -> P (JObj l).

Fixpoint json_nested_ind (v : json) : P v :=
  match v with
  | JNull => Hnull
  | JBool b => Hbool b
  | JNum x => Hnum x
  | JStr s => Hstr s
  | JArr l =>
      Harr l ((fix go l := match l return Forall P l with
                           | [] => List.Forall_nil _
                           | v :: t => List.Forall_cons _ v t (json_nested_ind v) (go t)
                           end) l)
  | JObj l =>
      Hobj l ((fix go l := match l return Forall (fun p => P p.2) l with
                           | [] => List.Forall_nil _
                           | p :: t => List.Forall_cons _ p t (json_nested_ind p.2) (go t)
                           end) l)
  end.
End JsonInd.

(** The parser's recursion depth on the printed text. *)
Fixpoint pfuel (v : json) : nat :=
  match v with
  | JArr l => S (list_sum (map (fun v => S (pfuel v)) l))
  | JObj l => S (list_sum (map (fun p => S (pfuel p.2)) l))
  | _ => 1
  end.

(** ** Numbers *)

(** What can follow a printed value: the end, a comma, a bracket or a line
    break. *)
Definition follow (r : jsstr) : bool :=
  match r with
  | [] => true
  | c :: _ => ((c =? 44) || (c =? 93) || (c =? 125) || (c =? 10))%N
  end.

Lemma follow_cases r :
  follow r = true -> r = [] \/ exists c t, r = c :: t /\ In c [44%N; 93%N; 125%N; 10%N].
Proof.
  destruct r as [|c t]; [by left|]. cbn. rewrite !orb_true_iff, !N.eqb_eq. intros H. right.
  exists c, t. split; [done|]. cbn. intuition.
Qed.

Lemma follow_digit r : follow r = true -> takeb is_digit r = [] /\ dropb is_digit r = r.
Proof.
  intros [-> |(c & t & -> & H)]%follow_cases; [done|]. cbn in H. cbn [takeb dropb].
  by destruct H as [<-|[<-|[<-|[<-|[]]]]].
Qed.

Lemma take_digits s r :
  follow r = true ->
  takeb is_digit (s ++ r) = takeb is_digit s /\ dropb is_digit (s ++ r) = dropb is_digit s ++ r.
Proof.
  intros [H1 H2]%follow_digit. induction s as [|c s [IH1 IH2]]; [by cbn [app]; rewrite H1, H2|].
  cbn [app takeb dropb]. destruct (is_digit c); [|done]. by rewrite IH1, IH2.
Qed.

Lemma take_frac_app s r fr t :
  follow r = true -> take_frac s = Some (fr, t) -> take_frac (s ++ r) = Some (fr, t ++ r).
Proof.
  intros Hr. destruct s as [|c s]; cbn [take_frac app].
  - intros [= <- <-]. apply follow_cases in Hr as [-> |(c & t' & -> & H)]; [done|].
    cbn in H. by destruct H as [<-|[<-|[<-|[<-|[]]]]].
  - destruct (c =? 46)%N; [|by intros [= <- <-]].
    destruct (take_digits s r Hr) as [-> ->]. destruct (truthy _); [|done]. by intros [= <- <-].
Qed.

Lemma take_exp_app s r ex t :
  follow r = true -> take_exp s = Some (ex, t) -> take_exp (s ++ r) = Some (ex, t ++ r).
Proof.
  intros Hr. destruct s as [|c s]; cbn [take_exp app].
  - intros [= <- <-]. apply follow_cases in Hr as [-> |(c & t' & -> & H)]; [done|].
    cbn in H. by destruct H as [<-|[<-|[<-|[<-|[]]]]].
  - destruct (_ || _); [|by intros [= <- <-]]. destruct s as [|d u]; [done|]. cbn [app].
    destruct ((d =? 43) || (d =? 45))%N.
    + destruct (take_digits u r Hr) as [-> ->]. destruct (truthy _); [|done]. by intros [= <- <-].
    + change (d :: u ++ r) with ((d :: u) ++ r).
      destruct (take_digits (d :: u) r Hr) as [-> ->]. destruct (truthy _); [|done]. by intros [= <- <-].
Qed.

Lemma number_body_app sg s r x t :
  follow r = true -> number_body sg s = Some (x, t) -> number_body sg (s ++ r) = Some (x, t ++ r).
Proof.
  intros Hr. unfold number_body. destruct (take_digits s r Hr) as [-> ->].
  destruct (takeb is_digit s) as [|d rest]; [done|].
  destruct (_ && _); [done|]. destruct (take_frac (dropb is_digit s)) as [[fr s3]|] eqn:Ef; [|done].
  rewrite (take_frac_app _ r _ _ Hr Ef). destruct (take_exp s3) as [[ex s4]|] eqn:Ee; [|done].
  rewrite (take_exp_app _ r _ _ Hr Ee). by intros [= <- <-].
Qed.

Lemma parse_number_app s r x t :
  follow r = true -> parse_number s = Some (x, t) -> parse_number (s ++ r) = Some (x, t ++ r).
Proof.
  intros Hr. unfold parse_number. destruct s as [|c s]; [done|]. cbn [app].
  destruct (c =? 45)%N; [by apply number_body_app|by apply (number_body_app [] (c :: s))].
Qed.

Lemma parse_number_starts s x t :
  parse_number s = Some (x, t) -> exists c u, s = c :: u /\ (is_digit c || (c =? 45)%N) = true.
Proof.
  unfold parse_number. destruct s as [|c s]; [done|]. intros H. exists c, s. split; [done|].
  destruct (c =? 45)%N eqn:E; [by rewrite orb_true_r|]. unfold number_body in H. cbn [takeb] in H.
  by destruct (is_digit c).
Qed.

(** The start of a number is not the start of another value. *)
Lemma number_head c :
  (is_digit c || (c =? 45)%N) = true ->
  json_ws c = false /\ (c =? 34)%N = false /\ (c =? 91)%N = false /\ (c =? 123)%N = false
  /\ (c =? 93)%N = false /\ (c =? 125)%N = false
  /\ (c =? 110)%N = false /\ (c =? 116)%N = false /\ (c =? 102)%N = false.
Proof.
  unfold is_digit, json_ws. rewrite orb_true_iff, andb_true_iff, !N.leb_le, N.eqb_eq. intros H.
  rewrite !orb_false_iff, !N.eqb_neq. lia.
Qed.

(** ** The text of a value *)

Lemma skip_newline gap ind s : skip_ws (newline gap ind ++ s) = skip_ws s.
Proof.
  destruct gap; [done|]. unfold skip_ws, newline. cbn [app dropb].
  change (json_ws 10) with true. cbn iota. induction ind as [|n IH]; [done|].
  cbn [replicate app dropb]. by change (json_ws 32) with true.
Qed.

(** The first character of a printed value. *)
Definition starts (c : jschar) : bool :=
  negb (json_ws c) && negb (c =? 93)%N && negb (c =? 125)%N.

Lemma quote_starts s : exists t, quote s = 34%N :: t.
Proof. unfold quote, dq. by eexists. Qed.

Lemma stringify_starts gap ind v :
  printable v = true -> exists c t, stringify gap ind v = c :: t /\ starts c = true.
Proof.
  destruct v as [|[]|x|s|l|l]; cbn [printable stringify]; intros H;
    try (eexists _, _; split; [reflexivity|done]);
    try (destruct l; (eexists _, _; split; [reflexivity|done])).
  unfold num_printable in H. apply andb_true_iff in H as [-> H]. apply bool_decide_eq_true in H.
  apply parse_number_starts in H as (c & u & -> & Hc). exists c, u. split; [done|].
  apply number_head in Hc as (H1 & _ & _ & _ & H5 & H6 & _). unfold starts. by rewrite H1, H5, H6.
Qed.

Lemma starts_spec c :
  starts c = true -> json_ws c = false /\ (c =? 93)%N = false /\ (c =? 125)%N = false.
Proof. unfold starts. by rewrite !andb_true_iff, !negb_true_iff; intros [[? ?] ?]. Qed.

Lemma skip_starts c t : starts c = true -> skip_ws (c :: t) = c :: t.
Proof. intros (H & _ & _)%starts_spec. unfold skip_ws. cbn [dropb]. by rewrite H. Qed.

(** Blanks before a value are skipped. *)
Lemma parse_value_newline f gap ind s : parse_value f (newline gap ind ++ s) = parse_value f s.
Proof. destruct f; [done|]. cbn [parse_value]. by rewrite skip_newline. Qed.

Lemma parse_members_newline f gap ind s acc :
  parse_members f (newline gap ind ++ s) acc = parse_members f s acc.
Proof. destruct f; [done|]. cbn [parse_members]. by rewrite skip_newline. Qed.

Lemma parse_elems_newline f gap ind s : parse_elems f (newline gap ind ++ s) = parse_elems f s.
Proof. destruct f; [done|]. cbn [parse_elems]. by rewrite parse_value_newline. Qed.

(** ** Reading back *)

Definition reads (gap ind : nat) (v : json) : Prop :=
  forall f r, pfuel v <= f -> follow r = true -> parse_value f (stringify gap ind v ++ r) = Some (v, r).

Lemma follow_close gap e c r : In c [93%N; 125%N] -> follow (newline gap e ++ c :: r) = true.
Proof. intros H. destruct gap; [|done]. cbn in H. by destruct H as [<-|[<-|[]]]. Qed.

Lemma elems_read gap ind e l f r :
  Forall (reads gap ind) l -> l <> [] ->
  list_sum (map (fun v => S (pfuel v)) l) <= f ->
  parse_elems f (join (44%N :: newline gap ind) (map (stringify gap ind) l)
                 ++ newline gap e ++ 93%N :: r) = Some (l, r).
Proof.
  intros Hl. revert f. induction Hl as [|v t Hv Ht IH]; intros f; [done|intros _ Hf].
  cbn [map list_sum foldr] in Hf. destruct f as [|f]; [lia|].
  destruct t as [|v2 t].
  - cbn [map join parse_elems]. rewrite Hv by (lia || apply follow_close; cbn; tauto). by rewrite skip_newline.
  - cbn [map]. rewrite join_cons by done. cbn [app].
    rewrite <- app_assoc. cbn [parse_elems]. rewrite Hv by (lia || done).
    cbn [app]. unfold skip_ws. cbn [dropb]. change (json_ws 44) with false. cbn iota.
    change (44 =? 44)%N with true. cbn iota.
    rewrite <- app_assoc, parse_elems_newline.
    change (stringify gap ind v2 :: map (stringify gap ind) t) with (map (stringify gap ind) (v2 :: t)).
    rewrite IH by (done || cbn [map list_sum foldr] in *; lia). done.
Qed.

Lemma obj_set_fresh k v acc : ~ In k (map fst acc) -> obj_set k v acc = acc ++ [(k, v)].
Proof.
  induction acc as [|[k' v'] acc IH]; [done|]. cbn [map In obj_set fst]. intros H.
  destruct (str_eqb k k') eqn:E; [apply str_eqb_eq in E; subst; tauto|].
  rewrite IH by tauto. done.
Qed.

Lemma quote_read k r : units k = true -> exists t, quote k ++ r = 34%N :: t /\ parse_chars t = Some (k, r).
Proof.
  intros Hk. unfold quote, dq. cbn [app]. eexists. split; [reflexivity|].
  rewrite <- app_assoc. cbn [app]. apply parse_chars_quote.
  rewrite List.Forall_forall. unfold units in Hk. rewrite forallb_forall in Hk.
  intros c Hc. by apply N.ltb_lt, Hk.
Qed.

Lemma colon_read gap f s : exists t, colon gap ++ s = 58%N :: t /\ parse_value f t = parse_value f s.
Proof.
  unfold colon. destruct gap; (eexists; split; [reflexivity|]); [done|].
  destruct f; done.
Qed.

(** One member, and what the parser does after it. *)
Lemma member_step gap ind k v f r acc :
  units k = true -> reads gap ind v -> pfuel v <= f -> ~ In k (map fst acc) -> follow r = true ->
  parse_members (S f) (quote k ++ colon gap ++ stringify gap ind v ++ r) acc =
  match skip_ws r with
  | e :: r3 =>
      if (e =? 44)%N then parse_members f r3 (acc ++ [(k, v)])
      else if (e =? 125)%N then Some (acc ++ [(k, v)], r3)
      else None
  | [] => None
  end.
Proof.
  intros Hk Hv Hf Hacc Hr. destruct (quote_read k (colon gap ++ stringify gap ind v ++ r) Hk) as (t & -> & Ht).
  cbn [parse_members]. rewrite skip_starts by done. change (34 =? 34)%N with true. cbn iota.
  rewrite Ht. destruct (colon_read gap f (stringify gap ind v ++ r)) as (t2 & -> & Ht2).
  rewrite skip_starts by done. change (58 =? 58)%N with true. cbn iota.
  rewrite Ht2, Hv by done. by rewrite obj_set_fresh.
Qed.

Lemma distinct_cons k l : distinct (k :: l) = true -> ~ In k l /\ distinct l = true.
Proof.
  cbn [distinct]. rewrite andb_true_iff, negb_true_iff. intros [H ?]. split; [|done].
  intros Hin. assert (existsb (str_eqb k) l = true); [|congruence].
  apply existsb_exists. exists k. by rewrite str_eqb_refl.
Qed.

Lemma members_read gap ind e l f r acc :
  Forall (fun p => units p.1 = true /\ reads gap ind p.2) l -> l <> [] ->
  (forall k, In k (map fst l) -> ~ In k (map fst acc)) -> distinct (map fst l) = true ->
  list_sum (map (fun p => S (pfuel p.2)) l) <= f ->
  parse_members f
    (join (44%N :: newline gap ind)
       (map (fun p => let '(k, v) := p in quote k ++ colon gap ++ stringify gap ind v) l)
     ++ newline gap e ++ 125%N :: r) acc = Some (acc ++ l, r).
Proof.
  intros Hl. revert f acc.
  induction Hl as [|[k v] t [Hk Hv] Ht IH]; intros f acc; [done|intros _ Hacc Hd Hf].
  cbn [map list_sum foldr fst snd] in *. apply distinct_cons in Hd as [Hkt Hd].
  destruct f as [|f]; [lia|]. assert (~ In k (map fst acc)) by (apply Hacc; by left).
  destruct t as [|p2 t].
  - cbn [map join]. rewrite <- !app_assoc, member_step by (done || lia || apply follow_close; cbn; tauto).
    by rewrite skip_newline.
  - cbn [map]. rewrite join_cons by done. rewrite <- !app_assoc, member_step by (done || lia).
    cbn [app]. rewrite skip_starts by done. change (44 =? 44)%N with true. cbn iota.
    rewrite parse_members_newline.
    change (?a p2 :: map ?b t) with (map b (p2 :: t)).
    rewrite IH; [by rewrite <- app_assoc|done| |done|cbn [map list_sum foldr] in *; lia].
    intros k' Hk'. rewrite map_app, in_app_iff. cbn [map fst In].
    intros [Ha|[<-|[]]]; [by apply (Hacc k'); [right|]|done].
Qed.

(** The opening bracket: a printed first item is not the closing one. *)
Lemma bracket_reads gap ind o c x items r :
  starts o = true ->
  (exists d t, x = d :: t /\ starts d = true) ->
  exists t, bracket gap ind o c (x :: items) ++ r = o :: t
            /\ t = newline gap (ind + gap)
                   ++ join (44%N :: newline gap (ind + gap)) (x :: items)
                   ++ newline gap ind ++ c :: r
            /\ exists d t', skip_ws t = d :: t' /\ starts d = true.
Proof.
  intros Ho (d & t & -> & Hd). unfold bracket. cbn [app]. eexists. split; [reflexivity|].
  rewrite <- !app_assoc. cbn [app]. split; [reflexivity|]. rewrite skip_newline.
  destruct items; cbn [join app]; rewrite skip_starts by done; by repeat eexists.
Qed.

Lemma array_reads gap ind l :
  Forall (reads gap (ind + gap)) l -> forallb printable l = true -> reads gap ind (JArr l).
Proof.
  intros Hl Hp f r Hf Hr. destruct f as [|f]; [cbn in Hf; lia|]. cbn [stringify].
  destruct l as [|v l]; [cbn; by change (json_ws 93) with false|].
  cbn [forallb] in Hp. apply andb_true_iff in Hp as [Hv _].
  destruct (bracket_reads gap ind 91 93 (stringify gap (ind + gap) v)
              (map (stringify gap (ind + gap)) l) r) as (t & Ht & Et & d & t' & Hs & Hd);
    [done|by apply stringify_starts|].
  cbn [map]. rewrite Ht. cbn [parse_value]. rewrite skip_starts by done.
  change (91 =? 34)%N with false. change (91 =? 91)%N with true. cbn iota. rewrite Hs.
  destruct (starts_spec d Hd) as (_ & -> & _). rewrite Et, parse_elems_newline.
  change (stringify gap (ind + gap) v :: map ?g l) with (map g (v :: l)).
  rewrite elems_read by (done || cbn [pfuel] in Hf; lia). done.
Qed.

Lemma object_reads gap ind l :
  Forall (fun p => units p.1 = true /\ reads gap (ind + gap) p.2) l ->
  distinct (map fst l) = true -> reads gap ind (JObj l).
Proof.
  intros Hl Hd f r Hf Hr. destruct f as [|f]; [cbn in Hf; lia|]. cbn [stringify].
  destruct l as [|[k v] l]; [cbn; by change (json_ws 125) with false|].
  cbn [map].
  edestruct (bracket_reads gap ind 123 125 (quote k ++ colon gap ++ stringify gap (ind + gap) v))
    as (t & Ht & Et & d & t' & Hs & Hd'); [done| |].
  { destruct (quote_starts k) as [t ->]. cbn [app]. by repeat eexists. }
  rewrite Ht. cbn [parse_value]. rewrite skip_starts by done.
  change (123 =? 34)%N with false. change (123 =? 91)%N with false.
  change (123 =? 123)%N with true. cbn iota. rewrite Hs.
  destruct (starts_spec d Hd') as (_ & _ & ->). rewrite Et, parse_members_newline.
  match goal with |- context [join _ (_ :: map ?g l)] =>
    change (join (44%N :: newline gap (ind + gap)) (_ :: map g l))
      with (join (44%N :: newline gap (ind + gap)) (map g ((k, v) :: l)))
  end.
  rewrite members_read by (done || (intros ? _ []) || cbn [pfuel] in Hf; lia). done.
Qed.

Lemma number_reads gap ind x f r :
  num_printable x = true -> follow r = true ->
  parse_value (S f) (stringify gap ind (JNum x) ++ r) = Some (JNum x, r).
Proof.
  unfold num_printable. intros [Hf Hp]%andb_true_iff Hr. apply bool_decide_eq_true in Hp.
  cbn [stringify]. rewrite Hf. pose proof (parse_number_app _ r _ _ Hr Hp) as Hpr.
  destruct (parse_number_starts _ _ _ Hp) as (c & u & E & Hc). rewrite E in *. cbn [app] in *.
  apply number_head in Hc as (H1 & H2 & H3 & H4 & H5 & H6 & Hn & Ht & Hff). cbn [parse_value].
  unfold skip_ws. cbn [dropb]. rewrite H1, H2, H3, H4.
  assert (forall d w, (c =? d)%N = false -> strip_prefix (d :: w) (c :: u ++ r) = None) as Hs.
  { intros d w Hd. cbn [strip_prefix]. rewrite N.eqb_sym in Hd. by rewrite Hd. }
  change (js "null") with (110%N :: js "ull"). change (js "true") with (116%N :: js "rue").
  change (js "false") with (102%N :: js "alse"). rewrite !Hs by done. by rewrite Hpr.
Qed.

(** The printed text of a value is read back, before whatever can follow it. *)
Lemma stringify_reads v : printable v = true -> forall gap ind, reads gap ind v.
Proof.
  induction v as [|b|x|s|l IH|l IH] using json_nested_ind; cbn [printable]; intros Hp gap ind.
  - intros [|f] r Hf Hr; [cbn in Hf; lia|]. done.
  - intros [|f] r Hf Hr; [cbn in Hf; lia|]. by destruct b.
  - intros [|f] r Hf Hr; [cbn in Hf; lia|]. by apply number_reads.
  - intros [|f] r Hf Hr; [cbn in Hf; lia|]. cbn [stringify].
    destruct (quote_read s r Hp) as (t & -> & Ht). cbn [parse_value].
    rewrite skip_starts by done. change (34 =? 34)%N with true. cbn iota. by rewrite Ht.
  - apply array_reads; [|done]. rewrite List.Forall_forall in *. rewrite forallb_forall in Hp.
    intros v Hv. by apply IH; [|apply Hp].
  - apply andb_true_iff in Hp as [Hd Hp]. apply object_reads; [|done].
    rewrite List.Forall_forall in *. rewrite forallb_forall in Hp.
    intros [k v] Hv. specialize (Hp _ Hv). cbn in Hp. apply andb_true_iff in Hp as [? ?].
    split; [done|]. by apply (IH (k, v)).
Qed.

(** ** The fuel of [parse] is enough *)

Lemma join_length c sep (l : list jsstr) :
  l <> [] -> list_sum (map (fun s => S (length s)) l) <= S (length (join (c :: sep) l)).
Proof.
  induction l as [|x [|y l] IH]; [done| |]; intros _; [cbn; lia|].
  rewrite join_cons by done. rewrite !length_app. specialize (IH ltac:(done)).
  cbn [map list_sum foldr length] in *. lia.
Qed.

Lemma bracket_length gap ind o c items :
  S (list_sum (map (fun s => S (length s)) items)) <= length (bracket gap ind o c items).
Proof.
  destruct items as [|x items]; [cbn; lia|]. unfold bracket.
  pose proof (join_length 44%N (newline gap (ind + gap)) (x :: items) ltac:(done)) as H.
  rewrite !length_app. cbn [length] in *. lia.
Qed.

Lemma sum_text {A} (fuel : A -> nat) (text : A -> jsstr) l :
  Forall (fun x => fuel x <= 2 * length (text x)) l ->
  list_sum (map (fun x => S (fuel x)) l)
  <= 2 * list_sum (map (fun s => S (length s)) (map text l)).
Proof.
  induction 1 as [|x l Hx Hl IH]; [cbn; lia|].
  unfold list_sum in *. cbn [map foldr]. lia.
Qed.

Lemma pfuel_text v gap ind : printable v = true -> pfuel v <= 2 * length (stringify gap ind v).
Proof.
  revert ind. induction v as [|b|x|s|l IH|l IH] using json_nested_ind; intros ind;
    cbn [printable stringify pfuel]; intros Hp.
  - change (length (js "null")) with 4. lia.
  - destruct b; [change (length (js "true")) with 4|change (length (js "false")) with 5]; lia.
  - destruct (stringify_starts gap ind (JNum x) Hp) as (c & t & Ht & _). cbn [stringify] in Ht.
    rewrite Ht. cbn [length]. lia.
  - unfold quote, dq. rewrite length_app. cbn. lia.
  - etrans; [|apply Nat.mul_le_mono_l, bracket_length].
    pose proof (sum_text pfuel (stringify gap (ind + gap)) l) as H.
    assert (Hall : Forall (fun v => pfuel v <= 2 * length (stringify gap (ind + gap) v)) l);
      [|specialize (H Hall); lia].
    rewrite List.Forall_forall in *. rewrite forallb_forall in Hp.
    intros v Hv. by apply IH, Hp.
  - etrans; [|apply Nat.mul_le_mono_l, bracket_length].
    apply andb_true_iff in Hp as [_ Hp].
    pose proof (sum_text (fun p => pfuel p.2)
      (fun p => let '(k, v) := p in quote k ++ colon gap ++ stringify gap (ind + gap) v) l) as H.
    match type of H with ?P -> _ => assert P as Hall; [|specialize (H Hall); lia] end.
    rewrite List.Forall_forall in *. rewrite forallb_forall in Hp. intros [k v] Hv. specialize (Hp _ Hv). cbn in Hp. apply andb_true_iff in Hp as [_ Hp].
    specialize (IH _ Hv (ind + gap) Hp). cbn in IH. rewrite !length_app. cbn [snd]. lia.
Qed.

(** [JSON.parse(JSON.stringify(v, null, gap))] is [v]. *)
Lemma parse_stringify gap v : printable v = true -> parse (stringify gap 0 v) = Some v.
Proof.
  intros Hp. unfold parse. rewrite <- (app_nil_r (stringify gap 0 v)) at 2.
  rewrite (stringify_reads v Hp gap 0); [done| |done]. pose proof (pfuel_text v gap 0 Hp). lia.
Qed.

(** ** Printed texts are not padded *)

Definition num_char (c : jschar) : bool :=
  (is_digit c || (c =? 45) || (c =? 43) || (c =? 46) || (c =? 101) || (c =? 69))%N.

Lemma num_char_space c : num_char c = true -> is_space c = false.
Proof.
  unfold num_char, is_digit, is_space. rewrite !orb_true_iff, !andb_true_iff, !N.leb_le, !N.eqb_eq.
  rewrite !orb_false_iff, !andb_false_iff, !N.leb_gt, !N.eqb_neq. lia.
Qed.

Lemma digits_chars s : forallb num_char (takeb is_digit s) = true.
Proof.
  induction s as [|c s IH]; [done|]. cbn [takeb]. destruct (is_digit c) eqn:E; [|done].
  cbn [forallb]. rewrite IH, andb_true_r. unfold num_char. by rewrite E.
Qed.

(** What a number consumes is made of its characters. *)
Lemma frac_chars s fr t : take_frac s = Some (fr, t) -> s = fr ++ t /\ forallb num_char fr = true.
Proof.
  destruct s as [|c s]; cbn [take_frac]; [by intros [= <- <-]|].
  destruct (c =? 46)%N eqn:E; [|by intros [= <- <-]]. destruct (truthy _); [|done]. intros [= <- <-].
  apply N.eqb_eq in E as ->. cbn [app forallb]. rewrite takeb_dropb, digits_chars. done.
Qed.

Lemma exp_chars s ex t : take_exp s = Some (ex, t) -> s = ex ++ t /\ forallb num_char ex = true.
Proof.
  destruct s as [|c s]; cbn [take_exp]; [by intros [= <- <-]|].
  destruct (_ || _) eqn:E; [|by intros [= <- <-]].
  assert (num_char c = true) as Hc.
  { unfold num_char. rewrite orb_true_iff in E. destruct E as [-> | ->]; by rewrite !orb_true_r. }
  destruct s as [|d u]; [done|].
  destruct ((d =? 43) || (d =? 45))%N eqn:Ed.
  - destruct (truthy _); [|done]. intros [= <- <-]. cbn [app forallb]. rewrite takeb_dropb, Hc, digits_chars.
    unfold num_char. apply orb_true_iff in Ed as [-> | ->]; by rewrite !orb_true_r.
  - clear Ed. generalize (d :: u). intros w. destruct (truthy _); [|done]. intros [= <- <-]. cbn [app forallb].
    by rewrite takeb_dropb, Hc, digits_chars.
Qed.

Lemma body_chars sg s x : number_body sg s = Some (x, []) -> forallb num_char s = true.
Proof.
  intros H. rewrite <- (takeb_dropb is_digit s), forallb_app, digits_chars. cbn [andb]. revert H. unfold number_body.
  destruct (takeb is_digit s); [done|]. destruct (_ && _); [done|].
  destruct (take_frac (dropb is_digit s)) as [[fr s3]|] eqn:Ef; [|done].
  destruct (take_exp s3) as [[ex s4]|] eqn:Ee; [|done]. intros [= _ ->].
  apply frac_chars in Ef as [-> H1]. apply exp_chars in Ee as [-> H2]. by rewrite app_nil_r, forallb_app, H1, H2.
Qed.

Lemma number_chars s x : parse_number s = Some (x, []) -> forallb num_char s = true.
Proof.
  unfold parse_number. destruct s as [|c s]; [done|]. destruct (c =? 45)%N eqn:E; intros H%body_chars; [|done].
  apply N.eqb_eq in E as ->. cbn [forallb]. by rewrite H.
Qed.

Lemma trimmed_ends c s d : is_space c = false -> is_space d = false -> trimmed (c :: s ++ [d]) = true.
Proof.
  intros Hc Hd. unfold trimmed. rewrite Hc. change (c :: s ++ [d]) with ((c :: s) ++ [d]). by rewrite last_snoc, Hd.
Qed.

Lemma bracket_trimmed gap ind o c items :
  is_space o = false -> is_space c = false -> trimmed (bracket gap ind o c items) = true.
Proof.
  intros Ho Hc. unfold bracket. destruct items as [|x l]; [by apply (trimmed_ends o [] c)|].
  cbn [app]. rewrite !app_assoc. by apply trimmed_ends.
Qed.

Lemma stringify_trimmed gap ind v : printable v = true -> trimmed (stringify gap ind v) = true.
Proof.
  destruct v as [|[]|x|s|l|l]; cbn [printable stringify]; intros H; try reflexivity;
    [|unfold quote, dq; cbn [app]; by apply trimmed_ends|by apply bracket_trimmed..].
  unfold num_printable in H. apply andb_true_iff in H as [-> H]. apply bool_decide_eq_true, number_chars in H.
  apply trimmed_no_space. rewrite forallb_forall in *. intros c Hc. apply negb_true_iff, num_char_space, H, Hc.
Qed.

(** ** A string is shorter than its text *)

Lemma chars_length n s u r : length s <= n -> parse_chars s = Some (u, r) -> length u < length s.
Proof.
  revert s u. induction n as [|n IH]; intros s u Hn; [by destruct s; [|cbn in Hn; lia]|].
  destruct s as [|c s]; [done|]. cbn [parse_chars length] in *.
  assert (forall d t, length t <= n -> (fun r => (d :: r.1, r.2)) <$> parse_chars t = Some (u, r) ->
            length u < S (length t)) as step.
  { intros d t Ht. destruct (parse_chars t) as [[u' r']|] eqn:E; [|done]. cbn. intros [= <- ->].
    apply IH in E; [|done]. cbn. lia. }
  destruct (c =? 34)%N; [intros [= <- _]; cbn; lia|]. destruct (c <? 32)%N; [done|].
  destruct (c =? 92)%N; [|apply step; lia].
  destruct s as [|e s]; [done|]. cbn [length] in *. destruct (e =? 117)%N.
  - destruct s as [|h1 [|h2 [|h3 [|h4 s]]]]; try done. destruct (hex4 _ _ _ _) as [d|]; [|done].
    cbn [length] in *. intros H. apply step in H; lia.
  - repeat (match goal with |- (if ?b then _ else _) = _ -> _ => destruct b end;
            [intros H; apply step in H; lia|]). done.
Qed.

Lemma parse_string_length s u : parse s = Some (JStr u) -> length u < length s.
Proof.
  unfold parse. destruct (parse_value _ s) as [[v r]|] eqn:E; [|done].
  destruct (skip_ws r); [|done]. intros [= ->]. cbn [parse_value] in E.
  pose proof (dropb_length json_ws s) as Hd. unfold skip_ws in E. destruct (dropb json_ws s) as [|c w]; [done|].
  cbn [length] in Hd. destruct (c =? 34)%N.
  - destruct (parse_chars w) as [[u' r']|] eqn:Ec; [|done]. injection E as -> _. apply (chars_length (length w)) in Ec; lia.
  - exfalso. revert E. repeat (match goal with
      | |- context [match ?x with _ => _ end = Some _] => destruct x
      | |- context [_ <$> ?x = Some _] => destruct x end; cbn; try done).
Qed.

(** ** Blank texts *)

Lemma space_starts_nothing c t f : is_space c = true -> json_ws c = false -> parse_value f (c :: t) = None.
Proof.
  intros Hs Hw. destruct f as [|f]; [done|]. cbn [parse_value]. unfold skip_ws. cbn [dropb]. rewrite Hw.
  assert (Hn : forall n, is_space n = false -> (c =? n)%N = false) by (intros n Hn; apply N.eqb_neq; congruence).
  rewrite !Hn by reflexivity.
  assert (Hp : forall a q, is_space a = false -> strip_prefix (a :: q) (c :: t) = None).
  { intros a q Ha. cbn [strip_prefix]. destruct (N.eqb_spec a c); [congruence|done]. }
  change (js "null") with [110; 117; 108; 108]%N. change (js "true") with [116; 114; 117; 101]%N.
  change (js "false") with [102; 97; 108; 115; 101]%N.
  rewrite !Hp by reflexivity. unfold parse_number. rewrite Hn by reflexivity. unfold number_body. cbn [takeb].
  replace (is_digit c) with false; [done|]. symmetry. unfold is_digit.
  destruct (48 <=? c)%N eqn:E1, (c <=? 57)%N eqn:E2; try done. exfalso.
  apply N.leb_le in E1, E2.
  assert (c = 48 \/ c = 49 \/ c = 50 \/ c = 51 \/ c = 52 \/ c = 53 \/ c = 54 \/ c = 55 \/ c = 56 \/ c = 57)%N as Hd by lia.
  repeat (destruct Hd as [->|Hd]; [discriminate Hs|]). subst c. discriminate Hs.
Qed.

Lemma parse_value_ws f s : parse_value f s = parse_value f (skip_ws s).
Proof.
  destruct f as [|f]; [done|]. cbn [parse_value]. unfold skip_ws.
  destruct (dropb json_ws s) as [|c t] eqn:E; [done|]. apply dropb_head in E. cbn [dropb]. by rewrite E.
Qed.

(** A blank text is not JSON. *)
Lemma parse_blank s : trim s = [] -> parse s = None.
Proof.
  intros H%trim_blank. unfold parse. rewrite parse_value_ws. unfold skip_ws.
  assert (Hd : forallb is_space (dropb json_ws s) = true /\ match dropb json_ws s with c :: _ => json_ws c = false | [] => True end).
  { revert H. induction s as [|c s IH]; [done|]. cbn [forallb dropb]. intros [Hc Hs]%andb_true_iff.
    destruct (json_ws c) eqn:E; [by apply IH|]. cbn [forallb]. by rewrite Hc, Hs. }
  destruct (dropb json_ws s) as [|c t]; [done|]. destruct Hd as [[Hc _]%andb_true_iff Hw].
  by rewrite space_starts_nothing.
Qed.
