(* ===== verification/BillingExpr.v ===== *)
(** * Billing expressions (web/default/src/features/pricing/lib/billing-expr.ts)

    The registry of billing variables, the parser of tiered prices, the parser
    of request rules, the split and the combination of the two, and the
    editor's builder of request rules.  Regular expressions are transcribed
    construct by construct; strings keep the source's text. *)

From S2P Require Import Prelude JsStr JsRegex JsNum JsJson.

Local Open Scope js_scope.

(** ** Variable registry *)

Inductive BillingSide := SideInput | SideOutput | SideCondition.

Record BillingVar := mkBillingVar {
  bv_key : jsstr;
  bv_field : option jsstr;
  bv_tierField : option jsstr;
  bv_label : jsstr;
  bv_shortLabel : jsstr;
  bv_side : BillingSide;
  bv_isBase : bool;
  bv_isConditionOnly : bool;
  bv_group : option jsstr
}.

Definition BILLING_VARS : list BillingVar := [
  mkBillingVar (js "p") (Some (js "inputPrice")) (Some (js "input_unit_cost"))
    (js "Input price") (js "Input") SideInput true false None;
  mkBillingVar (js "c") (Some (js "outputPrice")) (Some (js "output_unit_cost"))
    (js "Completion price") (js "Output") SideOutput true false None;
  mkBillingVar (js "len") None None
    (js "Input length") (js "Length") SideCondition false true None;
  mkBillingVar (js "cr") (Some (js "cacheReadPrice")) (Some (js "cache_read_unit_cost"))
    (js "Cache read price") (js "Cache Read") SideInput false false (Some (js "cache"));
  mkBillingVar (js "cc") (Some (js "cacheCreatePrice")) (Some (js "cache_create_unit_cost"))
    (js "Cache create price") (js "Cache Write") SideInput false false (Some (js "cache"));
  mkBillingVar (js "cc1h") (Some (js "cacheCreate1hPrice")) (Some (js "cache_create_1h_unit_cost"))
    (js "Cache create (1h) price") (js "Cache Write (1h)") SideInput false false (Some (js "cache"));
  mkBillingVar (js "img") (Some (js "imagePrice")) (Some (js "image_unit_cost"))
    (js "Image input price") (js "Image In") SideInput false false (Some (js "media"));
  mkBillingVar (js "img_o") (Some (js "imageOutputPrice")) (Some (js "image_output_unit_cost"))
    (js "Image output price") (js "Image Out") SideOutput false false (Some (js "media"));
  mkBillingVar (js "ai") (Some (js "audioInputPrice")) (Some (js "audio_input_unit_cost"))
    (js "Audio input price") (js "Audio In") SideInput false false (Some (js "media"));
  mkBillingVar (js "ao") (Some (js "audioOutputPrice")) (Some (js "audio_output_unit_cost"))
    (js "Audio output price") (js "Audio Out") SideOutput false false (Some (js "media"))
].

Definition BILLING_PRICING_VARS : list BillingVar :=
  List.filter (fun v => negb (bv_isConditionOnly v)) BILLING_VARS.

Definition BILLING_CONDITION_VARS : list jsstr :=
  map bv_key (List.filter (fun v => bv_isBase v || bv_isConditionOnly v) BILLING_VARS).

Definition BILLING_VAR_KEY_TO_FIELD : list (jsstr * jsstr) :=
  map (fun v => (bv_key v, default [] (bv_field v))) BILLING_PRICING_VARS.

Definition BILLING_EXTRA_VARS : list BillingVar :=
  List.filter (fun v => negb (bv_isBase v) && negb (bv_isConditionOnly v)) BILLING_VARS.

(** Pairs of a tier field and its expression variable. *)
Definition BILLING_CACHE_VAR_MAP : list (jsstr * jsstr) :=
  map (fun v => (default [] (bv_tierField v), bv_key v)) BILLING_EXTRA_VARS.

Definition RSpaces : regex := RStar (RChar is_space).

(** A variable at a word boundary, a star and its coefficient. *)
Definition BILLING_VAR_REGEX : regex :=
  (RWordB +> RGroup 1 (RAlts (map bv_key BILLING_PRICING_VARS)) +> RSpaces
   +> RStr (js "*") +> RSpaces +> RGroup 2 (RPlus (RChar cls_num)))%re.

(** ** Request rule constants *)

Definition SOURCE_PARAM := js "param".
Definition SOURCE_HEADER := js "header".
Definition SOURCE_TIME := js "time".

Definition MATCH_EQ := js "eq".
Definition MATCH_CONTAINS := js "contains".
Definition MATCH_GT := js "gt".
Definition MATCH_GTE := js "gte".
Definition MATCH_LT := js "lt".
Definition MATCH_LTE := js "lte".
Definition MATCH_EXISTS := js "exists".
Definition MATCH_RANGE := js "range".

Definition TIME_FUNCS : list jsstr :=
  [js "hour"; js "minute"; js "weekday"; js "month"; js "day"].

(** An optional minus, digits with an optional point, an optional exponent. *)
Definition RDigits : regex := RPlus (RChar is_digit).
Definition NUMERIC_LITERAL_REGEX : regex :=
  (RBol +> ROpt (RStr (js "-"))
   +> RAlt (RDigits +> ROpt (RStr (js ".")) +> RStar (RChar is_digit))
           (RStr (js ".") +> RDigits)
   +> ROpt (RChar (fun c => (c =? 101) || (c =? 69))%N
            +> ROpt (RChar (fun c => (c =? 43) || (c =? 45))%N) +> RDigits)
   +> REol)%re.

Inductive PHSource := SrcParam | SrcHeader.

Record ParamHeaderCondition := mkPH {
  ph_source : PHSource;
  ph_path : jsstr;
  ph_mode : jsstr;
  ph_value : jsstr
}.

Record TimeCondition := mkTC {
  tc_timeFunc : jsstr;
  tc_timezone : jsstr;
  tc_mode : jsstr;
  tc_value : jsstr;
  tc_rangeStart : jsstr;
  tc_rangeEnd : jsstr
}.

Inductive RequestCondition :=
| CTime (c : TimeCondition)
| CParamHeader (c : ParamHeaderCondition).

Record RequestRuleGroup := mkRRG {
  rg_conditions : list RequestCondition;
  rg_multiplier : jsstr
}.

Record TierCondition := mkTierCond {
  tcd_var : jsstr;
  tcd_op : jsstr;
  tcd_value : num
}.

(** A parsed tier: its price fields in the order they are assigned, then its
    label and conditions. *)
Record ParsedTier := mkParsedTier {
  pt_fields : list (jsstr * num);
  pt_label : jsstr;
  pt_conditions : list TierCondition
}.

(** ** Tier parser *)

(** A version prefix [v<digits>:] and the rest of the text. *)
Definition VERSION_REGEX : regex :=
  (RBol +> RStr (js "v") +> RGroup 1 RDigits +> RStr (js ":")
   +> RGroup 2 (RStar (RChar cls_any)) +> REol)%re.

Definition stripExprVersion (exprStr : jsstr) : num * jsstr :=
  if negb (truthy exprStr) then (num_of_Z 1, [])
  else match rexec VERSION_REGEX exprStr with
       | Some m => (num_of_str (default [] (group m 1)), default [] (group m 2))
       | None => (num_of_Z 1, exprStr)
       end.

Fixpoint assoc {B} (k : jsstr) (l : list (jsstr * B)) : option B :=
  match l with
  | [] => None
  | (k', v) :: t => if str_eqb k k' then Some v else assoc k t
  end.

Definition parseTierBody (bodyStr : jsstr) : list (jsstr * num) :=
  let coeffs := foldl (fun cs m =>
      let k := default [] (group m 1) in
      match assoc k cs with
      | Some _ => cs
      | None => cs ++ [(k, num_of_str (default [] (group m 2)))]
      end) [] (rexec_g BILLING_VAR_REGEX bodyStr) in
  map (fun kv => (kv.2, num_or (default nan (assoc kv.1 coeffs)) zero))
      BILLING_VAR_KEY_TO_FIELD.

(** A comparison of [p], [c] or [len] with a number. *)
Definition COND_ATOM : regex :=
  (RAlts [js "p"; js "c"; js "len"] +> RSpaces
   +> RAlts [js "<"; js "<="; js ">"; js ">="] +> RSpaces
   +> RPlus (RChar cls_unum))%re.

Definition COND_GROUP : regex :=
  RGroup 1 (COND_ATOM +> RStar (RSpaces +> RStr (js "&&") +> RSpaces +> COND_ATOM))%re.

(** An optional condition and a question mark, then a [tier] call: its quoted
    label and its body up to the closing parenthesis. *)
Definition TIER_REGEX : regex :=
  (ROpt (COND_GROUP +> RSpaces +> RStr (js "?") +> RSpaces)
   +> RStr (js "tier(" ++ dq) +> RGroup 2 (RStar (RChar (cls_not 34))) +> RStr (dq ++ js ",")
   +> RSpaces +> RGroup 3 (RPlus (RChar (cls_not 41))) +> RStr (js ")"))%re.

(** One comparison, with its three parts captured. *)
Definition COND_REGEX : regex :=
  (RBol +> RGroup 1 (RAlts [js "p"; js "c"; js "len"]) +> RSpaces
   +> RGroup 2 (RAlts [js "<"; js "<="; js ">"; js ">="]) +> RSpaces
   +> RGroup 3 (RPlus (RChar cls_unum)) +> REol)%re.

(** [s.split(re)] for an expression whose matches are not empty. *)
Fixpoint split_at (ms : list mresult) (s : jsstr) : list jsstr :=
  match ms with
  | [] => [s]
  | m :: ms => mr_before m :: split_at ms (mr_after m)
  end.
Definition rsplit (r : regex) (s : jsstr) : list jsstr := split_at (rexec_g r s) s.

Definition AND_REGEX : regex := (RSpaces +> RStr (js "&&") +> RSpaces)%re.

Definition parseTierConditions (condStr : jsstr) : list TierCondition :=
  if truthy condStr then
    omap (fun cp =>
        (fun cm => mkTierCond (default [] (group cm 1)) (default [] (group cm 2))
                              (num_of_str (default [] (group cm 3))))
        <$> rexec COND_REGEX (trim cp))
      (rsplit AND_REGEX condStr)
  else [].

Definition parseTiersFromExpr (exprStr : jsstr) : list ParsedTier :=
  if negb (truthy exprStr) then []
  else
    let body := (stripExprVersion exprStr).2 in
    map (fun m =>
        mkParsedTier (parseTierBody (default [] (group m 3)))
                     (default [] (group m 2))
                     (parseTierConditions (default [] (group m 1))))
      (rexec_g TIER_REGEX body).

(** ** Request rule parser *)

Definition depth_step (d : Z) (c : jschar) : Z :=
  (let d := if (c =? 40)%N then d + 1 else d in
   if (c =? 41)%N then d - 1 else d)%Z.

(** The loop of [splitTopLevelMultiply] and [splitTopLevelAnd]: [cur] is the
    piece read so far (reversed), [skip] the code units of a separator still
    to be passed over. *)
Fixpoint split_go (sep s cur : jsstr) (depth : Z) (skip : nat) : list jsstr :=
  match s with
  | [] => [trim (rev cur)]
  | c :: t =>
      match skip with
      | S k => split_go sep t cur depth k
      | O =>
          let depth := depth_step depth c in
          if (depth =? 0)%Z && startsWith s sep
          then trim (rev cur) :: split_go sep t [] depth (length sep - 1)
          else split_go sep t (c :: cur) depth 0
      end
  end.

Definition splitTopLevelMultiply (expr : jsstr) : list jsstr :=
  List.filter truthy (split_go (js " * ") expr [] 0 0).

Definition splitTopLevelAnd (expr : jsstr) : list jsstr :=
  List.filter truthy (split_go (js " && ") expr [] 0 0).

(** The value is the one [JSON.parse] returns, whatever its type. *)
Definition parseExprLiteral (raw : jsstr) : option json :=
  let text := trim raw in
  if str_eqb text (js "true") || str_eqb text (js "false") then Some (JStr text)
  else if rtest NUMERIC_LITERAL_REGEX text then Some (JStr text)
  else match parse text with
       | Some JNull => None
       | Some v => Some v
       | None => None
       end.

Definition TIME_FUNC_ALT : regex := RAlts TIME_FUNCS.
Definition RNum (n : nat) : regex := RGroup n (RPlus (RChar cls_num)).
Definition RQuoted1 (n : nat) : regex := RGroup n (RPlus (RChar (cls_not 34))).

(** A time function of a zone at or above a bound, or the same function of the
    same zone (by back reference) below another. *)
Definition TIME_RANGE_BODY : regex :=
  (RGroup 1 TIME_FUNC_ALT +> RStr (js "(" ++ dq) +> RQuoted1 2 +> RStr (dq ++ js ") >= ")
   +> RNum 3 +> RStr (js " || ") +> RBackref 1 +> RStr (js "(" ++ dq) +> RBackref 2
   +> RStr (dq ++ js ") < ") +> RNum 4)%re.
Definition TIME_RANGE_REGEX : regex := (RBol +> TIME_RANGE_BODY +> REol)%re.
Definition TIME_RANGE_PAREN_REGEX : regex :=
  (RBol +> RStr (js "(") +> TIME_RANGE_BODY +> RStr (js ")") +> REol)%re.
Definition TIME_CMP_REGEX : regex :=
  (RBol +> RGroup 1 TIME_FUNC_ALT +> RStr (js "(" ++ dq) +> RQuoted1 2 +> RStr (dq ++ js ") ")
   +> RGroup 3 (RAlts [js "=="; js ">="; js "<"]) +> RStr (js " ") +> RNum 4 +> REol)%re.

Definition range_condition (m : mresult) : RequestCondition :=
  CTime (mkTC (default [] (group m 1)) (default [] (group m 2)) MATCH_RANGE []
              (default [] (group m 3)) (default [] (group m 4))).

Definition tryParseTimeCondition (expr : jsstr) : option RequestCondition :=
  match rexec TIME_RANGE_REGEX expr with
  | Some m => Some (range_condition m)
  | None =>
      match rexec TIME_RANGE_PAREN_REGEX expr with
      | Some m => Some (range_condition m)
      | None =>
          match rexec TIME_CMP_REGEX expr with
          | Some m =>
              let op := default [] (group m 3) in
              let mode := default MATCH_EQ
                (assoc op [(js "==", MATCH_EQ); (js ">=", MATCH_GTE); (js "<", MATCH_LT)]) in
              Some (CTime (mkTC (default [] (group m 1)) (default [] (group m 2)) mode
                                (default [] (group m 4)) [] []))
          | None => None
          end
      end
  end.

(** A JSON string literal: plain characters or a backslash and any character
    between double quotes. *)
Definition RJsonString (n : nat) : regex :=
  RGroup n (RStr dq
    +> RStar (RAlt (RChar (fun c => negb (c =? 34)%N && negb (c =? 92)%N))
                   (RStr [92%N] +> RChar cls_dot))
    +> RStr dq)%re.

Definition HEADER_EXISTS_REGEX : regex :=
  (RBol +> RStr (js "header(" ++ dq) +> RQuoted1 1 +> RStr (dq ++ js ") != " ++ dq ++ dq) +> REol)%re.
Definition PARAM_EXISTS_REGEX : regex :=
  (RBol +> RStr (js "param(" ++ dq) +> RQuoted1 1 +> RStr (dq ++ js ") != nil") +> REol)%re.
Definition HEADER_CONTAINS_REGEX : regex :=
  (RBol +> RStr (js "has(header(" ++ dq) +> RQuoted1 1 +> RStr (dq ++ js "), ")
   +> RJsonString 2 +> RStr (js ")") +> REol)%re.
Definition PARAM_CONTAINS_REGEX : regex :=
  (RBol +> RStr (js "param(" ++ dq) +> RQuoted1 1 +> RStr (dq ++ js ") != nil && has(param(" ++ dq)
   +> RQuoted1 2 +> RStr (dq ++ js "), ") +> RJsonString 3 +> RStr (js ")") +> REol)%re.
Definition PARAM_CMP_REGEX : regex :=
  (RBol +> RStr (js "param(" ++ dq) +> RQuoted1 1 +> RStr (dq ++ js ") != nil && param(" ++ dq)
   +> RQuoted1 2 +> RStr (dq ++ js ") ") +> RGroup 3 (RAlts [js ">"; js ">="; js "<"; js "<="])
   +> RStr (js " ") +> RNum 4 +> REol)%re.
Definition EQ_REGEX : regex :=
  (RBol +> RGroup 1 (RAlts [js "param"; js "header"]) +> RStr (js "(" ++ dq) +> RQuoted1 2
   +> RStr (dq ++ js ") == ") +> RGroup 3 (RPlus (RChar cls_dot)) +> REol)%re.

(** [JSON.parse(s) as string] inside a condition: the SyntaxError is not
    caught there. *)
Definition jsonString (s : jsstr) : outcome jsstr :=
  match parse s with
  | Some v => Returns (json_to_str v)
  | None => Throws (js "SyntaxError")
  end.

Definition CMP_OPS : list (jsstr * jsstr) :=
  [(js ">", MATCH_GT); (js ">=", MATCH_GTE); (js "<", MATCH_LT); (js "<=", MATCH_LTE)].

Definition cond_of (src : PHSource) (path mode value : jsstr) : RequestCondition :=
  CParamHeader (mkPH src path mode value).

Definition parseEqCondition (expr : jsstr) : option RequestCondition :=
  match rexec EQ_REGEX expr with
  | Some m =>
      match parseExprLiteral (default [] (group m 3)) with
      | None => None
      | Some v =>
          Some (cond_of (if str_eqb (default [] (group m 1)) (js "param") then SrcParam else SrcHeader)
                        (default [] (group m 2)) MATCH_EQ (json_to_str v))
      end
  | None => None
  end.

Definition parseParamCmpCondition (expr : jsstr) : option RequestCondition :=
  match rexec PARAM_CMP_REGEX expr with
  | Some m =>
      if bool_decide (group m 1 = group m 2)
      then Some (cond_of SrcParam (default [] (group m 1))
                   (default [] (assoc (default [] (group m 3)) CMP_OPS))
                   (default [] (group m 4)))
      else parseEqCondition expr
  | None => parseEqCondition expr
  end.

Definition parseParamContainsCondition (expr : jsstr) : outcome (option RequestCondition) :=
  match rexec PARAM_CONTAINS_REGEX expr with
  | Some m =>
      if bool_decide (group m 1 = group m 2)
      then let! v := jsonString (default [] (group m 3)) in
           Returns (Some (cond_of SrcParam (default [] (group m 1)) MATCH_CONTAINS v))
      else Returns (parseParamCmpCondition expr)
  | None => Returns (parseParamCmpCondition expr)
  end.

Definition tryParseRequestCondition (expr : jsstr) : outcome (option RequestCondition) :=
  match tryParseTimeCondition expr with
  | Some tc => Returns (Some tc)
  | None =>
      match rexec HEADER_EXISTS_REGEX expr with
      | Some m => Returns (Some (cond_of SrcHeader (default [] (group m 1)) MATCH_EXISTS []))
      | None =>
          match rexec PARAM_EXISTS_REGEX expr with
          | Some m => Returns (Some (cond_of SrcParam (default [] (group m 1)) MATCH_EXISTS []))
          | None =>
              match rexec HEADER_CONTAINS_REGEX expr with
              | Some m =>
                  let! v := jsonString (default [] (group m 2)) in
                  Returns (Some (cond_of SrcHeader (default [] (group m 1)) MATCH_CONTAINS v))
              | None => parseParamContainsCondition expr
              end
          end
      end
  end.

(** A parenthesised conditional factor, with the s flag. *)
Definition FACTOR_REGEX : regex :=
  (RBol +> RStr (js "(") +> RGroup 1 (RPlus (RChar cls_any)) +> RStr (js " ? ") +> RNum 2
   +> RStr (js " : 1)") +> REol)%re.

Definition tryParseRuleGroupFactor (part : jsstr) : outcome (option RequestRuleGroup) :=
  match rexec FACTOR_REGEX part with
  | None => Returns None
  | Some m =>
      let conditionStr := default [] (group m 1) in
      let multiplier := default [] (group m 2) in
      let! conditions :=
        otraverse (fun ap => tryParseRequestCondition (trim ap)) (splitTopLevelAnd conditionStr) in
      match conditions with
      | None => Returns None
      | Some [] => Returns None
      | Some cs => Returns (Some (mkRRG cs multiplier))
      end
  end.

Definition tryParseRequestRuleExpr (expr : jsstr) : outcome (option (list RequestRuleGroup)) :=
  let trimmed := trim expr in
  if negb (truthy trimmed) then Returns (Some [])
  else otraverse tryParseRuleGroupFactor (splitTopLevelMultiply trimmed).

(** ** Combine / split billing expr and request rules *)

Fixpoint outer_parens_go (s : jsstr) (depth : Z) : bool :=
  match s with
  | [] => (depth =? 0)%Z
  | c :: t =>
      let depth := depth_step depth c in
      if (depth =? 0)%Z && truthy t then false else outer_parens_go t depth
  end.

Definition hasFullOuterParens (expr : jsstr) : bool :=
  if negb (startsWith expr (js "(")) || negb (endsWith expr (js ")")) then false
  else outer_parens_go expr 0.

(** [expr.slice(1, -1)]. *)
Definition sliceInner (s : jsstr) : jsstr := take (length s - 2) (drop 1 s).

Fixpoint unwrap_go (fuel : nat) (current : jsstr) : jsstr :=
  match fuel with
  | O => current
  | S f => if hasFullOuterParens current then unwrap_go f (trim (sliceInner current)) else current
  end.

(** One unit of fuel per code unit: every turn removes at least one. *)
Definition unwrapOuterParens (expr : jsstr) : jsstr :=
  let current := trim expr in unwrap_go (S (length current)) current.

(** The [forEach] that sends a part to the rules or to the base. *)
Fixpoint partition_parts (parts : list jsstr) : outcome (list jsstr * list jsstr) :=
  match parts with
  | [] => Returns ([], [])
  | part :: rest =>
      let! parsed := tryParseRequestRuleExpr part in
      let! r := partition_parts rest in
      match parsed with
      | Some (_ :: _) => Returns (part :: r.1, r.2)
      | _ => Returns (r.1, part :: r.2)
      end
  end.

(** The result is [(billingExpr, requestRuleExpr)]. *)
Definition splitBillingExprAndRequestRules (expr : jsstr) : outcome (jsstr * jsstr) :=
  let trimmed := trim expr in
  if negb (truthy trimmed) then Returns ([], [])
  else
    let parts := splitTopLevelMultiply trimmed in
    if Nat.leb (length parts) 1 then Returns (trimmed, [])
    else
      let! r := partition_parts parts in
      match r with
      | ((_ :: _) as ruleParts, [base]) =>
          Returns (unwrapOuterParens base, join (js " * ") ruleParts)
      | _ => Returns (trimmed, [])
      end.

Definition combineBillingExpr (baseExpr requestRuleExpr : jsstr) : jsstr :=
  let base := trim baseExpr in
  let rules := trim requestRuleExpr in
  if negb (truthy base) then []
  else if negb (truthy rules) then base
  else js "(" ++ base ++ js ") * " ++ rules.

(** ** Editor: empty constructors *)

Definition createEmptyCondition : ParamHeaderCondition := mkPH SrcParam [] MATCH_EQ [].
Definition createEmptyTimeCondition : TimeCondition :=
  mkTC (js "hour") (js "Asia/Shanghai") MATCH_GTE [] [] [].
Definition createEmptyRuleGroup : RequestRuleGroup :=
  mkRRG [CParamHeader createEmptyCondition] [].
Definition createEmptyTimeRuleGroup : RequestRuleGroup :=
  mkRRG [CTime createEmptyTimeCondition] [].

(** ** Editor: match options and normalisation *)

Record MatchOption := mkMatchOption { mo_value : jsstr; mo_labelKey : jsstr }.

Definition getRequestRuleMatchOptions (source : jsstr) : list MatchOption :=
  if str_eqb source SOURCE_TIME then
    [mkMatchOption MATCH_EQ (js "Equals");
     mkMatchOption MATCH_GTE (js "Greater than or equal");
     mkMatchOption MATCH_LT (js "Less than");
     mkMatchOption MATCH_RANGE (js "Overnight range")]
  else
    let base := [mkMatchOption MATCH_EQ (js "Equals");
                 mkMatchOption MATCH_CONTAINS (js "Contains");
                 mkMatchOption MATCH_EXISTS (js "Exists")] in
    if str_eqb source SOURCE_HEADER then base
    else base ++ [mkMatchOption MATCH_GT (js "Greater than");
                  mkMatchOption MATCH_GTE (js "Greater than or equal");
                  mkMatchOption MATCH_LT (js "Less than");
                  mkMatchOption MATCH_LTE (js "Less than or equal")].

Definition isTimeFunc (v : option jsstr) : bool :=
  match v with Some s => existsb (str_eqb s) TIME_FUNCS | None => false end.

(** [Partial<RequestCondition>]: every field may be missing. *)
Record PartialCondition := mkPartial {
  pc_source : option jsstr;
  pc_path : option jsstr;
  pc_timeFunc : option jsstr;
  pc_timezone : option jsstr;
  pc_mode : option jsstr;
  pc_value : option jsstr;
  pc_rangeStart : option jsstr;
  pc_rangeEnd : option jsstr
}.

Definition has_option (opts : list MatchOption) (mode : option jsstr) : bool :=
  existsb (fun o => bool_decide (Some (mo_value o) = mode)) opts.

Definition source_name (s : PHSource) : jsstr :=
  match s with SrcParam => SOURCE_PARAM | SrcHeader => SOURCE_HEADER end.

(** [None] is [null] or [undefined]. *)
Definition normalizeCondition (cond : option PartialCondition) : RequestCondition :=
  let get {B} (f : PartialCondition -> option B) : option B := cond ≫= f in
  if bool_decide (get pc_source = Some SOURCE_TIME) then
    let timeFunc := if isTimeFunc (get pc_timeFunc)
                    then default [] (get pc_timeFunc) else js "hour" in
    let mode := if has_option (getRequestRuleMatchOptions SOURCE_TIME) (get pc_mode)
                then default [] (get pc_mode) else MATCH_GTE in
    CTime (mkTC timeFunc (str_or (default [] (get pc_timezone)) (js "Asia/Shanghai")) mode
             (default [] (get pc_value)) (default [] (get pc_rangeStart))
             (default [] (get pc_rangeEnd)))
  else
    let source := if bool_decide (get pc_source = Some SOURCE_HEADER) then SrcHeader else SrcParam in
    let mode := if has_option (getRequestRuleMatchOptions (source_name source)) (get pc_mode)
                then default [] (get pc_mode) else MATCH_EQ in
    CParamHeader (mkPH source (default [] (get pc_path)) mode (default [] (get pc_value))).

(** A condition as the partial record the editor passes on. *)
Definition partial_of (c : RequestCondition) : PartialCondition :=
  match c with
  | CTime t =>
      mkPartial (Some SOURCE_TIME) None (Some (tc_timeFunc t)) (Some (tc_timezone t))
        (Some (tc_mode t)) (Some (tc_value t)) (Some (tc_rangeStart t)) (Some (tc_rangeEnd t))
  | CParamHeader p =>
      mkPartial (Some (source_name (ph_source p))) (Some (ph_path p)) None None
        (Some (ph_mode p)) (Some (ph_value p)) None None
  end.

(** ** Editor: build expression strings *)

Definition buildExprLiteral (mode value : jsstr) : jsstr :=
  let text := trim value in
  if str_eqb mode MATCH_CONTAINS then quote text
  else if str_eqb text (js "true") || str_eqb text (js "false") then text
  else if rtest NUMERIC_LITERAL_REGEX text then text
  else quote text.

Definition buildTimeExpr (t : TimeCondition) : jsstr :=
  let fn := tc_timeFunc t ++ js "(" ++ quote (tc_timezone t) ++ js ")" in
  if str_eqb (tc_mode t) MATCH_RANGE then
    let s := trim (tc_rangeStart t) in
    let e := trim (tc_rangeEnd t) in
    if negb (rtest NUMERIC_LITERAL_REGEX s) || negb (rtest NUMERIC_LITERAL_REGEX e) then []
    else fn ++ js " >= " ++ s ++ js " || " ++ fn ++ js " < " ++ e
  else
    let v := trim (tc_value t) in
    if negb (rtest NUMERIC_LITERAL_REGEX v) then []
    else
      let op := default (js "==")
        (assoc (tc_mode t) [(MATCH_EQ, js "=="); (MATCH_GTE, js ">="); (MATCH_LT, js "<")]) in
      fn ++ js " " ++ op ++ js " " ++ v.

Definition buildTimeConditionExpr (c : TimeCondition) : jsstr :=
  match normalizeCondition (Some (partial_of (CTime c))) with
  | CTime t => buildTimeExpr t
  | CParamHeader _ => []
  end.

Definition buildParamHeaderExpr (n : ParamHeaderCondition) : jsstr :=
  let path := trim (ph_path n) in
  if negb (truthy path) then []
  else
    let sourceExpr :=
      match ph_source n with
      | SrcHeader => js "header(" ++ quote path ++ js ")"
      | SrcParam => js "param(" ++ quote path ++ js ")"
      end in
    let mode := ph_mode n in
    if str_eqb mode MATCH_EXISTS then
      match ph_source n with
      | SrcHeader => sourceExpr ++ js " != " ++ dq ++ dq
      | SrcParam => sourceExpr ++ js " != nil"
      end
    else if str_eqb mode MATCH_CONTAINS then
      match ph_source n with
      | SrcHeader =>
          js "has(" ++ sourceExpr ++ js ", " ++ buildExprLiteral mode (ph_value n) ++ js ")"
      | SrcParam =>
          sourceExpr ++ js " != nil && has(" ++ sourceExpr ++ js ", "
            ++ buildExprLiteral mode (ph_value n) ++ js ")"
      end
    else
      match assoc mode [(MATCH_GT, js ">"); (MATCH_GTE, js ">="); (MATCH_LT, js "<"); (MATCH_LTE, js "<=")] with
      | Some op =>
          let numText := trim (ph_value n) in
          if negb (rtest NUMERIC_LITERAL_REGEX numText) then []
          else sourceExpr ++ js " != nil && " ++ sourceExpr ++ js " " ++ op ++ js " " ++ numText
      | None => sourceExpr ++ js " == " ++ buildExprLiteral mode (ph_value n)
      end.

Definition buildRequestConditionExpr (cond : RequestCondition) : jsstr :=
  match cond with
  | CTime t => buildTimeConditionExpr t
  | CParamHeader p =>
      match normalizeCondition (Some (partial_of cond)) with
      | CParamHeader n => buildParamHeaderExpr n
      | CTime _ => []
      end
  end.

Definition buildRuleGroupFactor (group : RequestRuleGroup) : jsstr :=
  let multiplier := trim (rg_multiplier group) in
  if negb (rtest NUMERIC_LITERAL_REGEX multiplier) then []
  else
    let condExprs := List.filter truthy (map buildRequestConditionExpr (rg_conditions group)) in
    match condExprs with
    | [] => []
    | _ =>
        let combined :=
          match condExprs with
          | [e] => e
          | _ => join (js " && ")
                   (map (fun e => if includes e (js " || ") then js "(" ++ e ++ js ")" else e) condExprs)
          end in
        js "(" ++ combined ++ js " ? " ++ multiplier ++ js " : 1)"
    end.

Definition buildRequestRuleExpr (groups : list RequestRuleGroup) : jsstr :=
  join (js " * ") (List.filter truthy (map buildRuleGroupFactor groups)).
