(* ===== verification/BillingSplit.v ===== *)
(** * Splitting an expression at its top level

    Facts about the loop shared by [splitTopLevelMultiply] and
    [splitTopLevelAnd], and about [unwrapOuterParens], of BillingExpr: which
    texts it passes over without cutting, and what it returns on the texts the
    builders produce. *)

From S2P Require Import Prelude JsStr JsRegex JsNum JsJson BillingExpr.

(** The depth after reading [s]. *)
Definition depth_after (d : Z) (s : jsstr) : Z := foldl depth_step d s.

(** The loop reads [s], followed by [tl], without cutting. *)
Fixpoint quiet (sep : jsstr) (d : Z) (s tl : jsstr) : bool :=
  match s with
  | [] => true
  | c :: t =>
      let d := depth_step d c in
      negb ((d =? 0)%Z && startsWith (s ++ tl) sep) && quiet sep d t tl
  end.

Definition paren (c : jschar) : bool := ((c =? 40) || (c =? 41))%N.
Definition no_paren (s : jsstr) : bool := forallb (fun c => negb (paren c)) s.

(** Parentheses match, starting [d] levels deep. *)
Fixpoint bal (d : nat) (s : jsstr) : bool :=
  match s with
  | [] => Nat.eqb d 0
  | c :: t =>
      if (c =? 40)%N then bal (S d) t
      else if (c =? 41)%N then match d with O => false | S d' => bal d' t end
      else bal d t
  end.
Abbreviation balanced := (bal 0).

Lemma depth_after_app d a b : depth_after d (a ++ b) = depth_after (depth_after d a) b.
Proof. unfold depth_after. by rewrite foldl_app. Qed.

Lemma depth_step_other d c : paren c = false -> depth_step d c = d.
Proof.
  unfold paren, depth_step. intros [H1 H2]%orb_false_iff. by rewrite H1, H2.
Qed.

Lemma depth_after_no_paren d s : no_paren s = true -> depth_after d s = d.
Proof.
  revert d. induction s as [|c t IH]; intros d; [done|]. cbn.
  intros [Hc%negb_true_iff Ht]%andb_true_iff. rewrite depth_step_other by done. by apply IH.
Qed.

Lemma bal_depth n d s : bal n s = true -> depth_after (Z.of_nat n + d) s = d.
Proof.
  revert n. induction s as [|c t IH]; intros n; cbn.
  - intros ->%Nat.eqb_eq. lia.
  - change (foldl depth_step ?x t) with (depth_after x t). unfold depth_step.
    destruct (c =? 40)%N eqn:E1.
    + apply N.eqb_eq in E1 as ->. cbn. intros H%IH. rewrite <- H at 2. f_equal. lia.
    + destruct (c =? 41)%N; [destruct n as [|n]; [done|]|]; intros H%IH;
        rewrite <- H at 2; f_equal; lia.
Qed.

Lemma bal_no_paren n s : no_paren s = true -> bal n s = Nat.eqb n 0.
Proof.
  induction s as [|c t IH]; [done|]. cbn.
  intros [Hc%negb_true_iff Ht]%andb_true_iff. unfold paren in Hc.
  apply orb_false_iff in Hc as [-> ->]. by apply IH.
Qed.

Lemma bal_app n a b : bal n a = true -> balanced b = true -> bal n (a ++ b) = true.
Proof.
  revert n. induction a as [|c t IH]; intros n; cbn.
  - by intros ->%Nat.eqb_eq ?.
  - destruct (c =? 40)%N; [apply IH|]. destruct (c =? 41)%N; [|apply IH].
    destruct n; [done|apply IH].
Qed.

Lemma bal_wrap_gen n s : bal n s = true -> bal (S n) (s ++ [41%N]) = true.
Proof.
  revert n. induction s as [|c t IH]; intros n; cbn.
  - by intros ->%Nat.eqb_eq.
  - destruct (c =? 40)%N; [apply IH|]. destruct (c =? 41)%N; [|apply IH].
    destruct n; [done|apply IH].
Qed.

Lemma balanced_wrap s : balanced s = true -> balanced (40%N :: s ++ [41%N]) = true.
Proof. apply bal_wrap_gen. Qed.

Lemma quiet_app sep d a b tl :
  quiet sep d (a ++ b) tl = quiet sep d a (b ++ tl) && quiet sep (depth_after d a) b tl.
Proof.
  revert d. induction a as [|c t IH]; intros d; [done|]. cbn.
  rewrite IH, andb_assoc, <- app_assoc. done.
Qed.

(** Above the top level nothing is cut. *)
Lemma quiet_deep sep n k s tl :
  bal n s = true -> (1 <= k)%Z -> quiet sep (Z.of_nat n + k) s tl = true.
Proof.
  revert n. induction s as [|c t IH]; intros n H Hk; [done|]. cbn in *. unfold depth_step.
  destruct (c =? 40)%N eqn:E1.
  - apply N.eqb_eq in E1 as ->. cbn.
    replace (Z.of_nat n + k + 1)%Z with (Z.of_nat (S n) + k)%Z by lia.
    rewrite IH by done. assert ((Z.of_nat (S n) + k =? 0)%Z = false) as -> by (apply Z.eqb_neq; lia). done.
  - destruct (c =? 41)%N.
    + destruct n as [|n]; [done|].
      replace (Z.of_nat (S n) + k - 1)%Z with (Z.of_nat n + k)%Z by lia.
      rewrite IH by done. assert ((Z.of_nat n + k =? 0)%Z = false) as -> by (apply Z.eqb_neq; lia). done.
    + rewrite IH by done. assert ((Z.of_nat n + k =? 0)%Z = false) as -> by (apply Z.eqb_neq; lia). done.
Qed.

Lemma quiet_space sep s tl d :
  forallb (fun c => negb (c =? 32)%N) s = true -> quiet (32%N :: sep) d s tl = true.
Proof.
  revert d. induction s as [|c t IH]; intros d; [done|]. cbn [forallb quiet].
  intros [Hc%negb_true_iff Ht]%andb_true_iff.
  assert (startsWith ((c :: t) ++ tl) (32%N :: sep) = false) as ->.
  { unfold startsWith. cbn [app strip_prefix]. by rewrite N.eqb_sym, Hc. }
  rewrite andb_false_r. by apply IH.
Qed.

(** A parenthesised text is passed over. *)
Lemma quiet_wrap sep s tl :
  balanced s = true -> quiet (32%N :: sep) 0 (40%N :: s ++ [41%N]) tl = true.
Proof.
  intros Hb. cbn [quiet]. change (depth_step 0 40) with 1%Z. cbn [Z.eqb andb negb].
  rewrite quiet_app. change 1%Z with (Z.of_nat 0 + 1)%Z at 1.
  rewrite quiet_deep by (done || lia).
  by apply quiet_space.
Qed.

Lemma split_go_quiet sep s tl cur d :
  quiet sep d s tl = true ->
  split_go sep (s ++ tl) cur d 0 = split_go sep tl (rev s ++ cur) (depth_after d s) 0.
Proof.
  revert cur d. induction s as [|c t IH]; intros cur d; [done|].
  cbn [quiet app split_go]. intros [Hc%negb_true_iff Ht]%andb_true_iff.
  cbn [app] in Hc. rewrite Hc, IH by done. cbn [rev]. by rewrite <- app_assoc.
Qed.

Lemma split_go_skip sep a t cur d :
  split_go sep (a ++ t) cur d (length a) = split_go sep t cur d 0.
Proof.
  revert cur. induction a as [|c a IH]; intros cur; [by destruct t|]. cbn. apply IH.
Qed.

(** At depth zero a separator closes the piece. *)
Lemma split_go_sep c0 sep tl cur :
  paren c0 = false ->
  split_go (c0 :: sep) ((c0 :: sep) ++ tl) cur 0 0
  = trim (rev cur) :: split_go (c0 :: sep) tl [] 0 0.
Proof.
  intros Hc. cbn [app split_go]. rewrite depth_step_other by done.
  pose proof (startsWith_app (c0 :: sep) tl) as Hs. cbn [app] in Hs. rewrite Hs.
  cbn [Z.eqb andb].
  cbn [length]. rewrite Nat.sub_succ, Nat.sub_0_r. by rewrite split_go_skip.
Qed.

(** ** Joining pieces and splitting them again *)

(** A piece the loop keeps whole. *)
Record piece_ok (sep p : jsstr) : Prop := {
  pok_ne : truthy p = true;
  pok_trim : trimmed p = true;
  pok_depth : depth_after 0 p = 0%Z;
  pok_quiet : forall tl, quiet sep 0 p (sep ++ tl) = true;
  pok_quiet_end : quiet sep 0 p [] = true
}.

Lemma split_join c0 sep ps :
  paren c0 = false -> ps <> [] -> Forall (piece_ok (c0 :: sep)) ps ->
  split_go (c0 :: sep) (join (c0 :: sep) ps) [] 0 0 = ps.
Proof.
  intros Hc Hne Hps. induction Hps as [|p ps Hp Hps IH]; [done|]. clear Hne.
  destruct ps as [|p' ps].
  - cbn [join]. rewrite <- (app_nil_r p) at 1.
    rewrite split_go_quiet by apply Hp. cbn [split_go]. rewrite app_nil_r, rev_involutive.
    by rewrite trim_id by apply Hp.
  - rewrite join_cons by done.
    rewrite split_go_quiet by apply Hp. rewrite (pok_depth _ _ Hp), app_nil_r.
    rewrite split_go_sep, rev_involutive by done.
    rewrite trim_id by apply Hp. f_equal. by apply IH.
Qed.

Lemma pieces_truthy sep ps : Forall (piece_ok sep) ps -> List.filter truthy ps = ps.
Proof.
  intros H. apply filter_all, forallb_forall_iff. eapply Forall_impl; [exact H|].
  intros p Hp. apply Hp.
Qed.

Lemma splitMultiply_join ps :
  ps <> [] -> Forall (piece_ok (js " * ")) ps ->
  splitTopLevelMultiply (join (js " * ") ps) = ps.
Proof.
  intros Hne H. unfold splitTopLevelMultiply. norm_js. norm_js_in H.
  rewrite split_join by done. eapply pieces_truthy, H.
Qed.

Lemma splitAnd_join ps :
  ps <> [] -> Forall (piece_ok (js " && ")) ps ->
  splitTopLevelAnd (join (js " && ") ps) = ps.
Proof.
  intros Hne H. unfold splitTopLevelAnd. norm_js. norm_js_in H.
  rewrite split_join by done. eapply pieces_truthy, H.
Qed.

Lemma piece_wrap sep s :
  balanced s = true -> piece_ok (32%N :: sep) (40%N :: s ++ [41%N]).
Proof.
  intros Hb. split.
  - done.
  - unfold trimmed. rewrite app_comm_cons, last_snoc. done.
  - change 0%Z with (Z.of_nat 0 + 0)%Z. by apply bal_depth, balanced_wrap.
  - intros tl. by apply quiet_wrap.
  - by apply quiet_wrap.
Qed.

(** ** unwrapOuterParens *)

Lemma hasFullOuterParens_length s : hasFullOuterParens s = true -> 2 <= length s.
Proof.
  unfold hasFullOuterParens. destruct s as [|a [|b s]]; [done| |cbn; lia].
  unfold startsWith, endsWith, startsWith. norm_js. cbn [rev app strip_prefix].
  destruct (N.eqb_spec 40 a) as [<-|]; done.
Qed.

Lemma unwrap_step_shorter s :
  hasFullOuterParens s = true -> length (trim (sliceInner s)) < length s.
Proof.
  intros H%hasFullOuterParens_length. pose proof (trim_length (sliceInner s)).
  unfold sliceInner in *. rewrite length_take, length_drop in *. lia.
Qed.

Lemma unwrap_go_done fuel s :
  length s < fuel -> hasFullOuterParens (unwrap_go fuel s) = false.
Proof.
  revert s. induction fuel as [|fuel IH]; intros s H; [lia|]. cbn.
  destruct (hasFullOuterParens s) eqn:E; [|done].
  apply IH. pose proof (unwrap_step_shorter s E). lia.
Qed.

Lemma unwrap_go_fix fuel s : hasFullOuterParens s = false -> unwrap_go fuel s = s.
Proof. destruct fuel; cbn; [done|]. by intros ->. Qed.

Lemma outer_parens_bal n s :
  bal n s = true -> outer_parens_go (s ++ [41%N]) (Z.of_nat n + 1) = true.
Proof.
  revert n. induction s as [|c t IH]; intros n H; cbn in *.
  - apply Nat.eqb_eq in H as ->. done.
  - unfold depth_step.
    destruct (c =? 40)%N eqn:E1.
    + apply N.eqb_eq in E1 as ->. cbn.
      replace (Z.of_nat n + 1 + 1)%Z with (Z.of_nat (S n) + 1)%Z by lia.
      assert ((Z.of_nat (S n) + 1 =? 0)%Z = false) as -> by (apply Z.eqb_neq; lia). cbn. by apply IH.
    + destruct (c =? 41)%N.
      * destruct n as [|n]; [done|].
        replace (Z.of_nat (S n) + 1 - 1)%Z with (Z.of_nat n + 1)%Z by lia.
        assert ((Z.of_nat n + 1 =? 0)%Z = false) as -> by (apply Z.eqb_neq; lia). cbn. by apply IH.
      * assert ((Z.of_nat n + 1 =? 0)%Z = false) as -> by (apply Z.eqb_neq; lia). cbn. by apply IH.
Qed.

Lemma hasFullOuterParens_wrap s :
  balanced s = true -> hasFullOuterParens (40%N :: s ++ [41%N]) = true.
Proof.
  intros H. unfold hasFullOuterParens.
  assert (startsWith (40%N :: s ++ [41%N]) (js "(") = true) as -> by done.
  assert (endsWith (40%N :: s ++ [41%N]) (js ")") = true) as ->.
  { unfold endsWith. rewrite app_comm_cons, rev_app_distr. done. }
  cbn [negb orb outer_parens_go]. change (depth_step 0 40) with (Z.of_nat 0 + 1)%Z.
  cbn [Z.eqb andb]. by apply outer_parens_bal.
Qed.

Lemma sliceInner_wrap s : sliceInner (40%N :: s ++ [41%N]) = s.
Proof.
  unfold sliceInner. cbn [length drop]. rewrite length_app. cbn [length].
  replace (S (length s + 1) - 2) with (length s) by lia.
  by rewrite drop_0, take_app_length.
Qed.
