(* ===== verification/BillingRoundTrip.v ===== *)
(** * Request rules: what the editor builds, the parser reads back

    The round trip of [buildRequestRuleExpr] and [tryParseRequestRuleExpr] of
    BillingExpr on the rules whose texts stay clear of the parser's separators,
    and the rules for which it fails. *)

From S2P Require Import Prelude JsStr JsRegex JsNum JsJson BillingExpr BillingSplit.

(** ** Numeric literals *)

Definition numeric (s : jsstr) : bool := rtest NUMERIC_LITERAL_REGEX s.

Lemma numeric_chars s : numeric s = true -> forallb cls_num s = true.
Proof.
  apply rtest_within; [|done]. unfold ROpt, RDigits, RPlus. within_tac;
    unfold cls_num; try (by rewrite H);
    apply orb_true_iff in H as [-> | ->]; by rewrite ?orb_true_r.
Qed.

Lemma numeric_truthy s : numeric s = true -> truthy s = true.
Proof. by destruct s. Qed.

Lemma cls_num_plain c :
  cls_num c = true ->
  is_space c = false /\ paren c = false /\ (c =? 32)%N = false /\ (c =? 63)%N = false.
Proof.
  unfold cls_num, is_digit. intros H.
  rewrite !orb_true_iff, andb_true_iff, !N.leb_le, !N.eqb_eq in H.
  unfold paren, is_space. rewrite !orb_false_iff, !andb_false_iff, !N.leb_gt, !N.eqb_neq.
  repeat split; lia.
Qed.

Lemma numeric_facts s :
  numeric s = true ->
  forallb cls_num s = true /\ truthy s = true /\ trimmed s = true /\ trim s = s
  /\ no_paren s = true /\ forallb (fun c => negb (c =? 32)%N) s = true
  /\ ~ In 63%N s.
Proof.
  intros Hn. pose proof (numeric_chars s Hn) as Hc.
  assert (forall q : N -> bool, (forall c, cls_num c = true -> q c = true) -> forallb q s = true) as Hq
    by (intros q Hpq; by apply (forallb_impl cls_num)).
  assert (trimmed s = true) as Ht.
  { apply trimmed_no_space, Hq. intros c Hcc. by destruct (cls_num_plain c Hcc) as (-> & _). }
  repeat split; auto.
  - by apply numeric_truthy.
  - by apply trim_id.
  - apply Hq. intros c Hcc. by destruct (cls_num_plain c Hcc) as (_ & -> & _).
  - apply Hq. intros c Hcc. by destruct (cls_num_plain c Hcc) as (_ & _ & -> & _).
  - intros Hin. rewrite forallb_forall in Hc. specialize (Hc _ Hin). done.
Qed.

(** ** Well-formed rules *)

(** Text that is quoted as it is and holds no parenthesis. *)
Definition name_char (c : jschar) : bool :=
  plain_char c && negb (paren c) && (c <? 65536)%N.

Definition wf_path (s : jsstr) : bool := truthy s && trimmed s && forallb name_char s.
Definition wf_zone (s : jsstr) : bool := truthy s && forallb name_char s.

Definition wf_time (t : TimeCondition) : bool :=
  existsb (str_eqb (tc_timeFunc t)) TIME_FUNCS && wf_zone (tc_timezone t)
  && (if str_eqb (tc_mode t) MATCH_RANGE
      then negb (truthy (tc_value t)) && numeric (tc_rangeStart t) && numeric (tc_rangeEnd t)
      else existsb (str_eqb (tc_mode t)) [MATCH_EQ; MATCH_GTE; MATCH_LT]
           && numeric (tc_value t)
           && negb (truthy (tc_rangeStart t)) && negb (truthy (tc_rangeEnd t))).

(** The literal of an equality stands at the top level of its condition: it
    may hold neither a parenthesis nor a separator. *)
Definition wf_literal (v : jsstr) : bool :=
  let lit := buildExprLiteral MATCH_EQ v in
  trimmed v && forallb (fun c => (c <? 65536)%N) v
  && forallb (fun c => negb (paren c) && negb (is_line_term c)) lit
  && negb (includes lit (js " && ")).

Definition wf_param_header (p : ParamHeaderCondition) : bool :=
  wf_path (ph_path p)
  && (if str_eqb (ph_mode p) MATCH_EXISTS then negb (truthy (ph_value p))
      else if str_eqb (ph_mode p) MATCH_CONTAINS then
        match ph_source p with
        | SrcHeader => trimmed (ph_value p) && forallb name_char (ph_value p)
        | SrcParam => false
        end
      else str_eqb (ph_mode p) MATCH_EQ && wf_literal (ph_value p)).

Definition is_range (c : RequestCondition) : bool :=
  match c with CTime t => str_eqb (tc_mode t) MATCH_RANGE | CParamHeader _ => false end.

Definition wf_condition (c : RequestCondition) : bool :=
  match c with CTime t => wf_time t | CParamHeader p => wf_param_header p end
  && (is_range c || negb (includes (buildRequestConditionExpr c) (js " || "))).

Definition wf_group (g : RequestRuleGroup) : bool :=
  numeric (rg_multiplier g)
  && match rg_conditions g with [] => false | cs => forallb wf_condition cs end.

(** ** Normal forms *)

Definition normal_form (c : RequestCondition) : bool :=
  match c with
  | CTime t =>
      isTimeFunc (Some (tc_timeFunc t)) && truthy (tc_timezone t)
      && has_option (getRequestRuleMatchOptions SOURCE_TIME) (Some (tc_mode t))
  | CParamHeader p =>
      has_option (getRequestRuleMatchOptions (source_name (ph_source p))) (Some (ph_mode p))
  end.

Lemma normalize_normal c :
  normal_form c = true -> normalizeCondition (Some (partial_of c)) = c.
Proof.
  destruct c as [[tf tz mode v rs re]|[src path mode v]]; cbn [normal_form].
  - rewrite !andb_true_iff. intros [[H1 H2] H3].
    unfold normalizeCondition. rewrite bool_decide_true by done. cbn in H1, H2, H3 |- *.
    rewrite H1, H3. unfold str_or. by rewrite H2.
  - intros H. destruct src; unfold normalizeCondition; cbv zeta;
      cbn [partial_of mbind option_bind pc_source pc_path pc_mode pc_value source_name ph_source
           ph_path ph_mode ph_value default from_option id] in *;
      change (bool_decide (Some SOURCE_HEADER = Some SOURCE_HEADER)) with true;
      rewrite ?bool_decide_false by done; cbn [source_name]; by rewrite H.
Qed.

Lemma normalize_is_normal x : normal_form (normalizeCondition x) = true.
Proof.
  unfold normalizeCondition. cbv zeta.
  destruct (bool_decide _); cbn [normal_form tc_timeFunc tc_timezone tc_mode ph_source ph_mode].
  - rewrite !andb_true_iff. repeat split.
    + destruct (isTimeFunc (x ≫= pc_timeFunc)) eqn:E; [|done].
      destruct (x ≫= pc_timeFunc); [|done]. exact E.
    + by destruct (default [] (x ≫= pc_timezone)).
    + destruct (has_option _ (x ≫= pc_mode)) eqn:E; [|done].
      destruct (x ≫= pc_mode); [|done]. exact E.
  - destruct (has_option _ (x ≫= pc_mode)) eqn:E.
    + destruct (x ≫= pc_mode); [|by destruct (bool_decide _)]. exact E.
    + by destruct (bool_decide _).
Qed.

Ltac mode_cases H :=
  cbn [existsb] in H;
  repeat match type of H with
  | _ || _ = true => apply orb_true_iff in H as [H|H]
  | str_eqb _ _ = true => apply str_eqb_eq in H
  | false = true => discriminate H
  end.

Lemma wf_time_normal t : wf_time t = true -> normal_form (CTime t) = true.
Proof.
  unfold wf_time. rewrite !andb_true_iff. intros [[Hf Hz] Hm].
  unfold wf_zone in Hz. apply andb_true_iff in Hz as [Hz _].
  cbn [normal_form]. rewrite Hz. unfold isTimeFunc. rewrite Hf. cbn [andb].
  destruct (str_eqb (tc_mode t) MATCH_RANGE) eqn:Er.
  - apply str_eqb_eq in Er. by rewrite Er.
  - rewrite !andb_true_iff in Hm. destruct Hm as [[[Hm _] _] _].
    mode_cases Hm; by rewrite Hm.
Qed.

Lemma wf_ph_normal p : wf_param_header p = true -> normal_form (CParamHeader p) = true.
Proof.
  unfold wf_param_header. rewrite andb_true_iff. intros [_ Hm].
  destruct p as [src path mode v]. cbn in Hm |- *.
  destruct (str_eqb mode MATCH_EXISTS) eqn:E1; [apply str_eqb_eq in E1 as ->; by destruct src|].
  destruct (str_eqb mode MATCH_CONTAINS) eqn:E2; [apply str_eqb_eq in E2 as ->; by destruct src|].
  apply andb_true_iff in Hm as [->%str_eqb_eq _]. by destruct src.
Qed.

(** ** The texts of well-formed conditions *)

Definition call_text (fn arg : jsstr) : jsstr := fn ++ js "(" ++ dq ++ arg ++ dq ++ js ")".

Definition range_text (tf tz s e : jsstr) : jsstr :=
  call_text tf tz ++ js " >= " ++ s ++ js " || " ++ call_text tf tz ++ js " < " ++ e.

Lemma name_chars_plain s : forallb name_char s = true -> forallb plain_char s = true.
Proof. apply forallb_impl. unfold name_char. by intros c [[-> _]%andb_true_iff _]%andb_true_iff. Qed.

Lemma name_chars_u16 s : forallb name_char s = true -> forallb (fun c => (c <? 65536)%N) s = true.
Proof. apply forallb_impl. unfold name_char. by intros c [_ ->]%andb_true_iff. Qed.

Lemma name_chars_not_quote s : forallb name_char s = true -> forallb (cls_not 34) s = true.
Proof.
  apply forallb_impl. unfold name_char, plain_char, cls_not. intros c H.
  by rewrite !andb_true_iff in H; destruct H as [[[[[[-> _] _] _] _] _] _].
Qed.

Lemma name_chars_no_paren s : forallb name_char s = true -> no_paren s = true.
Proof. apply forallb_impl. unfold name_char. by intros c [[_ ->]%andb_true_iff _]%andb_true_iff. Qed.

Lemma quote_call fn s :
  forallb name_char s = true -> fn ++ js "(" ++ quote s ++ js ")" = call_text fn s.
Proof.
  intros H. rewrite quote_plain by (by apply name_chars_plain).
  unfold call_text. by rewrite <- !app_assoc.
Qed.

#[export] Hint Resolve name_chars_not_quote : js_db.

(** [eval_re R] evaluates [rexec R] on a text given by its parts; the other
    expressions of the goal stay folded. *)
Ltac eval_re R :=
  unfold R; rewrite rexec_anchored;
  unfold TIME_RANGE_BODY, TIME_FUNC_ALT, RAlts, TIME_FUNCS, RNum, RQuoted1, range_text, call_text;
  cbn [source_name foldl]; unfold SOURCE_PARAM, SOURCE_HEADER; norm_js; repeat (progress (cbn [app]; rewrite <- ?app_assoc));
  repeat re_step.

Ltac eval_groups :=
  unfold range_condition, group;
  cbn [mr_caps ms_caps cap Nat.eqb default from_option id].

(** [no_prefix R] refutes an expression by the literal it starts with. *)
Ltac no_prefix R :=
  unfold R, range_text, call_text; apply rexec_lit_none;
  cbn [source_name]; unfold SOURCE_PARAM, SOURCE_HEADER; norm_js; strip_lit; reflexivity.

Lemma parse_range tf tz s e :
  In tf TIME_FUNCS -> truthy tz = true -> forallb name_char tz = true ->
  numeric s = true -> numeric e = true ->
  tryParseTimeCondition (range_text tf tz s e)
  = Some (CTime (mkTC tf tz MATCH_RANGE [] s e)).
Proof.
  intros Htf Hz Hzc Hs He.
  destruct (numeric_facts s Hs) as (Hs1 & Hs2 & _), (numeric_facts e He) as (He1 & He2 & _).
  unfold tryParseTimeCondition.
  destruct Htf as [<-|[<-|[<-|[<-|[<-|[]]]]]]; eval_re TIME_RANGE_REGEX; eval_groups; done.
Qed.

Lemma range_regex_paren s : rexec TIME_RANGE_REGEX (js "(" ++ s) = None.
Proof. by eval_re TIME_RANGE_REGEX. Qed.

Lemma parse_range_paren tf tz s e :
  In tf TIME_FUNCS -> truthy tz = true -> forallb name_char tz = true ->
  numeric s = true -> numeric e = true ->
  tryParseTimeCondition (js "(" ++ range_text tf tz s e ++ js ")")
  = Some (CTime (mkTC tf tz MATCH_RANGE [] s e)).
Proof.
  intros Htf Hz Hzc Hs He.
  destruct (numeric_facts s Hs) as (Hs1 & Hs2 & _), (numeric_facts e He) as (He1 & He2 & _).
  unfold tryParseTimeCondition. rewrite range_regex_paren.
  destruct Htf as [<-|[<-|[<-|[<-|[<-|[]]]]]]; eval_re TIME_RANGE_PAREN_REGEX; eval_groups; done.
Qed.

Definition time_ops : list (jsstr * jsstr) :=
  [(MATCH_EQ, js "=="); (MATCH_GTE, js ">="); (MATCH_LT, js "<")].

Definition cmp_text (tf tz op v : jsstr) : jsstr :=
  call_text tf tz ++ js " " ++ op ++ js " " ++ v.

Section TimeCmp.
Variables (tf tz mode op v : jsstr).
Hypotheses (Htf : In tf TIME_FUNCS) (Hz : truthy tz = true) (Hzc : forallb name_char tz = true)
  (Hop : In (mode, op) time_ops) (Hv : numeric v = true).

Lemma cmp_not_range : rexec TIME_RANGE_REGEX (cmp_text tf tz op v) = None.
Proof.
  destruct (numeric_facts v Hv) as (Hv1 & Hv2 & _). unfold cmp_text.
  destruct Hop as [[= <- <-]|[[= <- <-]|[[= <- <-]|[]]]];
    destruct Htf as [<-|[<-|[<-|[<-|[<-|[]]]]]]; by eval_re TIME_RANGE_REGEX.
Qed.

Lemma cmp_not_paren : rexec TIME_RANGE_PAREN_REGEX (cmp_text tf tz op v) = None.
Proof.
  unfold cmp_text. destruct Htf as [<-|[<-|[<-|[<-|[<-|[]]]]]]; no_prefix TIME_RANGE_PAREN_REGEX.
Qed.

Lemma parse_time_cmp :
  tryParseTimeCondition (cmp_text tf tz op v) = Some (CTime (mkTC tf tz mode v [] [])).
Proof.
  unfold tryParseTimeCondition. rewrite cmp_not_range, cmp_not_paren.
  destruct (numeric_facts v Hv) as (Hv1 & Hv2 & _). unfold cmp_text.
  destruct Hop as [[= <- <-]|[[= <- <-]|[[= <- <-]|[]]]];
    destruct Htf as [<-|[<-|[<-|[<-|[<-|[]]]]]]; eval_re TIME_CMP_REGEX; eval_groups; done.
Qed.
End TimeCmp.

(** A text that starts with no time function and no parenthesis is not a time
    condition. *)
Lemma time_none s :
  Forall (fun tf => strip_prefix tf s = None) TIME_FUNCS ->
  strip_prefix (js "(") s = None -> tryParseTimeCondition s = None.
Proof.
  intros Hf Hp. unfold tryParseTimeCondition.
  assert (forall r k, rmatch (RSeq (RGroup 1 TIME_FUNC_ALT) r) k (MS None s []) = None) as Hg.
  { intros r k. repeat (apply Forall_cons_iff in Hf as [? Hf]).
    unfold TIME_FUNC_ALT, RAlts, TIME_FUNCS in *. cbn [foldl] in *.
    rewrite rmatch_seq, !rmatch_group_alt, !rmatch_group_str.
    repeat match goal with H : strip_prefix _ s = None |- _ => rewrite H; clear H end. done. }
  unfold TIME_RANGE_REGEX, TIME_RANGE_PAREN_REGEX, TIME_CMP_REGEX.
  rewrite !rexec_anchored, Hg.
  assert (rmatch (RSeq TIME_RANGE_BODY REol) Some (MS None s []) = None) as ->.
  { unfold TIME_RANGE_BODY. rewrite rmatch_seq. apply Hg. }
  rewrite rmatch_seq, rmatch_str_none by done. done.
Qed.

Ltac not_time :=
  apply time_none;
  [ unfold TIME_FUNCS, call_text; cbn [source_name]; unfold SOURCE_PARAM, SOURCE_HEADER; norm_js; repeat constructor; strip_lit; reflexivity
  | unfold call_text; cbn [source_name]; unfold SOURCE_PARAM, SOURCE_HEADER;
    norm_js; strip_lit; reflexivity ].

Section ParamHeader.
Variables (path : jsstr).
Hypotheses (Hp : truthy path = true) (Hpc : forallb name_char path = true).

Lemma parse_header_exists :
  tryParseRequestCondition (call_text (js "header") path ++ js " != " ++ dq ++ dq)
  = Returns (Some (cond_of SrcHeader path MATCH_EXISTS [])).
Proof.
  unfold tryParseRequestCondition.
  assert (tryParseTimeCondition (call_text (js "header") path ++ js " != " ++ dq ++ dq) = None)
    as -> by not_time.
  eval_re HEADER_EXISTS_REGEX. eval_groups. done.
Qed.

Lemma parse_param_exists :
  tryParseRequestCondition (call_text (js "param") path ++ js " != nil")
  = Returns (Some (cond_of SrcParam path MATCH_EXISTS [])).
Proof.
  unfold tryParseRequestCondition.
  assert (tryParseTimeCondition (call_text (js "param") path ++ js " != nil") = None)
    as -> by not_time.
  assert (rexec HEADER_EXISTS_REGEX (call_text (js "param") path ++ js " != nil") = None)
    as -> by no_prefix HEADER_EXISTS_REGEX.
  eval_re PARAM_EXISTS_REGEX. eval_groups. done.
Qed.

(** The JSON string expression reads a quoted text without quotes and
    backslashes. *)
Lemma rmatch_json_string n v k prev t cs :
  forallb plain_char v = true ->
  rmatch (RJsonString n) k (MS prev (dq ++ v ++ dq ++ t) cs)
  = k (MS (prev_of (prev_of (prev_of prev dq) v) dq) t ((n, dq ++ v ++ dq) :: cs)).
Proof.
  intros Hv. unfold RJsonString. rewrite rmatch_group, rmatch_seq, rmatch_str, rmatch_seq.
  rewrite (rmatch_star_atom _ (fun c => negb (c =? 34)%N && negb (c =? 92)%N)).
  - rewrite rmatch_str. cbn [ms_rest ms_prev ms_caps]. do 3 f_equal.
    rewrite !app_assoc, take_prefix. done.
  - intros k' p c u Hc. rewrite rmatch_alt, rmatch_char, Hc.
    apply andb_true_iff in Hc as [_ Hc%negb_true_iff].
    rewrite rmatch_seq, rmatch_str_none; [by destruct (k' _)|].
    cbn [strip_prefix]. by rewrite N.eqb_sym, Hc.
  - done.
  - intros [p r cs'] c u Hr Hc. cbn in Hr. subst r. apply rmatch_str_none.
    apply andb_true_iff in Hc as [Hc%negb_true_iff _]. unfold dq. cbn [strip_prefix].
    by rewrite N.eqb_sym, Hc.
  - revert Hv. apply forallb_impl. intros c Hc. unfold plain_char in Hc.
    rewrite !andb_true_iff in Hc. by destruct Hc as [[[[-> ->] _] _] _].
Qed.

Lemma parse_header_contains v :
  forallb plain_char v = true -> forallb (fun c => (c <? 65536)%N) v = true ->
  tryParseRequestCondition
    (js "has(" ++ call_text (js "header") path ++ js ", " ++ (dq ++ v ++ dq) ++ js ")")
  = Returns (Some (cond_of SrcHeader path MATCH_CONTAINS v)).
Proof.
  intros Hv Hu. unfold tryParseRequestCondition.
  set (T := js "has(" ++ _).
  assert (tryParseTimeCondition T = None) as -> by not_time.
  assert (rexec HEADER_EXISTS_REGEX T = None) as -> by no_prefix HEADER_EXISTS_REGEX.
  assert (rexec PARAM_EXISTS_REGEX T = None) as -> by no_prefix PARAM_EXISTS_REGEX.
  subst T. eval_re HEADER_CONTAINS_REGEX.
  change (34%N :: v ++ 34%N :: [41%N]) with (dq ++ v ++ dq ++ [41%N]).
  rewrite rmatch_json_string by done. repeat re_step. eval_groups.
  unfold jsonString. rewrite <- quote_plain by done. rewrite parse_quote; [done|].
  apply forallb_forall_iff in Hu. eapply Forall_impl; [exact Hu|].
  intros c Hc. by apply N.ltb_lt.
Qed.

Lemma parse_eq src lit v :
  truthy lit = true -> forallb cls_dot lit = true -> parseExprLiteral lit = Some (JStr v) ->
  tryParseRequestCondition (call_text (source_name src) path ++ js " == " ++ lit)
  = Returns (Some (cond_of src path MATCH_EQ v)).
Proof.
  intros Hl Hlc Hlit. unfold tryParseRequestCondition.
  set (T := call_text (source_name src) path ++ js " == " ++ lit).
  assert (tryParseTimeCondition T = None) as -> by (subst T; destruct src; not_time).
  assert (rexec HEADER_EXISTS_REGEX T = None) as ->.
  { subst T. destruct src; [no_prefix HEADER_EXISTS_REGEX|by eval_re HEADER_EXISTS_REGEX]. }
  assert (rexec PARAM_EXISTS_REGEX T = None) as ->.
  { subst T. destruct src; [by eval_re PARAM_EXISTS_REGEX|no_prefix PARAM_EXISTS_REGEX]. }
  assert (rexec HEADER_CONTAINS_REGEX T = None) as ->.
  { subst T. destruct src; no_prefix HEADER_CONTAINS_REGEX. }
  unfold parseParamContainsCondition.
  assert (rexec PARAM_CONTAINS_REGEX T = None) as ->.
  { subst T. destruct src; [by eval_re PARAM_CONTAINS_REGEX|no_prefix PARAM_CONTAINS_REGEX]. }
  unfold parseParamCmpCondition.
  assert (rexec PARAM_CMP_REGEX T = None) as ->.
  { subst T. destruct src; [by eval_re PARAM_CMP_REGEX|no_prefix PARAM_CMP_REGEX]. }
  unfold parseEqCondition. subst T.
  destruct src; unfold source_name, SOURCE_PARAM, SOURCE_HEADER;
    eval_re EQ_REGEX; eval_groups; rewrite Hlit; done.
Qed.
End ParamHeader.

(** ** Literals *)

Lemma quote_shape v : exists b, quote v = 34%N :: b ++ [34%N].
Proof. exists (quote_body false v). done. Qed.

Lemma quote_not_numeric v : numeric (quote v) = false.
Proof.
  destruct (numeric (quote v)) eqn:E; [|done]. apply numeric_chars in E.
  destruct (quote_shape v) as [b Hb]. by rewrite Hb in E.
Qed.

Lemma literal_parsed v :
  trimmed v = true -> forallb (fun c => (c <? 65536)%N) v = true ->
  let lit := buildExprLiteral MATCH_EQ v in
  truthy lit = true /\ trimmed lit = true /\ parseExprLiteral lit = Some (JStr v).
Proof.
  intros Ht Hu. unfold buildExprLiteral, parseExprLiteral. rewrite trim_id by done.
  change (str_eqb MATCH_EQ MATCH_CONTAINS) with false. cbv zeta iota.
  destruct (str_eqb v (js "true") || str_eqb v (js "false")) eqn:Eb.
  - rewrite trim_id, Eb by done. split; [|done].
    apply orb_true_iff in Eb as [->%str_eqb_eq| ->%str_eqb_eq]; done.
  - fold (numeric v). destruct (numeric v) eqn:En.
    + rewrite trim_id, Eb by done. fold (numeric v). rewrite En.
      split; [by apply numeric_truthy|done].
    + destruct (quote_shape v) as [b Hq].
      assert (trimmed (quote v) = true) as Htq.
      { rewrite Hq. unfold trimmed. rewrite app_comm_cons, last_snoc. done. }
      rewrite (trim_id (quote v)) by done.
      assert (str_eqb (quote v) (js "true") || str_eqb (quote v) (js "false") = false) as ->.
      { rewrite Hq. apply orb_false_iff. split; by apply str_eqb_neq. }
      fold (numeric (quote v)). rewrite quote_not_numeric, parse_quote.
      * rewrite Hq at 1. done.
      * apply forallb_forall_iff in Hu. eapply Forall_impl; [exact Hu|].
        intros c Hc. by apply N.ltb_lt.
Qed.
