(* ===== verification/BillingRules.v ===== *)
(** * Request rules: the round trip of groups and expressions

    From the texts of conditions (BillingRoundTrip) and the splitting loop
    (BillingSplit) to the theorems about [buildRequestRuleExpr],
    [tryParseRequestRuleExpr], [combineBillingExpr] and
    [splitBillingExprAndRequestRules]. *)

From S2P Require Import Prelude JsStr JsRegex JsNum JsJson BillingExpr BillingSplit BillingRoundTrip.

(** ** Texts the conjunction splitter passes over *)

Definition not_amp (c : jschar) : bool := negb (c =? 38)%N.

Lemma quiet_no_amp d s tl :
  forallb not_amp s = true -> match tl with c :: _ => not_amp c = true | [] => True end ->
  quiet (js " && ") d s tl = true.
Proof.
  intros Hs Ht. revert d. induction s as [|c s IH]; intros d; [done|].
  cbn [forallb] in Hs. apply andb_true_iff in Hs as [Hc Hs]. cbn [quiet].
  rewrite (IH Hs), andb_true_r.
  assert (startsWith ((c :: s) ++ tl) (js " && ") = false) as ->; [|by rewrite andb_false_r].
  unfold startsWith. norm_js. cbn [app strip_prefix].
  destruct (32 =? c)%N; [|done].
  assert (forall r, match r with e :: _ => not_amp e = true | [] => True end ->
     match strip_prefix [38%N; 38%N; 32%N] r with Some _ => true | None => false end = false) as Hr.
  { intros [|e r] He; [done|]. cbn [strip_prefix]. unfold not_amp in He.
    apply negb_true_iff in He. by rewrite N.eqb_sym, He. }
  apply Hr. destruct s as [|e s]; [exact Ht|]. cbn in Hs |- *. by apply andb_true_iff in Hs as [? _].
Qed.

(** A text that holds no separator and ends with a code unit foreign to it. *)
Lemma quiet_absent sep x s d tl :
  includes (s ++ [x]) sep = false -> ~ In x sep -> quiet sep d (s ++ [x]) tl = true.
Proof.
  intros Hi Hx. revert d. induction s as [|c s IH]; intros d; cbn [app quiet].
  - rewrite andb_true_r. assert (startsWith (x :: tl) sep = false) as ->; [|by rewrite andb_false_r].
    destruct (startsWith _ _) eqn:E; [|done]. apply startsWith_true in E as [t E].
    destruct sep as [|e sep].
    + rewrite includes_false in Hi. by destruct (Hi [] ([x])).
    + injection E as -> _. destruct Hx. by left.
  - rewrite includes_false in Hi. rewrite IH.
    2:{ apply includes_false. intros a b Hab. apply (Hi (c :: a) b). cbn. by rewrite Hab. }
    assert (startsWith ((c :: s ++ [x]) ++ tl) sep = false) as E; [|cbn [app] in E; by rewrite E, andb_false_r].
    destruct (startsWith _ _) eqn:E; [|done]. apply startsWith_true in E as [t E].
    apply app_eq_app in E as [u [[E1 E2]|[E1 E2]]].
    + by destruct (Hi [] u).
    + exfalso. apply Hx. rewrite E1. apply in_or_app. left. cbn. right. apply in_or_app. right. by left.
Qed.

Lemma call_balanced fn arg :
  no_paren fn = true -> no_paren arg = true -> balanced (call_text fn arg) = true.
Proof.
  intros Hf Ha. unfold call_text. apply bal_app; [by rewrite bal_no_paren|].
  replace (js "(" ++ dq ++ arg ++ dq ++ js ")") with (40%N :: (dq ++ arg ++ dq) ++ [41%N])
    by (norm_js; cbn; by rewrite <- app_assoc).
  apply balanced_wrap. rewrite bal_no_paren; [done|]. unfold no_paren in *.
  rewrite !forallb_app. by rewrite Ha.
Qed.

Lemma call_quiet fn arg tl :
  forallb (fun c => negb (c =? 32)%N) fn = true -> no_paren fn = true -> no_paren arg = true ->
  quiet (js " && ") 0 (call_text fn arg) tl = true.
Proof.
  intros Hs Hf Ha. unfold call_text.
  replace (js "(" ++ dq ++ arg ++ dq ++ js ")") with (40%N :: (dq ++ arg ++ dq) ++ [41%N])
    by (norm_js; cbn; by rewrite <- app_assoc).
  rewrite quiet_app, depth_after_no_paren by done. norm_js.
  rewrite quiet_space by done. apply quiet_wrap.
  rewrite bal_no_paren; [done|]. unfold no_paren in *. rewrite !forallb_app. by rewrite Ha.
Qed.

Lemma piece_of_balanced s :
  truthy s = true -> trimmed s = true -> balanced s = true ->
  (forall tl, match tl with c :: _ => not_amp c = true | [] => True end ->
     quiet (js " && ") 0 s tl = true) ->
  piece_ok (js " && ") s.
Proof.
  intros Hne Ht Hb Hq. split; auto.
  - change 0%Z with (Z.of_nat 0 + 0)%Z. by apply bal_depth.
  - intros tl. by apply Hq.
Qed.

(** What the round trip needs of the text [e] of the condition [c]. *)
Record cond_text (c : RequestCondition) (e : jsstr) : Prop := {
  ct_piece : piece_ok (js " && ") e;
  ct_balanced : balanced e = true;
  ct_parse : tryParseRequestCondition e = Returns (Some c)
}.

Lemma last_trimmed c s d :
  is_space c = false -> is_space d = false -> trimmed (c :: s ++ [d]) = true.
Proof. intros Hc Hd. unfold trimmed. by rewrite app_comm_cons, last_snoc, Hc, Hd. Qed.

(** Only the two ends of a text matter to [trim]. *)
Lemma trimmed_mid a m b :
  truthy a = true -> truthy b = true -> trimmed a = true -> trimmed b = true ->
  trimmed (a ++ m ++ b) = true.
Proof.
  destruct a as [|c a], b as [|d b]; try done. intros _ _ Ha Hb.
  unfold trimmed in *. cbn [app]. rewrite app_comm_cons, app_assoc, last_app_cons.
  apply andb_true_iff in Ha as [-> _], Hb as [_ Hb]. done.
Qed.

Lemma truthy_app_l a b : truthy a = true -> truthy (a ++ b) = true.
Proof. by destruct a. Qed.

(** ** The text of each well-formed condition *)

Lemma existsb_str_In x l : existsb (str_eqb x) l = true <-> In x l.
Proof.
  rewrite existsb_exists. split.
  - by intros (y & Hy & ->%str_eqb_eq).
  - intros H. exists x. split; [done|apply str_eqb_refl].
Qed.

Lemma time_func_text tf :
  In tf TIME_FUNCS ->
  no_paren tf = true /\ forallb (fun c => negb (c =? 32)%N) tf = true /\ truthy tf = true
  /\ trimmed tf = true.
Proof. by intros [<-|[<-|[<-|[<-|[<-|[]]]]]]. Qed.

Lemma call_trimmed fn arg :
  truthy fn = true -> trimmed fn = true ->
  truthy (call_text fn arg) = true /\ trimmed (call_text fn arg) = true.
Proof.
  intros Hne Ht. unfold call_text. split; [by destruct fn|].
  replace (js "(" ++ dq ++ arg ++ dq ++ js ")") with ((js "(" ++ dq ++ arg ++ dq) ++ js ")")
    by (by rewrite <- !app_assoc).
  apply (trimmed_mid fn _ (js ")")); done.
Qed.

Lemma not_amp_num s : forallb cls_num s = true -> forallb not_amp s = true.
Proof.
  apply forallb_impl. intros c Hc. unfold not_amp. destruct (N.eqb_spec c 38) as [->|]; done.
Qed.

Lemma num_head s tl :
  forallb cls_num s = true -> truthy s = true ->
  match s ++ tl with c :: _ => not_amp c = true | [] => True end.
Proof.
  intros Hc Hs. apply not_amp_num in Hc. destruct s; [done|]. cbn in *.
  by apply andb_true_iff in Hc as [? _].
Qed.

(** A call followed by an operator and a number. *)
Lemma call_op_num fn arg op v tl :
  forallb (fun c => negb (c =? 32)%N) fn = true -> no_paren fn = true -> no_paren arg = true ->
  forallb not_amp op = true -> forallb cls_num v = true -> truthy v = true ->
  match tl with c :: _ => not_amp c = true | [] => True end ->
  quiet (js " && ") 0 (call_text fn arg ++ op ++ v) tl = true.
Proof.
  intros Hs Hf Ha Hop Hv Hvt Htl. rewrite quiet_app, call_quiet by done. cbn [andb].
  apply quiet_no_amp; [|done]. rewrite forallb_app, Hop. by apply not_amp_num.
Qed.

Lemma no_paren_num s : forallb cls_num s = true -> no_paren s = true.
Proof. apply forallb_impl. intros c Hc. by destruct (cls_num_plain c Hc) as (_ & -> & _). Qed.

(** The five time functions share one proof. *)
Section TimeText.
Variables (tf tz : jsstr).
Hypotheses (Htf : In tf TIME_FUNCS) (Hz : truthy tz = true) (Hzc : forallb name_char tz = true).

Lemma cmp_cond mode op v :
  In (mode, op) time_ops -> numeric v = true ->
  cond_text (CTime (mkTC tf tz mode v [] [])) (cmp_text tf tz op v).
Proof.
  intros Hop Hv.
  destruct (numeric_facts v Hv) as (Hv1 & Hv2 & Hv3 & _ & Hv5 & _).
  destruct (time_func_text tf Htf) as (Hf1 & Hf2 & Hf3 & Hf4).
  destruct (call_trimmed tf tz Hf3 Hf4) as [Hc1 Hc2].
  pose proof (name_chars_no_paren tz Hzc) as Hzp.
  assert (forallb not_amp (js " " ++ op ++ js " ") = true
          /\ no_paren (js " " ++ op ++ js " ") = true) as [Ho1 Ho2]
    by (by destruct Hop as [[= <- <-]|[[= <- <-]|[[= <- <-]|[]]]]).
  assert (cmp_text tf tz op v = call_text tf tz ++ (js " " ++ op ++ js " ") ++ v) as E
    by (unfold cmp_text; by rewrite <- !app_assoc).
  assert (balanced (cmp_text tf tz op v) = true) as Hb.
  { rewrite E. apply bal_app; [by apply call_balanced|].
    apply bal_no_paren. unfold no_paren in *. by rewrite forallb_app, Hv5, Ho2. }
  split; [|done|].
  - apply piece_of_balanced; [| |done|]; rewrite E.
    + by apply truthy_app_l.
    + by apply trimmed_mid.
    + intros tl Htl. by apply call_op_num.
  - unfold tryParseRequestCondition. by rewrite (parse_time_cmp tf tz mode).
Qed.

Lemma range_cond s e :
  numeric s = true -> numeric e = true ->
  balanced (range_text tf tz s e) = true
  /\ cond_text (CTime (mkTC tf tz MATCH_RANGE [] s e)) (range_text tf tz s e).
Proof.
  intros Hs He.
  destruct (numeric_facts s Hs) as (Hs1 & Hs2 & Hs3 & _ & Hs5 & _).
  destruct (numeric_facts e He) as (He1 & He2 & He3 & _ & He5 & _).
  destruct (time_func_text tf Htf) as (Hf1 & Hf2 & Hf3 & Hf4).
  destruct (call_trimmed tf tz Hf3 Hf4) as [Hc1 Hc2].
  pose proof (name_chars_no_paren tz Hzc) as Hzp.
  assert (forall r, range_text tf tz s e ++ r
    = (call_text tf tz ++ (js " >= " ++ s ++ js " || ")) ++ (call_text tf tz ++ js " < " ++ e) ++ r)
    as E by (intros r; unfold range_text; by rewrite <- !app_assoc).
  pose proof (E []) as E0. rewrite !app_nil_r in E0.
  assert (balanced (range_text tf tz s e) = true) as Hb.
  { rewrite E0. apply bal_app; apply bal_app; try (by apply call_balanced);
      unfold balanced; rewrite bal_no_paren; try done; unfold no_paren in *;
      rewrite ?forallb_app, ?Hs5, ?He5; done. }
  split; [done|]. split; [|done|].
  - apply piece_of_balanced; [| |done|].
    + rewrite E0. by apply truthy_app_l, truthy_app_l.
    + rewrite E0, <- app_assoc.
      rewrite (app_assoc (_ ++ _ ++ _) (call_text tf tz)), (app_assoc _ (js " < ")).
      by apply trimmed_mid.
    + intros tl Htl. rewrite E0, quiet_app.
      assert (depth_after 0 (call_text tf tz ++ js " >= " ++ s ++ js " || ") = 0%Z) as ->.
      { change 0%Z with (Z.of_nat 0 + 0)%Z at 1. apply bal_depth.
        apply bal_app; [by apply call_balanced|].
        apply bal_no_paren; unfold no_paren in *; rewrite !forallb_app, ?Hs5; done. }
      rewrite (call_op_num tf tz (js " < ")) by done. rewrite andb_true_r.
      rewrite quiet_app, call_quiet by done. cbn [andb]. apply quiet_no_amp.
      * rewrite !forallb_app, (not_amp_num s) by done. done.
      * unfold call_text. by destruct Htf as [<-|[<-|[<-|[<-|[<-|[]]]]]].
  - unfold tryParseRequestCondition. by rewrite parse_range.
Qed.

Lemma range_paren_cond s e :
  numeric s = true -> numeric e = true ->
  cond_text (CTime (mkTC tf tz MATCH_RANGE [] s e)) (js "(" ++ range_text tf tz s e ++ js ")").
Proof.
  intros Hs He. destruct (range_cond s e Hs He) as [Hb _]. split.
  - norm_js. by apply piece_wrap.
  - by apply balanced_wrap.
  - unfold tryParseRequestCondition. by rewrite parse_range_paren.
Qed.

Lemma range_has_or s e : includes (range_text tf tz s e) (js " || ") = true.
Proof.
  apply includes_true. unfold range_text.
  exists (call_text tf tz ++ js " >= " ++ s), (call_text tf tz ++ js " < " ++ e).
  by rewrite <- !app_assoc.
Qed.
End TimeText.

(** ** The conditions on parameters and headers *)

Definition src_fn (s : PHSource) : jsstr :=
  match s with SrcParam => js "param" | SrcHeader => js "header" end.

Lemma src_fn_text src :
  no_paren (src_fn src) = true /\ forallb (fun c => negb (c =? 32)%N) (src_fn src) = true
  /\ truthy (src_fn src) = true /\ trimmed (src_fn src) = true.
Proof. by destruct src. Qed.

(** A call followed by a text [m ++ b] at the top level. *)
Lemma call_tail_piece fn arg m b :
  no_paren fn = true -> forallb (fun c => negb (c =? 32)%N) fn = true ->
  truthy fn = true -> trimmed fn = true -> no_paren arg = true ->
  no_paren m = true -> no_paren b = true -> truthy b = true -> trimmed b = true ->
  (forall tl, match tl with c :: _ => not_amp c = true | [] => True end ->
     quiet (js " && ") 0 (m ++ b) tl = true) ->
  piece_ok (js " && ") (call_text fn arg ++ m ++ b)
  /\ balanced (call_text fn arg ++ m ++ b) = true.
Proof.
  intros Hf1 Hf2 Hf3 Hf4 Ha Hm Hb Hbt Hbtr Hq.
  destruct (call_trimmed fn arg Hf3 Hf4) as [Hc1 Hc2].
  assert (balanced (call_text fn arg ++ m ++ b) = true) as Hbal.
  { apply bal_app; [by apply call_balanced|]. unfold balanced. rewrite bal_no_paren; [done|].
    unfold no_paren in *. by rewrite forallb_app, Hm. }
  split; [|done]. apply piece_of_balanced; [by apply truthy_app_l|by apply trimmed_mid|done|].
  intros tl Htl. rewrite quiet_app, call_quiet by done. cbn [andb].
  assert (depth_after 0 (call_text fn arg) = 0%Z) as ->; [|by apply Hq].
  change 0%Z with (Z.of_nat 0 + 0)%Z at 1. by apply bal_depth, call_balanced.
Qed.

(** The text of a [has] call on a request value. *)
Lemma has_piece fn path v :
  no_paren fn = true -> no_paren path = true -> no_paren v = true ->
  let e := js "has(" ++ call_text fn path ++ js ", " ++ (dq ++ v ++ dq) ++ js ")" in
  piece_ok (js " && ") e /\ balanced e = true.
Proof.
  intros Hf Hp Hv e.
  set (X := call_text fn path ++ js ", " ++ (dq ++ v ++ dq)).
  assert (balanced X = true) as HX.
  { apply bal_app; [by apply call_balanced|].
    unfold balanced. rewrite bal_no_paren; [done|].
    unfold no_paren in *. by rewrite !forallb_app, Hv. }
  assert (e = js "has" ++ (40%N :: X ++ [41%N])) as ->
    by (subst X e; unfold call_text; norm_js; cbn [app]; repeat (rewrite <- ?app_assoc; cbn [app]); done).
  pose proof (balanced_wrap X HX) as Hw.
  assert (balanced (js "has" ++ 40%N :: X ++ [41%N]) = true) as Hb by exact Hw.
  split; [|done]. apply piece_of_balanced; [done| |done|].
  - rewrite app_comm_cons. by apply trimmed_mid.
  - intros tl Htl. rewrite quiet_app. change (depth_after 0 (js "has")) with 0%Z.
    norm_js. rewrite quiet_space, quiet_wrap; done.
Qed.

Section PHText.
Variables (path : jsstr).
Hypotheses (Hp : truthy path = true) (Hpc : forallb name_char path = true).

Lemma header_exists_cond :
  cond_text (cond_of SrcHeader path MATCH_EXISTS [])
    (call_text (js "header") path ++ js " != " ++ dq ++ dq).
Proof.
  destruct (call_tail_piece (js "header") path (js " != ") (dq ++ dq)) as [H1 H2];
    try done; [by apply name_chars_no_paren|].
  split; [done|done|by apply parse_header_exists].
Qed.

Lemma param_exists_cond :
  cond_text (cond_of SrcParam path MATCH_EXISTS []) (call_text (js "param") path ++ js " != nil").
Proof.
  destruct (call_tail_piece (js "param") path (js " != ") (js "nil")) as [H1 H2];
    try done; [by apply name_chars_no_paren|].
  split; [done|done|by apply parse_param_exists].
Qed.

Lemma header_contains_cond v :
  forallb name_char v = true ->
  cond_text (cond_of SrcHeader path MATCH_CONTAINS v)
    (js "has(" ++ call_text (js "header") path ++ js ", " ++ (dq ++ v ++ dq) ++ js ")").
Proof.
  intros Hv. destruct (has_piece (js "header") path v) as [H1 H2];
    try done; try by apply name_chars_no_paren.
  split; [done|done|]. apply parse_header_contains; try done;
    [by apply name_chars_plain|by apply name_chars_u16].
Qed.

Lemma eq_cond src v :
  wf_literal v = true ->
  cond_text (cond_of src path MATCH_EQ v)
    (call_text (source_name src) path ++ js " == " ++ buildExprLiteral MATCH_EQ v).
Proof.
  unfold wf_literal. rewrite !andb_true_iff. intros [[[Ht Hu] Hch] Hamp%negb_true_iff].
  destruct (literal_parsed v Ht Hu) as (Hl1 & Hl2 & Hl3).
  assert (forallb cls_dot (buildExprLiteral MATCH_EQ v) = true
          /\ no_paren (buildExprLiteral MATCH_EQ v) = true) as [Hd Hnp].
  { split; revert Hch; apply forallb_impl; intros c; by intros [? ?]%andb_true_iff. }
  destruct (call_tail_piece (source_name src) path (js " == ") (buildExprLiteral MATCH_EQ v))
    as [H1 H2]; try done; try (by destruct src); [by apply name_chars_no_paren| |].
  - intros tl Htl. rewrite quiet_app. change (depth_after 0 (js " == ")) with 0%Z.
    apply andb_true_iff. revert Hamp. unfold buildExprLiteral.
    change (str_eqb MATCH_EQ MATCH_CONTAINS) with false. cbv zeta iota. rewrite trim_id by done.
    destruct (str_eqb v (js "true") || str_eqb v (js "false")) eqn:Eb;
      [|fold (numeric v); destruct (numeric v) eqn:En].
    + intros _. apply orb_true_iff in Eb as [->%str_eqb_eq| ->%str_eqb_eq];
        split; by apply quiet_no_amp.
    + intros _. destruct (numeric_facts v En) as (Hn1 & Hn2 & _).
      split; apply quiet_no_amp; try done; [by apply num_head|by apply not_amp_num].
    + destruct (quote_shape v) as [b ->]. intros Hamp. split; [by apply quiet_no_amp|].
      rewrite app_comm_cons. apply quiet_absent; [done|]. norm_js. cbn. intuition discriminate.
  - split; [done|done|by apply parse_eq].
Qed.
End PHText.

(** ** Factors *)

Lemma numeric_suffix_no_question m : numeric m = true -> ~ In 63%N (js " " ++ m ++ js " : 1)").
Proof.
  intros Hm. destruct (numeric_facts m Hm) as (_ & _ & _ & _ & _ & _ & Hq).
  rewrite !in_app_iff. norm_js. cbn. intuition discriminate.
Qed.

(** The condition of a factor ends at the last question mark. *)
Lemma factor_regex x m :
  truthy x = true -> numeric m = true ->
  exists mr, rexec FACTOR_REGEX (js "(" ++ x ++ js " ? " ++ m ++ js " : 1)") = Some mr
    /\ group mr 1 = Some x /\ group mr 2 = Some m.
Proof.
  intros Hx Hm. destruct x as [|c u]; [done|].
  destruct (numeric_facts m Hm) as (Hm1 & Hm2 & _).
  pose proof (numeric_suffix_no_question m Hm) as Hq.
  unfold FACTOR_REGEX, RNum. rewrite rexec_anchored, rmatch_seq, rmatch_str, rmatch_seq, rmatch_group.
  unfold RPlus at 1. rewrite rmatch_seq. cbn [app]. rewrite rmatch_char.
  change (cls_any c) with true. cbn iota. rewrite rmatch_star_char.
  erewrite star_run_longest.
  2:{ clear. induction u; [done|]. exact IHu. }
  2:{ intros w1 w2 d Hv _. rewrite rmatch_seq, rmatch_str_gen. cbn [ms_rest].
      assert (strip_prefix (js " ? ") w2 = None) as ->; [|done].
      norm_js_in Hv. cbn [app] in Hv. injection Hv as <- Hv.
      destruct w1 as [|e w1]; cbn [app] in Hv.
      - subst w2. norm_js. reflexivity.
      - injection Hv as <- Hv. apply (strip_prefix_absent _ _ 63); [norm_js; cbn; tauto|].
        intros Hin. apply Hq. norm_js. cbn [app]. rewrite Hv. apply in_or_app. by right. }
  2:{ cbn [ms_rest ms_prev ms_caps]. repeat re_step. norm_js. repeat re_step.
      rewrite app_comm_cons, take_prefix. reflexivity. }
  eexists. split; [reflexivity|]. split; reflexivity.
Qed.

(** ** The text the editor builds for a well-formed condition *)

Lemma wf_path_facts s :
  wf_path s = true -> truthy s = true /\ trim s = s /\ forallb name_char s = true.
Proof.
  unfold wf_path. rewrite !andb_true_iff. intros [[? ?] ?]. repeat split; auto. by apply trim_id.
Qed.

Lemma time_condition_text t :
  wf_time t = true ->
  cond_text (CTime t) (buildRequestConditionExpr (CTime t))
  /\ (is_range (CTime t) = true ->
      cond_text (CTime t) (js "(" ++ buildRequestConditionExpr (CTime t) ++ js ")")
      /\ includes (buildRequestConditionExpr (CTime t)) (js " || ") = true).
Proof.
  intros Hw. cbn [buildRequestConditionExpr is_range]. unfold buildTimeConditionExpr.
  rewrite normalize_normal by (by apply wf_time_normal).
  destruct t as [tf tz mode v rs re]. unfold wf_time, wf_zone, buildTimeExpr in *.
  cbn [tc_timeFunc tc_timezone tc_mode tc_value tc_rangeStart tc_rangeEnd] in *.
  rewrite !andb_true_iff in Hw. destruct Hw as [[Hf%existsb_str_In [Hz Hzc]] Hm].
  rewrite quote_call by done.
  destruct (str_eqb mode MATCH_RANGE) eqn:Er.
  - rewrite !andb_true_iff in Hm. destruct Hm as [[Hv Hs] He].
    apply str_eqb_eq in Er as ->. destruct v; [|done].
    destruct (numeric_facts rs Hs) as (_ & _ & _ & -> & _), (numeric_facts re He) as (_ & _ & _ & -> & _).
    fold (numeric rs) (numeric re). rewrite Hs, He. cbn [negb orb].
    change (call_text tf tz ++ _) with (range_text tf tz rs re).
    split; [by apply range_cond|]. intros _. split; [by apply range_paren_cond|by apply range_has_or].
  - rewrite !andb_true_iff in Hm. destruct Hm as [[[Hm Hv] Hs] He].
    destruct rs, re; try done. split; [|done].
    destruct (numeric_facts v Hv) as (_ & _ & _ & -> & _).
    fold (numeric v). rewrite Hv. cbn [negb].
    assert (exists op, In (mode, op) time_ops /\
      assoc mode [(MATCH_EQ, js "=="); (MATCH_GTE, js ">="); (MATCH_LT, js "<")] = Some op)
      as (op & Hin & ->).
    { cbn in Hm. rewrite !orb_true_iff in Hm.
      destruct Hm as [->%str_eqb_eq|[->%str_eqb_eq|[->%str_eqb_eq|]]]; [| | |done];
        eexists; (split; [|reflexivity]); cbn; tauto. }
    by apply (cmp_cond tf tz Hf Hz Hzc mode op v).
Qed.

Lemma param_header_text p :
  wf_param_header p = true ->
  cond_text (CParamHeader p) (buildRequestConditionExpr (CParamHeader p)).
Proof.
  intros Hw. cbn [buildRequestConditionExpr].
  rewrite normalize_normal by (by apply wf_ph_normal).
  destruct p as [src path mode v]. unfold wf_param_header, buildParamHeaderExpr in *.
  cbn [ph_path ph_source ph_mode ph_value] in *.
  apply andb_true_iff in Hw as [(Hp & -> & Hpc)%wf_path_facts Hm]. rewrite Hp. cbn [negb].
  assert (forall fn, (fn ++ js "(") ++ quote path ++ js ")" = call_text fn path) as Hq
    by (intros fn; rewrite <- app_assoc; by apply quote_call).
  change (js "header(") with (js "header" ++ js "(").
  change (js "param(") with (js "param" ++ js "("). rewrite !Hq.
  destruct (str_eqb mode MATCH_EXISTS) eqn:E1; [|destruct (str_eqb mode MATCH_CONTAINS) eqn:E2].
  - apply str_eqb_eq in E1 as ->. destruct v; [|done]. cbv zeta iota.
    destruct src; [by apply param_exists_cond|by apply header_exists_cond].
  - apply str_eqb_eq in E2 as ->. destruct src; [done|]. cbv zeta iota.
    apply andb_true_iff in Hm as [Ht Hv].
    unfold buildExprLiteral. change (str_eqb MATCH_CONTAINS MATCH_CONTAINS) with true. cbv iota zeta.
    rewrite trim_id, quote_plain by (done || by apply name_chars_plain).
    by apply header_contains_cond.
  - apply andb_true_iff in Hm as [->%str_eqb_eq Hl].
    match goal with |- context [assoc MATCH_EQ ?l] => change (assoc MATCH_EQ l) with (@None jsstr) end.
    cbv zeta iota. destruct src; by apply eq_cond.
Qed.

Definition joined_text (c : RequestCondition) : jsstr :=
  let e := buildRequestConditionExpr c in
  if includes e (js " || ") then js "(" ++ e ++ js ")" else e.

Lemma wf_condition_text c :
  wf_condition c = true ->
  cond_text c (buildRequestConditionExpr c) /\ cond_text c (joined_text c).
Proof.
  unfold wf_condition, joined_text. rewrite andb_true_iff. intros [Hw Hor].
  destruct c as [t|p].
  - destruct (time_condition_text t Hw) as [H1 H2]. split; [done|].
    destruct (is_range (CTime t)) eqn:Er.
    + destruct (H2 eq_refl) as [H3 ->]. done.
    + apply negb_true_iff in Hor. by rewrite Hor.
  - split; [by apply param_header_text|].
    cbn [is_range orb] in Hor. apply negb_true_iff in Hor. rewrite Hor. by apply param_header_text.
Qed.

(** ** Groups *)

Definition combined_text (cs : list RequestCondition) : jsstr :=
  match cs with
  | [c] => buildRequestConditionExpr c
  | _ => join (js " && ") (map joined_text cs)
  end.

Definition combined_pieces (cs : list RequestCondition) : list jsstr :=
  match cs with
  | [c] => [buildRequestConditionExpr c]
  | _ => map joined_text cs
  end.

Lemma combined_join cs : combined_text cs = join (js " && ") (combined_pieces cs).
Proof. destruct cs as [|c [|d cs]]; done. Qed.

Lemma combined_cond cs :
  forallb wf_condition cs = true ->
  Forall2 cond_text cs (combined_pieces cs).
Proof.
  intros Hw. assert (Forall2 cond_text cs (map joined_text cs)) as Hj.
  { induction cs as [|c cs IH]; [constructor|]. cbn in Hw. apply andb_true_iff in Hw as [Hc Hw].
    constructor; [by apply wf_condition_text|by apply IH]. }
  destruct cs as [|c [|d cs]]; try done. constructor; [|constructor].
  cbn in Hw. rewrite andb_true_r in Hw. by apply wf_condition_text.
Qed.

Lemma pieces_of_conds cs es :
  Forall2 cond_text cs es ->
  Forall (piece_ok (js " && ")) es /\ Forall (fun e => balanced e = true) es.
Proof. induction 1 as [|c e cs es Hc _ [IH1 IH2]]; split; constructor; auto; apply Hc. Qed.

Lemma join_balanced sep ps :
  balanced sep = true -> Forall (fun e => balanced e = true) ps -> balanced (join sep ps) = true.
Proof.
  intros Hs. induction 1 as [|p ps Hp Hps IH]; [done|].
  destruct ps as [|q ps]; [done|]. rewrite join_cons by done.
  apply bal_app; [done|]. by apply bal_app.
Qed.

Lemma parse_conds cs es :
  Forall2 cond_text cs es ->
  otraverse (fun ap => tryParseRequestCondition (trim ap)) es = Returns (Some cs).
Proof.
  induction 1 as [|c e cs es Hc _ IH]; [done|]. cbn [otraverse].
  rewrite trim_id by apply Hc. rewrite (ct_parse _ _ Hc). cbn [obind]. by rewrite IH.
Qed.

Lemma group_factor g :
  wf_group g = true ->
  buildRuleGroupFactor g
  = js "(" ++ combined_text (rg_conditions g) ++ js " ? " ++ rg_multiplier g ++ js " : 1)".
Proof.
  unfold wf_group. rewrite andb_true_iff. intros [Hm Hc].
  assert (forallb wf_condition (rg_conditions g) = true) as Hw by (by destruct (rg_conditions g)).
  unfold buildRuleGroupFactor. destruct (numeric_facts _ Hm) as (_ & _ & _ & -> & _).
  fold (numeric (rg_multiplier g)). rewrite Hm. cbn [negb].
  rewrite filter_all.
  2:{ clear Hm Hc. induction (rg_conditions g) as [|c cs IH]; [done|]. cbn in Hw |- *.
      apply andb_true_iff in Hw as [[H _]%wf_condition_text Hw]. rewrite IH by done.
      by rewrite (pok_ne _ _ (ct_piece _ _ H)). }
  destruct (rg_conditions g) as [|c [|d cs]]; [done|done|].
  cbn [map combined_text]. rewrite map_map. done.
Qed.

(** What the rest of the development uses of a factor. *)
Record factor_text (g : RequestRuleGroup) (e : jsstr) : Prop := {
  ft_piece : piece_ok (js " * ") e;
  ft_parse : tryParseRuleGroupFactor e = Returns (Some g)
}.

Lemma group_factor_text g : wf_group g = true -> factor_text g (buildRuleGroupFactor g).
Proof.
  intros Hg. rewrite group_factor by done. unfold wf_group in Hg. apply andb_true_iff in Hg as [Hm Hc].
  assert (rg_conditions g <> [] /\ forallb wf_condition (rg_conditions g) = true) as [Hne Hw]
    by (by destruct (rg_conditions g)).
  pose proof (combined_cond _ Hw) as Hcond. destruct (pieces_of_conds _ _ Hcond) as [Hps Hbs].
  assert (combined_pieces (rg_conditions g) <> []) as Hpne
    by (by destruct (rg_conditions g) as [|? [|? ?]]).
  pose proof (join_balanced (js " && ") _ eq_refl Hbs) as Hbal.
  rewrite combined_join. set (x := join _ _) in *.
  destruct (numeric_facts _ Hm) as (_ & _ & _ & _ & Hmp & _).
  assert (truthy x = true) as Hx.
  { subst x. destruct (combined_pieces _) as [|p ps]; [done|].
    apply Forall_cons_iff in Hps as [Hp _]. destruct ps as [|q ps]; [apply Hp|].
    rewrite join_cons by done. apply truthy_app_l, Hp. }
  split.
  - assert (balanced (x ++ js " ? " ++ rg_multiplier g ++ js " : 1") = true) as Hb.
    { apply bal_app; [done|]. unfold balanced. rewrite bal_no_paren; [done|].
      unfold no_paren in *. by rewrite !forallb_app, Hmp. }
    apply (piece_wrap (js "* ")) in Hb. norm_js. norm_js_in Hb. cbn [app].
    rewrite <- !app_assoc in Hb. exact Hb.
  - unfold tryParseRuleGroupFactor. destruct (factor_regex x _ Hx Hm) as (mr & -> & -> & ->).
    cbn [default from_option id]. subst x. rewrite splitAnd_join by done.
    rewrite (parse_conds _ _ Hcond). cbn [obind]. by destruct g as [[|c cs] m].
Qed.

Lemma groups_factor_text gs :
  forallb wf_group gs = true -> Forall2 factor_text gs (map buildRuleGroupFactor gs).
Proof.
  induction gs as [|g gs IH]; [constructor|]. cbn [forallb map]. rewrite andb_true_iff.
  intros [Hg Hgs]. constructor; [by apply group_factor_text|by apply IH].
Qed.

Lemma factors_pieces gs es : Forall2 factor_text gs es -> Forall (piece_ok (js " * ")) es.
Proof. induction 1 as [|g e gs es Hg _ IH]; constructor; [apply Hg|done]. Qed.

Lemma parse_factors gs es :
  Forall2 factor_text gs es -> otraverse tryParseRuleGroupFactor es = Returns (Some gs).
Proof.
  induction 1 as [|g e gs es Hg _ IH]; [done|]. cbn [otraverse].
  rewrite (ft_parse _ _ Hg). cbn [obind]. by rewrite IH.
Qed.

Lemma rule_expr_join gs :
  forallb wf_group gs = true ->
  buildRequestRuleExpr gs = join (js " * ") (map buildRuleGroupFactor gs).
Proof.
  intros Hw. unfold buildRequestRuleExpr. f_equal. eapply pieces_truthy, factors_pieces.
  by apply groups_factor_text.
Qed.
