(* ===== verification/BillingProps.v ===== *)
(** * Billing expressions: the properties

    The theorems about src/web/default/src/features/pricing/lib/billing-expr.ts,
    with their witnesses. The lemmas that carry them are in BillingSplit,
    BillingRoundTrip and BillingRules. *)

From S2P Require Import Prelude JsStr JsRegex JsNum JsJson BillingExpr BillingSplit BillingRoundTrip BillingRules.

(** ** Rules *)

Lemma join_trimmed sep p ps :
  Forall (piece_ok sep) (p :: ps) -> trimmed (join sep (p :: ps)) = true
  /\ truthy (join sep (p :: ps)) = true.
Proof.
  revert p. induction ps as [|q ps IH]; intros p [Hp Hps]%Forall_cons_iff.
  - split; apply Hp.
  - destruct (IH q Hps) as [IH1 IH2]. rewrite join_cons by done.
    split; [apply trimmed_mid; try done; apply Hp|apply truthy_app_l, Hp].
Qed.

Lemma parse_rule_pieces gs es :
  Forall2 factor_text gs es -> es <> [] ->
  tryParseRequestRuleExpr (join (js " * ") es) = Returns (Some gs).
Proof.
  intros Hf Hne. pose proof (factors_pieces gs es Hf) as Hps.
  destruct es as [|e es]; [done|]. destruct (join_trimmed _ e es Hps) as [H1 H2].
  unfold tryParseRequestRuleExpr. rewrite trim_id, H2 by done. cbn [negb].
  rewrite splitMultiply_join by done. by apply parse_factors.
Qed.

Lemma rules_reread gs :
  forallb wf_group gs = true ->
  tryParseRequestRuleExpr (buildRequestRuleExpr gs) = Returns (Some gs).
Proof.
  intros Hw. destruct gs as [|g gs]; [done|]. rewrite rule_expr_join by done.
  apply parse_rule_pieces; [by apply groups_factor_text|done].
Qed.

(** C1: parsing the expression the editor builds from well-formed rule groups
    gives the same groups back, whatever their number, conditions and order. *)
Theorem rule_round_trip gs :
  forallb wf_group gs = true ->
  tryParseRequestRuleExpr (buildRequestRuleExpr gs) = Returns (Some gs).
Proof. apply rules_reread. Qed.

Definition sample_groups : list RequestRuleGroup :=
  [mkRRG [CTime (mkTC (js "hour") (js "Asia/Shanghai") MATCH_RANGE [] (js "22") (js "6"));
          CParamHeader (mkPH SrcHeader (js "x-tier") MATCH_CONTAINS (js "gold plus"))] (js "0.5");
   mkRRG [CParamHeader (mkPH SrcParam (js "service_tier") MATCH_EQ (js "fast & cheap"))] (js "2")].

Lemma rule_round_trip_witness :
  forallb wf_group sample_groups = true
  /\ tryParseRequestRuleExpr (buildRequestRuleExpr sample_groups) = Returns (Some sample_groups).
Proof. split; [vm_compute; reflexivity|apply (rule_round_trip sample_groups); vm_compute; reflexivity]. Defined.

(** ** Combining and splitting *)

Lemma unwrap_fuel n m s : length s < n -> length s < m -> unwrap_go n s = unwrap_go m s.
Proof.
  revert m s. induction n as [|n IH]; intros [|m] s Hn Hm; try lia. cbn.
  destruct (hasFullOuterParens s) eqn:E; [|done].
  pose proof (unwrap_step_shorter s E). apply IH; lia.
Qed.

Lemma unwrap_wrap b :
  balanced b = true -> trimmed b = true -> unwrapOuterParens (40%N :: b ++ [41%N]) = unwrapOuterParens b.
Proof.
  intros Hb Ht. unfold unwrapOuterParens. rewrite !trim_id; [|done|by apply last_trimmed].
  cbn [unwrap_go]. rewrite hasFullOuterParens_wrap, sliceInner_wrap, trim_id by done.
  apply (unwrap_fuel _ (S (length b))); cbn; rewrite ?length_app; lia.
Qed.

Lemma partition_rules gs es :
  Forall2 factor_text gs es -> partition_parts es = Returns (es, []).
Proof.
  induction 1 as [|g e gs es Hg _ IH]; [done|]. cbn [partition_parts].
  assert (tryParseRequestRuleExpr e = Returns (Some [g])) as ->
    by (apply (parse_rule_pieces [g] [e]); [by constructor|done]).
  cbn [obind]. by rewrite IH.
Qed.

(** The split of a combined expression. *)
Lemma combine_split_parts base gs :
  truthy (trim base) = true -> balanced (trim base) = true ->
  tryParseRuleGroupFactor (js "(" ++ trim base ++ js ")") = Returns None ->
  gs <> [] -> forallb wf_group gs = true ->
  splitBillingExprAndRequestRules (combineBillingExpr base (buildRequestRuleExpr gs))
  = Returns (unwrapOuterParens base, buildRequestRuleExpr gs).
Proof.
  intros Hne Hb Hrule Hgs Hw. pose proof (groups_factor_text gs Hw) as Hf.
  pose proof (factors_pieces _ _ Hf) as Hps.
  rewrite rule_expr_join by done. revert Hf Hps.
  generalize (map buildRuleGroupFactor gs). intros [|e es] Hf Hps; [by inversion Hf; subst|].
  destruct (join_trimmed _ e es Hps) as [Ht1 Ht2].
  unfold combineBillingExpr. rewrite (trim_id (join _ _)), Hne, Ht2 by done. cbn [negb].
  set (b := js "(" ++ trim base ++ js ")") in *.
  assert (piece_ok (js " * ") b) as Hbp by (subst b; norm_js; by apply piece_wrap).
  replace (js "(" ++ trim base ++ js ") * " ++ join (js " * ") (e :: es))
    with (join (js " * ") (b :: e :: es)).
  2:{ rewrite join_cons by done. subst b. rewrite <- !app_assoc. do 2 f_equal. }
  assert (Forall (piece_ok (js " * ")) (b :: e :: es)) as Hall by (by constructor).
  destruct (join_trimmed _ _ _ Hall) as [Ha1 Ha2].
  unfold splitBillingExprAndRequestRules. rewrite trim_id, Ha2 by done. cbn [negb].
  rewrite splitMultiply_join by done. cbn [length Nat.leb partition_parts].
  assert (tryParseRequestRuleExpr b = Returns None) as ->.
  { unfold tryParseRequestRuleExpr. rewrite trim_id by apply Hbp. rewrite (pok_ne _ _ Hbp). cbn [negb].
    replace (splitTopLevelMultiply b) with [b]; [cbn; by rewrite Hrule|].
    symmetry. apply (splitMultiply_join [b]); [done|]. constructor; [done|constructor]. }
  cbn [obind]. pose proof (partition_rules _ _ Hf) as Hp.
  cbn [partition_parts] in Hp. rewrite Hp. cbn [obind fst snd].
  f_equal. f_equal. subst b. norm_js. cbn [app].
  rewrite unwrap_wrap by (done || apply trim_trimmed).
  unfold unwrapOuterParens. by rewrite trim_idemp.
Qed.

(** C2: splitting the expression combined from a base and a rule expression
    returns both, the base without its outer parentheses. The base is a
    balanced expression that is not itself a rule factor. *)
Theorem combine_split base gs :
  truthy (trim base) = true -> balanced (trim base) = true ->
  tryParseRuleGroupFactor (js "(" ++ trim base ++ js ")") = Returns None ->
  gs <> [] -> forallb wf_group gs = true ->
  splitBillingExprAndRequestRules (combineBillingExpr base (buildRequestRuleExpr gs))
  = Returns (unwrapOuterParens base, buildRequestRuleExpr gs).
Proof. apply combine_split_parts. Qed.

Definition sample_base : jsstr :=
  js " len <= 200000 ? tier(" ++ dq ++ js "base" ++ dq ++ js ", p * 2.5 + c * 15) : tier("
  ++ dq ++ js "long" ++ dq ++ js ", p * 5 + c * 30) ".

Lemma combine_split_witness :
  truthy (trim sample_base) = true /\ balanced (trim sample_base) = true
  /\ splitBillingExprAndRequestRules
       (combineBillingExpr sample_base (buildRequestRuleExpr sample_groups))
     = Returns (unwrapOuterParens sample_base, buildRequestRuleExpr sample_groups).
Proof.
  split; [reflexivity|]. split; [reflexivity|].
  apply (combine_split sample_base sample_groups); [| | |discriminate|]; vm_compute; reflexivity.
Defined.

(** The loop of [unwrapOuterParens] ends within the fuel given to it: its
    result has no pair of outer parentheses left, and unwrapping it again
    changes nothing. *)
Theorem unwrap_complete expr :
  hasFullOuterParens (unwrapOuterParens expr) = false
  /\ unwrapOuterParens (unwrapOuterParens expr) = unwrapOuterParens expr.
Proof.
  assert (hasFullOuterParens (unwrapOuterParens expr) = false) as H
    by (apply unwrap_go_done; lia).
  split; [done|]. unfold unwrapOuterParens at 1.
  assert (trim (unwrapOuterParens expr) = unwrapOuterParens expr) as ->.
  { unfold unwrapOuterParens. generalize (S (length (trim expr))).
    intros n. assert (forall s, trim s = s -> trim (unwrap_go n s) = unwrap_go n s) as Hn;
      [|apply Hn, trim_idemp].
    induction n as [|n IH]; intros s Hs; [done|]. cbn.
    destruct (hasFullOuterParens s); [apply IH, trim_idemp|done]. }
  by apply unwrap_go_fix.
Qed.

(** ** Normalisation *)

(** [normalizeCondition] turns any partial condition into one that the
    editor offers (a known time function, a non-empty zone, a match mode listed
    for the source) and leaves such a condition as it is, so that normalising
    twice is normalising once. *)
Theorem normalize_condition_normal x :
  normal_form (normalizeCondition x) = true
  /\ normalizeCondition (Some (partial_of (normalizeCondition x))) = normalizeCondition x.
Proof. split; [apply normalize_is_normal|apply normalize_normal, normalize_is_normal]. Qed.

(** ** Rules that are not read back *)

(** A parsed conjunction with an unknown second conjunct is refused. *)
Lemma factor_second_none a b m c :
  piece_ok (js " && ") a -> piece_ok (js " && ") b -> numeric m = true ->
  tryParseRequestCondition a = Returns (Some c) -> tryParseRequestCondition b = Returns None ->
  tryParseRuleGroupFactor (js "(" ++ (a ++ js " && " ++ b) ++ js " ? " ++ m ++ js " : 1)")
  = Returns None.
Proof.
  intros Ha Hb Hm Hpa Hpb. unfold tryParseRuleGroupFactor.
  destruct (factor_regex (a ++ js " && " ++ b) m) as (mr & -> & -> & ->);
    [apply truthy_app_l, Ha|done|].
  cbn [default from_option id].
  assert (splitTopLevelAnd (a ++ js " && " ++ b) = [a; b]) as ->
    by (apply (splitAnd_join [a; b]); [done|]; repeat (constructor; [done|]); constructor).
  cbn [otraverse]. rewrite !trim_id by (apply Ha || apply Hb). by rewrite Hpa, Hpb.
Qed.

Section ParamRules.
Variables (path m : jsstr).
Hypotheses (Hp : wf_path path = true) (Hm : numeric m = true).

Let P : jsstr := call_text (js "param") path.

Lemma has_param_unparsed v :
  forallb name_char v = true ->
  piece_ok (js " && ") (js "has(" ++ P ++ js ", " ++ (dq ++ v ++ dq) ++ js ")")
  /\ tryParseRequestCondition (js "has(" ++ P ++ js ", " ++ (dq ++ v ++ dq) ++ js ")") = Returns None.
Proof.
  intros Hv. destruct (wf_path_facts path Hp) as (Hp1 & _ & Hpc). split.
  - pose proof (has_piece (js "param") path v) as [H _]; try done; by apply name_chars_no_paren.
  - unfold tryParseRequestCondition. set (T := js "has(" ++ _).
    assert (tryParseTimeCondition T = None) as -> by not_time.
    assert (rexec HEADER_EXISTS_REGEX T = None) as -> by no_prefix HEADER_EXISTS_REGEX.
    assert (rexec PARAM_EXISTS_REGEX T = None) as -> by no_prefix PARAM_EXISTS_REGEX.
    assert (rexec HEADER_CONTAINS_REGEX T = None) as -> by no_prefix HEADER_CONTAINS_REGEX.
    unfold parseParamContainsCondition.
    assert (rexec PARAM_CONTAINS_REGEX T = None) as -> by no_prefix PARAM_CONTAINS_REGEX.
    unfold parseParamCmpCondition.
    assert (rexec PARAM_CMP_REGEX T = None) as -> by no_prefix PARAM_CMP_REGEX.
    unfold parseEqCondition. assert (rexec EQ_REGEX T = None) as ->; [|done].
    subst T. by eval_re EQ_REGEX.
Qed.

Definition cmp_ops : list (jsstr * jsstr) :=
  [(MATCH_GT, js ">"); (MATCH_GTE, js ">="); (MATCH_LT, js "<"); (MATCH_LTE, js "<=")].

Lemma param_cmp_unparsed mode op v :
  In (mode, op) cmp_ops -> numeric v = true ->
  piece_ok (js " && ") (P ++ js " " ++ op ++ js " " ++ v)
  /\ tryParseRequestCondition (P ++ js " " ++ op ++ js " " ++ v) = Returns None.
Proof.
  intros Hop Hv. destruct (wf_path_facts path Hp) as (Hp1 & _ & Hpc).
  destruct (numeric_facts v Hv) as (Hv1 & Hv2 & Hv3 & _ & Hv5 & _). split.
  - assert (forallb not_amp (js " " ++ op ++ js " ") = true
            /\ no_paren (js " " ++ op ++ js " ") = true) as [Ho1 Ho2]
      by (by destruct Hop as [[= <- <-]|[[= <- <-]|[[= <- <-]|[[= <- <-]|[]]]]]).
    destruct (call_tail_piece (js "param") path (js " " ++ op ++ js " ") v) as [H _]; try done.
    + by apply name_chars_no_paren.
    + intros tl Htl. apply quiet_no_amp; [|done]. rewrite forallb_app, Ho1. by apply not_amp_num.
    + by rewrite <- !app_assoc in H.
  - unfold tryParseRequestCondition. set (T := P ++ _).
    assert (tryParseTimeCondition T = None) as -> by not_time.
    assert (rexec HEADER_EXISTS_REGEX T = None) as -> by no_prefix HEADER_EXISTS_REGEX.
    assert (rexec HEADER_CONTAINS_REGEX T = None) as -> by no_prefix HEADER_CONTAINS_REGEX.
    unfold parseParamContainsCondition, parseParamCmpCondition, parseEqCondition. subst T P.
    destruct Hop as [[= <- <-]|[[= <- <-]|[[= <- <-]|[[= <- <-]|[]]]]].
    all: set (T := call_text _ _ ++ _).
    all: assert (rexec PARAM_EXISTS_REGEX T = None) as -> by (subst T; by eval_re PARAM_EXISTS_REGEX).
    all: assert (rexec PARAM_CONTAINS_REGEX T = None) as -> by (subst T; by eval_re PARAM_CONTAINS_REGEX).
    all: assert (rexec PARAM_CMP_REGEX T = None) as -> by (subst T; by eval_re PARAM_CMP_REGEX).
    all: assert (rexec EQ_REGEX T = None) as -> by (subst T; by eval_re EQ_REGEX).
    all: done.
Qed.

(** The text built for a rule with the single condition [c]. *)
Lemma single_rule c a b :
  buildRequestConditionExpr c = a ++ js " && " ++ b -> piece_ok (js " && ") a ->
  buildRequestRuleExpr [mkRRG [c] m]
  = js "(" ++ (a ++ js " && " ++ b) ++ js " ? " ++ m ++ js " : 1)".
Proof.
  intros Hc Ha. unfold buildRequestRuleExpr, buildRuleGroupFactor. cbn [map rg_multiplier rg_conditions].
  destruct (numeric_facts m Hm) as (_ & _ & _ & -> & _). fold (numeric m). rewrite Hm. cbn [negb].
  rewrite Hc. pose proof (truthy_app_l a (js " && " ++ b) (pok_ne _ _ Ha)) as Ht.
  cbn [List.filter]. rewrite Ht. done.
Qed.

Lemma single_rule_unparsed c a b c' :
  buildRequestConditionExpr c = a ++ js " && " ++ b ->
  cond_text c' a -> piece_ok (js " && ") b -> balanced b = true ->
  tryParseRequestCondition b = Returns None ->
  tryParseRequestRuleExpr (buildRequestRuleExpr [mkRRG [c] m]) = Returns None.
Proof.
  intros Hc Ha Hb Hbb Hpb. rewrite (single_rule c a b Hc) by apply Ha.
  set (f := js "(" ++ _). assert (piece_ok (js " * ") f) as Hf.
  { assert (balanced ((a ++ js " && " ++ b) ++ js " ? " ++ m ++ js " : 1") = true) as Hbal.
    { destruct (numeric_facts m Hm) as (_ & _ & _ & _ & Hmp & _).
      apply bal_app; [apply bal_app; [apply Ha|by apply bal_app]|].
      unfold balanced. rewrite bal_no_paren; [done|]. unfold no_paren in *. by rewrite !forallb_app, Hmp. }
    apply (piece_wrap (js "* ")) in Hbal. subst f. norm_js. norm_js_in Hbal. cbn [app].
    rewrite <- !app_assoc in Hbal. rewrite <- !app_assoc. exact Hbal. }
  unfold tryParseRequestRuleExpr. rewrite trim_id, (pok_ne _ _ Hf) by apply Hf. cbn [negb].
  assert (splitTopLevelMultiply f = [f]) as ->
    by (apply (splitMultiply_join [f]); [done|]; constructor; [done|constructor]).
  cbn [otraverse]. subst f. by rewrite (factor_second_none a b m c'); try apply Ha.
Qed.
End ParamRules.

(** The value of a parameter condition that the editor turns into a test for
    presence and a second conjunct. *)
Definition two_part_value (mode v : jsstr) : bool :=
  if str_eqb mode MATCH_CONTAINS then trimmed v && forallb name_char v
  else existsb (str_eqb mode) [MATCH_GT; MATCH_GTE; MATCH_LT; MATCH_LTE] && numeric v.

(** The rule built from one containment or ordering condition on a request
    parameter is never read back: the editor writes it as a conjunction, whose
    parts the parser separates before it looks for the form it knows. *)
Theorem param_rules_not_read_back path mode v m :
  wf_path path = true -> two_part_value mode v = true -> numeric m = true ->
  tryParseRequestRuleExpr
    (buildRequestRuleExpr [mkRRG [CParamHeader (mkPH SrcParam path mode v)] m]) = Returns None.
Proof.
  intros Hp Hv Hm. destruct (wf_path_facts path Hp) as (Hp1 & Hp2 & Hpc).
  pose proof (param_exists_cond path Hp1 Hpc) as Ha. unfold two_part_value in Hv.
  assert (forall md, has_option (getRequestRuleMatchOptions SOURCE_PARAM) (Some md) = true ->
    buildRequestConditionExpr (CParamHeader (mkPH SrcParam path md v))
    = buildParamHeaderExpr (mkPH SrcParam path md v)) as Hn.
  { intros md Hmd. cbn [buildRequestConditionExpr]. rewrite normalize_normal; [done|exact Hmd]. }
  pose proof (quote_call (js "param") path Hpc) as Hq.
  change (js "param" ++ js "(" ++ quote path ++ js ")") with (js "param(" ++ quote path ++ js ")") in Hq.
  destruct (str_eqb mode MATCH_CONTAINS) eqn:E.
  - apply str_eqb_eq in E as ->. apply andb_true_iff in Hv as [Ht Hv].
    destruct (has_param_unparsed path Hp v Hv) as [H1 H2].
    destruct (has_piece (js "param") path v) as [_ H3]; try done; try by apply name_chars_no_paren.
    refine (single_rule_unparsed m Hm _ _ _ _ _ Ha H1 H3 H2).
    rewrite Hn by done. unfold buildParamHeaderExpr. cbn [ph_path ph_source ph_mode ph_value].
    rewrite Hp2, Hp1, Hq. cbn [negb]. cbv zeta.
    unfold buildExprLiteral. change (str_eqb MATCH_CONTAINS MATCH_CONTAINS) with true. cbv iota zeta.
    rewrite trim_id, quote_plain by (done || by apply name_chars_plain).
    change (str_eqb MATCH_CONTAINS MATCH_EXISTS) with false. cbv iota. by rewrite <- !app_assoc.
  - apply andb_true_iff in Hv as [Hmode Hv].
    assert (exists op, In (mode, op) cmp_ops) as [op Hop].
    { mode_cases Hmode; subst mode; eexists; cbn; tauto. }
    destruct (param_cmp_unparsed path Hp mode op v Hop Hv) as [H1 H2].
    destruct (numeric_facts v Hv) as (_ & _ & _ & Hv4 & Hv5 & _).
    refine (single_rule_unparsed m Hm _ _ _ _ _ Ha H1 _ H2).
    + rewrite Hn by (mode_cases Hmode; by subst mode).
      unfold buildParamHeaderExpr. cbn [ph_path ph_source ph_mode ph_value].
      rewrite Hp2, Hp1, Hq, Hv4. fold (numeric v). rewrite Hv. cbn [negb]. cbv zeta.
      destruct Hop as [[= <- <-]|[[= <- <-]|[[= <- <-]|[[= <- <-]|[]]]]];
        match goal with |- context [assoc ?k ?l] =>
          let r := eval vm_compute in (assoc k l) in change (assoc k l) with r end;
        repeat match goal with |- context [str_eqb ?x ?y] =>
          let r := eval vm_compute in (str_eqb x y) in change (str_eqb x y) with r end;
        cbv iota; by rewrite <- !app_assoc.
    + apply bal_app; [by apply call_balanced; [done|apply name_chars_no_paren]|].
      unfold balanced. rewrite bal_no_paren; [done|]. unfold no_paren in *.
      rewrite !forallb_app, Hv5.
      by destruct Hop as [[= <- <-]|[[= <- <-]|[[= <- <-]|[[= <- <-]|[]]]]].
Qed.

Lemma param_rules_not_read_back_witness :
  wf_path (js "max_tokens") = true /\ two_part_value MATCH_GT (js "4096") = true
  /\ tryParseRequestRuleExpr (buildRequestRuleExpr
       [mkRRG [CParamHeader (mkPH SrcParam (js "max_tokens") MATCH_GT (js "4096"))] (js "2")])
     = Returns None.
Proof.
  split; [reflexivity|]. split; [reflexivity|].
  apply (param_rules_not_read_back (js "max_tokens") MATCH_GT (js "4096") (js "2")); reflexivity.
Defined.

(** A header containment rule whose literal has an escape JSON does not know. *)
Definition bad_escape_rule : jsstr :=
  js "(has(header(" ++ dq ++ js "x" ++ dq ++ js "), " ++ dq ++ [92%N] ++ js "q" ++ dq ++ js ") ? 2 : 1)".

(** The parser does not always answer [null] on a rule it cannot read: an
    escape unknown to JSON in a containment literal makes it throw, and the
    split of a billing expression that holds such a factor throws with it. *)
Theorem bad_escape_throws :
  tryParseRequestRuleExpr bad_escape_rule = Throws (js "SyntaxError")
  /\ splitBillingExprAndRequestRules (js "p * " ++ bad_escape_rule) = Throws (js "SyntaxError").
Proof. split; vm_compute; reflexivity. Qed.

(** A string literal with a conjunction inside it. *)
Definition amp_literal_rule : RequestRuleGroup :=
  mkRRG [CParamHeader (mkPH SrcParam (js "prompt") MATCH_EQ (js "a && b"))] (js "2").

(** The splitter does not know quotes: such a rule is built and not read back. *)
Example amp_literal_not_read_back :
  tryParseRequestRuleExpr (buildRequestRuleExpr [amp_literal_rule]) = Returns None.
Proof. vm_compute. reflexivity. Qed.
