(* ===== verification/TierExpr.v ===== *)
(** * The visual tier editor

    Model of src/web/default/src/features/pricing/lib/tier-expr.ts: the visual
    configuration of a tiered price, the expression generated from it and the
    parser that recovers a configuration from an expression. The local cost
    evaluator ([evalExprLocally]) hands its text to the JavaScript compiler and
    is not modelled. *)

From S2P Require Import Prelude JsStr JsRegex JsNum JsJson BillingExpr BillingSplit BillingRoundTrip BillingRules.

Local Open Scope regex_scope.

Definition CACHE_MODE_TIMED := js "timed".
Definition CACHE_MODE_GENERIC := js "generic".

Inductive CondValue :=
| CVNum (n : num)
| CVStr (s : jsstr).

(** [None] is a missing or null value. *)
Record TierConditionInput := mkTCI {
  tci_var : jsstr;
  tci_op : jsstr;
  tci_value : option CondValue
}.

(** [vt_costs] holds the optional unit costs by field name. *)
Record VisualTier := mkVT {
  vt_label : jsstr;
  vt_conditions : list TierConditionInput;
  vt_input : num;
  vt_output : num;
  vt_cache_mode : jsstr;
  vt_costs : list (jsstr * num)
}.

(** [Partial<VisualTier>]: [None] is a missing field. *)
Record PartialTier := mkPT {
  p_label : option jsstr;
  p_conditions : option (list TierConditionInput);
  p_input : option num;
  p_output : option num;
  p_cache_mode : option jsstr;
  p_costs : list (jsstr * num)
}.

Definition partial_tier (t : VisualTier) : PartialTier :=
  mkPT (Some (vt_label t)) (Some (vt_conditions t)) (Some (vt_input t)) (Some (vt_output t))
       (Some (vt_cache_mode t)) (vt_costs t).

(** [Number(tier.field)]: NaN for a missing field. *)
Definition cost_of (costs : list (jsstr * num)) (field : jsstr) : num :=
  default nan (assoc field costs).

Definition getTierCacheMode (t : PartialTier) : jsstr :=
  if bool_decide (p_cache_mode t = Some CACHE_MODE_TIMED) then CACHE_MODE_TIMED
  else if bool_decide (p_cache_mode t = Some CACHE_MODE_GENERIC) then CACHE_MODE_GENERIC
  else if ngt (cost_of (p_costs t) (js "cache_create_1h_unit_cost")) zero
  then CACHE_MODE_TIMED else CACHE_MODE_GENERIC.

(** The fields written after the spread of [tier]. *)
Definition NORMALIZED_FIELDS : list jsstr :=
  [js "cache_read_unit_cost"; js "cache_create_unit_cost"; js "cache_create_1h_unit_cost";
   js "image_unit_cost"; js "image_output_unit_cost"; js "audio_input_unit_cost";
   js "audio_output_unit_cost"].

(** The spread of [tier] comes after the label, the base costs, the cache mode
    and the conditions: a field that is present keeps its own value. *)
Definition normalizeVisualTier (t : PartialTier) : VisualTier :=
  mkVT (default [] (p_label t))
       (default [] (p_conditions t))
       (default zero (p_input t))
       (default zero (p_output t))
       (default (getTierCacheMode t) (p_cache_mode t))
       (map (fun f => (f, num_or (cost_of (p_costs t) f) zero)) NORMALIZED_FIELDS).

Definition createDefaultVisualConfig : list VisualTier :=
  [normalizeVisualTier (mkPT (Some (js "base")) (Some []) (Some zero) (Some zero)
                             (Some CACHE_MODE_GENERIC) [])].

(** A configuration is its list of tiers; [None] is null or undefined. *)
Definition normalizeVisualConfig (config : option (list VisualTier)) : list VisualTier :=
  match config with
  | None | Some [] => createDefaultVisualConfig
  | Some tiers => map (fun t => normalizeVisualTier (partial_tier t)) tiers
  end.

Definition cond_value_str (v : CondValue) : jsstr :=
  match v with CVNum n => num_to_str n | CVStr s => s end.

Definition cond_complete (c : TierConditionInput) : bool :=
  truthy (tci_var c) && truthy (tci_op c)
  && match tci_value c with
     | None => false
     | Some (CVStr s) => truthy s
     | Some (CVNum _) => true
     end.

Definition cond_str (c : TierConditionInput) : jsstr :=
  tci_var c ++ js " " ++ tci_op c ++ js " " ++ default [] (cond_value_str <$> tci_value c).

Definition buildConditionStr (conditions : list TierConditionInput) : jsstr :=
  join (js " && ") (map cond_str (List.filter cond_complete conditions)).

Definition buildTierBodyExpr (t : VisualTier) : jsstr :=
  let ic := num_or (vt_input t) zero in
  let oc := num_or (vt_output t) zero in
  join (js " + ")
    ((js "p * " ++ num_to_str ic) :: (js "c * " ++ num_to_str oc)
     :: omap (fun cv =>
          let v := num_or (cost_of (vt_costs t) cv.1) zero in
          if neq v zero then None else Some (cv.2 ++ js " * " ++ num_to_str v))
        BILLING_CACHE_VAR_MAP).

Definition tier_call (label body : jsstr) : jsstr :=
  js "tier(" ++ dq ++ label ++ dq ++ js ", " ++ body ++ js ")".

(** The loop over several tiers; [i] is the index of the first one left. *)
Fixpoint tier_parts (i : nat) (tiers : list VisualTier) : list jsstr :=
  match tiers with
  | [] => []
  | t :: rest =>
      let label := str_or (vt_label t) (js "tier_" ++ num_to_str (num_of_nat (i + 1))) in
      let body := tier_call label (buildTierBodyExpr t) in
      let cond := buildConditionStr (vt_conditions t) in
      (match rest with
       | _ :: _ => if truthy cond then cond ++ js " ? " ++ body else body
       | [] => body
       end) :: tier_parts (i + 1) rest
  end.

Definition generateExprFromVisualConfig (config : option (list VisualTier)) : jsstr :=
  match config with
  | None | Some [] => js "p * 0 + c * 0"
  | Some [t] =>
      let label := str_or (vt_label t) (js "default") in
      let body := tier_call label (buildTierBodyExpr t) in
      let cond := buildConditionStr (vt_conditions t) in
      if truthy cond then cond ++ js " ? " ++ body ++ js " : p * 0 + c * 0" else body
  | Some tiers => join (js " : ") (tier_parts 0 tiers)
  end.

(** ** The parser *)

Definition BODY_VERSION_REGEX : regex :=
  RBol +> RStr (js "v") +> RPlus (RChar is_digit) +> RStr (js ":")
   +> RGroup 1 (RStar (RChar cls_any)) +> REol.

(** An optional summand of the variable [v], its coefficient in group [n]. *)
Definition OPT_CACHE (n : nat) (v : jsstr) : regex :=
  ROpt (RSpaces +> RStr (js "+") +> RSpaces +> RStr v +> RSpaces +> RStr (js "*") +> RSpaces
        +> RGroup n (RPlus (RChar cls_num))).

(** The optional summands, from group [n] on, and then [r]. *)
Fixpoint opt_caches (n : nat) (vs : list jsstr) (r : regex) : regex :=
  match vs with
  | [] => r
  | v :: vs => OPT_CACHE n v +> opt_caches (S n) vs r
  end.

(** [bodyPat], its groups numbered from [n], followed by [r]. *)
Definition BODY_PAT (n : nat) (r : regex) : regex :=
  RStr (js "p") +> RSpaces +> RStr (js "*") +> RSpaces +> RGroup n (RPlus (RChar cls_num))
  +> RSpaces +> RStr (js "+") +> RSpaces
  +> RStr (js "c") +> RSpaces +> RStr (js "*") +> RSpaces +> RGroup (n + 1) (RPlus (RChar cls_num))
  +> opt_caches (n + 2) (map snd BILLING_CACHE_VAR_MAP) r.

Definition SINGLE_RE : regex :=
  RBol +> RStr (js "tier(" ++ dq) +> RGroup 1 (RStar (RChar (cls_not 34))) +> RStr (dq ++ js ",")
  +> RSpaces +> BODY_PAT 2 (RStr (js ")") +> REol).

Definition VISUAL_TIER_RE : regex :=
  ROpt (COND_GROUP +> RSpaces +> RStr (js "?") +> RSpaces)
  +> RStr (js "tier(" ++ dq) +> RGroup 2 (RStar (RChar (cls_not 34))) +> RStr (dq ++ js ",")
  +> RSpaces +> BODY_PAT 3 (RStr (js ")")).

(** The optional costs a match captured, from group [n] on. *)
Fixpoint captured_costs (n : nat) (fields : list jsstr) (m : mresult) : list (jsstr * num) :=
  match fields with
  | [] => []
  | f :: fields =>
      match group m n with
      | Some v => (f, num_of_str v) :: captured_costs (S n) fields m
      | None => captured_costs (S n) fields m
      end
  end.

Definition num_group (m : mresult) (n : nat) : num :=
  match group m n with Some s => num_of_str s | None => nan end.

(** The tier a match describes; its label is group [n] and its numbers follow. *)
Definition matched_tier (n : nat) (conditions : list TierConditionInput) (m : mresult) : VisualTier :=
  normalizeVisualTier
    (mkPT (Some (default [] (group m n))) (Some conditions)
          (Some (num_group m (n + 1))) (Some (num_group m (n + 2))) None
          (captured_costs (n + 3) (map fst BILLING_CACHE_VAR_MAP) m)).

Definition parseConditionInputs (condStr : jsstr) : list TierConditionInput :=
  map (fun c => mkTCI (tcd_var c) (tcd_op c) (Some (CVNum (tcd_value c))))
      (parseTierConditions condStr).

(** [s.replace] of every run of spaces by nothing. *)
Definition stripSpaces (s : jsstr) : jsstr := List.filter (fun c => negb (is_space c)) s.

Definition tryParseVisualConfig (exprStr : option jsstr) : option (list VisualTier) :=
  match exprStr with
  | None | Some [] => None
  | Some s =>
      let body := match rexec BODY_VERSION_REGEX s with
                  | Some m => default [] (group m 1)
                  | None => s
                  end in
      match rexec SINGLE_RE body with
      | Some m => Some (normalizeVisualConfig (Some [matched_tier 1 [] m]))
      | None =>
          let tiers := map (fun m =>
              matched_tier 2 (parseConditionInputs (default [] (group m 1))) m)
            (rexec_g VISUAL_TIER_RE body) in
          match tiers with
          | [] => None
          | _ =>
              let cfg := normalizeVisualConfig (Some tiers) in
              if str_eqb (stripSpaces (generateExprFromVisualConfig (Some cfg))) (stripSpaces body)
              then Some cfg else None
          end
      end
  end.

Definition ESTIMATOR_VARS : list (jsstr * jsstr) :=
  [(js "cr", js "cacheReadTokens"); (js "cc", js "cacheCreateTokens");
   (js "cc1h", js "cacheCreate1hTokens"); (js "img", js "imageTokens");
   (js "img_o", js "imageOutputTokens"); (js "ai", js "audioInputTokens");
   (js "ao", js "audioOutputTokens")].

Definition EXTRA_VARS_REGEX : regex :=
  RWordB +> RGroup 1 (RAlts (map fst ESTIMATOR_VARS)) +> RWordB.

Definition exprUsesExtraVars (exprStr : jsstr) : bool :=
  truthy exprStr && rtest EXTRA_VARS_REGEX exprStr.
