(* ===== verification/TierProps.v ===== *)
(** * The visual tier editor: the properties

    What the editor writes for a tier without conditions, its parser reads
    back: the match of the optional summands, one variable at a time, what the
    groups capture, and the tier that is rebuilt from them. *)

From S2P Require Import Prelude JsStr JsRegex JsNum BillingExpr TierExpr.

(** ** Greedy groups and optional summands *)

Definition stops (p : jschar -> bool) (s : jsstr) : bool :=
  match s with c :: _ => negb (p c) | [] => true end.

Lemma rmatch_group_longest n p k prev u v cs x :
  forallb p u = true -> truthy u = true -> stops p v = true ->
  k (MS (prev_of prev u) v ((n, u) :: cs)) = Some x ->
  rmatch (RGroup n (RPlus (RChar p))) k (MS prev (u ++ v) cs) = Some x.
Proof.
  intros Hu Ht Hs Hk. rewrite rmatch_group. unfold RPlus. rewrite rmatch_seq.
  destruct u as [|c u]; [done|]. cbn [app]. rewrite rmatch_char. cbn [forallb] in Hu.
  apply andb_true_iff in Hu as [-> Hu]. rewrite rmatch_star_char.
  apply star_run_longest; [done| |].
  - intros w1 w2 d -> Hd. cbn [forallb] in Hd. apply andb_true_iff in Hd as [Hd _].
    cbn [stops app] in Hs. by rewrite Hd in Hs.
  - cbn [ms_prev ms_rest ms_caps]. rewrite (prev_of_cons prev).
    change (c :: u ++ v) with ((c :: u) ++ v). by rewrite take_prefix.
Qed.

Lemma spaces_then p k cs t :
  rejects is_space k -> stops is_space t = true ->
  rmatch RSpaces k (MS p (32%N :: t) cs) = k (MS (Some 32%N) t cs).
Proof.
  intros Hk Ht. unfold RSpaces. rewrite rmatch_star_reject by done.
  cbn [takeb dropb]. change (is_space 32) with true. cbn iota.
  assert (takeb is_space t = [] /\ dropb is_space t = t) as [-> ->]; [|done].
  destruct t as [|c t]; [done|]. cbn [stops] in Ht. cbn [takeb dropb].
  apply negb_true_iff in Ht. by rewrite Ht.
Qed.

Lemma no_spaces p k cs t :
  rejects is_space k -> stops is_space t = true ->
  rmatch RSpaces k (MS p t cs) = k (MS p t cs).
Proof.
  intros Hk Ht. unfold RSpaces. rewrite rmatch_star_reject by done.
  assert (takeb is_space t = [] /\ dropb is_space t = t) as [-> ->]; [|done].
  destruct t as [|c t]; [done|]. cbn [stops] in Ht. cbn [takeb dropb].
  apply negb_true_iff in Ht. by rewrite Ht.
Qed.

Lemma rejects_lit c w k : is_space c = false -> rejects is_space (rmatch (RStr (c :: w)) k).
Proof.
  intros Hp [prev rest cs] d t Hr Hd. cbn in Hr. subst rest. apply rmatch_str_none. cbn [strip_prefix].
  destruct (c =? d)%N eqn:E; [|done]. apply N.eqb_eq in E as ->. congruence.
Qed.

Lemma rejects_num n k : rejects is_space (rmatch (RGroup n (RPlus (RChar cls_num))) k).
Proof.
  intros [prev rest cs] d t Hr Hd. cbn in Hr. subst rest. rewrite rmatch_group. unfold RPlus.
  rewrite rmatch_seq, rmatch_char. destruct (cls_num d) eqn:E; [|done].
  exfalso. revert E Hd. unfold cls_num, is_digit, is_space.
  rewrite !orb_true_iff, !andb_true_iff, !N.leb_le, !N.eqb_eq. lia.
Qed.

Lemma strip_prefix_extend v w t :
  match strip_prefix v w with
  | Some r => strip_prefix v (w ++ t) = Some (r ++ t)
  | None => strip_prefix w v = None -> strip_prefix v (w ++ t) = None
  end.
Proof.
  revert w. induction v as [|c v IH]; intros [|d w]; cbn [strip_prefix app]; try done.
  rewrite (N.eqb_sym d c). destruct (c =? d)%N; [apply IH|done].
Qed.

(** A variable that cannot be taken for the start of the summand of another. *)
Definition apart (v w : jsstr) : bool :=
  match strip_prefix v (w ++ js " *") with
  | Some (c :: _) => negb (is_space c) && negb (c =? 42)%N
  | Some [] => false
  | None => match strip_prefix (w ++ js " *") v with None => true | Some _ => false end
  end.

Definition summand (v : jsstr) (x : num) : jsstr := js " + " ++ v ++ js " * " ++ num_to_str x.

Section Opt.
Variables (n : nat) (v : jsstr) (r : regex) (k : mstate -> option mstate).
Hypothesis Hv : match v with c :: _ => is_space c = false | [] => False end.

Lemma opt_summand_hit p x t cs (e : option jschar -> mstate) :
  forallb cls_num (num_to_str x) = true -> truthy (num_to_str x) = true -> stops cls_num t = true ->
  (forall q, exists q', rmatch r k (MS q t ((n, num_to_str x) :: cs)) = Some (e q')) ->
  exists q, rmatch (RSeq (OPT_CACHE n v) r) k (MS p (summand v x ++ t) cs) = Some (e q).
Proof.
  intros Hc Ht Hs Hk. unfold summand. rewrite <- !app_assoc. destruct v as [|c v'] eqn:Ev; [done|].
  rewrite rmatch_seq. unfold OPT_CACHE, ROpt. rewrite rmatch_alt.
  match goal with |- exists q, match ?X with Some _ => _ | None => _ end = _ =>
    assert (exists q, X = Some (e q)) as (q & ->); [|by exists q] end.
  rewrite rmatch_seq. change (js " + " ++ ?z) with (32%N :: [43%N] ++ 32%N :: z).
  rewrite spaces_then; [|apply (rejects_str is_space 43 []); reflexivity|reflexivity].
  rewrite rmatch_seq. change (js "+") with [43%N]. rewrite rmatch_str, rmatch_seq.
  rewrite spaces_then; [|by apply rejects_str|cbn [app stops]; by rewrite Hv].
  rewrite rmatch_seq, rmatch_str, rmatch_seq. change (js " * " ++ ?z) with (32%N :: [42%N] ++ 32%N :: z).
  rewrite spaces_then; [|apply (rejects_str is_space 42 []); reflexivity|reflexivity].
  rewrite rmatch_seq. change (js "*") with [42%N]. rewrite rmatch_str, rmatch_seq.
  rewrite spaces_then; [|apply rejects_num|].
  - edestruct Hk as (q' & Hq'). exists q'. apply rmatch_group_longest; [done|done|done|]. exact Hq'.
  - destruct (num_to_str x) as [|d ds]; [done|]. cbn [app stops]. cbn [forallb] in Hc.
    apply andb_true_iff in Hc as [Hd _]. revert Hd. unfold cls_num, is_digit, is_space.
    rewrite negb_true_iff, !orb_true_iff, !orb_false_iff, !andb_true_iff, !andb_false_iff,
      !N.leb_le, !N.leb_gt, !N.eqb_eq, !N.eqb_neq. lia.
Qed.

Lemma opt_summand_end p t cs :
  rmatch (RSeq (OPT_CACHE n v) r) k (MS p (41%N :: t) cs) = rmatch r k (MS p (41%N :: t) cs).
Proof.
  rewrite rmatch_seq. unfold OPT_CACHE, ROpt. rewrite rmatch_alt, rmatch_seq.
  rewrite no_spaces; [|apply (rejects_str is_space 43 []); reflexivity|reflexivity].
  rewrite rmatch_seq, rmatch_str_none; done.
Qed.

Lemma opt_summand_miss p w x t cs :
  match w with c :: _ => is_space c = false | [] => False end -> apart v w = true ->
  rmatch (RSeq (OPT_CACHE n v) r) k (MS p (summand w x ++ t) cs) = rmatch r k (MS p (summand w x ++ t) cs).
Proof.
  intros Hw Ha. rewrite rmatch_seq. unfold OPT_CACHE at 1, ROpt. rewrite rmatch_alt.
  match goal with |- match ?X with Some _ => _ | None => _ end = _ =>
    assert (X = None) as ->; [|done] end.
  rewrite rmatch_seq. unfold summand. rewrite <- !app_assoc. destruct v as [|c v'] eqn:Ev; [done|].
  change (js " + " ++ ?z) with (32%N :: [43%N] ++ 32%N :: z).
  rewrite spaces_then; [|apply (rejects_str is_space 43 []); reflexivity|reflexivity].
  rewrite rmatch_seq. change (js "+") with [43%N]. rewrite rmatch_str, rmatch_seq.
  rewrite spaces_then; [|by apply rejects_str|destruct w; [done|]; cbn [app stops]; by rewrite Hw].
  change (js " * " ++ ?z) with (js " *" ++ 32%N :: z). rewrite (app_assoc w).
  rewrite rmatch_seq, rmatch_str_gen. unfold apart in Ha.
  pose proof (strip_prefix_extend (c :: v') (w ++ js " *") (32%N :: num_to_str x ++ t)) as H.
  destruct (strip_prefix (c :: v') (w ++ js " *")) as [[|d u]|].
  - done.
  - rewrite H. apply andb_true_iff in Ha as [Hd1 Hd2]. rewrite rmatch_seq.
    rewrite no_spaces; [|apply (rejects_str is_space 42 []); reflexivity|exact Hd1].
    rewrite rmatch_seq. apply rmatch_str_none. cbn [app]. change (js "*") with [42%N]. cbn [strip_prefix].
    rewrite N.eqb_sym. apply negb_true_iff in Hd2. by rewrite Hd2.
  - rewrite H; [done|]. by destruct (strip_prefix (w ++ js " *") (c :: v')).
Qed.
End Opt.

(** ** The optional summands together *)

(** The summands of the costs that are not zero, and what they are captured as. *)
Fixpoint sum_text (vs : list (jsstr * num)) : jsstr :=
  match vs with
  | [] => []
  | (v, x) :: vs => if neq x zero then sum_text vs else summand v x ++ sum_text vs
  end.

Fixpoint sum_caps (n : nat) (vs : list (jsstr * num)) (cs : caps) : caps :=
  match vs with
  | [] => cs
  | (_, x) :: vs => sum_caps (S n) vs (if neq x zero then cs else (n, num_to_str x) :: cs)
  end.

(** A cost that is written in a form the parser's number class covers, and
    that denotes it. *)
Definition cost_ok (x : num) : bool :=
  forallb cls_num (num_to_str x) && truthy (num_to_str x) && bool_decide (num_of_str (num_to_str x) = x).

Definition var_ok (v : jsstr) : bool := match v with c :: _ => negb (is_space c) | [] => false end.

Fixpoint vars_apart (vs : list jsstr) : bool :=
  match vs with
  | [] => true
  | v :: vs => var_ok v && forallb (apart v) vs && vars_apart vs
  end.

Lemma sum_text_shape vs t :
  sum_text vs = [] \/ exists w x u, In w (map fst vs) /\ sum_text vs ++ t = summand w x ++ u.
Proof.
  induction vs as [|[v x] vs IH]; [by left|]. cbn [sum_text map fst].
  destruct (neq x zero).
  - destruct IH as [->|(w & y & u & Hw & E)]; [by left|right; exists w, y, u; split; [by right|done]].
  - right. exists v, x, (sum_text vs ++ t). split; [by left|]. by rewrite app_assoc.
Qed.

Lemma sum_text_stops vs t : stops cls_num (sum_text vs ++ 41%N :: t) = true.
Proof. destruct (sum_text_shape vs (41%N :: t)) as [->|(w & x & u & _ & ->)]; done. Qed.

Lemma var_ok_head v : var_ok v = true -> match v with c :: _ => is_space c = false | [] => False end.
Proof. destruct v; [done|]. cbn. by intros ->%negb_true_iff. Qed.

Lemma vars_apart_ok vs w : vars_apart vs = true -> In w vs -> var_ok w = true.
Proof.
  induction vs as [|v vs IH]; [done|]. cbn [vars_apart]. rewrite !andb_true_iff. intros [[H1 _] H2] [<-|Hw]; auto.
Qed.

Lemma opt_all vs n r k p t cs (e : option jschar -> mstate) :
  vars_apart (map fst vs) = true -> forallb (fun vx => cost_ok vx.2) vs = true ->
  (forall q, rmatch r k (MS q (41%N :: t) (sum_caps n vs cs)) = Some (e q)) ->
  exists q, rmatch (opt_caches n (map fst vs) r) k (MS p (sum_text vs ++ 41%N :: t) cs) = Some (e q).
Proof.
  revert n p cs. induction vs as [|[v x] vs IH]; intros n p cs Hd Hok Hk; [exists p; apply Hk|].
  cbn [map fst vars_apart] in Hd. rewrite !andb_true_iff in Hd. destruct Hd as [[Hv Ha] Hd].
  cbn [forallb snd] in Hok. apply andb_true_iff in Hok as [Hx Hok].
  cbn [map fst opt_caches sum_text sum_caps] in *. apply var_ok_head in Hv as Hv'.
  destruct (neq x zero) eqn:Ez.
  - assert (rmatch (RSeq (OPT_CACHE n v) (opt_caches (S n) (map fst vs) r)) k (MS p (sum_text vs ++ 41%N :: t) cs)
      = rmatch (opt_caches (S n) (map fst vs) r) k (MS p (sum_text vs ++ 41%N :: t) cs)) as ->; [|by apply IH].
    destruct (sum_text_shape vs (41%N :: t)) as [->|(w & y & u & Hw & E)].
    + by apply opt_summand_end.
    + rewrite E. rewrite forallb_forall in Ha. apply opt_summand_miss; [done| |by apply Ha].
      by apply var_ok_head, (vars_apart_ok (map fst vs)).
  - rewrite <- app_assoc. unfold cost_ok in Hx. rewrite !andb_true_iff in Hx. destruct Hx as [[Hx1 Hx2] _].
    edestruct (opt_summand_hit n v (opt_caches (S n) (map fst vs) r) k Hv' p x (sum_text vs ++ 41%N :: t) cs) as (q & Hq);
      [done|done|apply sum_text_stops| |exists q; exact Hq].
    intros q. by apply IH.
Qed.

(** ** The body of a tier *)

(** The optional costs of a tier, by expression variable. *)
Definition extra_costs (costs : list (jsstr * num)) : list (jsstr * num) :=
  map (fun cv => (cv.2, num_or (cost_of costs cv.1) zero)) BILLING_CACHE_VAR_MAP.

Lemma extra_vars costs : map fst (extra_costs costs) = map snd BILLING_CACHE_VAR_MAP.
Proof. unfold extra_costs. by rewrite map_map. Qed.

Lemma extra_vars_apart costs : vars_apart (map fst (extra_costs costs)) = true.
Proof. rewrite extra_vars. vm_compute. reflexivity. Qed.

Lemma join_plus a b l : join (js " + ") (a :: b :: l) = a ++ js " + " ++ join (js " + ") (b :: l).
Proof. by apply join_cons. Qed.

Lemma join_sum a (costs : list (jsstr * num)) (m : list (jsstr * jsstr)) :
  join (js " + ") (a :: omap (fun cv =>
      let v := num_or (cost_of costs cv.1) zero in
      if neq v zero then None else Some (cv.2 ++ js " * " ++ num_to_str v)) m)
  = a ++ sum_text (map (fun cv => (cv.2, num_or (cost_of costs cv.1) zero)) m).
Proof.
  revert a. induction m as [|[f v] m IH]; intros a; [by rewrite app_nil_r|].
  cbn [map fst snd sum_text omap list_omap]. cbv zeta. destruct (neq _ zero); [apply IH|].
  rewrite join_plus. f_equal. unfold summand. rewrite <- !app_assoc. f_equal. rewrite IH. by rewrite <- !app_assoc.
Qed.

Lemma body_text t :
  buildTierBodyExpr t
  = js "p * " ++ num_to_str (num_or (vt_input t) zero) ++ js " + c * " ++ num_to_str (num_or (vt_output t) zero)
    ++ sum_text (extra_costs (vt_costs t)).
Proof.
  unfold buildTierBodyExpr. cbv zeta. rewrite join_plus, join_sum. unfold extra_costs.
  by rewrite <- !app_assoc.
Qed.

Lemma stops_num_space x t : cost_ok x = true -> stops is_space (num_to_str x ++ t) = true.
Proof.
  unfold cost_ok. rewrite !andb_true_iff. intros [[Hc Ht] _]. destruct (num_to_str x) as [|d ds]; [done|].
  cbn [forallb] in Hc. apply andb_true_iff in Hc as [Hd _]. cbn [app stops]. revert Hd.
  unfold cls_num, is_digit, is_space.
  rewrite negb_true_iff, !orb_true_iff, !orb_false_iff, !andb_true_iff, !andb_false_iff,
    !N.leb_le, !N.leb_gt, !N.eqb_eq, !N.eqb_neq. lia.
Qed.

(** A variable, a star and a number. *)
Lemma coefficient_match n c r k p x t cs e :
  is_space c = false -> cost_ok x = true -> stops cls_num t = true ->
  (forall q, rmatch r k (MS q t ((n, num_to_str x) :: cs)) = Some e) ->
  rmatch (RSeq (RStr [c]) (RSeq RSpaces (RSeq (RStr (js "*")) (RSeq RSpaces
      (RSeq (RGroup n (RPlus (RChar cls_num))) r))))) k (MS p ([c] ++ js " * " ++ num_to_str x ++ t) cs) = Some e.
Proof.
  intros Hc Hx Hs Hk. rewrite rmatch_seq, rmatch_str, rmatch_seq.
  change (js " * " ++ ?z) with (32%N :: [42%N] ++ 32%N :: z).
  rewrite spaces_then; [|apply (rejects_str is_space 42 []); reflexivity|reflexivity].
  rewrite rmatch_seq. change (js "*") with [42%N]. rewrite rmatch_str, rmatch_seq.
  rewrite spaces_then; [|intros s d u Hr Hd; rewrite rmatch_seq; by apply (rejects_num n _ s d u)|by apply stops_num_space].
  rewrite rmatch_seq. unfold cost_ok in Hx. rewrite !andb_true_iff in Hx. destruct Hx as [[Hx1 Hx2] _].
  by apply rmatch_group_longest.
Qed.

Lemma body_match n r k p a b vs t cs e :
  cost_ok a = true -> cost_ok b = true -> map fst vs = map snd BILLING_CACHE_VAR_MAP ->
  vars_apart (map fst vs) = true -> forallb (fun vx => cost_ok vx.2) vs = true ->
  (forall q, rmatch r k (MS q (41%N :: t)
      (sum_caps (n + 2) vs ((n + 1, num_to_str b) :: (n, num_to_str a) :: cs))) = Some e) ->
  rmatch (BODY_PAT n r) k
    (MS p (js "p * " ++ num_to_str a ++ js " + c * " ++ num_to_str b ++ sum_text vs ++ 41%N :: t) cs) = Some e.
Proof.
  intros Ha Hb Hvs Hd Hok Hk. unfold BODY_PAT. change (js "p * " ++ ?z) with ([112%N] ++ js " * " ++ z).
  apply coefficient_match; [done|done|done|]. intros q.
  change (js " + c * " ++ ?z) with (32%N :: [43%N] ++ 32%N :: [99%N] ++ js " * " ++ z).
  rewrite rmatch_seq, spaces_then; [|apply (rejects_str is_space 43 []); reflexivity|reflexivity].
  rewrite rmatch_seq. change (js "+") with [43%N]. rewrite rmatch_str, rmatch_seq.
  rewrite spaces_then; [|apply (rejects_str is_space 99 []); reflexivity|reflexivity].
  apply coefficient_match; [done|done|apply sum_text_stops|]. intros q'.
  rewrite <- Hvs. edestruct (opt_all vs (n + 2) r k) as (q'' & Hq); [done|done|intros; apply Hk|exact Hq].
Qed.

(** ** What the captures hold *)

Lemma cap_sum_below n vs cs i : i < n -> cap i (sum_caps n vs cs) = cap i cs.
Proof.
  revert n cs. induction vs as [|[v x] vs IH]; intros n cs Hi; [done|]. cbn [sum_caps]. rewrite IH by lia.
  destruct (neq x zero); [done|]. cbn [cap]. by rewrite (proj2 (Nat.eqb_neq i n)) by lia.
Qed.

Section Picked.
Variable costs : list (jsstr * num).

(** The costs that are written, by field. *)
Definition written (m : list (jsstr * jsstr)) : list (jsstr * num) :=
  omap (fun cv => let x := num_or (cost_of costs cv.1) zero in
                  if neq x zero then None else Some (cv.1, x)) m.

Lemma captured_written m n cs (r : mresult) :
  let vs := map (fun cv : jsstr * jsstr => (cv.2, num_or (cost_of costs cv.1) zero)) m in
  forallb (fun vx => cost_ok vx.2) vs = true ->
  (forall i, n <= i -> cap i cs = None) -> mr_caps r = sum_caps n vs cs ->
  captured_costs n (map fst m) r = written m.
Proof.
  revert n cs. induction m as [|[f v] m IH]; intros n cs vs Hok Hcs Hr; [done|]. subst vs.
  cbn [map fst snd sum_caps forallb] in *. apply andb_true_iff in Hok as [Hx Hok].
  cbn [captured_costs written omap list_omap fst]. cbv zeta. unfold group. rewrite Hr, cap_sum_below by lia.
  destruct (neq _ zero) eqn:Ez.
  - rewrite Hcs by lia. apply (IH (S n) cs Hok); [intros; apply Hcs; lia|exact Hr].
  - cbn [cap]. rewrite Nat.eqb_refl. f_equal.
    + f_equal. unfold cost_ok in Hx. rewrite !andb_true_iff, bool_decide_eq_true in Hx. by destruct Hx as [_ ->].
    + apply (IH (S n) ((n, num_to_str (num_or (cost_of costs f) zero)) :: cs) Hok); [|exact Hr].
      intros i Hi. cbn [cap]. rewrite (proj2 (Nat.eqb_neq i n)) by lia. apply Hcs. lia.
Qed.

Lemma num_or_zero y : neq (num_or y zero) zero = true -> num_or y zero = zero.
Proof. destruct y as [s|s| |s m e]; try done; by destruct s. Qed.

Lemma num_or_idemp y : num_or (num_or y zero) zero = num_or y zero.
Proof. by destruct y. Qed.

Lemma written_absent m f : ~ In f (map fst m) -> assoc f (written m) = None.
Proof.
  induction m as [|[g v] m IH]; [done|]. cbn [map fst]. intros Hn.
  cbn [written omap list_omap fst]. cbv zeta. destruct (neq _ zero); [apply IH; intros ?; apply Hn; by right|].
  cbn [assoc]. assert (str_eqb f g = false) as -> by (apply str_eqb_neq; intros ->; apply Hn; by left).
  apply IH. intros ?. apply Hn. by right.
Qed.

Lemma written_cost m f :
  NoDup (map fst m) -> In f (map fst m) ->
  num_or (cost_of (written m) f) zero = num_or (cost_of costs f) zero.
Proof.
  induction m as [|[g v] m IH]; [done|]. cbn [map fst]. intros [Hg Hd]%NoDup_cons Hin.
  cbn [written omap list_omap fst]. cbv zeta. destruct (decide (f = g)) as [->|Hne].
  - destruct (neq _ zero) eqn:Ez.
    + unfold cost_of at 1. rewrite written_absent by (by rewrite <- list_elem_of_In).
      by rewrite (num_or_zero _ Ez).
    + unfold cost_of at 1. cbn [assoc]. rewrite str_eqb_refl. apply num_or_idemp.
  - destruct Hin as [?|Hin]; [congruence|]. destruct (neq _ zero); [by apply IH|].
    unfold cost_of at 1. cbn [assoc]. rewrite (proj2 (str_eqb_neq f g)) by done. by apply IH.
Qed.
End Picked.

(** ** The round trip of a tier *)

(** A tier without conditions whose label has no quote and whose costs are
    written as decimal numbers. *)
Definition wf_tier (t : VisualTier) : bool :=
  truthy (vt_label t) && forallb (cls_not 34) (vt_label t)
  && match vt_conditions t with [] => true | _ => false end
  && cost_ok (vt_input t) && cost_ok (vt_output t)
  && forallb (fun f => cost_ok (num_or (cost_of (vt_costs t) f) zero)) NORMALIZED_FIELDS.

Definition normal_costs (costs : list (jsstr * num)) : list (jsstr * num) :=
  map (fun f => (f, num_or (cost_of costs f) zero)) NORMALIZED_FIELDS.

(** The cache mode is not written: it follows from the cost of the long cache. *)
Definition written_mode (costs : list (jsstr * num)) : jsstr :=
  if ngt (num_or (cost_of costs (js "cache_create_1h_unit_cost")) zero) zero
  then CACHE_MODE_TIMED else CACHE_MODE_GENERIC.

Definition reread (t : VisualTier) : VisualTier :=
  mkVT (vt_label t) [] (vt_input t) (vt_output t) (written_mode (vt_costs t)) (normal_costs (vt_costs t)).

Lemma cost_ok_num_or x : cost_ok x = true -> num_or x zero = x.
Proof. destruct x as [[]|s| |s m e]; try done; intros H; vm_compute in H; discriminate. Qed.

Lemma cache_fields : map fst BILLING_CACHE_VAR_MAP = NORMALIZED_FIELDS.
Proof. vm_compute. reflexivity. Qed.

Lemma normalized_NoDup : NoDup NORMALIZED_FIELDS.
Proof. apply (bool_decide_unpack _). vm_compute. exact I. Qed.

Lemma assoc_map_fields (g : jsstr -> num) fields f : In f fields -> assoc f (map (fun f => (f, g f)) fields) = Some (g f).
Proof.
  induction fields as [|h fields IH]; [done|]. cbn [map assoc]. intros [->|Hin]; [by rewrite str_eqb_refl|].
  destruct (str_eqb f h) eqn:E; [by apply str_eqb_eq in E as ->|by apply IH].
Qed.

Lemma normal_cost costs f : In f NORMALIZED_FIELDS -> cost_of (normal_costs costs) f = num_or (cost_of costs f) zero.
Proof.
  intros Hf. unfold cost_of at 1, normal_costs.
  by rewrite (assoc_map_fields (fun f => num_or (cost_of costs f) zero)).
Qed.

Lemma normal_costs_same c1 c2 :
  (forall f, In f NORMALIZED_FIELDS -> num_or (cost_of c1 f) zero = num_or (cost_of c2 f) zero) ->
  normal_costs c1 = normal_costs c2.
Proof. intros H. unfold normal_costs. apply map_ext_in. intros f Hf. by rewrite H. Qed.

Lemma normal_costs_idemp costs : normal_costs (normal_costs costs) = normal_costs costs.
Proof. apply normal_costs_same. intros f Hf. rewrite normal_cost by done. apply num_or_idemp. Qed.

Lemma written_fields costs f :
  In f NORMALIZED_FIELDS -> num_or (cost_of (written costs BILLING_CACHE_VAR_MAP) f) zero = num_or (cost_of costs f) zero.
Proof. intros Hf. apply written_cost; rewrite cache_fields; [apply normalized_NoDup|done]. Qed.

Lemma ngt_num_or x : ngt (num_or x zero) zero = ngt x zero.
Proof. by destruct x as [[]|[]| |[] m e]. Qed.

Lemma forallb_map {A B} (f : A -> B) p l : forallb p (map f l) = forallb (fun x => p (f x)) l.
Proof. induction l as [|x l IH]; [done|]. cbn. by rewrite IH. Qed.

Definition tier_text (t : VisualTier) : jsstr := tier_call (vt_label t) (buildTierBodyExpr t).

Lemma single_match t :
  wf_tier t = true ->
  exists m, rexec SINGLE_RE (tier_text t) = Some m
    /\ mr_caps m = sum_caps 4 (extra_costs (vt_costs t))
         [(3, num_to_str (vt_output t)); (2, num_to_str (vt_input t)); (1, vt_label t)].
Proof.
  unfold wf_tier. rewrite !andb_true_iff. intros [[[[[Hl Hq] _] Ha] Hb] Hc].
  unfold SINGLE_RE. rewrite rexec_anchored. unfold tier_text, tier_call.
  rewrite body_text, !cost_ok_num_or by done.
  set (caps := sum_caps 4 _ _).
  match goal with |- context [rmatch ?r Some ?s] => enough (rmatch r Some s = Some (MS (Some 41%N) [] caps)) as H end.
  { rewrite H. eexists. split; reflexivity. }
  change (js "tier(" ++ dq ++ ?z) with ((js "tier(" ++ dq) ++ z). rewrite rmatch_seq, rmatch_str, rmatch_seq.
  rewrite rmatch_group_star by (apply (rejects_str (cls_not 34) 34 (js ",")); reflexivity).
  change (dq ++ js ", " ++ ?z) with (34%N :: js ", " ++ z).
  rewrite takeb_until, dropb_until by done. change (34%N :: js ", " ++ ?z) with ((dq ++ js ",") ++ 32%N :: z).
  rewrite rmatch_seq, rmatch_str, rmatch_seq.
  rewrite spaces_then; [|unfold BODY_PAT; apply (rejects_str is_space 112 []); reflexivity|reflexivity].
  rewrite <- !app_assoc. apply (body_match 2).
  - done.
  - done.
  - apply extra_vars.
  - apply extra_vars_apart.
  - unfold extra_costs. rewrite <- cache_fields in Hc. rewrite forallb_map in Hc. by rewrite forallb_map.
  - intros q. rewrite rmatch_seq. change (js ")") with [41%N]. change [41%N] with ([41%N] ++ []) at 2.
    rewrite rmatch_str, rmatch_eol. reflexivity.
Qed.

Lemma reread_matched t m :
  wf_tier t = true ->
  mr_caps m = sum_caps 4 (extra_costs (vt_costs t))
    [(3, num_to_str (vt_output t)); (2, num_to_str (vt_input t)); (1, vt_label t)] ->
  normalizeVisualConfig (Some [matched_tier 1 [] m]) = [reread t].
Proof.
  unfold wf_tier. rewrite !andb_true_iff. intros [[[[_ _] Ha] Hb] Hc] Hm.
  assert (captured_costs 4 (map fst BILLING_CACHE_VAR_MAP) m = written (vt_costs t) BILLING_CACHE_VAR_MAP) as Hw.
  { eapply captured_written; [| |exact Hm].
    - rewrite <- cache_fields, forallb_map in Hc. by rewrite forallb_map.
    - intros i Hi. do 4 (destruct i as [|i]; [lia|]). reflexivity. }
  assert (forall i, i < 4 -> group m i = cap i [(3, num_to_str (vt_output t)); (2, num_to_str (vt_input t)); (1, vt_label t)]) as Hg.
  { intros i Hi. unfold group. rewrite Hm. by apply cap_sum_below. }
  unfold normalizeVisualConfig, matched_tier. unfold num_group. cbn [map Nat.add]. rewrite Hw, !Hg by lia.
  cbn [cap Nat.eqb Nat.add default from_option id]. unfold cost_ok in Ha, Hb.
  rewrite !andb_true_iff, !bool_decide_eq_true in Ha, Hb. destruct Ha as [_ Ha], Hb as [_ Hb]. rewrite Ha, Hb.
  unfold normalizeVisualTier, partial_tier.
  cbn [p_label p_conditions p_input p_output p_cache_mode p_costs vt_label vt_conditions vt_input vt_output
       vt_cache_mode vt_costs default from_option id].
  fold (normal_costs (written (vt_costs t) BILLING_CACHE_VAR_MAP)).
  fold (normal_costs (normal_costs (written (vt_costs t) BILLING_CACHE_VAR_MAP))).
  rewrite normal_costs_idemp. unfold reread. f_equal. f_equal.
  - unfold getTierCacheMode, written_mode. cbn [p_cache_mode p_costs]. rewrite !bool_decide_false by done.
    rewrite <- (written_fields (vt_costs t)), ngt_num_or by (apply (bool_decide_unpack _); vm_compute; exact I). done.
  - apply normal_costs_same. intros f. apply written_fields.
Qed.

Lemma extra_normal_costs costs : extra_costs (normal_costs costs) = extra_costs costs.
Proof.
  unfold extra_costs. apply map_ext_in. intros cv Hcv. f_equal.
  rewrite normal_cost by (rewrite <- cache_fields; by apply in_map). apply num_or_idemp.
Qed.

Lemma parse_single s m :
  truthy s = true -> rexec BODY_VERSION_REGEX s = None -> rexec SINGLE_RE s = Some m ->
  tryParseVisualConfig (Some s) = Some (normalizeVisualConfig (Some [matched_tier 1 [] m])).
Proof. intros Hs Hv Hm. unfold tryParseVisualConfig. destruct s; [done|]. by rewrite Hv, Hm. Qed.

Lemma generate_single t :
  truthy (vt_label t) = true -> vt_conditions t = [] -> generateExprFromVisualConfig (Some [t]) = tier_text t.
Proof.
  intros Hl Hc. unfold generateExprFromVisualConfig. cbv zeta. rewrite Hc. cbn. unfold tier_text, str_or. by rewrite Hl.
Qed.

Lemma tier_reread t :
  wf_tier t = true ->
  tryParseVisualConfig (Some (generateExprFromVisualConfig (Some [t]))) = Some [reread t]
  /\ generateExprFromVisualConfig (Some [reread t]) = generateExprFromVisualConfig (Some [t]).
Proof.
  intros Hwf. pose proof Hwf as Hwf'. unfold wf_tier in Hwf'. rewrite !andb_true_iff in Hwf'.
  destruct Hwf' as [[[[[Hl Hq] Hcond] Ha] Hb] Hc].
  assert (vt_conditions t = []) as Hn by (by destruct (vt_conditions t)).
  rewrite !generate_single by done. split.
  - destruct (single_match t Hwf) as (m & Hm & Hcaps).
    rewrite (parse_single _ m) by (done || by apply rexec_lit_none). f_equal. by apply reread_matched.
  - unfold tier_text. rewrite !body_text. cbn [reread vt_label vt_input vt_output vt_costs].
    by rewrite extra_normal_costs.
Qed.

(** A tier without conditions survives the editor: the expression written
    for it is read back as the same tier, with its label, its base costs and all
    its optional costs, zeros filled in, and the cache mode its costs imply; and
    writing that tier gives the same expression again. *)
Theorem tier_round_trip t :
  wf_tier t = true ->
  tryParseVisualConfig (Some (generateExprFromVisualConfig (Some [t]))) = Some [reread t]
  /\ generateExprFromVisualConfig (Some [reread t]) = generateExprFromVisualConfig (Some [t]).
Proof. apply tier_reread. Qed.

Definition sample_tier : VisualTier :=
  mkVT (js "base") [] (dec_to_num false 25 (-1)) (num_of_Z 15) CACHE_MODE_TIMED
    [(js "cache_read_unit_cost", dec_to_num false 3 (-1)); (js "cache_create_1h_unit_cost", num_of_Z 6)].

Lemma tier_round_trip_witness :
  wf_tier sample_tier = true
  /\ tryParseVisualConfig (Some (generateExprFromVisualConfig (Some [sample_tier]))) = Some [reread sample_tier].
Proof. split; [vm_compute; reflexivity|]. apply (tier_round_trip sample_tier). vm_compute. reflexivity. Defined.
