(* ===== verification/Currency.v ===== *)
(** * Currency display

    Model of src/web/default/src/lib/currency.ts and of the configuration store
    it reads (src/web/default/src/stores/system-config-store.ts).  The locale
    data of [Intl.NumberFormat] is a parameter: [intl opts x] is
    [new Intl.NumberFormat(locale, opts).format(x)]. *)

From S2P Require Import Prelude JsStr JsNum.

(** ** The configuration store *)

Definition USD := js "USD".
Definition CNY := js "CNY".
Definition TOKENS := js "TOKENS".
Definition CUSTOM := js "CUSTOM".

Record CurrencyConfig := mkCurrency {
  displayInCurrency : bool;
  quotaDisplayType : jsstr;
  quotaPerUnit : num;
  usdExchangeRate : num;
  customCurrencySymbol : jsstr;
  customCurrencyExchangeRate : num
}.

(** [Partial<CurrencyConfig>]: [None] is a missing field. *)
Record PartialCurrency := mkPCurrency {
  p_displayInCurrency : option bool;
  p_quotaDisplayType : option jsstr;
  p_quotaPerUnit : option num;
  p_usdExchangeRate : option num;
  p_customCurrencySymbol : option jsstr;
  p_customCurrencyExchangeRate : option num
}.

Definition DEFAULT_CURRENCY_CONFIG : CurrencyConfig :=
  mkCurrency true USD (num_of_Z 500000) (num_of_Z 1) [164%N] (num_of_Z 1).

(** The spread of an update over a configuration. *)
Definition spread_currency (c : CurrencyConfig) (u : PartialCurrency) : CurrencyConfig :=
  mkCurrency (default (displayInCurrency c) (p_displayInCurrency u))
             (default (quotaDisplayType c) (p_quotaDisplayType u))
             (default (quotaPerUnit c) (p_quotaPerUnit u))
             (default (usdExchangeRate c) (p_usdExchangeRate u))
             (default (customCurrencySymbol c) (p_customCurrencySymbol u))
             (default (customCurrencyExchangeRate c) (p_customCurrencyExchangeRate u)).

Record SystemConfig := mkSystem {
  systemName : jsstr;
  logo : jsstr;
  footerHtml : option jsstr;
  demoSiteEnabled : option bool;
  displayTokenStatEnabled : option bool;
  currency : CurrencyConfig
}.

Record PartialSystem := mkPSystem {
  p_systemName : option jsstr;
  p_logo : option jsstr;
  p_footerHtml : option jsstr;
  p_demoSiteEnabled : option bool;
  p_displayTokenStatEnabled : option bool;
  p_currency : option PartialCurrency
}.

Record SystemConfigState := mkState {
  config : SystemConfig;
  loading : bool;
  loadedLogoUrl : jsstr
}.

Definition or_else {A} (o d : option A) : option A := match o with Some _ => o | None => d end.

Definition setConfig (u : PartialSystem) (st : SystemConfigState) : SystemConfigState :=
  let c := config st in
  mkState
    (mkSystem (default (systemName c) (p_systemName u)) (default (logo c) (p_logo u))
       (or_else (p_footerHtml u) (footerHtml c))
       (or_else (p_demoSiteEnabled u) (demoSiteEnabled c))
       (or_else (p_displayTokenStatEnabled u) (displayTokenStatEnabled c))
       (match p_currency u with
        | Some pc => spread_currency (currency c) pc
        | None => currency c
        end))
    (loading st) (loadedLogoUrl st).
Definition setLoadedLogoUrl (url : jsstr) (st : SystemConfigState) : SystemConfigState :=
  mkState (config st) (loading st) url.
Definition setLoading (b : bool) (st : SystemConfigState) : SystemConfigState :=
  mkState (config st) b (loadedLogoUrl st).

(** ** Options and display *)

Record CurrencyFormatOptions := mkCFO {
  o_digitsLarge : option Z;
  o_digitsSmall : option Z;
  o_abbreviate : option bool;
  o_minimumNonZero : option num;
  o_compact : option bool;
  o_showSymbol : option bool
}.

Record ResolvedCurrencyFormatOptions := mkRCFO {
  digitsLarge : Z;
  digitsSmall : Z;
  abbreviate : bool;
  minimumNonZero : num;
  compact : bool;
  showSymbol : bool
}.

Inductive DisplayMeta :=
| MCurrency (symbol currencyCode : jsstr) (exchangeRate : num)
| MCustom (symbol : jsstr) (exchangeRate : num)
| MTokens (quotaPerUnit : num).

Definition DEFAULT_FORMAT_OPTIONS : ResolvedCurrencyFormatOptions :=
  mkRCFO 2 4 true zero false true.

Definition DISPLAY_TYPE_VALUES : list jsstr := [USD; CNY; TOKENS; CUSTOM].

Definition isCurrencyDisplayType (v : jsstr) : bool := existsb (str_eqb v) DISPLAY_TYPE_VALUES.
(** [None] is a value that is not a string. *)
Definition parseCurrencyDisplayType (v : option jsstr) (fallback : jsstr) : jsstr :=
  match v with
  | Some s => if isCurrencyDisplayType s then s else fallback
  | None => fallback
  end.

(** [x && x > 0 ? x : d]. *)
Definition positive_or (x : option num) (d : num) : num :=
  match x with
  | Some v => if ntruthy v && ngt v zero then v else d
  | None => d
  end.

(** [currency] is the stored configuration, missing fields included; [None] when
    there is none. *)
Definition getConfig (currency : option PartialCurrency) : CurrencyConfig :=
  let d := DEFAULT_CURRENCY_CONFIG in
  match currency with
  | None => d
  | Some c =>
      mkCurrency (default (displayInCurrency d) (p_displayInCurrency c))
        (default (quotaDisplayType d) (p_quotaDisplayType c))
        (positive_or (p_quotaPerUnit c) (quotaPerUnit d))
        (positive_or (p_usdExchangeRate c) (usdExchangeRate d))
        (str_or (default [] (trim <$> p_customCurrencySymbol c)) (customCurrencySymbol d))
        (positive_or (p_customCurrencyExchangeRate c) (customCurrencyExchangeRate d))
  end.

Definition usd_meta : DisplayMeta := MCurrency (js "$") USD (num_of_Z 1).

Definition getDisplayMeta (c : CurrencyConfig) : DisplayMeta :=
  if str_eqb (quotaDisplayType c) CNY then MCurrency [165%N] CNY (usdExchangeRate c)
  else if str_eqb (quotaDisplayType c) CUSTOM then
    MCustom (customCurrencySymbol c) (customCurrencyExchangeRate c)
  else if str_eqb (quotaDisplayType c) TOKENS then MTokens (quotaPerUnit c)
  else usd_meta.

Definition getBillingDisplayMeta (c : CurrencyConfig) : DisplayMeta :=
  match getDisplayMeta c with MTokens _ => usd_meta | m => m end.

Definition mergeOptions (o : option CurrencyFormatOptions) : ResolvedCurrencyFormatOptions :=
  let d := DEFAULT_FORMAT_OPTIONS in
  match o with
  | None => d
  | Some o =>
      mkRCFO (default (digitsLarge d) (o_digitsLarge o)) (default (digitsSmall d) (o_digitsSmall o))
             (default (abbreviate d) (o_abbreviate o))
             (default (minimumNonZero d) (o_minimumNonZero o))
             (default (compact d) (o_compact o)) (default (showSymbol d) (o_showSymbol o))
  end.

(** ** Numbers as text *)

(** The first replacement of [removeTrailingZeros]: at the first point that only
    digits follow, the last of them a zero, the zeros at the end are dropped. *)
Fixpoint drop_fraction_zeros (s : jsstr) : jsstr :=
  match s with
  | [] => []
  | c :: t =>
      if (c =? 46)%N && forallb is_digit t && endsWith t (js "0") then c :: strip_zeros t
      else c :: drop_fraction_zeros t
  end.

Definition drop_final_point (s : jsstr) : jsstr :=
  if endsWith s (js ".") then take (length s - 1) s else s.

Definition removeTrailingZeros (s : jsstr) : jsstr :=
  if includes s (js ".") then drop_final_point (drop_fraction_zeros s) else s.

Definition formatNumberWithSuffix (value : num) (large small : Z) (abbr : bool) : jsstr :=
  let abs := nabs value in
  if abbr && nge abs (num_of_Z 1000) then
    removeTrailingZeros (toFixed (ndiv value (num_of_Z 1000)) 1) ++ js "k"
  else
    let digits := if nge abs (num_of_Z 1) then large else small in
    removeTrailingZeros (toFixed value digits).

Definition adjustForMinimum (value : num) (digits : Z) (minimum : num) : num :=
  if neq value zero then value
  else
    let threshold := if ngt minimum zero then minimum else npow10 (- digits) in
    let abs := nabs value in
    if ngt abs zero && nlt abs threshold
    then (if ngt value zero then threshold else nneg threshold)
    else value.

(** The options the sources pass to [Intl.NumberFormat]. *)
Record IntlOptions := mkIntl {
  i_currency : option jsstr;         (* style currency, narrow symbol *)
  i_compact : bool;                  (* notation *)
  i_minFraction : option Z;
  i_maxFraction : Z
}.

Section Format.
Variable intl : IntlOptions -> num -> jsstr.

Definition decimal_options (o : ResolvedCurrencyFormatOptions) (code : option jsstr) (digits : Z) :=
  mkIntl code (compact o) (Some 0%Z) (if compact o then 1%Z else digits).

Definition formatCurrencyValue (value : num) (o : ResolvedCurrencyFormatOptions)
    (meta : DisplayMeta) : jsstr :=
  let digits := if nge (nabs value) (num_of_Z 1) then digitsLarge o else digitsSmall o in
  let adjusted := adjustForMinimum value digits (minimumNonZero o) in
  match meta with
  | MTokens _ =>
      if compact o then intl (mkIntl None true None 1) value
      else formatNumberWithSuffix value (digitsLarge o) (digitsSmall o) (abbreviate o)
  | MCurrency _ code _ =>
      if showSymbol o then intl (decimal_options o (Some code) digits) adjusted
      else intl (decimal_options o None digits) adjusted
  | MCustom symbol _ =>
      let decimal := intl (decimal_options o None digits) adjusted in
      if showSymbol o then symbol ++ js " " ++ decimal else decimal
  end.

(** The stored configuration the formatting functions read. *)
Variable stored : option PartialCurrency.

Definition getCurrencyDisplay : CurrencyConfig * DisplayMeta :=
  let c := getConfig stored in (c, getDisplayMeta c).

Definition absent (x : option num) : bool :=
  match x with Some v => isNaN v | None => true end.

Definition formatCurrencyFromUSD (amountUSD : option num) (options : option CurrencyFormatOptions)
    : jsstr :=
  if absent amountUSD then js "-"
  else
    let amount := default nan amountUSD in
    let '(c, meta) := getCurrencyDisplay in
    let merged := mergeOptions options in
    match meta with
    | MTokens _ =>
        let tokens := nmul amount (quotaPerUnit c) in
        if compact merged then intl (mkIntl None true None 1) tokens
        else formatNumberWithSuffix tokens 0 (digitsSmall merged) (abbreviate merged)
    | MCurrency _ _ rate | MCustom _ rate =>
        formatCurrencyValue (nmul amount rate) merged meta
    end.

Definition formatBillingCurrencyFromUSD (amountUSD : option num)
    (options : option CurrencyFormatOptions) : jsstr :=
  if absent amountUSD then js "-"
  else
    let amount := default nan amountUSD in
    let meta := getBillingDisplayMeta (getCurrencyDisplay).1 in
    let merged := mergeOptions options in
    let value := match meta with
                 | MCurrency _ _ rate | MCustom _ rate => nmul amount rate
                 | MTokens _ => amount
                 end in
    formatCurrencyValue value merged meta.

Definition formatQuotaWithCurrency (quota : option num) (options : option CurrencyFormatOptions)
    : jsstr :=
  if absent quota then js "-"
  else
    let c := (getCurrencyDisplay).1 in
    formatCurrencyFromUSD (Some (ndiv (default nan quota) (quotaPerUnit c))) options.

Definition getCurrencyLabel : jsstr :=
  let '(c, meta) := getCurrencyDisplay in
  match meta with
  | MTokens _ => js "Tokens"
  | _ =>
      if str_eqb (quotaDisplayType c) CNY then CNY
      else if str_eqb (quotaDisplayType c) CUSTOM then
        match meta with MCustom symbol _ => symbol | _ => js "Custom" end
      else USD
  end.

Definition isCurrencyDisplayEnabled : bool :=
  match (getCurrencyDisplay).2 with MTokens _ => false | _ => true end.

Definition formatLocalCurrencyAmount (amount : option num) (options : option CurrencyFormatOptions)
    : jsstr :=
  if absent amount then js "-"
  else formatCurrencyValue (default nan amount) (mergeOptions options)
         (getBillingDisplayMeta (getCurrencyDisplay).1).
End Format.

(** ** Properties *)

Lemma positive_or_pos x d : ngt d zero = true -> ngt (positive_or x d) zero = true.
Proof.
  intros Hd. destruct x as [v|]; [|done]. cbn.
  destruct (ntruthy v && ngt v zero) eqn:E; [|done]. by apply andb_true_iff in E as [_ ?].
Qed.

(** Whatever is stored, the configuration in effect has positive rates and a
    positive number of quota units per dollar, and a custom symbol that is
    neither empty nor padded: the conversions never divide by zero. *)
Theorem config_rates_positive stored :
  let c := getConfig stored in
  ngt (quotaPerUnit c) zero = true /\ ngt (usdExchangeRate c) zero = true
  /\ ngt (customCurrencyExchangeRate c) zero = true
  /\ truthy (customCurrencySymbol c) = true /\ trim (customCurrencySymbol c) = customCurrencySymbol c.
Proof.
  destruct stored as [c|]; [|done]. cbn [getConfig quotaPerUnit usdExchangeRate
    customCurrencyExchangeRate customCurrencySymbol].
  repeat split; try by apply positive_or_pos.
  - by destruct (default [] (trim <$> p_customCurrencySymbol c)).
  - destruct (p_customCurrencySymbol c) as [s|]; [|done]. cbn. unfold str_or.
    destruct (truthy (trim s)); [apply trim_idemp|done].
Qed.

Lemma billing_meta_currency c :
  match getDisplayMeta c with MTokens _ => False | _ => True end ->
  getBillingDisplayMeta c = getDisplayMeta c.
Proof. unfold getBillingDisplayMeta. by destruct (getDisplayMeta c). Qed.

(** Billing amounts are never shown in tokens, and they are the quota
    amounts whenever those are shown in a currency. *)
Theorem billing_format_agrees intl stored amount options :
  (forall q, getBillingDisplayMeta (getConfig stored) <> MTokens q)
  /\ (isCurrencyDisplayEnabled stored = true ->
      formatBillingCurrencyFromUSD intl stored amount options
      = formatCurrencyFromUSD intl stored amount options).
Proof.
  split.
  - intros q. unfold getBillingDisplayMeta. by destruct (getDisplayMeta _).
  - unfold isCurrencyDisplayEnabled, formatBillingCurrencyFromUSD, formatCurrencyFromUSD,
      getCurrencyDisplay. cbn [snd fst].
    destruct (absent amount); [done|]. intros He.
    rewrite billing_meta_currency by (by destruct (getDisplayMeta _)).
    by destruct (getDisplayMeta _).
Qed.

Lemma billing_format_agrees_witness :
  isCurrencyDisplayEnabled None = true
  /\ formatBillingCurrencyFromUSD (fun _ => num_to_str) None (Some (num_of_Z 3)) None
     = formatCurrencyFromUSD (fun _ => num_to_str) None (Some (num_of_Z 3)) None.
Proof.
  split; [reflexivity|].
  apply (billing_format_agrees (fun _ => num_to_str) None (Some (num_of_Z 3)) None). reflexivity.
Defined.

Definition threshold_of (digits : Z) (minimum : num) : num :=
  if ngt minimum zero then minimum else npow10 (- digits).

Lemma threshold_positive digits minimum :
  (0 <= digits <= 20)%Z -> ngt (threshold_of digits minimum) zero = true.
Proof.
  intros Hd. unfold threshold_of. destruct (ngt minimum zero) eqn:E; [done|].
  assert (exists n, (n <= 20) /\ digits = Z.of_nat n) as (n & Hn & ->)
    by (exists (Z.to_nat digits); lia).
  do 21 (destruct n as [|n]; [vm_compute; reflexivity|]). lia.
Qed.

(** A price that is not zero is never displayed below the smallest value the
    display can show: after [adjustForMinimum] its magnitude reaches the
    threshold, and a zero stays zero. *)
Theorem adjusted_reaches_threshold value digits minimum :
  (0 <= digits <= 20)%Z -> neq value zero = false ->
  nlt (nabs (adjustForMinimum value digits minimum)) (threshold_of digits minimum) = false
  /\ adjustForMinimum zero digits minimum = zero.
Proof.
  intros Hd Hv. split; [|done]. pose proof (threshold_positive digits minimum Hd) as Ht.
  unfold adjustForMinimum. rewrite Hv. fold (threshold_of digits minimum).
  destruct (ngt (nabs value) zero && nlt (nabs value) (threshold_of digits minimum)) eqn:E.
  - assert (nabs (threshold_of digits minimum) = threshold_of digits minimum) as Ha.
    { destruct (threshold_of digits minimum) as [s|s| |s m e]; try done; by destruct s. }
    destruct (ngt value zero); [|unfold nneg, nabs in *].
    + rewrite Ha. apply nlt_irrefl.
    + assert (SFabs (SFopp (threshold_of digits minimum)) = threshold_of digits minimum) as ->;
        [|apply nlt_irrefl].
      rewrite <- Ha at 2. by destruct (threshold_of digits minimum).
  - apply andb_false_iff in E as [E|E]; [|done].
    destruct value as [s|s| |s m e]; done.
Qed.

Lemma adjusted_reaches_threshold_witness :
  (0 <= 4 <= 20)%Z /\ neq (dec_to_num false 3 (-7)) zero = false
  /\ nlt (nabs (adjustForMinimum (dec_to_num false 3 (-7)) 4 zero)) (threshold_of 4 zero) = false.
Proof.
  split; [lia|]. split; [reflexivity|].
  apply (adjusted_reaches_threshold (dec_to_num false 3 (-7)) 4 zero); [lia|reflexivity].
Defined.

Lemma strip_zeros_app fp : exists k, fp = strip_zeros fp ++ replicate k 48%N.
Proof.
  unfold strip_zeros. assert (forall r, exists k, r = replicate k 48%N ++ dropb (N.eqb 48) r) as H.
  { induction r as [|c r [k IH]]; [by exists 0|]. cbn [dropb]. destruct (N.eqb_spec 48 c) as [<-|].
    - exists (S k). cbn [replicate app]. by f_equal.
    - by exists 0. }
  destruct (H (rev fp)) as [k Hk]. exists k. rewrite <- (rev_involutive fp) at 1.
  rewrite Hk at 1. rewrite rev_app_distr. f_equal. rewrite rev_alt. apply reverse_replicate.
Qed.

Lemma digits_val_app a b :
  digits_val (a ++ b) = (foldl (fun x c => x * 10 + (Z.of_N c - 48)) (digits_val a) b)%Z.
Proof. unfold digits_val. by rewrite foldl_app. Qed.

Lemma digits_val_zeros a k :
  (foldl (fun x c => x * 10 + (Z.of_N c - 48)) a (replicate k 48%N) = a * 10 ^ Z.of_nat k)%Z.
Proof.
  revert a. induction k as [|k IH]; intros a; [cbn; lia|]. cbn [replicate foldl]. rewrite IH.
  change (Z.of_N 48) with 48%Z. rewrite Nat2Z.inj_succ, Z.pow_succ_r; lia.
Qed.

Lemma strip_zeros_last fp : endsWith (strip_zeros fp) (js "0") = false.
Proof.
  unfold strip_zeros, endsWith, startsWith. rewrite rev_involutive. norm_js. cbn [rev app].
  destruct (dropb (N.eqb 48) (rev fp)) as [|c r] eqn:E; [done|]. cbn [strip_prefix].
  apply dropb_head in E. by rewrite E.
Qed.

Lemma drop_fraction_app ip t :
  ~ In 46%N ip -> drop_fraction_zeros (ip ++ t) = ip ++ drop_fraction_zeros t.
Proof.
  induction ip as [|c ip IH]; [done|]. intros Hn. cbn [app drop_fraction_zeros].
  destruct (N.eqb_spec c 46) as [->|]; [destruct Hn; by left|]. cbn [andb].
  rewrite IH; [done|]. intros ?. apply Hn. by right.
Qed.

Lemma drop_fraction_digits t : forallb is_digit t = true -> drop_fraction_zeros t = t.
Proof.
  induction t as [|c t IH]; [done|]. cbn [forallb drop_fraction_zeros].
  intros [Hc Ht]%andb_true_iff. destruct (N.eqb_spec c 46) as [->|]; [done|]. cbn [andb].
  by rewrite IH.
Qed.

Lemma strip_zeros_id fp : endsWith fp (js "0") = false -> strip_zeros fp = fp.
Proof.
  unfold endsWith, startsWith, strip_zeros. norm_js. cbn [rev app]. intros H.
  rewrite <- (rev_involutive fp) at 2. f_equal. destruct (rev fp) as [|c r]; [done|].
  cbn [strip_prefix dropb] in *. by destruct (48 =? c)%N.
Qed.

Lemma endsWith_snoc s c x : endsWith (s ++ [x]) [c] = (c =? x)%N.
Proof. unfold endsWith, startsWith. rewrite rev_unit. cbn. by destruct (c =? x)%N. Qed.

(** On the decimal texts [toFixed] produces, [removeTrailingZeros] drops the
    zeros at the end of the fraction, and the point when nothing is left of it;
    the number the digits denote is unchanged. *)
Theorem trailing_zeros_removed ip fp :
  ~ In 46%N ip -> forallb is_digit fp = true ->
  (exists k, fp = strip_zeros fp ++ replicate k 48%N
    /\ digits_val (ip ++ fp) = (digits_val (ip ++ strip_zeros fp) * 10 ^ Z.of_nat k)%Z)
  /\ endsWith (strip_zeros fp) (js "0") = false
  /\ removeTrailingZeros (ip ++ js "." ++ fp)
    = (if truthy (strip_zeros fp) then ip ++ js "." ++ strip_zeros fp else ip).
Proof.
  intros Hip Hfp. split; [|split; [apply strip_zeros_last|]].
  - destruct (strip_zeros_app fp) as [k Hk]. exists k. split; [done|].
    rewrite Hk at 1. by rewrite app_assoc, digits_val_app, digits_val_zeros.
  - assert (includes (ip ++ js "." ++ fp) (js ".") = true) as Hi
      by (apply includes_true; by exists ip, fp).
    unfold removeTrailingZeros. rewrite Hi, drop_fraction_app by done.
    assert (drop_fraction_zeros (js "." ++ fp) = js "." ++ strip_zeros fp) as ->.
    { change (js ".") with [46%N]. cbn [app drop_fraction_zeros]. rewrite Hfp. cbn [N.eqb Pos.eqb andb].
      destruct (endsWith fp (js "0")) eqn:E; [done|].
      by rewrite drop_fraction_digits, strip_zeros_id. }
    assert (forallb is_digit (strip_zeros fp) = true) as Hs.
    { destruct (strip_zeros_app fp) as [k Hk]. rewrite Hk, forallb_app in Hfp.
      by apply andb_true_iff in Hfp as [? _]. }
    unfold drop_final_point. destruct (strip_zeros fp) as [|c r] eqn:E.
    + norm_js. rewrite app_nil_r, endsWith_snoc. cbn [N.eqb Pos.eqb truthy].
      rewrite length_app. cbn [length]. replace (length ip + 1 - 1) with (length ip) by lia.
      apply take_app_length.
    + destruct (exists_last (l := c :: r)) as (u & x & Hu); [done|]. rewrite Hu in *.
      norm_js. rewrite !app_assoc, endsWith_snoc.
      rewrite forallb_app in Hs. apply andb_true_iff in Hs as [_ Hs]. cbn in Hs.
      destruct (N.eqb_spec 46 x) as [<-|]; [done|]. by destruct u.
Qed.

Lemma trailing_zeros_removed_witness :
  removeTrailingZeros (js "12" ++ js "." ++ js "3400") = js "12" ++ js "." ++ js "34".
Proof.
  destruct (trailing_zeros_removed (js "12") (js "3400")) as (_ & _ & H);
    [cbv; intuition discriminate|reflexivity|exact H].
Defined.
