(* ===== verification/Pricing.v ===== *)
(** * The pricing page

    Model of src/web/default/src/features/pricing/lib: price.ts (the price of a
    model for a group), dynamic-price.ts (the summary of a tiered price),
    filters.ts (filters, tags and order of the list) and model-helpers.ts.  The
    lower case and the order of strings depend on the locale data and are
    parameters, as is the number format of Currency.  An object used as a map
    is the list of its own keys. *)

From S2P Require Import Prelude JsStr JsRegex JsNum JsArray BillingExpr Currency.
From Stdlib Require Import Sorting.Permutation.

Local Open Scope regex_scope.
Local Open Scope js_scope.

(** [None] is a missing field. *)
Record PricingModel := mkPM {
  model_name : option jsstr;
  description : option jsstr;
  vendor_name : option jsstr;
  quota_type : Z;
  model_ratio : num;
  completion_ratio : num;
  model_price : option num;
  cache_ratio : option num;
  create_cache_ratio : option num;
  image_ratio : option num;
  audio_ratio : option num;
  audio_completion_ratio : option num;
  enable_groups : option (list jsstr);
  tags : option jsstr;
  supported_endpoint_types : option (list jsstr);
  group_ratio : option (list (jsstr * num));
  billing_mode : option jsstr;
  billing_expr : option jsstr
}.

Definition QUOTA_TOKEN : Z := 0.
Definition QUOTA_REQUEST : Z := 1.

Inductive TokenUnit := UnitM | UnitK.
Definition TOKEN_UNIT_DIVISORS (u : TokenUnit) : num :=
  match u with UnitM => num_of_Z 1 | UnitK => num_of_Z 1000 end.

Inductive PriceType := PInput | POutput | PCache | PCreateCache | PImagePrice | PAudioInput | PAudioOutput.

(** ** price.ts *)

Definition PRICE_REGEX : regex :=
  RBol +> RGroup 1 (RStar (RChar (fun c => negb (is_digit c || (c =? 45)%N))))
  +> RGroup 2 (RPlus (RChar (fun c => is_digit c || (c =? 45)%N || (c =? 44)%N)) +> ROpt (RStr (js "."))
               +> RStar (RChar is_digit))
  +> RGroup 3 (ROpt (RStr (js "k"))) +> REol.

(** [s.replace(/\.?0+$/, '')]: the zeros at the end, with a point before them. *)
Definition drop_trailing (s : jsstr) : jsstr :=
  if endsWith s (js "0") then
    let t := strip_zeros s in
    match rev t with c :: u => if (c =? 46)%N then rev u else t | [] => t end
  else s.

Definition stripTrailingZeros (formatted : jsstr) : jsstr :=
  match rexec PRICE_REGEX formatted with
  | None => formatted
  | Some m =>
      let symbol := default [] (group m 1) in
      let suffix := default [] (group m 3) in
      let cleanNumber := List.filter (fun c => negb (c =? 44)%N) (default [] (group m 2)) in
      let parsed := parseFloat cleanNumber in
      if isNaN parsed then formatted
      else
        let result := num_to_str parsed in
        let result := if includes result (js "e") then drop_trailing (toFixed parsed 20) else result in
        symbol ++ result ++ suffix
  end.

(** The loop over the groups, from the smallest ratio so far. *)
Definition min_ratio_step (ratios : list (jsstr * num)) (acc : num) (group : jsstr) : num :=
  match mget group ratios with
  | Some ratio => if nlt ratio acc then ratio else acc
  | None => acc
  end.

Definition getMinGroupRatio (groups : list jsstr) (ratios : list (jsstr * num)) : num :=
  match groups with
  | [] => num_of_Z 1
  | _ =>
      let m := foldl (min_ratio_step ratios) inf groups in
      if neq m inf then num_of_Z 1 else m
  end.

Definition getEffectiveGroupRatio (groups : list jsstr) (ratios : list (jsstr * num))
    (selectedGroup : option jsstr) : num :=
  match (if truthy (default [] selectedGroup) then mget (default [] selectedGroup) ratios else None) with
  | Some r => r
  | None => getMinGroupRatio groups ratios
  end.

Definition hasRatio (v : option num) : bool := match v with Some x => isFinite x | None => false end.

Definition calculateTokenPrice (model : PricingModel) (type : PriceType) (ratio : num) : num :=
  let base := nmul (nmul (model_ratio model) (num_of_Z 2)) ratio in
  let times (v : option num) (b : num) := if hasRatio v then nmul b (default nan v) else nan in
  match type with
  | PInput => base
  | POutput => nmul base (completion_ratio model)
  | PCache => times (cache_ratio model) base
  | PCreateCache => times (create_cache_ratio model) base
  | PImagePrice => times (image_ratio model) base
  | PAudioInput => times (audio_ratio model) base
  | PAudioOutput =>
      if hasRatio (audio_ratio model) && hasRatio (audio_completion_ratio model)
      then nmul (nmul base (default nan (audio_ratio model))) (default nan (audio_completion_ratio model))
      else nan
  end.

Definition applyRechargeRate (price : num) (showWithRecharge : bool) (priceRate usdExchangeRate : num) : num :=
  if negb showWithRecharge then price else ndiv (nmul price priceRate) usdExchangeRate.

Definition price_options (large small : Z) : CurrencyFormatOptions :=
  mkCFO (Some large) (Some small) (Some false) None None None.

Section Prices.
(** The number format and the stored currency configuration. *)
Variables (intl : IntlOptions -> num -> jsstr) (stored : option PartialCurrency).
(** The three arguments that have defaults in the source. *)
Variables (showWithRecharge : bool) (priceRate usdExchangeRate : num).

(** The amount [formatPrice] and [formatGroupPrice] format. *)
Definition token_amount (model : PricingModel) (type : PriceType) (unit : TokenUnit) (ratio : num) : num :=
  ndiv (applyRechargeRate (calculateTokenPrice model type ratio) showWithRecharge priceRate usdExchangeRate)
       (TOKEN_UNIT_DIVISORS unit).

Definition formatPrice (model : PricingModel) (type : PriceType) (unit : TokenUnit)
    (selectedGroup : option jsstr) : jsstr :=
  if (quota_type model =? QUOTA_REQUEST)%Z then js "-"
  else
    let ratio := getEffectiveGroupRatio (default [] (enable_groups model)) (default [] (group_ratio model))
                   selectedGroup in
    formatCurrencyFromUSD intl stored (Some (token_amount model type unit ratio)) (Some (price_options 4 6)).

(** [groupRatio[group] || 1]. *)
Definition ratio_or_one (ratios : list (jsstr * num)) (group : jsstr) : num :=
  num_or (default nan (mget group ratios)) (num_of_Z 1).

Definition formatGroupPrice (model : PricingModel) (group : jsstr) (type : PriceType) (unit : TokenUnit)
    (groupRatio : list (jsstr * num)) : jsstr :=
  if (quota_type model =? QUOTA_REQUEST)%Z then js "-"
  else formatCurrencyFromUSD intl stored (Some (token_amount model type unit (ratio_or_one groupRatio group)))
         (Some (price_options 4 6)).

Definition request_amount (model : PricingModel) (ratio : num) : num :=
  applyRechargeRate (nmul (num_or (default nan (model_price model)) zero) ratio)
    showWithRecharge priceRate usdExchangeRate.

Definition formatFixedPrice (model : PricingModel) (group : jsstr) (groupRatio : list (jsstr * num)) : jsstr :=
  if negb (quota_type model =? QUOTA_REQUEST)%Z then js "-"
  else formatCurrencyFromUSD intl stored (Some (request_amount model (ratio_or_one groupRatio group)))
         (Some (price_options 4 4)).

Definition formatRequestPrice (model : PricingModel) (selectedGroup : option jsstr) : jsstr :=
  if negb (quota_type model =? QUOTA_REQUEST)%Z then js "-"
  else
    let ratio := getEffectiveGroupRatio (default [] (enable_groups model)) (default [] (group_ratio model))
                   selectedGroup in
    formatCurrencyFromUSD intl stored (Some (request_amount model ratio)) (Some (price_options 4 4)).
End Prices.

(** ** dynamic-price.ts *)

Definition PRIMARY_DYNAMIC_FIELDS : list jsstr := [js "inputPrice"; js "outputPrice"].

Definition isDynamicPricingModel (model : PricingModel) : bool :=
  bool_decide (billing_mode model = Some (js "tiered_expr")) && truthy (default [] (billing_expr model)).

Definition getDynamicDisplayGroupRatio (model : PricingModel) (selectedGroup : option jsstr) : num :=
  let groups := default [] (enable_groups model) in
  let ratios := default [] (group_ratio model) in
  match (if truthy (default [] selectedGroup) then mget (default [] selectedGroup) ratios else None) with
  | Some r => r
  | None =>
      match groups with
      | [] => num_of_Z 1
      | _ =>
          let m := foldl (min_ratio_step ratios) inf groups in
          if neq m inf then num_of_Z 1 else m
      end
  end.

Record DynamicPriceOptions := mkDPO {
  dp_tokenUnit : TokenUnit;
  dp_showRechargePrice : option bool;
  dp_priceRate : option num;
  dp_usdExchangeRate : option num;
  dp_groupRatioMultiplier : option num
}.

Record DynamicPriceEntry := mkEntry {
  de_field : jsstr;
  de_value : num;
  de_formatted : jsstr;
  de_variable : BillingVar
}.

Record DynamicPricingSummary := mkDPS {
  ds_tiers : list ParsedTier;
  ds_tier : option ParsedTier;
  ds_hasRequestRules : bool;
  ds_isSpecialExpression : bool;
  ds_rawExpression : jsstr;
  ds_entries : list DynamicPriceEntry;
  ds_primaryEntries : list DynamicPriceEntry;
  ds_secondaryEntries : list DynamicPriceEntry
}.

Definition is_primary (e : DynamicPriceEntry) : bool := existsb (str_eqb (de_field e)) PRIMARY_DYNAMIC_FIELDS.

Definition entry_cmp (a b : DynamicPriceEntry) : Z :=
  if Bool.eqb (is_primary a) (is_primary b) then 0%Z else if is_primary a then (-1)%Z else 1%Z.

Section Dynamic.
Variables (intl : IntlOptions -> num -> jsstr) (stored : option PartialCurrency).

Definition formatDynamicUnitPrice (valuePerMillionTokens : num) (o : DynamicPriceOptions) : jsstr :=
  let groupRatio := default (num_of_Z 1) (dp_groupRatioMultiplier o) in
  let priceUSD := ndiv (nmul valuePerMillionTokens groupRatio) (TOKEN_UNIT_DIVISORS (dp_tokenUnit o)) in
  let displayPrice := applyRechargeRate priceUSD (default false (dp_showRechargePrice o))
    (default (num_of_Z 1) (dp_priceRate o)) (default (num_of_Z 1) (dp_usdExchangeRate o)) in
  formatBillingCurrencyFromUSD intl stored (Some displayPrice) (Some (price_options 4 6)).

Definition getDynamicPricingTiers (model : PricingModel) : outcome (list ParsedTier) :=
  if negb (isDynamicPricingModel model) then Returns []
  else
    let! r := splitBillingExprAndRequestRules (default [] (billing_expr model)) in
    Returns (parseTiersFromExpr r.1).

Definition hasDynamicRequestRules (model : PricingModel) : outcome bool :=
  if negb (isDynamicPricingModel model) then Returns false
  else
    let! r := splitBillingExprAndRequestRules (default [] (billing_expr model)) in
    let! rules := tryParseRequestRuleExpr r.2 in
    Returns (match rules with Some (_ :: _) => true | _ => false end).

(** [Number(tier[field])]: NaN for a missing field. *)
Definition tier_value (tier : ParsedTier) (field : jsstr) : num := default nan (assoc field (pt_fields tier)).

Definition price_entry (tier : ParsedTier) (o : DynamicPriceOptions) (v : BillingVar) : option DynamicPriceEntry :=
  match bv_field v with
  | None | Some [] => None
  | Some field =>
      let value := tier_value tier field in
      if negb (isFinite value) || nle value zero then None
      else Some (mkEntry field value (formatDynamicUnitPrice value o) v)
  end.

Definition getDynamicPriceEntries (tier : option ParsedTier) (o : DynamicPriceOptions) : list DynamicPriceEntry :=
  match tier with
  | None => []
  | Some tier => isort (fun a b => (entry_cmp a b <=? 0)%Z) (omap (price_entry tier o) BILLING_PRICING_VARS)
  end.

Definition getDynamicPricingSummary (model : PricingModel) (o : DynamicPriceOptions)
    : outcome (option DynamicPricingSummary) :=
  if negb (isDynamicPricingModel model) then Returns None
  else
    let! tiers := getDynamicPricingTiers model in
    let tier := head tiers in
    let entries := getDynamicPriceEntries tier o in
    let raw := default [] (billing_expr model) in
    let! rules := hasDynamicRequestRules model in
    Returns (Some (mkDPS tiers tier rules
      (Nat.ltb 0 (length (trim raw)) && match tiers with [] => true | _ => false end)
      raw entries (List.filter is_primary entries) (List.filter (fun e => negb (is_primary e)) entries))).
End Dynamic.

(** ** filters.ts *)

Definition FILTER_ALL := js "all".

Section Filters.
(** [s.toLowerCase()] and [a.localeCompare(b)]. *)
Variables (lower : jsstr -> jsstr) (lc : jsstr -> jsstr -> Z).

Definition has_text (q : jsstr) (s : option jsstr) : bool :=
  match s with Some s => includes (lower s) q | None => false end.

Definition filterBySearch (models : list PricingModel) (query : jsstr) : list PricingModel :=
  if negb (truthy query) then models
  else
    let q := lower query in
    List.filter (fun m => has_text q (model_name m) || has_text q (description m) || has_text q (tags m)
                          || has_text q (vendor_name m)) models.

Definition filterByVendor (models : list PricingModel) (vendor : jsstr) : list PricingModel :=
  if str_eqb vendor FILTER_ALL then models
  else List.filter (fun m => bool_decide (vendor_name m = Some vendor)) models.

Definition includes_item (x : jsstr) (l : option (list jsstr)) : bool :=
  match l with Some l => existsb (str_eqb x) l | None => false end.

Definition filterByGroup (models : list PricingModel) (group : jsstr) : list PricingModel :=
  if str_eqb group FILTER_ALL then models
  else List.filter (fun m => includes_item group (enable_groups m)) models.

Definition filterByQuotaType (models : list PricingModel) (quotaType : jsstr) : list PricingModel :=
  if str_eqb quotaType FILTER_ALL then models
  else
    let target := if str_eqb quotaType (js "token") then QUOTA_TOKEN else QUOTA_REQUEST in
    List.filter (fun m => (quota_type m =? target)%Z) models.

Definition filterByEndpointType (models : list PricingModel) (endpointType : jsstr) : list PricingModel :=
  if str_eqb endpointType FILTER_ALL then models
  else List.filter (fun m => includes_item endpointType (supported_endpoint_types m)) models.

Definition getModelPrice (m : PricingModel) : num :=
  if (quota_type m =? 0)%Z then model_ratio m else num_or (default nan (model_price m)) zero.

Definition sortModels (models : list PricingModel) (sortBy : jsstr) : list PricingModel :=
  if str_eqb sortBy (js "name") then
    isort (fun a b => (lc (default [] (model_name a)) (default [] (model_name b)) <=? 0)%Z) models
  else if str_eqb sortBy (js "price-low") then
    sort_with (fun a b => nsub (getModelPrice a) (getModelPrice b)) models
  else if str_eqb sortBy (js "price-high") then
    sort_with (fun a b => nsub (getModelPrice b) (getModelPrice a)) models
  else models.

(** [/[,;|\s]+/]. *)
Definition tag_sep (c : jschar) : bool := ((c =? 44) || (c =? 59) || (c =? 124))%N || is_space c.
Definition TAG_REGEX : regex := RPlus (RChar tag_sep).

Definition parseTags (tagsString : option jsstr) : list jsstr :=
  match tagsString with
  | None | Some [] => []
  | Some s => List.filter truthy (map trim (rsplit TAG_REGEX s))
  end.

Definition extractAllTags (models : list PricingModel) : list jsstr :=
  isort (fun a b => (lc a b <=? 0)%Z)
    (foldl (fun s m => foldl (fun s tag => sadd (lower tag) s) s (parseTags (tags m))) [] models).

Definition has_tag (tagLower : jsstr) (m : PricingModel) : bool :=
  existsb (str_eqb tagLower) (map lower (parseTags (tags m))).

Definition filterByTag (models : list PricingModel) (tag : jsstr) : list PricingModel :=
  if str_eqb tag FILTER_ALL then models
  else List.filter (has_tag (lower tag)) models.

Record ModelFilters := mkFilters {
  mf_search : jsstr; mf_vendor : jsstr; mf_group : jsstr; mf_quotaType : jsstr;
  mf_endpointType : jsstr; mf_tag : jsstr; mf_sortBy : jsstr
}.

Definition filterAndSortModels (models : list PricingModel) (f : ModelFilters) : list PricingModel :=
  let result := filterBySearch models (mf_search f) in
  let result := filterByVendor result (mf_vendor f) in
  let result := filterByGroup result (mf_group f) in
  let result := filterByQuotaType result (mf_quotaType f) in
  let result := filterByEndpointType result (mf_endpointType f) in
  let result := filterByTag result (mf_tag f) in
  sortModels result (mf_sortBy f).
End Filters.

(** ** model-helpers.ts *)

Definition EXCLUDED_GROUPS : list jsstr := [[]; js "auto"].

(** [usableGroup] by its keys. *)
Definition getAvailableGroups (model : PricingModel) (usableGroup : list jsstr) : list jsstr :=
  List.filter (fun g => existsb (str_eqb g) (default [] (enable_groups model)))
    (List.filter (fun g => negb (existsb (str_eqb g) EXCLUDED_GROUPS)) usableGroup).

Definition isTokenBasedModel (model : PricingModel) : bool := (quota_type model =? QUOTA_TOKEN)%Z.
