(* ===== verification/PricingProps.v ===== *)
(** * The pricing page: the properties

    The list shows exactly the models that pass every filter, the ratio of a
    price is the lowest of the enabled groups, and the entries of a dynamic
    price are the positive prices of its first tier, base prices first. *)

From S2P Require Import Prelude JsStr JsRegex JsNum JsArray BillingExpr BillingProps Currency Pricing.
From Stdlib Require Import Sorting.Permutation.

(** ** The list of models *)

Section List.
Variables (lower : jsstr -> jsstr) (lc : jsstr -> jsstr -> Z).

(** What a model has to satisfy to be listed. *)
Definition listed (f : ModelFilters) (m : PricingModel) : bool :=
  (negb (truthy (mf_search f))
   || existsb (fun s => match s with Some s => includes (lower s) (lower (mf_search f)) | None => false end)
        [model_name m; description m; tags m; vendor_name m])
  && (str_eqb (mf_vendor f) FILTER_ALL || bool_decide (vendor_name m = Some (mf_vendor f)))
  && (str_eqb (mf_group f) FILTER_ALL || existsb (str_eqb (mf_group f)) (default [] (enable_groups m)))
  && (str_eqb (mf_quotaType f) FILTER_ALL
      || (quota_type m =? if str_eqb (mf_quotaType f) (js "token") then 0 else 1)%Z)
  && (str_eqb (mf_endpointType f) FILTER_ALL
      || existsb (str_eqb (mf_endpointType f)) (default [] (supported_endpoint_types m)))
  && (str_eqb (mf_tag f) FILTER_ALL || existsb (str_eqb (lower (mf_tag f))) (map lower (parseTags (tags m)))).

Lemma filter_or {A} (b : bool) (p : A -> bool) (l : list A) :
  (if b then l else List.filter p l) = List.filter (fun x => b || p x) l.
Proof. destruct b; [|done]. symmetry. apply filter_all. by apply forallb_forall. Qed.

Lemma filter_and {A} (p q : A -> bool) (l : list A) :
  List.filter q (List.filter p l) = List.filter (fun x => p x && q x) l.
Proof.
  induction l as [|x l IH]; [done|]. cbn [List.filter]. destruct (p x); cbn [List.filter andb]; [|done].
  destruct (q x); by rewrite IH.
Qed.

Lemma sortModels_perm ms by_ : Permutation (sortModels lc ms by_) ms.
Proof.
  unfold sortModels. destruct (str_eqb by_ (js "name")); [symmetry; apply isort_perm|].
  destruct (str_eqb by_ (js "price-low")); [symmetry; apply sort_with_perm|].
  destruct (str_eqb by_ (js "price-high")); [symmetry; apply sort_with_perm|done].
Qed.

Lemma includes_item_default x l : includes_item x l = existsb (str_eqb x) (default [] l).
Proof. by destruct l. Qed.

(** The pricing page lists every model that passes all six filters, as
    often as it occurs, and no other, whatever the order chosen. *)
Theorem models_listed_exactly ms f :
  Permutation (filterAndSortModels lower lc ms f) (List.filter (listed f) ms).
Proof.
  unfold filterAndSortModels. cbv zeta. rewrite sortModels_perm.
  unfold filterByTag, filterByEndpointType, filterByQuotaType, filterByGroup, filterByVendor, filterBySearch.
  cbv zeta. rewrite !filter_or, !filter_and. erewrite filter_ext; [reflexivity|]. intros m. unfold listed.
  rewrite !includes_item_default. unfold has_text, has_tag, QUOTA_TOKEN, QUOTA_REQUEST. cbn [existsb].
  by rewrite orb_false_r, !orb_assoc, !andb_assoc.
Qed.
End List.

(** ** The ratio of a price *)

Lemma nlt_trans x y z : nlt x y = true -> nlt y z = true -> nlt x z = true.
Proof.
  unfold nlt, SFltb.
  destruct x as [s1|[]| |[] m1 e1], y as [s2|[]| |[] m2 e2], z as [s3|[]| |[] m3 e3]; cbn; try done;
  change (Pos.compare_cont Eq ?a ?b) with (Pos.compare a b);
  repeat match goal with
  | |- context [Z.compare ?a ?b] => destruct (Z.compare_spec a b)
  | |- context [Pos.compare ?a ?b] => destruct (Pos.compare_spec a b)
  end; cbn; intros; subst; try done; lia.
Qed.

Section MinRatio.
Variable ratios : list (jsstr * num).

(** After some groups, the ratio kept is infinite or of one of them, and none
    of them has a smaller one. *)
Definition lowest (groups : list jsstr) (acc : num) : Prop :=
  (acc = inf \/ exists g, In g groups /\ mget g ratios = Some acc)
  /\ forall g x, In g groups -> mget g ratios = Some x -> nlt x acc = false.

Lemma lowest_step groups acc g : lowest groups acc -> lowest (groups ++ [g]) (min_ratio_step ratios acc g).
Proof.
  intros [Hacc Hmin]. unfold min_ratio_step. destruct (mget g ratios) as [r|] eqn:Eg.
  - destruct (nlt r acc) eqn:El.
    + split; [right; exists g; split; [apply in_or_app; right; by left|done]|].
      intros h x [Hh|[<-|[]]]%in_app_or Hx.
      * destruct (nlt x r) eqn:E; [|done]. by rewrite <- (Hmin h x Hh Hx), (nlt_trans x r acc).
      * rewrite Eg in Hx. injection Hx as <-. apply nlt_irrefl.
    + split; [destruct Hacc as [?|(h & Hh & Hx)]; [by left|right; exists h; split; [apply in_or_app; by left|done]]|].
      intros h x [Hh|[<-|[]]]%in_app_or Hx; [by eapply Hmin|]. rewrite Eg in Hx. by injection Hx as <-.
  - split; [destruct Hacc as [?|(h & Hh & Hx)]; [by left|right; exists h; split; [apply in_or_app; by left|done]]|].
    intros h x [Hh|[<-|[]]]%in_app_or Hx; [by eapply Hmin|congruence].
Qed.

Lemma lowest_all groups : lowest groups (foldl (min_ratio_step ratios) inf groups).
Proof.
  assert (forall l pre acc, lowest pre acc -> lowest (pre ++ l) (foldl (min_ratio_step ratios) acc l)) as H.
  { induction l as [|g l IH]; intros pre acc Hl; [by rewrite app_nil_r|]. cbn [foldl].
    change (g :: l) with ([g] ++ l). rewrite app_assoc. by apply IH, lowest_step. }
  apply (H groups [] inf). split; [by left|done].
Qed.

Lemma below_one x : nlt x inf = false -> nlt x (num_of_Z 1) = false.
Proof. by destruct x as [[]|[]| |[] m e]. Qed.

Lemma neq_inf x : neq x inf = true -> x = inf.
Proof. by destruct x as [[]|[]| |[] m e]. Qed.

Lemma min_ratio_spec groups :
  let r := getMinGroupRatio groups ratios in
  (r = num_of_Z 1 \/ exists g, In g groups /\ mget g ratios = Some r)
  /\ forall g x, In g groups -> mget g ratios = Some x -> nlt x r = false.
Proof.
  cbv zeta. unfold getMinGroupRatio. destruct groups as [|g0 gs]; [split; [by left|done]|].
  set (groups := g0 :: gs). destruct (lowest_all groups) as [Hacc Hmin].
  destruct (neq _ inf) eqn:E.
  - apply neq_inf in E. rewrite E in Hmin. split; [by left|]. intros g x Hg Hx. by apply below_one, (Hmin g).
  - split; [|exact Hmin]. destruct Hacc as [Hi|?]; [|by right]. by rewrite Hi in E.
Qed.
End MinRatio.

(** Without a chosen group a price is shown at the lowest ratio: the ratio
    in effect belongs to one of the enabled groups (or is 1 when none of them has
    a finite ratio), and no enabled group has a smaller one; a chosen group with
    a ratio is shown at its own. The tiered prices use the same ratio. *)
Theorem lowest_group_ratio model sel :
  let groups := default [] (enable_groups model) in
  let ratios := default [] (group_ratio model) in
  let r := getEffectiveGroupRatio groups ratios sel in
  getDynamicDisplayGroupRatio model sel = r
  /\ match sel with
     | Some ((_ :: _) as g) => (forall x, mget g ratios = Some x -> r = x)
     | _ => (r = num_of_Z 1 \/ exists g, In g groups /\ mget g ratios = Some r)
            /\ forall g x, In g groups -> mget g ratios = Some x -> nlt x r = false
     end.
Proof.
  cbv zeta. split; [done|]. destruct sel as [[|c s]|]; [apply min_ratio_spec| |apply min_ratio_spec].
  intros x Hx. unfold getEffectiveGroupRatio. cbn [default from_option id truthy]. by rewrite Hx.
Qed.

(** A group whose ratio is zero is listed at the full price: the group
    table takes a zero ratio for a missing one and formats the price of ratio 1,
    where the price of the chosen group is computed with ratio zero. *)
Theorem free_group_at_full_price intl stored sw pr ur model g type unit ratios groups :
  truthy g = true -> mget g ratios = Some zero ->
  formatGroupPrice intl stored sw pr ur model g type unit ratios
    = formatGroupPrice intl stored sw pr ur model g type unit (mset g (num_of_Z 1) ratios)
  /\ formatFixedPrice intl stored sw pr ur model g ratios
    = formatFixedPrice intl stored sw pr ur model g (mset g (num_of_Z 1) ratios)
  /\ getEffectiveGroupRatio groups ratios (Some g) = zero.
Proof.
  intros Hg Hz. unfold formatGroupPrice, formatFixedPrice, ratio_or_one, getEffectiveGroupRatio.
  rewrite mget_mset. cbn [default from_option id]. rewrite Hg, Hz. done.
Qed.

Lemma free_group_at_full_price_witness :
  let ratios := [(js "free", zero); (js "vip", num_of_Z 2)] in
  getEffectiveGroupRatio [js "vip"; js "free"] ratios (Some (js "free")) = zero
  /\ ratio_or_one ratios (js "free") = num_of_Z 1.
Proof.
  intros ratios. split; [|reflexivity].
  apply (free_group_at_full_price (fun _ _ => []) None false (num_of_Z 1) (num_of_Z 1)
    (mkPM None None None 0 (num_of_Z 1) (num_of_Z 1) None None None None None None None None None None None None)
    (js "free") PInput UnitM ratios [js "vip"; js "free"]); reflexivity.
Defined.

(** ** The entries of a dynamic price *)

Definition entry_le (a b : DynamicPriceEntry) : bool := (entry_cmp a b <=? 0)%Z.

Lemma insert_primary x l : is_primary x = true -> insert_sorted entry_le x l = x :: l.
Proof.
  intros Hx. destruct l as [|y l]; [done|]. cbn [insert_sorted]. unfold entry_le, entry_cmp. rewrite Hx.
  by destruct (is_primary y).
Qed.

Lemma insert_secondary x p s :
  is_primary x = false -> forallb is_primary p = true -> forallb (fun e => negb (is_primary e)) s = true ->
  insert_sorted entry_le x (p ++ s) = p ++ x :: s.
Proof.
  intros Hx Hp Hs. induction p as [|y p IH]; cbn [app forallb] in *.
  - destruct s as [|y s]; [done|]. cbn [insert_sorted forallb] in *. apply andb_true_iff in Hs as [Hy _].
    unfold entry_le, entry_cmp. rewrite Hx. by destruct (is_primary y).
  - apply andb_true_iff in Hp as [Hy Hp]. cbn [insert_sorted]. unfold entry_le at 1, entry_cmp. rewrite Hx, Hy. cbn.
    by rewrite IH.
Qed.

(** Sorting the entries moves the base prices to the front and keeps the rest. *)
Lemma entries_partition l :
  isort entry_le l = List.filter is_primary l ++ List.filter (fun e => negb (is_primary e)) l.
Proof.
  induction l as [|x l IH]; [done|]. cbn [isort List.filter]. rewrite IH. destruct (is_primary x) eqn:Ex; cbn [negb].
  - by rewrite insert_primary.
  - apply insert_secondary; [done| |]; apply forallb_forall; intros y Hy; apply filter_In in Hy as [_ Hy]; exact Hy.
Qed.

Lemma filter_idem {A} (p : A -> bool) l : List.filter p (List.filter p l) = List.filter p l.
Proof. rewrite filter_and. apply filter_ext. intros x. by destruct (p x). Qed.

Lemma filter_disjoint {A} (p q : A -> bool) l : (forall x, p x && q x = false) -> List.filter q (List.filter p l) = [].
Proof. intros H. rewrite filter_and. induction l as [|x l IH]; [done|]. cbn [List.filter]. rewrite H. exact IH. Qed.

Lemma pricing_fields :
  forallb (fun v => match bv_field v with Some [] => false | _ => true end) BILLING_PRICING_VARS = true.
Proof. vm_compute. reflexivity. Qed.

Section Entries.
Variables (intl : IntlOptions -> num -> jsstr) (stored : option PartialCurrency).

Lemma entry_positive tier o v e :
  price_entry intl stored tier o v = Some e ->
  bv_field v = Some (de_field e) /\ de_value e = tier_value tier (de_field e)
  /\ isFinite (de_value e) = true /\ ngt (de_value e) zero = true.
Proof.
  unfold price_entry. destruct (bv_field v) as [[|c f]|]; [done| |done]. cbv zeta.
  destruct (isFinite _) eqn:Ef; [|done]. cbn [negb orb]. destruct (nle _ zero) eqn:El; [done|].
  intros [= <-]. cbn [de_field de_value]. repeat split; [done|].
  destruct (tier_value tier (c :: f)) as [[]|[]| |[] m x]; done.
Qed.

Lemma entries_in tier o e :
  In e (getDynamicPriceEntries intl stored (Some tier) o)
  <-> exists v, In v BILLING_PRICING_VARS /\ price_entry intl stored tier o v = Some e.
Proof.
  cbn [getDynamicPriceEntries]. rewrite isort_In. rewrite <- list_elem_of_In, list_elem_of_omap.
  split; intros (v & Hv & He); exists v; by rewrite list_elem_of_In in *.
Qed.

(** The summary of a tiered price shows the prices of the first tier: its
    entries are exactly the finite positive prices of the tier's pricing
    variables, and they are the base prices, in order, followed by the others,
    which is how they are split into primary and secondary ones. *)
Theorem summary_entries model o s :
  getDynamicPricingSummary intl stored model o = Returns (Some s) ->
  ds_entries s = ds_primaryEntries s ++ ds_secondaryEntries s
  /\ Forall (fun e => isFinite (de_value e) = true /\ ngt (de_value e) zero = true) (ds_entries s)
  /\ forall tier v f, ds_tier s = Some tier -> In v BILLING_PRICING_VARS -> bv_field v = Some f ->
       isFinite (tier_value tier f) = true -> ngt (tier_value tier f) zero = true ->
       exists e, In e (ds_entries s) /\ de_field e = f /\ de_value e = tier_value tier f.
Proof.
  unfold getDynamicPricingSummary. destruct (isDynamicPricingModel model); [|done]. cbn [negb].
  destruct (getDynamicPricingTiers model) as [tiers|]; [|done]. cbn [obind].
  destruct (hasDynamicRequestRules model) as [rules|]; [|done]. cbn [obind]. intros [= <-].
  cbn [ds_entries ds_primaryEntries ds_secondaryEntries ds_tier]. destruct (head tiers) as [tier|] eqn:Et.
  2:{ split; [done|]. split; [constructor|done]. }
  split; [|split].
  - cbn [getDynamicPriceEntries]. fold entry_le. rewrite entries_partition, !List.filter_app, !filter_idem.
    rewrite !filter_disjoint by (intros x; by destruct (is_primary x)). by rewrite app_nil_r.
  - apply Forall_forall. intros e He. apply list_elem_of_In, entries_in in He as (v & _ & He).
    by apply entry_positive in He as (_ & _ & ? & ?).
  - intros tier' v f [= <-] Hv Hf Hfin Hpos. exists (mkEntry f (tier_value tier f)
      (formatDynamicUnitPrice intl stored (tier_value tier f) o) v). split; [|done]. apply entries_in. exists v.
    split; [done|]. unfold price_entry. rewrite Hf. destruct f as [|c f].
    + exfalso. pose proof pricing_fields as H. rewrite forallb_forall in H. specialize (H v Hv). by rewrite Hf in H.
    + cbv zeta. rewrite Hfin. cbn [negb orb]. by rewrite (nlt_nle_false _ _ Hpos).
Qed.
End Entries.

Definition tiered_model : PricingModel :=
  mkPM (Some (js "m")) None None 0 (num_of_Z 1) (num_of_Z 1) None None None None None None
    (Some [js "default"]) None None None (Some (js "tiered_expr"))
    (Some (js "tier(" ++ dq ++ js "base" ++ dq ++ js ", p * 2.5 + c * 15 + cr * 0.25)")).
Definition plain_options := mkDPO UnitM None None None None.

Lemma summary_entries_witness :
  exists s, getDynamicPricingSummary (fun _ x => num_to_str x) None tiered_model plain_options = Returns (Some s)
    /\ length (ds_entries s) = 3 /\ ds_entries s = ds_primaryEntries s ++ ds_secondaryEntries s.
Proof.
  eexists. split; [vm_compute; reflexivity|]. split; [reflexivity|].
  eapply (summary_entries (fun _ x => num_to_str x) None tiered_model plain_options). vm_compute. reflexivity.
Defined.

(** A billing expression with a string literal that is no JSON makes the
    summary of the model throw. *)
Example bad_escape_breaks_summary :
  getDynamicPricingSummary (fun _ x => num_to_str x) None
    (mkPM None None None 0 (num_of_Z 1) (num_of_Z 1) None None None None None None None None None None
       (Some (js "tiered_expr")) (Some (js "(p * 1 + c * 1) * " ++ bad_escape_rule))) plain_options
  = Throws (js "SyntaxError").
Proof. vm_compute. reflexivity. Qed.
