(* ===== verification/HttpStatus.v ===== *)
(** * Status code rules

    Model of src/web/default/src/lib/http-status-code-rules.ts: lists of status
    codes and ranges such as 400,404-410, parsed, merged into disjoint ranges
    and printed back in a normal form. *)

From S2P Require Import Prelude JsStr JsNum JsArray.
From Stdlib Require Import Sorting.Permutation Sorting.Sorted.

Local Open Scope Z_scope.

Record StatusCodeRange := mkRange { start : Z; end_ : Z }.

Record ParsedHttpStatusCodeRules := mkParsed {
  ok : bool;
  ranges : list StatusCodeRange;
  tokens : list jsstr;
  normalized : jsstr;
  invalidTokens : list jsstr
}.

Definition isNumber (s : jsstr) : bool := truthy s && forallb is_digit s.

Definition isValidCode (code : Z) : bool := (100 <=? code) && (code <=? 599).

(** [Number.parseInt] on a run of digits; a value beyond the exact integers
    of a number is refused by [isValidCode] either way. *)
Definition parseCode (s : jsstr) : Z := digits_val s.

Definition parseToken (token : jsstr) : option StatusCodeRange :=
  let cleaned := List.filter (fun c => negb (is_space c)) (trim token) in
  if negb (truthy cleaned) then None
  else if includes cleaned (js "-") then
    match split_char 45%N cleaned with
    | a :: b :: _ =>
        if negb (isNumber a) || negb (isNumber b) then None
        else
          let s := parseCode a in
          let e := parseCode b in
          if negb (isValidCode s) || negb (isValidCode e) || (e <? s) then None
          else Some (mkRange s e)
    | _ => None
    end
  else if negb (isNumber cleaned) then None
  else
    let code := parseCode cleaned in
    if negb (isValidCode code) then None else Some (mkRange code code).

(** The comparator: by start, then by end. *)
Definition range_le (a b : StatusCodeRange) : bool :=
  (if negb (start a =? start b) then start a - start b else end_ a - end_ b) <=? 0.

(** One step of the reduction: the last range is extended in place. *)
Definition merge_step (merged : list StatusCodeRange) (current : StatusCodeRange)
    : list StatusCodeRange :=
  match last merged with
  | None => merged ++ [current]
  | Some l =>
      if end_ l + 1 <? start current then merged ++ [current]
      else removelast merged ++ [mkRange (start l) (Z.max (end_ l) (end_ current))]
  end.

Definition mergeRanges (rs : list StatusCodeRange) : list StatusCodeRange :=
  foldl merge_step [] (isort range_le rs).

Definition range_token (r : StatusCodeRange) : jsstr :=
  if start r =? end_ r then digits_of (start r)
  else digits_of (start r) ++ js "-" ++ digits_of (end_ r).

(** The full-width comma is read as a comma. *)
Definition sanitize (s : jsstr) : jsstr := map (fun c => if (c =? 65292)%N then 44%N else c) s.

Definition segments_of (raw : jsstr) : list jsstr :=
  List.filter truthy (map trim (split_char 44%N (sanitize raw))).

(** The input is its text; null and undefined are the empty text. *)
Definition parseHttpStatusCodeRules (input : jsstr) : ParsedHttpStatusCodeRules :=
  let raw := trim input in
  if negb (truthy raw) then mkParsed true [] [] [] []
  else
    let segments := segments_of raw in
    let parsed := omap parseToken segments in
    let invalid := List.filter (fun s => match parseToken s with None => true | _ => false end) segments in
    match invalid with
    | _ :: _ => mkParsed false [] [] raw invalid
    | [] =>
        let merged := mergeRanges parsed in
        let toks := map range_token merged in
        mkParsed true merged toks (join (js ",") toks) []
    end.

(** ** Coverage and normal forms *)

Definition covers (rs : list StatusCodeRange) (c : Z) : Prop :=
  Exists (fun r => start r <= c <= end_ r) rs.

Definition valid_range (r : StatusCodeRange) : Prop :=
  100 <= start r /\ start r <= end_ r /\ end_ r <= 599.

(** In order, with a gap between neighbours. *)
Fixpoint canonical (rs : list StatusCodeRange) : Prop :=
  match rs with
  | [] => True
  | r :: t =>
      start r <= end_ r
      /\ match t with r2 :: _ => end_ r + 1 < start r2 | [] => True end
      /\ canonical t
  end.

(** The reduction, reading the last range of the result as a state. *)
Fixpoint merge_from (l : StatusCodeRange) (rs : list StatusCodeRange) : list StatusCodeRange :=
  match rs with
  | [] => [l]
  | r :: t =>
      if end_ l + 1 <? start r then l :: merge_from r t
      else merge_from (mkRange (start l) (Z.max (end_ l) (end_ r))) t
  end.

Lemma fold_merge acc l rs : foldl merge_step (acc ++ [l]) rs = acc ++ merge_from l rs.
Proof.
  revert acc l. induction rs as [|r t IH]; intros acc l; [done|]. cbn [foldl merge_from].
  unfold merge_step at 2. rewrite last_snoc.
  destruct (end_ l + 1 <? start r); [by rewrite IH, <- app_assoc|].
  by rewrite removelast_last, IH.
Qed.

Lemma mergeRanges_from rs :
  mergeRanges rs = match isort range_le rs with [] => [] | r :: t => merge_from r t end.
Proof.
  unfold mergeRanges. destruct (isort range_le rs) as [|r t]; [done|]. apply (fold_merge [] r t).
Qed.

Lemma covers_cons r rs c : covers (r :: rs) c <-> start r <= c <= end_ r \/ covers rs c.
Proof. unfold covers. apply Exists_cons. Qed.

Lemma covers_nil c : ~ covers [] c.
Proof. intros H. inversion H. Qed.

(** Starts do not decrease along the sorted list. *)
Definition starts_from (x : Z) (rs : list StatusCodeRange) : Prop :=
  Forall (fun r => x <= start r /\ start r <= end_ r) rs
  /\ StronglySorted (fun a b => start a <= start b) rs.

Lemma starts_from_cons x r rs : starts_from x (r :: rs) -> starts_from (start r) rs /\ x <= start r /\ start r <= end_ r.
Proof.
  intros [Hf Hs]. apply Forall_cons_iff in Hf as [Hr Hf].
  apply StronglySorted_inv in Hs as [Hs Hle]. split; [|done]. split; [|done].
  rewrite Forall_forall in *. intros y Hy. specialize (Hf y Hy). specialize (Hle y Hy). lia.
Qed.

Lemma starts_from_weaken x y rs : y <= x -> starts_from x rs -> starts_from y rs.
Proof.
  intros Hyx [Hf Hs]. split; [|done]. eapply Forall_impl; [exact Hf|]. intros r. cbn. lia.
Qed.

Lemma merge_from_covers l rs c :
  start l <= end_ l -> starts_from (start l) rs ->
  covers (merge_from l rs) c <-> covers (l :: rs) c.
Proof.
  revert l. induction rs as [|r t IH]; intros l Hl Hs; [done|]. cbn [merge_from].
  apply starts_from_cons in Hs as (Ht & Hlr & Hr).
  destruct (Z.ltb_spec (end_ l + 1) (start r)).
  - rewrite !(covers_cons l), IH by done. done.
  - rewrite IH; cbn [start end_]; [|lia|by eapply starts_from_weaken].
    rewrite !covers_cons. cbn [start end_]. split; intros [?|H']; try tauto; try lia.
    destruct H'; [lia|tauto].
Qed.

Lemma merge_from_head l rs : exists e t, merge_from l rs = mkRange (start l) e :: t.
Proof.
  revert l. induction rs as [|r t IH]; intros [s e]; [by eexists _, _|]. cbn [merge_from].
  destruct (_ <? _); [by eexists _, _|].
  destruct (IH (mkRange s (Z.max e (end_ r)))) as (e' & t' & E'). by exists e', t'.
Qed.

Lemma merge_from_canonical l rs :
  start l <= end_ l -> starts_from (start l) rs -> canonical (merge_from l rs).
Proof.
  revert l. induction rs as [|r t IH]; intros l Hl Hs; [done|]. cbn [merge_from].
  apply starts_from_cons in Hs as (Ht & Hlr & Hr).
  destruct (Z.ltb_spec (end_ l + 1) (start r)).
  - destruct (merge_from_head r t) as (e & u & E). split; [done|]. split; [by rewrite E|].
    by apply IH.
  - apply IH; cbn [start end_]; [lia|by eapply starts_from_weaken].
Qed.

Lemma range_le_total : total_order range_le.
Proof.
  intros a b. unfold range_le. rewrite Z.leb_gt, Z.leb_le, (Z.eqb_sym (start b)).
  destruct (start a =? start b); cbn [negb]; lia.
Qed.

Lemma range_le_start a b : range_le a b = true -> start a <= start b.
Proof.
  unfold range_le. rewrite Z.leb_le. destruct (Z.eqb_spec (start a) (start b)); cbn [negb]; lia.
Qed.

Lemma sorted_starts rs :
  Forall (fun r => start r <= end_ r) rs ->
  match isort range_le rs with [] => True | r :: t => start r <= end_ r /\ starts_from (start r) t end.
Proof.
  intros Hv. pose proof (isort_sorted range_le rs range_le_total) as Hs.
  assert (Forall (fun r => start r <= end_ r) (isort range_le rs)) as Hv'.
  { rewrite Forall_forall in *. intros r Hr. apply Hv. revert Hr.
    rewrite !list_elem_of_In. apply isort_In. }
  assert (StronglySorted (fun a b => start a <= start b) (isort range_le rs)) as Hss.
  { apply Sorted_StronglySorted; [intros x y z; lia|].
    induction Hs as [|x l Hl IH Hd]; constructor.
    - apply IH. by apply Forall_cons_iff in Hv' as [_ ?].
    - destruct Hd; constructor. by apply range_le_start. }
  destruct (isort range_le rs) as [|r t]; [done|].
  apply Forall_cons_iff in Hv' as [Hr Ht]. apply StronglySorted_inv in Hss as [Hss Hle].
  split; [done|]. split; [|done]. rewrite Forall_forall in *. intros y Hy. split; [by apply Hle|by apply Ht].
Qed.

Lemma covers_perm rs rs' c : Permutation rs rs' -> covers rs c -> covers rs' c.
Proof.
  unfold covers. rewrite !Exists_exists. intros Hp (r & Hr & Hc). exists r. split; [|done].
  rewrite list_elem_of_In in *. by eapply Permutation_in.
Qed.

(** Merging keeps the codes and gives a normal form. *)
Lemma merge_covers rs c :
  Forall (fun r => start r <= end_ r) rs -> covers (mergeRanges rs) c <-> covers rs c.
Proof.
  intros Hv. rewrite mergeRanges_from. pose proof (sorted_starts rs Hv) as Hs.
  pose proof (isort_perm range_le rs) as Hp.
  destruct (isort range_le rs) as [|r t] eqn:E.
  - split; [by intros ?%covers_nil|]. by intros H%(covers_perm _ _ _ Hp).
  - destruct Hs as [Hr Hs]. rewrite merge_from_covers by done.
    split; apply covers_perm; [by symmetry|done].
Qed.

Lemma merge_canonical_form rs :
  Forall (fun r => start r <= end_ r) rs -> canonical (mergeRanges rs).
Proof.
  intros Hv. rewrite mergeRanges_from. pose proof (sorted_starts rs Hv) as Hs.
  destruct (isort range_le rs) as [|r t]; [done|]. destruct Hs. by apply merge_from_canonical.
Qed.

Lemma canonical_lower r t c : canonical (r :: t) -> covers (r :: t) c -> start r <= c.
Proof.
  revert r. induction t as [|r2 t IH]; intros r (Hr & Hg & Ht) Hc; apply covers_cons in Hc as [Hc|Hc];
    try lia; [by apply covers_nil in Hc|]. specialize (IH r2 Ht Hc). lia.
Qed.

Lemma canonical_tail r t c : canonical (r :: t) -> covers t c -> end_ r + 1 < c.
Proof.
  intros (Hr & Hg & Ht) Hc. destruct t as [|r2 t]; [by apply covers_nil in Hc|].
  pose proof (canonical_lower r2 t c Ht Hc). lia.
Qed.

(** A normal form is determined by the codes it covers. *)
Lemma canonical_unique l1 l2 :
  canonical l1 -> canonical l2 -> (forall c, covers l1 c <-> covers l2 c) -> l1 = l2.
Proof.
  revert l2. induction l1 as [|r1 t1 IH]; intros [|r2 t2] H1 H2 Hc; [done| | |].
  - destruct (covers_nil (start r2)). apply Hc, covers_cons. left. destruct H2. lia.
  - destruct (covers_nil (start r1)). apply Hc, covers_cons. left. destruct H1. lia.
  - assert (start r1 = start r2) as Hs.
    { assert (start r2 <= start r1).
      { apply (canonical_lower r2 t2); [done|]. apply Hc, covers_cons. left. destruct H1. lia. }
      assert (start r1 <= start r2); [|lia].
      apply (canonical_lower r1 t1); [done|]. apply Hc, covers_cons. left. destruct H2. lia. }
    assert (forall ra ta rb tb, canonical (ra :: ta) -> canonical (rb :: tb) -> start ra = start rb ->
      (forall c, covers (rb :: tb) c -> covers (ra :: ta) c) -> end_ rb <= end_ ra) as He.
    { intros ra ta rb tb Ha Hb Hab Hcov. destruct (Z.le_gt_cases (end_ rb) (end_ ra)); [done|].
      assert (covers (ra :: ta) (end_ ra + 1)) as Hx.
      { apply Hcov, covers_cons. left. destruct Ha as [Ha _]. lia. }
      apply covers_cons in Hx as [Hx|Hx]; [lia|]. apply (canonical_tail ra) in Hx; [lia|done]. }
    assert (end_ r1 = end_ r2) as He12.
    { apply Z.le_antisymm; eapply He; try eassumption; try done; intros c; apply Hc. }
    destruct r1 as [s1 e1], r2 as [s2 e2]. cbn in Hs, He12. subst s2 e2. f_equal.
    apply IH; [by destruct H1 as (_ & _ & ?)|by destruct H2 as (_ & _ & ?)|].
    assert (forall t t', canonical (mkRange s1 e1 :: t) -> canonical (mkRange s1 e1 :: t') ->
      (forall c, covers (mkRange s1 e1 :: t) c -> covers (mkRange s1 e1 :: t') c) ->
      forall c, covers t c -> covers t' c) as Hside.
    { intros t t' Ht Ht' Hsub c Hct. pose proof (canonical_tail _ _ _ Ht Hct) as Hgt. cbn in Hgt.
      assert (covers (mkRange s1 e1 :: t') c) as Hx by (apply Hsub, covers_cons; tauto).
      apply covers_cons in Hx as [Hx|Hx]; [cbn in Hx; lia|done]. }
    intros c. split; eapply Hside; try eassumption; intros c'; apply Hc.
Qed.

(** ** Printing and parsing *)

Lemma parseToken_valid s r : parseToken s = Some r -> valid_range r.
Proof.
  unfold parseToken, isValidCode, valid_range. destruct (negb _); [done|].
  destruct (includes _ _).
  - destruct (split_char _ _) as [|a [|b l]]; try done. destruct (_ || _); [done|].
    destruct (negb _ || _ || _) eqn:E; [done|]. intros [= <-]. cbn.
    rewrite !orb_false_iff, !negb_false_iff, !andb_true_iff, Z.ltb_ge in E. lia.
  - destruct (negb _); [done|]. destruct (negb _) eqn:E; [done|]. intros [= <-]. cbn.
    rewrite negb_false_iff, andb_true_iff in E. lia.
Qed.

(** The codes printed and read back, one by one. *)
Definition code_ok (n : nat) : bool :=
  let c := Z.of_nat n in
  isNumber (digits_of c) && (parseCode (digits_of c) =? c).

Lemma codes_ok : forallb code_ok (seq 100 500) = true.
Proof. vm_compute. reflexivity. Qed.

Lemma code_digits c :
  100 <= c <= 599 -> isNumber (digits_of c) = true /\ parseCode (digits_of c) = c.
Proof.
  intros Hc. pose proof codes_ok as H. rewrite forallb_forall in H.
  specialize (H (Z.to_nat c)). unfold code_ok in H. rewrite Z2Nat.id in H by lia.
  rewrite andb_true_iff, Z.eqb_eq in H. apply H. apply in_seq. lia.
Qed.

Lemma digit_plain c :
  is_digit c = true -> is_space c = false /\ (c =? 45)%N = false /\ (c =? 44)%N = false
    /\ (c =? 65292)%N = false.
Proof.
  unfold is_digit, is_space. rewrite andb_true_iff, !N.leb_le. intros H.
  rewrite !orb_false_iff, !andb_false_iff, !N.leb_gt, !N.eqb_neq. repeat split; lia.
Qed.

Lemma digits_all (q : N -> bool) s :
  (forall c, is_digit c = true -> q c = true) -> isNumber s = true -> forallb q s = true.
Proof. intros Hq [_ Hs]%andb_true_iff. by apply (forallb_impl is_digit). Qed.

Definition token_char (c : jschar) : bool := is_digit c || (c =? 45)%N.

Lemma token_char_plain c :
  token_char c = true -> is_space c = false /\ (c =? 44)%N = false /\ (c =? 65292)%N = false.
Proof.
  intros [Hc| ->%N.eqb_eq]%orb_true_iff; [|done]. destruct (digit_plain c Hc) as (? & _ & ? & ?). done.
Qed.

Lemma range_token_chars r :
  valid_range r -> forallb token_char (range_token r) = true /\ truthy (range_token r) = true.
Proof.
  intros (H1 & H2 & H3). unfold range_token.
  destruct (code_digits (start r)) as [Hs _]; [lia|]. destruct (code_digits (end_ r)) as [He _]; [lia|].
  pose proof (digits_all token_char _ (fun c Hc => proj2 (orb_true_iff _ _) (or_introl Hc)) Hs) as Hs'.
  pose proof (digits_all token_char _ (fun c Hc => proj2 (orb_true_iff _ _) (or_introl Hc)) He) as He'.
  apply andb_true_iff in Hs as [Hst _].
  destruct (start r =? end_ r); [done|]. rewrite !forallb_app, Hs', He'.
  split; [done|]. by destruct (digits_of (start r)).
Qed.

Lemma token_trim s : forallb token_char s = true -> trim s = s.
Proof.
  intros Hs. apply trim_id. unfold trimmed. destruct s as [|c t]; [done|].
  rewrite forallb_forall in Hs. destruct (token_char_plain c) as (-> & _); [apply Hs; by left|].
  destruct (last (c :: t)) as [d|] eqn:E; [|done].
  destruct (token_char_plain d) as (-> & _); [|done].
  apply Hs, list_elem_of_In. by apply last_Some_elem_of.
Qed.

Lemma token_strip s : forallb token_char s = true -> List.filter (fun c => negb (is_space c)) s = s.
Proof.
  intros Hs. apply filter_all. revert Hs. apply forallb_impl. intros c Hc.
  by destruct (token_char_plain c Hc) as (-> & _).
Qed.

Lemma parse_range_token r : valid_range r -> parseToken (range_token r) = Some r.
Proof.
  intros Hv. destruct (range_token_chars r Hv) as [Hc Ht]. destruct Hv as (H1 & H2 & H3).
  unfold parseToken. rewrite token_trim, token_strip, Ht by done. cbn [negb].
  destruct (code_digits (start r)) as [Hs Hsv]; [lia|]. destruct (code_digits (end_ r)) as [He Hev]; [lia|].
  assert (forall s, isNumber s = true -> forallb (fun d => negb (d =? 45)%N) s = true) as Hno.
  { intros s. apply digits_all. intros c Hd. by destruct (digit_plain c Hd) as (_ & -> & _). }
  unfold range_token. destruct (Z.eqb_spec (start r) (end_ r)) as [Heq|Hne].
  - assert (includes (digits_of (start r)) (js "-") = false) as ->.
    { apply includes_false. intros a b E. specialize (Hno _ Hs). rewrite E, !forallb_app in Hno.
      by rewrite !andb_true_iff in Hno; destruct Hno as (_ & Hno & _). }
    rewrite Hs, Hsv. cbn [negb].
    assert (isValidCode (start r) = true) as -> by (unfold isValidCode; lia).
    destruct r as [s e]. cbn in *. by subst e.
  - assert (includes (digits_of (start r) ++ js "-" ++ digits_of (end_ r)) (js "-") = true) as ->
      by (apply includes_true; by eexists _, _).
    norm_js. cbn [app]. rewrite split_char_app, split_char_none by (by apply Hno).
    rewrite Hs, He, Hsv, Hev. cbn [negb orb].
    assert (isValidCode (start r) = true /\ isValidCode (end_ r) = true /\ (end_ r <? start r) = false)
      as (-> & -> & ->) by (unfold isValidCode; lia).
    by destruct r.
Qed.

Lemma segments_join ts :
  Forall (fun t => forallb token_char t = true /\ truthy t = true) ts ->
  segments_of (join (js ",") ts) = ts.
Proof.
  intros Hts. unfold segments_of.
  assert (forallb (fun c => token_char c || (c =? 44)%N) (join (js ",") ts) = true) as Hj.
  { induction Hts as [|t ts [Ht _] Hts IH]; [done|].
    assert (forallb (fun c => token_char c || (c =? 44)%N) t = true) as Ht'
      by (revert Ht; apply forallb_impl; by intros c ->).
    destruct ts as [|u ts]; [done|]. rewrite join_cons, !forallb_app, Ht', IH by done. done. }
  assert (sanitize (join (js ",") ts) = join (js ",") ts) as ->.
  { unfold sanitize. rewrite <- (map_id (join (js ",") ts)) at 2. apply map_ext_in.
    intros c Hc. rewrite forallb_forall in Hj. specialize (Hj c Hc).
    apply orb_true_iff in Hj as [Hj| ->%N.eqb_eq]; [|done].
    by destruct (token_char_plain c Hj) as (_ & _ & ->). }
  clear Hj. induction Hts as [|t ts [Ht Htt] Hts IH]; [done|].
  assert (forallb (fun d => negb (d =? 44)%N) t = true) as Hn.
  { revert Ht. apply forallb_impl. intros c Hc. by destruct (token_char_plain c Hc) as (_ & -> & _). }
  destruct ts as [|u ts].
  - cbn [join]. rewrite split_char_none by done. cbn [map List.filter].
    by rewrite token_trim, Htt by done.
  - rewrite join_cons by done. norm_js. cbn [app]. rewrite split_char_app by done.
    cbn [map List.filter]. rewrite token_trim, Htt by done. f_equal. norm_js_in IH. exact IH.
Qed.

(** ** Properties *)

(** C3: merging keeps exactly the codes of the given ranges, its result is in
    order with a gap between neighbours, and that form is canonical: ranges that
    cover the same codes are merged into the same list. *)
Theorem merge_is_canonical rs rs' :
  Forall (fun r => start r <= end_ r) rs -> Forall (fun r => start r <= end_ r) rs' ->
  (forall c, covers (mergeRanges rs) c <-> covers rs c)
  /\ canonical (mergeRanges rs)
  /\ ((forall c, covers rs c <-> covers rs' c) -> mergeRanges rs = mergeRanges rs').
Proof.
  intros Hv Hv'. split; [intros c; by apply merge_covers|].
  split; [by apply merge_canonical_form|]. intros Hc.
  apply canonical_unique; try by apply merge_canonical_form.
  intros c. rewrite !merge_covers by done. apply Hc.
Qed.

Lemma merge_is_canonical_witness :
  mergeRanges [mkRange 500 503; mkRange 404 404; mkRange 501 510]
  = mergeRanges [mkRange 404 404; mkRange 500 510].
Proof.
  apply (merge_is_canonical [mkRange 500 503; mkRange 404 404; mkRange 501 510]
           [mkRange 404 404; mkRange 500 510]).
  - repeat constructor; cbn; lia.
  - repeat constructor; cbn; lia.
  - intros c. rewrite !covers_cons. cbn. pose proof (covers_nil c) as Hn.
    split; intros H; repeat (destruct H as [H|H]; try done); try lia.
Defined.

Lemma merged_valid rs : Forall valid_range rs -> Forall valid_range (mergeRanges rs).
Proof.
  intros Hv. assert (Forall (fun r => start r <= end_ r) rs) as Hv'
    by (eapply Forall_impl; [exact Hv|]; by intros r (_ & ? & _)).
  assert (forall c, covers rs c -> 100 <= c <= 599) as Hb.
  { intros c Hc. unfold covers in Hc. apply Exists_exists in Hc as (r & Hr & Hc).
    rewrite Forall_forall in Hv. destruct (Hv r Hr) as (? & _ & ?). lia. }
  pose proof (merge_canonical_form rs Hv') as Hcan.
  assert (forall c, covers (mergeRanges rs) c -> 100 <= c <= 599) as Hb'
    by (intros c Hc; apply Hb; by apply merge_covers).
  clear Hv Hb Hv'. induction (mergeRanges rs) as [|r t IH]; [constructor|].
  destruct Hcan as (Hr & _ & Ht). constructor.
  - pose proof (Hb' (start r)) as H1. pose proof (Hb' (end_ r)) as H2.
    rewrite covers_cons in H1, H2. unfold valid_range.
    destruct H1 as [? ?]; [left; lia|]. destruct H2 as [? ?]; [left; lia|]. lia.
  - apply IH; [done|]. intros c Hc. apply Hb'. rewrite covers_cons. by right.
Qed.

Lemma canonical_merge_id rs : canonical rs -> mergeRanges rs = rs.
Proof.
  intros Hc. assert (Forall (fun r => start r <= end_ r) rs) as Hv.
  { induction rs as [|r t IH]; [constructor|]. destruct Hc as (? & _ & ?). constructor; auto. }
  apply canonical_unique; [by apply merge_canonical_form|done|]. intros c. by apply merge_covers.
Qed.

(** The result on segments that all parse. *)
Lemma parse_tokens rs :
  Forall valid_range rs -> canonical rs ->
  let toks := map range_token rs in
  parseHttpStatusCodeRules (join (js ",") toks) = mkParsed true rs toks (join (js ",") toks) [].
Proof.
  intros Hv Hcan toks.
  assert (Forall (fun t => forallb token_char t = true /\ truthy t = true) toks) as Ht.
  { unfold toks. clear Hcan toks. induction Hv; constructor; [by apply range_token_chars|done]. }
  assert (omap parseToken toks = rs /\
    List.filter (fun s => match parseToken s with None => true | _ => false end) toks = []) as [Ho Hi].
  { unfold toks. clear Hcan Ht toks. induction Hv as [|r rs Hr Hv [IH1 IH2]]; [done|].
    cbn. rewrite parse_range_token by done. by rewrite IH1, IH2. }
  unfold parseHttpStatusCodeRules.
  assert (trim (join (js ",") toks) = join (js ",") toks) as ->.
  { clear Ho Hi. apply trim_id. apply trimmed_no_space.
    induction Ht as [|t ts [Ht _] Hts IH]; [done|].
    assert (forallb (fun c => negb (is_space c)) t = true) as Ht'.
    { revert Ht. apply forallb_impl. intros c Hc. by destruct (token_char_plain c Hc) as (-> & _). }
    destruct ts as [|u ts]; [done|]. rewrite join_cons, !forallb_app, Ht', IH by done. done. }
  rewrite segments_join, Ho, Hi by done. rewrite canonical_merge_id by done. fold toks.
  destruct (truthy (join (js ",") toks)) eqn:E; [done|]. cbn [negb].
  destruct rs as [|r rs]; [done|]. exfalso. subst toks. cbn [map] in *.
  apply Forall_cons_iff in Ht as [[_ Ht] _]. destruct rs; cbn [map] in E.
  - cbn [join] in E. congruence.
  - rewrite join_cons in E by done. by destruct (range_token r).
Qed.

(** An accepted text is that of a normal form. *)
Lemma parse_accepted input :
  ok (parseHttpStatusCodeRules input) = true ->
  exists rs, Forall valid_range rs /\ canonical rs
    /\ parseHttpStatusCodeRules input
       = mkParsed true rs (map range_token rs) (join (js ",") (map range_token rs)) [].
Proof.
  unfold parseHttpStatusCodeRules.
  destruct (truthy (trim input)); cbn [negb].
  2:{ intros _. exists []. split; [by constructor|done]. }
  set (segs := segments_of (trim input)).
  destruct (List.filter _ segs) as [|bad bads]; [|done]. intros _.
  assert (Forall valid_range (omap parseToken segs)) as Hv.
  { induction segs as [|s segs IH]; [constructor|]. cbn.
    destruct (parseToken s) eqn:E; [constructor; [by eapply parseToken_valid|done]|done]. }
  exists (mergeRanges (omap parseToken segs)). split; [by apply merged_valid|]. split; [|done].
  apply merge_canonical_form. eapply Forall_impl; [exact Hv|]. by intros r (_ & ? & _).
Qed.

(** The normal form is stable: parsing the normalised text of an accepted
    rule list gives the same ranges, tokens and normalised text again. *)
Theorem normalized_round_trip input :
  ok (parseHttpStatusCodeRules input) = true ->
  Forall valid_range (ranges (parseHttpStatusCodeRules input))
  /\ canonical (ranges (parseHttpStatusCodeRules input))
  /\ parseHttpStatusCodeRules (normalized (parseHttpStatusCodeRules input))
    = parseHttpStatusCodeRules input.
Proof.
  intros Hok. destruct (parse_accepted input Hok) as (rs & Hv & Hc & ->). cbn [ranges normalized].
  split; [done|]. split; [done|]. by apply parse_tokens.
Qed.

Lemma normalized_round_trip_witness :
  let p := parseHttpStatusCodeRules (js " 500-503, 404,501-510 ") in
  ok p = true /\ normalized p = js "404,500-510" /\ parseHttpStatusCodeRules (normalized p) = p.
Proof.
  split; [reflexivity|]. split; [reflexivity|].
  apply (normalized_round_trip (js " 500-503, 404,501-510 ")). reflexivity.
Defined.

(** A token with more than one dash is read by its first two parts. *)
Example extra_dash_ignored :
  ranges (parseHttpStatusCodeRules (js "200-300-xyz")) = [mkRange 200 300]
  /\ ok (parseHttpStatusCodeRules (js "200-300-xyz")) = true.
Proof. split; vm_compute; reflexivity. Qed.
