(* ===== verification/Messages.v ===== *)
(** * Playground messages

    Model of src/web/default/src/features/playground/types.ts and of the pure
    functions under lib/message: versions, timing, reasoning tags, streaming
    updates and conversation edits.  Every call of [Date.now()] is an argument,
    and so are the identifiers [nanoid()] returns and the translation [t] of
    i18next. *)

From S2P Require Import Prelude JsStr JsNum.

(** ** Data *)

Inductive MessageRole := User | Assistant | System.
Inductive MessageStatus := Loading | Streaming | Complete | Error.

#[export] Instance role_eq_dec : EqDecision MessageRole.
Proof. solve_decision. Defined.
#[export] Instance status_eq_dec : EqDecision MessageStatus.
Proof. solve_decision. Defined.

Record MessageVersion := mkVersion { v_id : jsstr; v_content : jsstr }.

Record Reasoning := mkReasoning {
  r_content : jsstr;
  r_duration : num;
  r_startedAt : option num;
  r_completedAt : option num;
  r_durationMs : option num
}.

(** [None] is a missing field (for [errorCode], also null). *)
Record Message := mkMessage {
  key : jsstr;
  from : MessageRole;
  versions : list MessageVersion;
  createdAt : option num;
  startedAt : option num;
  completedAt : option num;
  durationMs : option num;
  sources : option (list (jsstr * jsstr));
  reasoning : option Reasoning;
  isReasoningStreaming : option bool;
  isReasoningComplete : option bool;
  isContentComplete : option bool;
  status : option MessageStatus;
  errorCode : option jsstr
}.

(** Updates of single fields, for the object spreads of the sources. *)
Definition with_versions (vs : list MessageVersion) (m : Message) : Message :=
  mkMessage (key m) (from m) vs (createdAt m) (startedAt m) (completedAt m) (durationMs m)
    (sources m) (reasoning m) (isReasoningStreaming m) (isReasoningComplete m)
    (isContentComplete m) (status m) (errorCode m).
Definition with_createdAt (t : option num) (m : Message) : Message :=
  mkMessage (key m) (from m) (versions m) t (startedAt m) (completedAt m) (durationMs m)
    (sources m) (reasoning m) (isReasoningStreaming m) (isReasoningComplete m)
    (isContentComplete m) (status m) (errorCode m).
Definition with_timing (s c d : num) (m : Message) : Message :=
  mkMessage (key m) (from m) (versions m) (createdAt m) (Some s) (Some c) (Some d)
    (sources m) (reasoning m) (isReasoningStreaming m) (isReasoningComplete m)
    (isContentComplete m) (status m) (errorCode m).
Definition with_reasoning (r : option Reasoning) (m : Message) : Message :=
  mkMessage (key m) (from m) (versions m) (createdAt m) (startedAt m) (completedAt m) (durationMs m)
    (sources m) r (isReasoningStreaming m) (isReasoningComplete m)
    (isContentComplete m) (status m) (errorCode m).
Definition with_streaming (b : bool) (m : Message) : Message :=
  mkMessage (key m) (from m) (versions m) (createdAt m) (startedAt m) (completedAt m) (durationMs m)
    (sources m) (reasoning m) (Some b) (isReasoningComplete m)
    (isContentComplete m) (status m) (errorCode m).
Definition with_status (s : MessageStatus) (m : Message) : Message :=
  mkMessage (key m) (from m) (versions m) (createdAt m) (startedAt m) (completedAt m) (durationMs m)
    (sources m) (reasoning m) (isReasoningStreaming m) (isReasoningComplete m)
    (isContentComplete m) (Some s) (errorCode m).
Definition with_errorCode (c : option jsstr) (m : Message) : Message :=
  mkMessage (key m) (from m) (versions m) (createdAt m) (startedAt m) (completedAt m) (durationMs m)
    (sources m) (reasoning m) (isReasoningStreaming m) (isReasoningComplete m)
    (isContentComplete m) (status m) c.

Definition is_assistant (m : Message) : bool := bool_decide (from m = Assistant).
Definition is_user (m : Message) : bool := bool_decide (from m = User).
Definition has_status (s : MessageStatus) (m : Message) : bool := bool_decide (status m = Some s).

(** ** message-utils.ts *)

Definition createMessageVersion (id content : jsstr) : MessageVersion := mkVersion id content.

Definition getCurrentVersion (m : Message) : MessageVersion :=
  match versions m with v :: _ => v | [] => mkVersion (js "default") [] end.

Definition getMessageContent (m : Message) : jsstr := v_content (getCurrentVersion m).

Definition hasMessageContent (m : Message) : bool := truthy (trim (getMessageContent m)).

Definition updateCurrentVersionContent (m : Message) (content : jsstr) : Message :=
  with_versions [mkVersion (v_id (getCurrentVersion m)) content] m.

Definition createUserMessage (k vid content : jsstr) (now : num) : Message :=
  mkMessage k User [createMessageVersion vid content] (Some now) None None None None None
    None None None None None.

Definition createLoadingAssistantMessage (k vid : jsstr) (now : num) : Message :=
  mkMessage k Assistant [createMessageVersion vid []] (Some now) (Some now) None None None None
    (Some false) (Some false) (Some false) (Some Loading) None.

Inductive ContentPart := PText (text : jsstr) | PImage (url : jsstr).
Inductive MessageContent := CText (s : jsstr) | CParts (ps : list ContentPart).

Definition buildMessageContent (text : jsstr) (imageUrls : list jsstr) : MessageContent :=
  match List.filter (fun url => truthy (trim url)) imageUrls with
  | [] => CText text
  | valid => CParts (PText text :: map (fun url => PImage (trim url)) valid)
  end.

Definition getTextContent (c : MessageContent) : jsstr :=
  match c with
  | CText s => s
  | CParts ps =>
      match find (fun p => match p with PText _ => true | PImage _ => false end) ps with
      | Some (PText t) => t
      | _ => []
      end
  end.

Record ChatCompletionMessage := mkCCM { ccm_role : MessageRole; ccm_content : jsstr }.

Definition formatMessageForAPI (m : Message) : ChatCompletionMessage :=
  mkCCM (from m) (v_content (getCurrentVersion m)).

Definition isValidMessage (m : Message) : bool :=
  match versions m with
  | [] => false
  | _ => negb (is_assistant m && negb (hasMessageContent m))
  end.

(** ** message-timing-utils.ts *)

Definition completeAssistantTiming (m : Message) (now : num) : Message :=
  if negb (is_assistant m) then m
  else
    let s := match startedAt m with
             | Some t => t
             | None => default now (createdAt m)
             end in
    with_timing s now (nmax zero (nsub now s)) m.

Definition startReasoningTiming (m : Message) (now : num) : Reasoning :=
  match reasoning m with
  | None => mkReasoning [] zero (Some now) None None
  | Some r => mkReasoning (r_content r) (r_duration r) (Some (default now (r_startedAt r)))
                (r_completedAt r) (r_durationMs r)
  end.

Definition set_content (c : jsstr) (r : Reasoning) : Reasoning :=
  mkReasoning c (r_duration r) (r_startedAt r) (r_completedAt r) (r_durationMs r).

Definition completeReasoningTiming (m : Message) (now : num) : Message :=
  match reasoning m with
  | None => m
  | Some r =>
      match r_durationMs r with
      | Some _ => m
      | None =>
          let s := match r_startedAt r with
                   | Some t => t
                   | None => default now (startedAt m)
                   end in
          let d := nmax zero (nsub now s) in
          with_reasoning (Some (mkReasoning (r_content r) (nceil (ndiv d (num_of_Z 1000)))
            (Some s) (Some now) (Some d))) m
      end
  end.

(** ** message-reasoning-utils.ts *)

Definition THINK := js "<think>".
Definition THINK_END := js "</think>".

Record ParsedThinkTags := mkThink {
  visibleContent : jsstr;
  reasoningText : jsstr;
  hasUnclosedTag : bool
}.

(** The loop from [currentPos] on, where [rest] is the text left: the visible
    parts, the reasoning parts and whether a tag is left open. *)
Fixpoint think_go (fuel : nat) (rest : jsstr) : list jsstr * list jsstr * bool :=
  match fuel with
  | O => ([], [], false)
  | S f =>
      match indexOf THINK rest with
      | None => (if truthy rest then [rest] else [], [], false)
      | Some openPos =>
          let before := if Nat.ltb 0 openPos then [take openPos rest] else [] in
          let inner := drop (openPos + 7) rest in
          match indexOf THINK_END inner with
          | None => (before, [inner], true)
          | Some closePos =>
              let '(vs, rs, u) := think_go f (drop (closePos + 8) inner) in
              (before ++ vs, take closePos inner :: rs, u)
          end
      end
  end.

(** One unit of fuel per code unit: every turn but the last removes a tag. *)
Definition parseThinkTags (content : jsstr) : ParsedThinkTags :=
  if negb (includes content THINK) then mkThink content [] false
  else
    let '(vs, rs, u) := think_go (S (length content)) content in
    mkThink (trim (join [] vs)) (trim (join [10%N; 10%N] rs)) u.

(** ** message-streaming-utils.ts *)

Definition processStreamingContent (m : Message) (chunk : jsstr) (now : num) : Message :=
  let full := getMessageContent m ++ chunk in
  match reasoning m, includes full THINK with
  | None, false => with_streaming false (updateCurrentVersionContent m full)
  | _, _ =>
      let p := parseThinkTags full in
      let final := if truthy (reasoningText p)
                   then Some (set_content (reasoningText p) (startReasoningTiming m now))
                   else reasoning m in
      with_streaming (hasUnclosedTag p)
        (with_reasoning final (updateCurrentVersionContent m full))
  end.

Inductive StreamChunkType := ChunkReasoning | ChunkContent.

Definition getAppendableChunk (current chunk : jsstr) : jsstr :=
  if negb (truthy current) || negb (startsWith chunk current) then chunk
  else drop (length current) chunk.

(** [now] and [now'] are the two readings of the clock. *)
Definition applyStreamingChunk (m : Message) (type : StreamChunkType) (chunk : jsstr)
    (now now' : num) : Message :=
  if has_status Error m then m
  else
    match type with
    | ChunkReasoning =>
        let r := startReasoningTiming m now in
        with_status Streaming (with_streaming true
          (with_reasoning (Some (set_content
             (r_content r ++ getAppendableChunk (r_content r) chunk) r)) m))
    | ChunkContent =>
        let app := getAppendableChunk (getMessageContent m) chunk in
        let cm := processStreamingContent m app now in
        with_status Streaming
          (if bool_decide (isReasoningStreaming cm = Some true) then cm
           else completeReasoningTiming cm now')
    end.

Definition finalizeMessage (m : Message) (api : option jsstr) (now now' : num) : Message :=
  let content := getMessageContent m in
  let parsed := if includes content THINK then Some (parseThinkTags content) else None in
  let visible := match parsed with Some p => visibleContent p | None => content end in
  let final := str_or (default [] api)
    (str_or (match reasoning m with Some r => r_content r | None => [] end)
            (match parsed with Some p => reasoningText p | None => [] end)) in
  completeReasoningTiming
    (with_streaming false
      (with_reasoning
         (if truthy final then Some (set_content final (startReasoningTiming m now)) else None)
         (updateCurrentVersionContent m visible))) now'.

Definition completeAssistantMessage (m : Message) (now now' now'' : num) : Message :=
  completeAssistantTiming (with_status Complete (finalizeMessage m None now now')) now''.

Definition isAssistantMessageFinal (m : Message) : bool :=
  has_status Complete m || has_status Error m.
Definition isAssistantMessagePending (m : Message) : bool :=
  has_status Loading m || has_status Streaming m.
Definition isPendingAssistantMessage (m : Message) : bool :=
  is_assistant m && isAssistantMessagePending m.

(** A choice of a response: the text and the reasoning of its message; [None]
    when they are missing. *)
Record ChatCompletionChoice := mkChoice {
  choice_content : option jsstr;
  choice_reasoning : option jsstr
}.

Definition hasChatCompletionChoice (choices : list ChatCompletionChoice) : bool :=
  match choices with [] => false | _ => true end.

Definition applyChatCompletionChoice (m : Message) (c : ChatCompletionChoice)
    (now now' now'' : num) : Message :=
  completeAssistantTiming
    (with_status Complete
       (finalizeMessage (updateCurrentVersionContent m (default [] (choice_content c)))
          (choice_reasoning c) now now')) now''.

Definition applyChatCompletionResponse (m : Message) (choices : list ChatCompletionChoice)
    (now now' now'' : num) : option Message :=
  match choices with
  | [] => None
  | c :: _ => Some (applyChatCompletionChoice m c now now' now'')
  end.

Definition API_REQUEST_ERROR := js "Request error occurred".
Definition INTERRUPTED := js "Generation was interrupted".

(** The index of the last pending assistant message. *)
Fixpoint last_pending (ms : list Message) : option nat :=
  match ms with
  | [] => None
  | m :: t =>
      match last_pending t with
      | Some i => Some (S i)
      | None => if isPendingAssistantMessage m then Some 0 else None
      end
  end.

(** What a stuck message becomes. *)
Definition sanitizeMessage (t : jsstr -> jsstr) (m : Message) (now now' now'' : num) : Message :=
  let fin := finalizeMessage m None now now' in
  let hasReasoning := match reasoning fin with Some r => truthy (trim (r_content r)) | None => false end in
  if hasMessageContent fin || hasReasoning
  then completeAssistantTiming (with_streaming false (with_status Complete fin)) now''
  else completeAssistantTiming
         (with_streaming false (with_status Error
            (updateCurrentVersionContent fin (t API_REQUEST_ERROR ++ js ": " ++ t INTERRUPTED)))) now''.

Definition sanitizeMessagesOnLoad (t : jsstr -> jsstr) (ms : list Message) (now now' now'' : num)
    : list Message :=
  match last_pending ms with
  | None => ms
  | Some i =>
      match ms !! i with
      | Some m => <[i := sanitizeMessage t m now now' now'']> ms
      | None => ms
      end
  end.

(** ** message-update-utils.ts *)

Definition updateLastAssistantMessage (ms : list Message) (updater : Message -> Message)
    : list Message :=
  match last ms with
  | None => ms
  | Some l =>
      if is_assistant l then <[length ms - 1 := updater l]> ms else ms
  end.

Definition updateAssistantMessageWithError (ms : list Message) (errorMessage : jsstr)
    (code : option jsstr) (title : jsstr) (now : num) : list Message :=
  updateLastAssistantMessage ms (fun m =>
    completeAssistantTiming
      (with_errorCode (match code with Some c => if truthy c then Some c else None | None => None end)
        (with_streaming false (with_status Error
          (updateCurrentVersionContent m (title ++ js ": " ++ errorMessage))))) now).

(** ** conversation-message-utils.ts *)

(** Identifiers drawn for a pair: the keys and the version ids. *)
Definition appendUserMessagePair (ms : list Message) (content : jsstr)
    (k1 v1 k2 v2 : jsstr) (now : num) : list Message :=
  ms ++ [createUserMessage k1 v1 content now; createLoadingAssistantMessage k2 v2 now].

(** [findIndex] by key. *)
Fixpoint index_of_key (k : jsstr) (ms : list Message) : option nat :=
  match ms with
  | [] => None
  | m :: t => if str_eqb (key m) k then Some 0 else S <$> index_of_key k t
  end.

Definition createRegeneratedMessages (ms : list Message) (k : jsstr) (k' v' : jsstr) (now : num)
    : option (list Message) :=
  match index_of_key k ms with
  | None => None
  | Some i =>
      match ms !! i with
      | Some m =>
          if is_user m then Some (take (i + 1) ms ++ [createLoadingAssistantMessage k' v' now])
          else Some (take i ms ++ [createLoadingAssistantMessage k' v' now])
      | None => None
      end
  end.

Definition removeMessageByKey (ms : list Message) (k : jsstr) : list Message :=
  List.filter (fun m => negb (str_eqb (key m) k)) ms.

(** The loop downwards from [beforeIndex - 1]. *)
Fixpoint getPreviousUserMessage (ms : list Message) (beforeIndex : nat) : option Message :=
  match beforeIndex with
  | O => None
  | S i =>
      match ms !! i with
      | Some m => if is_user m then Some m else getPreviousUserMessage ms i
      | None => getPreviousUserMessage ms i
      end
  end.

(** The result is the messages and whether they are to be sent. *)
Definition applyMessageEdit (ms : list Message) (k content : jsstr) (shouldSubmit : bool)
    (k' v' : jsstr) (now : num) : option (list Message * bool) :=
  match index_of_key k ms with
  | None => None
  | Some i =>
      let updated := map (fun m =>
          if str_eqb (key m) k
          then with_createdAt (if shouldSubmit then Some now else createdAt m)
                 (updateCurrentVersionContent m content)
          else m) ms in
      let is_user_at := match updated !! i with Some m => is_user m | None => false end in
      if negb shouldSubmit || negb is_user_at then Some (updated, false)
      else Some (take (i + 1) updated ++ [createLoadingAssistantMessage k' v' now], true)
  end.

Definition getEditingMessageContent (ms : list Message) (editingKey : option jsstr) : jsstr :=
  match editingKey with
  | None | Some [] => []
  | Some k =>
      match find (fun m => str_eqb (key m) k) ms with
      | Some m => getMessageContent m
      | None => []
      end
  end.

Definition getChatMessageRenderState (ms : list Message) (m : Message) (i : nat)
    (editingKey : option jsstr) : bool * jsstr * bool :=
  (Nat.eqb (S i) (length ms) && is_assistant m, getMessageContent m,
   bool_decide (editingKey = Some (key m))).

(** ** message-action-utils.ts, message-editor-utils.ts, message-error-utils.ts,
       message-layout-utils.ts, message-content-utils.ts *)

Record MessageActionState := mkActionState {
  as_content : jsstr; as_hasContent : bool; as_isAssistant : bool; as_isLoading : bool; as_isUser : bool
}.

Definition getMessageActionState (m : Message) : MessageActionState :=
  mkActionState (getMessageContent m) (hasMessageContent m) (is_assistant m)
    (has_status Loading m || has_status Streaming m) (is_user m).

Record MessageEditorState := mkEditorState {
  canSave : bool; hasChanged : bool; showSaveAndSubmit : bool
}.

Definition getMessageEditorState (m : Message) (editText originalText : jsstr) : MessageEditorState :=
  let hasText := truthy (trim editText) in
  let changed := negb (str_eqb editText originalText) in
  mkEditorState (hasText && changed) changed (is_user m).

Definition MODEL_PRICE_ERROR_CODE := js "model_price_error".
Definition FALLBACK_ERROR_CONTENT := js "An unknown error occurred".

Definition isAdminRole (role : option num) : bool :=
  match role with Some r => nge r (num_of_Z 10) | None => false end.
Definition isErrorMessage (m : Message) : bool := has_status Error m.

Record MessageErrorState := mkErrorState { es_content : jsstr; es_modelPrice : bool; showSettingsLink : bool }.

Definition getMessageErrorState (m : Message) (isAdmin : bool) : option MessageErrorState :=
  if negb (isErrorMessage m) then None
  else
    let content := str_or (getMessageContent m) FALLBACK_ERROR_CONTENT in
    let price := bool_decide (errorCode m = Some MODEL_PRICE_ERROR_CODE) in
    Some (mkErrorState content price (price && isAdmin)).

Inductive MessageAlignment := AlignLeft | AlignRight.

Definition getMessageAlignment (m : Message) (leftLayout : bool) : MessageAlignment :=
  if leftLayout then AlignLeft else if is_user m then AlignRight else AlignLeft.

Definition shouldShowMessageLoader (m : Message) (isAssistant : bool) (content : jsstr) : bool :=
  isAssistant && negb (bool_decide (isReasoningStreaming m = Some true))
  && (has_status Loading m || (has_status Streaming m && negb (truthy content))).

Definition shouldShowMessageContent (m : Message) (content : jsstr) : bool :=
  (is_user m || negb (bool_decide (isReasoningStreaming m = Some true))) && truthy content.

Definition getDisplayContent (m : Message) (content : jsstr) : jsstr :=
  if negb (is_assistant m) then content
  else if negb (includes content THINK) then content
  else visibleContent (parseThinkTags content).

Record MessageContentState := mkContentState {
  displayContent : jsstr;
  hasSources : bool;
  cs_isAssistant : bool;
  showLoader : bool;
  showMessageContent : bool;
  cs_sources : list (jsstr * jsstr);
  cs_reasoning : option jsstr           (* [Some] when hasReasoning *)
}.

Definition getMessageContentState (m : Message) (content : jsstr) : MessageContentState :=
  let a := is_assistant m in
  let srcs := default [] (sources m) in
  let rc := if a then r_content <$> reasoning m else None in
  mkContentState (getDisplayContent m content) (match srcs with [] => false | _ => true end) a
    (shouldShowMessageLoader m a content) (shouldShowMessageContent m content) srcs
    (match rc with Some r => if truthy r then Some r else None | None => None end).
