(* ===== verification/MessageProps.v ===== *)
(** * Playground messages: the properties

    Theorems about the definitions of Messages: reasoning tags, timing,
    streaming updates, finalisation and conversation edits. *)

From S2P Require Import Prelude JsStr JsNum Messages.

(** ** Reasoning tags *)

(** A text made of visible texts and closed reasoning blocks. *)
Fixpoint think_text (v0 : jsstr) (blocks : list (jsstr * jsstr)) : jsstr :=
  match blocks with
  | [] => v0
  | (r, v) :: bs => v0 ++ THINK ++ r ++ THINK_END ++ think_text v bs
  end.

Definition block_ok (b : jsstr * jsstr) : bool :=
  negb (includes b.1 THINK_END) && negb (includes b.2 THINK).

Definition visible_list (v : jsstr) : list jsstr := if truthy v then [v] else [].

Lemma visible_list_join vs :
  join [] (flat_map visible_list vs) = concat vs.
Proof.
  assert (forall l : list jsstr, join [] l = concat l) as Hj.
  { induction l as [|x [|y l] IH]; [done|cbn; by rewrite app_nil_r|].
    rewrite join_cons by done. rewrite IH. done. }
  rewrite Hj. induction vs as [|v vs IH]; [done|]. cbn. rewrite concat_app, IH.
  destruct v; cbn; [done|]. by rewrite app_nil_r.
Qed.

Lemma take_open v0 t : (if Nat.ltb 0 (length v0) then [take (length v0) (v0 ++ t)] else []) = visible_list v0.
Proof. rewrite take_app_length. by destruct v0. Qed.

Lemma think_step fuel v0 r t :
  includes v0 THINK = false -> includes r THINK_END = false ->
  think_go (S fuel) (v0 ++ THINK ++ r ++ THINK_END ++ t)
  = let '(vs, rs, u) := think_go fuel t in (visible_list v0 ++ vs, r :: rs, u).
Proof.
  intros Hv Hr. cbn [think_go].
  assert (indexOf THINK (v0 ++ THINK ++ r ++ THINK_END ++ t) = Some (length v0)) as ->.
  { apply indexOf_first; [|done]. cbv. intuition discriminate. }
  rewrite take_open.
  assert (drop (length v0 + 7) (v0 ++ THINK ++ r ++ THINK_END ++ t) = r ++ THINK_END ++ t) as ->.
  { rewrite app_assoc. apply drop_app_length'. rewrite length_app. done. }
  assert (indexOf THINK_END (r ++ THINK_END ++ t) = Some (length r)) as ->.
  { apply indexOf_first; [|done]. cbv. intuition discriminate. }
  rewrite take_app_length.
  assert (drop (length r + 8) (r ++ THINK_END ++ t) = t) as ->; [|done].
  rewrite app_assoc. apply drop_app_length'. rewrite length_app. done.
Qed.

Lemma think_closed fuel v0 bs :
  length (think_text v0 bs) < fuel -> includes v0 THINK = false -> forallb block_ok bs = true ->
  think_go fuel (think_text v0 bs)
  = (flat_map visible_list (v0 :: map snd bs), map fst bs, false).
Proof.
  revert fuel v0. induction bs as [|[r v] bs IH]; intros fuel v0 Hf Hv Hb.
  - destruct fuel as [|fuel]; [lia|]. cbn [think_text think_go].
    unfold includes in Hv. destruct (indexOf THINK v0); [done|]. cbn. by rewrite app_nil_r.
  - cbn [forallb] in Hb. apply andb_true_iff in Hb as [Hb1 Hb2].
    unfold block_ok in Hb1. cbn [fst snd] in Hb1.
    apply andb_true_iff in Hb1 as [Hr%negb_true_iff Hv'%negb_true_iff].
    destruct fuel as [|fuel]; [lia|]. cbn [think_text] in *. rewrite think_step by done.
    rewrite IH; [done| |done|done]. rewrite !length_app in Hf.
    change (length THINK) with 7 in Hf. lia.
Qed.

Lemma think_open fuel v0 bs r :
  length (think_text v0 bs ++ THINK ++ r) < fuel -> includes v0 THINK = false ->
  forallb block_ok bs = true -> includes r THINK_END = false ->
  think_go fuel (think_text v0 bs ++ THINK ++ r)
  = (flat_map visible_list (v0 :: map snd bs), map fst bs ++ [r], true).
Proof.
  revert fuel v0. induction bs as [|[r' v] bs IH]; intros fuel v0 Hf Hv Hb Hr.
  - destruct fuel as [|fuel]; [lia|]. cbn [think_text think_go].
    assert (indexOf THINK (v0 ++ THINK ++ r) = Some (length v0)) as ->.
    { apply indexOf_first; [|done]. cbv. intuition discriminate. }
    rewrite take_open.
    assert (drop (length v0 + 7) (v0 ++ THINK ++ r) = r) as ->.
    { rewrite app_assoc. apply drop_app_length'. by rewrite length_app. }
    unfold includes in Hr. destruct (indexOf THINK_END r); [done|]. cbn. by rewrite app_nil_r.
  - cbn [forallb] in Hb. apply andb_true_iff in Hb as [Hb1 Hb2].
    unfold block_ok in Hb1. cbn [fst snd] in Hb1.
    apply andb_true_iff in Hb1 as [Hr'%negb_true_iff Hv'%negb_true_iff].
    destruct fuel as [|fuel]; [lia|]. cbn [think_text] in *.
    rewrite <- !app_assoc in *. rewrite think_step by done.
    rewrite IH; [done| |done|done|done]. rewrite !length_app in Hf. rewrite !length_app.
    change (length THINK) with 7 in Hf |- *. lia.
Qed.

Lemma think_text_includes v0 r v bs t : includes (think_text v0 ((r, v) :: bs) ++ t) THINK = true.
Proof.
  apply includes_true. exists v0, (r ++ THINK_END ++ think_text v bs ++ t). cbn [think_text].
  by rewrite <- !app_assoc.
Qed.

(** [parseThinkTags] separates the reasoning blocks of a text from what is
    visible, closed blocks and a last block still open alike: the visible texts
    are concatenated, the reasoning texts separated by an empty line, and both
    trimmed. *)
Theorem think_tags_separated v0 b bs open :
  includes v0 THINK = false -> forallb block_ok (b :: bs) = true ->
  match open with Some r => includes r THINK_END = false | None => True end ->
  parseThinkTags (think_text v0 (b :: bs) ++ match open with Some r => THINK ++ r | None => [] end)
  = mkThink (trim (concat (v0 :: map snd (b :: bs))))
      (trim (join [10%N; 10%N] (map fst (b :: bs) ++ match open with Some r => [r] | None => [] end)))
      (match open with Some _ => true | None => false end).
Proof.
  intros Hv Hb Ho. unfold parseThinkTags. destruct b as [r v].
  rewrite think_text_includes. cbn [negb]. destruct open as [ro|].
  - rewrite think_open by (done || lia). by rewrite visible_list_join.
  - rewrite app_nil_r. rewrite think_closed by (done || lia). by rewrite visible_list_join, app_nil_r.
Qed.

Lemma think_tags_separated_witness :
  parseThinkTags (think_text (js "Hi ") [(js "plan", js "there")] ++ THINK ++ js "more")
  = mkThink (trim (concat [js "Hi "; js "there"]))
      (trim (join [10%N; 10%N] ([js "plan"] ++ [js "more"]))) true.
Proof.
  apply (think_tags_separated (js "Hi ") (js "plan", js "there") [] (Some (js "more"))); reflexivity.
Defined.

(** ** Streaming *)

Lemma content_with_streaming b m : getMessageContent (with_streaming b m) = getMessageContent m.
Proof. done. Qed.
Lemma content_with_reasoning r m : getMessageContent (with_reasoning r m) = getMessageContent m.
Proof. done. Qed.

Lemma completeReasoning_frame m now :
  versions (completeReasoningTiming m now) = versions m
  /\ status (completeReasoningTiming m now) = status m
  /\ from (completeReasoningTiming m now) = from m
  /\ key (completeReasoningTiming m now) = key m
  /\ isReasoningStreaming (completeReasoningTiming m now) = isReasoningStreaming m.
Proof.
  unfold completeReasoningTiming. destruct (reasoning m) as [r|]; [|done].
  by destruct (r_durationMs r).
Qed.

Lemma process_frame m chunk now :
  getMessageContent (processStreamingContent m chunk now) = getMessageContent m ++ chunk
  /\ from (processStreamingContent m chunk now) = from m
  /\ key (processStreamingContent m chunk now) = key m.
Proof.
  unfold processStreamingContent.
  destruct (reasoning m), (includes (getMessageContent m ++ chunk) THINK); done.
Qed.

Lemma content_chunk m chunk now now' :
  has_status Error m = false ->
  getMessageContent (applyStreamingChunk m ChunkContent chunk now now')
    = getMessageContent m ++ getAppendableChunk (getMessageContent m) chunk
  /\ status (applyStreamingChunk m ChunkContent chunk now now') = Some Streaming.
Proof.
  intros He. unfold applyStreamingChunk. rewrite He. split; [|done].
  set (cm := processStreamingContent _ _ _).
  destruct (process_frame m (getAppendableChunk (getMessageContent m) chunk) now) as [Hc _].
  fold cm in Hc. rewrite <- Hc. unfold getMessageContent, getCurrentVersion.
  destruct (bool_decide _); [done|]. cbn [with_status versions].
  destruct (completeReasoning_frame cm now') as (-> & _). done.
Qed.

(** A sequence of content chunks with their clock readings. *)
Definition stream_content (m : Message) (cs : list (jsstr * num * num)) : Message :=
  foldl (fun m c => applyStreamingChunk m ChunkContent c.1.1 c.1.2 c.2) m cs.

(** No chunk starts with everything received before it. *)
Fixpoint deltas_ok (acc : jsstr) (cs : list (jsstr * num * num)) : bool :=
  match cs with
  | [] => true
  | c :: cs =>
      (negb (truthy acc) || negb (startsWith c.1.1 acc)) && deltas_ok (acc ++ c.1.1) cs
  end.

(** Every chunk is the whole text so far. *)
Fixpoint snapshots_ok (acc : jsstr) (cs : list (jsstr * num * num)) : bool :=
  match cs with
  | [] => true
  | c :: cs => startsWith c.1.1 acc && snapshots_ok c.1.1 cs
  end.

Lemma appendable_delta acc c :
  negb (truthy acc) || negb (startsWith c acc) = true -> getAppendableChunk acc c = c.
Proof. unfold getAppendableChunk. by intros ->. Qed.

Lemma appendable_snapshot acc c : startsWith c acc = true -> acc ++ getAppendableChunk acc c = c.
Proof.
  unfold getAppendableChunk. intros [t ->]%startsWith_true.
  destruct (truthy acc) eqn:E; cbn [negb orb].
  - rewrite startsWith_app. cbn [negb]. by rewrite drop_app_length.
  - by destruct acc.
Qed.

Lemma not_error_streaming m : status m = Some Streaming -> has_status Error m = false.
Proof. unfold has_status. by intros ->. Qed.

Lemma last_default {A} (l : list A) a b : l <> [] -> List.last l a = List.last l b.
Proof. induction l as [|x [|y l] IH]; intros H; [done|done|]. by apply IH. Qed.

(** The text of a streamed answer is the concatenation of the deltas the
    server sends, as long as no delta starts with the whole text before it; when
    the server sends growing snapshots instead, it is the last snapshot. *)
Theorem streamed_content m cs :
  has_status Error m = false ->
  (deltas_ok (getMessageContent m) cs = true ->
   getMessageContent (stream_content m cs) = getMessageContent m ++ concat (map (fun c => c.1.1) cs))
  /\ (snapshots_ok (getMessageContent m) cs = true ->
      getMessageContent (stream_content m cs) = List.last (map (fun c => c.1.1) cs) (getMessageContent m)).
Proof.
  revert m. induction cs as [|[[c now] now'] cs IH]; intros m He.
  - split; intros _; [by rewrite app_nil_r|done].
  - destruct (content_chunk m c now now' He) as [Hc Hs].
    destruct (IH _ (not_error_streaming _ Hs)) as [IHd IHs].
    unfold stream_content in *. cbn [foldl fst snd map concat] in *. split.
    + cbn [deltas_ok fst]. intros [Hd Hrest]%andb_true_iff.
      rewrite IHd; rewrite Hc, (appendable_delta _ _ Hd); [by rewrite <- app_assoc|done].
    + cbn [snapshots_ok fst]. intros [Hd Hrest]%andb_true_iff.
      rewrite (appendable_snapshot _ _ Hd) in Hc. rewrite IHs; rewrite Hc; [|done].
      destruct (map _ cs) as [|x xs] eqn:E; [done|].
      change (List.last (c :: x :: xs) (getMessageContent m)) with (List.last (x :: xs) (getMessageContent m)).
      by apply last_default.
Qed.

Definition loading_message : Message := createLoadingAssistantMessage (js "k") (js "v") zero.

Lemma streamed_content_witness :
  let cs := [(js "Hello", zero, zero); (js ", ", zero, zero); (js "world", zero, zero)] in
  getMessageContent (stream_content loading_message cs)
  = getMessageContent loading_message ++ concat (map (fun c => c.1.1) cs).
Proof.
  apply (streamed_content loading_message
    [(js "Hello", zero, zero); (js ", ", zero, zero); (js "world", zero, zero)]); reflexivity.
Defined.

(** A delta that repeats the whole text before it is lost: the deltas of the
    number 11 are shown as 1. *)
Theorem repeated_delta_lost m c now now' :
  has_status Error m = false -> getMessageContent m = c -> truthy c = true ->
  getMessageContent (applyStreamingChunk m ChunkContent c now now') = c.
Proof.
  intros He Hc Ht. destruct (content_chunk m c now now' He) as [-> _]. rewrite Hc.
  apply appendable_snapshot. rewrite <- (app_nil_r c) at 1. apply startsWith_app.
Qed.

Lemma repeated_delta_lost_witness :
  getMessageContent (stream_content loading_message [(js "1", zero, zero); (js "1", zero, zero)])
  = js "1".
Proof.
  apply (repeated_delta_lost (stream_content loading_message [(js "1", zero, zero)]) (js "1") zero zero);
    reflexivity.
Defined.

(** ** Timing *)

(** The durations recorded for an answer and for its reasoning are never
    negative, whatever the clock did, and completing the reasoning a second time
    changes nothing. *)
Theorem durations_nonnegative m now now' :
  is_assistant m = true ->
  (forall s, default now (createdAt m) = s -> startedAt m = None -> isNaN (nsub now s) = false) ->
  (forall s, startedAt m = Some s -> isNaN (nsub now s) = false) ->
  (exists d, durationMs (completeAssistantTiming m now) = Some d /\ nle zero d = true)
  /\ completeReasoningTiming (completeReasoningTiming m now) now' = completeReasoningTiming m now.
Proof.
  intros Ha Hc Hs. split.
  - unfold completeAssistantTiming. rewrite Ha. cbn [negb durationMs with_timing].
    eexists. split; [reflexivity|]. apply nmax_zero_nonneg.
    destruct (startedAt m) as [s|]; [by apply Hs|by apply Hc].
  - unfold completeReasoningTiming at 2 3. destruct (reasoning m) as [r|] eqn:Er.
    + destruct (r_durationMs r) eqn:Ed; unfold completeReasoningTiming; [by rewrite Er, Ed|done].
    + unfold completeReasoningTiming. by rewrite Er.
Qed.

Lemma durations_nonnegative_witness :
  exists d, durationMs (completeAssistantTiming
    (createLoadingAssistantMessage (js "k") (js "v") (num_of_Z 1700000000000)) (num_of_Z 1600000000000))
    = Some d /\ nle zero d = true.
Proof.
  apply (durations_nonnegative
    (createLoadingAssistantMessage (js "k") (js "v") (num_of_Z 1700000000000))
    (num_of_Z 1600000000000) zero); [reflexivity|discriminate|].
  intros s [= <-]. vm_compute. reflexivity.
Defined.

(** ** Stuck messages *)

Lemma finalize_frame m api now now' :
  from (finalizeMessage m api now now') = from m /\ key (finalizeMessage m api now now') = key m
  /\ status (finalizeMessage m api now now') = status m.
Proof.
  unfold finalizeMessage.
  match goal with |- context [completeReasoningTiming ?x now'] =>
    destruct (completeReasoning_frame x now') as (_ & -> & -> & -> & _) end.
  done.
Qed.

Lemma assistant_timing_frame m now :
  from (completeAssistantTiming m now) = from m /\ key (completeAssistantTiming m now) = key m
  /\ status (completeAssistantTiming m now) = status m
  /\ versions (completeAssistantTiming m now) = versions m
  /\ reasoning (completeAssistantTiming m now) = reasoning m.
Proof. unfold completeAssistantTiming. by destruct (negb (is_assistant m)). Qed.

Lemma sanitize_settled t m now now' now'' :
  isAssistantMessageFinal (sanitizeMessage t m now now' now'') = true
  /\ key (sanitizeMessage t m now now' now'') = key m.
Proof.
  destruct (finalize_frame m None now now') as (_ & Hk & _).
  unfold sanitizeMessage. cbv zeta.
  destruct (hasMessageContent _ || _);
    unfold isAssistantMessageFinal, has_status;
    match goal with |- context [completeAssistantTiming ?x now''] =>
      destruct (assistant_timing_frame x now'') as (_ & -> & -> & _) end; by split.
Qed.

Lemma final_not_pending m : isAssistantMessageFinal m = true -> isPendingAssistantMessage m = false.
Proof.
  unfold isAssistantMessageFinal, isPendingAssistantMessage, isAssistantMessagePending, has_status.
  destruct (status m) as [[]|]; cbn; try done; by rewrite ?andb_false_r.
Qed.

Definition pending_count (ms : list Message) : nat :=
  length (List.filter isPendingAssistantMessage ms).

Lemma last_pending_split ms :
  match last_pending ms with
  | None => pending_count ms = 0
  | Some i => exists a m b, ms = a ++ m :: b /\ i = length a
      /\ isPendingAssistantMessage m = true /\ pending_count b = 0
  end.
Proof.
  induction ms as [|m ms IH]; [done|]. cbn [last_pending]. destruct (last_pending ms) as [i|].
  - destruct IH as (a & x & b & -> & -> & Hx & Hb). by exists (m :: a), x, b.
  - unfold pending_count in *. cbn [List.filter].
    destruct (isPendingAssistantMessage m) eqn:E; [by exists [], m, ms|done].
Qed.

(** Loading settles the last pending answer and leaves every other message
    as it is: the keys are unchanged and one answer less is pending, so that a
    list with several stuck answers keeps all but one of them. *)
Theorem sanitize_settles_one t ms now now' now'' :
  let ms' := sanitizeMessagesOnLoad t ms now now' now'' in
  map key ms' = map key ms
  /\ pending_count ms' = pending_count ms - 1
  /\ (forall i m, ms !! i = Some m -> Some i <> last_pending ms -> ms' !! i = Some m).
Proof.
  cbv zeta. unfold sanitizeMessagesOnLoad. pose proof (last_pending_split ms) as H.
  destruct (last_pending ms) as [i|] eqn:E.
  - destruct H as (a & m & b & -> & -> & Hm & Hb).
    rewrite list_lookup_middle by done.
    destruct (sanitize_settled t m now now' now'') as [Hf Hk].
    replace (<[length a:=sanitizeMessage t m now now' now'']> (a ++ m :: b))
      with (a ++ sanitizeMessage t m now now' now'' :: b)
      by (rewrite insert_app_r_alt by lia; by rewrite Nat.sub_diag).
    split; [rewrite !map_app; cbn; by rewrite Hk|]. split.
    + unfold pending_count in *. rewrite !List.filter_app, !length_app. cbn [List.filter].
      rewrite Hm, final_not_pending by done. cbn [length]. lia.
    + intros i x Hi Hne. assert (i <> length a) as Hia by congruence.
      destruct (decide (i < length a)).
      * rewrite lookup_app_l in * by done. done.
      * rewrite !lookup_app_r in * by lia. destruct (i - length a) eqn:Ei; [lia|]. done.
  - split; [done|]. split; [lia|done].
Qed.

(** ** Conversation edits *)

Definition keys_unique (ms : list Message) : Prop := NoDup (map key ms).

Lemma keys_take n ms : keys_unique ms -> keys_unique (take n ms).
Proof.
  unfold keys_unique. intros H. rewrite <- (take_drop n ms), map_app in H.
  by apply NoDup_app in H as (H & _).
Qed.

Lemma keys_snoc ms m : keys_unique ms -> ~ In (key m) (map key ms) -> keys_unique (ms ++ [m]).
Proof.
  unfold keys_unique. intros H Hn. rewrite map_app. apply NoDup_app. split; [done|].
  split; [|apply NoDup_singleton]. intros x Hx%list_elem_of_In ->%list_elem_of_singleton. done.
Qed.

Lemma keys_filter p ms : keys_unique ms -> keys_unique (List.filter p ms).
Proof.
  unfold keys_unique. induction ms as [|m ms IH]; [done|]. cbn.
  rewrite NoDup_cons. intros [Hm Hms]. destruct (p m); [|by apply IH]. cbn.
  rewrite NoDup_cons. split; [|by apply IH]. intros Hin. apply Hm.
  rewrite list_elem_of_In, in_map_iff in *. destruct Hin as (x & Hx & Hin).
  apply filter_In in Hin as [Hin _]. by exists x.
Qed.

Lemma edited_keys k content b now ms :
  map key (map (fun m => if str_eqb (key m) k
     then with_createdAt (if b : bool then Some now else createdAt m) (updateCurrentVersionContent m content)
     else m) ms) = map key ms.
Proof. rewrite map_map. apply map_ext. intros m. by destruct (str_eqb (key m) k). Qed.

Lemma take_keys n ms k : In k (map key (take n ms)) -> In k (map key ms).
Proof.
  rewrite <- (take_drop n ms) at 2. rewrite map_app, in_app_iff. tauto.
Qed.

Lemma keys_same ms ms' : map key ms' = map key ms -> keys_unique ms -> keys_unique ms'.
Proof. unfold keys_unique. by intros ->. Qed.

(** Sending, regenerating, editing and removing keep the keys of a
    conversation unique when the identifiers drawn are fresh, and a conversation
    that is to be sent ends with a loading answer. *)
Theorem conversation_keys_unique ms k1 v1 k2 v2 k content b now :
  keys_unique ms -> ~ In k1 (map key ms) -> ~ In k2 (map key ms) -> k1 <> k2 ->
  keys_unique (appendUserMessagePair ms content k1 v1 k2 v2 now)
  /\ last (appendUserMessagePair ms content k1 v1 k2 v2 now)
     = Some (createLoadingAssistantMessage k2 v2 now)
  /\ keys_unique (removeMessageByKey ms k)
  /\ (forall ms', createRegeneratedMessages ms k k2 v2 now = Some ms' ->
      keys_unique ms' /\ last ms' = Some (createLoadingAssistantMessage k2 v2 now))
  /\ (forall ms' send, applyMessageEdit ms k content b k2 v2 now = Some (ms', send) ->
      keys_unique ms'
      /\ (send = true -> last ms' = Some (createLoadingAssistantMessage k2 v2 now))).
Proof.
  intros Hu H1 H2 Hne. split; [|split; [|split; [|split]]].
  - unfold appendUserMessagePair.
    change [createUserMessage k1 v1 content now; createLoadingAssistantMessage k2 v2 now]
      with ([createUserMessage k1 v1 content now] ++ [createLoadingAssistantMessage k2 v2 now]).
    rewrite app_assoc. apply keys_snoc; [by apply keys_snoc|].
    rewrite map_app, in_app_iff. cbn. intros [?|[?|[]]]; [done|by destruct Hne].
  - unfold appendUserMessagePair. by rewrite last_app_cons.
  - by apply keys_filter.
  - intros ms'. unfold createRegeneratedMessages. destruct (index_of_key k ms) as [i|]; [|done].
    destruct (ms !! i) as [m|]; [|done].
    destruct (is_user m); intros [= <-]; (split; [|apply last_snoc]);
      apply keys_snoc; try (by apply keys_take); by intros ?%take_keys.
  - intros ms' send. unfold applyMessageEdit. destruct (index_of_key k ms) as [i|]; [|done].
    set (upd := map _ ms). assert (map key upd = map key ms) as Hk by apply edited_keys.
    pose proof (keys_same _ _ Hk Hu) as Hu'.
    destruct (_ || _); intros [= <- <-]; [by split|].
    split; [|intros _; apply last_snoc]. apply keys_snoc; [by apply keys_take|].
    intros Hin%take_keys. rewrite Hk in Hin. done.
Qed.

Lemma conversation_keys_unique_witness :
  keys_unique (appendUserMessagePair [] (js "hi") (js "a") (js "v") (js "b") (js "w") zero).
Proof.
  refine (proj1 (conversation_keys_unique [] (js "a") (js "v") (js "b") (js "w") (js "a") (js "hi")
    true zero _ _ _ _));
    [apply NoDup_nil_2|cbn; tauto|cbn; tauto|discriminate].
Defined.
