(* ===== verification/PlaygroundStorage.v ===== *)
(** * Playground storage

    Model of src/web/default/src/features/playground/lib/storage: the schema of
    stored messages, the bounds on what is stored and loaded, and the functions
    that load and save messages.  [localStorage] is an ordered map from keys to
    texts; [fits] tells whether [setItem] accepts a text. *)

From S2P Require Import Prelude JsStr JsRegex JsNum JsArray JsJson Messages.

Definition STORAGE_VERSION : num := num_of_Z 1.
Definition MAX_STORED_MESSAGES : nat := 100.
Definition MAX_STORED_MESSAGES_BYTES : N := 1048576.
Definition MAX_LOADED_MESSAGES_CHARS : N := 120000.
Definition MAX_LOADED_MESSAGE_CHARS : N := 40000.
Definition MIN_PREFIX_COLLAPSE_LENGTH : N := 2000.
Definition MIN_REPEATED_SECTION_COUNT : nat := 3.
Definition TRUNCATED_CONTENT_SUFFIX : jsstr := [10%N; 10%N] ++ js "[...]".
Definition MESSAGES_KEY := js "playground_messages".

Definition len (s : jsstr) : N := N.of_nat (length s).

(** ** storage-schema.ts *)

(** A missing field decodes to [None]; a field of the wrong type is refused. *)
Definition opt_field {A} (k : jsstr) (dec : json -> option A) (v : json) : option (option A) :=
  match jfield k v with
  | None => Some None
  | Some j => Some <$> dec j
  end.
Definition req_field {A} (k : jsstr) (dec : json -> option A) (v : json) : option A :=
  match jfield k v with None => None | Some j => dec j end.

Definition dec_str (j : json) : option jsstr := match j with JStr s => Some s | _ => None end.
Definition dec_num (j : json) : option num :=
  match j with JNum x => if isFinite x then Some x else None | _ => None end.
Definition dec_bool (j : json) : option bool := match j with JBool b => Some b | _ => None end.
Definition dec_nullable_str (j : json) : option (option jsstr) :=
  match j with JStr s => Some (Some s) | JNull => Some None | _ => None end.
Definition dec_array {A} (dec : json -> option A) (j : json) : option (list A) :=
  match j with JArr l => mapM dec l | _ => None end.
Definition dec_object (j : json) : option unit := match j with JObj _ => Some tt | _ => None end.

Definition role_str (r : MessageRole) : jsstr :=
  match r with User => js "user" | Assistant => js "assistant" | System => js "system" end.
Definition status_str (s : MessageStatus) : jsstr :=
  match s with
  | Loading => js "loading" | Streaming => js "streaming"
  | Complete => js "complete" | Error => js "error"
  end.

Definition messageRoleSchema (j : json) : option MessageRole :=
  s ← dec_str j; find (fun r => str_eqb (role_str r) s) [User; Assistant; System].
Definition messageStatusSchema (j : json) : option MessageStatus :=
  s ← dec_str j; find (fun r => str_eqb (status_str r) s) [Loading; Streaming; Complete; Error].

Definition messageVersionSchema (j : json) : option MessageVersion :=
  _ ← dec_object j;
  i ← req_field (js "id") dec_str j;
  c ← req_field (js "content") dec_str j;
  Some (mkVersion i c).

Definition sourceSchema (j : json) : option (jsstr * jsstr) :=
  _ ← dec_object j;
  h ← req_field (js "href") dec_str j;
  t ← req_field (js "title") dec_str j;
  Some (h, t).

Definition reasoningSchema (j : json) : option Reasoning :=
  _ ← dec_object j;
  c ← req_field (js "content") dec_str j;
  d ← req_field (js "duration") dec_num j;
  s ← opt_field (js "startedAt") dec_num j;
  e ← opt_field (js "completedAt") dec_num j;
  m ← opt_field (js "durationMs") dec_num j;
  Some (mkReasoning c d s e m).

(** [z.array(messageVersionSchema).min(1)]. *)
Definition versionsSchema (j : json) : option (list MessageVersion) :=
  vs ← dec_array messageVersionSchema j;
  match vs with [] => None | _ => Some vs end.

Definition messageSchema (j : json) : option Message :=
  _ ← dec_object j;
  k ← req_field (js "key") dec_str j;
  f ← req_field (js "from") messageRoleSchema j;
  vs ← req_field (js "versions") versionsSchema j;
  ca ← opt_field (js "createdAt") dec_num j;
  sa ← opt_field (js "startedAt") dec_num j;
  co ← opt_field (js "completedAt") dec_num j;
  du ← opt_field (js "durationMs") dec_num j;
  so ← opt_field (js "sources") (dec_array sourceSchema) j;
  re ← opt_field (js "reasoning") reasoningSchema j;
  rs ← opt_field (js "isReasoningStreaming") dec_bool j;
  rc ← opt_field (js "isReasoningComplete") dec_bool j;
  cc ← opt_field (js "isContentComplete") dec_bool j;
  st ← opt_field (js "status") messageStatusSchema j;
  ec ← opt_field (js "errorCode") dec_nullable_str j;
  Some (mkMessage k f vs ca sa co du so re rs rc cc st (default None ec)).

Definition messagesSchema (j : json) : option (list Message) := dec_array messageSchema j.

(** ** Stored values *)

(** The object a value is stored as: fields that are missing are left out. *)
Definition field_of {A} (k : jsstr) (enc : A -> json) (x : option A) : list (jsstr * json) :=
  match x with Some a => [(k, enc a)] | None => [] end.

Definition enc_version (v : MessageVersion) : json :=
  JObj [(js "id", JStr (v_id v)); (js "content", JStr (v_content v))].
Definition enc_source (s : jsstr * jsstr) : json :=
  JObj [(js "href", JStr s.1); (js "title", JStr s.2)].
Definition enc_reasoning (r : Reasoning) : json :=
  JObj ([(js "content", JStr (r_content r)); (js "duration", JNum (r_duration r))]
    ++ field_of (js "startedAt") JNum (r_startedAt r)
    ++ field_of (js "completedAt") JNum (r_completedAt r)
    ++ field_of (js "durationMs") JNum (r_durationMs r)).
Definition enc_message (m : Message) : json :=
  JObj ([(js "key", JStr (key m)); (js "from", JStr (role_str (from m)));
         (js "versions", JArr (map enc_version (versions m)))]
    ++ field_of (js "createdAt") JNum (createdAt m)
    ++ field_of (js "startedAt") JNum (startedAt m)
    ++ field_of (js "completedAt") JNum (completedAt m)
    ++ field_of (js "durationMs") JNum (durationMs m)
    ++ field_of (js "sources") (fun l => JArr (map enc_source l)) (sources m)
    ++ field_of (js "reasoning") enc_reasoning (reasoning m)
    ++ field_of (js "isReasoningStreaming") JBool (isReasoningStreaming m)
    ++ field_of (js "isReasoningComplete") JBool (isReasoningComplete m)
    ++ field_of (js "isContentComplete") JBool (isContentComplete m)
    ++ field_of (js "status") (fun s => JStr (status_str s)) (status m)
    ++ field_of (js "errorCode") JStr (errorCode m)).
Definition enc_messages (ms : list Message) : json := JArr (map enc_message ms).

(** [JSON.stringify] without indentation. *)
Fixpoint stringify (v : json) : jsstr :=
  match v with
  | JNull => js "null"
  | JBool b => if b then js "true" else js "false"
  | JNum x => if isFinite x then num_to_str x else js "null"
  | JStr s => quote s
  | JArr l => js "[" ++ join (js ",") (map stringify l) ++ js "]"
  | JObj l =>
      js "{" ++ join (js ",") (map (fun p => match p with (k, x) => quote k ++ js ":" ++ stringify x end) l)
      ++ js "}"
  end.

Definition Storage := list (jsstr * jsstr).

Definition readStoredMessagesValue (st : Storage) : outcome (option json) * Storage :=
  match mget MESSAGES_KEY st with
  | None | Some [] => (Returns None, st)
  | Some saved =>
      if (MAX_STORED_MESSAGES_BYTES <? len saved)%N
      then (Returns None, List.filter (fun p => negb (str_eqb p.1 MESSAGES_KEY)) st)
      else (match parse saved with Some v => Returns (Some v) | None => Throws (js "SyntaxError") end, st)
  end.

(** An envelope is an object with both keys. *)
Definition unwrapStoredValue (v : json) : json :=
  match jfield (js "version") v, jfield (js "data") v with
  | Some _, Some d => d
  | _, _ => v
  end.

Definition writeStoredValue (fits : jsstr -> bool) (k : jsstr) (data : json) (st : Storage) : Storage :=
  let text := stringify (JObj [(js "version", JNum STORAGE_VERSION); (js "data", data)]) in
  if fits text then mset k text st else st.

(** ** Bounds *)

Definition trimMessages (ms : list Message) : list Message :=
  if Nat.leb (length ms) MAX_STORED_MESSAGES then ms
  else drop (length ms - MAX_STORED_MESSAGES) ms.

Definition getMessageSize (m : Message) : N :=
  (foldl (fun total v => total + len (v_content v)) 0 (versions m)
   + match reasoning m with Some r => len (r_content r) | None => 0 end)%N.

Definition truncateText (text : jsstr) (maxLength : N) : jsstr :=
  if (len text <=? maxLength)%N then text
  else if (maxLength <=? len TRUNCATED_CONTENT_SUFFIX)%N then take (N.to_nat maxLength) text
  else take (N.to_nat (maxLength - len TRUNCATED_CONTENT_SUFFIX)) text ++ TRUNCATED_CONTENT_SUFFIX.

(** Two to six number signs, spaces, a number and a point, spaces and a text up
    to the end of the line. *)
Definition SECTION_HEADING_LINE_PATTERN : regex :=
  (RMBol +> RStr (js "##") +> ROpt (RStr (js "#")) +> ROpt (RStr (js "#")) +> ROpt (RStr (js "#"))
   +> ROpt (RStr (js "#")) +> RPlus (RChar is_space) +> RPlus (RChar is_digit) +> RStr (js ".")
   +> RPlus (RChar is_space) +> RPlus (RChar cls_dot) +> RMEol)%re.

(** The headings with their positions, from the position [at_]. *)
Fixpoint occurrences_from (at_ : nat) (ms : list mresult) : list (jsstr * nat) :=
  match ms with
  | [] => []
  | m :: ms =>
      let i := at_ + length (mr_before m) in
      (mr_text m, i) :: occurrences_from (i + length (mr_text m)) ms
  end.
Definition getSectionOccurrences (text : jsstr) : list (jsstr * nat) :=
  occurrences_from 0 (rexec_g SECTION_HEADING_LINE_PATTERN text).

Definition getHeadingCounts (os : list (jsstr * nat)) : list (jsstr * nat) :=
  foldl (fun counts o => mset o.1 (S (default 0 (mget o.1 counts))) counts) [] os.

(** The loop from the last occurrence to the first. *)
Fixpoint last_repeated (counts : list (jsstr * nat)) (seen : list jsstr) (os : list (jsstr * nat)) : list nat :=
  match os with
  | [] => []
  | (h, i) :: os =>
      if Nat.ltb (default 0 (mget h counts)) MIN_REPEATED_SECTION_COUNT || existsb (str_eqb h) seen
      then last_repeated counts seen os
      else i :: last_repeated counts (h :: seen) os
  end.

(** [None] stands for -1. *)
Definition findLastRepeatedSectionRunStart (text : jsstr) : option nat :=
  let os := getSectionOccurrences text in
  match last_repeated (getHeadingCounts os) [] (rev os) with
  | [] => None
  | i :: is_ => Some (foldl Nat.min i is_)
  end.

Definition collapseRepeatedSectionSnapshots (text : jsstr) : jsstr :=
  if (len text <? MIN_PREFIX_COLLAPSE_LENGTH)%N then text
  else match findLastRepeatedSectionRunStart text with
       | None => text
       | Some i => drop i text
       end.

Definition normalize_version (v : MessageVersion) : MessageVersion :=
  mkVersion (v_id v) (truncateText (collapseRepeatedSectionSnapshots (v_content v)) MAX_LOADED_MESSAGE_CHARS).

(** A version or a reasoning that does not change is rebuilt with the same
    fields. *)
Definition normalizeStoredMessageForLoad (m : Message) (now now' now'' : num) : Message :=
  let normalized :=
    with_reasoning ((fun r => set_content (truncateText (r_content r) MAX_LOADED_MESSAGE_CHARS) r) <$> reasoning m)
      (with_versions (map normalize_version (versions m)) m) in
  if negb (isAssistantMessagePending normalized) then normalized
  else
    let hasReasoning := match reasoning normalized with
                        | Some r => truthy (trim (r_content r)) | None => false end in
    if negb (hasMessageContent normalized) && negb hasReasoning then normalized
    else
      let first_some (a b : option num) := match a with Some _ => a | None => b end in
      let completed := default now
        (first_some (completedAt normalized)
          (first_some (reasoning normalized ≫= r_completedAt)
            (first_some (startedAt normalized) (createdAt normalized)))) in
      completeAssistantTiming
        (with_streaming false (with_status Complete (finalizeMessage normalized None now' now'')))
        completed.

(** The loop from the last message to the first; [kept] is what it has kept. *)
Fixpoint size_trim_go (rms : list Message) (total : N) (kept : list Message) : list Message :=
  match rms with
  | [] => kept
  | m :: rms =>
      if match kept with [] => false | _ => true end
         && (MAX_LOADED_MESSAGES_CHARS <? total + getMessageSize m)%N
      then kept
      else size_trim_go rms (total + getMessageSize m)%N (m :: kept)
  end.

Definition trimMessagesByContentSize (ms : list Message) : list Message := size_trim_go (rev ms) 0 [].

Definition saveMessages (fits : jsstr -> bool) (ms : list Message) (st : Storage) : Storage :=
  match messagesSchema (enc_messages (trimMessages ms)) with
  | Some parsed => writeStoredValue fits MESSAGES_KEY (enc_messages parsed) st
  | None => st
  end.

(** [trimMessagesByContentSize] returns a new array, so that the test for a
    change always holds and the messages are always saved again. *)
Definition loadMessages (fits : jsstr -> bool) (t : jsstr -> jsstr) (now now' now'' : num) (st : Storage)
    : option (list Message) * Storage :=
  match readStoredMessagesValue st with
  | (Throws _, st1) | (Returns None, st1) => (None, st1)
  | (Returns (Some saved), st1) =>
      if negb (json_truthy saved) then (None, st1)
      else
        match messagesSchema (unwrapStoredValue saved) with
        | None => (None, st1)
        | Some parsed =>
            let normalized := map (fun m => normalizeStoredMessageForLoad m now now' now'') parsed in
            let sizeTrimmed := trimMessagesByContentSize (trimMessages normalized) in
            let sanitized := sanitizeMessagesOnLoad t sizeTrimmed now now' now'' in
            (Some sanitized, saveMessages fits sanitized st1)
        end
  end.

(** ** The schema reads what was stored *)

Section Fields.
Context {A B : Type} (k k' : jsstr) (dec : json -> option A) (enc : B -> json) (x : option B)
  (l : list (jsstr * json)).

Lemma jfield_cons v : jfield k (JObj ((k', v) :: l)) = if str_eqb k' k then Some v else jfield k (JObj l).
Proof. unfold jfield. cbn [find fst]. by destruct (str_eqb k' k). Qed.

Lemma jfield_skip : str_eqb k' k = false -> jfield k (JObj (field_of k' enc x ++ l)) = jfield k (JObj l).
Proof. intros H. destruct x; [|done]. cbn [field_of app]. unfold jfield. cbn [find fst]. by rewrite H. Qed.

Lemma opt_skip : str_eqb k' k = false ->
  opt_field k dec (JObj (field_of k' enc x ++ l)) = opt_field k dec (JObj l).
Proof. intros H. unfold opt_field. by rewrite jfield_skip. Qed.

Lemma opt_skip_cons v : str_eqb k' k = false ->
  opt_field k dec (JObj ((k', v) :: l)) = opt_field k dec (JObj l).
Proof. intros H. unfold opt_field. by rewrite jfield_cons, H. Qed.
End Fields.

Lemma opt_hit {A} (k : jsstr) (dec : json -> option A) (enc : A -> json) x l :
  jfield k (JObj l) = None -> match x with Some a => dec (enc a) = Some a | None => True end ->
  opt_field k dec (JObj (field_of k enc x ++ l)) = Some x.
Proof.
  intros Hl Hx. unfold opt_field. destruct x as [a|]; cbn [field_of app].
  - rewrite jfield_cons, str_eqb_refl. by rewrite Hx.
  - by rewrite Hl.
Qed.

Ltac no_field := repeat (rewrite jfield_skip by reflexivity || rewrite jfield_cons;
  change (str_eqb _ _) with false; cbn iota); reflexivity.

(** Steps over the fields before the one that is read. *)
Ltac read_field :=
  repeat first [ rewrite opt_skip by reflexivity | rewrite opt_skip_cons by reflexivity ].

Definition finite_opt (x : option num) : bool := match x with Some v => isFinite v | None => true end.

Definition storable_reasoning (r : Reasoning) : bool :=
  isFinite (r_duration r) && finite_opt (r_startedAt r) && finite_opt (r_completedAt r)
  && finite_opt (r_durationMs r).

(** A message with a version and finite times. *)
Definition storable (m : Message) : bool :=
  match versions m with [] => false | _ => true end
  && finite_opt (createdAt m) && finite_opt (startedAt m) && finite_opt (completedAt m)
  && finite_opt (durationMs m)
  && match reasoning m with Some r => storable_reasoning r | None => true end.

Lemma finite_dec x : finite_opt x = true -> match x with Some a => dec_num (JNum a) = Some a | None => True end.
Proof. destruct x; [|done]. cbn [finite_opt dec_num]. by intros ->. Qed.

Lemma enc_dec_reasoning r : storable_reasoning r = true -> reasoningSchema (enc_reasoning r) = Some r.
Proof.
  unfold storable_reasoning. rewrite !andb_true_iff. intros [[[Hd Hs] Hc] Hm].
  unfold reasoningSchema, enc_reasoning. cbn [dec_object mbind option_bind].
  rewrite <- (app_nil_r (field_of (js "durationMs") JNum (r_durationMs r))). cbn [app].
  assert (forall l, req_field (js "content") dec_str (JObj ((js "content", JStr (r_content r)) :: l)) = Some (r_content r)) as -> by done.
  assert (forall l c, req_field (js "duration") dec_num (JObj ((js "content", c) :: (js "duration", JNum (r_duration r)) :: l))
    = Some (r_duration r)) as -> by (intros; change (dec_num (JNum (r_duration r)) = Some (r_duration r)); unfold dec_num; by rewrite Hd).
  cbn [mbind option_bind]. read_field.
  rewrite opt_hit by (no_field || by apply finite_dec). cbn [mbind option_bind]. read_field.
  rewrite opt_hit by (no_field || by apply finite_dec). cbn [mbind option_bind]. read_field.
  rewrite opt_hit by (no_field || by apply finite_dec). cbn [mbind option_bind]. by destruct r.
Qed.

Lemma mapM_enc {A} (dec : json -> option A) (enc : A -> json) l :
  Forall (fun a => dec (enc a) = Some a) l -> mapM dec (map enc l) = Some l.
Proof. induction 1 as [|a l Ha _ IH]; [done|]. cbn. rewrite Ha. cbn. by rewrite IH. Qed.

Lemma enc_dec_versions vs : vs <> [] -> versionsSchema (JArr (map enc_version vs)) = Some vs.
Proof.
  intros Hne. unfold versionsSchema, dec_array. rewrite mapM_enc.
  - by destruct vs.
  - apply Forall_forall. by intros [i c] _.
Qed.

Lemma enc_dec_sources l : dec_array sourceSchema (JArr (map enc_source l)) = Some l.
Proof. apply mapM_enc. apply Forall_forall. by intros [h t] _. Qed.

(** Reads one field of an encoded object. *)
Ltac field_ok tac :=
  unfold enc_message; cbn [app];
  rewrite <- (app_nil_r (field_of (js "errorCode") JStr _));
  read_field; rewrite opt_hit; [reflexivity|no_field|tac].

Section EncMessage.
Variable m : Message.
Hypothesis Hm : storable m = true.

Lemma enc_key : req_field (js "key") dec_str (enc_message m) = Some (key m).
Proof. done. Qed.
Lemma enc_from : req_field (js "from") messageRoleSchema (enc_message m) = Some (from m).
Proof.
  change (messageRoleSchema (JStr (role_str (from m))) = Some (from m)). by destruct (from m).
Qed.
Lemma enc_versions : req_field (js "versions") versionsSchema (enc_message m) = Some (versions m).
Proof.
  change (versionsSchema (JArr (map enc_version (versions m))) = Some (versions m)).
  apply enc_dec_versions. unfold storable in Hm. by destruct (versions m).
Qed.
Lemma enc_times :
  opt_field (js "createdAt") dec_num (enc_message m) = Some (createdAt m)
  /\ opt_field (js "startedAt") dec_num (enc_message m) = Some (startedAt m)
  /\ opt_field (js "completedAt") dec_num (enc_message m) = Some (completedAt m)
  /\ opt_field (js "durationMs") dec_num (enc_message m) = Some (durationMs m).
Proof.
  unfold storable in Hm. rewrite !andb_true_iff in Hm. destruct Hm as [[[[[_ H1] H2] H3] H4] _].
  repeat split; field_ok ltac:(by apply finite_dec).
Qed.
Lemma enc_parts :
  opt_field (js "sources") (dec_array sourceSchema) (enc_message m) = Some (sources m)
  /\ opt_field (js "reasoning") reasoningSchema (enc_message m) = Some (reasoning m)
  /\ opt_field (js "status") messageStatusSchema (enc_message m) = Some (status m).
Proof.
  unfold storable in Hm. rewrite !andb_true_iff in Hm. destruct Hm as [_ Hr]. repeat split.
  - field_ok ltac:(by destruct (sources m); [apply enc_dec_sources|]).
  - field_ok ltac:(by destruct (reasoning m); [apply enc_dec_reasoning|]).
  - field_ok ltac:(by destruct (status m) as [[]|]).
Qed.
Lemma enc_flags :
  opt_field (js "isReasoningStreaming") dec_bool (enc_message m) = Some (isReasoningStreaming m)
  /\ opt_field (js "isReasoningComplete") dec_bool (enc_message m) = Some (isReasoningComplete m)
  /\ opt_field (js "isContentComplete") dec_bool (enc_message m) = Some (isContentComplete m).
Proof.
  repeat split; field_ok ltac:(by match goal with |- match ?x with _ => _ end => destruct x end).
Qed.
Lemma enc_error :
  opt_field (js "errorCode") dec_nullable_str (enc_message m) = Some (Some <$> errorCode m).
Proof.
  unfold enc_message. cbn [app]. read_field. by destruct (errorCode m).
Qed.

Lemma enc_dec_message : messageSchema (enc_message m) = Some m.
Proof.
  unfold messageSchema. rewrite enc_key, enc_from, enc_versions, enc_error.
  destruct enc_times as (-> & -> & -> & ->), enc_parts as (-> & -> & ->), enc_flags as (-> & -> & ->).
  cbn. destruct m as [? ? ? ? ? ? ? ? ? ? ? ? ? []]; done.
Qed.
End EncMessage.

(** What is stored is read back: the schema accepts the stored form of every
    list of messages that have a version and finite times, and returns the
    messages themselves; the envelope is opened around them. *)
Theorem stored_messages_read_back ms :
  forallb storable ms = true ->
  messagesSchema (unwrapStoredValue
    (JObj [(js "version", JNum STORAGE_VERSION); (js "data", enc_messages ms)])) = Some ms.
Proof.
  intros Hs. change (messagesSchema (enc_messages ms) = Some ms).
  apply (mapM_enc messageSchema enc_message). apply forallb_forall_iff in Hs.
  eapply Forall_impl; [exact Hs|]. intros m. apply enc_dec_message.
Qed.

Definition sample_message : Message :=
  createUserMessage (js "k") (js "v") (js "hello") (num_of_Z 1700000000000).

Lemma stored_messages_read_back_witness :
  messagesSchema (unwrapStoredValue
    (JObj [(js "version", JNum STORAGE_VERSION); (js "data", enc_messages [sample_message])]))
  = Some [sample_message].
Proof. apply (stored_messages_read_back [sample_message]). reflexivity. Defined.

(** ** Bounds *)

Lemma trimMessages_length ms : length (trimMessages ms) <= MAX_STORED_MESSAGES.
Proof.
  unfold trimMessages. destruct (Nat.leb_spec (length ms) MAX_STORED_MESSAGES); [done|].
  rewrite length_drop. lia.
Qed.

Definition total_size (ms : list Message) : N := foldr (fun m n => getMessageSize m + n)%N 0%N ms.

(** What the loop keeps: all of [kept], and as much as fits before it. *)
Lemma size_trim_spec rms kept :
  (total_size kept <= MAX_LOADED_MESSAGES_CHARS)%N \/ length kept <= 1 ->
  let r := size_trim_go rms (total_size kept) kept in
  exists pre mid, rev rms = pre ++ mid /\ r = mid ++ kept
    /\ ((total_size r <= MAX_LOADED_MESSAGES_CHARS)%N \/ length r <= 1)
    /\ (r = [] -> rms = [] /\ kept = [])
    /\ match last pre with
       | Some m => (MAX_LOADED_MESSAGES_CHARS < getMessageSize m + total_size r)%N
       | None => True
       end.
Proof.
  revert kept. induction rms as [|m rms IH]; intros kept Hk; cbn [size_trim_go].
  - by exists [], [].
  - destruct (_ && _) eqn:E.
    + exists (rev rms ++ [m]), []. split; [by rewrite app_nil_r|]. split; [done|]. split; [done|].
      apply andb_true_iff in E as [E1 E2%N.ltb_lt]. split; [by intros ->|]. rewrite last_snoc. lia.
    + rewrite N.add_comm. change (getMessageSize m + total_size kept)%N with (total_size (m :: kept)).
      destruct (IH (m :: kept)) as (pre & mid & H1 & H2 & H3 & H4 & H5).
      { apply andb_false_iff in E as [E|E%N.ltb_ge]; [|left; change (total_size (m :: kept)) with (getMessageSize m + total_size kept)%N; lia].
        right. by destruct kept. }
      exists pre, (mid ++ [m]). cbn [rev]. rewrite H1, <- app_assoc. split; [done|].
      rewrite H2 in *. rewrite <- app_assoc. split; [done|]. split; [done|].
      split; [by destruct mid|done].
Qed.

(** What is loaded of a conversation is its end: the longest one whose
    texts fit into the budget, and at least the last message. *)
Theorem size_trim_longest_suffix ms :
  let r := trimMessagesByContentSize ms in
  exists pre, ms = pre ++ r
    /\ ((total_size r <= MAX_LOADED_MESSAGES_CHARS)%N \/ length r <= 1)
    /\ (r = [] -> ms = [])
    /\ match last pre with
       | Some m => (MAX_LOADED_MESSAGES_CHARS < getMessageSize m + total_size r)%N
       | None => True
       end.
Proof.
  cbv zeta. unfold trimMessagesByContentSize.
  destruct (size_trim_spec (rev ms) []) as (pre & mid & H1 & H2 & H3 & H4 & H5); [right; cbn; lia|].
  change (total_size []) with 0%N in *. rewrite rev_involutive in H1. rewrite H2, app_nil_r in *.
  exists pre. split; [done|]. split; [done|]. split; [|done].
  intros ->. destruct H4 as [H4 _]; [done|]. by destruct ms as [|m ms] using rev_ind; [|rewrite rev_unit in H4].
Qed.

(** A truncated text never exceeds its bound, is the text itself when that
    fits, and otherwise starts like it; collapsing keeps an end of the text. *)
Theorem truncation_bounded text maxLength :
  (len (truncateText text maxLength) <= maxLength)%N
  /\ ((len text <= maxLength)%N -> truncateText text maxLength = text)
  /\ (exists n suffix, truncateText text maxLength = take n text ++ suffix)
  /\ exists i, collapseRepeatedSectionSnapshots text = drop i text.
Proof.
  assert (len TRUNCATED_CONTENT_SUFFIX = 7)%N as Hs by done.
  assert (forall n, (N.of_nat (length (take n text)) <= N.of_nat n)%N) as Ht
    by (intros n; rewrite length_take; lia).
  split; [|split; [|split]].
  - unfold truncateText. destruct (N.leb_spec (len text) maxLength); [done|].
    destruct (N.leb_spec maxLength (len TRUNCATED_CONTENT_SUFFIX)).
    + unfold len. specialize (Ht (N.to_nat maxLength)). lia.
    + unfold len at 1. rewrite length_app, Nat2N.inj_add. fold (len TRUNCATED_CONTENT_SUFFIX).
      specialize (Ht (N.to_nat (maxLength - len TRUNCATED_CONTENT_SUFFIX))). lia.
  - intros H. unfold truncateText. by rewrite (proj2 (N.leb_le _ _) H).
  - unfold truncateText. destruct (_ <=? _)%N; [exists (length text), []; by rewrite firstn_all, app_nil_r|].
    destruct (_ <=? _)%N; eexists _, _; [symmetry; apply app_nil_r|reflexivity].
  - unfold collapseRepeatedSectionSnapshots. destruct (_ <? _)%N; [by exists 0|].
    destruct (findLastRepeatedSectionRunStart text) as [i|]; [by exists i|by exists 0].
Qed.
