(* ===== verification/ChatHandler.v ===== *)
(** * Sending a conversation: requests, streams and their state machine

    Model of the playground's lib/streaming, lib/options and lib/input and of
    the hooks use-stream-request.ts, use-chat-handler.ts and
    use-playground-conversation.ts.  The refs and the React state of the hooks
    are the fields of one record; every callback is a function on it.  The
    server-sent events of sse.js, the answers of the API and the expiry of the
    flush timer are the events of a transition system. *)

From S2P Require Import Prelude JsStr JsNum JsArray JsJson Messages.

(** ** stream-utils.ts *)

Definition NETWORK_ERROR := js "Network connection failed or server not responding".
Definition PARSE_ERROR := js "Error parsing response data".
Definition STREAM_START_ERROR := js "Error establishing connection".
Definition CONNECTION_CLOSED := js "Connection closed".
Definition ERROR_MESSAGES : list jsstr :=
  [API_REQUEST_ERROR; NETWORK_ERROR; PARSE_ERROR; STREAM_START_ERROR; CONNECTION_CLOSED; INTERRUPTED].

Record ErrorDetails := mkDetails { d_code : option jsstr; d_message : jsstr }.

(** A string field, at its declared type; an empty string counts as missing. *)
Definition str_field (k : jsstr) (v : json) : option jsstr :=
  match jfield k v with
  | Some (JStr s) => if truthy s then Some s else None
  | _ => None
  end.

Definition json_falsy (v : json) : bool :=
  match v with
  | JNull | JBool false => true
  | JNum x => negb (ntruthy x)
  | JStr s => negb (truthy s)
  | _ => false
  end.

Definition parseStreamErrorDetails (data : option jsstr) : ErrorDetails :=
  let d := default [] data in
  let fallback := str_or d API_REQUEST_ERROR in
  if negb (truthy d) then mkDetails None fallback
  else
    match parse d with
    | None => mkDetails None fallback
    | Some v =>
        match jfield (js "error") v with
        | None => mkDetails None fallback
        | Some e =>
            if json_falsy e then mkDetails None fallback
            else mkDetails (str_field (js "code") e) (default fallback (str_field (js "message") e))
        end
    end.

(** [v?.[0]] on a parsed value. *)
Definition first_of (v : json) : option json :=
  match v with
  | JArr (x :: _) => Some x
  | JStr (c :: _) => Some (JStr [c])
  | JObj _ => jfield (js "0") v
  | _ => None
  end.

(** [Throws] is the exception of [JSON.parse], or of reading a field of null. *)
Definition parseStreamMessageUpdates (data : jsstr) : outcome (list (StreamChunkType * jsstr)) :=
  match parse data with
  | None => Throws (js "SyntaxError")
  | Some JNull => Throws (js "TypeError")
  | Some v =>
      match (jfield (js "choices") v ≫= first_of) ≫= jfield (js "delta") with
      | None => Returns []
      | Some delta =>
          Returns
            ((match str_field (js "reasoning_content") delta with
              | Some s => [(ChunkReasoning, s)] | None => [] end)
             ++ (match str_field (js "content") delta with
                 | Some s => [(ChunkContent, s)] | None => [] end))
      end
  end.

Definition isStreamDoneMessage (data : jsstr) : bool := str_eqb data (js "[DONE]").
Definition isStreamClosedReadyState (rs : option Z) : bool := bool_decide (rs = Some 2%Z).

Definition getStreamReadyStateError (rs : option Z) (status : option Z) : option jsstr :=
  match rs, status with
  | Some r, Some s =>
      if (2 <=? r)%Z && negb (s =? 200)%Z
      then Some (js "HTTP " ++ num_to_str (num_of_Z s) ++ js ": " ++ CONNECTION_CLOSED) else None
  | _, _ => None
  end.

(** ** request-error-utils.ts: the fields of a failed request that are read *)

Record RequestErrorLike := mkReqError {
  re_message : option jsstr; re_code : option jsstr; re_data_message : option jsstr
}.

Definition nonempty (s : option jsstr) : option jsstr :=
  match s with Some t => if truthy t then Some t else None | None => None end.

Definition parseRequestErrorDetails (e : RequestErrorLike) : ErrorDetails :=
  mkDetails (nonempty (re_code e))
    (match nonempty (re_data_message e) with
     | Some m => m
     | None => default API_REQUEST_ERROR (nonempty (re_message e))
     end).

(** ** payload-builder.ts *)

Record PlaygroundConfig := mkConfig {
  c_model : jsstr; c_group : jsstr; c_temperature : num; c_top_p : num; c_max_tokens : num;
  c_frequency_penalty : num; c_presence_penalty : num; c_seed : option num; c_stream : bool
}.

Record ParameterEnabled := mkEnabled {
  e_temperature : bool; e_top_p : bool; e_max_tokens : bool;
  e_frequency_penalty : bool; e_presence_penalty : bool; e_seed : bool
}.

Record ChatCompletionRequest := mkRequest {
  q_model : jsstr; q_group : jsstr; q_messages : list ChatCompletionMessage; q_stream : bool;
  q_temperature : option num; q_top_p : option num; q_max_tokens : option num;
  q_frequency_penalty : option num; q_presence_penalty : option num; q_seed : option num
}.

Definition when {A} (b : bool) (x : A) : option A := if b then Some x else None.

Definition buildChatCompletionPayload (ms : list Message) (c : PlaygroundConfig)
    (e : ParameterEnabled) : ChatCompletionRequest :=
  mkRequest (c_model c) (c_group c) (map formatMessageForAPI (List.filter isValidMessage ms))
    (c_stream c)
    (when (e_temperature e) (c_temperature c)) (when (e_top_p e) (c_top_p c))
    (when (e_max_tokens e) (c_max_tokens c))
    (when (e_frequency_penalty e) (c_frequency_penalty c))
    (when (e_presence_penalty e) (c_presence_penalty c))
    (if e_seed e then c_seed c else None).

(** ** playground-option-utils.ts, input-control-utils.ts *)

Definition getModelFallback (models : list jsstr) (current : jsstr) : option jsstr :=
  match models with
  | [] => None
  | m :: _ => if existsb (fun v => str_eqb v current) models then None else Some m
  end.

Definition shouldClearModelForGroup (models : list jsstr) (current : jsstr) : bool :=
  if str_eqb current [] then false else negb (existsb (fun v => str_eqb v current) models).

Definition getGroupFallback (groups : list jsstr) (current : jsstr) : option jsstr :=
  match groups with
  | [] => None
  | g :: _ =>
      if existsb (fun v => str_eqb v current) groups then None
      else Some (default g (find (fun v => str_eqb v (js "default")) groups))
  end.

Definition getSubmittableInputText (text : option jsstr) (disabled : bool) : option jsstr :=
  match text with
  | Some t => if disabled || negb (truthy (trim t)) then None else Some t
  | None => None
  end.

(** The result: canSubmit, isSelectorDisabled, shouldShowStop. *)
Definition getInputControlState (disabled hasStop isGenerating isModelLoading : bool)
    (groups models : list jsstr) (text : jsstr) : bool * bool * bool :=
  (negb disabled && negb (match models with [] => true | _ => false end) && truthy (trim text),
   disabled || isModelLoading || match groups with [] => true | _ => false end,
   isGenerating && hasStop).

(** ** The state of the hooks *)

Record ChatState := mkChat {
  messages : list Message;
  isRequesting : bool;
  isStreaming : bool;
  sseSource : option nat;            (* sseSourceRef *)
  streamComplete : bool;             (* isStreamCompleteRef *)
  pendingContent : jsstr;            (* pendingStreamChunksRef *)
  pendingReasoning : jsstr;
  flushTimer : bool;                 (* streamFlushTimerRef is set *)
  abortController : option nat;      (* abortControllerRef *)
  requestId : nat;                   (* requestIdRef *)
  aborted : list nat;                (* the controllers that were aborted *)
  nextSource : nat;
  closedSources : list nat           (* the sources that were closed *)
}.

Definition initial_chat (ms : list Message) : ChatState :=
  mkChat ms false false None false [] [] false None 0 [] 0 [].

Definition set_messages (f : list Message -> list Message) (s : ChatState) : ChatState :=
  mkChat (f (messages s)) (isRequesting s) (isStreaming s) (sseSource s) (streamComplete s)
    (pendingContent s) (pendingReasoning s) (flushTimer s) (abortController s) (requestId s)
    (aborted s) (nextSource s) (closedSources s).
Definition set_requesting (b : bool) (s : ChatState) : ChatState :=
  mkChat (messages s) b (isStreaming s) (sseSource s) (streamComplete s)
    (pendingContent s) (pendingReasoning s) (flushTimer s) (abortController s) (requestId s)
    (aborted s) (nextSource s) (closedSources s).
Definition set_stream (streaming : bool) (src : option nat) (s : ChatState) : ChatState :=
  mkChat (messages s) (isRequesting s) streaming src (streamComplete s)
    (pendingContent s) (pendingReasoning s) (flushTimer s) (abortController s) (requestId s)
    (aborted s) (nextSource s) (closedSources s).
Definition set_complete (b : bool) (s : ChatState) : ChatState :=
  mkChat (messages s) (isRequesting s) (isStreaming s) (sseSource s) b
    (pendingContent s) (pendingReasoning s) (flushTimer s) (abortController s) (requestId s)
    (aborted s) (nextSource s) (closedSources s).
Definition set_pending (c r : jsstr) (timer : bool) (s : ChatState) : ChatState :=
  mkChat (messages s) (isRequesting s) (isStreaming s) (sseSource s) (streamComplete s)
    c r timer (abortController s) (requestId s) (aborted s) (nextSource s) (closedSources s).
Definition set_abort (a : option nat) (r : nat) (ab : list nat) (s : ChatState) : ChatState :=
  mkChat (messages s) (isRequesting s) (isStreaming s) (sseSource s) (streamComplete s)
    (pendingContent s) (pendingReasoning s) (flushTimer s) a r ab (nextSource s) (closedSources s).
Definition bump_source (s : ChatState) : ChatState :=
  mkChat (messages s) (isRequesting s) (isStreaming s) (sseSource s) (streamComplete s)
    (pendingContent s) (pendingReasoning s) (flushTimer s) (abortController s) (requestId s)
    (aborted s) (S (nextSource s)) (closedSources s).
(** [source?.close()]. *)
Definition close_source (source : option nat) (s : ChatState) : ChatState :=
  mkChat (messages s) (isRequesting s) (isStreaming s) (sseSource s) (streamComplete s)
    (pendingContent s) (pendingReasoning s) (flushTimer s) (abortController s) (requestId s)
    (aborted s) (nextSource s)
    (match source with Some n => n :: closedSources s | None => closedSources s end).

Definition isGenerating (s : ChatState) : bool := isStreaming s || isRequesting s.

Section Handlers.
(** The translation, and the readings of the clock: one value stands for the
    readings of one callback. *)
Variables (t : jsstr -> jsstr) (now : num).

Definition mergePendingStreamChunk (current next : jsstr) : jsstr :=
  if negb (truthy current) || negb (startsWith next current) then current ++ next else next.

(** The updater of [flushStreamUpdates]. *)
Definition apply_pending (reasoningChunk contentChunk : jsstr) (m : Message) : Message :=
  let m1 := if truthy reasoningChunk
            then applyStreamingChunk m ChunkReasoning reasoningChunk now now else m in
  if truthy contentChunk then applyStreamingChunk m1 ChunkContent contentChunk now now else m1.

Definition flushStreamUpdates (s : ChatState) : ChatState :=
  let r := pendingReasoning s in
  let c := pendingContent s in
  if negb (truthy r) && negb (truthy c) then set_pending c r false s
  else set_messages (fun prev => updateLastAssistantMessage prev (apply_pending r c))
         (set_pending [] [] false s).

Definition getDisplayError (error : jsstr) : jsstr :=
  if existsb (str_eqb error) ERROR_MESSAGES then t error
  else if endsWith error (js ": " ++ CONNECTION_CLOSED)
  then take (length error - length CONNECTION_CLOSED) error ++ t CONNECTION_CLOSED
  else error.

Definition handleStreamUpdate (type : StreamChunkType) (chunk : jsstr) (s : ChatState) : ChatState :=
  match type with
  | ChunkReasoning =>
      set_pending (pendingContent s) (mergePendingStreamChunk (pendingReasoning s) chunk) true s
  | ChunkContent =>
      set_pending (mergePendingStreamChunk (pendingContent s) chunk) (pendingReasoning s) true s
  end.

Definition complete_unless_final (m : Message) : Message :=
  if isAssistantMessageFinal m then m else completeAssistantMessage m now now now.

Definition handleStreamComplete (s : ChatState) : ChatState :=
  set_messages (fun prev => updateLastAssistantMessage prev complete_unless_final)
    (set_requesting false (flushStreamUpdates s)).

Definition handleStreamError (error : jsstr) (code : option jsstr) (s : ChatState) : ChatState :=
  set_messages (fun prev =>
      updateAssistantMessageWithError prev (getDisplayError error) code (t API_REQUEST_ERROR) now)
    (set_requesting false (flushStreamUpdates s)).

(** ** use-stream-request.ts *)

(** [None] stands for the call without a source. *)
Definition closeActiveStream (source : option nat) (s : ChatState) : ChatState :=
  match source with
  | None => set_stream false None (close_source (sseSource s) s)
  | Some _ =>
      let s1 := close_source source s in
      if decide (sseSource s = source) then set_stream false None s1 else s1
  end.

Definition handleError (source : nat) (error : jsstr) (code : option jsstr) (s : ChatState) : ChatState :=
  if streamComplete s then s
  else closeActiveStream (Some source) (handleStreamError error code s).

(** The listeners of [sendStreamRequest]. *)
Definition onMessage (source : nat) (data : jsstr) (s : ChatState) : ChatState :=
  if isStreamDoneMessage data then
    handleStreamComplete (closeActiveStream (Some source) (set_complete true s))
  else
    match parseStreamMessageUpdates data with
    | Throws _ => handleError source PARSE_ERROR None s
    | Returns updates => foldl (fun s u => handleStreamUpdate u.1 u.2 s) s updates
    end.

Definition onError (source : nat) (data : option jsstr) (readyState : option Z) (s : ChatState) : ChatState :=
  if isStreamClosedReadyState readyState then s
  else let d := parseStreamErrorDetails data in handleError source (d_message d) (d_code d) s.

Definition onReadyStateChange (source : nat) (readyState status : option Z) (s : ChatState) : ChatState :=
  match getStreamReadyStateError readyState status with
  | Some e => handleError source e None s
  | None => s
  end.

(** The request; [starts] tells whether [source.stream()] returned. *)
Definition sendStreamRequest (starts : bool) (s : ChatState) : ChatState :=
  let src := nextSource s in
  let s1 := set_stream true (Some src) (set_complete false (bump_source (close_source (sseSource s) s))) in
  if starts then s1
  else closeActiveStream (Some src) (handleStreamError STREAM_START_ERROR None s1).

(** ** use-chat-handler.ts: the two ways to send, and stopping *)

Definition sendStreamingChat (starts : bool) (s : ChatState) : ChatState :=
  sendStreamRequest starts (set_requesting true s).

(** Up to the [await] of the answer. *)
Definition sendNonStreamingChat (s : ChatState) : ChatState :=
  let rid := S (requestId s) in
  set_requesting true (set_abort (Some rid) rid (aborted s) s).

(** The [finally] block. *)
Definition finishRequest (rid : nat) (s : ChatState) : ChatState :=
  if decide (requestId s = rid)
  then set_requesting false (set_abort None (requestId s) (aborted s) s) else s.

Definition apply_response (choices : list ChatCompletionChoice) (m : Message) : Message :=
  default m (applyChatCompletionResponse m choices now now now).

Definition onResponse (rid : nat) (choices : list ChatCompletionChoice) (s : ChatState) : ChatState :=
  finishRequest rid
    (if decide (In rid (aborted s)) then s
     else if negb (hasChatCompletionChoice choices) then handleStreamError API_REQUEST_ERROR None s
     else set_messages (fun prev => updateLastAssistantMessage prev (apply_response choices)) s).

Definition onRequestFailed (rid : nat) (e : RequestErrorLike) (s : ChatState) : ChatState :=
  finishRequest rid
    (if decide (In rid (aborted s)) then s
     else let d := parseRequestErrorDetails e in handleStreamError (d_message d) (d_code d) s).

Definition sendChat (stream starts : bool) (s : ChatState) : ChatState :=
  if stream then sendStreamingChat starts s else sendNonStreamingChat s.

Definition complete_if_pending (m : Message) : Message :=
  if isAssistantMessagePending m then completeAssistantMessage m now now now else m.

Definition stopGeneration (s : ChatState) : ChatState :=
  let s1 := flushStreamUpdates (closeActiveStream None s) in
  let ab := match abortController s1 with Some a => a :: aborted s1 | None => aborted s1 end in
  set_messages (fun prev => updateLastAssistantMessage prev complete_if_pending)
    (set_requesting false (set_abort None (requestId s1) ab s1)).

(** ** use-playground-conversation.ts *)

Definition handleSendMessage (stream starts : bool) (text k1 v1 k2 v2 : jsstr) (s : ChatState) : ChatState :=
  sendChat stream starts
    (set_messages (fun ms => appendUserMessagePair ms text k1 v1 k2 v2 now) s).

Definition handleRegenerateMessage (stream starts : bool) (k k' v' : jsstr) (s : ChatState) : ChatState :=
  match createRegeneratedMessages (messages s) k k' v' now with
  | None => s
  | Some ms => sendChat stream starts (set_messages (fun _ => ms) s)
  end.

(** [editingKey] is the key being edited. *)
Definition applyEdit (stream starts : bool) (editingKey : option jsstr) (content : jsstr)
    (shouldSubmit : bool) (k' v' : jsstr) (s : ChatState) : ChatState :=
  match editingKey with
  | None | Some [] => s
  | Some k =>
      match applyMessageEdit (messages s) k content shouldSubmit k' v' now with
      | None => s
      | Some (ms, send) =>
          let s1 := set_messages (fun _ => ms) s in
          if send then sendChat stream starts s1 else s1
      end
  end.

Definition handleDeleteMessage (k : jsstr) (s : ChatState) : ChatState :=
  set_messages (fun ms => removeMessageByKey ms k) s.
End Handlers.

(** ** The transition system *)

Inductive Event :=
| ESend (stream starts : bool) (text k1 v1 k2 v2 : jsstr)
| ERegenerate (stream starts : bool) (k k' v' : jsstr)
| EEdit (stream starts : bool) (editingKey : option jsstr) (content : jsstr) (submit : bool) (k' v' : jsstr)
| EDelete (k : jsstr)
| EStop
| ETimer
| EMessage (source : nat) (data : jsstr)
| EStreamError (source : nat) (data : option jsstr) (readyState : option Z)
| EReadyState (source : nat) (readyState status : option Z)
| EResponse (rid : nat) (choices : list ChatCompletionChoice)
| EFailed (rid : nat) (e : RequestErrorLike).

Definition handle (t : jsstr -> jsstr) (now : num) (e : Event) (s : ChatState) : ChatState :=
  match e with
  | ESend stream starts text k1 v1 k2 v2 => handleSendMessage t now stream starts text k1 v1 k2 v2 s
  | ERegenerate stream starts k k' v' => handleRegenerateMessage t now stream starts k k' v' s
  | EEdit stream starts ek content submit k' v' => applyEdit t now stream starts ek content submit k' v' s
  | EDelete k => handleDeleteMessage k s
  | EStop => stopGeneration now s
  | ETimer => if flushTimer s then flushStreamUpdates now s else s
  | EMessage src data => onMessage t now src data s
  | EStreamError src data rs => onError t now src data rs s
  | EReadyState src rs status => onReadyStateChange t now src rs status s
  | EResponse rid choices => onResponse t now rid choices s
  | EFailed rid e => onRequestFailed t now rid e s
  end.

Inductive reachable (t : jsstr -> jsstr) : ChatState -> Prop :=
| reach_init ms : reachable t (initial_chat ms)
| reach_step s e now : reachable t s -> reachable t (handle t now e s).
