(* ===== verification/ChatProps.v ===== *)
(** * Sending a conversation: the properties

    Invariants of the transition system of ChatHandler, what its callbacks
    guarantee, and the end-to-end behaviour of a streamed answer. *)

From S2P Require Import Prelude JsStr JsNum JsArray JsJson Messages MessageProps ChatHandler.

(** ** The last message *)

Lemma updateLast_snoc ms m f :
  updateLastAssistantMessage (ms ++ [m]) f = ms ++ [if is_assistant m then f m else m].
Proof.
  unfold updateLastAssistantMessage. rewrite last_snoc. destruct (is_assistant m); [|done].
  rewrite length_app. cbn [length]. replace (length ms + 1 - 1) with (length ms) by lia.
  rewrite insert_app_r_alt by lia. by rewrite Nat.sub_diag.
Qed.

Lemma updateLast_nil f : updateLastAssistantMessage [] f = [].
Proof. done. Qed.

(** Updates of the last answer that keep its key and its role. *)
Definition keeps_identity (f : Message -> Message) : Prop :=
  forall m, key (f m) = key m /\ from (f m) = from m.

(** [ms'] is [ms] up to the last message. *)
Definition same_but_last (ms ms' : list Message) : Prop :=
  removelast ms' = removelast ms /\ map key ms' = map key ms /\ map from ms' = map from ms.

Lemma same_but_last_refl ms : same_but_last ms ms.
Proof. done. Qed.

Lemma same_but_last_trans a b c : same_but_last a b -> same_but_last b c -> same_but_last a c.
Proof. intros (H1 & H2 & H3) (H4 & H5 & H6). repeat split; congruence. Qed.

Lemma updateLast_frame ms f : keeps_identity f -> same_but_last ms (updateLastAssistantMessage ms f).
Proof.
  intros Hf. destruct ms as [|m0 ms0] using rev_ind; [done|]. rewrite updateLast_snoc.
  unfold same_but_last. rewrite !removelast_last, !map_app. cbn.
  destruct (is_assistant m0); [|done]. by destruct (Hf m0) as [-> ->].
Qed.

Lemma applyStreamingChunk_identity ty c now now' : keeps_identity (fun m => applyStreamingChunk m ty c now now').
Proof.
  intros m. unfold applyStreamingChunk. destruct (has_status Error m); [done|]. destruct ty; [done|].
  destruct (process_frame m (getAppendableChunk (getMessageContent m) c) now) as (_ & Hf & Hk).
  destruct (bool_decide _); cbn [with_status key from]; [done|].
  destruct (completeReasoning_frame (processStreamingContent m (getAppendableChunk (getMessageContent m) c) now) now')
    as (_ & _ & -> & -> & _). done.
Qed.

Lemma apply_pending_identity now r c : keeps_identity (apply_pending now r c).
Proof.
  intros m. unfold apply_pending.
  destruct (truthy r), (truthy c); try done;
    repeat match goal with |- context [applyStreamingChunk ?m ?ty ?c ?a ?b] =>
      destruct (applyStreamingChunk_identity ty c a b m) as [-> ->] end; done.
Qed.

Lemma complete_identity now : keeps_identity (fun m => completeAssistantMessage m now now now).
Proof.
  intros m. unfold completeAssistantMessage.
  match goal with |- context [completeAssistantTiming ?x now] =>
    destruct (assistant_timing_frame x now) as (-> & -> & _) end. cbn [with_status key from].
  by destruct (finalize_frame m None now now) as (-> & -> & _).
Qed.

Lemma complete_final now m : status (completeAssistantMessage m now now now) = Some Complete.
Proof.
  unfold completeAssistantMessage.
  match goal with |- context [completeAssistantTiming ?x now] =>
    destruct (assistant_timing_frame x now) as (_ & _ & -> & _) end. done.
Qed.

(** ** Flushing *)

Lemma flush_fields now s :
  let s' := flushStreamUpdates now s in
  pendingContent s' = [] /\ pendingReasoning s' = [] /\ flushTimer s' = false
  /\ isRequesting s' = isRequesting s /\ isStreaming s' = isStreaming s /\ sseSource s' = sseSource s
  /\ streamComplete s' = streamComplete s /\ abortController s' = abortController s
  /\ requestId s' = requestId s /\ aborted s' = aborted s /\ nextSource s' = nextSource s
  /\ same_but_last (messages s) (messages s').
Proof.
  cbv zeta. unfold flushStreamUpdates.
  destruct (pendingReasoning s) as [|a r] eqn:Er, (pendingContent s) as [|b c] eqn:Ec;
    cbn [truthy negb andb]; repeat split; try done; apply updateLast_frame, apply_pending_identity.
Qed.

Record chat_inv (s : ChatState) : Prop := {
  inv_timer : truthy (pendingContent s) || truthy (pendingReasoning s) = true -> flushTimer s = true;
  inv_stream : isStreaming s = match sseSource s with Some _ => true | None => false end;
  inv_source : match sseSource s with Some n => n < nextSource s | None => True end;
  inv_abort : match abortController s with Some a => a = requestId s | None => True end
}.

Create HintDb chat.

Ltac inv_fields H := destruct H as [?Ht ?Hs ?Hn ?Ha].

Lemma inv_messages f s : chat_inv s -> chat_inv (set_messages f s).
Proof. intros H. inv_fields H. by split. Qed.
Lemma inv_requesting b s : chat_inv s -> chat_inv (set_requesting b s).
Proof. intros H. inv_fields H. by split. Qed.
Lemma inv_complete b s : chat_inv s -> chat_inv (set_complete b s).
Proof. intros H. inv_fields H. by split. Qed.
Lemma inv_flush now s : chat_inv s -> chat_inv (flushStreamUpdates now s).
Proof.
  intros H. inv_fields H.
  destruct (flush_fields now s) as (H1 & H2 & H3 & _ & H4 & H5 & _ & H6 & H7 & _ & H8 & _).
  split; rewrite ?H1, ?H2, ?H3, ?H4, ?H5, ?H6, ?H7, ?H8; try done; discriminate.
Qed.
Lemma inv_close src s : chat_inv s -> chat_inv (closeActiveStream src s).
Proof.
  intros H. inv_fields H. destruct src as [n|]; cbn; [destruct (decide _)|]; by split.
Qed.
#[local] Hint Resolve inv_messages inv_requesting inv_complete inv_flush inv_close : chat.

Lemma inv_error t now e c s : chat_inv s -> chat_inv (handleStreamError t now e c s).
Proof. unfold handleStreamError. auto 10 with chat. Qed.
#[local] Hint Resolve inv_error : chat.

Lemma inv_handleError t now src e c s : chat_inv s -> chat_inv (handleError t now src e c s).
Proof. unfold handleError. destruct (streamComplete s); auto 10 with chat. Qed.
#[local] Hint Resolve inv_handleError : chat.

Lemma inv_update ty c s : chat_inv s -> chat_inv (handleStreamUpdate ty c s).
Proof. intros H. inv_fields H. destruct ty; by split. Qed.
#[local] Hint Resolve inv_update : chat.

Lemma inv_finish rid s : chat_inv s -> chat_inv (finishRequest rid s).
Proof. intros H. unfold finishRequest. destruct (decide _); [|done]. inv_fields H. by split. Qed.
#[local] Hint Resolve inv_finish : chat.

Lemma inv_send t now stream starts s : chat_inv s -> chat_inv (sendChat t now stream starts s).
Proof.
  intros H. unfold sendChat, sendStreamingChat, sendNonStreamingChat, sendStreamRequest. destruct stream.
  - assert (chat_inv (set_stream true (Some (nextSource (set_requesting true s)))
      (set_complete false (bump_source (close_source (sseSource s) (set_requesting true s)))))) as H1.
    { inv_fields H. split; try done. cbn. lia. }
    destruct starts; auto 10 with chat.
  - inv_fields H. by split.
Qed.
#[local] Hint Resolve inv_send : chat.

(** C4: in every reachable state of the chat, text waiting to be shown has a
    flush scheduled, the streaming flag tells whether there is an active source,
    the active source was created before, and the abort controller is that of
    the latest request. *)
Theorem reachable_chat_inv t s : reachable t s -> chat_inv s.
Proof.
  induction 1 as [ms|s e now Hr IH]; [by split|]. destruct e; cbn [handle].
  - unfold handleSendMessage. auto 10 with chat.
  - unfold handleRegenerateMessage. destruct (createRegeneratedMessages _ _ _ _ _); auto 10 with chat.
  - unfold applyEdit. destruct editingKey as [[|? ?]|]; auto 10 with chat.
    destruct (applyMessageEdit _ _ _ _ _ _ _) as [[ms []]|]; auto 10 with chat.
  - unfold handleDeleteMessage. auto 10 with chat.
  - unfold stopGeneration. apply inv_messages, inv_requesting.
    assert (chat_inv (flushStreamUpdates now (closeActiveStream None s))) as H by auto 10 with chat.
    inv_fields H. by split.
  - destruct (flushTimer s); auto 10 with chat.
  - unfold onMessage. destruct (isStreamDoneMessage data); [unfold handleStreamComplete; auto 10 with chat|].
    destruct (parseStreamMessageUpdates data) as [us|]; [|auto 10 with chat].
    clear Hr. revert s IH. induction us as [|[ty c] us IHu]; intros s IH; [exact IH|].
    cbn [foldl]. apply IHu. auto 10 with chat.
  - unfold onError. destruct (isStreamClosedReadyState readyState); auto 10 with chat.
  - unfold onReadyStateChange. destruct (getStreamReadyStateError readyState status); auto 10 with chat.
  - unfold onResponse. destruct (decide _); [auto 10 with chat|].
    destruct (negb _); auto 10 with chat.
  - unfold onRequestFailed. destruct (decide _); auto 10 with chat.
Qed.

Definition sample_event : Event :=
  ESend true true (js "hello") (js "k1") (js "v1") (js "k2") (js "v2").

Lemma reachable_chat_inv_witness :
  chat_inv (handle id zero (EMessage 0 (js "[DONE]")) (handle id zero sample_event (initial_chat []))).
Proof.
  apply (reachable_chat_inv id). apply (reach_step id), (reach_step id), (reach_init id).
Defined.

(** ** Settling *)

(** Nothing is waiting, and the last answer is not pending. *)
Definition settled (s : ChatState) : Prop :=
  pendingContent s = [] /\ pendingReasoning s = [] /\ flushTimer s = false
  /\ isRequesting s = false
  /\ (forall m, last (messages s) = Some m -> isPendingAssistantMessage m = false).

Lemma updateLast_last ms f m :
  last (updateLastAssistantMessage ms f) = Some m ->
  exists m0, last ms = Some m0 /\ m = if is_assistant m0 then f m0 else m0.
Proof.
  destruct ms as [|m0 ms0] using rev_ind; [done|]. rewrite updateLast_snoc, !last_snoc.
  intros [= <-]. by exists m0.
Qed.

Lemma updateLast_not_pending ms f :
  (forall m, is_assistant m = true -> isPendingAssistantMessage (f m) = false) ->
  forall m, last (updateLastAssistantMessage ms f) = Some m -> isPendingAssistantMessage m = false.
Proof.
  intros Hf m (m0 & _ & ->)%updateLast_last. destruct (is_assistant m0) eqn:E; [by apply Hf|].
  unfold isPendingAssistantMessage. by rewrite E.
Qed.

Lemma complete_not_pending now m : isPendingAssistantMessage (completeAssistantMessage m now now now) = false.
Proof.
  apply final_not_pending. unfold isAssistantMessageFinal, has_status. by rewrite complete_final.
Qed.

Lemma complete_settles now s : settled (handleStreamComplete now s).
Proof.
  destruct (flush_fields now s) as (H1 & H2 & H3 & _). repeat split; try done. apply updateLast_not_pending. intros m Ha.
  unfold complete_unless_final. destruct (isAssistantMessageFinal m) eqn:E; [by apply final_not_pending|apply complete_not_pending].
Qed.

Lemma error_settles t now error code s : settled (handleStreamError t now error code s).
Proof.
  destruct (flush_fields now s) as (H1 & H2 & H3 & _). repeat split; try done. apply updateLast_not_pending. intros m Ha.
  apply final_not_pending. unfold isAssistantMessageFinal, has_status.
  match goal with |- context [completeAssistantTiming ?x now] =>
    destruct (assistant_timing_frame x now) as (_ & _ & -> & _) end. done.
Qed.

(** Nothing is being generated from a stream, and the given source is closed. *)
Definition stream_over (src : nat) (s : ChatState) : Prop :=
  settled s /\ isGenerating s = false /\ sseSource s = None /\ In src (closedSources s).

Lemma closed_over src s : settled s -> sseSource s = Some src -> stream_over src (closeActiveStream (Some src) s).
Proof.
  intros (H1 & H2 & H3 & H4 & H5) Hs. cbn [closeActiveStream]. rewrite decide_True by done.
  split; [done|]. split; [exact H4|]. split; [done|by left].
Qed.

Lemma complete_over now src s : sseSource s = Some src ->
  stream_over src (handleStreamComplete now (closeActiveStream (Some src) (set_complete true s))).
Proof.
  intros Hs. split; [apply complete_settles|]. cbn [closeActiveStream]. rewrite decide_True by done.
  match goal with |- context [handleStreamComplete now ?x] => set (sc := x) end.
  destruct (flush_fields now sc) as (_ & _ & _ & _ & F1 & F2 & _). unfold handleStreamComplete, isGenerating.
  cbn [isStreaming isRequesting sseSource closedSources set_messages set_requesting]. rewrite F1, F2.
  split; [done|]. split; [done|]. unfold flushStreamUpdates. destruct (_ && _); by left.
Qed.

Lemma error_source t now error code s : sseSource (handleStreamError t now error code s) = sseSource s.
Proof. unfold handleStreamError. cbn [sseSource set_messages set_requesting]. apply (flush_fields now s). Qed.

Lemma error_over t now src error code s : sseSource s = Some src -> streamComplete s = false ->
  stream_over src (handleError t now src error code s).
Proof.
  intros Hs Hc. unfold handleError. rewrite Hc. apply closed_over; [apply error_settles|by rewrite error_source].
Qed.

(** The events that end the stream of the active source: the end mark, data
    that does not parse, an error of a source that is not closed, and a closed
    connection with a status other than 200.  The last three only report an
    error while no stream has ended normally. *)
Definition ends_stream (s : ChatState) (src : nat) (e : Event) : Prop :=
  sseSource s = Some src /\
  match e with
  | EMessage src' data => src' = src /\ (data = js "[DONE]"
      \/ (streamComplete s = false /\ data <> js "[DONE]" /\ exists x, parseStreamMessageUpdates data = Throws x))
  | EStreamError src' _ readyState => src' = src /\ streamComplete s = false /\ readyState <> Some 2%Z
  | EReadyState src' readyState status => src' = src /\ streamComplete s = false
      /\ exists r c, readyState = Some r /\ status = Some c /\ (2 <= r)%Z /\ c <> 200%Z
  | _ => False
  end.

Lemma stream_ends t now s src e : ends_stream s src e -> stream_over src (handle t now e s).
Proof.
  intros [Hs He]. destruct e as [| | | | | |src' data|src' data rs|src' rs st| |]; try done; cbn [handle].
  - destruct He as [-> [->|(Hc & Hd & x & Hx)]]; [by apply complete_over|]. unfold onMessage, isStreamDoneMessage.
    rewrite (proj2 (str_eqb_neq data (js "[DONE]")) Hd), Hx. by apply error_over.
  - destruct He as (-> & Hc & Hr). unfold onError, isStreamClosedReadyState. rewrite bool_decide_false by done.
    by apply error_over.
  - destruct He as (-> & Hc & r & c & -> & -> & Hr & H2). unfold onReadyStateChange, getStreamReadyStateError.
    rewrite (proj2 (Z.leb_le 2 r) Hr), (proj2 (Z.eqb_neq c 200) H2). by apply error_over.
Qed.

Lemma finish_current rid s : requestId s = rid ->
  isRequesting (finishRequest rid s) = false /\ abortController (finishRequest rid s) = None.
Proof. intros H. unfold finishRequest. by rewrite decide_True. Qed.

Lemma response_final now choices m : choices <> [] -> isPendingAssistantMessage (apply_response now choices m) = false.
Proof.
  intros Hc. destruct choices as [|c cs]; [done|]. apply final_not_pending. unfold isAssistantMessageFinal, has_status.
  unfold apply_response. cbn [applyChatCompletionResponse default from_option id]. unfold applyChatCompletionChoice.
  match goal with |- context [completeAssistantTiming ?x now] =>
    destruct (assistant_timing_frame x now) as (_ & _ & -> & _) end. done.
Qed.

Definition answers_request (rid : nat) (e : Event) : Prop :=
  match e with EResponse r _ => r = rid | EFailed r _ => r = rid | _ => False end.

Lemma error_request t now error code s : requestId (handleStreamError t now error code s) = requestId s.
Proof. unfold handleStreamError. cbn [requestId set_messages set_requesting]. apply (flush_fields now s). Qed.

Lemma request_ends t now s e : answers_request (requestId s) e -> ~ In (requestId s) (aborted s) ->
  isRequesting (handle t now e s) = false /\ abortController (handle t now e s) = None
  /\ forall m, last (messages (handle t now e s)) = Some m -> isPendingAssistantMessage m = false.
Proof.
  intros He Ha. destruct e as [| | | | | | | | |rid choices|rid err]; try done; cbn [handle answers_request] in *; subst rid.
  - unfold onResponse. rewrite decide_False by done. destruct choices as [|c cs] eqn:Ec; cbn [hasChatCompletionChoice negb].
    + destruct (finish_current (requestId s) (handleStreamError t now API_REQUEST_ERROR None s)) as [-> ->];
        [apply error_request|]. split; [done|]. split; [done|]. unfold finishRequest. rewrite decide_True by apply error_request.
      apply (error_settles t now API_REQUEST_ERROR None s).
    + unfold finishRequest. cbn [requestId set_messages]. rewrite decide_True by done. split; [done|]. split; [done|].
      cbn [messages set_requesting set_abort set_messages]. apply updateLast_not_pending. intros m _. by apply response_final.
  - unfold onRequestFailed. rewrite decide_False by done. cbv zeta.
    set (s1 := handleStreamError _ _ _ _ _). assert (requestId s1 = requestId s) as Hr by apply error_request.
    destruct (finish_current (requestId s) s1 Hr) as [-> ->]. split; [done|]. split; [done|].
    unfold finishRequest. rewrite decide_True by done. apply error_settles.
Qed.

Lemma aborted_answer t now e a s : answers_request a e -> In a (aborted s) -> messages (handle t now e s) = messages s.
Proof.
  intros He Ha. destruct e as [| | | | | | | | |rid choices|rid err]; try done; cbn [handle answers_request] in *; subst rid;
    unfold onResponse, onRequestFailed; rewrite decide_True by done; unfold finishRequest; by destruct (decide _).
Qed.

(** C5: however a generation ends, it is over.  An event that ends the stream of
    the active source (its end mark, data that does not parse, an error, a
    connection closed with a bad status) leaves nothing waiting to be shown,
    nothing marked as being generated, no answer pending, and the source closed.
    The answer or the failure of the current request, unless it was aborted,
    ends the request and settles the answer.  Stopping does all of it: the
    source is closed, the request is aborted, and whatever the aborted request
    still answers changes no message. *)
Theorem generation_settles t now s e :
  (forall src, ends_stream s src e -> stream_over src (handle t now e s))
  /\ (answers_request (requestId s) e -> ~ In (requestId s) (aborted s) ->
      isRequesting (handle t now e s) = false /\ abortController (handle t now e s) = None
      /\ forall m, last (messages (handle t now e s)) = Some m -> isPendingAssistantMessage m = false)
  /\ (let s' := handle t now EStop s in
      settled s' /\ isGenerating s' = false /\ sseSource s' = None /\ abortController s' = None
      /\ (forall src, sseSource s = Some src -> In src (closedSources s'))
      /\ forall a, abortController s = Some a ->
           In a (aborted s') /\ forall now' e', answers_request a e' -> messages (handle t now' e' s') = messages s').
Proof.
  split; [intros src; apply stream_ends|]. split; [apply request_ends|]. cbv zeta. cbn [handle].
  set (s1 := closeActiveStream None s). destruct (flush_fields now s1) as (H1 & H2 & H3 & _ & H4 & H5 & _ & H6 & _ & _ & _ & _).
  assert (closedSources (flushStreamUpdates now s1) = closedSources s1) as Hcl
    by (unfold flushStreamUpdates; by destruct (_ && _)).
  unfold stopGeneration. fold s1. cbv zeta. split; [|split; [|split; [|split; [|split]]]].
  - repeat split; try done. apply updateLast_not_pending. intros m Ha. unfold complete_if_pending.
    destruct (isAssistantMessagePending m) eqn:E; [apply complete_not_pending|].
    unfold isPendingAssistantMessage. by rewrite E, andb_false_r.
  - unfold isGenerating. cbn [isStreaming isRequesting set_messages set_requesting set_abort]. by rewrite H4.
  - exact H5.
  - done.
  - intros src Hs. cbn [closedSources set_messages set_requesting set_abort]. rewrite Hcl. unfold s1. cbn. rewrite Hs. by left.
  - intros a Ha. assert (abortController (flushStreamUpdates now s1) = Some a) as Hab by (by rewrite H6).
    assert (forall x, In a (aborted (set_messages x (set_requesting false (set_abort None (requestId (flushStreamUpdates now s1))
      (match abortController (flushStreamUpdates now s1) with Some a => a :: aborted (flushStreamUpdates now s1)
       | None => aborted (flushStreamUpdates now s1) end) (flushStreamUpdates now s1)))))) as Hin
      by (intros x; cbn [aborted set_messages set_requesting set_abort]; rewrite Hab; by left).
    split; [apply Hin|]. intros now' e' He'. by eapply aborted_answer.
Qed.

Definition streaming_chat : ChatState := handle id zero sample_event (initial_chat []).

Lemma generation_settles_witness :
  stream_over 0 (handle id zero (EMessage 0 (js "oops")) streaming_chat).
Proof.
  apply (generation_settles id zero streaming_chat (EMessage 0 (js "oops"))). split; [reflexivity|]. split; [reflexivity|].
  right. split; [reflexivity|]. split; [vm_compute; discriminate|]. eexists. vm_compute. reflexivity.
Defined.

(** ** Errors stay *)

Definition last_error (s : ChatState) : Prop :=
  exists m, last (messages s) = Some m /\ has_status Error m = true.

Lemma updateLast_id ms f :
  (forall m, last ms = Some m -> f m = m) -> updateLastAssistantMessage ms f = ms.
Proof.
  intros Hf. destruct ms as [|m0 ms0] using rev_ind; [done|]. rewrite updateLast_snoc.
  rewrite Hf; [|apply last_snoc]. by destruct (is_assistant m0).
Qed.

Lemma flush_error now s : last_error s -> messages (flushStreamUpdates now s) = messages s.
Proof.
  intros (m & Hm & He). unfold flushStreamUpdates. destruct (_ && _); [done|].
  cbn [messages set_messages set_pending]. apply updateLast_id. intros m' Hm'.
  assert (m' = m) as -> by congruence. unfold apply_pending, applyStreamingChunk. rewrite He.
  destruct (truthy _), (truthy _); by rewrite ?He.
Qed.

(** An answer that failed keeps its error: chunks that arrive late, the
    flush timer, the end of the stream and stopping leave it as it is. *)
Theorem error_is_kept now s ty chunk :
  last_error s ->
  messages (flushStreamUpdates now (handleStreamUpdate ty chunk s)) = messages s
  /\ messages (handleStreamComplete now s) = messages s
  /\ messages (stopGeneration now s) = messages s.
Proof.
  intros He. assert (last_error (handleStreamUpdate ty chunk s)) as He' by (by destruct ty).
  assert (last_error (closeActiveStream None s)) as Hc by done.
  split; [|split].
  - rewrite flush_error by done. by destruct ty.
  - unfold handleStreamComplete. cbn [messages set_messages set_requesting].
    rewrite flush_error by done. apply updateLast_id. intros m Hm. destruct He as (m' & Hm' & He).
    assert (m = m') as -> by congruence. unfold complete_unless_final, isAssistantMessageFinal.
    by rewrite He, orb_true_r.
  - unfold stopGeneration. cbn [messages set_messages set_requesting set_abort].
    rewrite flush_error by done. apply updateLast_id. intros m Hm. destruct He as (m' & Hm' & He).
    cbn in Hm. assert (m = m') as -> by congruence.
    unfold complete_if_pending, isAssistantMessagePending, has_status in *.
    apply bool_decide_eq_true in He. by rewrite He.
Qed.

Definition failed_state : ChatState :=
  handleStreamError id zero PARSE_ERROR None (handle id zero sample_event (initial_chat [])).

Lemma error_is_kept_witness :
  last_error failed_state
  /\ messages (handleStreamComplete zero failed_state) = messages failed_state.
Proof.
  assert (last_error failed_state) as H by (eexists; split; [vm_compute|]; reflexivity).
  split; [exact H|]. apply (error_is_kept zero failed_state ChunkContent (js "late") H).
Defined.

(** ** What an event may touch *)

Definition answer_event (e : Event) : bool :=
  match e with
  | EStop | ETimer | EMessage _ _ | EStreamError _ _ _ | EReadyState _ _ _ | EResponse _ _ | EFailed _ _ => true
  | _ => false
  end.

Lemma frame_flush now s : same_but_last (messages s) (messages (flushStreamUpdates now s)).
Proof. apply (flush_fields now s). Qed.

Lemma messages_close src s : messages (closeActiveStream src s) = messages s.
Proof. destruct src; cbn; [|done]. by destruct (decide _). Qed.

Lemma messages_finish rid s : messages (finishRequest rid s) = messages s.
Proof. unfold finishRequest. by destruct (decide _). Qed.

Lemma frame_error t now e c s : same_but_last (messages s) (messages (handleStreamError t now e c s)).
Proof.
  eapply same_but_last_trans; [apply (frame_flush now)|]. unfold handleStreamError.
  cbn [messages set_messages set_requesting]. unfold updateAssistantMessageWithError.
  apply updateLast_frame. intros m.
  match goal with |- context [completeAssistantTiming ?x now] =>
    destruct (assistant_timing_frame x now) as (-> & -> & _) end. done.
Qed.

Lemma frame_handleError t now src e c s : same_but_last (messages s) (messages (handleError t now src e c s)).
Proof.
  unfold handleError. destruct (streamComplete s); [done|]. rewrite messages_close. apply frame_error.
Qed.

Lemma frame_complete now s : same_but_last (messages s) (messages (handleStreamComplete now s)).
Proof.
  eapply same_but_last_trans; [apply (frame_flush now)|]. apply updateLast_frame.
  intros m. unfold complete_unless_final. destruct (isAssistantMessageFinal m); [done|apply complete_identity].
Qed.

Lemma response_identity now choices : keeps_identity (apply_response now choices).
Proof.
  intros m. unfold apply_response, applyChatCompletionResponse. destruct choices as [|c cs]; [done|].
  cbn [default from_option id]. unfold applyChatCompletionChoice.
  match goal with |- context [completeAssistantTiming ?x now] =>
    destruct (assistant_timing_frame x now) as (-> & -> & _) end. cbn [with_status key from].
  by destruct (finalize_frame (updateCurrentVersionContent m (default [] (choice_content c)))
    (choice_reasoning c) now now) as (-> & -> & _).
Qed.

Lemma answers_frame t now e s :
  answer_event e = true -> same_but_last (messages s) (messages (handle t now e s)).
Proof.
  destruct e; try done; intros _; cbn [handle].
  - unfold stopGeneration. cbn [messages set_messages set_requesting set_abort].
    apply (same_but_last_trans _ (messages (flushStreamUpdates now (closeActiveStream None s))));
      [apply (frame_flush now (closeActiveStream None s))|]. apply updateLast_frame. intros m.
    unfold complete_if_pending. destruct (isAssistantMessagePending m); [apply complete_identity|done].
  - destruct (flushTimer s); [apply frame_flush|done].
  - unfold onMessage. destruct (isStreamDoneMessage data).
    + eapply same_but_last_trans; [|apply frame_complete]. by rewrite messages_close.
    + destruct (parseStreamMessageUpdates data) as [us|]; [|apply frame_handleError].
      assert (messages (foldl (fun s u => handleStreamUpdate u.1 u.2 s) s us) = messages s) as ->; [|done].
      revert s. induction us as [|[ty c] us IH]; intros s; [done|]. cbn [foldl]. rewrite IH. by destruct ty.
  - unfold onError. destruct (isStreamClosedReadyState readyState); [done|apply frame_handleError].
  - unfold onReadyStateChange. destruct (getStreamReadyStateError readyState status); [apply frame_handleError|done].
  - unfold onResponse. rewrite messages_finish. destruct (decide _); [done|].
    destruct (negb _); [apply frame_error|apply updateLast_frame, response_identity].
  - unfold onRequestFailed. rewrite messages_finish. destruct (decide _); [done|apply frame_error].
Qed.

(** What arrives from the server, the timer and the stop button touch the
    last message only, and keep its key and role: the rest of the conversation
    is as the user left it. *)
Theorem answers_touch_last_only t now e s :
  answer_event e = true -> same_but_last (messages s) (messages (handle t now e s)).
Proof.
  apply answers_frame.
Qed.

Lemma answers_touch_last_only_witness :
  same_but_last (messages failed_state) (messages (handle id zero EStop failed_state)).
Proof. apply (answers_touch_last_only id zero EStop failed_state). reflexivity. Defined.

(** ** A streamed answer from end to end *)

(** The content a data event carries: [None] when it does not parse or when it
    carries reasoning. *)
Definition data_text (data : jsstr) : option jsstr :=
  if isStreamDoneMessage data then None
  else match parseStreamMessageUpdates data with
       | Returns [] => Some []
       | Returns [(ChunkContent, c)] => Some c
       | _ => None
       end.

(** The data events of a stream, and the expiries of the timer among them. *)
Inductive StreamItem := SData (data : jsstr) | STick.

Definition item_event (src : nat) (i : StreamItem) : Event :=
  match i with SData d => EMessage src d | STick => ETimer end.

Definition run_items (t : jsstr -> jsstr) (now : num) (src : nat) (its : list StreamItem) (s : ChatState)
    : ChatState := foldl (fun s i => handle t now (item_event src i) s) s its.

Definition item_texts (its : list StreamItem) : option (list jsstr) :=
  mapM (fun i => match i with SData d => data_text d | STick => Some [] end) its.

(** No run of chunks starts with the run right before it. *)
Definition clean (cs : list jsstr) : Prop :=
  forall x y z w, cs = x ++ y ++ z ++ w -> truthy (concat y) = true ->
    startsWith (concat z) (concat y) = false.

Definition run_at (cs : list jsstr) (i j : nat) : jsstr := concat (take (j - i) (drop i cs)).

Definition cleanb (cs : list jsstr) : bool :=
  let ix := seq 0 (S (length cs)) in
  forallb (fun i => forallb (fun j => forallb (fun k =>
    negb (truthy (run_at cs i j)) || negb (startsWith (run_at cs j k) (run_at cs i j))) ix) ix) ix.

Lemma run_at_app x y w : run_at (x ++ y ++ w) (length x) (length x + length y) = concat y.
Proof.
  unfold run_at. rewrite drop_app_length. replace (length x + length y - length x) with (length y) by lia.
  by rewrite take_app_length.
Qed.

Lemma cleanb_clean cs : cleanb cs = true -> clean cs.
Proof.
  unfold cleanb. intros H x y z w -> Hy.
  rewrite forallb_forall in H. specialize (H (length x)).
  rewrite forallb_forall in H.
  assert (forall n, n <= length (x ++ y ++ z ++ w) -> In n (seq 0 (S (length (x ++ y ++ z ++ w))))) as Hin
    by (intros n Hn; apply in_seq; lia).
  assert (length (x ++ y ++ z ++ w) = length x + (length y + (length z + length w))) as Hl
    by (by rewrite !length_app).
  specialize (H ltac:(apply Hin; lia) (length x + length y) ltac:(apply Hin; lia)).
  rewrite forallb_forall in H. specialize (H (length x + length y + length z) ltac:(apply Hin; lia)).
  rewrite run_at_app in H. rewrite Hy in H. cbn [negb orb] in H. apply negb_true_iff in H.
  rewrite <- H. f_equal. rewrite (app_assoc x y). rewrite <- (length_app x y). by rewrite run_at_app.
Qed.

(** The state of a stream that has received [a ++ b] and shown [a]; the texts
    are known when [ok] holds. *)
Record streaming_with (ok : Prop) (src : nat) (a b : list jsstr) (s : ChatState) : Prop := {
  sw_last : exists pre m, messages s = pre ++ [m] /\ is_assistant m = true
    /\ isAssistantMessagePending m = true /\ (ok -> getMessageContent m = concat a);
  sw_pending : ok -> pendingContent s = concat b;
  sw_reasoning : pendingReasoning s = [];
  sw_source : sseSource s = Some src
}.

Lemma pending_not_error m : isAssistantMessagePending m = true -> has_status Error m = false.
Proof.
  unfold isAssistantMessagePending, has_status. by destruct (status m) as [[]|].
Qed.

Lemma sw_chunk (ok : Prop) src a b c w s :
  (ok -> clean ((a ++ b) ++ c :: w)) -> streaming_with ok src a b s ->
  streaming_with ok src a (b ++ [c]) (handleStreamUpdate ChunkContent c s).
Proof.
  intros Hc [H1 H2 H3 H4]. split; try done. intros Hok. specialize (Hc Hok). cbn [handleStreamUpdate pendingContent set_pending].
  rewrite (H2 Hok), concat_app. cbn [concat]. rewrite app_nil_r. unfold mergePendingStreamChunk.
  destruct (truthy (concat b)) eqn:Eb; [|done]. cbn [negb orb].
  assert (startsWith c (concat b) = false) as ->; [|done].
  specialize (Hc a b [c] w). cbn [concat] in Hc. rewrite app_nil_r in Hc. apply Hc; [|done].
  by rewrite <- !app_assoc.
Qed.

Lemma sw_flush (ok : Prop) now src a b w s :
  (ok -> clean (a ++ b ++ w)) -> streaming_with ok src a b s ->
  streaming_with ok src (a ++ b) [] (flushStreamUpdates now s).
Proof.
  intros Hc [(pre & m & H1 & Ha & Hp & Hm) H2 H3 H4].
  destruct (flush_fields now s) as (F1 & F2 & _ & _ & _ & F3 & _).
  split; [|done|done|by rewrite F3].
  unfold flushStreamUpdates. rewrite H3. cbn [truthy negb andb].
  destruct (truthy (pendingContent s)) eqn:Eb; cbn [negb].
  - cbn [messages set_messages set_pending]. rewrite H1, updateLast_snoc, Ha.
    eexists pre, _. split; [reflexivity|]. unfold apply_pending. rewrite Eb. cbn [truthy].
    destruct (content_chunk m (pendingContent s) now now (pending_not_error m Hp)) as [Hcc Hst].
    destruct (applyStreamingChunk_identity ChunkContent (pendingContent s) now now m) as [_ Hfr].
    split; [unfold is_assistant in *; by rewrite Hfr|].
    split; [unfold isAssistantMessagePending, has_status; by rewrite Hst|]. intros Hok. rewrite (H2 Hok) in *.
    rewrite Hcc, (Hm Hok), concat_app. f_equal. apply appendable_delta.
    destruct (truthy (concat a)) eqn:Ea; [|done]. cbn [negb orb].
    by rewrite (Hc Hok [] a b w).
  - cbn [messages set_pending]. exists pre, m. repeat split; try done. intros Hok. rewrite (H2 Hok) in *.
    rewrite (Hm Hok), concat_app. destruct (concat b); [by rewrite app_nil_r|done].
Qed.

Lemma clean_app_l a b : clean (a ++ b) -> clean a.
Proof. intros H x y z w ->. apply (H x y z (w ++ b)). by rewrite <- !app_assoc. Qed.

Lemma sw_empty ok src a b s : streaming_with ok src a b s -> streaming_with ok src a (b ++ [[]]) s.
Proof.
  intros [H1 H2 H3 H4]. split; try done. intros Hok. rewrite (H2 Hok), concat_app. cbn. by rewrite app_nil_r.
Qed.

Lemma sw_item (ok : Prop) t now src a b c i s w :
  (ok -> clean ((a ++ b) ++ c :: w)) -> streaming_with ok src a b s ->
  (match i with SData d => data_text d | STick => Some [] end) = Some c ->
  exists a' b', a' ++ b' = (a ++ b) ++ [c] /\ streaming_with ok src a' b' (handle t now (item_event src i) s).
Proof.
  intros Hc Hs Hi. destruct i as [d|]; cbn [item_event handle].
  - unfold data_text in Hi. unfold onMessage. destruct (isStreamDoneMessage d); [done|].
    destruct (parseStreamMessageUpdates d) as [[|[[] c'] [|? ?]]|]; try done; injection Hi as <-; cbn [foldl fst snd].
    + exists a, (b ++ [[]]). split; [by rewrite <- app_assoc|]. by apply sw_empty.
    + exists a, (b ++ [c']). split; [by rewrite <- app_assoc|]. by eapply sw_chunk.
  - injection Hi as <-. destruct (flushTimer s).
    + exists (a ++ b), [[]]. split; [done|]. apply (sw_empty ok src (a ++ b) []).
      eapply (sw_flush ok now src a b ([] :: w)); [by rewrite app_assoc|done].
    + exists a, (b ++ [[]]). split; [by rewrite <- app_assoc|]. by apply sw_empty.
Qed.

Lemma sw_items (ok : Prop) t now src its cs a b s :
  item_texts its = Some cs -> (ok -> clean ((a ++ b) ++ cs)) -> streaming_with ok src a b s ->
  exists a' b', a' ++ b' = (a ++ b) ++ cs /\ streaming_with ok src a' b' (run_items t now src its s).
Proof.
  revert cs a b s. induction its as [|i its IH]; intros cs a b s Ht Hc Hs.
  - injection Ht as <-. exists a, b. by rewrite app_nil_r.
  - unfold item_texts in Ht. cbn [mapM] in Ht.
    destruct (match i with SData d => data_text d | STick => Some [] end) as [c|] eqn:Ei; [|done].
    cbn in Ht. fold (item_texts its) in Ht. destruct (item_texts its) as [cs'|] eqn:Et; [|done].
    injection Ht as <-.
    destruct (sw_item ok t now src a b c i s cs' Hc Hs Ei) as (a' & b' & E & Hs').
    assert (ok -> clean ((a' ++ b') ++ cs')) as Hc' by (intros Hok; rewrite E, <- app_assoc; by apply Hc).
    destruct (IH cs' a' b' _ eq_refl Hc' Hs') as (a'' & b'' & E' & Hs'').
    exists a'', b''. split; [|done]. by rewrite E', E, <- app_assoc.
Qed.

Definition final_text (full : jsstr) : jsstr :=
  if includes full THINK then visibleContent (parseThinkTags full) else full.

Lemma finalize_content m api now now' :
  getMessageContent (finalizeMessage m api now now') = final_text (getMessageContent m).
Proof.
  unfold finalizeMessage.
  match goal with |- context [completeReasoningTiming ?x now'] =>
    destruct (completeReasoning_frame x now') as (Hv & _) end.
  unfold getMessageContent at 1, getCurrentVersion. rewrite Hv. unfold final_text.
  by destruct (includes (getMessageContent m) THINK).
Qed.

Lemma complete_content m now : getMessageContent (completeAssistantMessage m now now now)
  = final_text (getMessageContent m).
Proof.
  unfold completeAssistantMessage.
  match goal with |- context [completeAssistantTiming ?x now] =>
    destruct (assistant_timing_frame x now) as (_ & _ & _ & Hv & _) end.
  unfold getMessageContent at 1, getCurrentVersion. rewrite Hv.
  apply (finalize_content m None now now).
Qed.

Lemma run_items_frame t now src its s :
  same_but_last (messages s) (messages (run_items t now src its s)).
Proof.
  revert s. induction its as [|i its IH]; intros s; [done|]. cbn.
  eapply same_but_last_trans; [apply (answers_frame t now (item_event src i))|apply IH]. by destruct i.
Qed.

Lemma same_but_last_shape pre m ms :
  same_but_last (pre ++ [m]) ms -> exists m', ms = pre ++ [m'] /\ key m' = key m.
Proof.
  intros (H1 & H2 & _). destruct ms as [|m' pre'] using rev_ind.
  - rewrite map_app in H2. by destruct (map key pre).
  - rewrite !removelast_last in H1. subst pre'. exists m'. split; [done|].
    rewrite !map_app in H2. by apply app_inj_tail in H2 as [_ H2].
Qed.

(** The end of a stream that has received [a ++ b]. *)
Lemma stream_end (ok : Prop) t now src a b s :
  streaming_with ok src a b s -> (ok -> clean (a ++ b)) ->
  let s2 := handle t now (EMessage src (js "[DONE]")) s in
  isGenerating s2 = false
  /\ exists answer, last (messages s2) = Some answer /\ status answer = Some Complete
    /\ (ok -> getMessageContent answer = final_text (concat (a ++ b))).
Proof.
  intros Hsw Hc s2. set (sc := closeActiveStream (Some src) (set_complete true s)).
  change s2 with (handleStreamComplete now sc). clear s2.
  assert (messages sc = messages s /\ isStreaming sc = false
    /\ pendingContent sc = pendingContent s /\ pendingReasoning sc = pendingReasoning s) as (Q1 & Q2 & Q3 & Q4).
  { subst sc. cbn [closeActiveStream]. rewrite decide_True by (cbn; apply Hsw). done. }
  clearbody sc. split.
  - change (isGenerating (handleStreamComplete now sc)) with (isStreaming (flushStreamUpdates now sc) || false).
    destruct (flush_fields now sc) as (_ & _ & _ & _ & -> & _). by rewrite Q2.
  - assert (streaming_with ok src a b (set_stream true (Some src) sc)) as Hsc.
    { destruct Hsw as [W1 W2 W3 W4]. split; cbn; try done; by rewrite ?Q1, ?Q3, ?Q4. }
    apply (sw_flush ok now src a b []) in Hsc; [|by rewrite app_nil_r].
    destruct Hsc as [(pre & m & M1 & M2 & M3 & M4) _ _ _].
    assert (messages (flushStreamUpdates now (set_stream true (Some src) sc))
      = messages (flushStreamUpdates now sc)) as Mf.
    { unfold flushStreamUpdates. cbn. by destruct (_ && _). }
    rewrite Mf in M1. exists (completeAssistantMessage m now now now).
    split; [|split; [apply complete_final|intros Hok; by rewrite complete_content, (M4 Hok)]].
    change (messages (handleStreamComplete now sc))
      with (updateLastAssistantMessage (messages (flushStreamUpdates now sc)) (complete_unless_final now)).
    rewrite M1, updateLast_snoc, M2, last_snoc. unfold complete_unless_final.
    assert (isAssistantMessageFinal m = false) as ->; [|done].
    unfold isAssistantMessageFinal, isAssistantMessagePending, has_status in *.
    by destruct (status m) as [[]|].
Qed.

(** C6: a question is answered: after sending a message with streaming on, while
    no text of an earlier answer waits to be shown, for every sequence of data
    events that carry content only and of timer expiries from the source, in any
    interleaving, the end of the stream leaves the conversation with the question
    and an answer marked complete, and nothing is being generated.  The text of
    the answer is the concatenation of the chunks without its reasoning tags
    whenever no run of chunks starts with the text of the run right before it;
    other chunks can be taken for a repetition and lost. *)
Theorem streamed_answer t now s text k1 v1 k2 v2 its cs :
  pendingContent s = [] -> pendingReasoning s = [] ->
  item_texts its = Some cs ->
  let src := nextSource s in
  let s1 := handleSendMessage t now true true text k1 v1 k2 v2 s in
  let s2 := handle t now (EMessage src (js "[DONE]")) (run_items t now src its s1) in
  isGenerating s2 = false
  /\ exists answer, messages s2 = messages s ++ [createUserMessage k1 v1 text now; answer]
    /\ status answer = Some Complete /\ key answer = k2
    /\ (cleanb cs = true -> getMessageContent answer = final_text (concat cs)).
Proof.
  intros Hp Hr Hits src s1 s2. pose proof (cleanb_clean cs) as Hclean.
  set (pre := messages s ++ [createUserMessage k1 v1 text now]).
  assert (messages s1 = pre ++ [createLoadingAssistantMessage k2 v2 now]) as Hm1
    by (cbn; unfold appendUserMessagePair, pre; by rewrite <- app_assoc).
  assert (streaming_with (cleanb cs = true) src [] [] s1) as Hs1.
  { split; try done. by exists pre, (createLoadingAssistantMessage k2 v2 now). }
  destruct (sw_items _ t now src its cs [] [] s1 Hits Hclean Hs1) as (a & b & E & Hsw).
  cbn in E. subst cs. destruct (stream_end _ t now src a b _ Hsw Hclean) as (Hg & answer & Hl & Hst & Hct).
  split; [exact Hg|]. exists answer.
  assert (same_but_last (messages s1) (messages s2)) as Hf.
  { eapply same_but_last_trans; [apply (run_items_frame t now src its)|]. by apply answers_frame. }
  rewrite Hm1 in Hf. apply same_but_last_shape in Hf as (m' & Hm' & Hk).
  fold s2 in Hl. rewrite Hm', last_snoc in Hl. injection Hl as ->.
  split; [rewrite Hm'; unfold pre; by rewrite <- app_assoc|]. by split.
Qed.

Definition sample_data (s : jsstr) : jsstr :=
  js "{" ++ dq ++ js "choices" ++ dq ++ js ":[{" ++ dq ++ js "delta" ++ dq ++ js ":{" ++ dq
  ++ js "content" ++ dq ++ js ":" ++ dq ++ s ++ dq ++ js "}}]}".

Definition sample_items : list StreamItem :=
  [SData (sample_data (js "Hel")); SData (sample_data (js "lo ")); STick; SData (sample_data (js "there")); STick].

Lemma streamed_answer_witness :
  let s := initial_chat [] in
  let s1 := handleSendMessage id zero true true (js "hi") (js "k1") (js "v1") (js "k2") (js "v2") s in
  let s2 := handle id zero (EMessage 0 (js "[DONE]")) (run_items id zero 0 sample_items s1) in
  isGenerating s2 = false
  /\ exists answer, messages s2 = [] ++ [createUserMessage (js "k1") (js "v1") (js "hi") zero; answer]
    /\ status answer = Some Complete /\ key answer = js "k2"
    /\ getMessageContent answer = final_text (concat [js "Hel"; js "lo "; []; js "there"; []]).
Proof.
  destruct (streamed_answer id zero (initial_chat []) (js "hi") (js "k1") (js "v1") (js "k2") (js "v2")
    sample_items [js "Hel"; js "lo "; []; js "there"; []]) as (H & answer & Hm & Hs & Hk & Hc);
    [vm_compute; reflexivity..|]. split; [exact H|]. exists answer. split; [exact Hm|]. split; [exact Hs|]. split; [exact Hk|].
  apply Hc. vm_compute. reflexivity.
Defined.

(** ** The request of a question *)

Lemma index_of_key_spec k ms :
  match index_of_key k ms with
  | Some i => exists m, ms !! i = Some m /\ key m = k
  | None => forall m, In m ms -> key m <> k
  end.
Proof.
  induction ms as [|m ms IH]; [by intros ? []|]. cbn [index_of_key]. destruct (str_eqb (key m) k) eqn:E.
  - exists m. split; [done|by apply str_eqb_eq].
  - destruct (index_of_key k ms) as [i|]; cbn [fmap option_fmap option_map]; [exact IH|].
    intros x [<-|Hx]; [by apply str_eqb_neq|by apply IH].
Qed.

Lemma filter_valid_app a b :
  map formatMessageForAPI (List.filter isValidMessage (a ++ b))
  = map formatMessageForAPI (List.filter isValidMessage a) ++ map formatMessageForAPI (List.filter isValidMessage b).
Proof. by rewrite List.filter_app, map_app. Qed.

Lemma loading_not_sent k v now ms :
  map formatMessageForAPI (List.filter isValidMessage (ms ++ [createLoadingAssistantMessage k v now]))
  = map formatMessageForAPI (List.filter isValidMessage ms).
Proof. rewrite filter_valid_app. cbn. by rewrite app_nil_r. Qed.

(** The request of a question carries the conversation so far and the
    question, in order: the placeholder of the answer is not sent, nor is any
    answer that is blank; and the request that regenerates a message carries a
    prefix of the conversation, so that neither the answer to replace nor
    anything after it is sent. *)
Theorem question_payload ms text k1 v1 k2 v2 now c e k k' v' :
  let sent ms := q_messages (buildChatCompletionPayload ms c e) in
  sent (appendUserMessagePair ms text k1 v1 k2 v2 now) = sent ms ++ [mkCCM User text]
  /\ Forall (fun m => ccm_role m = Assistant -> truthy (trim (ccm_content m)) = true) (sent ms)
  /\ match createRegeneratedMessages ms k k' v' now with
     | Some ms' => exists i m, ms !! i = Some m /\ key m = k
         /\ sent ms' = sent (take (if is_user m then i + 1 else i) ms) /\ exists rest, sent ms = sent ms' ++ rest
     | None => forall m, In m ms -> key m <> k
     end.
Proof.
  intros sent. subst sent. cbn [buildChatCompletionPayload q_messages]. split; [|split].
  - unfold appendUserMessagePair.
    change [?a; ?b] with ([a] ++ [b]). rewrite app_assoc, loading_not_sent, filter_valid_app. done.
  - apply Forall_forall. intros x Hx. apply list_elem_of_In, in_map_iff in Hx as (m & <- & [_ Hv]%filter_In).
    unfold isValidMessage, is_assistant in Hv. cbn [formatMessageForAPI ccm_role ccm_content]. intros Ha.
    rewrite bool_decide_true in Hv by done. destruct (versions m); [done|].
    fold (getMessageContent m). fold (hasMessageContent m). by destruct (hasMessageContent m).
  - unfold createRegeneratedMessages. pose proof (index_of_key_spec k ms) as Hi.
    destruct (index_of_key k ms) as [i|]; [|exact Hi]. destruct Hi as (m & Hm & Hk). rewrite Hm.
    destruct (is_user m) eqn:Hu; exists i, m; rewrite Hu, loading_not_sent;
      (split; [done|]; split; [done|]; split; [done|]);
      match goal with |- context [take ?j ms] =>
        exists (map formatMessageForAPI (List.filter isValidMessage (drop j ms)));
        rewrite <- filter_valid_app; by rewrite take_drop end.
Qed.
