(* ===== verification/Flow.v ===== *)
(** * The dashboard's flow graph

    Model of src/web/default/src/features/dashboard/lib/flow.ts: usage rows are
    turned into paths through the stages of a role, limited to the largest
    nodes of each stage, and aggregated into the nodes and links of a Sankey
    diagram; filters, highlighting and masking act on it.  The counters and ids of a row
    are numbers of the language (IEEE doubles) that may be missing, and they are
    added and compared as such.  The locale's order of strings and the colour
    scheme of the chart library are parameters. *)

From S2P Require Import Prelude JsStr JsNum JsArray.

Local Open Scope Z_scope.

Inductive FlowNodeKind := KUser | KNode | KToken | KGroup | KModel | KChannel.
Inductive FlowRole := RRoot | RAdmin | RUser.
Inductive FlowMetric := MQuota | MTokens | MRequests.
Inductive FlowOverflowMode := Aggregate | Hide.

#[export] Instance kind_eq_dec : EqDecision FlowNodeKind.
Proof. solve_decision. Defined.

Record FlowQuotaDataItem := mkRow {
  user_id : option num; username : option jsstr; node_name : option jsstr; use_group : option jsstr;
  token_id : option num; token_name : option jsstr; channel_id : option num; channel_name : option jsstr;
  model_name : option jsstr; token_used : option num; count : option num; quota : option num
}.

Record FlowMetrics := mkMetrics { m_quota : num; m_tokens : num; m_requests : num }.

Record FlowPathNode := mkNode { n_id : jsstr; n_label : jsstr; n_kind : FlowNodeKind }.

Record PreparedFlowPath := mkPrepared { p_path : list FlowPathNode; p_metrics : FlowMetrics }.

Record FlowNodeFilter := mkFilter { f_kind : FlowNodeKind; f_id : jsstr }.
Record FlowLinkSelection := mkLinkSel { l_source : jsstr; l_target : jsstr }.

Record DashboardFlowNode := mkFlowNode {
  fn_id : jsstr; fn_label : jsstr; fn_kind : FlowNodeKind;
  fn_value : num; fn_requests : num; fn_quota : num; fn_tokens : num;
  fn_color : jsstr; fn_colorKey : jsstr;
  fn_highlighted : option bool; fn_dimmed : option bool
}.

Record DashboardFlowLink := mkFlowLink {
  fl_source : jsstr; fl_target : jsstr;
  fl_value : num; fl_requests : num; fl_quota : num; fl_tokens : num;
  fl_sourceLabel : jsstr; fl_targetLabel : jsstr;
  fl_color : jsstr; fl_linkColor : jsstr; fl_linkAlpha : num; fl_hoverColor : jsstr;
  fl_colorKey : jsstr; fl_share : num;
  fl_highlighted : option bool; fl_dimmed : option bool
}.

(** ** Rows and paths *)

(** [Number(value)] is NaN for a missing member. *)
Definition numberValue (v : option num) : num :=
  match v with Some n => if isFinite n then n else zero | None => zero end.
(** [v || d] on a string that may be missing. *)
Definition or_str (v : option jsstr) (d : jsstr) : jsstr := str_or (default [] v) d.
Definition show (z : Z) : jsstr := num_to_str (num_of_Z z).

Definition rowMetrics (row : FlowQuotaDataItem) : FlowMetrics :=
  mkMetrics (numberValue (quota row)) (numberValue (token_used row)) (numberValue (count row)).

Definition metricValue (m : FlowMetrics) (metric : FlowMetric) : num :=
  match metric with MRequests => m_requests m | MTokens => m_tokens m | MQuota => m_quota m end.

Definition userNode (row : FlowQuotaDataItem) : FlowPathNode :=
  let userID := numberValue (user_id row) in
  mkNode (if ngt userID zero then js "user:" ++ num_to_str userID else js "user:" ++ or_str (username row) (js "unknown"))
         (or_str (username row) (if ngt userID zero then js "user-" ++ num_to_str userID else js "Unknown User"))
         KUser.

Definition nodeNameNode (row : FlowQuotaDataItem) : FlowPathNode :=
  let nodeName := or_str (node_name row) (js "default-node") in
  mkNode (js "node:" ++ nodeName) nodeName KNode.

(** [ctx] is the label the context gives to a deleted token, if it gives one. *)
Definition deletedTokenLabel (tokenID : num) (ctx : option (num -> jsstr)) : jsstr :=
  if nle tokenID zero then js "Unknown Token"
  else match ctx with Some f => f tokenID | None => js "token-" ++ num_to_str tokenID end.

Definition tokenNode (row : FlowQuotaDataItem) (ctx : option (num -> jsstr)) : FlowPathNode :=
  let tokenID := numberValue (token_id row) in
  mkNode (if ngt tokenID zero then js "token:" ++ num_to_str tokenID else js "token:" ++ or_str (token_name row) (js "unknown"))
         (or_str (token_name row) (deletedTokenLabel tokenID ctx)) KToken.

Definition groupNode (row : FlowQuotaDataItem) : FlowPathNode :=
  let useGroup := or_str (use_group row) (js "unknown") in
  mkNode (js "group:" ++ useGroup) useGroup KGroup.

Definition modelNode (row : FlowQuotaDataItem) : FlowPathNode :=
  mkNode (js "model:" ++ or_str (model_name row) (js "unknown"))
         (or_str (model_name row) (js "Unknown Model")) KModel.

Definition channelNode (row : FlowQuotaDataItem) : FlowPathNode :=
  let channelID := numberValue (channel_id row) in
  mkNode (if ngt channelID zero then js "channel:" ++ num_to_str channelID
          else js "channel:" ++ or_str (channel_name row) (js "unknown"))
         (or_str (channel_name row) (if ngt channelID zero then js "channel-" ++ num_to_str channelID else js "Unknown"))
         KChannel.

Definition NODE_BUILDERS (kind : FlowNodeKind) (row : FlowQuotaDataItem) (ctx : option (num -> jsstr))
    : FlowPathNode :=
  match kind with
  | KUser => userNode row | KNode => nodeNameNode row | KToken => tokenNode row ctx
  | KGroup => groupNode row | KModel => modelNode row | KChannel => channelNode row
  end.

Definition ROLE_FLOW_STAGES (role : FlowRole) : list FlowNodeKind :=
  match role with
  | RRoot => [KUser; KNode; KToken; KGroup; KModel; KChannel]
  | RAdmin => [KUser; KGroup; KModel; KChannel]
  | RUser => [KToken; KGroup; KModel]
  end.

Definition MIN_FLOW_STAGES : nat := 2.

Definition getFlowStages (role : FlowRole) : list FlowNodeKind := ROLE_FLOW_STAGES role.

Definition resolveVisibleStages (role : FlowRole) (visibleStages : option (list FlowNodeKind))
    : list FlowNodeKind :=
  let stages := getFlowStages role in
  match visibleStages with
  | None => stages
  | Some visible =>
      let filtered := List.filter (fun s => bool_decide (In s visible)) stages in
      if Nat.leb MIN_FLOW_STAGES (length filtered) then filtered else stages
  end.

Definition flowPathForStages (row : FlowQuotaDataItem) (stages : list FlowNodeKind)
    (ctx : option (num -> jsstr)) : list FlowPathNode :=
  map (fun stage => NODE_BUILDERS stage row ctx) stages.

(** ** Filters *)

Definition filterRows (rows : list FlowQuotaDataItem) (selectedUsers : list jsstr)
    : list FlowQuotaDataItem :=
  match selectedUsers with
  | [] => rows
  | _ => List.filter (fun row => existsb (str_eqb (n_id (userNode row))) selectedUsers) rows
  end.

(** A map from kinds to the selected ids. *)
Definition normalizeSelectedNodeFilters (selectedNodes : list FlowNodeFilter)
    (stages : list FlowNodeKind) : list (FlowNodeKind * list jsstr) :=
  foldl (fun filters f =>
      if decide (In (f_kind f) stages)
      then mset (f_kind f) (sadd (f_id f) (default [] (mget (f_kind f) filters))) filters
      else filters) [] selectedNodes.

Definition path_nodes_by_kind (path : list FlowPathNode) : list (FlowNodeKind * list jsstr) :=
  foldl (fun m n => mset (n_kind n) (sadd (n_id n) (default [] (mget (n_kind n) m))) m) [] path.

Definition pathMatchesNodeFilters (path : list FlowPathNode) (filters : list (FlowNodeKind * list jsstr)) : bool :=
  forallb (fun kf =>
      match mget kf.1 (path_nodes_by_kind path) with
      | None => false
      | Some pathIds => existsb (fun id => existsb (str_eqb id) pathIds) kf.2
      end) filters.

Definition filterRowsByNodes (rows : list FlowQuotaDataItem) (selectedNodes : list FlowNodeFilter)
    (stages : list FlowNodeKind) (ctx : option (num -> jsstr)) : list FlowQuotaDataItem :=
  let filters := normalizeSelectedNodeFilters selectedNodes stages in
  match filters with
  | [] => rows
  | _ => List.filter (fun row => pathMatchesNodeFilters (flowPathForStages row stages ctx) filters) rows
  end.

Definition selectedNodeFiltersExceptKind (selectedNodes : list FlowNodeFilter) (kind : FlowNodeKind)
    : list FlowNodeFilter :=
  List.filter (fun f => negb (bool_decide (f_kind f = kind))) selectedNodes.

(** ** Aggregation *)

Definition addNode (m : list (jsstr * DashboardFlowNode)) (n : FlowPathNode) (metrics : FlowMetrics)
    (metric : FlowMetric) (color colorKey : jsstr) : list (jsstr * DashboardFlowNode) :=
  let prev := default (mkFlowNode (n_id n) (n_label n) (n_kind n) zero zero zero zero color colorKey None None)
                (mget (n_id n) m) in
  mset (n_id n)
    (mkFlowNode (fn_id prev) (fn_label prev) (fn_kind prev)
       (nadd (fn_value prev) (metricValue metrics metric)) (nadd (fn_requests prev) (m_requests metrics))
       (nadd (fn_quota prev) (m_quota metrics)) (nadd (fn_tokens prev) (m_tokens metrics))
       (fn_color prev) (fn_colorKey prev) (fn_highlighted prev) (fn_dimmed prev)) m.

Definition link_key (source target : jsstr) : jsstr := source ++ [0%N] ++ target.
Definition pathLinkKey (source target : FlowPathNode) : jsstr := link_key (n_id source) (n_id target).
Definition linkStableKey (l : DashboardFlowLink) : jsstr := link_key (fl_source l) (fl_target l).

Definition addLink (m : list (jsstr * DashboardFlowLink)) (source target : FlowPathNode)
    (metrics : FlowMetrics) (metric : FlowMetric) (color colorKey : jsstr)
    : list (jsstr * DashboardFlowLink) :=
  let k := pathLinkKey source target in
  let prev := default (mkFlowLink (n_id source) (n_id target) zero zero zero zero (n_label source) (n_label target)
                         color color (num_of_Z 1) color colorKey zero None None) (mget k m) in
  mset k
    (mkFlowLink (fl_source prev) (fl_target prev)
       (nadd (fl_value prev) (metricValue metrics metric)) (nadd (fl_requests prev) (m_requests metrics))
       (nadd (fl_quota prev) (m_quota metrics)) (nadd (fl_tokens prev) (m_tokens metrics))
       (fl_sourceLabel prev) (fl_targetLabel prev) (fl_color prev) (fl_linkColor prev)
       (fl_linkAlpha prev) (fl_hoverColor prev) (fl_colorKey prev) (fl_share prev)
       (fl_highlighted prev) (fl_dimmed prev)) m.

(** The links of a path: its neighbouring nodes. *)
Fixpoint path_edges (path : list FlowPathNode) : list (FlowPathNode * FlowPathNode) :=
  match path with
  | a :: (b :: _) as t => (a, b) :: path_edges t
  | _ => []
  end.

Record FlowSummary := mkSummary { s_quota : num; s_tokens : num; s_requests : num }.

Definition buildSummary (rows : list FlowQuotaDataItem) : FlowSummary :=
  foldl (fun s row =>
      let m := rowMetrics row in
      mkSummary (nadd (s_quota s) (m_quota m)) (nadd (s_tokens s) (m_tokens m)) (nadd (s_requests s) (m_requests m)))
    (mkSummary zero zero zero) rows.

(** [None] is undefined. *)
Definition normalizeTopNodeLimit (limit : option num) : option Z :=
  match limit with
  | None => None
  | Some l =>
      let parsed := nfloor l in
      if isFinite parsed && ngt parsed zero then Some (num_to_Z parsed) else None
  end.

Definition OTHER_FLOW_NODE_IDS (kind : FlowNodeKind) : jsstr :=
  match kind with
  | KUser => js "user:__other__" | KNode => js "node:__other__" | KToken => js "token:__other__"
  | KGroup => js "group:__other__" | KModel => js "model:__other__" | KChannel => js "channel:__other__"
  end.
Definition DEFAULT_OTHER_FLOW_NODE_LABELS (kind : FlowNodeKind) : jsstr :=
  match kind with
  | KUser => js "Other users" | KNode => js "Other nodes" | KToken => js "Other tokens"
  | KGroup => js "Other groups" | KModel => js "Other models" | KChannel => js "Other channels"
  end.
Definition FLOW_NODE_KINDS : list FlowNodeKind := [KUser; KNode; KToken; KGroup; KModel; KChannel].
Definition OTHER_FLOW_NODE_ID_SET : list jsstr := map OTHER_FLOW_NODE_IDS FLOW_NODE_KINDS.
Definition SENSITIVE_FLOW_KINDS : list FlowNodeKind := [KUser; KNode; KToken; KGroup; KChannel].

Definition otherFlowNode (kind : FlowNodeKind) (labeler : option (FlowNodeKind -> jsstr)) : FlowPathNode :=
  mkNode (OTHER_FLOW_NODE_IDS kind)
    (match labeler with Some f => f kind | None => DEFAULT_OTHER_FLOW_NODE_LABELS kind end) kind.

(** [x || y] on the results of comparisons. *)
Definition cmp_or (x y : Z) : Z := if x =? 0 then y else x.
(** The sign of [x - y], as a comparison uses it: none for NaN. *)
Definition ncmp (x y : num) : Z :=
  let d := nsub x y in if ngt d zero then 1 else if nlt d zero then -1 else 0.
Definition sort_cmp {A} (cmp : A -> A -> Z) (l : list A) : list A := isort (fun a b => cmp a b <=? 0) l.

Section Graph.
(** [a.localeCompare(b)], and the colour scheme of the chart library: the
    largest domain a palette serves (none for the last), and its colours. *)
Variables (lc : jsstr -> jsstr -> Z) (scheme : list (option nat * list jsstr)).

Definition str_sort (l : list jsstr) : list jsstr := sort_cmp lc l.

(** ** Colours *)

Definition getDashboardChartColors (domainLength : nat) : list jsstr :=
  match find (fun item => match item.1 with
                          | None | Some O => true
                          | Some n => Nat.leb domainLength n
                          end) scheme with
  | Some item => item.2
  | None => match last scheme with Some item => item.2 | None => [] end
  end.

Definition DEFAULT_FLOW_CHART_COLOR := js "#1664FF".

Definition colorAt (index : nat) (palette : list jsstr) : jsstr :=
  let colors := match palette with [] => getDashboardChartColors (S index) | _ => palette end in
  match colors with
  | [] => DEFAULT_FLOW_CHART_COLOR
  | _ => default DEFAULT_FLOW_CHART_COLOR (colors !! (index mod length colors)%nat)
  end.

Definition colorPalette (colorCount : nat) (palette : list jsstr) : list jsstr :=
  match palette with
  | [] => match getDashboardChartColors colorCount with [] => [DEFAULT_FLOW_CHART_COLOR] | cs => cs end
  | _ => palette
  end.

Definition stableColorMap (keys : list jsstr) (palette : list jsstr) : list (jsstr * jsstr) :=
  let uniqueKeys := uniq keys in
  let colors := colorPalette (length uniqueKeys) palette in
  imap (fun i k => (k, colorAt i colors)) uniqueKeys.

Definition is_hex (c : jschar) : bool := match hex_val c with Some _ => true | None => false end.

(** The colour and the opacity of a link. *)
Definition alphaColor (color : jsstr) (alpha : num) : jsstr * num :=
  let normalized := trim color in
  let hex := if startsWith normalized (js "#") then drop 1 normalized else normalized in
  if negb (Nat.eqb (length hex) 6 && forallb is_hex hex) then (normalized, alpha)
  else
    let value := default 0 (radix_val 16 0 hex) in
    let red := Z.land (Z.shiftr value 16) 255 in
    let green := Z.land (Z.shiftr value 8) 255 in
    let blue := Z.land value 255 in
    (js "rgba(" ++ show red ++ js ", " ++ show green ++ js ", " ++ show blue ++ js ", "
       ++ toFixed alpha 2 ++ js ")", num_of_Z 1).

(** ** The largest nodes of each stage *)

Record FlowNodeRank := mkRank { rank_node : FlowPathNode; rank_value : num }.

Definition add_rank (totals : list (FlowNodeKind * list (jsstr * FlowNodeRank))) (value : num)
    (n : FlowPathNode) : list (FlowNodeKind * list (jsstr * FlowNodeRank)) :=
  match mget (n_kind n) totals with
  | None => totals
  | Some stageTotals =>
      let cur := default (mkRank n zero) (mget (n_id n) stageTotals) in
      mset (n_kind n) (mset (n_id n) (mkRank (rank_node cur) (nadd (rank_value cur) value)) stageTotals) totals
  end.

Definition rank_cmp (a b : FlowNodeRank) : Z :=
  cmp_or (ncmp (rank_value b) (rank_value a))
    (cmp_or (lc (n_label (rank_node a)) (n_label (rank_node b)))
            (lc (n_id (rank_node a)) (n_id (rank_node b)))).

Definition buildTopNodeSets (rows : list FlowQuotaDataItem) (metric : FlowMetric)
    (stages : list FlowNodeKind) (limit : option Z) (ctx : option (num -> jsstr))
    : option (list (FlowNodeKind * list jsstr)) :=
  match limit with
  | None => None
  | Some limit =>
      let totals0 := foldl (fun m stage => mset stage [] m) [] stages in
      let totals := foldl (fun totals row =>
          foldl (fun totals n => add_rank totals (metricValue (rowMetrics row) metric) n)
            totals (flowPathForStages row stages ctx)) totals0 rows in
      Some (map (fun ks =>
          (ks.1, uniq (map (fun r => n_id (rank_node r))
                   (take (Z.to_nat limit) (sort_cmp rank_cmp (map snd ks.2)))))) totals)
  end.

Definition isTopFlowNode (n : FlowPathNode) (topNodeSets : option (list (FlowNodeKind * list jsstr))) : bool :=
  match topNodeSets ≫= mget (n_kind n) with
  | None => true
  | Some ids => existsb (str_eqb (n_id n)) ids
  end.

Definition applyTopNodeLimit (path : list FlowPathNode) (topNodeSets : option (list (FlowNodeKind * list jsstr)))
    (mode : FlowOverflowMode) (labeler : option (FlowNodeKind -> jsstr)) : option (list FlowPathNode) :=
  match topNodeSets with
  | None => Some path
  | Some _ =>
      if forallb (fun n => isTopFlowNode n topNodeSets) path then Some path
      else match mode with
           | Hide => None
           | Aggregate =>
               Some (map (fun n => if isTopFlowNode n topNodeSets then n else otherFlowNode (n_kind n) labeler) path)
           end
  end.

(** ** Highlighting and masking *)

Definition pathContainsFlowNode (path : list FlowPathNode) (f : FlowNodeFilter) : bool :=
  existsb (fun n => bool_decide (n_kind n = f_kind f) && str_eqb (n_id n) (f_id f)) path.

Definition pathContainsFlowLink (path : list FlowPathNode) (l : FlowLinkSelection) : bool :=
  existsb (fun e => str_eqb (n_id e.1) (l_source l) && str_eqb (n_id e.2) (l_target l)) (path_edges path).

(** The highlighted node ids and link keys. *)
Definition buildFlowHighlightSets (prepared : list PreparedFlowPath) (activeNode : option FlowNodeFilter)
    (activeLink : option FlowLinkSelection) (stages : list FlowNodeKind) : option (list jsstr * list jsstr) :=
  let nodeActive := match activeNode with Some f => bool_decide (In (f_kind f) stages) | None => false end in
  match nodeActive, activeLink with
  | false, None => None
  | _, _ =>
      let matchesPath path :=
        match activeLink with
        | Some l => pathContainsFlowLink path l
        | None => match activeNode with Some f => pathContainsFlowNode path f | None => false end
        end in
      let paths := List.filter matchesPath (map p_path prepared) in
      let nodes := uniq (flat_map (map n_id) paths) in
      let links := uniq (flat_map (fun p => map (fun e => pathLinkKey e.1 e.2) (path_edges p)) paths) in
      match nodes with [] => None | _ => Some (nodes, links) end
  end.

Definition FLOW_MASK_TEXT : jsstr := [8226%N; 8226%N; 8226%N; 8226%N].

Definition maskFlowLabel (label : jsstr) : jsstr := match label with [] => label | _ => FLOW_MASK_TEXT end.

Definition masked_node (n : DashboardFlowNode) : bool :=
  bool_decide (In (fn_kind n) SENSITIVE_FLOW_KINDS) && negb (existsb (str_eqb (fn_id n)) OTHER_FLOW_NODE_ID_SET).

Definition set_label (label : jsstr) (n : DashboardFlowNode) : DashboardFlowNode :=
  mkFlowNode (fn_id n) label (fn_kind n) (fn_value n) (fn_requests n) (fn_quota n) (fn_tokens n)
    (fn_color n) (fn_colorKey n) (fn_highlighted n) (fn_dimmed n).
Definition set_link_labels (s t : jsstr) (l : DashboardFlowLink) : DashboardFlowLink :=
  mkFlowLink (fl_source l) (fl_target l) (fl_value l) (fl_requests l) (fl_quota l) (fl_tokens l) s t
    (fl_color l) (fl_linkColor l) (fl_linkAlpha l) (fl_hoverColor l) (fl_colorKey l) (fl_share l)
    (fl_highlighted l) (fl_dimmed l).

Definition maskFlowGraphLabels (nodes : list (jsstr * DashboardFlowNode)) (links : list (jsstr * DashboardFlowLink))
    : list (jsstr * DashboardFlowNode) * list (jsstr * DashboardFlowLink) :=
  let maskedById := foldl (fun m kn =>
      if masked_node kn.2 then mset (fn_id kn.2) (maskFlowLabel (fn_label kn.2)) m else m) [] nodes in
  (map (fun kn => (kn.1, if masked_node kn.2 then set_label (maskFlowLabel (fn_label kn.2)) kn.2 else kn.2)) nodes,
   map (fun kl =>
     let l := kl.2 in
     (kl.1, set_link_labels (default (fl_sourceLabel l) (mget (fl_source l) maskedById))
                            (default (fl_targetLabel l) (mget (fl_target l) maskedById)) l)) links).

Definition highlight_node (hs : list jsstr) (n : DashboardFlowNode) : DashboardFlowNode :=
  let h := existsb (str_eqb (fn_id n)) hs in
  mkFlowNode (fn_id n) (fn_label n) (fn_kind n) (fn_value n) (fn_requests n) (fn_quota n) (fn_tokens n)
    (fn_color n) (fn_colorKey n) (Some h) (Some (negb h)).
Definition highlight_link (hs : list jsstr) (l : DashboardFlowLink) : DashboardFlowLink :=
  let h := existsb (str_eqb (linkStableKey l)) hs in
  mkFlowLink (fl_source l) (fl_target l) (fl_value l) (fl_requests l) (fl_quota l) (fl_tokens l)
    (fl_sourceLabel l) (fl_targetLabel l) (fl_color l) (fl_linkColor l) (fl_linkAlpha l) (fl_hoverColor l)
    (fl_colorKey l) (fl_share l) (Some h) (Some (negb h)).

Definition applyFlowHighlights (nodes : list (jsstr * DashboardFlowNode)) (links : list (jsstr * DashboardFlowLink))
    (sets : option (list jsstr * list jsstr))
    : list (jsstr * DashboardFlowNode) * list (jsstr * DashboardFlowLink) :=
  match sets with
  | None => (nodes, links)
  | Some (hn, hl) =>
      (map (fun kn => (kn.1, highlight_node hn kn.2)) nodes, map (fun kl => (kl.1, highlight_link hl kl.2)) links)
  end.

(** ** Link colours and order *)

Definition set_display (color : jsstr) (alpha : num) (l : DashboardFlowLink) : DashboardFlowLink :=
  mkFlowLink (fl_source l) (fl_target l) (fl_value l) (fl_requests l) (fl_quota l) (fl_tokens l)
    (fl_sourceLabel l) (fl_targetLabel l) (fl_color l) color alpha (fl_color l)
    (fl_colorKey l) (fl_share l) (fl_highlighted l) (fl_dimmed l).
Definition set_share (x : num) (l : DashboardFlowLink) : DashboardFlowLink :=
  mkFlowLink (fl_source l) (fl_target l) (fl_value l) (fl_requests l) (fl_quota l) (fl_tokens l)
    (fl_sourceLabel l) (fl_targetLabel l) (fl_color l) (fl_linkColor l) (fl_linkAlpha l) (fl_hoverColor l)
    (fl_colorKey l) x (fl_highlighted l) (fl_dimmed l).

Definition link_value_cmp (a b : DashboardFlowLink) : Z :=
  cmp_or (ncmp (fl_value b) (fl_value a)) (lc (linkStableKey a) (linkStableKey b)).

(** The opacity of the [index]-th of [n] links of a source. *)
Definition link_alpha (index n : nat) : num :=
  if Nat.eqb n 1 then dec_to_num false 34 (-2)
  else nadd (dec_to_num false 24 (-2))
         (nmul (ndiv (num_of_nat index) (num_of_nat (Nat.max (n - 1) 1))) (dec_to_num false 2 (-1))).

(** The colours assigned to the links of one source, by link key. *)
Definition source_display (sourceLinks : list DashboardFlowLink) : list (jsstr * (jsstr * num)) :=
  let sorted := sort_cmp link_value_cmp sourceLinks in
  imap (fun i l => (linkStableKey l, alphaColor (fl_color l) (link_alpha i (length sorted)))) sorted.

Definition assignLinkDisplayColors (links : list DashboardFlowLink) : list DashboardFlowLink :=
  let bySource := foldl (fun m l => mset (fl_source l) (default [] (mget (fl_source l) m) ++ [l]) m) [] links in
  let display := flat_map (fun g => source_display g.2) bySource in
  map (fun l => match mget (linkStableKey l) display with
                | Some (c, a) => set_display c a l
                | None => l
                end) links.

Definition byValueThenLabel (a b : DashboardFlowNode) : Z :=
  cmp_or (ncmp (fn_value b) (fn_value a)) (lc (fn_label a) (fn_label b)).

Definition flag (b : option bool) : Z := match b with Some true => 1 | _ => 0 end.

Record DashboardFlowGraph := mkGraph { g_nodes : list DashboardFlowNode; g_links : list DashboardFlowLink }.

Record FlowGraphOptions := mkGraphOptions {
  topNodeLimit : option num;
  overflowMode : FlowOverflowMode;
  otherNodeLabel : option (FlowNodeKind -> jsstr);
  activeNode : option FlowNodeFilter;
  activeLink : option FlowLinkSelection;
  maskSensitive : bool
}.

(** The rows that are shown, as paths. *)
Definition preparePaths (rows : list FlowQuotaDataItem) (metric : FlowMetric) (stages : list FlowNodeKind)
    (ctx : option (num -> jsstr)) (o : FlowGraphOptions) : list PreparedFlowPath :=
  let top := buildTopNodeSets rows metric stages (normalizeTopNodeLimit (topNodeLimit o)) ctx in
  omap (fun row =>
      (fun path => mkPrepared path (rowMetrics row))
      <$> applyTopNodeLimit (flowPathForStages row stages ctx) top (overflowMode o) (otherNodeLabel o)) rows.

Definition root_ids (prepared : list PreparedFlowPath) : list jsstr :=
  List.filter truthy (omap (fun p => n_id <$> head (p_path p)) prepared).

Definition path_color (colors : list (jsstr * jsstr)) (palette : list jsstr) (p : PreparedFlowPath) : jsstr * jsstr :=
  match p_path p with
  | [] => ([], [])
  | root :: _ => (default (colorAt 0 palette) (mget (n_id root) colors), n_id root)
  end.

Definition aggregateNodes (prepared : list PreparedFlowPath) (metric : FlowMetric)
    (colorOf : PreparedFlowPath -> jsstr * jsstr) : list (jsstr * DashboardFlowNode) :=
  foldl (fun m p => foldl (fun m n =>
      addNode m n (p_metrics p) metric (colorOf p).1 (colorOf p).2) m (p_path p)) [] prepared.

Definition aggregateLinks (prepared : list PreparedFlowPath) (metric : FlowMetric)
    (colorOf : PreparedFlowPath -> jsstr * jsstr) : list (jsstr * DashboardFlowLink) :=
  foldl (fun m p => foldl (fun m e =>
      addLink m e.1 e.2 (p_metrics p) metric (colorOf p).1 (colorOf p).2) m (path_edges (p_path p))) [] prepared.

Definition link_order (a b : DashboardFlowLink) : Z :=
  cmp_or (lc (fl_source a) (fl_source b)) (lc (fl_target a) (fl_target b)).

Definition sum_values (ls : list DashboardFlowLink) : num := foldl (fun s l => nadd s (fl_value l)) zero ls.

Definition buildFlowGraph (rows : list FlowQuotaDataItem) (metric : FlowMetric) (role : FlowRole)
    (palette : list jsstr) (visibleStages : option (list FlowNodeKind)) (ctx : option (num -> jsstr))
    (o : FlowGraphOptions) : DashboardFlowGraph :=
  let stages := resolveVisibleStages role visibleStages in
  let prepared := preparePaths rows metric stages ctx o in
  let colors := stableColorMap (str_sort (root_ids prepared)) palette in
  let colorOf := path_color colors palette in
  let nodes := aggregateNodes prepared metric colorOf in
  let links := aggregateLinks prepared metric colorOf in
  let '(nodes, links) := if maskSensitive o then maskFlowGraphLabels nodes links else (nodes, links) in
  let '(nodes, links) := applyFlowHighlights nodes links
    (buildFlowHighlightSets prepared (activeNode o) (activeLink o) stages) in
  let flowLinks := sort_cmp link_order (map snd links) in
  let firsts := root_ids prepared in
  let total := sum_values (List.filter (fun l => existsb (str_eqb (fl_source l)) firsts) flowLinks) in
  let shared := map (fun l =>
      set_share (if ngt total zero then ndiv (fl_value l) total else zero) l) flowLinks in
  mkGraph (sort_cmp byValueThenLabel (map snd nodes)) (assignLinkDisplayColors shared).
End Graph.

(** ** Filter options and the processed data *)

Section Data.
(** [fmt] is the number format without fraction digits. *)
Variables (lc : jsstr -> jsstr -> Z) (scheme : list (option nat * list jsstr)) (fmt : num -> jsstr).

Record FlowUserFilterOption := mkUserOption {
  uo_value : jsstr; uo_label : jsstr; uo_valueLabel : jsstr; uo_valueRaw : num; uo_color : jsstr
}.
Record FlowNodeFilterOption := mkNodeOption {
  no_kind : FlowNodeKind; no_value : jsstr; no_label : jsstr; no_valueLabel : jsstr; no_valueRaw : num;
  no_color : jsstr
}.

Definition add_user (colors : list (jsstr * jsstr)) (palette : list jsstr) (metric : FlowMetric)
    (users : list (jsstr * (jsstr * num * jsstr))) (row : FlowQuotaDataItem) : list (jsstr * (jsstr * num * jsstr)) :=
  let user := userNode row in
  if negb (ntruthy (default zero (user_id row))) && negb (truthy (default [] (username row))) then users
  else
    let '(label, v, c) := default (n_label user, zero, default (colorAt scheme 0 palette) (mget (n_id user) colors))
                            (mget (n_id user) users) in
    mset (n_id user) (label, nadd v (metricValue (rowMetrics row) metric), c) users.

Definition buildUserFilterOptions (rows : list FlowQuotaDataItem) (metric : FlowMetric) (palette : list jsstr)
    : list FlowUserFilterOption :=
  let colors := stableColorMap scheme (str_sort lc (map (fun row => n_id (userNode row)) rows)) palette in
  let users := foldl (add_user colors palette metric) [] rows in
  sort_cmp (fun a b => cmp_or (ncmp (uo_valueRaw b) (uo_valueRaw a)) (lc (uo_label a) (uo_label b)))
    (map (fun u => let '(label, v, c) := u.2 in mkUserOption u.1 label (fmt v) v c) users).

Definition kind_str (k : FlowNodeKind) : jsstr :=
  match k with
  | KUser => js "user" | KNode => js "node" | KToken => js "token"
  | KGroup => js "group" | KModel => js "model" | KChannel => js "channel"
  end.
Definition nodeFilterKey (f : FlowNodeFilter) : jsstr := kind_str (f_kind f) ++ [0%N] ++ f_id f.

Definition add_option (stage : FlowNodeKind) (ctx : option (num -> jsstr)) (metric : FlowMetric)
    (totals : list (jsstr * FlowNodeRank)) (row : FlowQuotaDataItem) : list (jsstr * FlowNodeRank) :=
  let n := NODE_BUILDERS stage row ctx in
  let k := nodeFilterKey (mkFilter (n_kind n) (n_id n)) in
  let cur := default (mkRank n zero) (mget k totals) in
  mset k (mkRank (rank_node cur) (nadd (rank_value cur) (metricValue (rowMetrics row) metric))) totals.

(** The totals of one stage, over the rows the other stages' filters keep. *)
Definition stage_totals (rows : list FlowQuotaDataItem) (metric : FlowMetric) (stages : list FlowNodeKind)
    (ctx : option (num -> jsstr)) (selectedNodes : list FlowNodeFilter) (stage : FlowNodeKind)
    : list (jsstr * FlowNodeRank) :=
  foldl (add_option stage ctx metric) []
    (filterRowsByNodes rows (selectedNodeFiltersExceptKind selectedNodes stage) stages ctx).

Fixpoint stage_index (k : FlowNodeKind) (stages : list FlowNodeKind) : Z :=
  match stages with
  | [] => 0
  | s :: t => if decide (s = k) then 0
              else if decide (In k t) then 1 + stage_index k t else 0
  end.

Definition buildNodeFilterOptions (rows : list FlowQuotaDataItem) (metric : FlowMetric) (role : FlowRole)
    (visibleStages : option (list FlowNodeKind)) (palette : list jsstr) (ctx : option (num -> jsstr))
    (selectedNodes : list FlowNodeFilter) : list FlowNodeFilterOption :=
  let stages := resolveVisibleStages role visibleStages in
  let colorIds := uniq (flat_map (fun row => map n_id (flowPathForStages row stages ctx)) rows) in
  let colors := stableColorMap scheme (str_sort lc colorIds) palette in
  let options := flat_map (fun stage =>
      map (fun kr =>
          let n := rank_node kr.2 in
          let v := rank_value kr.2 in
          mkNodeOption (n_kind n) (n_id n) (n_label n) (fmt v) v
            (default (colorAt scheme 0 palette) (mget (n_id n) colors)))
        (stage_totals rows metric stages ctx selectedNodes stage)) stages in
  sort_cmp (fun a b =>
      cmp_or (stage_index (no_kind a) stages - stage_index (no_kind b) stages)
        (cmp_or (ncmp (no_valueRaw b) (no_valueRaw a))
          (cmp_or (lc (no_label a) (no_label b)) (lc (no_value a) (no_value b))))) options.

Record FlowBuildOptions := mkBuildOptions {
  b_role : option FlowRole;
  b_palette : list jsstr;
  b_deletedTokenLabel : option (num -> jsstr);
  b_visibleStages : option (list FlowNodeKind);
  b_selectedUsers : list jsstr;
  b_selectedNodes : list FlowNodeFilter;
  b_graph : FlowGraphOptions
}.

Record ProcessedFlowData := mkProcessed {
  pd_summary : FlowSummary;
  pd_flow : DashboardFlowGraph;
  pd_users : list FlowUserFilterOption;
  pd_nodes : list FlowNodeFilterOption
}.

Definition buildDashboardFlowData (rows : list FlowQuotaDataItem) (metric : FlowMetric) (o : FlowBuildOptions)
    : ProcessedFlowData :=
  let role := default RUser (b_role o) in
  let ctx := b_deletedTokenLabel o in
  let stages := resolveVisibleStages role (b_visibleStages o) in
  let userFilteredRows := filterRows rows (b_selectedUsers o) in
  let filteredRows := filterRowsByNodes userFilteredRows (b_selectedNodes o) stages ctx in
  mkProcessed (buildSummary filteredRows)
    (buildFlowGraph lc scheme filteredRows metric role (b_palette o) (b_visibleStages o) ctx (b_graph o))
    (buildUserFilterOptions rows metric (b_palette o))
    (buildNodeFilterOptions userFilteredRows metric role (b_visibleStages o) (b_palette o) ctx (b_selectedNodes o)).

(** ** The data of the chart specification *)

Definition byLinkDrawPriority (a b : DashboardFlowLink) : Z :=
  cmp_or (flag (fl_dimmed a) - flag (fl_dimmed b))
    (cmp_or (flag (fl_highlighted b) - flag (fl_highlighted a))
      (cmp_or (ncmp (fl_value b) (fl_value a)) (lc (linkStableKey a) (linkStableKey b)))).

(** The links of the chart in the order they are drawn, with their layers. *)
Definition sankey_links (links : list DashboardFlowLink) : list (DashboardFlowLink * Z) :=
  imap (fun i l =>
      let index := Z.of_nat i in
      (l, match fl_highlighted l with
          | Some true => 1000000 + index
          | _ => match fl_dimmed l with Some true => index | _ => 100000 + index end
          end))
    (sort_cmp byLinkDrawPriority (List.filter (fun l => ngt (fl_value l) zero) links)).
End Data.

(** ** flow-selection.ts *)

Inductive FlowDisplayState := DLoading | DError | DEmpty | DChart.

Definition requireSuccessfulFlowRows (success : bool) (data : option (list FlowQuotaDataItem))
    (message : option jsstr) (fallback : jsstr) : outcome (list FlowQuotaDataItem) :=
  if negb success then Throws (or_str message fallback) else Returns (default [] data).

Definition flowDisplayState (isLoading isError : bool) (linkCount : nat) (themeReady : bool) : FlowDisplayState :=
  if isLoading then DLoading else if isError then DError
  else if Nat.eqb linkCount 0 then DEmpty else if negb themeReady then DLoading else DChart.

Definition compactFlowSelectionLabel (count : Z) : jsstr := if 0 <? count then show count else js "*".

Definition visibleFlowUsers (users : list FlowUserFilterOption) (selectedUsers : list jsstr)
    : list FlowUserFilterOption :=
  match selectedUsers with
  | [] => users
  | _ => List.filter (fun u => existsb (str_eqb (uo_value u)) selectedUsers) users
  end.
