(* ===== verification/FlowSums.v ===== *)
(** * The dashboard's flow graph: sums of counters

    The counters of the graph are IEEE doubles.  Sums of whole numbers stay
    exact as long as they stay below 2^53; this file proves it for a map whose
    entries accumulate a counter each, which is how the nodes and the links of
    the graph and the summary are built. *)

From S2P Require Import Prelude JsStr JsNum JsInt JsArray Flow.
From Stdlib Require Import Sorting.Permutation.

Local Open Scope Z_scope.

(** ** Sums of integers *)

Definition zsum (l : list Z) : Z := foldr Z.add 0 l.

Lemma zsum_cons x l : zsum (x :: l) = x + zsum l.
Proof. done. Qed.

Lemma zsum_app a b : zsum (a ++ b) = zsum a + zsum b.
Proof. induction a as [|x a IH]; [done|]. cbn [app]. rewrite !zsum_cons, IH. lia. Qed.

Lemma zsum_perm a b : Permutation a b -> zsum a = zsum b.
Proof. unfold zsum. induction 1; cbn [foldr]; lia. Qed.

Lemma zsum_le {X} (f g : X -> Z) l : (forall x, In x l -> f x <= g x) -> zsum (map f l) <= zsum (map g l).
Proof.
  induction l as [|x l IH]; intros H; [done|]. cbn [map]. rewrite !zsum_cons.
  pose proof (H x (or_introl eq_refl)). specialize (IH (fun y Hy => H y (or_intror Hy))). lia.
Qed.

Lemma zsum_nonneg {X} (f : X -> Z) l : (forall x, In x l -> 0 <= f x) -> 0 <= zsum (map f l).
Proof.
  intros H. replace 0 with (zsum (map (fun _ => 0) l)); [by apply zsum_le|].
  induction l as [|x l IH]; [done|]. cbn [map]. rewrite zsum_cons, IH; [done|]. intros y Hy. apply H. by right.
Qed.

Lemma zsum_scale {X} (v : Z) (f : X -> bool) l :
  zsum (map (fun x => if f x then v else 0) l) = v * zsum (map (fun x => if f x then 1 else 0) l).
Proof. induction l as [|x l IH]; [by rewrite Z.mul_0_r|]. cbn [map]. rewrite !zsum_cons, IH. destruct (f x); lia. Qed.

Lemma zsum_flat {A B} (f : A * B -> Z) (xs : A -> list B) ps :
  zsum (map f (flat_map (fun p => map (pair p) (xs p)) ps))
  = zsum (map (fun p => zsum (map (fun x => f (p, x)) (xs p))) ps).
Proof.
  induction ps as [|p ps IH]; [done|]. cbn [flat_map map]. rewrite map_app, zsum_app, zsum_cons, IH, map_map. done.
Qed.

Lemma foldl_flat {A B C} (f : C -> A -> B -> C) (xs : A -> list B) ps m :
  foldl (fun m p => foldl (fun m x => f m p x) m (xs p)) m ps
  = foldl (fun m px => f m px.1 px.2) m (flat_map (fun p => map (pair p) (xs p)) ps).
Proof.
  revert m. induction ps as [|p ps IH]; intros m; [done|]. cbn [foldl flat_map]. rewrite foldl_app, <- IH. f_equal.
  revert m. induction (xs p) as [|x l IHl]; intros m; [done|]. cbn [foldl map fst snd]. apply IHl.
Qed.

Lemma in_flat_pairs {A B} (xs : A -> list B) ps p x :
  In (p, x) (flat_map (fun p => map (pair p) (xs p)) ps) <-> In p ps /\ In x (xs p).
Proof.
  rewrite in_flat_map. split.
  - intros (p' & Hp & (y & [= -> ->] & Hy)%in_map_iff). done.
  - intros [Hp Hx]. exists p. split; [done|]. by apply in_map.
Qed.

(** ** Whole numbers a double holds exactly *)

Definition whole (x : num) : Prop := exists z, 0 <= z < 2 ^ 53 /\ x = num_of_Z z.
(** The value of a number, without its fraction. *)
Definition amount (x : num) : Z := num_to_Z x.

Lemma amount_of_Z z : 0 <= z < 2 ^ 53 -> amount (num_of_Z z) = z.
Proof.
  intros Hz. destruct z as [|p|p]; [done| |lia]. assert (exact (Zpos p)) as He by (unfold exact; cbn [Z.abs]; lia).
  pose proof (exact_digits p He) as Hd. rewrite num_of_Z_pos by done. unfold amount, num_to_Z, mant. cbv zeta.
  assert (0 < ndigits p) by (unfold ndigits; lia).
  destruct (0 <=? ndigits p - 53) eqn:E.
  - apply Z.leb_le in E. replace (ndigits p - 53) with 0 by lia. replace (53 - ndigits p) with 0 by lia.
    rewrite scale_0. lia.
  - apply Z.leb_gt in E. rewrite scale_val by lia. replace (- (ndigits p - 53)) with (53 - ndigits p) by lia.
    apply Z.div_mul. pose proof (Z.pow_pos_nonneg 2 (53 - ndigits p)). lia.
Qed.

Lemma whole_zero : whole zero.
Proof. by exists 0. Qed.

Lemma whole_bounds x : whole x -> 0 <= amount x < 2 ^ 53.
Proof. intros (z & Hz & ->). by rewrite amount_of_Z. Qed.

(** Adding whole numbers is exact below 2^53. *)
Lemma whole_add x y : whole x -> whole y -> amount x + amount y < 2 ^ 53 ->
  whole (nadd x y) /\ amount (nadd x y) = amount x + amount y.
Proof.
  intros (a & Ha & ->) (b & Hb & ->). rewrite !amount_of_Z by done. intros Hab.
  rewrite nadd_Z by (unfold exact; lia). split; [exists (a + b); split; [lia|done]|]. apply amount_of_Z. lia.
Qed.

(** ** Maps that accumulate *)

Section Accumulate.
Context {X E : Type} (key : X -> jsstr) (val : X -> num) (fresh : X -> E) (get : E -> num) (bump : E -> X -> E).
Hypothesis fresh_get : forall x, get (fresh x) = zero.
Hypothesis bump_get : forall e x, get (bump e x) = nadd (get e) (val x).

Definition acc (m : list (jsstr * E)) (x : X) : list (jsstr * E) :=
  mset (key x) (bump (default (fresh x) (mget (key x) m)) x) m.

Lemma acc_NoDup m xs : NoDup (map fst m) -> NoDup (map fst (foldl acc m xs)).
Proof. revert m. induction xs as [|x xs IH]; intros m Hm; [done|]. cbn [foldl]. by apply IH, mset_NoDup. Qed.

Definition at_key (k : jsstr) (m : list (jsstr * E)) : Z :=
  match mget k m with Some e => amount (get e) | None => 0 end.
Definition to_key (k : jsstr) (xs : list X) : Z :=
  zsum (map (fun x => if str_eqb (key x) k then amount (val x) else 0) xs).
Definition total (Q : E -> bool) (m : list (jsstr * E)) : Z :=
  zsum (map (fun kv => if Q kv.2 then amount (get kv.2) else 0) m).
Definition entries_whole (m : list (jsstr * E)) : Prop := forall k e, mget k m = Some e -> whole (get e).

Lemma at_key_default k m x : amount (get (default (fresh x) (mget k m))) = at_key k m.
Proof. unfold at_key. destruct (mget k m); [done|]. cbn. by rewrite fresh_get. Qed.

Lemma entry_whole k m x : entries_whole m -> whole (get (default (fresh x) (mget k m))).
Proof. intros Hm. destruct (mget k m) eqn:Em; cbn; [by apply (Hm k)|]. rewrite fresh_get. apply whole_zero. Qed.

Lemma acc_step m x :
  entries_whole m -> whole (val x) -> at_key (key x) m + amount (val x) < 2 ^ 53 ->
  entries_whole (acc m x)
  /\ forall k, at_key k (acc m x) = at_key k m + (if str_eqb (key x) k then amount (val x) else 0).
Proof.
  intros Hm Hx Hb. destruct (whole_add (get (default (fresh x) (mget (key x) m))) (val x)) as [Hw Ha];
    [by apply entry_whole|done|by rewrite at_key_default|]. rewrite at_key_default in Ha. unfold acc. split.
  - intros k e. destruct (decide (k = key x)) as [->|Hne].
    + rewrite mget_mset. intros <-%(inj Some). by rewrite bump_get.
    + rewrite mget_mset_ne by done. apply Hm.
  - intros k. destruct (str_eqb (key x) k) eqn:Ek.
    + apply str_eqb_eq in Ek as <-. unfold at_key at 1. by rewrite mget_mset, bump_get.
    + unfold at_key. rewrite mget_mset_ne; [lia|]. intros ->. by rewrite str_eqb_refl in Ek.
Qed.

Lemma total_mset Q k e m :
  total Q (mset k e m)
  = total Q m + (if Q e then amount (get e) else 0)
    - match mget k m with Some e0 => if Q e0 then amount (get e0) else 0 | None => 0 end.
Proof.
  unfold total. induction m as [|[k2 e2] m IH]; cbn [mset mget map snd]; [rewrite zsum_cons; cbn; lia|].
  destruct (decide (k = k2)); cbn [map snd]; rewrite !zsum_cons; [lia|]. rewrite IH. lia.
Qed.

Variable Q : E -> bool.
Hypothesis bump_Q : forall e x, Q (bump e x) = Q e.

(** The entry of a key is selected as the items of the key are. *)
Definition agree (m : list (jsstr * E)) (xs : list X) : Prop :=
  forall x e, In x xs -> mget (key x) m = Some e -> Q e = Q (fresh x).

Lemma acc_total m x :
  entries_whole m -> whole (val x) -> at_key (key x) m + amount (val x) < 2 ^ 53 -> agree m [x] ->
  total Q (acc m x) = total Q m + (if Q (fresh x) then amount (val x) else 0).
Proof.
  intros Hm Hx Hb Hag. destruct (whole_add (get (default (fresh x) (mget (key x) m))) (val x)) as [_ Ha];
    [by apply entry_whole|done|by rewrite at_key_default|]. rewrite at_key_default in Ha. unfold acc.
  rewrite total_mset, bump_Q, bump_get, Ha. unfold at_key.
  destruct (mget (key x) m) as [e|] eqn:Em; cbn [default from_option id].
  - rewrite (Hag x e) by (done || by left). destruct (Q (fresh x)); lia.
  - destruct (Q (fresh x)); lia.
Qed.

Lemma acc_agree m x xs :
  (forall y, In y xs -> key y = key x -> Q (fresh y) = Q (fresh x)) -> agree m (x :: xs) -> agree (acc m x) xs.
Proof.
  intros Hxs Hag y e Hy. unfold acc. destruct (decide (key y = key x)) as [Hk|Hne].
  - rewrite Hk, mget_mset. intros <-%(inj Some). rewrite bump_Q, (Hxs y Hy Hk).
    destruct (mget (key x) m) as [e|] eqn:Em; cbn; [|done]. apply (Hag x e); [by left|done].
  - rewrite mget_mset_ne by done. apply Hag. by right.
Qed.

Lemma to_key_nonneg k xs : Forall (fun x => whole (val x)) xs -> 0 <= to_key k xs.
Proof.
  intros H. apply zsum_nonneg. intros x Hx. rewrite Forall_forall in H.
  destruct (whole_bounds (val x)) as [? _]; [by apply H, list_elem_of_In|]. by case_match.
Qed.

(** Accumulating adds exactly, when no entry reaches 2^53. *)
Lemma accumulate m xs :
  entries_whole m -> Forall (fun x => whole (val x)) xs ->
  (forall k, at_key k m + to_key k xs < 2 ^ 53) ->
  (forall x y, In x xs -> In y xs -> key x = key y -> Q (fresh x) = Q (fresh y)) -> agree m xs ->
  entries_whole (foldl acc m xs)
  /\ total Q (foldl acc m xs) = total Q m + zsum (map (fun x => if Q (fresh x) then amount (val x) else 0) xs).
Proof.
  intros Hm Hxs. revert m Hm. induction Hxs as [|x xs Hx Hxs IH]; intros m Hm Hb HQ Hag; cbn [foldl].
  { split; [done|]. cbn. lia. }
  assert (at_key (key x) m + amount (val x) < 2 ^ 53) as Hbx.
  { pose proof (Hb (key x)) as H. pose proof (to_key_nonneg (key x) xs Hxs). unfold to_key in *. cbn [map] in H.
    rewrite zsum_cons, str_eqb_refl in H. lia. }
  destruct (acc_step m x Hm Hx Hbx) as [Hm' Hat].
  destruct (IH (acc m x) Hm') as [H1 H2].
  - intros k. rewrite Hat. specialize (Hb k). unfold to_key in *. cbn [map] in Hb. rewrite zsum_cons in Hb. lia.
  - intros y z Hy Hz. apply HQ; by right.
  - apply acc_agree; [|done]. intros y Hy Hk. apply HQ; [by right|by left|done].
  - split; [exact H1|]. rewrite H2, acc_total; [|done..|]; [cbn [map]; rewrite zsum_cons; lia|].
    intros y e [->|[]] He. apply (Hag y e); [by left|done].
Qed.

(** From an empty map. *)
Lemma accumulated xs :
  Forall (fun x => whole (val x)) xs -> (forall k, to_key k xs < 2 ^ 53) ->
  (forall x y, In x xs -> In y xs -> key x = key y -> Q (fresh x) = Q (fresh y)) ->
  entries_whole (foldl acc [] xs)
  /\ total Q (foldl acc [] xs) = zsum (map (fun x => if Q (fresh x) then amount (val x) else 0) xs).
Proof. intros Hxs Hb HQ. by apply (accumulate []). Qed.
End Accumulate.
