(* ===== verification/FlowProps.v ===== *)
(** * The dashboard's flow graph: the properties

    Stages, filters, the aggregation as a balanced flow, the limit on the
    nodes of a stage, masking and highlighting. *)

From S2P Require Import Prelude JsStr JsNum JsInt JsArray Flow FlowSums.
From Stdlib Require Import Sorting.Permutation.

Local Open Scope Z_scope.

(** ** Stages and filters *)

Lemma builder_kind k row ctx : n_kind (NODE_BUILDERS k row ctx) = k.
Proof. by destruct k. Qed.

Lemma visible_stages role visible :
  exists p, resolveVisibleStages role visible = List.filter p (getFlowStages role).
Proof.
  unfold resolveVisibleStages. destruct visible as [vs|]; [destruct (Nat.leb _ _); [by eexists|]|];
    exists (fun _ => true); by destruct role.
Qed.

(** The stages shown are always at least two of the role's, in the role's
    order, so that every row has a link to draw. *)
Theorem visible_stages_ok role visible :
  (2 <= length (resolveVisibleStages role visible))%nat
  /\ exists p, resolveVisibleStages role visible = List.filter p (getFlowStages role).
Proof.
  split; [|apply visible_stages].
  assert ((2 <= length (getFlowStages role))%nat) as Hall by (destruct role; cbn; lia).
  unfold resolveVisibleStages. destruct visible as [vs|]; [|done].
  by destruct (Nat.leb_spec MIN_FLOW_STAGES
    (length (List.filter (fun s => bool_decide (In s vs)) (getFlowStages role)))).
Qed.

(** The ids collected under a kind. *)
Definition ids_at (k : FlowNodeKind) (m : list (FlowNodeKind * list jsstr)) : list jsstr := default [] (mget k m).

Lemma collect_ids {X} (kind_of : X -> FlowNodeKind) (id_of : X -> jsstr) (l : list X) m k x :
  In x (ids_at k (foldl (fun m n => mset (kind_of n) (sadd (id_of n) (default [] (mget (kind_of n) m))) m) m l))
  <-> In x (ids_at k m) \/ exists n, In n l /\ kind_of n = k /\ id_of n = x.
Proof.
  revert m. induction l as [|n l IH]; intros m; cbn [foldl].
  - split; [tauto|]. intros [?|(n & [] & _)]; done.
  - rewrite IH. unfold ids_at. destruct (decide (k = kind_of n)) as [->|Hne].
    + rewrite mget_mset. cbn [default from_option id]. rewrite sadd_In. split.
      * intros [[->|?]|(n' & Hn & H)]; [right; exists n; repeat split; by left|by left|right; exists n'; split; [by right|done]].
      * intros [?|(n' & [<-|Hn] & Hk & Hi)]; [left; by right|left; left; done|right; by exists n'].
    + rewrite mget_mset_ne by done. split.
      * intros [?|(n' & Hn & H)]; [by left|right; exists n'; split; [by right|done]].
      * intros [?|(n' & [<-|Hn] & Hk & Hi)]; [by left|by destruct Hne|right; by exists n'].
Qed.

Lemma collect_kinds {X} (kind_of : X -> FlowNodeKind) (id_of : X -> jsstr) (l : list X) m k :
  mget k (foldl (fun m n => mset (kind_of n) (sadd (id_of n) (default [] (mget (kind_of n) m))) m) m l) = None
  <-> mget k m = None /\ forall n, In n l -> kind_of n <> k.
Proof.
  revert m. induction l as [|n l IH]; intros m; cbn [foldl]; [split; [by intros ?|tauto]|].
  rewrite IH. destruct (decide (k = kind_of n)) as [->|Hne].
  - rewrite mget_mset. split; [by intros [? _]|]. intros [_ H]. by destruct (H n (or_introl eq_refl)).
  - rewrite mget_mset_ne by done. split.
    + intros [? H]. split; [done|]. intros n' [<-|Hn]; [by apply not_eq_sym|by apply H].
    + intros [? H]. split; [done|]. intros n' Hn. apply H. by right.
Qed.

Lemma normalize_as_collect sel stages :
  normalizeSelectedNodeFilters sel stages
  = foldl (fun m f => mset (f_kind f) (sadd (f_id f) (default [] (mget (f_kind f) m))) m) []
      (List.filter (fun f => bool_decide (In (f_kind f) stages)) sel).
Proof.
  unfold normalizeSelectedNodeFilters. generalize (@nil (FlowNodeKind * list jsstr)).
  induction sel as [|f sel IH]; intros m; [done|]. cbn [foldl List.filter].
  destruct (decide (In (f_kind f) stages)) as [Hin|Hin].
  - rewrite bool_decide_true by done. cbn [foldl]. apply IH.
  - rewrite bool_decide_false by done. apply IH.
Qed.

Lemma collect_NoDup {X} (kind_of : X -> FlowNodeKind) (id_of : X -> jsstr) (l : list X) m :
  NoDup (map fst m) ->
  NoDup (map fst (foldl (fun m n => mset (kind_of n) (sadd (id_of n) (default [] (mget (kind_of n) m))) m) m l)).
Proof.
  revert m. induction l as [|n l IH]; intros m Hm; [done|]. cbn [foldl]. apply IH. by apply mset_NoDup.
Qed.

Definition row_passes (sel : list FlowNodeFilter) (stages : list FlowNodeKind) (ctx : option (num -> jsstr))
    (row : FlowQuotaDataItem) : Prop :=
  forall f, In f sel -> In (f_kind f) stages ->
    exists f', In f' sel /\ f_kind f' = f_kind f /\ f_id f' = n_id (NODE_BUILDERS (f_kind f) row ctx).

Lemma path_ids row stages ctx k :
  In k stages ->
  exists ids, mget k (path_nodes_by_kind (flowPathForStages row stages ctx)) = Some ids
    /\ forall x, In x ids <-> x = n_id (NODE_BUILDERS k row ctx).
Proof.
  intros Hk. unfold path_nodes_by_kind.
  destruct (mget k _) as [ids|] eqn:E.
  - exists ids. split; [done|]. intros x.
    pose proof (collect_ids n_kind n_id (flowPathForStages row stages ctx) [] k x) as H.
    unfold ids_at at 1 in H. rewrite E in H. cbn [default from_option id] in H. rewrite H. split.
    + intros [[]|(n & Hn & Hkn & <-)]. unfold flowPathForStages in Hn.
      apply in_map_iff in Hn as (s & <- & _). rewrite builder_kind in Hkn. by subst s.
    + intros ->. right. exists (NODE_BUILDERS k row ctx). rewrite builder_kind.
      split; [|done]. by apply in_map_iff; exists k.
  - apply collect_kinds in E as [_ E]. exfalso. apply (E (NODE_BUILDERS k row ctx)); [|apply builder_kind].
    by apply in_map_iff; exists k.
Qed.

Lemma path_matches row sel stages ctx :
  pathMatchesNodeFilters (flowPathForStages row stages ctx) (normalizeSelectedNodeFilters sel stages) = true
  <-> row_passes sel stages ctx row.
Proof.
  unfold pathMatchesNodeFilters. rewrite forallb_forall, normalize_as_collect.
  set (sel' := List.filter _ sel).
  set (fm := foldl _ [] sel').
  assert (NoDup (map fst fm)) as Hnd by (apply collect_NoDup, NoDup_nil_2).
  assert (forall f, In f sel' <-> In f sel /\ In (f_kind f) stages) as Hsel.
  { intros f. unfold sel'. rewrite filter_In, bool_decide_eq_true. done. }
  split.
  - intros H f Hf Hk. destruct (mget (f_kind f) fm) as [ids|] eqn:E.
    + specialize (H _ (mget_In _ _ _ E)). cbn [fst snd] in H.
      destruct (path_ids row stages ctx (f_kind f) Hk) as (pids & Hp & Hids). rewrite Hp in H.
      apply existsb_exists in H as (x & Hx & H). apply existsb_exists in H as (y & Hy & ->%str_eqb_eq).
      apply Hids in Hy as ->.
      assert (In (n_id (NODE_BUILDERS (f_kind f) row ctx)) (ids_at (f_kind f) fm)) as Hin
        by (unfold ids_at; by rewrite E).
      apply collect_ids in Hin as [[]|(f' & Hf' & Hk' & Hi')]. apply Hsel in Hf' as [Hf' _]. by exists f'.
    + apply collect_kinds in E as [_ E]. destruct (E f); [by apply Hsel|done].
  - intros H [k ids] Hin. cbn [fst snd].
    pose proof (In_mget k ids fm Hnd Hin) as Hg.
    assert (exists f, In f sel' /\ f_kind f = k) as (f & Hf & <-).
    { destruct (decide (In k (map f_kind sel'))) as [(f & Hk & Hf)%in_map_iff|Hn]; [by exists f|]. exfalso.
      assert (mget k fm = None) as Hn'; [|congruence]. apply collect_kinds. split; [done|].
      intros f Hf <-. by apply Hn, in_map. }
    apply Hsel in Hf as [Hf Hk]. destruct (path_ids row stages ctx (f_kind f) Hk) as (pids & -> & Hids).
    destruct (H f Hf Hk) as (f' & Hf' & Hk' & Hi').
    apply existsb_exists. exists (f_id f'). split.
    + assert (In (f_id f') (ids_at (f_kind f) fm)) as Hin'.
      { apply collect_ids. right. exists f'. split; [|done]. apply Hsel. by rewrite Hk'. }
      unfold ids_at in Hin'. by rewrite Hg in Hin'.
    + apply existsb_exists. exists (f_id f'). split; [by apply Hids|apply str_eqb_refl].
Qed.

(** The node filters keep exactly the rows that, for every visible stage
    with a selection, pass through one of the selected nodes of that stage; the
    order of the rows is kept. *)
Theorem node_filters_exact rows sel stages ctx row :
  (In row (filterRowsByNodes rows sel stages ctx) <-> In row rows /\ row_passes sel stages ctx row)
  /\ exists p, filterRowsByNodes rows sel stages ctx = List.filter p rows.
Proof.
  unfold filterRowsByNodes. pose proof (path_matches row sel stages ctx) as Hm.
  destruct (normalizeSelectedNodeFilters sel stages) as [|f fs] eqn:E.
  - split; [|exists (fun _ => true); symmetry; apply filter_all; by apply forallb_forall].
    split; [intros H; split; [done|]|tauto]. by apply Hm.
  - split; [|by eexists]. by rewrite filter_In, Hm.
Qed.

(** ** The kind of a node is the prefix of its id *)

Definition id_of_kind (k : FlowNodeKind) (id : jsstr) : Prop := exists s, id = kind_str k ++ js ":" ++ s.

Lemma id_kind_inj k k' id : id_of_kind k id -> id_of_kind k' id -> k = k'.
Proof. intros [s ->] [s' H]. destruct k, k'; try done; cbn in H; discriminate H. Qed.

Lemma builder_id k row ctx : id_of_kind k (n_id (NODE_BUILDERS k row ctx)).
Proof.
  unfold id_of_kind. destruct k; cbn [NODE_BUILDERS]; unfold userNode, nodeNameNode, tokenNode, groupNode, modelNode, channelNode;
    cbv zeta; cbn [n_id]; try (by eexists); destruct (ngt _ _); by eexists.
Qed.

Lemma other_id k labeler : id_of_kind k (n_id (otherFlowNode k labeler)).
Proof. destruct k; by eexists. Qed.

Definition path_wf (stages : list FlowNodeKind) (path : list FlowPathNode) : Prop :=
  map n_kind path = stages /\ Forall (fun n => id_of_kind (n_kind n) (n_id n)) path.

Lemma stage_path_wf row stages ctx : path_wf stages (flowPathForStages row stages ctx).
Proof.
  unfold flowPathForStages. induction stages as [|k stages [IH1 IH2]]; [by split|].
  split; cbn [map]; rewrite ?builder_kind, ?IH1; [done|]. constructor; [|done].
  rewrite builder_kind. apply builder_id.
Qed.

Lemma limited_path_wf stages path top mode labeler path' :
  path_wf stages path -> applyTopNodeLimit path top mode labeler = Some path' -> path_wf stages path'.
Proof.
  intros [Hk Hi]. unfold applyTopNodeLimit. destruct top as [t|]; [|by intros [= <-]].
  destruct (forallb _ path); [by intros [= <-]|]. destruct mode; [|done]. intros [= <-].
  split; [rewrite map_map, <- Hk; apply map_ext; intros n; by destruct (isTopFlowNode n _)|].
  apply Forall_map. eapply Forall_impl; [exact Hi|]. cbn. intros n Hn.
  destruct (isTopFlowNode n _); [done|apply other_id].
Qed.

Section Prepared.
Variable lc : jsstr -> jsstr -> Z.
Variables (rows : list FlowQuotaDataItem) (metric : FlowMetric) (role : FlowRole)
  (visible : option (list FlowNodeKind)) (ctx : option (num -> jsstr)) (o : FlowGraphOptions).

Let stages := resolveVisibleStages role visible.
Let prepared := preparePaths lc rows metric stages ctx o.

Lemma prepared_wf : Forall (fun p => path_wf stages (p_path p)) prepared.
Proof.
  subst prepared. unfold preparePaths. cbv zeta. set (top := buildTopNodeSets _ _ _ _ _ _). clearbody top.
  induction rows as [|row rs IH]; [constructor|]. cbn [omap list_omap].
  destruct (applyTopNodeLimit _ _ _ _) as [path|] eqn:E; cbn [fmap option_fmap option_map]; [|exact IH].
  constructor; [|exact IH]. cbn [p_path]. eapply limited_path_wf; [apply stage_path_wf|exact E].
Qed.

Lemma aggregate_keeps_rows : overflowMode o = Aggregate -> map p_metrics prepared = map rowMetrics rows.
Proof.
  intros Ho. subst prepared. unfold preparePaths. cbv zeta. rewrite Ho.
  set (top := buildTopNodeSets _ _ _ _ _ _). clearbody top.
  induction rows as [|row rs IH]; [done|]. cbn [omap list_omap].
  unfold applyTopNodeLimit at 1. destruct top as [t|]; [destruct (forallb _ _)|];
    cbn [fmap option_fmap option_map map p_metrics]; f_equal; exact IH.
Qed.
End Prepared.

Lemma stages_NoDup role visible : NoDup (resolveVisibleStages role visible).
Proof.
  assert (forall r, List.NoDup (getFlowStages r)) as Hr.
  { intros r. apply NoDup_ListNoDup. apply (bool_decide_unpack _). by destruct r. }
  destruct (visible_stages role visible) as [p ->]. apply NoDup_ListNoDup, List.NoDup_filter, Hr.
Qed.

(** ** Rows that add up exactly *)

Definition row_value (metric : FlowMetric) (row : FlowQuotaDataItem) : num := metricValue (rowMetrics row) metric.

(** The counter of every row is a whole number, and they add up to less than 2^53. *)
Definition countable (metric : FlowMetric) (rows : list FlowQuotaDataItem) : Prop :=
  Forall (fun row => whole (row_value metric row)) rows
  /\ zsum (map (fun row => amount (row_value metric row)) rows) < 2 ^ 53.

Definition path_value (metric : FlowMetric) (p : PreparedFlowPath) : Z := amount (metricValue (p_metrics p) metric).

Definition weighted (metric : FlowMetric) (w : list FlowPathNode -> Z) (ps : list PreparedFlowPath) : Z :=
  zsum (map (fun p => path_value metric p * w (p_path p)) ps).

(** How many nodes of a path are selected, and how many edges. *)
Definition node_count (q : jsstr -> FlowNodeKind -> bool) (path : list FlowPathNode) : Z :=
  zsum (map (fun n => if q (n_id n) (n_kind n) then 1 else 0) path).
Definition edge_count (P : jsstr -> jsstr -> bool) (path : list FlowPathNode) : Z :=
  zsum (map (fun e => if P (n_id e.1) (n_id e.2) then 1 else 0) (path_edges path)).
(** How often a path passes through a node. *)
Definition occ (id : jsstr) : list FlowPathNode -> Z := node_count (fun i _ => str_eqb i id).

(** Prepared paths: of distinct stages, with counters that add up exactly. *)
Record paths_ok (metric : FlowMetric) (stages : list FlowNodeKind) (ps : list PreparedFlowPath) : Prop := {
  po_stages : NoDup stages;
  po_wf : Forall (fun p => path_wf stages (p_path p)) ps;
  po_whole : Forall (fun p => whole (metricValue (p_metrics p) metric)) ps;
  po_total : zsum (map (path_value metric) ps) < 2 ^ 53
}.

Lemma occ_le_one stages path id : path_wf stages path -> NoDup stages -> 0 <= occ id path <= 1.
Proof.
  intros [<- Hi] Hd. unfold occ, node_count. induction Hi as [|n path Hn Hi IH]; [done|]. cbn [map] in *. rewrite zsum_cons.
  apply NoDup_cons in Hd as [Hk Hd]. specialize (IH Hd). destruct (str_eqb (n_id n) id) eqn:E; [|lia].
  apply str_eqb_eq in E as <-. enough (zsum (map (fun m => if str_eqb (n_id m) (n_id n) then 1 else 0) path) = 0) by lia.
  clear IH Hd. induction Hi as [|m path Hm Hi IH]; [done|]. cbn [map] in *. rewrite zsum_cons.
  rewrite list_elem_of_In in *. rewrite IH by (intros H; apply Hk; by right).
  destruct (str_eqb (n_id m) (n_id n)) eqn:E; [|done]. apply str_eqb_eq in E. rewrite E in Hm.
  exfalso. apply Hk. left. by apply (id_kind_inj _ _ (n_id n)).
Qed.

Lemma weighted_lt metric stages ps w :
  paths_ok metric stages ps -> (forall path, path_wf stages path -> w path <= 1) -> weighted metric w ps < 2 ^ 53.
Proof.
  intros [Hd Hwf Hw Ht] H. eapply Z.le_lt_trans; [|exact Ht]. unfold weighted. apply zsum_le. intros p Hp%list_elem_of_In.
  rewrite Forall_forall in Hwf, Hw. specialize (H _ (Hwf p Hp)). destruct (whole_bounds _ (Hw p Hp)) as [? _].
  unfold path_value. nia.
Qed.

(** The sum over all steps of all paths. *)
Lemma steps_weighted {B} metric (xs : list FlowPathNode -> list B) (f : B -> bool) ps :
  zsum (map (fun px => if f px.2 then amount (metricValue (p_metrics px.1) metric) else 0)
    (flat_map (fun p => map (pair p) (xs (p_path p))) ps))
  = weighted metric (fun path => zsum (map (fun x => if f x then 1 else 0) (xs path))) ps.
Proof.
  rewrite (zsum_flat (fun px => if f px.2 then amount (metricValue (p_metrics px.1) metric) else 0)
    (fun p => xs (p_path p))). unfold weighted. f_equal. apply map_ext. intros p.
  apply (zsum_scale (path_value metric p) f).
Qed.

Lemma steps_whole {B} metric stages (xs : list FlowPathNode -> list B) ps :
  paths_ok metric stages ps ->
  Forall (fun px => whole (metricValue (p_metrics px.1) metric)) (flat_map (fun p => map (pair p) (xs (p_path p))) ps).
Proof.
  intros Hp. apply Forall_forall. intros [p x] [H _]%list_elem_of_In%(in_flat_pairs (fun p => xs (p_path p))).
  destruct Hp as [_ _ Hw _]. rewrite Forall_forall in Hw. by apply Hw, list_elem_of_In.
Qed.

(** ** The nodes *)

Definition node_sum (Q : DashboardFlowNode -> bool) (ns : list DashboardFlowNode) : Z :=
  zsum (map (fun n => if Q n then amount (fn_value n) else 0) ns).

Section Nodes.
Variables (metric : FlowMetric) (colorOf : PreparedFlowPath -> jsstr * jsstr).
Let step_key (px : PreparedFlowPath * FlowPathNode) := n_id px.2.
Let fresh_node (px : PreparedFlowPath * FlowPathNode) :=
  mkFlowNode (n_id px.2) (n_label px.2) (n_kind px.2) zero zero zero zero (colorOf px.1).1 (colorOf px.1).2 None None.
Let bump_node (prev : DashboardFlowNode) (px : PreparedFlowPath * FlowPathNode) :=
  mkFlowNode (fn_id prev) (fn_label prev) (fn_kind prev)
    (nadd (fn_value prev) (metricValue (p_metrics px.1) metric)) (nadd (fn_requests prev) (m_requests (p_metrics px.1)))
    (nadd (fn_quota prev) (m_quota (p_metrics px.1))) (nadd (fn_tokens prev) (m_tokens (p_metrics px.1)))
    (fn_color prev) (fn_colorKey prev) (fn_highlighted prev) (fn_dimmed prev).
Let steps (ps : list PreparedFlowPath) := flat_map (fun p => map (pair p) (p_path p)) ps.

Lemma aggregate_nodes_steps ps :
  aggregateNodes ps metric colorOf = foldl (acc step_key fresh_node bump_node) [] (steps ps).
Proof. apply (foldl_flat (fun m p n => addNode m n (p_metrics p) metric (colorOf p).1 (colorOf p).2)). Qed.

Lemma aggregate_node_sum stages ps (q : jsstr -> FlowNodeKind -> bool) :
  paths_ok metric stages ps ->
  Forall (fun kn => whole (fn_value kn.2)) (aggregateNodes ps metric colorOf)
  /\ node_sum (fun n => q (fn_id n) (fn_kind n)) (map snd (aggregateNodes ps metric colorOf))
     = weighted metric (node_count q) ps.
Proof.
  intros Hp. rewrite aggregate_nodes_steps.
  destruct (accumulated step_key (fun px => metricValue (p_metrics px.1) metric) fresh_node fn_value bump_node
    (fun _ => eq_refl) (fun _ _ => eq_refl) (fun n => q (fn_id n) (fn_kind n)) (fun _ _ => eq_refl) (steps ps)) as [H1 H2].
  - by apply (steps_whole metric stages (fun path => path)).
  - intros k. unfold to_key, step_key. rewrite (steps_weighted metric (fun path => path) (fun n => str_eqb (n_id n) k)).
    apply (weighted_lt metric stages ps (occ k) Hp). intros path Hw.
    by apply (occ_le_one stages path k Hw (po_stages _ _ _ Hp)).
  - intros [p1 n1] [p2 n2] [Hp1 Hn1]%in_flat_pairs [Hp2 Hn2]%in_flat_pairs. unfold step_key. cbn. intros Hk.
    destruct Hp as [_ Hwf _ _]. rewrite Forall_forall in Hwf.
    destruct (Hwf p1) as [_ Hw1]; [by apply list_elem_of_In|]. destruct (Hwf p2) as [_ Hw2]; [by apply list_elem_of_In|].
    rewrite Forall_forall in Hw1, Hw2. apply list_elem_of_In in Hn1, Hn2. specialize (Hw1 _ Hn1). specialize (Hw2 _ Hn2).
    rewrite <- Hk in Hw2. by rewrite Hk, (id_kind_inj _ _ _ Hw1 Hw2).
  - split.
    + apply Forall_forall. intros [k n] Hin%list_elem_of_In. cbn [snd]. apply (H1 k).
      apply In_mget; [apply acc_NoDup, NoDup_nil_2|done].
    + etransitivity; [|etransitivity; [exact H2|]].
      * unfold node_sum, total. by rewrite map_map.
      * apply (steps_weighted metric (fun path => path) (fun n => q (n_id n) (n_kind n))).
Qed.
End Nodes.

(** ** The links *)

(** The values of the links selected by source and target. *)
Definition link_sum (P : jsstr -> jsstr -> bool) (ls : list DashboardFlowLink) : Z :=
  zsum (map (fun l => if P (fl_source l) (fl_target l) then amount (fl_value l) else 0) ls).

Definition no_nul (s : jsstr) : bool := forallb (fun c => negb (c =? 0)%N) s.
Definition path_no_nul (p : PreparedFlowPath) : bool := forallb (fun n => no_nul (n_id n)) (p_path p).

Lemma link_key_inj a b c d :
  no_nul a = true -> no_nul c = true -> link_key a b = link_key c d -> a = c /\ b = d.
Proof.
  unfold link_key, no_nul. revert c. induction a as [|x a IH]; intros [|y c]; cbn; intros Ha Hc H.
  - injection H as ->. done.
  - injection H as <- _. by rewrite N.eqb_refl in Hc.
  - injection H as -> _. by rewrite N.eqb_refl in Ha.
  - injection H as <- H. apply andb_true_iff in Ha as [_ Ha], Hc as [_ Hc].
    destruct (IH c Ha Hc H) as [-> ->]. done.
Qed.

Lemma edge_source path e : In e (path_edges path) -> In e.1 path.
Proof. induction path as [|a [|b path] IH]; [done|done|]. cbn [path_edges]. intros [<-|He]; [by left|]. right. by apply IH. Qed.

Lemma edge_no_nul p e : path_no_nul p = true -> In e (path_edges (p_path p)) -> no_nul (n_id e.1) = true.
Proof. intros Hp He%edge_source. unfold path_no_nul in Hp. rewrite forallb_forall in Hp. by apply Hp. Qed.

(** A path leaves a node at most as often as it passes through it. *)
Lemma edges_from_occ id path :
  zsum (map (fun e => if str_eqb (n_id e.1) id then 1 else 0) (path_edges path)) <= occ id path.
Proof.
  unfold occ, node_count. induction path as [|a [|b path] IH]; [done|cbn; case_match; lia|].
  cbn [path_edges map fst] in *. rewrite !zsum_cons in *. case_match; lia.
Qed.

Lemma key_edges_le_one stages path k :
  path_wf stages path -> NoDup stages -> forallb (fun n => no_nul (n_id n)) path = true ->
  zsum (map (fun e => if str_eqb (pathLinkKey e.1 e.2) k then 1 else 0) (path_edges path)) <= 1.
Proof.
  intros Hw Hd Hn. destruct (existsb (fun e => str_eqb (pathLinkKey e.1 e.2) k) (path_edges path)) eqn:E.
  - apply existsb_exists in E as (e & He & Hk%str_eqb_eq). rewrite forallb_forall in Hn.
    etransitivity; [|apply (occ_le_one stages path (n_id e.1) Hw Hd)]. etransitivity; [|apply edges_from_occ].
    apply zsum_le. intros e' He'. destruct (str_eqb (pathLinkKey e'.1 e'.2) k) eqn:E'; [|case_match; lia].
    apply str_eqb_eq in E'. rewrite <- Hk in E'.
    destruct (link_key_inj _ _ _ _ (Hn _ (edge_source _ _ He')) (Hn _ (edge_source _ _ He)) E') as [-> _].
    by rewrite str_eqb_refl.
  - replace (map _ (path_edges path)) with (map (fun _ : FlowPathNode * FlowPathNode => 0) (path_edges path)).
    + clear. induction (path_edges path); cbn [map]; rewrite ?zsum_cons; [done|lia].
    + apply map_ext_in. intros e He. case_match; [|done].
      assert (existsb (fun e => str_eqb (pathLinkKey e.1 e.2) k) (path_edges path) = true); [|congruence].
      apply existsb_exists. by exists e.
Qed.

Section Links.
Variables (metric : FlowMetric) (colorOf : PreparedFlowPath -> jsstr * jsstr).
Let step_key (px : PreparedFlowPath * (FlowPathNode * FlowPathNode)) := pathLinkKey px.2.1 px.2.2.
Let fresh_link (px : PreparedFlowPath * (FlowPathNode * FlowPathNode)) :=
  mkFlowLink (n_id px.2.1) (n_id px.2.2) zero zero zero zero (n_label px.2.1) (n_label px.2.2)
    (colorOf px.1).1 (colorOf px.1).1 (num_of_Z 1) (colorOf px.1).1 (colorOf px.1).2 zero None None.
Let bump_link (prev : DashboardFlowLink) (px : PreparedFlowPath * (FlowPathNode * FlowPathNode)) :=
  mkFlowLink (fl_source prev) (fl_target prev)
    (nadd (fl_value prev) (metricValue (p_metrics px.1) metric)) (nadd (fl_requests prev) (m_requests (p_metrics px.1)))
    (nadd (fl_quota prev) (m_quota (p_metrics px.1))) (nadd (fl_tokens prev) (m_tokens (p_metrics px.1)))
    (fl_sourceLabel prev) (fl_targetLabel prev) (fl_color prev) (fl_linkColor prev)
    (fl_linkAlpha prev) (fl_hoverColor prev) (fl_colorKey prev) (fl_share prev) (fl_highlighted prev) (fl_dimmed prev).
Let steps (ps : list PreparedFlowPath) := flat_map (fun p => map (pair p) (path_edges (p_path p))) ps.

Lemma aggregate_links_steps ps :
  aggregateLinks ps metric colorOf = foldl (acc step_key fresh_link bump_link) [] (steps ps).
Proof.
  apply (foldl_flat (fun m p e => addLink m e.1 e.2 (p_metrics p) metric (colorOf p).1 (colorOf p).2)
    (fun p => path_edges (p_path p))).
Qed.

Lemma aggregate_link_sum stages ps (P : jsstr -> jsstr -> bool) :
  paths_ok metric stages ps -> forallb path_no_nul ps = true ->
  Forall (fun kl => whole (fl_value kl.2)) (aggregateLinks ps metric colorOf)
  /\ link_sum P (map snd (aggregateLinks ps metric colorOf)) = weighted metric (edge_count P) ps.
Proof.
  intros Hp Hn. rewrite aggregate_links_steps. rewrite forallb_forall in Hn.
  destruct (accumulated step_key (fun px => metricValue (p_metrics px.1) metric) fresh_link fl_value bump_link
    (fun _ => eq_refl) (fun _ _ => eq_refl) (fun l => P (fl_source l) (fl_target l)) (fun _ _ => eq_refl) (steps ps)) as [H1 H2].
  - by apply (steps_whole metric stages path_edges).
  - intros k. unfold to_key, step_key. rewrite (steps_weighted metric path_edges (fun e => str_eqb (pathLinkKey e.1 e.2) k)).
    eapply Z.le_lt_trans; [|exact (po_total _ _ _ Hp)]. unfold weighted. apply zsum_le. intros p Hin.
    destruct Hp as [Hd Hwf Hw _]. rewrite Forall_forall in Hwf, Hw. pose proof (proj2 (list_elem_of_In ps p) Hin) as He.
    pose proof (key_edges_le_one stages (p_path p) k (Hwf p He) Hd (Hn p Hin)). destruct (whole_bounds _ (Hw p He)) as [? _].
    unfold path_value. nia.
  - intros [p1 e1] [p2 e2] [Hp1 He1]%(in_flat_pairs (fun p => path_edges (p_path p)))
      [Hp2 He2]%(in_flat_pairs (fun p => path_edges (p_path p))). unfold step_key. cbn. intros Hk.
    apply (link_key_inj _ _ _ _ (edge_no_nul p1 e1 (Hn p1 Hp1) He1) (edge_no_nul p2 e2 (Hn p2 Hp2) He2)) in Hk as [-> ->].
    done.
  - split.
    + apply Forall_forall. intros [k l] Hin%list_elem_of_In. cbn [snd]. apply (H1 k).
      apply In_mget; [apply acc_NoDup, NoDup_nil_2|done].
    + etransitivity; [|etransitivity; [exact H2|]].
      * unfold link_sum, total. by rewrite map_map.
      * apply (steps_weighted metric path_edges (fun e => P (n_id e.1) (n_id e.2))).
Qed.
End Links.

(** ** From the aggregation to the graph *)

Definition core (l : DashboardFlowLink) : jsstr * jsstr * num := (fl_source l, fl_target l, fl_value l).
Definition ncore (n : DashboardFlowNode) : jsstr * FlowNodeKind * num := (fn_id n, fn_kind n, fn_value n).

Lemma link_sum_core P ls :
  link_sum P ls = zsum (map (fun c => if P c.1.1 c.1.2 then amount c.2 else 0) (map core ls)).
Proof. unfold link_sum. by rewrite map_map. Qed.

Lemma mask_core nodes links :
  map ncore (map snd (maskFlowGraphLabels nodes links).1) = map ncore (map snd nodes)
  /\ map core (map snd (maskFlowGraphLabels nodes links).2) = map core (map snd links).
Proof.
  unfold maskFlowGraphLabels. cbn [fst snd]. rewrite !map_map. split; apply map_ext; [|done].
  intros [k n]. cbn. by destruct (masked_node n).
Qed.

Lemma highlight_core nodes links sets :
  map ncore (map snd (applyFlowHighlights nodes links sets).1) = map ncore (map snd nodes)
  /\ map core (map snd (applyFlowHighlights nodes links sets).2) = map core (map snd links).
Proof.
  destruct sets as [[hn hl]|]; [|done]. cbn [applyFlowHighlights fst snd].
  rewrite !map_map. split; by apply map_ext.
Qed.

Lemma assign_core lc ls : map core (assignLinkDisplayColors lc ls) = map core ls.
Proof.
  unfold assignLinkDisplayColors. rewrite map_map. apply map_ext. intros l.
  by destruct (mget (linkStableKey l) _) as [[c a]|].
Qed.

Section GraphFacts.
Variables (lc : jsstr -> jsstr -> Z) (scheme : list (option nat * list jsstr)).
Variables (rows : list FlowQuotaDataItem) (metric : FlowMetric) (role : FlowRole) (palette : list jsstr)
  (visible : option (list FlowNodeKind)) (ctx : option (num -> jsstr)) (o : FlowGraphOptions).

Let stages := resolveVisibleStages role visible.
Let prepared := preparePaths lc rows metric stages ctx o.
Let g := buildFlowGraph lc scheme rows metric role palette visible ctx o.

Lemma graph_cores :
  exists colorOf,
  Permutation (map ncore (g_nodes g)) (map ncore (map snd (aggregateNodes prepared metric colorOf)))
  /\ Permutation (map core (g_links g)) (map core (map snd (aggregateLinks prepared metric colorOf))).
Proof.
  set (colorOf := path_color scheme (stableColorMap scheme (str_sort lc (root_ids prepared)) palette) palette).
  exists colorOf. subst g. unfold buildFlowGraph. cbv zeta. fold stages. fold prepared. fold colorOf.
  set (nodes := aggregateNodes prepared metric colorOf). set (links := aggregateLinks prepared metric colorOf).
  destruct (if maskSensitive o then maskFlowGraphLabels nodes links else (nodes, links)) as [nodes1 links1] eqn:E1.
  assert (map ncore (map snd nodes1) = map ncore (map snd nodes)
    /\ map core (map snd links1) = map core (map snd links)) as [Hn1 Hl1].
  { destruct (maskSensitive o); [|by injection E1 as <- <-].
    destruct (mask_core nodes links) as [H1 H2]. by rewrite E1 in H1, H2. }
  destruct (applyFlowHighlights nodes1 links1 _) as [nodes2 links2] eqn:E2.
  pose proof (highlight_core nodes1 links1
    (buildFlowHighlightSets prepared (activeNode o) (activeLink o) stages)) as [Hn2 Hl2].
  rewrite E2 in Hn2, Hl2. cbn [fst snd] in Hn2, Hl2. cbn [g_nodes g_links]. split.
  - rewrite <- Hn1, <- Hn2. apply Permutation_map. symmetry. apply isort_perm.
  - rewrite assign_core, map_map. rewrite <- Hl1, <- Hl2. apply Permutation_map.
    symmetry. apply isort_perm.
Qed.

Lemma node_sum_core (q : jsstr -> FlowNodeKind -> bool) ns :
  node_sum (fun n => q (fn_id n) (fn_kind n)) ns = zsum (map (fun c => if q c.1.1 c.1.2 then amount c.2 else 0) (map ncore ns)).
Proof. unfold node_sum. by rewrite map_map. Qed.

(** Entries of the node map are filed under their id. *)
Definition nodes_ok (m : list (jsstr * DashboardFlowNode)) : Prop :=
  NoDup (map fst m) /\ Forall (fun kn => kn.1 = fn_id kn.2) m.

Lemma addNode_ok m n metrics color colorKey :
  nodes_ok m -> nodes_ok (addNode m n metrics metric color colorKey).
Proof.
  intros [Hd Hk]. unfold addNode. cbv zeta. split; [by apply mset_NoDup|].
  assert (forall n', n_id n = fn_id n' -> Forall (fun kn => kn.1 = fn_id kn.2) (mset (n_id n) n' m)) as Hset.
  { intros n' Hn'. clear Hd. induction Hk as [|[k2 n2] m H2 Hm IH]; cbn [mset]; [constructor; [done|constructor]|].
    destruct (decide (n_id n = k2)); [by constructor|]. constructor; [done|apply IH]. }
  apply Hset. cbn [fn_id]. destruct (mget (n_id n) m) as [n0|] eqn:E; [|done].
  apply mget_In in E. rewrite Forall_forall in Hk. apply (Hk (n_id n, n0)). by apply list_elem_of_In.
Qed.

Lemma aggregate_nodes_ok ps colorOf : nodes_ok (aggregateNodes ps metric colorOf).
Proof.
  unfold aggregateNodes. assert (nodes_ok []) as H by (split; [apply NoDup_nil_2|constructor]).
  revert H. generalize (@nil (jsstr * DashboardFlowNode)).
  induction ps as [|p ps IH]; intros m Hm; [done|]. cbn [foldl]. apply IH.
  revert m Hm. induction (p_path p) as [|n path IHp]; intros m Hm; [done|]. cbn [foldl]. by apply IHp, addNode_ok.
Qed.

Definition starts_at (id : jsstr) (path : list FlowPathNode) : Z :=
  match path with n :: _ => if str_eqb (n_id n) id then 1 else 0 | [] => 0 end.
Definition ends_at (id : jsstr) (path : list FlowPathNode) : Z :=
  match last path with Some n => if str_eqb (n_id n) id then 1 else 0 | None => 0 end.

Definition into (id s t : jsstr) : bool := str_eqb t id.
Definition out_of (id s t : jsstr) : bool := str_eqb s id.

Lemma occ_in id path : occ id path = edge_count (into id) path + starts_at id path.
Proof.
  unfold occ, node_count, edge_count. induction path as [|a [|b path] IH]; [done|cbn; lia|].
  cbn [path_edges map fst snd starts_at] in *. rewrite !zsum_cons in *. unfold into in *. lia.
Qed.

Lemma occ_out id path : occ id path = edge_count (out_of id) path + ends_at id path.
Proof.
  unfold occ, node_count, edge_count, ends_at. induction path as [|a [|b path] IH]; [done|cbn; lia|].
  cbn [path_edges map fst snd] in *. rewrite !zsum_cons in *. unfold out_of in *.
  change (last (a :: b :: path)) with (last (b :: path)). lia.
Qed.

Lemma weighted_add w1 w2 w ps :
  (forall path, w path = w1 path + w2 path) ->
  weighted metric w ps = weighted metric w1 ps + weighted metric w2 ps.
Proof.
  intros Hw. unfold weighted. induction ps as [|p ps IH]; [done|]. cbn [map]. rewrite !zsum_cons, IH, Hw. lia.
Qed.

Hypothesis counted : countable metric rows.

(** Hiding drops rows, aggregating keeps them all. *)
Lemma prepared_ok : paths_ok metric stages prepared.
Proof.
  destruct counted as [Hw Ht]. split; [apply stages_NoDup|apply prepared_wf|..]; subst prepared; unfold preparePaths; cbv zeta;
    set (top := buildTopNodeSets _ _ _ _ _ _); clearbody top; clear counted g.
  - clear Ht. induction Hw as [|row rs Hr Hw IH]; [constructor|]. cbn [omap list_omap].
    destruct (applyTopNodeLimit _ _ _ _); cbn [fmap option_fmap option_map]; [constructor; [exact Hr|exact IH]|exact IH].
  - eapply Z.le_lt_trans; [|exact Ht]. clear Ht. induction Hw as [|row rs Hr Hw IH]; [done|]. cbn [omap list_omap map].
    destruct (applyTopNodeLimit _ _ _ _); cbn [fmap option_fmap option_map map]; rewrite !zsum_cons.
    + unfold path_value at 1. cbn [p_metrics]. unfold row_value at 1. lia.
    + destruct (whole_bounds _ Hr) as [? _]. lia.
Qed.

(** The sums over the nodes and the links of the graph, over the prepared paths. *)
Lemma graph_node_sum q :
  Forall (fun n => whole (fn_value n)) (g_nodes g)
  /\ node_sum (fun n => q (fn_id n) (fn_kind n)) (g_nodes g) = weighted metric (node_count q) prepared.
Proof.
  destruct graph_cores as (colorOf & Hn & _). destruct (aggregate_node_sum metric colorOf stages prepared q prepared_ok) as [H1 H2].
  split.
  - apply Forall_forall. intros n Hin%list_elem_of_In. apply (in_map ncore), (Permutation_in _ Hn) in Hin.
    rewrite map_map in Hin. apply in_map_iff in Hin as (kn & He & Hin). injection He as _ _ <-.
    rewrite Forall_forall in H1. by apply H1, list_elem_of_In.
  - by rewrite node_sum_core, (zsum_perm _ _ (Permutation_map _ Hn)), <- node_sum_core.
Qed.

Lemma graph_link_sum P : forallb path_no_nul prepared = true ->
  Forall (fun l => whole (fl_value l)) (g_links g)
  /\ link_sum P (g_links g) = weighted metric (edge_count P) prepared.
Proof.
  intros Hp. destruct graph_cores as (colorOf & _ & Hl).
  destruct (aggregate_link_sum metric colorOf stages prepared P prepared_ok Hp) as [H1 H2]. split.
  - apply Forall_forall. intros l Hin%list_elem_of_In. apply (in_map core), (Permutation_in _ Hl) in Hin.
    rewrite map_map in Hin. apply in_map_iff in Hin as (kl & He & Hin). injection He as _ _ <-.
    rewrite Forall_forall in H1. by apply H1, list_elem_of_In.
  - by rewrite link_sum_core, (zsum_perm _ _ (Permutation_map _ Hl)), <- link_sum_core.
Qed.
End GraphFacts.

(** The value of a node of the graph. *)
Definition node_total (id : jsstr) : list DashboardFlowNode -> Z := node_sum (fun n => str_eqb (fn_id n) id).

(** C7: the graph is a flow: whatever the stages, the limit and the overflow
    mode, the value of every node is what enters it over links plus what the
    paths that start there carry, and what leaves it over links plus what the
    paths that end there carry.  It holds for counters that are whole numbers
    adding up to less than 2^53, for which every value of the graph is a whole
    number too, although the code adds doubles; and for names without the NUL
    character, which separates the ends of a link in its key. *)
Theorem flow_graph_balanced lc scheme rows metric role palette visible ctx o id :
  let prepared := preparePaths lc rows metric (resolveVisibleStages role visible) ctx o in
  let g := buildFlowGraph lc scheme rows metric role palette visible ctx o in
  countable metric rows -> forallb path_no_nul prepared = true ->
  Forall (fun n => whole (fn_value n)) (g_nodes g) /\ Forall (fun l => whole (fl_value l)) (g_links g)
  /\ node_total id (g_nodes g) = link_sum (into id) (g_links g) + weighted metric (starts_at id) prepared
  /\ node_total id (g_nodes g) = link_sum (out_of id) (g_links g) + weighted metric (ends_at id) prepared.
Proof.
  intros prepared g Hc Hn.
  destruct (graph_node_sum lc scheme rows metric role palette visible ctx o Hc (fun i _ => str_eqb i id)) as [Hw H].
  pose proof (graph_link_sum lc scheme rows metric role palette visible ctx o Hc) as Hl.
  destruct (Hl (into id) Hn) as [Hwl Hi]. destruct (Hl (out_of id) Hn) as [_ Ho].
  split; [exact Hw|]. split; [exact Hwl|]. unfold g, node_total. rewrite H, Hi, Ho.
  split; apply weighted_add; [apply occ_in|apply occ_out].
Qed.

(** A concrete order of strings, colour scheme and rows, for the examples. *)
Fixpoint unit_compare (a b : jsstr) : Z :=
  match a, b with
  | [], [] => 0
  | [], _ => -1
  | _, [] => 1
  | x :: a, y :: b => if (x <? y)%N then -1 else if (y <? x)%N then 1 else unit_compare a b
  end.
Definition one_colour : list (option nat * list jsstr) := [(None, [js "#1664FF"])].
Definition sample_row (u : Z) (m : jsstr) (q : Z) : FlowQuotaDataItem :=
  mkRow (Some (num_of_Z u)) None None (Some (js "vip")) None None (Some (num_of_Z 3)) None (Some m)
    (Some (num_of_Z 5)) (Some (num_of_Z 1)) (Some (num_of_Z q)).
Definition sample_rows := [sample_row 1 (js "gpt-4o") 10; sample_row 2 (js "gpt-4o") 7; sample_row 1 (js "o3") 4].
Definition top_one (mask : bool) := mkGraphOptions (Some (num_of_Z 1)) Aggregate None None None mask.
Definition sample_graph (mask : bool) :=
  buildFlowGraph unit_compare one_colour sample_rows MQuota RAdmin [] None None (top_one mask).

Lemma sample_countable : countable MQuota sample_rows.
Proof.
  split; [|reflexivity]. apply List.Forall_cons; [exists 10; split; [lia|reflexivity]|].
  apply List.Forall_cons; [exists 7; split; [lia|reflexivity]|].
  apply List.Forall_cons; [exists 4; split; [lia|reflexivity]|constructor].
Qed.

Lemma flow_graph_balanced_witness :
  let g := sample_graph false in
  node_total (js "group:vip") (g_nodes g) = 21
  /\ link_sum (into (js "group:vip")) (g_links g) = 21.
Proof.
  intros g.
  pose proof (flow_graph_balanced unit_compare one_colour sample_rows MQuota RAdmin [] None None (top_one false)
    (js "group:vip")) as H.
  cbv zeta in H. specialize (H sample_countable ltac:(vm_compute; reflexivity)). destruct H as (_ & _ & H & _).
  split; [vm_compute; reflexivity|]. symmetry. etransitivity; [|etransitivity; [exact H|]];
    vm_compute; reflexivity.
Defined.
