(* ===== verification/FlowLimits.v ===== *)
(** * The dashboard's flow graph: limits, masking and highlighting

    What the limit on the nodes of a stage keeps, that every stage carries the
    whole total when small nodes are aggregated, that masking hides every
    sensitive name, and which parts of the graph are highlighted. *)

From S2P Require Import Prelude JsStr JsNum JsInt JsArray Flow FlowSums FlowProps.
From Stdlib Require Import Sorting.Permutation.

Local Open Scope Z_scope.

(** ** The total of a stage *)

Definition kind_total (k : FlowNodeKind) : list DashboardFlowNode -> Z :=
  node_sum (fun n => bool_decide (fn_kind n = k)).

Definition kind_count (k : FlowNodeKind) : list FlowPathNode -> Z := node_count (fun _ kind => bool_decide (kind = k)).

Lemma kind_count_stages stages path k :
  path_wf stages path -> NoDup stages -> kind_count k path = if decide (In k stages) then 1 else 0.
Proof.
  intros [<- _]. unfold kind_count, node_count. induction path as [|n path IH]; [done|]. cbn [map]. rewrite zsum_cons.
  intros [Hn Hd]%NoDup_cons. rewrite IH by done. rewrite list_elem_of_In in Hn.
  destruct (decide (n_kind n = k)) as [<-|Hne]; [rewrite bool_decide_true by done|rewrite bool_decide_false by done].
  - rewrite (decide_False (P := In (n_kind n) (map n_kind path))) by done. by rewrite decide_True by (by left).
  - destruct (decide (In k (map n_kind path))).
    + by rewrite decide_True by (by right).
    + by rewrite decide_False by (by intros [?|?]).
Qed.

(** The counter the summary shows for a metric. *)
Definition summary_value (rows : list FlowQuotaDataItem) (metric : FlowMetric) : num :=
  let s := buildSummary rows in metricValue (mkMetrics (s_quota s) (s_tokens s) (s_requests s)) metric.

Definition add_row (s : FlowSummary) (row : FlowQuotaDataItem) : FlowSummary :=
  let m := rowMetrics row in
  mkSummary (nadd (s_quota s) (m_quota m)) (nadd (s_tokens s) (m_tokens m)) (nadd (s_requests s) (m_requests m)).

Lemma summary_fold rows metric s :
  metricValue (let s := foldl add_row s rows in mkMetrics (s_quota s) (s_tokens s) (s_requests s)) metric
  = foldl nadd (metricValue (mkMetrics (s_quota s) (s_tokens s) (s_requests s)) metric) (map (row_value metric) rows).
Proof. revert s. induction rows as [|row rows IH]; intros s; [done|]. cbn [foldl map]. rewrite IH. by destruct metric. Qed.

Lemma sum_whole x l : whole x -> Forall whole l -> amount x + zsum (map amount l) < 2 ^ 53 ->
  whole (foldl nadd x l) /\ amount (foldl nadd x l) = amount x + zsum (map amount l).
Proof.
  intros Hx Hl. revert x Hx. induction Hl as [|y l Hy Hl IH]; intros x Hx Hb; [split; [done|cbn; lia]|].
  cbn [foldl map] in *. rewrite zsum_cons in *.
  assert (0 <= zsum (map amount l)) as H0
    by (apply zsum_nonneg; intros z Hz%list_elem_of_In; rewrite Forall_forall in Hl; by apply whole_bounds, Hl).
  destruct (whole_add x y Hx Hy) as [Hw Ha]; [lia|]. destruct (IH (nadd x y) Hw) as [H1 H2]; [lia|].
  split; [done|lia].
Qed.

Lemma summary_total rows metric : countable metric rows ->
  whole (summary_value rows metric)
  /\ amount (summary_value rows metric) = zsum (map (fun row => amount (row_value metric row)) rows).
Proof.
  intros [Hw Ht]. assert (summary_value rows metric = foldl nadd zero (map (row_value metric) rows)) as ->.
  { etransitivity; [apply (summary_fold rows metric (mkSummary zero zero zero))|]. by destruct metric. }
  rewrite <- (map_map (row_value metric) amount) in *.
  apply (sum_whole zero); [apply whole_zero|by apply Forall_map|exact Ht].
Qed.

(** C8: when small nodes are aggregated, no usage is lost at any stage: in
    every visible stage the values of the nodes, the node for the others
    included, add up to the total of the summary.  It holds for counters that
    are whole numbers adding up to less than 2^53. *)
Theorem every_stage_carries_the_total lc scheme rows metric role palette visible ctx o k :
  countable metric rows -> overflowMode o = Aggregate ->
  In k (resolveVisibleStages role visible) ->
  let g := buildFlowGraph lc scheme rows metric role palette visible ctx o in
  Forall (fun n => whole (fn_value n)) (g_nodes g) /\ whole (summary_value rows metric)
  /\ kind_total k (g_nodes g) = amount (summary_value rows metric).
Proof.
  intros Hc Ho Hk g. destruct (summary_total rows metric Hc) as [Hs ->].
  destruct (graph_node_sum lc scheme rows metric role palette visible ctx o Hc (fun _ kind => bool_decide (kind = k))) as [Hw H].
  split; [exact Hw|]. split; [exact Hs|]. unfold g, kind_total. rewrite H. fold (kind_count k).
  pose proof (prepared_wf lc rows metric role visible ctx o) as Hwf.
  pose proof (aggregate_keeps_rows lc rows metric role visible ctx o Ho) as Hr.
  replace (map (fun row => amount (row_value metric row)) rows)
    with (map (fun m => amount (metricValue m metric)) (map rowMetrics rows)) by (by rewrite map_map).
  rewrite <- Hr, map_map. unfold weighted. f_equal. apply map_ext_in. intros p Hp.
  rewrite Forall_forall in Hwf. apply list_elem_of_In in Hp.
  rewrite (kind_count_stages _ _ k (Hwf p Hp)) by apply stages_NoDup.
  rewrite decide_True by done. unfold path_value. lia.
Qed.

Lemma every_stage_carries_the_total_witness :
  kind_total KUser (g_nodes (sample_graph false)) = 21 /\ kind_total KModel (g_nodes (sample_graph false)) = 21.
Proof.
  unfold sample_graph. split.
  - destruct (every_stage_carries_the_total unit_compare one_colour sample_rows MQuota RAdmin [] None None (top_one false) KUser)
      as (_ & _ & H); [exact sample_countable|reflexivity|left; reflexivity|]. rewrite H. vm_compute. reflexivity.
  - destruct (every_stage_carries_the_total unit_compare one_colour sample_rows MQuota RAdmin [] None None (top_one false) KModel)
      as (_ & _ & H); [exact sample_countable|reflexivity|right; right; left; reflexivity|]. rewrite H. vm_compute. reflexivity.
Defined.

(** ** The limit on the nodes of a stage *)

Lemma mset_is_Some {V} (k k' : FlowNodeKind) (v : V) m : is_Some (mget k m) \/ k = k' -> is_Some (mget k (mset k' v m)).
Proof.
  destruct (decide (k = k')) as [->|Hne]; [rewrite mget_mset; by eexists|]. rewrite mget_mset_ne by done. by intros [?|?].
Qed.

Lemma empty_totals_has {X} (stages : list FlowNodeKind) (m : list (FlowNodeKind * list X)) k :
  is_Some (mget k m) \/ In k stages -> is_Some (mget k (foldl (fun m stage => mset stage [] m) m stages)).
Proof.
  revert m. induction stages as [|s stages IH]; intros m; [by intros [?|[]]|]. cbn [foldl]. intros Hin. apply IH.
  destruct Hin as [Hin|[->|Hin]]; [left|left|by right]; apply mset_is_Some; [by left|by right].
Qed.

Lemma add_rank_has k totals v n : is_Some (mget k totals) -> is_Some (mget k (add_rank totals v n)).
Proof. intros Hk. unfold add_rank. destruct (mget (n_kind n) totals); [|done]. cbv zeta. apply mset_is_Some. by left. Qed.

Lemma rank_totals_has (rows : list FlowQuotaDataItem) metric stages ctx totals k :
  is_Some (mget k totals) ->
  is_Some (mget k (foldl (fun totals row =>
      foldl (fun totals n => add_rank totals (metricValue (rowMetrics row) metric) n)
        totals (flowPathForStages row stages ctx)) totals rows)).
Proof.
  revert totals. induction rows as [|row rows IH]; intros totals Hk; [done|]. cbn [foldl]. apply IH.
  generalize (flowPathForStages row stages ctx) as path. intros path. revert totals Hk.
  induction path as [|n path IHp]; intros totals Hk; [done|]. cbn [foldl]. by apply IHp, add_rank_has.
Qed.

Lemma mget_map_values {V W} (k : FlowNodeKind) (f : V -> W) m :
  mget k (map (fun kv => (kv.1, f kv.2)) m) = f <$> mget k m.
Proof. induction m as [|[k' v] m IH]; [done|]. cbn [map mget fst snd]. by destruct (decide (k = k')). Qed.

Lemma uniq_length (l : list jsstr) : (length (uniq l) <= length l)%nat.
Proof. apply NoDup_incl_length; [apply NoDup_ListNoDup, uniq_NoDup|]. intros x. by rewrite uniq_In. Qed.

Lemma top_set_size lc rows metric stages limit ctx k :
  In k stages ->
  exists t ids, buildTopNodeSets lc rows metric stages (Some limit) ctx = Some t
    /\ mget k t = Some ids /\ (length ids <= Z.to_nat limit)%nat.
Proof.
  intros Hk. unfold buildTopNodeSets. cbv zeta.
  edestruct (rank_totals_has rows metric stages ctx) as [st Hst]; [apply empty_totals_has; right; exact Hk|].
  do 2 eexists. split; [reflexivity|]. split.
  - rewrite (mget_map_values k (fun st => uniq (map (fun r => n_id (rank_node r))
      (take (Z.to_nat limit) (sort_cmp (rank_cmp lc) (map snd st)))))).
    rewrite Hst. reflexivity.
  - cbv beta. etransitivity; [apply uniq_length|]. rewrite length_map, length_take. lia.
Qed.

(** ** Where the nodes and links of the graph come from *)

Lemma foldl_inv {A C} (P : C -> Prop) (f : C -> A -> C) l m :
  P m -> (forall m x, In x l -> P m -> P (f m x)) -> P (foldl f m l).
Proof.
  revert m. induction l as [|x l IH]; intros m Hm Hf; [done|]. cbn [foldl]. apply IH; [by apply Hf; [left|]|].
  intros m' y Hy. apply Hf. by right.
Qed.

Lemma mset_Forall {V} (P : jsstr * V -> Prop) (k : jsstr) v m : P (k, v) -> Forall P m -> Forall P (mset k v m).
Proof.
  intros Hv Hm. induction Hm as [|[k2 v2] m H2 Hm IH]; cbn [mset]; [by repeat constructor|].
  destruct (decide (k = k2)) as [->|]; by constructor.
Qed.

Definition path_node (ps : list PreparedFlowPath) (id : jsstr) (k : FlowNodeKind) : Prop :=
  exists p n, In p ps /\ In n (p_path p) /\ n_id n = id /\ n_kind n = k.
Definition path_link (ps : list PreparedFlowPath) (s t : jsstr) : Prop :=
  exists p e, In p ps /\ In e (path_edges (p_path p)) /\ n_id e.1 = s /\ n_id e.2 = t.

Lemma aggregate_nodes_from ps metric colorOf :
  Forall (fun kn => kn.1 = fn_id kn.2 /\ path_node ps (fn_id kn.2) (fn_kind kn.2)) (aggregateNodes ps metric colorOf).
Proof.
  unfold aggregateNodes. rewrite (foldl_flat (fun m p n => addNode m n (p_metrics p) metric (colorOf p).1 (colorOf p).2)).
  apply foldl_inv; [constructor|]. intros m [p n] [Hp Hn]%in_flat_pairs Hm. cbn [fst snd]. unfold addNode. cbv zeta.
  apply mset_Forall; [|done]. cbn [fst snd fn_id fn_kind].
  destruct (mget (n_id n) m) as [e|] eqn:E; cbn [default from_option id fn_id fn_kind]; [|split; [done|by exists p, n]].
  apply mget_In in E. rewrite Forall_forall in Hm. apply (Hm (n_id n, e)). by apply list_elem_of_In.
Qed.

Lemma aggregate_links_from ps metric colorOf :
  Forall (fun kl => path_link ps (fl_source kl.2) (fl_target kl.2)) (aggregateLinks ps metric colorOf).
Proof.
  unfold aggregateLinks.
  rewrite (foldl_flat (fun m p e => addLink m e.1 e.2 (p_metrics p) metric (colorOf p).1 (colorOf p).2)
    (fun p => path_edges (p_path p))).
  apply foldl_inv; [constructor|]. intros m [p e] [Hp He]%in_flat_pairs Hm. cbn [fst snd]. unfold addLink. cbv zeta.
  apply mset_Forall; [|done]. cbn [fst snd fl_source fl_target].
  destruct (mget (pathLinkKey e.1 e.2) m) as [l|] eqn:E; cbn [default from_option id fl_source fl_target];
    [|by exists p, e].
  apply mget_In in E. rewrite Forall_forall in Hm. apply (Hm (pathLinkKey e.1 e.2, l)). by apply list_elem_of_In.
Qed.

(** Every node of a prepared path has its entry. *)
Lemma aggregate_nodes_all ps metric colorOf id k :
  path_node ps id k -> In id (map fst (aggregateNodes ps metric colorOf)).
Proof.
  intros (p & n & Hp & Hn & <- & _). unfold aggregateNodes.
  rewrite (foldl_flat (fun m p n => addNode m n (p_metrics p) metric (colorOf p).1 (colorOf p).2)).
  assert (In (p, n) (flat_map (fun p => map (pair p) (p_path p)) ps)) as Hin by (by apply in_flat_pairs).
  revert Hin. generalize (flat_map (fun p => map (pair p) (p_path p)) ps) as l. clear. intros l.
  assert (forall l m, In (n_id n) (map fst m) ->
    In (n_id n) (map fst (foldl (fun m px => addNode m px.2 (p_metrics px.1) metric (colorOf px.1).1 (colorOf px.1).2) m l))) as Hkeep.
  { intros l' m Hm. apply foldl_inv; [done|]. intros m' x _ Hm'. unfold addNode. cbv zeta. rewrite mset_keys.
    destruct (mhas _ m'); [done|]. apply in_or_app. by left. }
  generalize (@nil (jsstr * DashboardFlowNode)). induction l as [|x l IH]; intros m; [done|].
  intros [->|Hin]; [|by apply IH]. cbn [foldl fst snd]. apply Hkeep. unfold addNode. cbv zeta. rewrite mset_keys.
  unfold mhas. destruct (mget (n_id n) m) eqn:E; [|apply in_or_app; right; by left].
  apply mget_In in E. apply in_map_iff. by exists (n_id n, d).
Qed.

(** The ids of a stage that are not the node for the others. *)
Definition own_node (k : FlowNodeKind) (n : DashboardFlowNode) : bool :=
  bool_decide (fn_kind n = k) && negb (str_eqb (fn_id n) (OTHER_FLOW_NODE_IDS k)).

Lemma limited_path_top path t mode labeler path' n :
  applyTopNodeLimit path (Some t) mode labeler = Some path' -> In n path' ->
  isTopFlowNode n (Some t) = true \/ n_id n = OTHER_FLOW_NODE_IDS (n_kind n).
Proof.
  unfold applyTopNodeLimit. destruct (forallb _ path) eqn:E.
  - intros [= <-] Hn. left. rewrite forallb_forall in E. by apply E.
  - destruct mode; [|done]. intros [= <-] Hn. apply in_map_iff in Hn as (m & <- & Hm).
    destruct (isTopFlowNode m (Some t)) eqn:Em; [by left|by right].
Qed.

Lemma prepared_from lc rows metric stages ctx o p :
  In p (preparePaths lc rows metric stages ctx o) ->
  exists row, In row rows
    /\ applyTopNodeLimit (flowPathForStages row stages ctx)
         (buildTopNodeSets lc rows metric stages (normalizeTopNodeLimit (topNodeLimit o)) ctx)
         (overflowMode o) (otherNodeLabel o) = Some (p_path p)
    /\ p_metrics p = rowMetrics row.
Proof.
  unfold preparePaths. cbv zeta. intros Hp. apply list_elem_of_In, list_elem_of_omap in Hp as (row & Hr & Hp).
  exists row. split; [by apply list_elem_of_In|]. destruct (applyTopNodeLimit _ _ _ _); [|done].
  injection Hp as <-. done.
Qed.

Lemma own_nodes_core k ns :
  length (List.filter (own_node k) ns)
  = length (List.filter (fun c => bool_decide (c.1.2 = k) && negb (str_eqb c.1.1 (OTHER_FLOW_NODE_IDS k))) (map ncore ns)).
Proof.
  induction ns as [|n ns IH]; [done|]. cbn [List.filter map ncore fst snd]. fold (own_node k n).
  destruct (own_node k n); [cbn [length]; by rewrite IH|done].
Qed.

Lemma filter_perm_length {A} (f : A -> bool) a b :
  Permutation a b -> length (List.filter f a) = length (List.filter f b).
Proof.
  induction 1 as [|x a b _ IH|x y a|a b c _ IH1 _ IH2]; [done| | |congruence]; cbn [List.filter];
    repeat match goal with |- context [f ?z] => destruct (f z) end; cbn [length]; congruence.
Qed.

Lemma map_filter_snd {K V} (f : V -> bool) (m : list (K * V)) :
  List.filter f (map snd m) = map snd (List.filter (fun kv => f kv.2) m).
Proof. induction m as [|[k v] m IH]; [done|]. cbn [map snd List.filter]. destruct (f v); cbn [map snd]; by rewrite IH. Qed.

Lemma filter_fst_NoDup {K V} (f : K * V -> bool) (m : list (K * V)) :
  NoDup (map fst m) -> NoDup (map fst (List.filter f m)).
Proof.
  induction m as [|kv m IH]; [done|]. cbn [map]. intros [Hn Hd]%NoDup_cons. cbn [List.filter].
  destruct (f kv); [|by apply IH]. cbn [map]. apply NoDup_cons. split; [|by apply IH].
  rewrite list_elem_of_In in *. intros (x & Hx & [Hin _]%filter_In)%in_map_iff. apply Hn. rewrite <- Hx. by apply in_map.
Qed.

(** C9: with a limit of N nodes per stage, the graph shows at most N nodes of
    every visible stage besides the one for the others, in either overflow
    mode. *)
Theorem stage_size_limited lc scheme rows metric role palette visible ctx o limit k :
  normalizeTopNodeLimit (topNodeLimit o) = Some limit ->
  In k (resolveVisibleStages role visible) ->
  let g := buildFlowGraph lc scheme rows metric role palette visible ctx o in
  (length (List.filter (own_node k) (g_nodes g)) <= Z.to_nat limit)%nat.
Proof.
  intros Hl Hk g.
  destruct (graph_cores lc scheme rows metric role palette visible ctx o) as (colorOf & Hn & _).
  rewrite own_nodes_core, (filter_perm_length _ _ _ Hn), <- own_nodes_core, map_filter_snd, length_map.
  set (prepared := preparePaths _ _ _ _ _ _) in *. set (m := aggregateNodes prepared metric colorOf).
  destruct (top_set_size lc rows metric (resolveVisibleStages role visible) limit ctx k Hk) as (t & ids & Ht & Hids & Hlen).
  etransitivity; [|exact Hlen]. rewrite <- (length_map fst).
  apply NoDup_incl_length.
  - apply NoDup_ListNoDup, filter_fst_NoDup. apply (aggregate_nodes_ok metric prepared colorOf).
  - intros id ([id' n] & <- & [Hin Hown]%filter_In)%in_map_iff. cbn [fst snd] in *.
    pose proof (aggregate_nodes_from prepared metric colorOf) as Hf. rewrite Forall_forall in Hf.
    destruct (Hf (id', n)) as [Hid (p & pn & Hp & Hpn & Hpid & Hpk)]; [by apply list_elem_of_In|]. cbn [fst snd] in *.
    apply prepared_from in Hp as (row & _ & Hp & _). rewrite Hl, Ht in Hp.
    unfold own_node in Hown. apply andb_true_iff in Hown as [Hkn Ho]. apply bool_decide_eq_true in Hkn.
    destruct (limited_path_top _ _ _ _ _ _ Hp Hpn) as [Htop|Hoth].
    + unfold isTopFlowNode in Htop. cbn [mbind option_bind] in Htop. rewrite Hpk, Hkn, Hids in Htop.
      apply existsb_exists in Htop as (x & Hx & Heq%str_eqb_eq). by rewrite Hid, <- Hpid, Heq.
    + exfalso. rewrite <- Hpid, Hoth, Hpk, Hkn, str_eqb_refl in Ho. done.
Qed.

Lemma stage_size_limited_witness :
  length (List.filter (own_node KModel) (g_nodes (sample_graph false))) = 1%nat
  /\ (length (List.filter (own_node KModel) (g_nodes (sample_graph false))) <= 1)%nat.
Proof.
  split; [vm_compute; reflexivity|].
  apply (stage_size_limited unit_compare one_colour sample_rows MQuota RAdmin [] None None (top_one false) 1 KModel);
    [vm_compute; reflexivity|right; right; left; reflexivity].
Defined.

(** ** Masking and highlighting *)

(** What masking and highlighting decide of a link. *)
Definition lview (l : DashboardFlowLink) :=
  (fl_source l, fl_target l, (fl_sourceLabel l, fl_targetLabel l), (fl_highlighted l, fl_dimmed l)).

Lemma assign_view lc ls : map lview (assignLinkDisplayColors lc ls) = map lview ls.
Proof.
  unfold assignLinkDisplayColors. rewrite map_map. apply map_ext. intros l.
  by destruct (mget (linkStableKey l) _) as [[c a]|].
Qed.

Definition maybe_mask (mask : bool) nodes links :=
  if mask then maskFlowGraphLabels nodes links else (nodes, links).

Section Views.
Variables (lc : jsstr -> jsstr -> Z) (scheme : list (option nat * list jsstr)).
Variables (rows : list FlowQuotaDataItem) (metric : FlowMetric) (role : FlowRole) (palette : list jsstr)
  (visible : option (list FlowNodeKind)) (ctx : option (num -> jsstr)) (o : FlowGraphOptions).

Let stages := resolveVisibleStages role visible.
Let prepared := preparePaths lc rows metric stages ctx o.
Let g := buildFlowGraph lc scheme rows metric role palette visible ctx o.
Let sets := buildFlowHighlightSets prepared (activeNode o) (activeLink o) stages.

Lemma graph_views :
  exists colorOf,
  let nodes := aggregateNodes prepared metric colorOf in
  let links := aggregateLinks prepared metric colorOf in
  let masked := maybe_mask (maskSensitive o) nodes links in
  let shown := applyFlowHighlights masked.1 masked.2 sets in
  Permutation (g_nodes g) (map snd shown.1) /\ Permutation (map lview (g_links g)) (map lview (map snd shown.2)).
Proof.
  set (colorOf := path_color scheme (stableColorMap scheme (str_sort lc (root_ids prepared)) palette) palette).
  exists colorOf. cbv zeta. subst g. unfold buildFlowGraph. cbv zeta. fold stages. fold prepared. fold colorOf. fold sets.
  set (nodes := aggregateNodes prepared metric colorOf). set (links := aggregateLinks prepared metric colorOf).
  fold (maybe_mask (maskSensitive o) nodes links). destruct (maybe_mask (maskSensitive o) nodes links) as [n1 l1].
  cbn [fst snd]. destruct (applyFlowHighlights n1 l1 sets) as [n2 l2]. cbn [fst snd g_nodes g_links]. split.
  - symmetry. apply isort_perm.
  - rewrite assign_view, map_map. apply (Permutation_map lview). symmetry. apply isort_perm.
Qed.
End Views.

Definition hidden (label : jsstr) : Prop := label = [] \/ label = FLOW_MASK_TEXT.

Lemma mask_hidden label : hidden (maskFlowLabel label).
Proof. destruct label; [by left|by right]. Qed.

Lemma masked_map (nodes : list (jsstr * DashboardFlowNode)) n :
  In n (map snd nodes) -> masked_node n = true ->
  exists label, mget (fn_id n) (foldl (fun m kn =>
      if masked_node kn.2 then mset (fn_id kn.2) (maskFlowLabel (fn_label kn.2)) m else m) [] nodes) = Some label
    /\ hidden label.
Proof.
  intros Hin Hm.
  assert (forall m, (exists l, mget (fn_id n) m = Some l /\ hidden l) \/ In n (map snd nodes) ->
    exists label, mget (fn_id n) (foldl (fun m (kn : jsstr * DashboardFlowNode) =>
      if masked_node kn.2 then mset (fn_id kn.2) (maskFlowLabel (fn_label kn.2)) m else m) m nodes) = Some label
    /\ hidden label) as H; [|by apply H; right]. clear Hin.
  induction nodes as [|[k n'] nodes IH]; intros m Hin; [by destruct Hin as [?|[]]|].
  cbn [foldl map snd] in *. apply IH. destruct Hin as [(l & Hl & Hh)|[->|Hin]]; [left|left|by right].
  - destruct (masked_node n'); [|by exists l]. destruct (decide (fn_id n = fn_id n')) as [->|Hne].
    + rewrite mget_mset. eexists. split; [done|apply mask_hidden].
    + rewrite mget_mset_ne by done. by exists l.
  - rewrite Hm, mget_mset. eexists. split; [done|apply mask_hidden].
Qed.

Lemma masked_same n n' : fn_id n = fn_id n' -> fn_kind n = fn_kind n' -> masked_node n = masked_node n'.
Proof. unfold masked_node. by intros -> ->. Qed.

(** Highlighting keeps ids, kinds and labels. *)
Lemma highlight_in nodes links sets n :
  In n (map snd (applyFlowHighlights nodes links sets).1) ->
  exists n', In n' (map snd nodes) /\ fn_id n = fn_id n' /\ fn_kind n = fn_kind n' /\ fn_label n = fn_label n'.
Proof.
  destruct sets as [[hn hl]|]; cbn [applyFlowHighlights fst]; [|by exists n].
  rewrite map_map. intros ([k n'] & <- & Hin)%in_map_iff. exists n'. split; [|done].
  apply in_map_iff. by exists (k, n').
Qed.

Lemma highlight_link_in nodes links sets l :
  In l (map snd (applyFlowHighlights nodes links sets).2) ->
  exists l', In l' (map snd links) /\ fl_source l = fl_source l' /\ fl_target l = fl_target l'
    /\ fl_sourceLabel l = fl_sourceLabel l' /\ fl_targetLabel l = fl_targetLabel l'.
Proof.
  destruct sets as [[hn hl]|]; cbn [applyFlowHighlights snd]; [|by exists l].
  rewrite map_map. intros ([k l'] & <- & Hin)%in_map_iff. exists l'. split; [|done].
  apply in_map_iff. by exists (k, l').
Qed.

Lemma mask_nodes_hidden nodes links n :
  In n (map snd (maskFlowGraphLabels nodes links).1) -> masked_node n = true -> hidden (fn_label n).
Proof.
  unfold maskFlowGraphLabels. cbn [fst]. rewrite map_map. intros ([k n'] & <- & _)%in_map_iff. cbn [snd].
  destruct (masked_node n') eqn:E; [intros _; apply mask_hidden|congruence].
Qed.

Lemma mask_links_hidden nodes links l n :
  In l (map snd (maskFlowGraphLabels nodes links).2) -> In n (map snd nodes) -> masked_node n = true ->
  (fl_source l = fn_id n -> hidden (fl_sourceLabel l)) /\ (fl_target l = fn_id n -> hidden (fl_targetLabel l)).
Proof.
  unfold maskFlowGraphLabels. cbn [snd]. rewrite map_map. intros ([k l'] & <- & _)%in_map_iff Hn Hm. cbn [snd].
  destruct (masked_map nodes n Hn Hm) as (label & Hl & Hh).
  split; cbn [set_link_labels fl_source fl_target fl_sourceLabel fl_targetLabel]; intros ->; rewrite Hl; exact Hh.
Qed.

Lemma path_edges_in path e : In e (path_edges path) -> In e.1 path /\ In e.2 path.
Proof.
  induction path as [|a [|b path] IH]; [done|done|]. cbn [path_edges]. intros [<-|He].
  - split; [by left|right; by left].
  - apply IH in He as [??]. split; by right.
Qed.

Section Masked.
Variables (lc : jsstr -> jsstr -> Z) (scheme : list (option nat * list jsstr)).
Variables (rows : list FlowQuotaDataItem) (metric : FlowMetric) (role : FlowRole) (palette : list jsstr)
  (visible : option (list FlowNodeKind)) (ctx : option (num -> jsstr)) (o : FlowGraphOptions).
Let g := buildFlowGraph lc scheme rows metric role palette visible ctx o.
Let prepared := preparePaths lc rows metric (resolveVisibleStages role visible) ctx o.

(** A node of a prepared path is a node of the graph. *)
Lemma graph_has_node id k : path_node prepared id k -> exists n, In n (g_nodes g) /\ fn_id n = id.
Proof.
  intros Hp. destruct (graph_cores lc scheme rows metric role palette visible ctx o) as (colorOf & Hn & _).
  fold g prepared in Hn. apply (aggregate_nodes_all _ metric colorOf) in Hp.
  apply in_map_iff in Hp as ([i n] & <- & Hin).
  pose proof (aggregate_nodes_from prepared metric colorOf) as Hf. rewrite Forall_forall in Hf.
  destruct (Hf (i, n)) as [Hi _]; [by apply list_elem_of_In|]. cbn [fst snd] in Hi.
  assert (In (ncore n) (map ncore (g_nodes g))) as Hc.
  { eapply Permutation_in; [symmetry; exact Hn|]. apply in_map, in_map_iff. by exists (i, n). }
  apply in_map_iff in Hc as (n' & Hc & Hin'). exists n'. split; [done|]. unfold ncore in Hc. cbn [fst]. congruence.
Qed.

Lemma graph_link_ends l :
  In l (g_links g) ->
  exists a b, In a (g_nodes g) /\ In b (g_nodes g) /\ fn_id a = fl_source l /\ fn_id b = fl_target l.
Proof.
  intros Hl. destruct (graph_cores lc scheme rows metric role palette visible ctx o) as (colorOf & _ & Hc).
  fold g prepared in Hc.
  assert (In (core l) (map core (map snd (aggregateLinks prepared metric colorOf)))) as Hin
    by (eapply Permutation_in; [exact Hc|by apply in_map]).
  rewrite map_map in Hin. apply in_map_iff in Hin as ([k l'] & Hcl & Hin). cbn [snd] in Hcl.
  pose proof (aggregate_links_from prepared metric colorOf) as Hf. rewrite Forall_forall in Hf.
  destruct (Hf (k, l')) as (p & e & Hp & He & Hs & Ht); [by apply list_elem_of_In|]. cbn [fst snd] in Hs, Ht.
  apply path_edges_in in He as [He1 He2]. unfold core in Hcl. injection Hcl as Hcs Hct _.
  destruct (graph_has_node (n_id e.1) (n_kind e.1)) as (a & Ha & Hia); [by exists p, e.1|].
  destruct (graph_has_node (n_id e.2) (n_kind e.2)) as (b & Hb & Hib); [by exists p, e.2|].
  exists a, b. repeat split; [done|done|congruence|congruence].
Qed.

Hypothesis Hmask : maskSensitive o = true.

Lemma graph_nodes_masked n : In n (g_nodes g) -> masked_node n = true -> hidden (fn_label n).
Proof.
  destruct (graph_views lc scheme rows metric role palette visible ctx o) as (colorOf & Hn & _).
  rewrite Hmask in Hn. cbn [maybe_mask] in Hn. fold g in Hn. intros Hin Hm.
  apply (Permutation_in _ Hn), highlight_in in Hin as (n' & Hin & Hi & Hk & ->).
  eapply mask_nodes_hidden; [exact Hin|]. by rewrite <- (masked_same n n').
Qed.

Lemma graph_links_masked l n :
  In l (g_links g) -> In n (g_nodes g) -> masked_node n = true ->
  (fl_source l = fn_id n -> hidden (fl_sourceLabel l)) /\ (fl_target l = fn_id n -> hidden (fl_targetLabel l)).
Proof.
  destruct (graph_views lc scheme rows metric role palette visible ctx o) as (colorOf & Hn & Hl).
  rewrite Hmask in Hn, Hl. cbn [maybe_mask] in Hn, Hl. fold g in Hn, Hl. intros Hinl Hinn Hm.
  apply (in_map lview), (Permutation_in _ Hl) in Hinl. apply in_map_iff in Hinl as (l1 & Hv & Hinl).
  unfold lview in Hv. injection Hv as Es Et Esl Etl _ _.
  apply highlight_link_in in Hinl as (l2 & Hinl & Es2 & Et2 & Esl2 & Etl2).
  apply (Permutation_in _ Hn), highlight_in in Hinn as (n1 & Hinn & Hi & Hk & _).
  assert (exists n0, In n0 (map snd (aggregateNodes prepared metric colorOf)) /\ fn_id n1 = fn_id n0 /\ fn_kind n1 = fn_kind n0)
    as (n0 & Hin0 & Hi0 & Hk0).
  { unfold maskFlowGraphLabels in Hinn. cbn [fst] in Hinn. rewrite map_map in Hinn.
    apply in_map_iff in Hinn as ([k n0] & <- & Hin0). exists n0. cbn [snd].
    split; [apply in_map_iff; by exists (k, n0)|]. by destruct (masked_node n0). }
  destruct (mask_links_hidden _ _ l2 n0 Hinl Hin0) as [H1 H2].
  { rewrite <- (masked_same n n0); congruence. }
  split; intros E; [rewrite <- Esl, Esl2; apply H1|rewrite <- Etl, Etl2; apply H2]; congruence.
Qed.
End Masked.

(** With masking on, the graph shows no sensitive name: the label of every
    user, node, token, group and channel (other than the node for the others)
    is empty or the mask, and so are the labels the links carry for them; every
    link joins two nodes of the graph. *)
Theorem masking_hides_names lc scheme rows metric role palette visible ctx o :
  maskSensitive o = true ->
  let g := buildFlowGraph lc scheme rows metric role palette visible ctx o in
  (forall n, In n (g_nodes g) -> masked_node n = true -> hidden (fn_label n))
  /\ forall l, In l (g_links g) ->
     exists a b, In a (g_nodes g) /\ In b (g_nodes g) /\ fn_id a = fl_source l /\ fn_id b = fl_target l
       /\ (masked_node a = true -> hidden (fl_sourceLabel l)) /\ (masked_node b = true -> hidden (fl_targetLabel l)).
Proof.
  intros Hm g. split; [by apply graph_nodes_masked|]. intros l Hl.
  destruct (graph_link_ends lc scheme rows metric role palette visible ctx o l Hl) as (a & b & Ha & Hb & Es & Et).
  exists a, b. do 4 (split; [done|]). split; intros Hma.
  - by apply (graph_links_masked lc scheme rows metric role palette visible ctx o Hm l a).
  - by apply (graph_links_masked lc scheme rows metric role palette visible ctx o Hm l b).
Qed.

Lemma masking_hides_names_witness :
  exists n, In n (g_nodes (sample_graph true)) /\ fn_kind n = KGroup /\ hidden (fn_label n).
Proof.
  destruct (masking_hides_names unit_compare one_colour sample_rows MQuota RAdmin [] None None (top_one true) eq_refl) as [H _].
  exists (List.nth 0 (List.filter (own_node KGroup) (g_nodes (sample_graph true)))
    (mkFlowNode [] [] KUser zero zero zero zero [] [] None None)).
  split; [vm_compute; left; reflexivity|]. split; [vm_compute; reflexivity|].
  apply H; [vm_compute; left; reflexivity|vm_compute; reflexivity].
Defined.

(** The paths a selection highlights. *)
Definition selected_path (o : FlowGraphOptions) (p : PreparedFlowPath) : bool :=
  match activeLink o with
  | Some l => pathContainsFlowLink (p_path p) l
  | None => match activeNode o with Some f => pathContainsFlowNode (p_path p) f | None => false end
  end.

(** Something that is on the chart is selected. *)
Definition selection_active (o : FlowGraphOptions) (stages : list FlowNodeKind) : bool :=
  match activeLink o, activeNode o with
  | Some _, _ => true
  | None, Some f => bool_decide (In (f_kind f) stages)
  | None, None => false
  end.

Lemma highlight_sets o ps stages p n0 :
  selection_active o stages = true -> In p ps -> selected_path o p = true -> In n0 (p_path p) ->
  exists hn hl, buildFlowHighlightSets ps (activeNode o) (activeLink o) stages = Some (hn, hl)
    /\ forall id, In id hn <-> exists p, In p ps /\ selected_path o p = true /\ In id (map n_id (p_path p)).
Proof.
  intros Ha Hp Hs Hn0. unfold buildFlowHighlightSets. cbv zeta.
  set (sel := fun path => match activeLink o with Some l => pathContainsFlowLink path l
    | None => match activeNode o with Some f => pathContainsFlowNode path f | None => false end end).
  set (paths := List.filter sel (map p_path ps)). set (hn := uniq (flat_map (map n_id) paths)).
  assert (forall id, In id hn <-> exists p, In p ps /\ selected_path o p = true /\ In id (map n_id (p_path p))) as Hhn.
  { intros id. unfold hn. rewrite uniq_In, in_flat_map. unfold paths. split.
    - intros (path & [(q & <- & Hq)%in_map_iff Hsel]%filter_In & Hid). by exists q.
    - intros (q & Hq & Hsel & Hid). exists (p_path q). split; [|done]. apply filter_In. split; [by apply in_map|done]. }
  assert (In (n_id n0) hn) as Hne by (apply Hhn; exists p; split; [done|split; [done|by apply in_map]]).
  clearbody hn. destruct hn as [|h hn]; [done|].
  exists (h :: hn). eexists. split; [|exact Hhn]. unfold selection_active in Ha.
  destruct (activeLink o); [by destruct (match activeNode o with Some _ => _ | None => _ end)|].
  destruct (activeNode o) as [f|]; [|done]. by rewrite Ha.
Qed.

(** When a node or a link that is on the chart is selected, every node of
    the graph is either highlighted or dimmed, and exactly the nodes of the
    paths through the selection are highlighted. *)
Theorem highlight_exact lc scheme rows metric role palette visible ctx o p n :
  let stages := resolveVisibleStages role visible in
  let prepared := preparePaths lc rows metric stages ctx o in
  let g := buildFlowGraph lc scheme rows metric role palette visible ctx o in
  selection_active o stages = true -> In p prepared -> selected_path o p = true -> In n (g_nodes g) ->
  exists h, fn_highlighted n = Some h /\ fn_dimmed n = Some (negb h)
    /\ (h = true <-> exists q, In q prepared /\ selected_path o q = true /\ In (fn_id n) (map n_id (p_path q))).
Proof.
  intros stages prepared g Ha Hp Hs Hn.
  assert (exists n0, In n0 (p_path p)) as [n0 Hn0].
  { pose proof (prepared_wf lc rows metric role visible ctx o) as Hwf. rewrite Forall_forall in Hwf.
    destruct (Hwf p) as [Hk _]; [by apply list_elem_of_In|].
    destruct (p_path p) as [|n0 path] eqn:E; [|exists n0; by left]. exfalso.
    unfold selected_path in Hs. rewrite E in Hs. destruct (activeLink o); [done|]. by destruct (activeNode o). }
  destruct (highlight_sets o prepared stages p n0 Ha Hp Hs Hn0) as (hn & hl & Hsets & Hhn).
  destruct (graph_views lc scheme rows metric role palette visible ctx o) as (colorOf & Hperm & _).
  cbv zeta in Hperm. fold stages prepared g in Hperm. rewrite Hsets in Hperm.
  apply (Permutation_in _ Hperm) in Hn. cbn [applyFlowHighlights fst] in Hn. rewrite map_map in Hn.
  apply in_map_iff in Hn as ([k n1] & <- & _). cbn [snd]. unfold highlight_node. cbv zeta.
  cbn [fn_highlighted fn_dimmed fn_id]. eexists. split; [reflexivity|]. split; [reflexivity|].
  rewrite <- Hhn, existsb_exists. split.
  - intros (x & Hx & ->%str_eqb_eq). done.
  - intros Hin. exists (fn_id n1). split; [done|apply str_eqb_refl].
Qed.

Definition selected_graph_options : FlowGraphOptions :=
  mkGraphOptions None Aggregate None (Some (mkFilter KModel (js "model:o3"))) None false.

Lemma highlight_exact_witness :
  exists n h, In n (g_nodes (buildFlowGraph unit_compare one_colour sample_rows MQuota RAdmin [] None None
      selected_graph_options)) /\ fn_id n = js "user:2" /\ fn_highlighted n = Some h /\ h = false.
Proof.
  pose (prepared := preparePaths unit_compare sample_rows MQuota (getFlowStages RAdmin) None selected_graph_options).
  pose (none := mkFlowNode [] [] KUser zero zero zero zero [] [] None None).
  pose (n := List.nth 0 (List.filter (fun n => str_eqb (fn_id n) (js "user:2"))
    (g_nodes (buildFlowGraph unit_compare one_colour sample_rows MQuota RAdmin [] None None selected_graph_options))) none).
  destruct (highlight_exact unit_compare one_colour sample_rows MQuota RAdmin [] None None selected_graph_options
    (List.nth 2 prepared (mkPrepared [] (mkMetrics zero zero zero))) n) as (h & Hh & _ & _);
    [vm_compute; reflexivity|vm_compute; right; right; left; reflexivity|vm_compute; reflexivity
    |vm_compute; repeat (first [left; reflexivity|right])|].
  exists n, h. split; [vm_compute; repeat (first [left; reflexivity|right])|]. split; [vm_compute; reflexivity|].
  split; [exact Hh|]. vm_compute in Hh. congruence.
Defined.
