(* ===== verification/ModelMapping.v ===== *)
(** * Model lists and model mappings of a channel

    Model of src/web/default/src/features/channels/lib/model-mapping-validation.ts:
    the comma separated list of a channel's models, the JSON object that maps
    model names to the names sent upstream, and the checks the channel form
    makes before it saves. *)

From S2P Require Import Prelude JsStr JsNum JsArray JsJson.

(** ** Property order of a parsed object *)

(** An array index: these properties come first, in ascending order. *)
Definition is_index (k : jsstr) : bool :=
  truthy k && forallb is_digit k && str_eqb (digits_of (digits_val k)) k && (digits_val k <? 4294967295)%Z.

Definition object_order (l : list (jsstr * json)) : list (jsstr * json) :=
  isort (fun a b => (digits_val a.1 <=? digits_val b.1)%Z) (List.filter (fun p => is_index p.1) l)
  ++ List.filter (fun p => negb (is_index p.1)) l.

(** [Object.keys(v)] and [Object.values(v)] on an object of [JSON.parse]. *)
Definition object_keys (l : list (jsstr * json)) : list jsstr := map fst (object_order l).
Definition object_values (l : list (jsstr * json)) : list json := map snd (object_order l).

(** The properties of a text that is a JSON object: [None] when it does not
    parse, or when it is null, an array or not an object. *)
Definition parse_object (s : jsstr) : option (list (jsstr * json)) :=
  match parse s with Some (JObj l) => Some l | _ => None end.

(** ** The operations *)

Definition parseModelsString (modelsStr : jsstr) : list jsstr :=
  if truthy modelsStr then List.filter truthy (map trim (split_char 44%N modelsStr)) else [].

Definition formatModelsArray (models : list jsstr) : jsstr := join (js ",") (uniq models).

Definition normalizeModelName (model : jsstr) : jsstr := trim model.

Definition extractMappingSourceModels (modelMapping : jsstr) : list jsstr :=
  let trimmed := trim modelMapping in
  if negb (truthy trimmed) then []
  else match parse_object trimmed with
       | Some l => uniq (List.filter truthy (map trim (object_keys l)))
       | None => []
       end.

Definition string_value (v : json) : option jsstr :=
  match v with JStr s => if truthy (trim s) then Some (trim s) else None | _ => None end.

Definition extractRedirectModels (modelMapping : jsstr) : list jsstr :=
  let trimmed := trim modelMapping in
  if negb (truthy trimmed) then []
  else match parse_object trimmed with
       | Some l => uniq (omap string_value (object_values l))
       | None => []
       end.

Fixpoint models_differ (current initial : list jsstr) : bool :=
  match current, initial with
  | a :: current, b :: initial => negb (str_eqb a b) || models_differ current initial
  | _, _ => false
  end.

Definition hasModelConfigChanged (currentModels : list jsstr) (currentModelMapping : jsstr)
    (initialModels : list jsstr) (initialModelMapping : jsstr) : bool :=
  if Nat.eqb (length initialModels) 0 && negb (truthy initialModelMapping) then true
  else if negb (Nat.eqb (length currentModels) (length initialModels)) then true
  else if models_differ currentModels initialModels then true
  else negb (str_eqb (trim currentModelMapping) (trim initialModelMapping)).

Definition findMissingModelsInMapping (modelMapping : jsstr) (currentModels : list jsstr) : list jsstr :=
  if negb (truthy modelMapping) || negb (truthy (trim modelMapping)) then []
  else match parse_object modelMapping with
       | None => []
       | Some l =>
           let modelSet := uniq (map normalizeModelName currentModels) in
           uniq (List.filter (fun k => truthy k && negb (existsb (str_eqb k) modelSet))
                   (map normalizeModelName (object_keys l)))
       end.

(** The error, if the mapping is not valid. *)
Definition validateModelMappingJson (modelMapping : jsstr) : option jsstr :=
  if negb (truthy modelMapping) || negb (truthy (trim modelMapping)) then None
  else match parse modelMapping with
       | None => Some (js "Model mapping must be valid JSON format")
       | Some (JObj l) =>
           if existsb (fun v => match v with JStr _ => false | _ => true end) (object_values l)
           then Some (js "Model mapping values must be strings") else None
       | Some _ => Some (js "Model mapping must be a valid JSON object")
       end.

Definition findExposedTargetModels (modelMapping : jsstr) (currentModels : list jsstr) : list jsstr :=
  match extractRedirectModels modelMapping with
  | [] => []
  | redirectModels =>
      let modelSet := uniq (map normalizeModelName currentModels) in
      List.filter (fun m => existsb (str_eqb (normalizeModelName m)) modelSet) redirectModels
  end.

Record ModelCategories := mkCategories {
  normalizedCurrentModels : list jsstr;
  normalizedRedirectModels : list jsstr;
  classificationSet : list jsstr;
  redirectOnlySet : list jsstr
}.

Definition categorizeModelsWithRedirect (currentModels redirectModels : list jsstr) : ModelCategories :=
  let cur := uniq (List.filter truthy (map normalizeModelName currentModels)) in
  let red := uniq (List.filter truthy (map normalizeModelName redirectModels)) in
  mkCategories cur red (uniq (cur ++ red)) (uniq (List.filter (fun m => negb (existsb (str_eqb m) cur)) red)).

(** ** Properties *)

(** A name that survives the list: not blank, not padded, without a comma. *)
Definition listable (m : jsstr) : bool :=
  truthy m && trimmed m && forallb (fun c => negb (c =? 44)%N) m.

Lemma split_models ms :
  forallb listable ms = true -> ms <> [] -> split_char 44%N (join (js ",") ms) = ms.
Proof.
  induction ms as [|m ms IH]; [done|]. cbn [forallb]. intros [Hm Hms]%andb_true_iff _.
  unfold listable in Hm. rewrite !andb_true_iff in Hm. destruct Hm as [_ Hc].
  destruct ms as [|m2 ms]; [by apply split_char_none|]. rewrite join_cons by done.
  change (js "," ++ ?z) with (44%N :: z). rewrite split_char_app by done. by rewrite IH.
Qed.

Lemma listable_kept ms : forallb listable ms = true -> List.filter truthy (map trim ms) = ms.
Proof.
  induction ms as [|m ms IH]; [done|]. cbn [forallb]. intros [Hm Hms]%andb_true_iff.
  unfold listable in Hm. rewrite !andb_true_iff in Hm. destruct Hm as [[Ht Htr] _].
  cbn [map List.filter]. rewrite trim_id by done. by rewrite Ht, IH.
Qed.

Lemma parse_format_models ms :
  forallb listable ms = true -> parseModelsString (formatModelsArray ms) = uniq ms.
Proof.
  intros Hms. unfold parseModelsString, formatModelsArray.
  assert (forallb listable (uniq ms) = true) as Hu.
  { rewrite forallb_forall in *. intros m Hm. apply Hms. by apply uniq_In. }
  destruct (uniq ms) as [|m us]; [done|]. rewrite split_models, listable_kept by done.
  assert (truthy (join (js ",") (m :: us)) = true) as ->; [|done].
  cbn [forallb] in Hu. apply andb_true_iff in Hu as [Hm _]. destruct m; [done|]. by destruct us.
Qed.

(** The names a mapping takes from, as the form compares them. *)
Definition mapping_names (modelMapping : jsstr) : list jsstr :=
  List.filter truthy (map trim (object_keys (default [] (parse_object modelMapping)))).

Lemma missing_spec mapping ms m :
  In m (findMissingModelsInMapping mapping ms)
  <-> truthy (trim mapping) = true /\ In m (mapping_names mapping) /\ ~ In m (map trim ms).
Proof.
  unfold findMissingModelsInMapping, mapping_names.
  destruct (truthy mapping && truthy (trim mapping)) eqn:Et.
  - apply andb_true_iff in Et as [-> ->]. cbn [negb orb].
    destruct (parse_object mapping) as [l|]; cbn [default from_option id]; [|cbn; tauto].
    rewrite uniq_In, !filter_In, andb_true_iff, negb_true_iff, existsb_false_iff, List.Forall_forall.
    change (map normalizeModelName) with (map trim). split.
    + intros (Hk & Ht & Hn). repeat split; [done|done|]. intros Hin. apply (uniq_In m) in Hin.
      specialize (Hn m Hin). by rewrite str_eqb_refl in Hn.
    + intros (_ & (Hk & Ht) & Hn). repeat split; [done|done|]. intros x Hx. rewrite uniq_In in Hx.
      apply str_eqb_neq. intros E. apply Hn. by rewrite E.
  - assert (negb (truthy mapping) || negb (truthy (trim mapping)) = true) as ->
      by (rewrite <- negb_andb; by rewrite Et).
    split; [done|]. intros (Ht & _). rewrite Ht, andb_true_r in Et. destruct mapping; [|done]. by cbn in Ht.
Qed.

(** The offer to add the missing models settles the form: the missing ones
    are exactly the names the mapping takes from that are not in the channel's
    list, and once they are added to it, and the list is saved as text and read
    back, none is missing. *)
Theorem missing_models_settled mapping ms :
  forallb listable ms = true -> forallb listable (mapping_names mapping) = true ->
  let missing := findMissingModelsInMapping mapping ms in
  (forall m, In m missing <-> truthy (trim mapping) = true /\ In m (mapping_names mapping) /\ ~ In m ms)
  /\ findMissingModelsInMapping mapping (parseModelsString (formatModelsArray (ms ++ missing))) = [].
Proof.
  intros Hms Hk missing.
  assert (forall l, forallb listable l = true -> map trim l = l) as Htrim.
  { intros l Hl. rewrite <- (map_id l) at 2. apply map_ext_in. intros x Hx. apply trim_id.
    rewrite forallb_forall in Hl. specialize (Hl x Hx). unfold listable in Hl. rewrite !andb_true_iff in Hl. tauto. }
  assert (forall m, In m missing <-> truthy (trim mapping) = true /\ In m (mapping_names mapping) /\ ~ In m ms) as Hspec.
  { intros m. unfold missing. by rewrite missing_spec, (Htrim ms). }
  split; [exact Hspec|].
  assert (forallb listable (ms ++ missing) = true) as Hall.
  { rewrite forallb_app, Hms. apply forallb_forall. intros m (_ & Hm & _)%Hspec.
    rewrite forallb_forall in Hk. by apply Hk. }
  rewrite parse_format_models by done.
  destruct (findMissingModelsInMapping mapping (uniq (ms ++ missing))) as [|x rest] eqn:E; [done|]. exfalso.
  assert (In x (findMissingModelsInMapping mapping (uniq (ms ++ missing)))) as Hx by (rewrite E; by left).
  apply missing_spec in Hx as (Ht & Hn & Hout). rewrite Htrim in Hout.
  - apply Hout, uniq_In, in_or_app. destruct (decide (In x ms)); [by left|right]. by apply Hspec.
  - rewrite forallb_forall in *. intros y Hy. by apply Hall, uniq_In.
Qed.

Definition sample_mapping : jsstr :=
  js "{" ++ dq ++ js "gpt-4o" ++ dq ++ js ":" ++ dq ++ js "azure-4o" ++ dq ++ js ", "
  ++ dq ++ js " o3 " ++ dq ++ js ":" ++ dq ++ js "o3-mini" ++ dq ++ js "}".

Lemma missing_models_settled_witness :
  let ms := [js "gpt-4o"; js "claude"] in
  findMissingModelsInMapping sample_mapping ms = [js "o3"]
  /\ findMissingModelsInMapping sample_mapping
       (parseModelsString (formatModelsArray (ms ++ findMissingModelsInMapping sample_mapping ms))) = [].
Proof.
  intros ms. split; [vm_compute; reflexivity|].
  apply (missing_models_settled sample_mapping ms); vm_compute; reflexivity.
Defined.
