(* ===== verification/ModelPricing.v ===== *)
(** * Model prices in the system settings

    Model of src/web/default/src/features/system-settings/models/:
    pricing-format.ts, model-pricing-core.ts, model-pricing-snapshots.ts and the
    state changes of model-ratio-visual-editor.tsx, with safeJsonParse of
    utils/json-parser.ts.  Prices are ten options, each the JSON text of an
    object from model names to numbers or strings; the editor shows a row per
    model and writes changed texts back.

    The texts are JSON of objects, which is the type the code gives them: a
    text that is [null] makes the code throw, and the same is said here of
    JSON of any other type.  Model names are not properties of
    [Object.prototype]. *)

From S2P Require Import Prelude JsStr JsNum JsArray JsJson JsPrint BillingExpr ModelMapping.
Local Open Scope js_scope.

(** ** pricing-format.ts *)

Definition DISPLAY_DECIMALS : Z := 12.
Definition SNAP_DECIMALS : nat := 8.
Definition SNAP_EPSILON : num := dec_to_num false 1 (-12).

(** [Number.EPSILON]. *)
Definition EPSILON : num := ndiv (num_of_Z 1) (num_of_Z (2 ^ 52)).

Definition roundToDecimals (value : num) (decimals : nat) : num :=
  let factor := npow10 (Z.of_nat decimals) in
  ndiv (nround (nmul value factor)) factor.

Fixpoint snap_from (value tolerance : num) (decimals fuel : nat) : num :=
  match fuel with
  | O => value
  | S f =>
      let rounded := roundToDecimals value decimals in
      if nle (nabs (nsub value rounded)) tolerance then rounded
      else snap_from value tolerance (S decimals) f
  end.

Definition snapFloatDrift (value : num) : num :=
  let tolerance := nmax SNAP_EPSILON (nmul (nmul (nabs value) EPSILON) (num_of_Z 8)) in
  snap_from value tolerance 0 (S SNAP_DECIMALS).

(** On a number; [null] is a value that is not finite. *)
Definition formatPricingNumber (num : num) : jsstr :=
  if negb (isFinite num) then []
  else num_to_str (parseFloat (toFixed (snapFloatDrift num) DISPLAY_DECIMALS)).

(** ** model-pricing-core.ts *)

Inductive PricingMode := per_token | per_request | tiered_expr.

Inductive LaneKey := L_completion | L_cache | L_createCache | L_image | L_audioInput | L_audioOutput.

(** The form's values: [undefined] and the empty string are both no value. *)
Record ModelRatioData := mkRatioData {
  d_name : jsstr;
  d_price : jsstr; d_ratio : jsstr; d_cacheRatio : jsstr; d_createCacheRatio : jsstr;
  d_completionRatio : jsstr; d_imageRatio : jsstr; d_audioRatio : jsstr; d_audioCompletionRatio : jsstr;
  d_billingMode : PricingMode; d_billingExpr : jsstr; d_requestRuleExpr : jsstr
}.

Definition hasValue (value : jsstr) : bool := truthy value.

Definition toNumberOrNull (value : jsstr) : option num :=
  if negb (hasValue value) then None
  else let n := num_of_str value in if isFinite n then Some n else None.

Definition ratioToBasePrice (ratio : jsstr) : jsstr :=
  match toNumberOrNull ratio with
  | None => []
  | Some n => formatPricingNumber (nmul n (num_of_Z 2))
  end.

Definition deriveLanePrice (ratio denominator : jsstr) : jsstr :=
  match toNumberOrNull ratio, toNumberOrNull denominator with
  | Some r, Some d => formatPricingNumber (nmul r d)
  | _, _ => []
  end.

Record LaneState := mkLanes {
  promptPrice : jsstr;
  prices : LaneKey -> jsstr;
  enabled : LaneKey -> bool
}.

Definition lane_ratio (data : ModelRatioData) (k : LaneKey) : jsstr :=
  match k with
  | L_completion => d_completionRatio data
  | L_cache => d_cacheRatio data
  | L_createCache => d_createCacheRatio data
  | L_image => d_imageRatio data
  | L_audioInput => d_audioRatio data
  | L_audioOutput => d_audioCompletionRatio data
  end.

Definition createInitialLaneState (data : option ModelRatioData) : LaneState :=
  match data with
  | None => mkLanes [] (fun _ => []) (fun _ => false)
  | Some data =>
      let promptPrice := ratioToBasePrice (d_ratio data) in
      let audioInputPrice := deriveLanePrice (d_audioRatio data) promptPrice in
      mkLanes promptPrice
        (fun k => match k with
                  | L_audioInput => audioInputPrice
                  | L_audioOutput => deriveLanePrice (d_audioCompletionRatio data) audioInputPrice
                  | _ => deriveLanePrice (lane_ratio data k) promptPrice
                  end)
        (fun k => hasValue (lane_ratio data k))
  end.

Record PreviewRow := mkPreview { pr_key : jsstr; pr_label : jsstr; pr_value : jsstr; pr_multiline : bool }.

Section Translated.
  Variable t : jsstr -> jsstr.

Definition dollar (s : jsstr) : jsstr := js "$" ++ s.

Definition lane_row (key label : jsstr) (on : bool) (price : jsstr) : PreviewRow :=
  mkPreview key (t label) (if on && truthy price then dollar price else t (js "Empty")) false.

Definition buildPreviewRows (price : jsstr) (mode : PricingMode) (billingExpr requestRuleExpr : jsstr)
    (promptPrice : jsstr) (lanePrices : LaneKey -> jsstr) (laneEnabled : LaneKey -> bool) : list PreviewRow :=
  match mode with
  | tiered_expr =>
      let effectiveExpr := combineBillingExpr billingExpr requestRuleExpr in
      [mkPreview (js "mode") (js "BillingMode") (js "tiered_expr") false;
       mkPreview (js "expr") (t (js "Expression")) (str_or effectiveExpr (t (js "Empty"))) true]
  | per_request => [mkPreview (js "price") (js "ModelPrice") (str_or price (t (js "Empty"))) false]
  | per_token =>
      let lane key label k := lane_row key label (laneEnabled k) (lanePrices k) in
      [lane_row (js "inputPrice") (js "Input price") true promptPrice;
       lane (js "completion") (js "Completion price") L_completion;
       lane (js "cache") (js "Cache read price") L_cache;
       lane (js "createCache") (js "Cache write price") L_createCache;
       lane (js "image") (js "Image input price") L_image;
       lane (js "audio") (js "Audio input price") L_audioInput;
       lane (js "audioCompletion") (js "Audio output price") L_audioOutput]
  end.

End Translated.

(** ** The ten options *)

Inductive Option :=
| ModelPrice | ModelRatio | CacheRatio | CreateCacheRatio | CompletionRatio | ImageRatio
| AudioRatio | AudioCompletionRatio | BillingMode | BillingExprs.

#[export] Instance option_eq_dec : EqDecision Option.
Proof. solve_decision. Defined.

Definition all_options : list Option :=
  [ModelPrice; ModelRatio; CacheRatio; CreateCacheRatio; CompletionRatio; ImageRatio;
   AudioRatio; AudioCompletionRatio; BillingMode; BillingExprs].

(** The text of each option, and the members of each parsed object. *)
Definition Texts := Option -> jsstr.
Definition Members := list (jsstr * json).
Definition Maps := Option -> Members.

(** [safeJsonParse(value, { fallback: {} })], where the value is an object. *)
Definition safeJsonParse (value : jsstr) : option Members :=
  if negb (truthy (trim value)) then Some []
  else match parse (trim value) with
       | None => Some []
       | Some (JObj l) => Some l
       | Some _ => None
       end.

Definition parse_maps (texts : Texts) : outcome Maps :=
  if forallb (fun o => match safeJsonParse (texts o) with Some _ => true | None => false end) all_options
  then Returns (fun o => default [] (safeJsonParse (texts o)))
  else Throws (js "TypeError").

(** [map[name]]. *)
Definition member (name : jsstr) (l : Members) : option json := jfield name (JObj l).

(** [map[name]?.toString() || ""]. *)
Definition member_text (name : jsstr) (l : Members) : jsstr :=
  match member name l with None | Some JNull => [] | Some v => json_to_str v end.

(** [delete map[name]] and [map[name] = v]. *)
Definition del_member (name : jsstr) (l : Members) : Members :=
  List.filter (fun p => negb (str_eqb p.1 name)) l.
Definition set_member (name : jsstr) (v : json) (l : Members) : Members := obj_set name v l.

(** [JSON.stringify(map, null, 2)]. *)
Definition print_map (l : Members) : jsstr := stringify 2 0 (JObj (object_order l)).

(** ** model-pricing-snapshots.ts *)

Record ModelPricingSnapshot := mkSnapshot {
  s_name : jsstr;
  s_price : jsstr; s_ratio : jsstr; s_cacheRatio : jsstr; s_createCacheRatio : jsstr;
  s_completionRatio : jsstr; s_imageRatio : jsstr; s_audioRatio : jsstr; s_audioCompletionRatio : jsstr;
  s_billingMode : jsstr;
  s_billingExpr : option jsstr; s_requestRuleExpr : option jsstr;
  hasConflict : bool
}.

Definition hasPricingValue (value : jsstr) : bool := truthy value.

(** [billingModeMap[name] === 'tiered_expr']. *)
Definition is_tiered (maps : Maps) (name : jsstr) : bool :=
  match member name (maps BillingMode) with
  | Some (JStr m) => str_eqb m (js "tiered_expr")
  | _ => false
  end.

(** The row of one model. *)
Definition snapshot_of (maps : Maps) (name : jsstr) : outcome ModelPricingSnapshot :=
  let text o := member_text name (maps o) in
  let row mode expr rules conflict :=
    mkSnapshot name (text ModelPrice) (text ModelRatio) (text CacheRatio) (text CreateCacheRatio)
      (text CompletionRatio) (text ImageRatio) (text AudioRatio) (text AudioCompletionRatio)
      mode expr rules conflict in
  if is_tiered maps name then
    let! fullExpr := match member name (maps BillingExprs) with
                     | Some (JStr s) => Returns s
                     | Some v => if json_truthy v then Throws (js "TypeError") else Returns []
                     | None => Returns []
                     end in
    let! r := splitBillingExprAndRequestRules fullExpr in
    Returns (row (js "tiered_expr") (Some r.1) (Some r.2) false)
  else
    Returns (row (if truthy (text ModelPrice) then js "per-request" else js "per-token") None None
               (truthy (text ModelPrice)
                && existsb (fun o => truthy (text o))
                     [ModelRatio; CompletionRatio; CacheRatio; CreateCacheRatio; ImageRatio; AudioRatio;
                      AudioCompletionRatio])).

Definition model_names (maps : Maps) : list jsstr :=
  uniq (concat (map (fun o => object_keys (maps o)) all_options)).

Fixpoint snapshots_of (maps : Maps) (names : list jsstr) : outcome (list ModelPricingSnapshot) :=
  match names with
  | [] => Returns []
  | n :: ns => let! r := snapshot_of maps n in let! rs := snapshots_of maps ns in Returns (r :: rs)
  end.

Definition buildModelSnapshots (texts : Texts) : outcome (list ModelPricingSnapshot) :=
  let! maps := parse_maps texts in snapshots_of maps (model_names maps).

Definition getSnapshotSignature (snapshot : option ModelPricingSnapshot) : jsstr :=
  match snapshot with
  | None => []
  | Some s =>
      stringify 0 0 (JObj [
        (js "price", JStr (s_price s)); (js "ratio", JStr (s_ratio s));
        (js "cacheRatio", JStr (s_cacheRatio s)); (js "createCacheRatio", JStr (s_createCacheRatio s));
        (js "completionRatio", JStr (s_completionRatio s)); (js "imageRatio", JStr (s_imageRatio s));
        (js "audioRatio", JStr (s_audioRatio s)); (js "audioCompletionRatio", JStr (s_audioCompletionRatio s));
        (js "billingMode", JStr (str_or (s_billingMode s) (js "per-token")));
        (js "billingExpr", JStr (default [] (s_billingExpr s)));
        (js "requestRuleExpr", JStr (default [] (s_requestRuleExpr s)))])
  end.

(** ** What a row shows *)

(** [ratioToPrice]; without a denominator, or with an empty one, it is two. *)
Definition ratioToPrice (ratio denominator : jsstr) : jsstr :=
  let d := if truthy denominator then toNumberOrNull denominator else Some (num_of_Z 2) in
  match toNumberOrNull ratio, d with
  | Some r, Some d => formatPricingNumber (nmul r d)
  | _, _ => []
  end.

Definition getModeLabel (mode : jsstr) : jsstr :=
  if str_eqb mode (js "per-request") then js "Per-request"
  else if str_eqb mode (js "tiered_expr") then js "Expression"
  else js "Per-token".

Definition getModeVariant (mode : jsstr) : jsstr :=
  if str_eqb mode (js "per-request") then js "warning"
  else if str_eqb mode (js "tiered_expr") then js "info"
  else js "success".

(** The matches of a literal, from left to right without overlap. *)
Fixpoint count_matches (fuel : nat) (p s : jsstr) : nat :=
  match fuel, s with
  | O, _ | _, [] => 0
  | S f, c :: t =>
      match strip_prefix p s with
      | Some r => S (count_matches f p r)
      | None => count_matches f p t
      end
  end.

Definition middle_dot : jsstr := [32%N; 183%N; 32%N].

Section Summary.
  Variable t : jsstr -> jsstr.

Definition getExpressionSummary (row : ModelPricingSnapshot) : jsstr :=
  let expr := default [] (s_billingExpr row) in
  let tierCount := count_matches (length expr) (js "tier(") expr in
  if Nat.ltb 0 tierCount
  then t (js "Tiered pricing") ++ middle_dot ++ digits_of (Z.of_nat tierCount) ++ js " " ++ t (js "tiers")
  else t (js "Expression pricing").

Definition getPriceSummary (row : ModelPricingSnapshot) : jsstr :=
  if str_eqb (s_billingMode row) (js "tiered_expr") then getExpressionSummary row
  else if str_eqb (s_billingMode row) (js "per-request") then
    if truthy (s_price row) then js "$" ++ s_price row ++ js " / " ++ t (js "request") else t (js "Unset price")
  else
    let inputPrice := ratioToPrice (s_ratio row) [] in
    if negb (truthy inputPrice) then t (js "Unset price")
    else
      let extraCount :=
        length (List.filter hasPricingValue
                  [s_completionRatio row; s_cacheRatio row; s_createCacheRatio row; s_imageRatio row;
                   s_audioRatio row; s_audioCompletionRatio row]) in
      if Nat.ltb 0 extraCount
      then t (js "Input") ++ js " $" ++ inputPrice ++ middle_dot ++ digits_of (Z.of_nat extraCount) ++ js " " ++ t (js "extras")
      else t (js "Input") ++ js " $" ++ inputPrice.

Definition getPriceDetail (row : ModelPricingSnapshot) : jsstr :=
  if str_eqb (s_billingMode row) (js "tiered_expr") then
    if truthy (default [] (s_requestRuleExpr row)) then t (js "Includes request rules") else t (js "Expression based")
  else if str_eqb (s_billingMode row) (js "per-request") then t (js "Fixed request price")
  else
    let inputPrice := ratioToPrice (s_ratio row) [] in
    if negb (truthy inputPrice) then t (js "No base input price")
    else
      let detail label ratio :=
        if truthy ratio then [t label ++ js " $" ++ ratioToPrice ratio inputPrice] else [] in
      let details :=
        take 2 (List.filter truthy
          (detail (js "Output") (s_completionRatio row)
           ++ detail (js "Cache") (s_cacheRatio row)
           ++ detail (js "Cache write") (s_createCacheRatio row))) in
      match details with
      | [] => t (js "Base input price only")
      | _ => join middle_dot details
      end.

End Summary.

(** ** model-ratio-visual-editor.tsx *)

Record ModelRow := mkRow {
  displayed : ModelPricingSnapshot;
  saved : option ModelPricingSnapshot;
  draft : option ModelPricingSnapshot;
  isDraftChanged : bool;
  isDraftDeleted : bool;
  isDraftNew : bool
}.

Definition row_by_name (name : jsstr) (rows : list ModelPricingSnapshot) : option ModelPricingSnapshot :=
  mget name (foldl (fun m r => mset (s_name r) r m) [] rows).

Definition is_some {A} (o : option A) : bool := match o with Some _ => true | None => false end.

Definition model_row (savedRows draftRows : list ModelPricingSnapshot) (name : jsstr) : option ModelRow :=
  let saved := row_by_name name savedRows in
  let draft := row_by_name name draftRows in
  match (match saved with Some _ => saved | None => draft end) with
  | None => None
  | Some displayed =>
      Some (mkRow displayed saved draft
              (negb (str_eqb (getSnapshotSignature saved) (getSnapshotSignature draft)))
              (is_some saved && negb (is_some draft)) (negb (is_some saved) && is_some draft))
  end.

(** [lc a b] is [a.localeCompare(b)]. *)
Definition editor_rows (lc : jsstr -> jsstr -> Z) (savedTexts draftTexts : Texts) : outcome (list ModelRow) :=
  let! savedRows := buildModelSnapshots savedTexts in
  let! draftRows := buildModelSnapshots draftTexts in
  let names := uniq (uniq (map s_name savedRows) ++ uniq (map s_name draftRows)) in
  Returns (isort (fun a b => (lc (s_name (displayed a)) (s_name (displayed b)) <=? 0)%Z)
             (List.filter (fun r => negb (isDraftDeleted r)) (omap (model_row savedRows draftRows) names))).

(** What the editor opens on a row: the draft, or what is saved. *)
Definition edit_data (row : ModelRow) : ModelRatioData :=
  let m := match draft row with
           | Some d => d
           | None => match saved row with Some s => s | None => displayed row end
           end in
  mkRatioData (s_name m) (s_price m) (s_ratio m) (s_cacheRatio m) (s_createCacheRatio m)
    (s_completionRatio m) (s_imageRatio m) (s_audioRatio m) (s_audioCompletionRatio m)
    (if str_eqb (s_billingMode m) (js "tiered_expr") then tiered_expr
     else if truthy (s_price m) then per_request else per_token)
    (default [] (s_billingExpr m)) (default [] (s_requestRuleExpr m)).

Definition handleDelete (name : jsstr) (texts : Texts) : outcome Texts :=
  let! maps := parse_maps texts in
  Returns (fun o => print_map (del_member name (maps o))).

(** [setIfPresent]. *)
Definition setIfPresent (name value : jsstr) (l : Members) : Members :=
  if negb (truthy value) then l
  else let parsed := parseFloat value in
       if isFinite parsed then set_member name (JNum parsed) l else l.

(** The value of the form for a numeric option. *)
Definition data_text (data : ModelRatioData) (o : Option) : jsstr :=
  match o with
  | ModelPrice => d_price data
  | ModelRatio => d_ratio data
  | CacheRatio => d_cacheRatio data
  | CreateCacheRatio => d_createCacheRatio data
  | CompletionRatio => d_completionRatio data
  | ImageRatio => d_imageRatio data
  | AudioRatio => d_audioRatio data
  | AudioCompletionRatio => d_audioCompletionRatio data
  | BillingMode | BillingExprs => []
  end.

(** The maps after one target of [persistPricingData]. *)
Definition persist_one (data : ModelRatioData) (maps : Maps) (name : jsstr) : Maps :=
  fun o =>
    let l := del_member name (maps o) in
    match d_billingMode data with
    | tiered_expr =>
        let combined := combineBillingExpr (d_billingExpr data) (d_requestRuleExpr data) in
        match o with
        | BillingMode => if truthy combined then set_member name (JStr (js "tiered_expr")) l else l
        | BillingExprs => if truthy combined then set_member name (JStr combined) l else l
        | _ => setIfPresent name (data_text data o) l
        end
    | _ =>
        if truthy (d_price data)
        then match o with ModelPrice => setIfPresent name (d_price data) l | _ => l end
        else match o with
             | ModelPrice | BillingMode | BillingExprs => l
             | _ => setIfPresent name (data_text data o) l
             end
    end.

Definition persistPricingData (data : ModelRatioData) (targetNames : list jsstr) (texts : Texts)
    : outcome Texts :=
  let! maps := parse_maps texts in
  let maps := foldl (persist_one data) maps targetNames in
  Returns (fun o => print_map (maps o)).
