(* ===== verification/ModelPricingProps.v ===== *)
(** * Model prices: what saving, copying and deleting do

    The editor reads ten JSON texts, changes the members of the models it is
    told to and prints the texts again.  Read back, the other models are as
    they were, the targets hold what the form held, and a deleted model is in
    none of the texts. *)

From S2P Require Import Prelude JsStr JsNum JsArray JsJson JsPrint BillingExpr BillingSplit BillingRoundTrip BillingRules BillingProps ModelMapping ModelPricing.
Local Open Scope js_scope.

(** ** Objects as unordered members *)

Lemma distinct_NoDup l : distinct l = true <-> List.NoDup l.
Proof.
  induction l as [|k l IH]; cbn [distinct]; [split; [constructor|done]|].
  rewrite andb_true_iff, negb_true_iff, IH, List.NoDup_cons_iff, <- not_true_iff_false, existsb_exists.
  split; intros [H ?]; (split; [|done]).
  - intros Hin. apply H. exists k. by rewrite str_eqb_refl.
  - intros (x & Hx & <-%str_eqb_eq). done.
Qed.

Lemma member_In k v l : distinct (map fst l) = true -> member k l = Some v <-> In (k, v) l.
Proof.
  unfold member. cbn [jfield]. induction l as [|[q x] l IH]; [done|]. cbn [map fst]. intros Hd.
  apply distinct_cons in Hd as [Hq Hd]. cbn [find fst In]. destruct (str_eqb q k) eqn:E.
  - apply str_eqb_eq in E as ->. cbn. split; [intros [= ->]; by left|].
    intros [[= ->]|Hin]; [done|]. by apply (in_map fst) in Hin.
  - rewrite IH by done. split; [by right|]. intros [[= -> ->]|H]; [by rewrite str_eqb_refl in E|done].
Qed.

Lemma member_perm k l l' :
  distinct (map fst l) = true -> Permutation l l' -> member k l = member k l'.
Proof.
  intros Hd Hp. assert (distinct (map fst l') = true) as Hd'.
  { rewrite distinct_NoDup in *. by eapply Permutation_NoDup; [apply Permutation_map|]. }
  apply option_eq. intros v. rewrite !member_In by done.
  split; apply Permutation_in; [done|by symmetry].
Qed.

Lemma filter_split_perm {A} (p : A -> bool) l :
  Permutation l (List.filter p l ++ List.filter (fun x => negb (p x)) l).
Proof.
  induction l as [|x l IH]; [done|]. cbn [List.filter]. destruct (p x); cbn [negb app].
  - by constructor.
  - rewrite IH at 1. apply Permutation_middle.
Qed.

Lemma object_order_perm l : Permutation l (object_order l).
Proof.
  unfold object_order. rewrite <- isort_perm. apply (filter_split_perm (fun p => is_index p.1)).
Qed.

Lemma printable_perm l l' : Permutation l l' -> printable (JObj l) = true -> printable (JObj l') = true.
Proof.
  intros Hp. cbn [printable]. rewrite !andb_true_iff, !distinct_NoDup, !forallb_forall.
  intros [H1 H2]. split.
  - by eapply Permutation_NoDup; [apply Permutation_map|].
  - intros x Hx. apply H2. by eapply Permutation_in; [symmetry|].
Qed.

Lemma printable_distinct l : printable (JObj l) = true -> distinct (map fst l) = true.
Proof. cbn [printable]. by intros [? _]%andb_true_iff. Qed.

(** ** The texts are read back *)

Lemma print_map_read l : printable (JObj l) = true -> safeJsonParse (print_map l) = Some (object_order l).
Proof.
  intros Hp. unfold safeJsonParse, print_map.
  rewrite trim_id by (by apply bracket_trimmed).
  rewrite parse_stringify by (by eapply printable_perm; [apply object_order_perm|]).
  cbn [stringify]. by destruct (map _ (object_order l)).
Qed.

Definition maps_ok (maps : Maps) : Prop := forall o, printable (JObj (maps o)) = true.

Lemma parse_maps_some texts maps o :
  parse_maps texts = Returns maps -> safeJsonParse (texts o) = Some (maps o).
Proof.
  unfold parse_maps. destruct (forallb _ _) eqn:E; [|done]. intros [= <-].
  rewrite forallb_forall in E. assert (In o all_options) as Ho by (destruct o; cbn; tauto).
  specialize (E o Ho). by destruct (safeJsonParse (texts o)).
Qed.

Lemma printed_maps maps :
  maps_ok maps ->
  exists maps', parse_maps (fun o => print_map (maps o)) = Returns maps'
    /\ forall o, Permutation (maps o) (maps' o).
Proof.
  intros Hok. unfold parse_maps.
  assert (forallb (fun o => match safeJsonParse (print_map (maps o)) with Some _ => true | None => false end)
            all_options = true) as ->.
  { apply forallb_forall. intros o _. cbn beta. by rewrite (print_map_read _ (Hok o)). }
  eexists. split; [reflexivity|]. intros o. cbn beta. rewrite (print_map_read _ (Hok o)). apply object_order_perm.
Qed.

(** ** Rows depend on members only *)

Lemma snapshot_ext maps maps' n :
  (forall o, member n (maps o) = member n (maps' o)) -> snapshot_of maps n = snapshot_of maps' n.
Proof.
  intros H. unfold snapshot_of. cbn zeta. cbn [existsb]. unfold is_tiered, member_text. by rewrite !H.
Qed.

Lemma member_del n m l : member n (del_member m l) = if str_eqb m n then None else member n l.
Proof.
  unfold member, del_member. destruct (str_eqb m n) eqn:E.
  - apply str_eqb_eq in E as ->. apply jfield_removed.
  - by apply jfield_unset.
Qed.

Lemma member_set n m v l : member n (set_member m v l) = if str_eqb m n then Some v else member n l.
Proof. apply jfield_set. Qed.

(** A model is listed when some option mentions it. *)
Lemma listed_iff maps n :
  maps_ok maps -> In n (model_names maps) <-> exists o, is_Some (member n (maps o)).
Proof.
  intros Hok. unfold model_names. rewrite uniq_In, in_concat. split.
  - intros (ks & (o & <- & _)%in_map_iff & Hn). exists o. unfold object_keys in Hn.
    apply in_map_iff in Hn as ([k v] & <- & Hin). exists v. apply member_In; [by apply printable_distinct|].
    eapply Permutation_in; [symmetry; apply object_order_perm|done].
  - intros (o & v & Hv). exists (object_keys (maps o)). split.
    + apply in_map_iff. exists o. split; [done|]. destruct o; cbn; tauto.
    + apply in_map_iff. exists (n, v). split; [done|]. eapply Permutation_in; [apply object_order_perm|].
      apply member_In; [by apply printable_distinct|done].
Qed.

(** ** Saving *)

(** The number a field of the form holds, if it holds one. *)
Definition form_number (value : jsstr) : option json :=
  if truthy value && isFinite (parseFloat value) then Some (JNum (parseFloat value)) else None.

(** What the form says about each option of the model. *)
Definition form_member (data : ModelRatioData) (o : Option) : option json :=
  match d_billingMode data with
  | tiered_expr =>
      let combined := combineBillingExpr (d_billingExpr data) (d_requestRuleExpr data) in
      match o with
      | BillingMode => if truthy combined then Some (JStr (js "tiered_expr")) else None
      | BillingExprs => if truthy combined then Some (JStr combined) else None
      | _ => form_number (data_text data o)
      end
  | _ =>
      if truthy (d_price data)
      then match o with ModelPrice => form_number (d_price data) | _ => None end
      else match o with
           | ModelPrice | BillingMode | BillingExprs => None
           | _ => form_number (data_text data o)
           end
  end.

Lemma member_set_if n m value l :
  member n (setIfPresent m value l)
  = if str_eqb m n then match form_number value with Some v => Some v | None => member n l end else member n l.
Proof.
  unfold setIfPresent, form_number. destruct (truthy value); cbn [negb andb]; [|by destruct (str_eqb m n)].
  destruct (isFinite _); [apply member_set|by destruct (str_eqb m n)].
Qed.

(** The members after one target: the form's for the target, else the old. *)
Lemma persist_one_member data maps name o n :
  member n (persist_one data maps name o) = if str_eqb name n then form_member data o else member n (maps o).
Proof.
  unfold persist_one, form_member.
  destruct (d_billingMode data); [destruct (truthy (d_price data))|destruct (truthy (d_price data))|
    destruct (truthy (combineBillingExpr (d_billingExpr data) (d_requestRuleExpr data)))];
    destruct o; rewrite ?member_set_if, ?member_set, ?member_del;
    destruct (str_eqb name n) eqn:E; try done; by destruct (form_number _).
Qed.

Lemma persist_members data names maps o n :
  member n (foldl (persist_one data) maps names o)
  = if existsb (str_eqb n) names then form_member data o else member n (maps o).
Proof.
  revert maps. induction names as [|m names IH]; intros maps; [done|]. cbn [foldl existsb].
  rewrite IH, persist_one_member.
  assert (str_eqb m n = str_eqb n m) as -> by (unfold str_eqb; apply bool_decide_ext; naive_solver).
  by destruct (str_eqb n m), (existsb (str_eqb n) names).
Qed.

(** Texts and numbers of the form that print exactly. *)
Record data_ok (data : ModelRatioData) : Prop := {
  data_numbers : forall o, isFinite (parseFloat (data_text data o)) = true ->
                           num_printable (parseFloat (data_text data o)) = true;
  data_expr : units (combineBillingExpr (d_billingExpr data) (d_requestRuleExpr data)) = true
}.

Lemma filter_keys p (l : Members) : distinct (map fst l) = true -> distinct (map fst (List.filter p l)) = true.
Proof.
  rewrite !distinct_NoDup. induction l as [|[k v] l IH]; [done|]. cbn [List.filter map fst].
  rewrite List.NoDup_cons_iff. intros [Hk Hd]. destruct (p (k, v)); [|by apply IH].
  cbn [map fst]. apply List.NoDup_cons; [|by apply IH]. intros (x & Hx & Hin)%in_map_iff.
  apply Hk. apply filter_In in Hin as [Hin _]. apply in_map_iff. by exists x.
Qed.

Lemma del_printable name l : printable (JObj l) = true -> printable (JObj (del_member name l)) = true.
Proof.
  cbn [printable]. rewrite !andb_true_iff, !forallb_forall. intros [Hd Hp].
  split; [by apply filter_keys|]. intros x [Hx _]%filter_In. by apply Hp.
Qed.

Lemma obj_set_In k v l p : In p (obj_set k v l) -> p = (k, v) \/ In p l.
Proof.
  induction l as [|[q x] l IH]; cbn [obj_set In]; [intuition|].
  destruct (str_eqb k q); cbn [In]; intuition.
Qed.

Lemma set_printable name v l :
  units name = true -> printable v = true -> ~ In name (map fst l) -> printable (JObj l) = true ->
  printable (JObj (set_member name v l)) = true.
Proof.
  intros Hn Hv Hfresh. cbn [printable]. unfold set_member. rewrite obj_set_fresh by done.
  rewrite !andb_true_iff, forallb_app, !distinct_NoDup, map_app. intros [Hd Hp]. split.
  - apply List.NoDup_app; [done|by repeat constructor; intros []|]. intros k Hk [<-|[]]. done.
  - rewrite Hp. cbn. by rewrite Hn, Hv.
Qed.

Lemma del_fresh name l : ~ In name (map fst (del_member name l)).
Proof.
  intros ([k v] & <- & [_ H]%filter_In)%in_map_iff. cbn in H. by rewrite str_eqb_refl in H.
Qed.

Lemma set_if_printable name value l :
  units name = true -> (isFinite (parseFloat value) = true -> num_printable (parseFloat value) = true) ->
  printable (JObj l) = true -> printable (JObj (setIfPresent name value (del_member name l))) = true.
Proof.
  intros Hn Hv Hl. unfold setIfPresent. destruct (negb _); [by apply del_printable|].
  destruct (isFinite _); [|by apply del_printable].
  apply set_printable; [done|by apply Hv|apply del_fresh|by apply del_printable].
Qed.

Lemma persist_one_ok data name maps :
  data_ok data -> units name = true -> maps_ok maps -> maps_ok (persist_one data maps name).
Proof.
  intros [Hnum Hexpr] Hn Hok o. pose proof (Hok o) as Ho.
  pose proof (del_printable name _ Ho) as Hdel. pose proof (Hnum o) as Hno. unfold persist_one.
  destruct (d_billingMode data); [destruct (truthy (d_price data))|destruct (truthy (d_price data))|
    destruct (truthy (combineBillingExpr (d_billingExpr data) (d_requestRuleExpr data)))];
    destruct o; try done; try (by apply set_if_printable);
    by apply set_printable; [| |apply del_fresh|].
Qed.

Lemma persist_ok data names maps :
  data_ok data -> forallb units names = true -> maps_ok maps -> maps_ok (foldl (persist_one data) maps names).
Proof.
  intros Hd. revert maps. induction names as [|m names IH]; intros maps; [done|].
  cbn [forallb foldl]. intros [Hm Hns]%andb_true_iff Hok. apply IH; [done|]. by apply persist_one_ok.
Qed.

Lemma existsb_In n names : existsb (str_eqb n) names = true <-> In n names.
Proof.
  rewrite existsb_exists. split; [by intros (x & Hx & ->%str_eqb_eq)|].
  intros H. exists n. by rewrite str_eqb_refl.
Qed.

(** The texts written by [persistPricingData], read back. *)
Lemma persisted data names texts maps :
  parse_maps texts = Returns maps -> maps_ok maps -> data_ok data -> forallb units names = true ->
  exists texts' maps', persistPricingData data names texts = Returns texts'
    /\ parse_maps texts' = Returns maps' /\ maps_ok maps'
    /\ forall o n, member n (maps' o) = if existsb (str_eqb n) names then form_member data o else member n (maps o).
Proof.
  intros Hp Hok Hd Hn. pose proof (persist_ok data names maps Hd Hn Hok) as Hok'.
  unfold persistPricingData. rewrite Hp. cbn [obind].
  destruct (printed_maps _ Hok') as (maps' & Hr & Hperm).
  eexists _, maps'. split; [reflexivity|]. split; [done|]. split.
  - intros o. eapply printable_perm; [apply Hperm|apply Hok'].
  - intros o n. rewrite <- persist_members. symmetry. apply member_perm; [by apply printable_distinct|apply Hperm].
Qed.

(** C13: saving a model, or copying its prices to the selected models, writes
    ten texts that read back as intended: every other model keeps its row and
    stays listed or unlisted, and each target has in every option exactly what
    the form says, nothing of what it had before. *)
Theorem saving_exact data names texts maps :
  parse_maps texts = Returns maps -> maps_ok maps -> data_ok data -> forallb units names = true ->
  exists texts' maps', persistPricingData data names texts = Returns texts'
    /\ parse_maps texts' = Returns maps'
    /\ (forall n, ~ In n names -> snapshot_of maps' n = snapshot_of maps n
                               /\ (In n (model_names maps') <-> In n (model_names maps)))
    /\ (forall n o, In n names -> member n (maps' o) = form_member data o).
Proof.
  intros Hp Hok Hd Hn. destruct (persisted data names texts maps Hp Hok Hd Hn) as (texts' & maps' & H1 & H2 & Hok' & Hm).
  exists texts', maps'. split; [done|]. split; [done|]. split.
  - intros n Hnot. assert (existsb (str_eqb n) names = false) as E.
    { apply not_true_iff_false. by rewrite existsb_In. }
    assert (forall o, member n (maps' o) = member n (maps o)) as Hs by (intros o; by rewrite Hm, E).
    split; [by apply snapshot_ext|]. rewrite !listed_iff by done. by setoid_rewrite Hs.
  - intros n o Hin. rewrite Hm. by rewrite (proj2 (existsb_In n names) Hin).
Qed.

(** ** What a saved row is *)

Lemma labels_differ :
  ~ js "per-request" = js "tiered_expr" /\ ~ js "per-token" = js "tiered_expr".
Proof. split; apply str_eqb_neq; reflexivity. Qed.

(** A row built from the form's members has no conflict. *)
Lemma form_row maps n data r :
  (forall o, member n (maps o) = form_member data o) ->
  (d_billingMode data = tiered_expr -> truthy (combineBillingExpr (d_billingExpr data) (d_requestRuleExpr data)) = true) ->
  snapshot_of maps n = Returns r -> hasConflict r = false /\ (d_billingMode data = tiered_expr <-> s_billingMode r = js "tiered_expr").
Proof.
  intros Hm Hc. unfold snapshot_of. cbn zeta. cbn [existsb]. unfold is_tiered, member_text. rewrite !Hm.
  unfold form_member. destruct (d_billingMode data) eqn:Em.
  3:{ rewrite Hc by done. cbn iota. rewrite str_eqb_refl. rewrite !obind_returns. intros (e & _ & H).
      rewrite obind_returns in H. by destruct H as (p & _ & [= <-]). }
  all: destruct (truthy (d_price data)); intros [= <-]; cbn [hasConflict s_billingMode existsb truthy orb andb];
    rewrite ?andb_false_r; (split; [done|]); split; try done.
  all: match goal with |- (if ?b then _ else _) = _ -> _ => destruct b end;
    [by intros ?%(proj1 labels_differ)|by intros ?%(proj2 labels_differ)].
Qed.

(** Saving resolves conflicts: whatever a model had, a fixed price and
    ratios included, after it is saved its row has no conflict, and it is a row
    with an expression exactly when the form was in the expression mode (with
    an expression). *)
Theorem saved_rows_settled data names texts maps :
  parse_maps texts = Returns maps -> maps_ok maps -> data_ok data -> forallb units names = true ->
  (d_billingMode data = tiered_expr ->
     truthy (combineBillingExpr (d_billingExpr data) (d_requestRuleExpr data)) = true) ->
  exists texts' maps', persistPricingData data names texts = Returns texts' /\ parse_maps texts' = Returns maps'
    /\ forall n r, In n names -> snapshot_of maps' n = Returns r ->
         hasConflict r = false /\ (d_billingMode data = tiered_expr <-> s_billingMode r = js "tiered_expr").
Proof.
  intros Hp Hok Hd Hn Hc. destruct (persisted data names texts maps Hp Hok Hd Hn) as (texts' & maps' & H1 & H2 & _ & Hm).
  exists texts', maps'. split; [done|]. split; [done|]. intros n r Hin. apply form_row; [|done].
  intros o. by rewrite Hm, (proj2 (existsb_In n names) Hin).
Qed.

(** A model saved with an expression and request rules is read back with
    both: the editor combines them into one text, the row splits it again, and
    the expression comes back without its outer parentheses and the rules as
    they were built. *)
Theorem saved_rules_read_back data texts maps gs :
  parse_maps texts = Returns maps -> maps_ok maps -> data_ok data -> units (d_name data) = true ->
  d_billingMode data = tiered_expr -> d_requestRuleExpr data = buildRequestRuleExpr gs ->
  truthy (trim (d_billingExpr data)) = true -> balanced (trim (d_billingExpr data)) = true ->
  tryParseRuleGroupFactor (js "(" ++ trim (d_billingExpr data) ++ js ")") = Returns None ->
  gs <> [] -> forallb wf_group gs = true ->
  truthy (combineBillingExpr (d_billingExpr data) (d_requestRuleExpr data)) = true ->
  exists texts' maps' r, persistPricingData data [d_name data] texts = Returns texts'
    /\ parse_maps texts' = Returns maps' /\ snapshot_of maps' (d_name data) = Returns r
    /\ s_billingExpr r = Some (unwrapOuterParens (d_billingExpr data))
    /\ s_requestRuleExpr r = Some (buildRequestRuleExpr gs).
Proof.
  intros Hp Hok Hd Hu Hmode Hrules Ht Hb Hf Hgs Hw Hc.
  destruct (persisted data [d_name data] texts maps Hp Hok Hd) as (texts' & maps' & H1 & H2 & _ & Hm);
    [cbn; by rewrite Hu|].
  assert (forall o, member (d_name data) (maps' o) = form_member data o) as Hm'.
  { intros o. rewrite Hm. cbn [existsb]. by rewrite str_eqb_refl. }
  eexists texts', maps', _. split; [done|]. split; [done|].
  unfold snapshot_of, is_tiered. rewrite !Hm'. unfold form_member. rewrite Hmode, Hc, str_eqb_refl. cbn [obind].
  rewrite Hrules, combine_split_parts by done. cbn [obind]. done.
Qed.

(** ** Deleting *)

(** A deleted model is in none of the ten texts: it is no longer listed,
    and every other model keeps its row and stays listed or unlisted. *)
Theorem deleting_exact name texts maps :
  parse_maps texts = Returns maps -> maps_ok maps ->
  exists texts' maps', handleDelete name texts = Returns texts' /\ parse_maps texts' = Returns maps'
    /\ ~ In name (model_names maps')
    /\ (forall n, n <> name -> snapshot_of maps' n = snapshot_of maps n
                             /\ (In n (model_names maps') <-> In n (model_names maps))).
Proof.
  intros Hp Hok. assert (maps_ok (fun o => del_member name (maps o))) as Hdel by (intros o; by apply del_printable).
  unfold handleDelete. rewrite Hp. cbn [obind]. destruct (printed_maps _ Hdel) as (maps' & Hr & Hperm).
  assert (maps_ok maps') as Hok' by (intros o; eapply printable_perm; [apply Hperm|apply Hdel]).
  assert (forall o n, member n (maps' o) = if str_eqb name n then None else member n (maps o)) as Hm.
  { intros o n. rewrite <- member_del. symmetry. apply member_perm; [apply printable_distinct, Hdel|apply Hperm]. }
  eexists _, maps'. split; [reflexivity|]. split; [done|]. split.
  - rewrite listed_iff by done. intros (o & v & Hv). by rewrite Hm, str_eqb_refl in Hv.
  - intros n Hn. assert (str_eqb name n = false) as E by (apply str_eqb_neq; congruence).
    assert (forall o, member n (maps' o) = member n (maps o)) as Hs by (intros o; by rewrite Hm, E).
    split; [by apply snapshot_ext|]. rewrite !listed_iff by done. by setoid_rewrite Hs.
Qed.

(** ** Instances *)

Definition sample_maps : Maps := fun o =>
  match o with
  | ModelPrice => [(js "gpt-x", JNum (num_of_Z 2))]
  | ModelRatio => [(js "gpt-x", JNum (dec_to_num false 15 (-1))); (js "other", JNum (num_of_Z 3))]
  | _ => []
  end.
Definition sample_texts : Texts := fun o => print_map (sample_maps o).

(** The maps the texts are read as. *)
Definition sample_read : Maps := fun o => default [] (safeJsonParse (sample_texts o)).

Definition per_request_form : ModelRatioData :=
  mkRatioData (js "gpt-x") (js "0.25") (js "9") [] [] [] [] [] [] per_request [] [].

Definition sample_rules : jsstr := buildRequestRuleExpr sample_groups.
Definition tiered_form : ModelRatioData :=
  mkRatioData (js "gpt-x") (js "0.25") (js "9") [] [] [] [] [] [] tiered_expr sample_base sample_rules.

Lemma sample_parsed : parse_maps sample_texts = Returns sample_read.
Proof. unfold parse_maps. by assert (forallb _ _ = true) as -> by (vm_compute; reflexivity). Qed.

Lemma sample_ok : maps_ok sample_read.
Proof. intros []; vm_compute; reflexivity. Qed.

Lemma per_request_form_ok : data_ok per_request_form.
Proof. split; [intros []; vm_compute; congruence|vm_compute; reflexivity]. Qed.

Lemma tiered_form_ok : data_ok tiered_form.
Proof. split; [intros []; vm_compute; congruence|vm_compute; reflexivity]. Qed.

Lemma saving_exact_witness :
  exists texts' maps', persistPricingData per_request_form [js "gpt-x"] sample_texts = Returns texts'
    /\ parse_maps texts' = Returns maps'
    /\ (forall n, ~ In n [js "gpt-x"] -> snapshot_of maps' n = snapshot_of sample_read n
                               /\ (In n (model_names maps') <-> In n (model_names sample_read)))
    /\ (forall n o, In n [js "gpt-x"] -> member n (maps' o) = form_member per_request_form o).
Proof.
  exact (saving_exact per_request_form [js "gpt-x"] sample_texts sample_read sample_parsed sample_ok
           per_request_form_ok ltac:(vm_compute; reflexivity)).
Defined.

Lemma saved_rows_settled_witness :
  exists texts' maps', persistPricingData per_request_form [js "gpt-x"; js "other"] sample_texts = Returns texts'
    /\ parse_maps texts' = Returns maps'
    /\ forall n r, In n [js "gpt-x"; js "other"] -> snapshot_of maps' n = Returns r ->
         hasConflict r = false /\ (d_billingMode per_request_form = tiered_expr <-> s_billingMode r = js "tiered_expr").
Proof.
  exact (saved_rows_settled per_request_form [js "gpt-x"; js "other"] sample_texts sample_read sample_parsed sample_ok
           per_request_form_ok ltac:(vm_compute; reflexivity) ltac:(discriminate)).
Defined.

Lemma saved_rules_read_back_witness :
  exists texts' maps' r, persistPricingData tiered_form [js "gpt-x"] sample_texts = Returns texts'
    /\ parse_maps texts' = Returns maps' /\ snapshot_of maps' (js "gpt-x") = Returns r
    /\ s_billingExpr r = Some (unwrapOuterParens sample_base)
    /\ s_requestRuleExpr r = Some sample_rules.
Proof.
  apply (saved_rules_read_back tiered_form sample_texts sample_read sample_groups);
    first [apply sample_parsed|apply sample_ok|apply tiered_form_ok|discriminate|vm_compute; reflexivity].
Defined.

Lemma deleting_exact_witness :
  exists texts' maps', handleDelete (js "gpt-x") sample_texts = Returns texts' /\ parse_maps texts' = Returns maps'
    /\ ~ In (js "gpt-x") (model_names maps')
    /\ (forall n, n <> js "gpt-x" -> snapshot_of maps' n = snapshot_of sample_read n
                             /\ (In n (model_names maps') <-> In n (model_names sample_read))).
Proof. exact (deleting_exact (js "gpt-x") sample_texts sample_read sample_parsed sample_ok). Defined.

(** The model of the sample starts with a conflict. *)
Example sample_conflict :
  match snapshot_of sample_read (js "gpt-x") with Returns r => hasConflict r | Throws _ => false end = true.
Proof. vm_compute. reflexivity. Qed.

(** ** The rows of the editor *)

Lemma row_by_name_fold name rows m :
  (forall r, mget name (foldl (fun m r => mset (s_name r) r m) m rows) = Some r ->
     In r rows /\ s_name r = name \/ mget name m = Some r)
  /\ (In name (map s_name rows) \/ is_Some (mget name m) ->
      is_Some (mget name (foldl (fun m r => mset (s_name r) r m) m rows))).
Proof.
  revert m. induction rows as [|x rows IH]; intros m; cbn [foldl map In]; [split; [by right|by intros [[]|?]]|].
  destruct (IH (mset (s_name x) x m)) as [IH1 IH2]. split.
  - intros r [[Hin Hr]|Hr]%IH1; [by left; split; [right|]|].
    destruct (decide (name = s_name x)) as [->|Hne].
    + rewrite mget_mset in Hr. injection Hr as <-. by left; split; [left|].
    + rewrite mget_mset_ne in Hr by done. by right.
  - intros H. apply IH2. destruct (decide (name = s_name x)) as [->|Hne].
    + right. rewrite mget_mset. by eexists.
    + rewrite mget_mset_ne by done. destruct H as [[?|?]|?]; [congruence|by left|by right].
Qed.

Lemma row_by_name_some name rows r : row_by_name name rows = Some r -> In r rows /\ s_name r = name.
Proof. intros [?|?]%(proj1 (row_by_name_fold name rows [])); done. Qed.

Lemma row_by_name_iff name rows : is_Some (row_by_name name rows) <-> In name (map s_name rows).
Proof.
  split; [|intros H; apply row_by_name_fold; by left].
  intros [r [Hin <-]%row_by_name_some]. by apply in_map.
Qed.

Lemma is_some_iff {A} (o : option A) : is_some o = true <-> is_Some o.
Proof. destruct o; cbn; split; try done; by eexists. Qed.

Lemma model_row_name srows drows n r :
  model_row srows drows n = Some r ->
  s_name (displayed r) = n /\ draft r = row_by_name n drows /\ saved r = row_by_name n srows
  /\ isDraftChanged r = negb (str_eqb (getSnapshotSignature (saved r)) (getSnapshotSignature (draft r)))
  /\ isDraftDeleted r = (is_some (saved r) && negb (is_some (draft r)))
  /\ isDraftNew r = (negb (is_some (saved r)) && is_some (draft r)).
Proof.
  unfold model_row. destruct (row_by_name n srows) as [s|] eqn:Es; destruct (row_by_name n drows) as [d|] eqn:Ed;
    intros [= <-]; cbn [displayed draft saved isDraftChanged isDraftDeleted isDraftNew];
    repeat (split; [first [by apply row_by_name_some in Es as [_ ?]|by apply row_by_name_some in Ed as [_ ?]|done]|]);
    try done; by apply row_by_name_some in Ed as [_ ?].
Qed.

Lemma omap_In {A B} (f : A -> option B) l y : In y (omap f l) <-> exists x, In x l /\ f x = Some y.
Proof. rewrite <- list_elem_of_In, list_elem_of_omap. setoid_rewrite list_elem_of_In. done. Qed.

(** The editor lists exactly the models of the draft, each row pairing
    the draft with what is saved: a model only the draft has is marked as new,
    one whose draft differs from what is saved as changed, and one only the
    saved options have is not listed. *)
Theorem editor_lists_draft lc savedTexts draftTexts srows drows :
  buildModelSnapshots savedTexts = Returns srows -> buildModelSnapshots draftTexts = Returns drows ->
  exists rows, editor_rows lc savedTexts draftTexts = Returns rows
    /\ (forall n, In n (map (fun r => s_name (displayed r)) rows) <-> In n (map s_name drows))
    /\ (forall r, In r rows ->
          draft r = row_by_name (s_name (displayed r)) drows /\ saved r = row_by_name (s_name (displayed r)) srows
          /\ (isDraftNew r = true <-> ~ In (s_name (displayed r)) (map s_name srows))
          /\ (isDraftChanged r = false <-> getSnapshotSignature (saved r) = getSnapshotSignature (draft r))).
Proof.
  intros Hs Hd. unfold editor_rows. rewrite Hs, Hd. cbn [obind]. eexists. split; [reflexivity|].
  set (names := uniq (_ ++ _)).
  assert (forall n, In n names <-> In n (map s_name srows) \/ In n (map s_name drows)) as Hnames.
  { intros n. unfold names. by rewrite uniq_In, in_app_iff, !uniq_In. }
  assert (forall r, In r (isort (fun a b => (lc (s_name (displayed a)) (s_name (displayed b)) <=? 0)%Z)
             (List.filter (fun r => negb (isDraftDeleted r)) (omap (model_row srows drows) names))) <->
            exists n, In n names /\ model_row srows drows n = Some r /\ isDraftDeleted r = false) as Hin.
  { intros r. rewrite isort_In, filter_In, omap_In, negb_true_iff.
    split; [intros [(n & ? & ?) ?]; eauto|intros (n & ? & ? & ?); eauto]. }
  split.
  - intros n. rewrite in_map_iff. split.
    + intros (r & Hr & (m & Hm & Hrow & Hdel)%Hin). pose proof (model_row_name _ _ _ _ Hrow) as (Hnm & Hdr & Hsv & _ & Hde & _).
      rewrite Hnm in Hr. subst m. rewrite Hde, Hdr, Hsv in Hdel. apply row_by_name_iff.
      unfold model_row in Hrow. destruct (row_by_name n drows) eqn:Ed; [by eexists|].
      by destruct (row_by_name n srows) eqn:Es.
    + intros Hn. pose proof Hn as [d Hdn]%row_by_name_iff.
      destruct (model_row srows drows n) as [r|] eqn:Er.
      2:{ unfold model_row in Er. rewrite Hdn in Er. by destruct (row_by_name n srows). }
      pose proof (model_row_name _ _ _ _ Er) as (Hnm & Hdr & Hsv & _ & Hde & _).
      exists r. split; [done|]. apply Hin. exists n. split; [apply Hnames; by right|]. split; [done|].
      rewrite Hde, Hdr, Hdn. by rewrite andb_false_r.
  - intros r (m & Hm & Hrow & Hdel)%Hin. pose proof (model_row_name _ _ _ _ Hrow) as (Hnm & Hdr & Hsv & Hch & Hde & Hnew).
    rewrite Hnm. split; [done|]. split; [done|]. split.
    + rewrite Hnew, andb_true_iff, negb_true_iff, <- not_true_iff_false, !is_some_iff, Hsv, row_by_name_iff.
      split; [tauto|]. intros Hns. split; [done|]. rewrite Hdr, row_by_name_iff.
      apply Hnames in Hm. tauto.
    + rewrite Hch, negb_false_iff. apply str_eqb_eq.
Qed.

Lemma editor_lists_draft_witness :
  exists srows rows, buildModelSnapshots sample_texts = Returns srows
    /\ editor_rows (fun _ _ => 0%Z) sample_texts sample_texts = Returns rows
    /\ (forall n, In n (map (fun r => s_name (displayed r)) rows) <-> In n (map s_name srows)).
Proof.
  destruct (buildModelSnapshots sample_texts) as [srows|] eqn:E; [|vm_compute in E; discriminate].
  destruct (editor_lists_draft (fun _ _ => 0%Z) sample_texts sample_texts srows srows E E) as (rows & H1 & H2 & _).
  exists srows, rows. exact (conj eq_refl (conj H1 H2)).
Defined.

(** ** Signatures *)

(** The fields a signature is made of. *)
Definition signature_fields (s : ModelPricingSnapshot) : list jsstr :=
  [s_price s; s_ratio s; s_cacheRatio s; s_createCacheRatio s; s_completionRatio s; s_imageRatio s;
   s_audioRatio s; s_audioCompletionRatio s; str_or (s_billingMode s) (js "per-token");
   default [] (s_billingExpr s); default [] (s_requestRuleExpr s)].

(** A draft is marked as changed exactly when a price, a ratio, the mode
    or the expression of the model differs: signatures are equal only when
    every field is, whatever characters the fields hold. *)
Theorem signature_exact a b :
  forallb units (signature_fields a) = true -> forallb units (signature_fields b) = true ->
  getSnapshotSignature (Some a) = getSnapshotSignature (Some b) <-> signature_fields a = signature_fields b.
Proof.
  intros Ha Hb. split.
  - intros H. apply (f_equal parse) in H. unfold getSnapshotSignature in H.
    rewrite !parse_stringify in H.
    + injection H. intros. unfold signature_fields. congruence.
    + unfold signature_fields in Hb. cbn [forallb] in Hb. cbn [printable forallb map fst].
      change (distinct _) with true. cbn [andb].
      rewrite !andb_true_iff in *. intuition.
    + unfold signature_fields in Ha. cbn [forallb] in Ha. cbn [printable forallb map fst].
      change (distinct _) with true. cbn [andb].
      rewrite !andb_true_iff in *. intuition.
  - unfold signature_fields. intros [= H1 H2 H3 H4 H5 H6 H7 H8 H9 H10 H11].
    unfold getSnapshotSignature. by rewrite H1, H2, H3, H4, H5, H6, H7, H8, H9, H10, H11.
Qed.
