(* ===== verification/Sidebar.v ===== *)
(** * The sidebar and permissions

    Model of src/web/default/src/hooks/use-sidebar-data.ts, use-sidebar-config.ts
    and use-sidebar-view.ts, of lib/roles.ts and of lib/admin-permissions.ts:
    which entries of the navigation a user sees; and of the nested view of the
    system settings (components/layout/lib/sidebar-view-registry.ts,
    config/system-settings.config.ts and the section registries of
    features/system-settings).  Titles are passed through the translation
    function [t]; icons, badges and the label of the link back are left out. *)

From S2P Require Import Prelude JsStr JsNum JsArray JsJson.

(** ** Roles *)

Definition ROLE_GUEST : Z := 0.
Definition ROLE_USER : Z := 1.
Definition ROLE_ADMIN : Z := 10.
Definition ROLE_SUPER_ADMIN : Z := 100.

Definition getRoleLabelKey (role : option Z) : jsstr :=
  match role with
  | Some r => if (r =? ROLE_SUPER_ADMIN)%Z then js "Super Admin"
              else if (r =? ROLE_ADMIN)%Z then js "Admin"
              else if (r =? ROLE_USER)%Z then js "User"
              else js "Guest"
  | None => js "Guest"
  end.

(** ** Navigation items *)

Record NavSub := mkSub { sub_title : jsstr; sub_url : jsstr }.

Inductive NavKind :=
| NavLink (url : jsstr) (configUrls : option (list jsstr))
| NavCollapsible (items : list NavSub)
| NavChatPresets.

Record NavItem := mkItem { title : jsstr; kind : NavKind; requiredRole : option Z }.
Record NavGroup := mkGroup { group_id : option jsstr; group_title : jsstr; items : list NavItem }.

(** ** use-sidebar-data.ts *)

Section Data.
  Variable t : jsstr -> jsstr.

Definition link (name url : jsstr) : NavItem := mkItem (t name) (NavLink url None) None.

Definition useSidebarData : list NavGroup :=
  [mkGroup (Some (js "chat")) (t (js "Chat"))
     [link (js "Playground") (js "/playground"); mkItem (t (js "Chat")) NavChatPresets None];
   mkGroup (Some (js "general")) (t (js "General"))
     [link (js "Overview") (js "/dashboard/overview");
      link (js "Dashboard") (js "/dashboard/models");
      link (js "API Keys") (js "/keys");
      link (js "Usage Logs") (js "/usage-logs/common");
      mkItem (t (js "Task Logs"))
        (NavLink (js "/usage-logs/task") (Some [js "/usage-logs/drawing"; js "/usage-logs/task"])) None];
   mkGroup (Some (js "personal")) (t (js "Personal"))
     [link (js "Wallet") (js "/wallet"); link (js "Profile") (js "/profile")];
   mkGroup (Some (js "admin")) (t (js "Admin"))
     [link (js "Channels") (js "/channels");
      link (js "Models") (js "/models/metadata");
      link (js "Users") (js "/users");
      link (js "Redemption Codes") (js "/redemption-codes");
      link (js "Subscriptions") (js "/subscriptions");
      mkItem (t (js "System Info")) (NavLink (js "/system-info") None) (Some ROLE_SUPER_ADMIN);
      link (js "System Settings") (js "/system-settings/site")]].

End Data.

(** ** use-sidebar-config.ts *)

Definition DEFAULT_SIDEBAR_MODULES : list (jsstr * list (jsstr * json)) :=
  let on ks := map (fun k => (k, JBool true)) ks in
  [(js "chat", on [js "enabled"; js "playground"; js "chat"]);
   (js "console", on [js "enabled"; js "detail"; js "token"; js "log"; js "midjourney"; js "task"]);
   (js "personal", on [js "enabled"; js "topup"; js "personal"]);
   (js "admin", on [js "enabled"; js "channel"; js "models"; js "redemption"; js "user"; js "setting"; js "subscription"])].

Definition default_config : json :=
  JObj (map (fun p => (p.1, JObj p.2)) DEFAULT_SIDEBAR_MODULES).

(** The own enumerable properties that a spread copies. *)
Definition spread_members (v : json) : list (jsstr * json) :=
  match v with
  | JObj l => l
  | JArr l => imap (fun i x => (digits_of (Z.of_nat i), x)) l
  | JStr s => imap (fun i c => (digits_of (Z.of_nat i), JStr [c])) s
  | _ => []
  end.

(** [{ ...a, ...b }]. *)
Definition spread2 (a b : list (jsstr * json)) : list (jsstr * json) :=
  foldl (fun l p => obj_set p.1 p.2 l) a b.

(** One section of the merge.  Values of JSON are never [undefined], so the
    loop that fills undefined modules changes nothing. *)
Definition merge_section (merged : list (jsstr * json)) (d : jsstr * list (jsstr * json))
    : list (jsstr * json) :=
  match jfield d.1 (JObj merged) with
  | Some existing =>
      if json_truthy existing then obj_set d.1 (JObj (spread2 d.2 (spread_members existing))) merged
      else obj_set d.1 (JObj d.2) merged
  | None => obj_set d.1 (JObj d.2) merged
  end.

Definition mergeWithDefaultSidebarModules (config : json) : json :=
  JObj (foldl merge_section (spread2 [] (spread_members config)) DEFAULT_SIDEBAR_MODULES).

Definition URL_TO_CONFIG_MAP : list (jsstr * (jsstr * jsstr)) :=
  [(js "/playground", (js "chat", js "playground"));
   (js "/dashboard", (js "console", js "detail"));
   (js "/dashboard/overview", (js "console", js "detail"));
   (js "/dashboard/models", (js "console", js "detail"));
   (js "/dashboard/users", (js "console", js "detail"));
   (js "/keys", (js "console", js "token"));
   (js "/usage-logs", (js "console", js "log"));
   (js "/usage-logs/common", (js "console", js "log"));
   (js "/usage-logs/drawing", (js "console", js "midjourney"));
   (js "/usage-logs/task", (js "console", js "task"));
   (js "/wallet", (js "personal", js "topup"));
   (js "/profile", (js "personal", js "personal"));
   (js "/channels", (js "admin", js "channel"));
   (js "/models", (js "admin", js "models"));
   (js "/models/metadata", (js "admin", js "models"));
   (js "/models/deployments", (js "admin", js "models"));
   (js "/users", (js "admin", js "user"));
   (js "/redemption-codes", (js "admin", js "redemption"));
   (js "/subscriptions", (js "admin", js "subscription"));
   (js "/system-settings", (js "admin", js "setting"));
   (js "/system-settings/site", (js "admin", js "setting"))].

Definition blank (value : option jsstr) : bool :=
  match value with None => true | Some s => negb (truthy (trim s)) end.

Definition parseSidebarConfig (value : option jsstr) : json :=
  if blank value then default_config
  else match parse (default [] value) with
       | Some v => mergeWithDefaultSidebarModules v
       | None => default_config
       end.

(** [None] is the [null] that means not to narrow. *)
Definition parseUserSidebarConfig (value : option jsstr) : option json :=
  if blank value then None
  else match parse (default [] value) with
       | Some (JObj l) => Some (JObj l)
       | Some (JArr l) => Some (JArr l)
       | _ => None
       end.

Definition truthy_field (k : jsstr) (v : json) : bool :=
  match jfield k v with Some x => json_truthy x | None => false end.
Definition is_bool (k : jsstr) (v : json) (b : bool) : bool :=
  match jfield k v with Some (JBool c) => Bool.eqb b c | _ => false end.

(** [section && section.enabled && section[module] === true]. *)
Definition adminAllowed (adminConfig : json) (section module : jsstr) : bool :=
  match jfield section adminConfig with
  | Some s => json_truthy s && truthy_field (js "enabled") s && is_bool module s true
  | None => false
  end.

(** The section or the module is set to [false]. *)
Definition userHides (userConfig : option json) (section module : jsstr) : bool :=
  match userConfig with
  | None => false
  | Some u =>
      match jfield section u with
      | Some s => json_truthy s && (is_bool (js "enabled") s false || is_bool module s false)
      | None => false
      end
  end.

Section Config.
  Variable adminConfig : json.
  Variable userConfig : option json.

Definition isModuleEnabled (url : jsstr) : bool :=
  match mget url URL_TO_CONFIG_MAP with
  | None => true
  | Some (section, module) =>
      if negb (adminAllowed adminConfig section module) then false
      else negb (userHides userConfig section module)
  end.

Definition isNavItemVisible (item : NavItem) : bool :=
  match kind item with
  | NavChatPresets =>
      if negb (adminAllowed adminConfig (js "chat") (js "chat")) then false
      else negb (userHides userConfig (js "chat") (js "chat"))
  | NavLink url configUrls =>
      if truthy url then existsb isModuleEnabled (default [url] configUrls) else true
  | NavCollapsible subs => existsb (fun s => isModuleEnabled (sub_url s)) subs
  end.

Definition filter_subs (item : NavItem) : NavItem :=
  match kind item with
  | NavCollapsible subs =>
      mkItem (title item) (NavCollapsible (List.filter (fun s => isModuleEnabled (sub_url s)) subs)) (requiredRole item)
  | _ => item
  end.

Definition filterNavItems (l : list NavItem) : list NavItem :=
  List.filter isNavItemVisible (map filter_subs l).

Definition filterNavGroups (groups : list NavGroup) : list NavGroup :=
  List.filter (fun g => negb (Nat.eqb (length (items g)) 0))
    (map (fun g => mkGroup (group_id g) (group_title g) (filterNavItems (items g))) groups).

End Config.

(** What the hooks read: the option of the server, and of the user the
    permission to configure the sidebar and the stored modules. *)
Record SidebarInput := mkInput {
  SidebarModulesAdmin : option jsstr;
  sidebar_settings : option bool;
  sidebar_modules : option jsstr
}.

Definition user_config (i : SidebarInput) : option json :=
  match sidebar_settings i with
  | Some false => None
  | _ => parseUserSidebarConfig (sidebar_modules i)
  end.

Definition useSidebarConfig (i : SidebarInput) (navGroups : list NavGroup) : list NavGroup :=
  filterNavGroups (parseSidebarConfig (SidebarModulesAdmin i)) (user_config i) navGroups.

Definition useIsSidebarModuleVisible (i : SidebarInput) (url : jsstr) : bool :=
  isModuleEnabled (parseSidebarConfig (SidebarModulesAdmin i)) (user_config i) url.

(** ** use-sidebar-view.ts: the root navigation *)

Definition role_allows (role : Z) (item : NavItem) : bool :=
  match requiredRole item with None => true | Some r => (r <=? role)%Z end.

Definition rootNavGroups (userRole : option Z) (configFilteredRoot : list NavGroup) : list NavGroup :=
  let role := default ROLE_GUEST userRole in
  let isAdmin := (ROLE_ADMIN <=? role)%Z in
  map (fun g => mkGroup (group_id g) (group_title g) (List.filter (role_allows role) (items g)))
    (List.filter (fun g => if bool_decide (group_id g = Some (js "admin")) then isAdmin else true)
       configFilteredRoot).

(** ** The nested view of the system settings

    The sections of each settings page, as ids and titles. *)

Definition SITE_SECTIONS : list (jsstr * jsstr) :=
  [(js "system-info", js "System Information");
   (js "notice", js "System Notice");
   (js "header-navigation", js "Header navigation");
   (js "sidebar-modules", js "Sidebar modules")].

Definition AUTH_SECTIONS : list (jsstr * jsstr) :=
  [(js "basic-auth", js "Basic Authentication");
   (js "oauth", js "OAuth Integrations");
   (js "passkey", js "Passkey Authentication");
   (js "bot-protection", js "Bot Protection");
   (js "custom-oauth", js "Custom OAuth")].

Definition BILLING_SECTIONS : list (jsstr * jsstr) :=
  [(js "quota", js "Quota Settings");
   (js "currency", js "Currency & Display");
   (js "model-pricing", js "Model Pricing");
   (js "group-pricing", js "Group Pricing");
   (js "payment", js "Payment Gateway");
   (js "checkin", js "Check-in Rewards")].

Definition MODELS_SECTIONS : list (jsstr * jsstr) :=
  [(js "global", js "Global Model Configuration");
   (js "routing-reliability", js "Routing Reliability");
   (js "gemini", js "Gemini");
   (js "claude", js "Claude");
   (js "grok", js "Grok");
   (js "channel-affinity", js "Channel Affinity");
   (js "model-deployment", js "Model Deployment")].

Definition SECURITY_SECTIONS : list (jsstr * jsstr) :=
  [(js "rate-limit", js "Rate Limiting");
   (js "sensitive-words", js "Sensitive Words");
   (js "ssrf", js "SSRF Protection");
   (js "token-limits", js "Token Limits")].

Definition CONTENT_SECTIONS : list (jsstr * jsstr) :=
  [(js "dashboard", js "Data Dashboard");
   (js "announcements", js "Announcements");
   (js "api-info", js "API Addresses");
   (js "faq", js "FAQ");
   (js "uptime-kuma", js "Uptime Kuma");
   (js "chat", js "Chat Presets");
   (js "drawing", js "Drawing")].

Definition OPERATIONS_SECTIONS : list (jsstr * jsstr) :=
  [(js "behavior", js "System Behavior");
   (js "alerts", js "Monitoring & Alerts");
   (js "email", js "SMTP Email");
   (js "worker", js "Worker Proxy");
   (js "logs", js "Log Maintenance");
   (js "performance", js "Performance");
   (js "update-checker", js "System maintenance")].

(** [getSectionNavItems] of a registry whose URLs are paths. *)
Definition getSectionNavItems (t : jsstr -> jsstr) (basePath : jsstr) (sections : list (jsstr * jsstr)) : list NavSub :=
  map (fun s => mkSub (t s.2) (basePath ++ js "/" ++ s.1)) sections.

Definition settings_item (t : jsstr -> jsstr) (name dir : string) (sections : list (jsstr * jsstr)) : NavItem :=
  mkItem (t (js name)) (NavCollapsible (getSectionNavItems t (js "/system-settings/" ++ js dir) sections)) None.

Definition getSystemSettingsNavGroups (t : jsstr -> jsstr) : list NavGroup :=
  [mkGroup (Some (js "system-administration")) (t (js "System Administration"))
    [settings_item t "Site & Branding" "site" SITE_SECTIONS;
     settings_item t "Authentication" "auth" AUTH_SECTIONS;
     settings_item t "Billing & Payment" "billing" BILLING_SECTIONS;
     settings_item t "Models & Routing" "models" MODELS_SECTIONS;
     settings_item t "Security & Limits" "security" SECURITY_SECTIONS;
     settings_item t "Console Content" "content" CONTENT_SECTIONS;
     settings_item t "Operations" "operations" OPERATIONS_SECTIONS]].

(** A nested view: its id, the test of its path pattern, the page it leads back
    to, and its groups. *)
Record SidebarView := mkView {
  view_id : jsstr; pathPattern : jsstr -> bool; parent_to : jsstr; getNavGroups : (jsstr -> jsstr) -> list NavGroup
}.

(** [/^\/system-settings(\/|$)/]. *)
Definition settings_pattern (pathname : jsstr) : bool :=
  startsWith pathname (js "/system-settings")
  && match drop (length (js "/system-settings")) pathname with [] => true | c :: _ => (c =? 47)%N end.

Definition SYSTEM_SETTINGS_VIEW : SidebarView :=
  mkView (js "system-settings") settings_pattern (js "/dashboard/overview") getSystemSettingsNavGroups.
Definition SIDEBAR_VIEWS : list SidebarView := [SYSTEM_SETTINGS_VIEW].

Definition resolveSidebarView (pathname : jsstr) : option SidebarView :=
  find (fun view => pathPattern view pathname) SIDEBAR_VIEWS.

Definition getNavGroupsForPath (pathname : jsstr) (t : jsstr -> jsstr) : option (list NavGroup) :=
  (fun view => getNavGroups view t) <$> resolveSidebarView pathname.

Record ResolvedSidebarView := mkResolved { rv_key : jsstr; rv_view : option SidebarView; rv_navGroups : list NavGroup }.
Definition ROOT_VIEW_KEY : jsstr := js "__root".

(** The root navigation as the hooks filter it. *)
Definition root_navigation (t : jsstr -> jsstr) (userRole : option Z) (i : SidebarInput) : list NavGroup :=
  rootNavGroups userRole (useSidebarConfig i (useSidebarData t)).

Definition useSidebarView (t : jsstr -> jsstr) (pathname : jsstr) (userRole : option Z) (i : SidebarInput) : ResolvedSidebarView :=
  match resolveSidebarView pathname with
  | Some view => mkResolved (view_id view) (Some view) (getNavGroups view t)
  | None => mkResolved ROOT_VIEW_KEY None (root_navigation t userRole i)
  end.

(** ** admin-permissions.ts *)

Definition ActionMap := list (jsstr * bool).
Definition AdminPermissionMatrix := list (jsstr * ActionMap).

Record PermissionResourceDef := mkResource { resource : jsstr; actions : list jsstr }.
Record PermissionRoleDef := mkRole { role_key : jsstr; grants : AdminPermissionMatrix }.
Record PermissionCatalog := mkCatalog { resources : list PermissionResourceDef; roles : list PermissionRoleDef }.

Record AuthUser := mkUser { user_role : Z; admin_permissions : option AdminPermissionMatrix }.

(** [m?.[resource]?.[action]]. *)
Definition granted (m : AdminPermissionMatrix) (r a : jsstr) : option bool :=
  match mget r m with Some am => mget a am | None => None end.

Definition hasPermission (user : option AuthUser) (r a : jsstr) : bool :=
  match user with
  | None => false
  | Some u =>
      if (user_role u =? ROLE_SUPER_ADMIN)%Z then true
      else match admin_permissions u with
           | Some m => bool_decide (granted m r a = Some true)
           | None => false
           end
  end.

Definition ADMIN_ROLE_KEY : jsstr := js "admin".

Definition roleGrants (catalog : PermissionCatalog) (roleKey : jsstr) : AdminPermissionMatrix :=
  match find (fun r => str_eqb (role_key r) roleKey) (roles catalog) with Some r => grants r | None => [] end.

Definition normalizeAdminPermissions (value : option AdminPermissionMatrix) (catalog : PermissionCatalog)
    : AdminPermissionMatrix :=
  let baseline := roleGrants catalog ADMIN_ROLE_KEY in
  foldl (fun normalized r =>
           mset (resource r)
             (foldl (fun am a =>
                       mset a (match granted (default [] value) (resource r) a with
                               | Some b => b
                               | None => default false (granted baseline (resource r) a)
                               end) am) [] (actions r))
             normalized) [] (resources catalog).
