(* ===== verification/SidebarProps.v ===== *)
(** * The sidebar shows exactly what is allowed

    The entries of the root navigation, their roles and their switches are
    written out as a table, and the stored options are read by a description of
    their own; the nested filters of the hooks keep exactly the entries of the
    table that may be seen, and the settings have their own view.  The user's
    overlay only removes entries. *)

From S2P Require Import Prelude JsStr JsNum JsArray JsJson Sidebar.

(** ** Entries *)

(** What a user can follow: a link, the chat presets, or a link inside a
    collapsible item. *)
Inductive Entry :=
| ELink (url : jsstr) (configUrls : option (list jsstr))
| EChat
| ESub (s : NavSub).

Definition item_entries (item : NavItem) : list Entry :=
  match kind item with
  | NavLink url configUrls => [ELink url configUrls]
  | NavChatPresets => [EChat]
  | NavCollapsible subs => map ESub subs
  end.

(** The entries of a navigation, each with its group and the role it needs. *)
Definition entries (groups : list NavGroup) : list (option jsstr * option Z * Entry) :=
  flat_map (fun g => flat_map (fun item => map (fun e => (group_id g, requiredRole item, e)) (item_entries item)) (items g)) groups.

(** The modules decide: an unmapped URL is open, a mapped one needs the
    administrator's consent and no refusal of the user. *)
Definition module_open (a : json) (u : option json) (section module : jsstr) : bool :=
  adminAllowed a section module && negb (userHides u section module).

Definition url_open (a : json) (u : option json) (url : jsstr) : bool :=
  match mget url URL_TO_CONFIG_MAP with
  | None => true
  | Some (section, module) => module_open a u section module
  end.

Definition entry_open (a : json) (u : option json) (e : Entry) : bool :=
  match e with
  | EChat => module_open a u (js "chat") (js "chat")
  | ESub s => url_open a u (sub_url s)
  | ELink url configUrls => negb (truthy url) || existsb (url_open a u) (default [url] configUrls)
  end.

Definition role_open (role : Z) (g : option jsstr) (required : option Z) : bool :=
  (negb (bool_decide (g = Some (js "admin"))) || (ROLE_ADMIN <=? role)%Z)
  && match required with None => true | Some r => (r <=? role)%Z end.

(** ** Filters and flattening *)

Lemma filter_flat_map {A B} (p : B -> bool) (f : A -> list B) l :
  List.filter p (flat_map f l) = flat_map (fun x => List.filter p (f x)) l.
Proof. induction l as [|x l IH]; [done|]. cbn [flat_map]. by rewrite List.filter_app, IH. Qed.

Lemma flat_map_map {A B C} (f : B -> list C) (g : A -> B) l :
  flat_map f (map g l) = flat_map (fun x => f (g x)) l.
Proof. induction l as [|x l IH]; [done|]. cbn [flat_map map]. by rewrite IH. Qed.

Lemma flat_map_filter {A B} (p : A -> bool) (f : A -> list B) l :
  flat_map f (List.filter p l) = flat_map (fun x => if p x then f x else []) l.
Proof. induction l as [|x l IH]; [done|]. cbn [flat_map List.filter]. destruct (p x); cbn [flat_map]; by rewrite IH. Qed.

Lemma flat_map_ext_all {A B} (f g : A -> list B) l : (forall x, f x = g x) -> flat_map f l = flat_map g l.
Proof. intros H. induction l as [|x l IH]; [done|]. cbn [flat_map]. by rewrite H, IH. Qed.

Lemma filter_map_const {A B} (p : B -> bool) (f : A -> B) l :
  List.filter p (map f l) = map f (List.filter (fun x => p (f x)) l).
Proof. induction l as [|x l IH]; [done|]. cbn [map List.filter]. destruct (p (f x)); cbn [map]; by rewrite IH. Qed.

Lemma filter_filter {A} (p q : A -> bool) l :
  List.filter p (List.filter q l) = List.filter (fun x => q x && p x) l.
Proof.
  induction l as [|x l IH]; [done|]. cbn [List.filter]. destruct (q x); cbn [List.filter andb]; [|done].
  by rewrite IH.
Qed.

Lemma filter_ext_all {A} (p q : A -> bool) l : (forall x, p x = q x) -> List.filter p l = List.filter q l.
Proof. intros H. induction l as [|x l IH]; [done|]. cbn [List.filter]. by rewrite H, IH. Qed.

Lemma filter_const {A} (b : bool) (l : list A) : List.filter (fun _ => b) l = if b then l else [].
Proof. induction l as [|x l IH]; cbn [List.filter]; [by destruct b|]. rewrite IH. by destruct b. Qed.

(** ** The filters of the hooks *)

Lemma module_enabled a u url : isModuleEnabled a u url = url_open a u url.
Proof.
  unfold isModuleEnabled, url_open, module_open. destruct (mget url URL_TO_CONFIG_MAP) as [[s m]|]; [|done].
  by destruct (adminAllowed a s m).
Qed.

Lemma modules_enabled a u l : existsb (isModuleEnabled a u) l = existsb (url_open a u) l.
Proof. induction l as [|x l IH]; [done|]. cbn [existsb]. by rewrite module_enabled, IH. Qed.

(** One item: it and its sub-items are kept as its entries are open. *)
Lemma item_filtered a u item :
  (if isNavItemVisible a u (filter_subs a u item) then item_entries (filter_subs a u item) else [])
  = List.filter (entry_open a u) (item_entries item).
Proof.
  destruct item as [ti [url cfgs|subs|] rr]; unfold filter_subs, isNavItemVisible, item_entries;
    cbn [kind title requiredRole List.filter entry_open].
  - destruct (truthy url); cbn [negb orb]; [|done]. by rewrite modules_enabled.
  - rewrite filter_map_const. cbn [entry_open].
    rewrite (filter_ext_all (fun s => isModuleEnabled a u (sub_url s)) (fun s => url_open a u (sub_url s)))
      by (intros s; apply module_enabled).
    destruct (existsb _ _) eqn:E; [done|].
    destruct (List.filter (fun s => url_open a u (sub_url s)) subs) as [|s l] eqn:El; [done|].
    assert (url_open a u (sub_url s) = true) as Hs.
    { assert (In s (s :: l)) as Hin by (by left). rewrite <- El in Hin. by apply filter_In in Hin as [_ ?]. }
    cbn [existsb] in E. by rewrite module_enabled, Hs in E.
  - unfold module_open. by destruct (adminAllowed a _ _).
Qed.

Lemma filter_subs_role a u item : requiredRole (filter_subs a u item) = requiredRole item.
Proof. by destruct item as [ti [] rr]. Qed.

Lemma items_filtered a u (g : option jsstr) l :
  flat_map (fun item => map (fun e => (g, requiredRole item, e)) (item_entries item)) (filterNavItems a u l)
  = List.filter (fun x => entry_open a u x.2)
      (flat_map (fun item => map (fun e => (g, requiredRole item, e)) (item_entries item)) l).
Proof.
  unfold filterNavItems. rewrite flat_map_filter, flat_map_map, filter_flat_map.
  apply flat_map_ext_all. intros item. rewrite filter_subs_role, filter_map_const. cbn [snd].
  rewrite (filter_ext_all _ (entry_open a u)) by done. rewrite <- item_filtered.
  by destruct (isNavItemVisible a u (filter_subs a u item)).
Qed.

Lemma config_entries a u groups :
  entries (filterNavGroups a u groups) = List.filter (fun x => entry_open a u x.2) (entries groups).
Proof.
  unfold entries, filterNavGroups. rewrite flat_map_filter, flat_map_map, filter_flat_map.
  apply flat_map_ext_all. intros g. cbn [group_id items]. rewrite <- items_filtered.
  by destruct (filterNavItems a u (items g)).
Qed.

Lemma role_item role (g : option jsstr) item :
  List.filter (fun x => role_open role x.1.1 x.1.2) (map (fun e => (g, requiredRole item, e)) (item_entries item))
  = if role_open role g (requiredRole item) then map (fun e => (g, requiredRole item, e)) (item_entries item) else [].
Proof.
  rewrite filter_map_const. cbn [fst snd]. rewrite filter_const.
  by destruct (role_open role g (requiredRole item)).
Qed.

Lemma flat_map_nil {A B} (l : list A) : flat_map (fun _ => @nil B) l = [].
Proof. by induction l. Qed.

Lemma role_entries role groups :
  entries (rootNavGroups role groups)
  = List.filter (fun x => role_open (default ROLE_GUEST role) x.1.1 x.1.2) (entries groups).
Proof.
  unfold entries, rootNavGroups. rewrite flat_map_map, flat_map_filter, filter_flat_map.
  apply flat_map_ext_all. intros g. cbn [group_id items]. rewrite filter_flat_map, flat_map_filter.
  rewrite (flat_map_ext_all _ _ (items g) (role_item (default ROLE_GUEST role) (group_id g))).
  unfold role_open. destruct (bool_decide _); cbn [negb orb]; [|done].
  destruct (ROLE_ADMIN <=? _)%Z; [done|]. cbn [andb]. by rewrite flat_map_nil.
Qed.

(** ** The theorems *)

Lemma sidebar_entries t role i :
  entries (root_navigation t role i)
  = List.filter (fun x => role_open (default ROLE_GUEST role) x.1.1 x.1.2
                          && entry_open (parseSidebarConfig (SidebarModulesAdmin i)) (user_config i) x.2)
      (entries (useSidebarData t)).
Proof.
  unfold root_navigation, useSidebarConfig. rewrite role_entries, config_entries, filter_filter.
  apply filter_ext_all. intros x. apply andb_comm.
Qed.

(** ** What the stored configuration says

    The administrator's option read directly: a module is on unless its section
    has a member for it other than [true] or a falsy [enabled]; a section that
    is missing or falsy is on as a whole.  Of members with the same name the
    last one counts. *)

Definition last_field (k : jsstr) (v : json) : option json :=
  match v with JObj l => jfield k (JObj (rev l)) | _ => None end.

Definition stored (value : option jsstr) : option json := if blank value then None else parse (default [] value).

Definition admin_on (doc : option json) (section module : jsstr) : bool :=
  match doc ≫= last_field section with
  | Some s =>
      negb (json_truthy s)
      || (match last_field (js "enabled") s with Some e => json_truthy e | None => true end
          && match last_field module s with Some (JBool b) => b | Some _ => false | None => true end)
  | None => true
  end.

(** The user's stored value read directly: only an explicit [false] hides. *)
Definition user_off (i : SidebarInput) (section module : jsstr) : bool :=
  if bool_decide (sidebar_settings i = Some false) then false
  else match stored (sidebar_modules i) ≫= jfield section with
       | Some s => is_bool (js "enabled") s false || is_bool module s false
       | None => false
       end.

Lemma find_app_last (k : jsstr) (l : list (jsstr * json)) p :
  jfield k (JObj (l ++ [p])) = match jfield k (JObj l) with Some v => Some v | None => if str_eqb p.1 k then Some p.2 else None end.
Proof.
  cbn [jfield]. induction l as [|q l IH]; cbn [app find]; [by destruct (str_eqb p.1 k)|]. by destruct (str_eqb q.1 k).
Qed.

Lemma jfield_spread k a b :
  jfield k (JObj (spread2 a b)) = match jfield k (JObj (rev b)) with Some v => Some v | None => jfield k (JObj a) end.
Proof.
  unfold spread2. revert a. induction b as [|p b IH]; intros a; [done|]. cbn [foldl rev]. rewrite IH, jfield_set, find_app_last.
  destruct (jfield k (JObj (rev b))); [done|]. by destruct (str_eqb p.1 k).
Qed.

Definition word (k : jsstr) : bool := match k with c :: _ => (57 <? c)%N | [] => false end.

Lemma digits_fuel_low f z acc : (0 <= z)%Z -> Forall (fun c => (c <= 57)%N) acc -> Forall (fun c => (c <= 57)%N) (digits_fuel f z acc).
Proof.
  revert z acc. induction f as [|f IH]; intros z acc Hz Ha; cbn [digits_fuel]; [done|]. cbv zeta.
  assert (Forall (fun c => (c <= 57)%N) (Z.to_N (z mod 10 + 48) :: acc)) as H.
  { constructor; [|done]. pose proof (Z.mod_pos_bound z 10). lia. }
  destruct (z <? 10)%Z; [exact H|]. apply IH; [apply Z.div_pos; lia|exact H].
Qed.

Lemma index_not_word n k : word k = true -> str_eqb (digits_of (Z.of_nat n)) k = false.
Proof.
  intros Hk. apply str_eqb_neq. intros <-. unfold digits_of in Hk.
  pose proof (digits_fuel_low (S (Z.to_nat (Z.log2 (Z.of_nat n)))) (Z.of_nat n) [] ltac:(lia) (List.Forall_nil _)) as H.
  destruct (digits_fuel _ _ _) as [|c l]; [done|]. apply Forall_cons_iff in H as [H _]. cbn in Hk. apply N.ltb_lt in Hk. lia.
Qed.

Lemma no_index_field {X} (f : X -> json) k l :
  word k = true -> jfield k (JObj (rev (imap (fun i x => (digits_of (Z.of_nat i), f x)) l))) = None.
Proof.
  intros Hk. destruct (jfield k _) as [v|] eqn:E; [|done]. exfalso. cbn [jfield] in E.
  destruct (find _ _) as [p|] eqn:Ef; [|done]. apply find_some in Ef as [Hin Hp].
  apply in_rev, list_elem_of_In, elem_of_lookup_imap in Hin as (i & x & -> & _). cbn [fst] in Hp.
  by rewrite index_not_word in Hp.
Qed.

(** Spreading a value makes available what its last members say. *)
Lemma stored_field k v : word k = true -> jfield k (JObj (rev (spread_members v))) = last_field k v.
Proof.
  intros Hk. destruct v as [| | |s|l|l]; try done; cbn [spread_members last_field].
  - by apply (no_index_field (fun c => JStr [c])).
  - by apply (no_index_field (fun x : json => x)).
Qed.

(** ** Merging with the defaults *)

Definition merged_section (d : list (jsstr * json)) (existing : option json) : json :=
  match existing with
  | Some e => if json_truthy e then JObj (spread2 d (spread_members e)) else JObj d
  | None => JObj d
  end.

Lemma merge_section_field k merged d :
  jfield k (JObj (merge_section merged d))
  = if str_eqb d.1 k then Some (merged_section d.2 (jfield k (JObj merged))) else jfield k (JObj merged).
Proof.
  unfold merge_section, merged_section. destruct (str_eqb d.1 k) eqn:E.
  - apply str_eqb_eq in E as <-. destruct (jfield d.1 (JObj merged)) as [e|]; [destruct (json_truthy e)|];
      by rewrite jfield_set, str_eqb_refl.
  - destruct (jfield d.1 (JObj merged)) as [e|]; [destruct (json_truthy e)|]; by rewrite jfield_set, E.
Qed.

Lemma merge_other k merged ds : (forall d, In d ds -> d.1 <> k) ->
  jfield k (JObj (foldl merge_section merged ds)) = jfield k (JObj merged).
Proof.
  revert merged. induction ds as [|d ds IH]; intros merged H; [done|]. cbn [foldl].
  rewrite IH by (intros x Hx; apply H; by right). rewrite merge_section_field.
  by rewrite (proj2 (str_eqb_neq d.1 k) (H d (or_introl eq_refl))).
Qed.

Lemma merge_field k mods merged ds : In (k, mods) ds -> NoDup (map fst ds) ->
  jfield k (JObj (foldl merge_section merged ds)) = Some (merged_section mods (jfield k (JObj merged))).
Proof.
  revert merged. induction ds as [|d ds IH]; intros merged Hin Hd; [done|]. cbn [foldl map] in *.
  apply NoDup_cons in Hd as [Hk Hd]. destruct Hin as [->|Hin].
  - rewrite merge_other, merge_section_field; cbn [fst snd]; [by rewrite str_eqb_refl|].
    intros x Hx He. apply Hk. cbn [fst]. rewrite <- He. by apply list_elem_of_In, in_map.
  - rewrite IH by done. rewrite merge_section_field. rewrite (proj2 (str_eqb_neq d.1 k)); [done|].
    intros He. apply Hk. rewrite He. apply list_elem_of_In, in_map_iff. by exists (k, mods).
Qed.

(** The sections with their modules, all on. *)
Definition known_module (section module : jsstr) : Prop :=
  exists mods, In (section, mods) DEFAULT_SIDEBAR_MODULES /\ word section = true /\ word module = true
    /\ jfield (js "enabled") (JObj mods) = Some (JBool true) /\ jfield module (JObj mods) = Some (JBool true).

Lemma default_sections : NoDup (map fst DEFAULT_SIDEBAR_MODULES).
Proof. apply (bool_decide_unpack _). vm_compute. exact I. Qed.

Lemma default_field section mods :
  In (section, mods) DEFAULT_SIDEBAR_MODULES -> jfield section default_config = Some (JObj mods).
Proof.
  intros H. unfold DEFAULT_SIDEBAR_MODULES in H. cbv zeta in H. repeat (destruct H as [[= <- <-]|H]; [reflexivity|]). done.
Qed.

Lemma admin_allowed_on value section module : known_module section module ->
  adminAllowed (parseSidebarConfig value) section module = admin_on (stored value) section module.
Proof.
  intros (mods & Hin & Hs & Hm & He & Hmod). unfold parseSidebarConfig, stored.
  assert (adminAllowed default_config section module = true) as Hdef.
  { unfold adminAllowed. rewrite (default_field section mods Hin). cbn [json_truthy andb].
    unfold truthy_field, is_bool. by rewrite He, Hmod. }
  destruct (blank value); [exact Hdef|]. destruct (parse (default [] value)) as [v|]; [|exact Hdef].
  cbn [mbind option_bind]. unfold adminAllowed, mergeWithDefaultSidebarModules.
  rewrite (merge_field section mods _ _ Hin default_sections), jfield_spread.
  change (jfield section (JObj [])) with (@None json). rewrite stored_field by done.
  unfold admin_on. cbn [mbind option_bind].
  destruct (last_field section v) as [s|]; cbn [merged_section].
  - destruct (json_truthy s); cbn [negb orb]; unfold truthy_field, is_bool; cbn [json_truthy andb].
    + rewrite !jfield_spread, !stored_field by done. rewrite He, Hmod.
      destruct (last_field (js "enabled") s) as [e|]; cbn [json_truthy andb]; [destruct (json_truthy e); [|done]; cbn [andb]|];
        destruct (last_field module s) as [[]|]; try done; by destruct b.
    + by rewrite He, Hmod.
  - unfold truthy_field, is_bool. by rewrite He, Hmod.
Qed.

Lemma user_hides_off i section module : userHides (user_config i) section module = user_off i section module.
Proof.
  assert (userHides (parseUserSidebarConfig (sidebar_modules i)) section module
    = match stored (sidebar_modules i) ≫= jfield section with
      | Some s => is_bool (js "enabled") s false || is_bool module s false
      | None => false
      end) as H.
  { unfold parseUserSidebarConfig, stored. destruct (blank (sidebar_modules i)); [done|].
    destruct (parse _) as [[]|]; try done. cbn [userHides mbind option_bind]. destruct (jfield section _) as [[]|]; try done;
      cbn [json_truthy andb is_bool jfield orb]; rewrite ?andb_false_r; by destruct (_ : bool). }
  unfold user_off, user_config. destruct (decide (sidebar_settings i = Some false)) as [E|E].
  - by rewrite bool_decide_true, E by done.
  - rewrite bool_decide_false by done. destruct (sidebar_settings i) as [[]|]; done.
Qed.

(** ** The navigation as it is meant *)

(** An entry of the root navigation: its group, what it opens, the role it
    needs, and the switches one of which must be on ([None] when it has none). *)
Record RootEntry := mkRoot {
  r_group : jsstr; r_entry : Entry; r_role : option Z; r_switches : option (list (jsstr * jsstr))
}.

Definition page (group url : string) (role : option Z) (switches : option (list (string * string))) : RootEntry :=
  mkRoot (js group) (ELink (js url) None) role (map (fun s => (js s.1, js s.2)) <$> switches).

Definition ROOT_ENTRIES : list RootEntry :=
  [page "chat" "/playground" None (Some [("chat", "playground")]%string);
   mkRoot (js "chat") EChat None (Some [(js "chat", js "chat")]);
   page "general" "/dashboard/overview" None (Some [("console", "detail")]%string);
   page "general" "/dashboard/models" None (Some [("console", "detail")]%string);
   page "general" "/keys" None (Some [("console", "token")]%string);
   page "general" "/usage-logs/common" None (Some [("console", "log")]%string);
   mkRoot (js "general") (ELink (js "/usage-logs/task") (Some [js "/usage-logs/drawing"; js "/usage-logs/task"])) None
     (Some [(js "console", js "midjourney"); (js "console", js "task")]);
   page "personal" "/wallet" None (Some [("personal", "topup")]%string);
   page "personal" "/profile" None (Some [("personal", "personal")]%string);
   page "admin" "/channels" (Some 10%Z) (Some [("admin", "channel")]%string);
   page "admin" "/models/metadata" (Some 10%Z) (Some [("admin", "models")]%string);
   page "admin" "/users" (Some 10%Z) (Some [("admin", "user")]%string);
   page "admin" "/redemption-codes" (Some 10%Z) (Some [("admin", "redemption")]%string);
   page "admin" "/subscriptions" (Some 10%Z) (Some [("admin", "subscription")]%string);
   page "admin" "/system-info" (Some 100%Z) None;
   page "admin" "/system-settings/site" (Some 10%Z) (Some [("admin", "setting")]%string)].

Definition switch_on (i : SidebarInput) (s : jsstr * jsstr) : bool :=
  admin_on (stored (SidebarModulesAdmin i)) s.1 s.2 && negb (user_off i s.1 s.2).

(** The role of a visitor without an account is 0. *)
Definition may_see (role : option Z) (i : SidebarInput) (e : RootEntry) : bool :=
  match r_role e with Some r => (r <=? default 0 role)%Z | None => true end
  && match r_switches e with Some l => existsb (switch_on i) l | None => true end.

(** The groups and entries of a navigation. *)
Definition shown (groups : list NavGroup) : list (option jsstr * Entry) := map (fun x => (x.1.1, x.2)) (entries groups).

Lemma is_bool_true k v : is_bool k v true = true -> jfield k v = Some (JBool true).
Proof. unfold is_bool. by destruct (jfield k v) as [[| [] | | | |]|]. Qed.

Lemma switches_known : Forall (fun e => forall l s, r_switches e = Some l -> In s l -> known_module s.1 s.2) ROOT_ENTRIES.
Proof.
  assert (forall section module mods, In (section, mods) DEFAULT_SIDEBAR_MODULES ->
    word section && word module && is_bool (js "enabled") (JObj mods) true && is_bool module (JObj mods) true = true ->
    known_module section module) as Hk.
  { intros section module mods Hin H. rewrite !andb_true_iff in H. destruct H as [[[H1 H2] H3%is_bool_true] H4%is_bool_true].
    by exists mods. }
  repeat (apply List.Forall_cons; [intros l s [= <-] Hs; cbn [In] in Hs; repeat (destruct Hs as [<-|Hs]; [|]); try done;
    (eapply Hk; [first [by left|right; by left|right; right; by left|right; right; right; by left]|reflexivity])|]).
  constructor.
Qed.
(** The entries of the navigation data, with the role of their group. *)
Definition root_entry_of (e : RootEntry) : option jsstr * option Z * Entry :=
  (Some (r_group e), if bool_decide (r_role e = Some 100%Z) then Some 100%Z else None, r_entry e).

Lemma data_entries t : entries (useSidebarData t) = map root_entry_of ROOT_ENTRIES.
Proof. reflexivity. Qed.

Lemma switch_open i s : known_module s.1 s.2 ->
  module_open (parseSidebarConfig (SidebarModulesAdmin i)) (user_config i) s.1 s.2 = switch_on i s.
Proof. intros H. unfold module_open, switch_on. by rewrite admin_allowed_on, user_hides_off. Qed.

(** What the code asks of an entry, by its switches. *)
Lemma entry_switches a u :
  Forall (fun e => entry_open a u (r_entry e)
    = match r_switches e with Some l => existsb (fun s => module_open a u s.1 s.2) l | None => true end) ROOT_ENTRIES.
Proof.
  repeat (apply List.Forall_cons; [unfold page; cbn [r_entry r_switches entry_open fmap option_fmap option_map map fst snd default from_option id];
    unfold url_open; try (vm_compute (truthy _)); cbn [negb orb existsb];
    repeat match goal with |- context [mget ?k URL_TO_CONFIG_MAP] => vm_compute (mget k URL_TO_CONFIG_MAP) end;
    cbn [existsb]; rewrite ?orb_false_r; reflexivity|]). constructor.
Qed.

Lemma entry_roles role :
  Forall (fun e => let x := root_entry_of e in
    role_open role x.1.1 x.1.2 = match r_role e with Some r => (r <=? role)%Z | None => true end) ROOT_ENTRIES.
Proof.
  repeat (apply List.Forall_cons; [unfold role_open; cbn -[Z.leb]; rewrite ?andb_true_r; try reflexivity|]); [|constructor].
  rewrite !bool_decide_true by done. cbn [negb orb]. apply eq_true_iff_eq. unfold ROLE_ADMIN. rewrite andb_true_iff, !Z.leb_le. lia.
Qed.

Lemma filter_map_In {A B} (p : B -> bool) (q : A -> bool) (f : A -> B) l :
  Forall (fun x => p (f x) = q x) l -> List.filter p (map f l) = map f (List.filter q l).
Proof. induction 1 as [|x l H Hl IH]; [done|]. cbn [map List.filter]. rewrite H. destruct (q x); cbn [map]; by rewrite IH. Qed.

Lemma root_shown t role i :
  shown (root_navigation t role i)
  = map (fun e => (Some (r_group e), r_entry e)) (List.filter (may_see role i) ROOT_ENTRIES).
Proof.
  unfold shown. rewrite sidebar_entries, data_entries. rewrite (filter_map_In _ (may_see role i)); [by rewrite map_map|].
  pose proof (entry_roles (default ROLE_GUEST role)) as Hr.
  pose proof (entry_switches (parseSidebarConfig (SidebarModulesAdmin i)) (user_config i)) as Hs.
  pose proof switches_known as Hk. rewrite Forall_forall in Hr, Hs, Hk |- *. intros e He. cbv zeta in Hr.
  rewrite (Hr e He). unfold root_entry_of at 1. cbn [snd]. rewrite (Hs e He). unfold may_see.
  f_equal. destruct (r_switches e) as [l|] eqn:El; [|done]. specialize (Hk e He l).
  assert (forall s, In s l -> known_module s.1 s.2) as Hl by (intros s; by apply Hk). clear Hk El.
  induction l as [|s l IH]; [done|]. cbn [existsb]. rewrite switch_open by (apply Hl; by left). f_equal.
  apply IH. intros x Hx. apply Hl. by right.
Qed.

Lemma settings_path p :
  settings_pattern p = bool_decide (p = js "/system-settings") || startsWith p (js "/system-settings/").
Proof.
  unfold settings_pattern. change (js "/system-settings/") with (js "/system-settings" ++ [47%N]).
  generalize (js "/system-settings") as b. intros b. apply eq_true_iff_eq.
  rewrite andb_true_iff, orb_true_iff, bool_decide_eq_true, !startsWith_true. split.
  - intros [[r ->] H]. rewrite drop_app_length in H. destruct r as [|c r]; [left; by rewrite app_nil_r|right].
    apply N.eqb_eq in H as ->. exists r. by rewrite <- app_assoc.
  - intros [->|[r ->]].
    + split; [exists []; by rewrite app_nil_r|]. by rewrite drop_all.
    + rewrite <- app_assoc. split; [by eexists|]. by rewrite drop_app_length.
Qed.

(** The links of the nested view. *)
Definition sub_urls (groups : list NavGroup) : list jsstr :=
  omap (fun x => match x.2 with ESub s => Some (sub_url s) | _ => None end) (entries groups).

(** C14: outside the system settings the sidebar shows, in order, exactly the
    entries of [ROOT_ENTRIES] whose role the user has and one of whose switches
    is on: the administrator's stored option does not turn it off, and the user's
    stored modules, unless the user may not configure the sidebar, do not either.
    Under /system-settings it shows the settings' own view instead, whatever the
    role and the switches, and each of its 40 links stays in that view. *)
Theorem sidebar_shows_exactly t pathname role i :
  let v := useSidebarView t pathname role i in
  if bool_decide (pathname = js "/system-settings") || startsWith pathname (js "/system-settings/")
  then rv_key v = js "system-settings" /\ rv_navGroups v = getSystemSettingsNavGroups t
    /\ length (sub_urls (rv_navGroups v)) = 40%nat
    /\ Forall (fun url => rv_key (useSidebarView t url role i) = js "system-settings") (sub_urls (rv_navGroups v))
  else rv_key v = js "__root"
    /\ shown (rv_navGroups v) = map (fun e => (Some (r_group e), r_entry e)) (List.filter (may_see role i) ROOT_ENTRIES).
Proof.
  cbv zeta. unfold useSidebarView, resolveSidebarView. cbn [find SIDEBAR_VIEWS pathPattern SYSTEM_SETTINGS_VIEW].
  rewrite <- settings_path. destruct (settings_pattern pathname); cbn [rv_key rv_navGroups view_id getNavGroups].
  - split; [done|]. split; [done|]. split; [reflexivity|]. unfold sub_urls.
    repeat (apply List.Forall_cons; [reflexivity|]). constructor.
  - split; [done|]. apply root_shown.
Qed.

(** ** The user only narrows *)

Lemma filter_weaken {A} (p q : A -> bool) l :
  (forall x, p x = true -> q x = true) -> List.filter p l `sublist_of` List.filter q l.
Proof.
  intros H. induction l as [|x l IH]; cbn [List.filter]; [constructor|].
  destruct (p x) eqn:E; [rewrite (H x E); by constructor|]. destruct (q x); [by constructor|done].
Qed.

Lemma module_narrows a u s m : module_open a u s m = true -> module_open a None s m = true.
Proof. unfold module_open. cbn. rewrite !andb_true_iff. tauto. Qed.

Lemma url_narrows a u url : url_open a u url = true -> url_open a None url = true.
Proof. unfold url_open. destruct (mget _ _) as [[s m]|]; [apply module_narrows|done]. Qed.

Lemma entry_narrows a u e : entry_open a u e = true -> entry_open a None e = true.
Proof.
  destruct e as [url cfgs| |s]; cbn [entry_open]; [|apply module_narrows|apply url_narrows].
  rewrite !orb_true_iff, !existsb_exists. intros [H|(x & Hx & H)]; [by left|right].
  exists x. split; [done|by apply url_narrows in H].
Qed.

(** The overlay of the user only narrows the sidebar: what is shown with
    it is a sublist of what is shown without it, and it is ignored when the
    user may not configure the sidebar or the stored value is no JSON object. *)
Theorem user_only_narrows t role i :
  let bare := mkInput (SidebarModulesAdmin i) None None in
  entries (root_navigation t role i) `sublist_of` entries (root_navigation t role bare)
  /\ (sidebar_settings i = Some false \/ parseUserSidebarConfig (sidebar_modules i) = None ->
      root_navigation t role i = root_navigation t role bare).
Proof.
  cbv zeta. split.
  - rewrite (sidebar_entries t role i), (sidebar_entries t role (mkInput _ None None)).
    apply filter_weaken. intros x. rewrite !andb_true_iff. intros [H1 H2].
    split; [done|by apply entry_narrows in H2].
  - intros H. unfold root_navigation, useSidebarConfig.
    assert (user_config i = None) as ->; [|done]. unfold user_config.
    destruct H as [-> | H]; [done|]. by destruct (sidebar_settings i) as [[]|].
Qed.

Lemma user_only_narrows_witness :
  let i := mkInput None (Some false) (Some (js "[")) in
  root_navigation (fun x => x) (Some 1%Z) i = root_navigation (fun x => x) (Some 1%Z) (mkInput None None None).
Proof. apply user_only_narrows. left. reflexivity. Defined.

Definition admin_off : jsstr :=
  js "{" ++ dq ++ js "admin" ++ dq ++ js ":{" ++ dq ++ js "enabled" ++ dq ++ js ":false}}".

(** With every administration module off, an administrator below the super
    administrator still gets the administration group, with no item in it: the
    group is dropped when it is empty before the roles are looked at. *)
Example empty_admin_group :
  map (fun g => (group_id g, length (items g)))
    (List.filter (fun g => bool_decide (group_id g = Some (js "admin")))
       (root_navigation (fun x => x) (Some ROLE_ADMIN) (mkInput (Some admin_off) None None)))
  = [(Some (js "admin"), 0%nat)].
Proof. vm_compute. reflexivity. Qed.

(** ** Permissions of administrators *)

Lemma actions_filled (f : jsstr -> bool) l am a :
  mget a (foldl (fun am x => mset x (f x) am) am l) = if bool_decide (a ∈ l) then Some (f a) else mget a am.
Proof.
  revert am. induction l as [|x l IH]; intros am; cbn [foldl]; [by rewrite bool_decide_false by set_solver|].
  rewrite IH. destruct (decide (a ∈ l)).
  - rewrite !bool_decide_true by set_solver. done.
  - rewrite (bool_decide_false (a ∈ l)) by done. destruct (decide (a = x)) as [-> |].
    + rewrite mget_mset, bool_decide_true by set_solver. done.
    + rewrite mget_mset_ne, bool_decide_false by set_solver. done.
Qed.

Lemma resources_filled {V} (f : PermissionResourceDef -> V) l m r :
  NoDup (map resource l) ->
  mget r (foldl (fun m d => mset (resource d) (f d) m) m l)
  = match find (fun d => str_eqb (resource d) r) l with Some d => Some (f d) | None => mget r m end.
Proof.
  revert m. induction l as [|d l IH]; intros m; cbn [foldl find map]; [done|].
  intros [Hd Hl]%NoDup_cons. rewrite IH by done. destruct (str_eqb (resource d) r) eqn:Er; [apply str_eqb_eq in Er as <- |apply str_eqb_neq in Er].
  - destruct (find _ l) as [e|] eqn:E; [|by rewrite mget_mset].
    apply find_some in E as [HE He]. destruct Hd. apply list_elem_of_In, in_map_iff. exists e.
    by apply str_eqb_eq in He.
  - destruct (find _ l); [done|]. by rewrite mget_mset_ne by congruence.
Qed.

(** Only what the catalog lists is granted, and there an explicit decision
    wins over the baseline of the role. *)
Lemma normalized_permission value catalog r a :
  NoDup (map resource (resources catalog)) ->
  granted (normalizeAdminPermissions value catalog) r a
  = match find (fun d => str_eqb (resource d) r) (resources catalog) with
    | Some d => if bool_decide (a ∈ actions d)
                then Some (match granted (default [] value) r a with
                           | Some b => b
                           | None => default false (granted (roleGrants catalog ADMIN_ROLE_KEY) r a)
                           end)
                else None
    | None => None
    end.
Proof.
  intros H. unfold normalizeAdminPermissions. cbv zeta. unfold granted at 1. rewrite resources_filled by done.
  destruct (find _ _) as [d|] eqn:E; [|done]. apply find_some in E as [_ <-%str_eqb_eq]. by rewrite actions_filled.
Qed.
