(* ===== verification/SettingsForm.v ===== *)
(** * System settings forms

    Model of src/web/default/src/features/system-settings/hooks/use-settings-form.ts:
    the hook behind the settings pages.  The options of the server have dotted
    names; the hook expands them into a nested object for the form library,
    keeps a flat baseline of what is saved, and sends only the fields that
    differ from it.  The form library (react-hook-form) is the class [FormLib];
    what the hook relies on is [FormLaws]. *)

From S2P Require Import Prelude JsStr JsNum JsArray JsJson JsPrint.

(** ** Values of a form *)

(** A plain object is [FObj]; an array is one value. *)
#[warnings="-register-all"]
Inductive FV :=
| FUndef
| FNull
| FBool (b : bool)
| FNum (x : num)
| FStr (s : jsstr)
| FArr (l : list json)
| FObj (l : list (jsstr * FV)).

Definition isPlainObject (value : FV) : bool := match value with FObj _ => true | _ => false end.

Fixpoint of_json (v : json) : FV :=
  match v with
  | JNull => FNull
  | JBool b => FBool b
  | JNum x => FNum x
  | JStr s => FStr s
  | JArr l => FArr l
  | JObj l => FObj (map (fun p => (p.1, of_json p.2)) l)
  end.

(** What JSON.stringify prints: members that are undefined are left out. *)
Fixpoint to_json (v : FV) : option json :=
  match v with
  | FUndef => None
  | FNull => Some JNull
  | FBool b => Some (JBool b)
  | FNum x => Some (JNum x)
  | FStr s => Some (JStr s)
  | FArr l => Some (JArr l)
  | FObj l =>
      Some (JObj (flat_map (fun p => match to_json p.2 with Some j => [(p.1, j)] | None => [] end) l))
  end.

Definition json_text (v : FV) : option jsstr :=
  match to_json v with Some j => Some (stringify 0 0 j) | None => None end.

(** ** Flattening *)

(** A record with dotted keys, [Record<string, unknown>]. *)
Definition Flat := list (jsstr * FV).

Definition dot : jschar := 46%N.

(** [parentKey ? `${parentKey}.${key}` : key]. *)
Definition nextKey (parentKey : option jsstr) (key : jsstr) : jsstr :=
  match parentKey with
  | Some p => if truthy p then p ++ dot :: key else key
  | None => key
  end.

Definition set_parent (parentKey : option jsstr) (values : FV) (result : Flat) : Flat :=
  match parentKey with Some k => mset k values result | None => result end.

Fixpoint flattenValues (values : FV) (parentKey : option jsstr) (result : Flat) : Flat :=
  match values with
  | FObj l =>
      foldl (fun result p =>
               match p.2 with
               | FObj _ => flattenValues p.2 (Some (nextKey parentKey p.1)) result
               | value => mset (nextKey parentKey p.1) value result
               end) result l
  | _ => set_parent parentKey values result
  end.

(** ** Dirty fields *)

(** The tree of marks: [true], a nested object or array of marks, or any
    other value. *)
#[warnings="-register-all"]
Inductive Dirty :=
| DTrue
| DTree (l : list (jsstr * Dirty))
| DOther.

(** [values[key]] on an object or an array, else undefined. *)
Definition source_of (values : FV) (key : jsstr) : FV :=
  match values with
  | FObj l => default FUndef (mget key l)
  | FArr l =>
      if str_eqb key (js "length") then FNum (num_of_Z (Z.of_nat (length l)))
      else match find (fun p => str_eqb (digits_of (Z.of_nat p.1)) key) (imap pair l) with
           | Some p => of_json p.2
           | None => FUndef
           end
  | _ => FUndef
  end.

Fixpoint collectDirtyValues (dirtyFields : Dirty) (values : FV) (parentKey : option jsstr) (result : Flat)
    : Flat :=
  match dirtyFields with
  | DTrue => set_parent parentKey values result
  | DOther => result
  | DTree l =>
      foldl (fun result p =>
               match p.2 with
               | DTrue => mset (nextKey parentKey p.1) (source_of values p.1) result
               | DTree _ => collectDirtyValues p.2 (source_of values p.1) (Some (nextKey parentKey p.1)) result
               | DOther => result
               end) result l
  end.

(** ** Expanding dotted names *)

(** The assignments along the path, on an object that is built up. *)
Fixpoint setDeepValue (target : list (jsstr * FV)) (segments : list jsstr) (value : FV)
    : list (jsstr * FV) :=
  match segments with
  | [] => target
  | [segment] => mset segment value target
  | segment :: rest =>
      match mget segment target with
      | Some (FObj next) => mset segment (FObj (setDeepValue next rest value)) target
      | _ => mset segment (FObj (setDeepValue [] rest value)) target
      end
  end.

Fixpoint expandDotPaths (values : FV) : FV :=
  match values with
  | FObj l =>
      FObj (foldl (fun result p =>
                     if includes p.1 [dot] then setDeepValue result (split_char dot p.1) p.2
                     else match p.2 with
                          | FObj _ => mset p.1 (expandDotPaths p.2) result
                          | value => mset p.1 value result
                          end) [] l)
  | _ => values
  end.

(** ** Comparison *)

(** Two objects that are the same reference also print the same text. *)
Definition defaultCompare (a b : FV) : bool :=
  match a, b with
  | FUndef, FUndef | FNull, FNull => true
  | FBool x, FBool y => Bool.eqb x y
  | FNum x, FNum y => neq x y
  | FStr x, FStr y => str_eqb x y
  | FArr _, FArr _ | FArr _, FObj _ | FObj _, FArr _ | FObj _, FObj _ =>
      bool_decide (json_text a = json_text b)
  | _, _ => false
  end.

(** ** The form library *)

Class FormLib (Form : Type) := {
  useForm : option FV -> Form;
  reset : FV -> Form -> Form;
  dirtyFields : Form -> Dirty;
  getValues : Form -> FV;
  (** What the fields are compared with: the values of the last reset. *)
  formDefaults : Form -> FV;
  (** The user changes fields. *)
  edits : Form -> Form -> Prop
}.

(** ** The hook *)

Record Hook (Form : Type) := mkHook {
  form : Form;
  defaultValuesRef : FV;
  baselineRef : Flat;
  serializedDefaultsRef : option jsstr
}.
Arguments mkHook {Form}.
Arguments form {Form}.
Arguments defaultValuesRef {Form}.
Arguments baselineRef {Form}.
Arguments serializedDefaultsRef {Form}.

Section UseSettingsForm.
Context {Form : Type} `{FormLib Form}.
Variable compareValues : option (FV -> FV -> bool).

Definition compare : FV -> FV -> bool := default defaultCompare compareValues.

(** The references after the hook has taken over [data], with the form reset. *)
Definition adopt (data : FV) (f : Form) : Hook Form :=
  let flattened := flattenValues data None [] in
  mkHook (reset data f) data flattened (json_text (FObj flattened)).

(** The first render. *)
Definition useSettingsForm (defaultValues : option FV) : Hook Form :=
  let expandedDefaults := option_map expandDotPaths defaultValues in
  let data := default (FObj []) expandedDefaults in
  let flattened := flattenValues data None [] in
  mkHook (useForm expandedDefaults) data flattened (json_text (FObj flattened)).

(** The effect that runs when the default values change. *)
Definition defaultsChanged (defaultValues : option FV) (st : Hook Form) : Hook Form :=
  match option_map expandDotPaths defaultValues with
  | None => st
  | Some expandedDefaults =>
      if bool_decide (json_text (FObj (flattenValues expandedDefaults None [])) = serializedDefaultsRef st)
      then st else adopt expandedDefaults (form st)
  end.

(** What [handleSubmit] hands to [onSubmit]; [None] is the notice that there
    is nothing to save. *)
Definition handleSubmit (data : FV) (st : Hook Form) : option Flat :=
  let dirtyValues := collectDirtyValues (dirtyFields (form st)) data None [] in
  let changedEntries :=
    List.filter (fun p => negb (compare p.2 (default FUndef (mget p.1 (baselineRef st))))) dirtyValues in
  match changedEntries with
  | [] => None
  | _ => Some (foldl (fun acc p => mset p.1 p.2 acc) [] changedEntries)
  end.

(** After [onSubmit] has succeeded. *)
Definition submitDone (data : FV) (st : Hook Form) : Hook Form := adopt data (form st).

Definition handleReset (st : Hook Form) : Hook Form :=
  mkHook (reset (defaultValuesRef st) (form st)) (defaultValuesRef st) (baselineRef st) (serializedDefaultsRef st).

(** The states the page goes through: between the start and the end of a
    submission anything else may happen, and a submission may fail. *)
Inductive reachable : Hook Form -> Prop :=
| reach_mount d : reachable (useSettingsForm d)
| reach_defaults d st : reachable st -> reachable (defaultsChanged d st)
| reach_edit st f : reachable st -> edits (form st) f ->
    reachable (mkHook f (defaultValuesRef st) (baselineRef st) (serializedDefaultsRef st))
| reach_submitted data st changed st' :
    reachable st -> handleSubmit data st = Some changed -> reachable st' ->
    reachable (submitDone data st')
| reach_reset st : reachable st -> reachable (handleReset st).

End UseSettingsForm.
