(* ===== verification/SettingsFormProps.v ===== *)
(** * What a settings form sends

    Flattening and expanding are inverse on option records, a submission sends
    exactly the fields that differ from what is saved, and a saved form has
    nothing to send. *)

From S2P Require Import Prelude JsStr JsNum JsArray JsJson JsPrint SettingsForm.

(** ** Paths *)

Abbreviation path := (list jsstr).

(** A key of an object whose path can be read off a dotted name. *)
Definition plain_key (k : jsstr) : bool := truthy k && forallb (fun c => negb (c =? dot)%N) k.

Definition dotted (p : path) : jsstr := join [dot] p.

Lemma split_dotted p : forallb plain_key p = true -> p <> [] -> split_char dot (dotted p) = p.
Proof.
  unfold dotted. induction p as [|k p IH]; [done|]. cbn [forallb].
  intros [[_ Hk]%andb_true_iff Hp]%andb_true_iff _.
  destruct p as [|k2 p]; [by apply split_char_none|]. rewrite join_cons by done.
  change ([dot] ++ ?z) with (dot :: z). rewrite split_char_app by done. by rewrite IH.
Qed.

Lemma dotted_inj p q :
  forallb plain_key p = true -> forallb plain_key q = true -> p <> [] -> q <> [] -> dotted p = dotted q -> p = q.
Proof. intros Hp Hq Np Nq E. by rewrite <- (split_dotted p), <- (split_dotted q), E. Qed.

(** The name a path gets below a parent. *)
Fixpoint path_key (parentKey : option jsstr) (p : path) : option jsstr :=
  match p with
  | [] => parentKey
  | k :: t => path_key (Some (nextKey parentKey k)) t
  end.

Lemma path_key_some parent p :
  truthy parent = true -> forallb plain_key p = true -> path_key (Some parent) p = Some (dotted (parent :: p)).
Proof.
  revert parent. induction p as [|k p IH]; intros parent Hp; [done|].
  cbn [forallb path_key]. intros [Hk Hks]%andb_true_iff. unfold nextKey. rewrite Hp.
  rewrite IH; [|by destruct parent|done]. f_equal. unfold dotted. destruct p as [|k2 p].
  - reflexivity.
  - rewrite !join_cons by done. by rewrite <- app_assoc.
Qed.

Lemma path_key_root p : forallb plain_key p = true -> p <> [] -> path_key None p = Some (dotted p).
Proof.
  destruct p as [|k p]; [done|]. cbn [forallb path_key nextKey]. intros [Hk Hp]%andb_true_iff _.
  apply path_key_some; [|done]. by apply andb_true_iff in Hk as [? _].
Qed.

(** ** Induction on values and marks *)

Section FVInd.
  Variable P : FV -> Prop.
  Hypothesis Hleaf : forall v, isPlainObject v = false -> P v.
  Hypothesis Hobj : forall l, Forall (fun p => P p.2) l -> P (FObj l).

Fixpoint FV_nested_ind (v : FV) : P v :=
  match v with
  | FObj l =>
      Hobj l ((fix go l := match l return Forall (fun p => P p.2) l with
                           | [] => List.Forall_nil _
                           | p :: t => List.Forall_cons _ p t (FV_nested_ind p.2) (go t)
                           end) l)
  | FUndef => Hleaf FUndef eq_refl
  | FNull => Hleaf FNull eq_refl
  | FBool b => Hleaf (FBool b) eq_refl
  | FNum x => Hleaf (FNum x) eq_refl
  | FStr s => Hleaf (FStr s) eq_refl
  | FArr l => Hleaf (FArr l) eq_refl
  end.
End FVInd.

Section DirtyInd.
  Variable P : Dirty -> Prop.
  Hypothesis Htrue : P DTrue.
  Hypothesis Hother : P DOther.
  Hypothesis Htree : forall l, Forall (fun p => P p.2) l -> P (DTree l).

Fixpoint Dirty_nested_ind (d : Dirty) : P d :=
  match d with
  | DTrue => Htrue
  | DOther => Hother
  | DTree l =>
      Htree l ((fix go l := match l return Forall (fun p => P p.2) l with
                            | [] => List.Forall_nil _
                            | p :: t => List.Forall_cons _ p t (Dirty_nested_ind p.2) (go t)
                            end) l)
  end.
End DirtyInd.

(** ** Leaves *)

(** The values of a form with their paths, and the marked ones. *)
Fixpoint leaves (v : FV) : list (path * FV) :=
  match v with
  | FObj l => flat_map (fun p => map (fun q => (p.1 :: q.1, q.2)) (leaves p.2)) l
  | _ => [([], v)]
  end.

Fixpoint marked_values (d : Dirty) (v : FV) : list (path * FV) :=
  match d with
  | DTrue => [([], v)]
  | DOther => []
  | DTree l => flat_map (fun p => map (fun q => (p.1 :: q.1, q.2)) (marked_values p.2 (source_of v p.1))) l
  end.

Definition set_path (parentKey : option jsstr) (result : Flat) (q : path * FV) : Flat :=
  set_parent (path_key parentKey q.1) q.2 result.

Lemma set_path_below k parentKey r l :
  foldl (set_path parentKey) r (map (fun q => (k :: q.1, q.2)) l)
  = foldl (set_path (Some (nextKey parentKey k))) r l.
Proof. revert r. induction l as [|q l IH]; intros r; [done|]. cbn [map foldl]. by rewrite IH. Qed.

Lemma foldl_flat_map {A B C} (f : C -> B -> C) (g : A -> list B) l c :
  foldl f c (flat_map g l) = foldl (fun c x => foldl f c (g x)) c l.
Proof. revert c. induction l as [|x l IH]; intros c; [done|]. cbn [flat_map foldl]. by rewrite foldl_app, IH. Qed.

Lemma flatten_leaves v parentKey r :
  flattenValues v parentKey r = foldl (set_path parentKey) r (leaves v).
Proof.
  revert parentKey r. induction v as [v Hv|l IH] using FV_nested_ind; intros parentKey r; [by destruct v|].
  cbn [flattenValues leaves]. rewrite foldl_flat_map. revert r.
  induction IH as [|[k x] l Hx _ IHl]; intros r; [done|]. cbn [foldl fst snd] in *. rewrite IHl. f_equal.
  rewrite set_path_below, <- Hx. by destruct x.
Qed.

Lemma collect_marked d v parentKey r :
  collectDirtyValues d v parentKey r = foldl (set_path parentKey) r (marked_values d v).
Proof.
  revert v parentKey r. induction d as [| |l IH] using Dirty_nested_ind; intros v parentKey r; [done|done|].
  cbn [collectDirtyValues marked_values]. rewrite foldl_flat_map. revert r.
  induction IH as [|[k x] l Hx _ IHl]; intros r; [done|]. cbn [foldl fst snd] in *. rewrite IHl. f_equal.
  rewrite set_path_below, <- Hx. by destruct x.
Qed.

(** ** Lookups *)

Fixpoint leaf_at (v : FV) (p : path) : option FV :=
  match p, v with
  | [], FObj _ => None
  | [], _ => Some v
  | k :: t, FObj l => match mget k l with Some x => leaf_at x t | None => None end
  | _ :: _, _ => None
  end.

Fixpoint marked (d : Dirty) (p : path) : bool :=
  match p, d with
  | [], DTrue => true
  | k :: t, DTree l => match mget k l with Some x => marked x t | None => false end
  | _, _ => false
  end.

Fixpoint value_at (v : FV) (p : path) : FV :=
  match p with [] => v | k :: t => value_at (source_of v k) t end.

(** Keys of an object are distinct; names of settings are plain. *)
Fixpoint wf (v : FV) : bool :=
  match v with
  | FObj l => bool_decide (NoDup (map fst l)) && forallb (fun p => plain_key p.1 && wf p.2) l
  | _ => true
  end.
Definition wf_form (v : FV) : bool := isPlainObject v && wf v.

Fixpoint dirty_ok (d : Dirty) : bool :=
  match d with
  | DTree l => bool_decide (NoDup (map fst l)) && forallb (fun p => dirty_ok p.2) l
  | _ => true
  end.

Lemma mget_sets (l : Flat) r k x :
  (forall y z, In (k, y) l -> In (k, z) l -> y = z) ->
  mget k (foldl (fun r q => mset q.1 q.2 r) r l) = Some x
  <-> In (k, x) l \/ ~ In k (map fst l) /\ mget k r = Some x.
Proof.
  revert r. induction l as [|[k0 v0] l IH]; intros r Hf; cbn [foldl map fst snd In].
  - split; [by right; split; [intros []|]|by intros [[]|[_ ?]]].
  - rewrite IH by (intros y z Hy Hz; apply Hf; by right). destruct (decide (k = k0)) as [-> |Hne].
    + rewrite mget_mset. split.
      * intros [Hin|[_ [= ->]]]; auto.
      * intros [[[= ->]|Hin]|[Hn _]]; [|by left|by destruct Hn; left].
        destruct (decide (In k0 (map fst l))) as [Hin|Hn]; [|by right].
        apply in_map_iff in Hin as ([k1 y] & [= ->] & Hy). left.
        rewrite (Hf x y); [done|by left|by right].
    + rewrite mget_mset_ne by done. split; intros [Hi|[Hi Hm]]; [by left; right| |left|right; tauto].
      * right. split; [|done]. by intros [E|E].
      * by destruct Hi as [[= <- <-]|Hi].
Qed.

Lemma sets_NoDup (l r : Flat) : NoDup (map fst r) -> NoDup (map fst (foldl (fun r q => mset q.1 q.2 r) r l)).
Proof. revert r. induction l as [|q l IH]; intros r Hr; [done|]. cbn [foldl]. apply IH. by apply mset_NoDup. Qed.

Lemma set_paths_keys l r :
  (forall p x, In (p, x) l -> forallb plain_key p = true /\ p <> []) ->
  foldl (set_path None) r l = foldl (fun r q => mset q.1 q.2 r) r (map (fun q => (dotted q.1, q.2)) l).
Proof.
  revert r. induction l as [|[p x] l IH]; intros r Hl; [done|]. cbn [foldl map fst snd].
  rewrite IH by (intros; eapply Hl; by right). f_equal. unfold set_path. cbn [fst snd].
  destruct (Hl p x) as [Hp Hn]; [by left|]. by rewrite path_key_root.
Qed.

(** A list of paths and values, where a path has one value, as a record. *)
Lemma set_paths_lookup l k x :
  (forall p y, In (p, y) l -> forallb plain_key p = true /\ p <> []) ->
  (forall p y z, In (p, y) l -> In (p, z) l -> y = z) ->
  mget k (foldl (set_path None) [] l) = Some x <-> exists p, k = dotted p /\ In (p, x) l.
Proof.
  intros Hp Hf. rewrite set_paths_keys by done. rewrite mget_sets.
  - rewrite in_map_iff. split.
    + intros [([p y] & [= <- ->] & Hin)|[_ [=]]]. by exists p.
    + intros (p & -> & Hin). left. by exists (p, x).
  - intros y z ([p y'] & [= <- ->] & Hy)%in_map_iff ([q z'] & [= E ->] & Hz)%in_map_iff. cbn [fst] in E.
    destruct (Hp _ _ Hy), (Hp _ _ Hz). apply dotted_inj in E; [|done..]. subst q. by apply (Hf p).
Qed.

Lemma in_below {A} (l : list (jsstr * A)) (f : jsstr * A -> list (path * FV)) p x :
  In (p, x) (flat_map (fun a => map (fun q => (a.1 :: q.1, q.2)) (f a)) l)
  <-> exists k t a, p = k :: t /\ In (k, a) l /\ In (t, x) (f (k, a)).
Proof.
  rewrite in_flat_map. split.
  - intros ([k a] & Ha & ([t y] & [= <- <-] & Hy)%in_map_iff). by exists k, t, a.
  - intros (k & t & a & -> & Ha & Hx). exists (k, a). split; [done|]. apply in_map_iff. by exists (t, x).
Qed.

Lemma wf_object l :
  wf (FObj l) = true ->
  NoDup (map fst l) /\ forall k a, In (k, a) l -> plain_key k = true /\ wf a = true.
Proof.
  cbn [wf]. rewrite andb_true_iff, bool_decide_eq_true, forallb_forall. intros [H1 H2]. split; [done|].
  intros k a Hin. by apply H2, andb_true_iff in Hin.
Qed.

Lemma in_leaves v p x : wf v = true -> In (p, x) (leaves v) <-> leaf_at v p = Some x.
Proof.
  revert p. induction v as [v Hv|l IH] using FV_nested_ind; intros p Hw.
  - destruct v, p; cbn; naive_solver.
  - apply wf_object in Hw as [Hn Hw]. cbn [leaves]. rewrite in_below. cbn [snd].
    rewrite List.Forall_forall in IH. split.
    + intros (k & t & a & -> & Ha & Hx). cbn [leaf_at]. rewrite (In_mget _ _ _ Hn Ha).
      destruct (Hw k a Ha). by apply (IH (k, a)).
    + destruct p as [|k t]; cbn [leaf_at]; [done|]. destruct (mget k l) as [a|] eqn:E; [|done].
      apply mget_In in E. intros Hx. exists k, t, a. split; [done|]. split; [done|].
      destruct (Hw k a E). by apply (IH (k, a)).
Qed.

Lemma leaf_path v p x :
  wf v = true -> leaf_at v p = Some x -> forallb plain_key p = true /\ isPlainObject x = false /\ value_at v p = x.
Proof.
  revert v. induction p as [|k p IH]; intros v Hw; [destruct v; cbn; naive_solver|].
  destruct v as [| | | | | |l]; [done..|]. cbn [leaf_at forallb value_at source_of].
  destruct (mget k l) as [a|] eqn:E; [|done]. cbn [default]. intros H.
  apply wf_object in Hw as [_ Hw]. destruct (Hw k a (mget_In _ _ _ E)) as [-> Ha]. by apply IH.
Qed.

Lemma in_marked d v p x :
  dirty_ok d = true -> In (p, x) (marked_values d v) <-> marked d p = true /\ x = value_at v p.
Proof.
  revert v p. induction d as [| |l IH] using Dirty_nested_ind; intros v p Hw.
  - destruct p; cbn; naive_solver.
  - destruct p; cbn; naive_solver.
  - cbn [dirty_ok] in Hw. rewrite andb_true_iff, bool_decide_eq_true, forallb_forall in Hw.
    destruct Hw as [Hn Hw]. cbn [marked_values]. rewrite in_below. cbn [fst snd].
    rewrite List.Forall_forall in IH. split.
    + intros (k & t & a & -> & Ha & Hx). cbn [marked value_at]. rewrite (In_mget _ _ _ Hn Ha).
      apply (IH (k, a)); [done|by apply (Hw (k, a))|done].
    + destruct p as [|k t]; cbn [marked value_at]; [by intros [? _]|].
      destruct (mget k l) as [a|] eqn:E; [|by intros [? _]]. apply mget_In in E.
      intros Hx. exists k, t, a. split; [done|]. split; [done|].
      apply (IH (k, a)); [done|by apply (Hw (k, a))|done].
Qed.

Lemma wf_root v p x : wf_form v = true -> leaf_at v p = Some x -> forallb plain_key p = true /\ p <> [].
Proof.
  unfold wf_form. rewrite andb_true_iff. intros [Ho Hw] Hp. apply leaf_path in Hp as Hp'; [|done].
  split; [apply Hp'|]. intros ->. by destruct v.
Qed.

(** The flat record has a value under a name exactly when the form has it at
    the path the name spells. *)
Lemma flatten_lookup v k x :
  wf_form v = true ->
  mget k (flattenValues v None []) = Some x <-> exists p, k = dotted p /\ leaf_at v p = Some x.
Proof.
  intros Hv. assert (wf v = true) as Hw by (by apply andb_true_iff in Hv as [_ ?]).
  rewrite flatten_leaves, set_paths_lookup.
  - by setoid_rewrite in_leaves.
  - intros p y Hp%in_leaves; [|done]. by eapply wf_root.
  - intros p y z Hy%in_leaves Hz%in_leaves; [|done..]. congruence.
Qed.

Lemma flatten_at v p :
  wf_form v = true -> forallb plain_key p = true -> p <> [] ->
  mget (dotted p) (flattenValues v None []) = leaf_at v p.
Proof.
  intros Hv Hp Hn. apply option_eq. intros x. rewrite flatten_lookup by done. split; [|by exists p].
  intros (q & E & Hq). destruct (wf_root _ _ _ Hv Hq). apply dotted_inj in E; [|done..]. by subst q.
Qed.

(** ** The form library *)

(** What the hook relies on: a reset makes its argument the values and what
    they are compared with, an edit keeps the latter, and the dirty fields are
    exactly the fields whose value is not the default one. *)
Class FormLaws (Form : Type) `{FormLib Form} := {
  defaults_useForm d : formDefaults (useForm d) = default (FObj []) d;
  defaults_reset v f : formDefaults (reset v f) = v;
  values_reset v f : getValues (reset v f) = v;
  defaults_edits f g : edits f g -> formDefaults g = formDefaults f;
  dirty_distinct f : wf_form (getValues f) = true -> dirty_ok (dirtyFields f) = true;
  dirty_exact f p :
    wf_form (getValues f) = true ->
    marked (dirtyFields f) p = true
    <-> exists x, leaf_at (getValues f) p = Some x /\ leaf_at (formDefaults f) p <> Some x
}.

Section Submitting.
Context {Form : Type} `{FormLaws Form}.
Variable compareValues : option (FV -> FV -> bool).

(** ** The invariant of the references *)

Definition hook_inv (st : Hook Form) : Prop :=
  formDefaults (form st) = defaultValuesRef st
  /\ baselineRef st = flattenValues (defaultValuesRef st) None []
  /\ serializedDefaultsRef st = json_text (FObj (baselineRef st)).

Lemma adopt_inv data f : hook_inv (adopt data f).
Proof. unfold hook_inv, adopt. cbn. by rewrite defaults_reset. Qed.

Lemma reachable_hook_inv st : reachable compareValues st -> hook_inv st.
Proof.
  induction 1 as [d|d st _ IH|st f _ IH Hf|data st ch st' _ _ _ _ _|st _ IH].
  - unfold hook_inv, useSettingsForm. cbn. by rewrite defaults_useForm.
  - unfold defaultsChanged. destruct (option_map _ d) as [e|]; [|done].
    case_bool_decide; [done|apply adopt_inv].
  - destruct IH as (I1 & I2 & I3). unfold hook_inv. cbn. by rewrite (defaults_edits _ _ Hf).
  - apply adopt_inv.
  - destruct IH as (I1 & I2 & I3). unfold hook_inv, handleReset. cbn. by rewrite defaults_reset.
Qed.

(** ** Submissions *)

Lemma dirty_lookup st k x :
  wf_form (getValues (form st)) = true ->
  let dirtyValues := collectDirtyValues (dirtyFields (form st)) (getValues (form st)) None [] in
  NoDup (map fst dirtyValues)
  /\ (mget k dirtyValues = Some x
      <-> exists p, k = dotted p /\ leaf_at (getValues (form st)) p = Some x
                    /\ leaf_at (formDefaults (form st)) p <> Some x).
Proof.
  intros Hv. cbv zeta. rewrite collect_marked.
  pose proof (dirty_distinct _ Hv) as Hd.
  assert (wf (getValues (form st)) = true) as Hw by (by apply andb_true_iff in Hv as [_ ?]).
  assert (forall p y, In (p, y) (marked_values (dirtyFields (form st)) (getValues (form st)))
            <-> leaf_at (getValues (form st)) p = Some y /\ leaf_at (formDefaults (form st)) p <> Some y) as Hm.
  { intros p y. rewrite in_marked, dirty_exact by done. split.
    - intros [(z & Hz & Hn) ->]. destruct (leaf_path _ _ _ Hw Hz) as (_ & _ & ->). done.
    - intros [Hy Hn]. split; [by exists y|]. by destruct (leaf_path _ _ _ Hw Hy) as (_ & _ & ->). }
  assert (forall p y, In (p, y) (marked_values (dirtyFields (form st)) (getValues (form st))) ->
            forallb plain_key p = true /\ p <> []) as Hp.
  { intros p y [Hy _]%Hm. by eapply wf_root. }
  split.
  - rewrite set_paths_keys by done. apply sets_NoDup. constructor.
  - rewrite set_paths_lookup; [|done|].
    + by setoid_rewrite Hm.
    + intros p y z [Hy _]%Hm [Hz _]%Hm. congruence.
Qed.

Lemma changed_lookup (entries : Flat) (keep : jsstr * FV -> bool) k x :
  NoDup (map fst entries) ->
  mget k (foldl (fun acc p => mset p.1 p.2 acc) [] (List.filter keep entries)) = Some x
  <-> mget k entries = Some x /\ keep (k, x) = true.
Proof.
  intros Hn. rewrite mget_sets.
  - rewrite filter_In. split.
    + intros [[Hin Hk]|[_ [=]]]. split; [by apply In_mget|done].
    + intros [Hin%mget_In Hk]. by left.
  - intros y z [Hy _]%filter_In [Hz _]%filter_In.
    apply (In_mget _ _ _ Hn) in Hy. apply (In_mget _ _ _ Hn) in Hz. congruence.
Qed.

Definition sent (data : FV) (st : Hook Form) (k : jsstr) (x : FV) : Prop :=
  exists changed, handleSubmit compareValues data st = Some changed /\ mget k changed = Some x.

Lemma sent_exact st k x :
  hook_inv st -> wf_form (getValues (form st)) = true -> wf_form (defaultValuesRef st) = true ->
  sent (getValues (form st)) st k x
  <-> exists p, k = dotted p
        /\ leaf_at (getValues (form st)) p = Some x
        /\ leaf_at (defaultValuesRef st) p <> Some x
        /\ compare compareValues x (default FUndef (leaf_at (defaultValuesRef st) p)) = false.
Proof.
  intros (I1 & I2 & _) Hv Hs. destruct (dirty_lookup st k x Hv) as [Hn Hl]. cbv zeta in Hn, Hl.
  rewrite I1 in Hl.
  transitivity (mget k (collectDirtyValues (dirtyFields (form st)) (getValues (form st)) None []) = Some x
                /\ negb (compare compareValues x (default FUndef (mget k (baselineRef st)))) = true).
  - pose proof (changed_lookup _ (fun p => negb (compare compareValues p.2 (default FUndef (mget p.1 (baselineRef st)))))
                  k x Hn) as Hc. cbn [fst snd] in Hc. rewrite <- Hc. unfold sent, handleSubmit.
    destruct (List.filter _ _) as [|e es]; [split; [by intros (? & [=] & _)|done]|]. split; [by intros (? & [= <-] & ?)|by eexists].
  - rewrite Hl, negb_true_iff. split.
    + intros [(p & -> & H1 & H2) H3]. exists p. destruct (wf_root _ _ _ Hv H1).
      by rewrite I2, flatten_at in H3.
    + intros (p & -> & H1 & H2 & H3). destruct (wf_root _ _ _ Hv H1). split; [by exists p|].
      by rewrite I2, flatten_at.
Qed.

End Submitting.

(** ** Expanding dotted names *)

Lemma leaf_value x q : isPlainObject x = false -> leaf_at x q = match q with [] => Some x | _ => None end.
Proof. by destruct q, x. Qed.

(** Writing below a path touches that path only, if no leaf is in its way. *)
Lemma setDeep_leaf t p x q :
  p <> [] -> isPlainObject x = false ->
  (forall r y, leaf_at (FObj t) r = Some y -> ~ r `prefix_of` p /\ ~ p `prefix_of` r) ->
  leaf_at (FObj (setDeepValue t p x)) q = if decide (q = p) then Some x else leaf_at (FObj t) q.
Proof.
  intros Hp Hx. revert t q Hp. induction p as [|s p IH]; intros t q Hp Hfree; [done|].
  destruct q as [|k q]; [by rewrite decide_False|].
  destruct (decide (k = s)) as [-> |Hk].
  2:{ rewrite decide_False by congruence. cbn [setDeepValue leaf_at].
      destruct p as [|s2 p]; [by rewrite mget_mset_ne|].
      by destruct (mget s t) as [[]|]; rewrite mget_mset_ne. }
  destruct p as [|s2 p].
  - cbn [setDeepValue]. cbn [leaf_at]. rewrite mget_mset, leaf_value by done.
    destruct q as [|k q]; [by rewrite decide_True|]. rewrite decide_False by congruence.
    destruct (leaf_at (FObj t) (s :: k :: q)) as [y|] eqn:E; [|symmetry; exact E].
    destruct (Hfree (s :: k :: q) y E) as [_ []]. by exists (k :: q).
  - set (n := match mget s t with Some (FObj n) => n | _ => [] end).
    assert (forall r, leaf_at (FObj t) (s :: r) = leaf_at (FObj n) r) as Hn.
    { intros r. subst n. cbn [leaf_at]. destruct (mget s t) as [a|] eqn:E; [|by destruct r].
      destruct (isPlainObject a) eqn:Ea; [by destruct a|].
      destruct (Hfree [s] a) as [[] _]; [cbn [leaf_at]; rewrite E; by destruct a|]. by exists (s2 :: p). }
    assert (leaf_at (FObj (setDeepValue t (s :: s2 :: p) x)) (s :: q) = leaf_at (FObj (setDeepValue n (s2 :: p) x)) q) as ->.
    { subst n. cbn [setDeepValue]. destruct (mget s t) as [[]|]; cbn [leaf_at]; by rewrite mget_mset. }
    rewrite Hn, IH; [|done|].
    + destruct (decide (q = s2 :: p)) as [-> |Hq]; [by rewrite decide_True|]. by rewrite decide_False by congruence.
    + intros r y Hr. rewrite <- Hn in Hr. apply Hfree in Hr as [H1 H2].
      split; intros Hpre; [apply H1|apply H2]; by apply prefix_cons.
Qed.

Lemma wf_mset s x t : wf (FObj t) = true -> plain_key s = true -> wf x = true -> wf (FObj (mset s x t)) = true.
Proof.
  intros [Hn Ht]%wf_object Hs Hx. cbn [wf]. rewrite andb_true_iff, bool_decide_eq_true, forallb_forall.
  split; [by apply mset_NoDup|]. intros [k a] Hin. apply andb_true_iff. cbn [fst snd].
  apply In_mget in Hin; [|by apply mset_NoDup]. destruct (decide (k = s)) as [-> |Hk].
  - rewrite mget_mset in Hin. by injection Hin as <-.
  - rewrite mget_mset_ne in Hin by done. by apply Ht, mget_In.
Qed.

Lemma setDeep_wf t p x :
  wf (FObj t) = true -> forallb plain_key p = true -> wf x = true -> wf (FObj (setDeepValue t p x)) = true.
Proof.
  revert t. induction p as [|s p IH]; intros t Ht; [done|]. cbn [forallb]. intros [Hs Hp]%andb_true_iff Hx.
  cbn [setDeepValue]. destruct p as [|s2 p]; [by apply wf_mset|].
  destruct (mget s t) as [a|] eqn:E; [destruct a as [| | | | | |n]|]; apply wf_mset; try done; apply IH; try done.
  apply mget_In in E. apply wf_object in Ht as [_ Ht]. by apply Ht in E as [_ ?].
Qed.

(** Options as the server names them: distinct dotted names with plain
    segments, none below another, and values that are not objects. *)
Definition names_free (ks : list jsstr) : Prop :=
  Forall (fun a => Forall (fun b => split_char dot a `prefix_of` split_char dot b -> a = b) ks) ks.

Definition options_ok (l : Flat) : Prop :=
  NoDup (map fst l) /\ names_free (map fst l)
  /\ Forall (fun p => forallb plain_key (split_char dot p.1) = true /\ isPlainObject p.2 = false) l.

Lemma names_free_app a b : names_free (a ++ b) -> names_free a.
Proof.
  unfold names_free. rewrite Forall_app. intros [H _]. eapply Forall_impl; [exact H|].
  intros k Hk. by apply Forall_app in Hk as [? _].
Qed.

Lemma names_free_In ks a b :
  names_free ks -> In a ks -> In b ks -> split_char dot a `prefix_of` split_char dot b -> a = b.
Proof.
  unfold names_free. rewrite List.Forall_forall. intros H Ha Hb.
  specialize (H a Ha). rewrite List.Forall_forall in H. by apply H.
Qed.

Lemma options_ok_app l k x :
  options_ok (l ++ [(k, x)]) ->
  options_ok l /\ ~ In k (map fst l) /\ forallb plain_key (split_char dot k) = true /\ isPlainObject x = false.
Proof.
  unfold options_ok. rewrite map_app, Forall_app. intros (Hn & Hf & Hl & Hx).
  apply NoDup_app in Hn as (Hn & Hk & _). apply Forall_cons_iff in Hx as [[Hp Hx] _].
  split; [split; [done|]; split; [by eapply names_free_app|done]|]. split; [|done].
  intros Hin. apply (Hk k); [by apply list_elem_of_In|]. cbn. set_solver.
Qed.

(** The expanded form has exactly the options, each at the path of its name. *)
Lemma expand_leaves l :
  options_ok l ->
  wf (expandDotPaths (FObj l)) = true
  /\ forall q x, leaf_at (expandDotPaths (FObj l)) q = Some x <-> exists k, q = split_char dot k /\ In (k, x) l.
Proof.
  cbn [expandDotPaths]. induction l as [|[k x] l IH] using rev_ind; intros Hok.
  - split; [done|]. intros q x. split; [by destruct q|by intros (k & _ & [])].
  - destruct (options_ok_app _ _ _ Hok) as (Hl & Hk & Hp & Hx). destruct (IH Hl) as [Hw Hq].
    rewrite foldl_app. cbn [foldl fst snd].
    match goal with |- context [if includes k [dot] then setDeepValue ?acc ?p x else ?b] =>
      replace (if includes k [dot] then setDeepValue acc p x else b) with (setDeepValue acc p x)
        by (destruct (includes k [dot]) eqn:E; [done|]; rewrite split_char_alone by done; by destruct x) end.
    split.
    { apply setDeep_wf; [done|done|]. by destruct x. }
    destruct Hok as (_ & Hfree & _). rewrite map_app in Hfree.
    intros q y. rewrite setDeep_leaf; [|apply split_char_nonempty|done|].
    + setoid_rewrite in_app_iff. destruct (decide (q = split_char dot k)) as [-> |Hne].
      * split; [intros [= ->]; exists k; split; [done|]; right; by left|].
        intros (k' & E & [Hin|[[= -> ->]|[]]]); [|done]. destruct Hk.
        apply (f_equal (join [dot])) in E. rewrite !join_split_char in E. subst k'.
        apply in_map_iff. by exists (k, y).
      * rewrite Hq. split; [intros (k' & -> & Hin); exists k'; auto|].
        intros (k' & -> & [Hin|[[= -> ->]|[]]]); [by exists k'|done].
    + intros r z Hr. apply Hq in Hr as (k' & -> & Hin).
      assert (In k' (map fst l)) as Hin' by (apply in_map_iff; by exists (k', z)).
      split; intros Hpre; destruct Hk.
      * apply (names_free_In _ k' k Hfree) in Hpre; [by subst|apply in_app_iff; by left|].
        apply in_app_iff; right; by left.
      * apply (names_free_In _ k k' Hfree) in Hpre; [by subst| |apply in_app_iff; by left].
        apply in_app_iff; right; by left.
Qed.

(** Expanding the dotted names of the options into the nested object of
    the form and flattening it again gives every option back under its name,
    with its value, and nothing else. *)
Theorem options_round_trip l k :
  options_ok l -> mget k (flattenValues (expandDotPaths (FObj l)) None []) = mget k l.
Proof.
  intros Hok. destruct (expand_leaves l Hok) as [Hw Hq]. apply option_eq. intros x.
  rewrite flatten_lookup by (unfold wf_form; by rewrite Hw). setoid_rewrite Hq. split.
  - intros (p & -> & k' & -> & Hin). unfold dotted. rewrite join_split_char. apply In_mget; [apply Hok|done].
  - intros Hin%mget_In. exists (split_char dot k). unfold dotted. rewrite join_split_char. eauto.
Qed.

Definition sample_options : Flat :=
  [(js "fetch.ssrf.on", FBool true); (js "Notice", FStr (js "hi")); (js "fetch.ports", FArr [])].

Lemma options_round_trip_witness :
  mget (js "fetch.ports") (flattenValues (expandDotPaths (FObj sample_options)) None []) = Some (FArr []).
Proof.
  apply (options_round_trip sample_options (js "fetch.ports")). split; [|split].
  - by apply (bool_decide_unpack _).
  - by apply (bool_decide_unpack _).
  - by repeat constructor.
Defined.

(** ** A form library that satisfies the laws *)

Fixpoint json_eq_dec (a b : json) {struct a} : {a = b} + {a <> b}.
Proof.
  decide equality; try (apply bool_dec || apply num_eq_dec || apply (List.list_eq_dec N.eq_dec)).
  - apply (List.list_eq_dec json_eq_dec).
  - apply List.list_eq_dec. decide equality. apply (List.list_eq_dec N.eq_dec).
Defined.

Fixpoint FV_eq_dec (a b : FV) {struct a} : {a = b} + {a <> b}.
Proof.
  decide equality; try (apply bool_dec || apply num_eq_dec || apply (List.list_eq_dec N.eq_dec)).
  - apply (List.list_eq_dec json_eq_dec).
  - apply List.list_eq_dec. decide equality. apply (List.list_eq_dec N.eq_dec).
Defined.

(** The marks computed from the values and the defaults. *)
Fixpoint diff (v : FV) (d : option FV) : Dirty :=
  match v with
  | FObj l =>
      DTree (map (fun p => (p.1, diff p.2 (match d with Some (FObj m) => mget p.1 m | _ => None end))) l)
  | _ => match d with
         | Some d => if FV_eq_dec d v then DOther else DTrue
         | None => DTrue
         end
  end.

Record SimpleForm := mkForm { sf_defaults : FV; sf_values : FV }.

#[export] Instance simple_lib : FormLib SimpleForm := {
  useForm d := mkForm (default (FObj []) d) (default (FObj []) d);
  reset v _ := mkForm v v;
  dirtyFields f := diff (sf_values f) (Some (sf_defaults f));
  getValues := sf_values;
  formDefaults := sf_defaults;
  edits f g := sf_defaults g = sf_defaults f
}.

Lemma mget_map {A B} (f : jsstr * A -> B) (l : list (jsstr * A)) k :
  mget k (map (fun p => (p.1, f p)) l) = match mget k l with Some a => Some (f (k, a)) | None => None end.
Proof.
  induction l as [|[q a] l IH]; [done|]. cbn [map mget fst]. destruct (decide (k = q)) as [-> |]; [done|apply IH].
Qed.

Lemma diff_ok v d : wf v = true -> dirty_ok (diff v d) = true.
Proof.
  revert d. induction v as [v Hv|l IH] using FV_nested_ind; intros d Hw.
  - destruct v; try done; cbn; destruct d as [d|]; try done; by destruct (FV_eq_dec d _).
  - apply wf_object in Hw as [Hn Hw]. cbn [diff dirty_ok].
    rewrite andb_true_iff, bool_decide_eq_true, map_map, forallb_forall. cbn [fst]. split; [done|].
    intros p (q & <- & Hq)%in_map_iff. cbn [snd]. rewrite List.Forall_forall in IH. apply IH; [done|].
    destruct q as [k a]. by apply Hw in Hq as [_ ?].
Qed.

Lemma diff_marked v d p :
  wf v = true ->
  marked (diff v d) p = true
  <-> exists x, leaf_at v p = Some x /\ (match d with Some d => leaf_at d p | None => None end) <> Some x.
Proof.
  revert v d. induction p as [|k p IH]; intros v d Hw.
  - assert (forall d' : FV, leaf_at d' [] = Some v -> d' = v) as Hd' by (intros []; cbn; congruence).
    destruct (isPlainObject v) eqn:Hv; [destruct v; cbn; naive_solver|].
    assert (leaf_at v [] = Some v) as -> by (by rewrite leaf_value).
    assert (marked (diff v d) [] = match d with Some d => if FV_eq_dec d v then false else true | None => true end) as ->.
    { destruct v; try done; cbn; destruct d as [d|]; try done; by destruct (FV_eq_dec d _). }
    destruct d as [d|]; [|naive_solver]. destruct (FV_eq_dec d v) as [-> |Hne].
    + rewrite leaf_value by done. naive_solver.
    + split; [|done]. intros _. exists v. split; [done|]. intros E. by apply Hne, Hd'.
  - destruct v as [| | | | | |l]; try (cbn; destruct d as [d|]; [destruct (FV_eq_dec d _)|]; cbn; naive_solver).
    cbn [diff marked leaf_at]. rewrite (mget_map (fun p => diff p.2 _)). cbn [fst snd].
    destruct (mget k l) as [a|] eqn:E; [|naive_solver].
    apply wf_object in Hw as [_ Hw]. destruct (Hw k a (mget_In _ _ _ E)) as [_ Ha]. rewrite IH by done.
    destruct d as [[| | | | | |m]|]; cbn [leaf_at]; try done.
Qed.

#[export] Instance simple_laws : FormLaws SimpleForm.
Proof.
  split; try done.
  - intros f [_ Hw]%andb_true_iff. by apply diff_ok.
  - intros f p [_ Hw]%andb_true_iff. by apply diff_marked.
Qed.

(** ** The theorems on submissions *)

(** A submission sends exactly the fields of the form whose value is not
    the saved one and which the comparison tells apart from it, each under its
    dotted name, whatever sequence of renders, refetches, edits, resets and
    submissions came before; for every form library that keeps the laws. *)
Theorem submit_sends_differences {Form : Type} `{FormLaws Form} compareValues (st : Hook Form) k x :
  reachable compareValues st ->
  wf_form (getValues (form st)) = true -> wf_form (defaultValuesRef st) = true ->
  sent compareValues (getValues (form st)) st k x
  <-> exists p, k = dotted p
        /\ leaf_at (getValues (form st)) p = Some x
        /\ leaf_at (defaultValuesRef st) p <> Some x
        /\ compare compareValues x (default FUndef (leaf_at (defaultValuesRef st) p)) = false.
Proof. intros Hr. apply sent_exact. by apply (reachable_hook_inv compareValues). Qed.

Definition edited_options : Flat :=
  [(js "fetch.ssrf.on", FBool true); (js "Notice", FStr (js "hi")); (js "fetch.ports", FArr [JStr (js "80")])].

Definition edited : Hook SimpleForm :=
  let st := useSettingsForm (Some (FObj sample_options)) in
  mkHook (mkForm (defaultValuesRef st) (expandDotPaths (FObj edited_options)))
    (defaultValuesRef st) (baselineRef st) (serializedDefaultsRef st).

Lemma submit_sends_differences_witness :
  sent None (getValues (form edited)) edited (js "fetch.ports") (FArr [JStr (js "80")])
  /\ handleSubmit None (getValues (form edited)) edited
     = Some [(js "fetch.ports", FArr [JStr (js "80")])].
Proof.
  split; [|vm_compute; reflexivity].
  apply (submit_sends_differences None edited).
  - apply (reach_edit None (useSettingsForm (Some (FObj sample_options)))); [constructor|reflexivity].
  - vm_compute. reflexivity.
  - vm_compute. reflexivity.
  - exists [js "fetch"; js "ports"]. split; [reflexivity|]. split; [vm_compute; reflexivity|].
    split; [vm_compute; discriminate|vm_compute; reflexivity].
Defined.

Section Refetch.
Context {Form : Type} `{FormLaws Form}.

(** A saved form has nothing to send. *)
Lemma saved_form_clean compareValues data (st : Hook Form) :
  wf_form data = true -> handleSubmit compareValues data (submitDone data st) = None.
Proof.
  intros Hd. destruct (handleSubmit compareValues data (submitDone data st)) as [ch|] eqn:E; [|done].
  exfalso. assert (getValues (form (submitDone data st)) = data) as Hv by apply values_reset.
  unfold handleSubmit in E.
  destruct (List.filter _ _) as [|[k x] es] eqn:Ef; [done|].
  assert (In (k, x) ((k, x) :: es)) as Hin by (by left). rewrite <- Ef in Hin. apply filter_In in Hin as [Hin _].
  destruct (dirty_lookup (submitDone data st) k x) as [Hn Hl]; [by rewrite Hv|]. cbv zeta in Hn, Hl.
  rewrite Hv in Hn, Hl. apply In_mget in Hin; [|done]. apply Hl in Hin as (p & _ & H1 & H2).
  unfold submitDone, adopt in H2. cbn [form] in H2. by rewrite defaults_reset in H2.
Qed.

(** Default values that arrive from the server with another text replace
    what the user has typed. *)
Lemma refetch_overwrites_input d (st : Hook Form) :
  json_text (FObj (flattenValues (expandDotPaths d) None [])) <> serializedDefaultsRef st ->
  getValues (form (defaultsChanged (Some d) st)) = expandDotPaths d.
Proof.
  intros Hne. unfold defaultsChanged. cbn [option_map]. rewrite bool_decide_false by done. apply values_reset.
Qed.
End Refetch.
