(* ===== verification/Topup.v ===== *)
(** * Top-up of the customer site

    Model of src/web/customer/src/helpers/payments.ts: which payment methods a
    customer is offered, the amounts, and how the answer to an order becomes a
    page to open; of the requests of services/customer-api.ts it makes, and of
    the number formats of helpers/format.ts it uses.  The conversion of case,
    the locale's number formats, the translation and the URL constructor are
    parameters. *)

From S2P Require Import Prelude JsStr JsNum JsArray JsJson.

(** ** Types *)

(** A field declared as a number or a string; [None] is undefined. *)
Definition Numeric := option (num + jsstr).

(** [Number(value)]. *)
Definition Number_of (value : Numeric) : num :=
  match value with
  | None => nan
  | Some (inl x) => x
  | Some (inr s) => num_of_str s
  end.

Inductive TopupPaymentProvider := Epay | Stripe | Waffo | WaffoPancake.
Inductive Payee := ByProvider (p : TopupPaymentProvider) | Creem.

#[export] Instance provider_eq_dec : EqDecision TopupPaymentProvider.
Proof. solve_decision. Defined.
#[export] Instance payee_eq_dec : EqDecision Payee.
Proof. solve_decision. Defined.

Record TopupPaymentMethod := mkMethod {
  method_name : option jsstr; method_type : option jsstr; method_min_topup : Numeric; method_icon : option jsstr
}.

Record WaffoPayMethod := mkWaffo { waffo_name : option jsstr; waffo_icon : option jsstr }.

Record TopupInfo := mkInfo {
  enable_online_topup : bool;
  enable_stripe_topup : bool;
  enable_creem_topup : bool;
  enable_waffo_topup : bool;
  enable_waffo_pancake_topup : bool;
  enable_redemption : option bool;
  payment_compliance_confirmed : option bool;
  pay_methods : list TopupPaymentMethod;
  waffo_pay_methods : list WaffoPayMethod;
  creem_products : option (jsstr + list json);
  amount_options : list Numeric;
  discount : list (jsstr * Numeric);
  min_topup : Numeric;
  stripe_min_topup : Numeric;
  waffo_min_topup : Numeric;
  waffo_pancake_min_topup : Numeric
}.

(** What [topupInfo?.field] reads when there is no information yet. *)
Definition no_info : TopupInfo :=
  mkInfo false false false false false None None [] [] None [] [] None None None None.
Definition info (topupInfo : option TopupInfo) : TopupInfo := default no_info topupInfo.

Record TopupPaymentOption := mkOption {
  opt_id : jsstr;
  opt_name : jsstr;
  provider : TopupPaymentProvider;
  paymentMethod : option jsstr;
  minTopup : num;
  opt_icon : option jsstr;
  waffoIndex : option nat
}.

Record CreemProduct := mkProduct {
  productId : option jsstr; product_id : option jsstr; product_name : option jsstr
}.

Record ApiResponse := mkResponse {
  success : bool; r_message : option jsstr; data : option json; url : option jsstr
}.

Inductive PurchaseLaunch :=
| LaunchUrl (url : jsstr) (currentTab : bool)
| LaunchEpay (url : jsstr) (params : json).

Record CustomerStatus := mkStatus {
  quota_per_unit : Numeric; quota_display_type : option jsstr; custom_currency_symbol : option jsstr
}.

(** [a || b] on strings that may be undefined. *)
Definition or_text (a : option jsstr) (b : jsstr) : jsstr :=
  match a with Some s => if truthy s then s else b | None => b end.

(** ** Methods and amounts *)

Definition toPositiveNumber (value : Numeric) (fallback : num) : num :=
  let parsed := Number_of value in
  if isFinite parsed && ngt parsed zero then parsed else fallback.

Definition one : num := num_of_Z 1.

Definition getProviderMinTopup (p : TopupPaymentProvider) (topupInfo : TopupInfo) : num :=
  match p with
  | Stripe => toPositiveNumber (stripe_min_topup topupInfo) one
  | Waffo => toPositiveNumber (waffo_min_topup topupInfo) one
  | WaffoPancake => toPositiveNumber (waffo_pancake_min_topup topupInfo) one
  | Epay => toPositiveNumber (min_topup topupInfo) one
  end.

Definition getMethodMinTopup (method : TopupPaymentMethod) (p : TopupPaymentProvider) (topupInfo : TopupInfo)
    : num :=
  toPositiveNumber (method_min_topup method) (getProviderMinTopup p topupInfo).

Definition hasSpecificWaffoMethods (topupInfo : TopupInfo) : bool :=
  enable_waffo_topup topupInfo && negb (Nat.eqb (length (waffo_pay_methods topupInfo)) 0).

Definition provider_of (type : jsstr) : TopupPaymentProvider :=
  if str_eqb type (js "stripe") then Stripe
  else if str_eqb type (js "waffo") then Waffo
  else if str_eqb type (js "waffo_pancake") then WaffoPancake
  else Epay.

Definition provider_enabled (p : TopupPaymentProvider) (topupInfo : TopupInfo) : bool :=
  match p with
  | Stripe => enable_stripe_topup topupInfo
  | Waffo => enable_waffo_topup topupInfo
  | WaffoPancake => enable_waffo_pancake_topup topupInfo
  | Epay => enable_online_topup topupInfo
  end.

(** One round of the loop over the methods; [None] is [continue]. *)
Definition method_option (topupInfo : TopupInfo) (method : TopupPaymentMethod) : option TopupPaymentOption :=
  let type := trim (or_text (method_type method) []) in
  if negb (truthy type) || str_eqb type (js "creem") then None
  else if str_eqb type (js "waffo") && hasSpecificWaffoMethods topupInfo then None
  else
    let p := provider_of type in
    if negb (provider_enabled p topupInfo) then None
    else Some (mkOption type (or_text (method_name method) type) p (Some type)
                 (getMethodMinTopup method p topupInfo) (method_icon method) None).

Definition has_provider (p : TopupPaymentProvider) (options : list TopupPaymentOption) : bool :=
  existsb (fun item => bool_decide (provider item = p)) options.

(** The option a provider gets when no method names it. *)
Definition default_option (id name : jsstr) (p : TopupPaymentProvider) (topupInfo : TopupInfo)
    : TopupPaymentOption :=
  mkOption id name p (Some id) (getProviderMinTopup p topupInfo) None None.

Definition add_default (id name : jsstr) (p : TopupPaymentProvider) (topupInfo : TopupInfo)
    (options : list TopupPaymentOption) : list TopupPaymentOption :=
  if provider_enabled p topupInfo && negb (has_provider p options)
  then options ++ [default_option id name p topupInfo] else options.

Definition waffo_option (topupInfo : TopupInfo) (index : nat) (method : WaffoPayMethod) : TopupPaymentOption :=
  mkOption (js "waffo:" ++ num_to_str (num_of_nat index))
    (match waffo_name method with
     | Some n => if truthy n then js "Waffo " ++ n else js "Waffo " ++ num_to_str (num_of_nat (index + 1))
     | None => js "Waffo " ++ num_to_str (num_of_nat (index + 1))
     end)
    Waffo None (getProviderMinTopup Waffo topupInfo) (waffo_icon method) (Some index).

Definition payment_options (topupInfo : TopupInfo) : list TopupPaymentOption :=
  let options := omap (method_option topupInfo) (pay_methods topupInfo) in
  let options := add_default (js "stripe") (js "Stripe") Stripe topupInfo options in
  let options := add_default (js "waffo_pancake") (js "Waffo Pancake") WaffoPancake topupInfo options in
  if hasSpecificWaffoMethods topupInfo
  then options ++ imap (waffo_option topupInfo) (waffo_pay_methods topupInfo)
  else add_default (js "waffo") (js "Waffo") Waffo topupInfo options.

Definition getTopupPaymentOptions (topupInfo : option TopupInfo) : list TopupPaymentOption :=
  payment_options (info topupInfo).

Definition parseCreemProducts (value : option (jsstr + list json)) : list json :=
  match value with
  | Some (inr l) => l
  | None => []
  | Some (inl s) =>
      if negb (truthy s) then []
      else match parse s with Some (JArr l) => l | _ => [] end
  end.

Definition configuredAmounts (topupInfo : TopupInfo) : list num :=
  List.filter (fun item => ngt item zero) (map (fun item => toPositiveNumber item zero) (amount_options topupInfo)).

Definition getDefaultTopupAmount (topupInfo : option TopupInfo) : num :=
  match sort_with nsub (configuredAmounts (info topupInfo)) with
  | x :: _ => x
  | [] =>
      let min := match map minTopup (getTopupPaymentOptions topupInfo) with
                 | m :: l => foldl nmin m l
                 | [] => toPositiveNumber (min_topup (info topupInfo)) one
                 end in
      if ngt min zero then min else one
  end.

Definition getTopupPresetAmounts (topupInfo : option TopupInfo) : list num :=
  match configuredAmounts (info topupInfo) with
  | [] => map (fun multiplier => nmul (getDefaultTopupAmount topupInfo) (num_of_Z multiplier))
            [1; 5; 10; 30; 50; 100; 300; 500]%Z
  | l => l
  end.

Definition getTopupDiscountRate (topupInfo : option TopupInfo) (amount : num) : num :=
  let rate := Number_of (default None (mget (num_to_str amount) (discount (info topupInfo)))) in
  if isFinite rate && ngt rate zero then rate else one.

Definition getEpayMethods (topupInfo : option TopupInfo) : list TopupPaymentMethod :=
  List.filter (fun method =>
    let type := or_text (method_type method) [] in
    truthy type && negb (str_eqb type (js "stripe")) && negb (str_eqb type (js "creem"))
    && negb (str_eqb type (js "waffo")) && negb (str_eqb type (js "waffo_pancake")))
    (pay_methods (info topupInfo)).

(** ** Answers of the server *)

Definition isApiSuccess (response : ApiResponse) : bool :=
  success response || bool_decide (r_message response = Some (js "success")).

Definition isSubscriptionPaymentSuccess (response : ApiResponse) : bool :=
  success response || bool_decide (r_message response = Some (js "success")).

Section Payments.
  (** [localizeKey(language, key)]; the case conversions; the number formats
      of the locale ([None] when the format throws); the protocol of
      [new URL(url, window.location.href)], [None] when it throws. *)
  Variable t : jsstr -> jsstr.
  Variable toLowerCase toUpperCase : jsstr -> jsstr.
  Variable toLocaleString : num -> jsstr.
  Variable currencyFormat : jsstr -> Z -> num -> option jsstr.
  Variable url_protocol : jsstr -> option jsstr.

Definition getTopupStatusLabel (status : jsstr) : jsstr :=
  let normalized := toLowerCase status in
  if str_eqb normalized (js "success") then t (js "Success")
  else if str_eqb normalized (js "pending") then t (js "Pending")
  else if str_eqb normalized (js "expired") then t (js "Expired")
  else if str_eqb normalized (js "failed") then t (js "Failed")
  else or_text (Some status) (js "-").

Definition getSubscriptionStatusLabel (status : jsstr) : jsstr :=
  let normalized := toLowerCase status in
  if str_eqb normalized (js "active") then t (js "Active")
  else if str_eqb normalized (js "expired") then t (js "Expired")
  else if str_eqb normalized (js "cancelled") || str_eqb normalized (js "canceled") then t (js "Cancelled")
  else if str_eqb normalized (js "pending") then t (js "Pending")
  else or_text (Some status) (js "-").

Definition getSubscriptionSourceLabel (source : option jsstr) : jsstr :=
  let normalized := toLowerCase (or_text source []) in
  if str_eqb normalized (js "balance") then t (js "Balance")
  else if str_eqb normalized (js "admin") then t (js "Admin grant")
  else if str_eqb normalized (js "order") then t (js "Online payment")
  else or_text source (js "-").

Definition getApiPaymentError (response : ApiResponse) (fallbackKey : jsstr) : jsstr :=
  match data response with
  | Some (JStr s) => s
  | _ => or_text (r_message response) (t fallbackKey)
  end.

Definition getSubscriptionPaymentError (response : ApiResponse) : jsstr :=
  match data response with
  | Some (JStr s) => s
  | _ => or_text (r_message response) (t (js "Payment failed"))
  end.

Definition isSafeCheckoutUrl (url : jsstr) : bool :=
  match url_protocol url with
  | Some protocol => str_eqb protocol (js "http:") || str_eqb protocol (js "https:")
  | None => false
  end.

(** A field that is a string and not empty. *)
Definition link_field (k : jsstr) (data : json) : option jsstr :=
  match jfield k data with Some (JStr s) => if truthy s then Some s else None | _ => None end.

Definition getTopupLaunch (response : ApiResponse) (p : Payee) : option PurchaseLaunch :=
  let d := match data response with
           | Some (JObj l) => JObj l
           | Some (JArr l) => JArr l
           | _ => JObj []
           end in
  let checkout :=
    let paymentUrl :=
      match link_field (js "pay_link") d with
      | Some s => s
      | None => match link_field (js "checkout_url") d with
                | Some s => s
                | None => default [] (link_field (js "payment_url") d)
                end
      end in
    if negb (truthy paymentUrl) || negb (isSafeCheckoutUrl paymentUrl) then None
    else Some (LaunchUrl paymentUrl (bool_decide (p = ByProvider WaffoPancake))) in
  match p, url response with
  | ByProvider Epay, Some u => if truthy u then Some (LaunchEpay u d) else checkout
  | _, _ => checkout
  end.

Definition getPaymentLaunchMessage (launch : PurchaseLaunch) (launched : bool) : jsstr :=
  if negb launched then
    t (js "Payment page is ready. If it did not open automatically, use the button below to continue.")
  else match launch with
       | LaunchEpay _ _ => t (js "Payment started. Please finish it on the payment page.")
       | LaunchUrl _ true => t (js "Redirecting to the payment page. Please finish payment there.")
       | LaunchUrl _ false => t (js "Payment page opened. Please finish it in the new window.")
       end.

(** ** Formats *)

Definition ntrunc (x : num) : num := if nlt x zero then nceil x else nfloor x.

Definition formatCompactNumber (value : num) : jsstr :=
  let abs := nabs value in
  if nge abs (num_of_Z 1000000000) then toFixed (ndiv value (num_of_Z 1000000000)) 1 ++ js "B"
  else if nge abs (num_of_Z 1000000) then toFixed (ndiv value (num_of_Z 1000000)) 1 ++ js "M"
  else if nge abs (num_of_Z 1000) then toFixed (ndiv value (num_of_Z 1000)) 1 ++ js "K"
  else num_to_str (nround value).

Definition formatQuotaTokens (quota : num) : jsstr := formatCompactNumber quota ++ js " tokens".

Definition DEFAULT_QUOTA_PER_UNIT : num := num_of_Z 500000.

Definition getQuotaPerUnit (status : option CustomerStatus) : num :=
  let value := match status with Some s => Number_of (quota_per_unit s) | None => nan end in
  if isFinite value && ngt value zero then value else DEFAULT_QUOTA_PER_UNIT.

Definition formatQuotaMoney (quota : num) (status : option CustomerStatus) : jsstr :=
  js "$" ++ toFixed (ndiv quota (getQuotaPerUnit status)) 2.

Definition formatCurrencyAmount (amount : num) (currency : jsstr) : jsstr :=
  let normalized := if isFinite amount then amount else zero in
  let code := toUpperCase (or_text (Some currency) (js "USD")) in
  let hasFraction := ngt (nabs (nsub normalized (ntrunc normalized))) (dec_to_num false 1 (-6)) in
  match currencyFormat code (if hasFraction then 2 else 0) normalized with
  | Some s => s
  | None => code ++ js " " ++ toFixed normalized (if hasFraction then 2 else 0)
  end.

Definition display_type (status : option CustomerStatus) : option jsstr :=
  match status with
  | Some s => match quota_display_type s with Some d => Some (toUpperCase d) | None => None end
  | None => None
  end.

Definition symbol_or (status : option CustomerStatus) (d : jsstr) : jsstr :=
  match status with Some s => or_text (custom_currency_symbol s) d | None => d end.

Definition getTopupAmountUnit (status : option CustomerStatus) : jsstr :=
  let type := display_type status in
  if bool_decide (type = Some (js "TOKENS")) then js "tokens"
  else if bool_decide (type = Some (js "CNY")) then js "CNY"
  else if bool_decide (type = Some (js "CUSTOM")) then symbol_or status (js "credits")
  else js "USD".

Definition formatTopupAmount (value : num) (status : option CustomerStatus) : jsstr :=
  let unit := getTopupAmountUnit status in
  if str_eqb unit (js "tokens") then formatQuotaTokens value
  else if str_eqb unit (js "USD") then formatCurrencyAmount value (js "USD")
  else if str_eqb unit (js "CNY") then formatCurrencyAmount value (js "CNY")
  else unit ++ toLocaleString (num_or value zero).

Definition formatTopupPaymentAmount (amount : option num) (status : option CustomerStatus) : jsstr :=
  match amount with
  | None => js "-"
  | Some amount =>
      if negb (isFinite amount) then js "-"
      else
        let type := display_type status in
        if bool_decide (type = Some (js "CNY")) then formatCurrencyAmount amount (js "CNY")
        else if bool_decide (type = Some (js "CUSTOM")) then symbol_or status [] ++ toFixed amount 2
        else formatCurrencyAmount amount (js "USD")
  end.

End Payments.

(** ** Requests *)

(** The address and the body of a request. *)
Record Request := mkRequest { endpoint : jsstr; body : json }.

Definition calculateTopupAmount (amount : num) (p : TopupPaymentProvider) : Request :=
  mkRequest
    (match p with
     | Stripe => js "/api/user/stripe/amount"
     | Waffo => js "/api/user/waffo/amount"
     | WaffoPancake => js "/api/user/waffo-pancake/amount"
     | Epay => js "/api/user/amount"
     end)
    (JObj [(js "amount", JNum amount)]).

Definition requestTopupPayment (amount : num) (option : TopupPaymentOption) : Request :=
  match provider option with
  | Stripe => mkRequest (js "/api/user/stripe/pay")
                (JObj [(js "amount", JNum amount); (js "payment_method", JStr (js "stripe"))])
  | Waffo =>
      mkRequest (js "/api/user/waffo/pay")
        (JObj ((js "amount", JNum amount)
               :: match waffoIndex option with
                  | Some i => [(js "pay_method_index", JNum (num_of_nat i))]
                  | None => []
                  end))
  | WaffoPancake => mkRequest (js "/api/user/waffo-pancake/pay") (JObj [(js "amount", JNum amount)])
  | Epay => mkRequest (js "/api/user/pay")
              (JObj [(js "amount", JNum amount);
                     (js "payment_method", JStr (or_text (paymentMethod option) (opt_id option)))])
  end.

Definition requestCreemTopupPayment (productId : jsstr) : Request :=
  mkRequest (js "/api/user/creem/pay")
    (JObj [(js "product_id", JStr productId); (js "payment_method", JStr (js "creem"))]).

Definition redeemTopupCode (key : jsstr) : Request :=
  mkRequest (js "/api/user/topup") (JObj [(js "key", JStr key)]).
