(* ===== verification/TopupDialog.v ===== *)
(** * The top-up dialog

    Model of src/web/customer/src/components/topup/TopupDialog.tsx as a
    transition system: the state of the component, its effects, its handlers
    cut at their awaits, and the answers of the server in any order.  The
    guards are those of the handlers and of the buttons' [disabled].  Markup
    and the customer's profile are left out. *)

From S2P Require Import Prelude JsStr JsNum JsArray JsJson Topup.

(** ** State *)

Inductive PurchaseStepState := pending | processing | done | error.

#[export] Instance step_eq_dec : EqDecision PurchaseStepState.
Proof. solve_decision. Defined.

Record PurchaseProgress := mkProgress {
  planName : jsstr;
  order : PurchaseStepState;
  paymentInfo : PurchaseStepState;
  launch_step : PurchaseStepState;
  p_message : jsstr;
  p_error : option jsstr;
  canClose : bool;
  p_launch : option PurchaseLaunch
}.

(** What the effect of the estimate depends on: the object of the selected
    method (the load it comes from and its id) and the amount. *)
Record Deps := mkDeps { dep_info : nat; dep_selected : jsstr; dep_method : option jsstr; dep_amount : num }.

#[export] Instance deps_eq_dec : EqDecision Deps.
Proof. solve_decision. Defined.

(** What the estimate is asked for; the timer and the request of a quote live
    until the cleanup of the effect. *)
Record Quote := mkQuote { quote_amount : num; quote_provider : TopupPaymentProvider }.

(** A log of what was sent is kept beside the state of the component. *)
Inductive Sent :=
| SentPayment (info : option TopupInfo) (amount : num) (option : TopupPaymentOption)
| SentCreem (productId : jsstr)
| SentCode (code : jsstr).

Record Dialog := mkDialog {
  signed_in : bool;
  status : option CustomerStatus;
  topupInfo : option TopupInfo;
  info_gen : nat;                      (* how often [topupInfo] was set *)
  loading : bool;
  requestId : nat;                     (* useLatestRequest *)
  message : jsstr;
  topupAmount : num;
  selectedPaymentMethodId : jsstr;
  paymentAmount : option num;
  amountLoading : bool;
  paymentLoading : jsstr;
  redemptionCode : jsstr;
  redeeming : bool;
  topupProgress : option PurchaseProgress;
  deps : option Deps;                  (* of the last run of the effects *)
  live_quote : option nat;             (* the quote that is not cancelled *)
  issued : list Quote;                 (* all quotes, by number *)
  quoted_for : option (num * TopupPaymentProvider);   (* what [paymentAmount] answers *)
  in_flight : list Payee;              (* orders that wait for an answer *)
  sent_log : list Sent
}.

(** ** Updates of single fields *)

Section Setters.
  Variable s : Dialog.

Definition setMessage (m : jsstr) : Dialog :=
  let '(mkDialog a b c d e f _ h i j k l n o p q r u v w x) := s in mkDialog a b c d e f m h i j k l n o p q r u v w x.
Definition setTopupAmount (m : num) : Dialog :=
  let '(mkDialog a b c d e f g _ i j k l n o p q r u v w x) := s in mkDialog a b c d e f g m i j k l n o p q r u v w x.
Definition setSelectedPaymentMethodId (m : jsstr) : Dialog :=
  let '(mkDialog a b c d e f g h _ j k l n o p q r u v w x) := s in mkDialog a b c d e f g h m j k l n o p q r u v w x.
Definition setPaymentAmount (m : option num) (by_ : option (num * TopupPaymentProvider)) : Dialog :=
  let '(mkDialog a b c d e f g h i _ k l n o p q r u _ w x) := s in mkDialog a b c d e f g h i m k l n o p q r u by_ w x.
Definition setAmountLoading (m : bool) : Dialog :=
  let '(mkDialog a b c d e f g h i j _ l n o p q r u v w x) := s in mkDialog a b c d e f g h i j m l n o p q r u v w x.
Definition setPaymentLoading (m : jsstr) : Dialog :=
  let '(mkDialog a b c d e f g h i j k _ n o p q r u v w x) := s in mkDialog a b c d e f g h i j k m n o p q r u v w x.
Definition setRedemption (code : jsstr) (busy : bool) : Dialog :=
  let '(mkDialog a b c d e f g h i j k l _ _ p q r u v w x) := s in mkDialog a b c d e f g h i j k l code busy p q r u v w x.
Definition setTopupProgress (m : option PurchaseProgress) : Dialog :=
  let '(mkDialog a b c d e f g h i j k l n o _ q r u v w x) := s in mkDialog a b c d e f g h i j k l n o m q r u v w x.
Definition set_quote (d : option Deps) (m : option nat) (next : list Quote) : Dialog :=
  let '(mkDialog a b c d' e f g h i j k l n o p _ _ _ v w x) := s in mkDialog a b c d' e f g h i j k l n o p d m next v w x.
Definition set_orders (m : list Payee) (log : list Sent) : Dialog :=
  let '(mkDialog a b c d e f g h i j k l n o p q r u v _ _) := s in mkDialog a b c d e f g h i j k l n o p q r u v m log.
Definition set_loading (busy : bool) (id : nat) : Dialog :=
  let '(mkDialog a b c d _ _ g h i j k l n o p q r u v w x) := s in mkDialog a b c d busy id g h i j k l n o p q r u v w x.
Definition setTopupInfo (i : option TopupInfo) (gen : nat) (st : option CustomerStatus) : Dialog :=
  let '(mkDialog a _ _ _ e f g h i' j k l n o p q r u v w x) := s in mkDialog a st i gen e f g h i' j k l n o p q r u v w x.
End Setters.

Definition mount (user : bool) : Dialog :=
  mkDialog user None None 0 true 0 [] zero [] None false [] [] false None None None [] None [] [].

(** ** Derived values of a render *)

Definition paymentOptions (s : Dialog) : list TopupPaymentOption := getTopupPaymentOptions (topupInfo s).

Definition selectedPaymentMethod (s : Dialog) : option TopupPaymentOption :=
  match find (fun item => str_eqb (opt_id item) (selectedPaymentMethodId s)) (paymentOptions s) with
  | Some item => Some item
  | None => head (paymentOptions s)
  end.

Definition complianceBlocked (s : Dialog) : bool :=
  bool_decide (payment_compliance_confirmed (info (topupInfo s)) = Some false).

Definition paymentDisabled (s : Dialog) : bool :=
  complianceBlocked s
  || match selectedPaymentMethod s with
     | None => true
     | Some m => nlt (topupAmount s) (minTopup m)
     end
  || truthy (paymentLoading s).

Definition redemptionEnabled (s : Dialog) : bool :=
  match topupInfo s with Some i => negb (bool_decide (enable_redemption i = Some false)) | None => false end.

Definition hasCreemTopup (s : Dialog) : bool :=
  enable_creem_topup (info (topupInfo s))
  && negb (Nat.eqb (length (parseCreemProducts (creem_products (info (topupInfo s))))) 0).

(** ** Effects *)

Definition current_deps (s : Dialog) : Deps :=
  mkDeps (info_gen s) (selectedPaymentMethodId s) (option_map opt_id (selectedPaymentMethod s)) (topupAmount s).

(** The effect on [topupInfo]; [r] is the render the effect belongs to. *)
Definition amount_effect (r s : Dialog) : Dialog :=
  match topupInfo r with
  | None => s
  | Some _ => if ngt (topupAmount s) zero then s else setTopupAmount s (getDefaultTopupAmount (topupInfo r))
  end.

(** The effect on the options and the selected id. *)
Definition selection_effect (r s : Dialog) : Dialog :=
  match paymentOptions r with
  | [] => setSelectedPaymentMethodId s []
  | first :: _ =>
      if existsb (fun item => str_eqb (opt_id item) (selectedPaymentMethodId r)) (paymentOptions r) then s
      else setSelectedPaymentMethodId s (opt_id first)
  end.

(** The effect on the selected method and the amount, after the cleanup that
    cancels the quote before it. *)
Definition estimate_effect (r s : Dialog) : Dialog :=
  let idle := setAmountLoading (setPaymentAmount s None None) false in
  match selectedPaymentMethod r with
  | None => set_quote idle (deps s) None (issued s)
  | Some m =>
      if nle (topupAmount r) zero || nlt (topupAmount r) (minTopup m)
      then set_quote idle (deps s) None (issued s)
      else set_quote (setAmountLoading s true) (deps s)
             (Some (length (issued s))) (issued s ++ [mkQuote (topupAmount r) (provider m)])
  end.

(** Object.is on numbers is equality of doubles. *)
Definition info_changed (d : option Deps) (now : Deps) : bool :=
  match d with None => true | Some o => negb (bool_decide (dep_info o = dep_info now)) end.
Definition selection_changed (d : option Deps) (now : Deps) : bool :=
  match d with
  | None => true
  | Some o => negb (bool_decide (dep_info o = dep_info now)) || negb (bool_decide (dep_selected o = dep_selected now))
  end.
Definition estimate_changed (d : option Deps) (now : Deps) : bool :=
  match d with
  | None => true
  | Some o => negb (bool_decide (dep_info o = dep_info now)) || negb (bool_decide (dep_method o = dep_method now))
              || negb (bool_decide (dep_amount o = dep_amount now))
  end.

(** The effects of one render, in the order of the component; all of them see
    the render [r], their updates make the next state. *)
Definition effects (r : Dialog) : Dialog :=
  let now := current_deps r in
  let s := if info_changed (deps r) now then amount_effect r r else r in
  let s := if selection_changed (deps r) now then selection_effect r s else s in
  let s := if estimate_changed (deps r) now then estimate_effect r s else s in
  set_quote s (Some now) (live_quote s) (issued s).

(** Renders until nothing changes; three are enough. *)
Definition settle (s : Dialog) : Dialog := effects (effects (effects s)).

(** ** Loading *)

Definition loadTopupDialog (s : Dialog) : Dialog :=
  if negb (signed_in s) then set_loading s false (requestId s)
  else set_loading s true (S (requestId s)).

Section Handlers.
  Variable t : jsstr -> jsstr.
  (** [localizeKey(language, key, { amount })]. *)
  Variable t_amount : jsstr -> num -> jsstr.
  Variable t_text : jsstr -> jsstr -> jsstr.
  Variable toUpperCase : jsstr -> jsstr.
  Variable toLocaleString : num -> jsstr.
  Variable currencyFormat : jsstr -> Z -> num -> option jsstr.
  Variable url_protocol : jsstr -> option jsstr.

(** The answers of a load: the status, and the settings with their message. *)
Definition loaded (id : nat) (statusRes : option CustomerStatus) (infoOk : bool) (infoRes : option TopupInfo)
    (infoMessage : option jsstr) (s : Dialog) : Dialog :=
  if negb (Nat.eqb id (requestId s)) then s
  else
    let st := match statusRes with Some x => Some x | None => status s end in
    let s := match infoOk, infoRes with
             | true, Some i => setTopupInfo s (Some i) (S (info_gen s)) st
             | _, _ => setTopupInfo s (topupInfo s) (info_gen s) st
             end in
    let s := setMessage s (if infoOk then [] else or_text infoMessage (t (js "Failed to load top-up settings"))) in
    set_loading s false (requestId s).

(** ** The estimate *)

(** The answer to a quote; [value] is [Number(response.data)], if the answer
    is a success with data. *)
Definition quoteAnswered (id : nat) (value : option num) (s : Dialog) : Dialog :=
  match issued s !! id with
  | None => s
  | Some q =>
      if bool_decide (live_quote s = Some id) then
        let s := match value with
                 | Some x => if isFinite x then setPaymentAmount s (Some x) (Some (quote_amount q, quote_provider q))
                             else setPaymentAmount s None None
                 | None => setPaymentAmount s None None
                 end in
        setAmountLoading s false
      else s
  end.

(** ** Payments *)

Definition setTopupSteps (o i l : option PurchaseStepState) (s : Dialog) : Dialog :=
  setTopupProgress s
    (match topupProgress s with
     | Some p => Some (mkProgress (planName p) (default (order p) o) (default (paymentInfo p) i)
                         (default (launch_step p) l) (p_message p) (p_error p) (canClose p) (p_launch p))
     | None => None
     end).

(** [updateTopupProgress]: the outer option is an absent field of the patch. *)
Definition updateTopupProgress (m : jsstr) (e : option (option jsstr)) (c : option bool)
    (l : option PurchaseLaunch) (s : Dialog) : Dialog :=
  setTopupProgress s
    (match topupProgress s with
     | Some p => Some (mkProgress (planName p) (order p) (paymentInfo p) (launch_step p) m
                         (default (p_error p) e) (default (canClose p) c)
                         (match l with Some x => Some x | None => p_launch p end))
     | None => None
     end).

(** The error path: the message goes to the panel, which can be closed. *)
Definition fail_with (errorMessage : jsstr) (s : Dialog) : Dialog :=
  setMessage (updateTopupProgress errorMessage (Some (Some errorMessage)) (Some true) None s) errorMessage.

(** [launched] is what opening the page returned. *)
Definition handleLaunchTopupPayment (launch : PurchaseLaunch) (launched : bool) (s : Dialog) : Dialog :=
  let s := setTopupSteps None None (Some processing) s in
  let nextMessage := getPaymentLaunchMessage t launch launched in
  let s := setTopupSteps None None (Some done) s in
  setMessage (updateTopupProgress nextMessage (Some None) (Some true) None s) nextMessage.

(** [startTopupPayment] up to its await; a visitor is sent to the sign-in page. *)
Definition startTopupPayment (title : jsstr) (p : Payee) (request : Sent) (loadingKey : jsstr) (s : Dialog) : Dialog :=
  if negb (signed_in s) then s
  else
    let s := setPaymentLoading (setMessage s []) loadingKey in
    let s := setTopupProgress s
               (Some (mkProgress title processing pending pending (t (js "Creating order...")) None false None)) in
    let s := setTopupSteps None (Some processing) None s in
    let s := updateTopupProgress (t (js "Getting payment details...")) None None None s in
    set_orders s (p :: in_flight s) (request :: sent_log s).

(** The rest of it, for the answer to the [n]th order in flight; opening the
    page may throw ([launched] is [None]). *)
Definition paymentAnswered (n : nat) (response : ApiResponse) (launched : option bool) (s : Dialog) : Dialog :=
  match in_flight s !! n with
  | None => s
  | Some p =>
      let s := set_orders s (delete n (in_flight s)) (sent_log s) in
      let s :=
        if negb (isApiSuccess response) then
          fail_with (getApiPaymentError t response (js "Payment failed"))
            (setTopupSteps (Some error) (Some pending) None s)
        else match getTopupLaunch url_protocol response p with
             | None =>
                 fail_with (t (js "Payment link was not returned."))
                   (setTopupSteps (Some done) (Some done) (Some error) s)
             | Some launch =>
                 let s := setTopupSteps (Some done) (Some done) (Some processing) s in
                 let s := updateTopupProgress (t (js "Payment details received. Launching payment..."))
                            None None (Some launch) s in
                 match launched with
                 | Some b => handleLaunchTopupPayment launch b s
                 | None =>
                     fail_with (t (js "Top-up flow failed. Please try again."))
                       (setTopupSteps (Some error) None None (setTopupSteps None None (Some processing) s))
                 end
             end in
      setPaymentLoading s []
  end.

Definition handleTopupPayment (option : TopupPaymentOption) (s : Dialog) : Dialog :=
  let amount := nfloor (num_or (topupAmount s) zero) in
  if nlt amount (minTopup option) then
    setMessage s (t_amount (js "Minimum top-up amount is {{amount}}") (minTopup option))
  else
    startTopupPayment
      (opt_name option ++ [32; 183; 32]%N
       ++ formatTopupAmount toUpperCase toLocaleString currencyFormat amount (status s))
      (ByProvider (provider option)) (SentPayment (topupInfo s) amount option) (opt_id option) s.

Definition handleCreemPayment (product : CreemProduct) (s : Dialog) : Dialog :=
  let id := or_text (productId product) (or_text (product_id product) []) in
  if negb (truthy id) then setMessage s (t (js "Product is not configured."))
  else startTopupPayment (or_text (product_name product) (js "Creem")) Creem (SentCreem id) (js "creem:" ++ id) s.

(** ** Redemption codes *)

Definition handleRedeemCode (s : Dialog) : Dialog :=
  let code := trim (redemptionCode s) in
  if negb (truthy code) then setMessage s (t (js "Enter a redemption code."))
  else set_orders (setMessage (setRedemption s (redemptionCode s) true) []) (in_flight s) (SentCode code :: sent_log s).

(** [quota] is [Number(response.data || 0)]. *)
Definition redeemAnswered (response : ApiResponse) (quota : num) (s : Dialog) : Dialog :=
  let s :=
    if negb (isApiSuccess response) then setMessage s (getApiPaymentError t response (js "Redemption failed"))
    else setRedemption
           (setMessage s (t_text (js "Redeemed {{amount}} successfully.") (formatQuotaMoney quota (status s))))
           [] (redeeming s) in
  setRedemption s (redemptionCode s) false.

(** ** Events *)

Inductive Event :=
| ELoad
| ELoaded (id : nat) (statusRes : option CustomerStatus) (infoOk : bool) (infoRes : option TopupInfo)
    (infoMessage : option jsstr)
| EType (text : jsstr)
| EPreset (amount : num)
| ESelect (option : TopupPaymentOption)
| EQuote (id : nat) (value : option num)
| EPay
| ECreem (product : CreemProduct)
| EPaymentAnswer (n : nat) (response : ApiResponse) (launched : option bool)
| EClosePanel
| ELaunchAgain (launched : bool)
| ECode (text : jsstr)
| ERedeem (by_enter : bool)
| ERedeemAnswer (response : ApiResponse) (quota : num).

(** What the page does on an event; a disabled control does nothing. *)
Definition handle (e : Event) (s : Dialog) : Dialog :=
  match e with
  | ELoad => loadTopupDialog s
  | ELoaded id st ok i m => loaded id st ok i m s
  | EType text => setTopupAmount s (if truthy text then num_of_str text else zero)
  | EPreset amount =>
      if bool_decide (amount ∈ take 8 (getTopupPresetAmounts (topupInfo s))) then setTopupAmount s amount else s
  | ESelect option => if str_eqb (paymentLoading s) (opt_id option) then s
                      else setSelectedPaymentMethodId s (opt_id option)
  | EQuote id value => quoteAnswered id value s
  | EPay => if paymentDisabled s then s
            else match selectedPaymentMethod s with Some m => handleTopupPayment m s | None => s end
  | ECreem product =>
      if complianceBlocked s || negb (hasCreemTopup s)
         || str_eqb (paymentLoading s)
              (js "creem:" ++ or_text (productId product)
                 (or_text (product_id product) (or_text (product_name product) []))) then s
      else handleCreemPayment product s
  | EPaymentAnswer n response launched => paymentAnswered n response launched s
  | EClosePanel => match topupProgress s with
                   | Some p => if canClose p then setTopupProgress s None else s
                   | None => s
                   end
  | ELaunchAgain launched =>
      match topupProgress s with
      | Some p => if canClose p then match p_launch p with
                                     | Some l => handleLaunchTopupPayment l launched s
                                     | None => s
                                     end
                  else s
      | None => s
      end
  | ECode text => setRedemption s text (redeeming s)
  | ERedeem by_enter =>
      if negb (redemptionEnabled s) || complianceBlocked s || (negb by_enter && redeeming s) then s
      else handleRedeemCode s
  | ERedeemAnswer response quota => redeemAnswered response quota s
  end.

(** An event, then the renders it causes. *)
Definition step (e : Event) (s : Dialog) : Dialog := settle (handle e s).

Inductive reachable : Dialog -> Prop :=
| reach_mount user : reachable (settle (loadTopupDialog (mount user)))
| reach_step e s : reachable s -> reachable (step e s).

End Handlers.
