(* ===== verification/TopupProps.v ===== *)
(** * What the top-up dialog guarantees

    The methods a customer is offered, the orders that are sent, the estimate
    that is shown and the panel of a payment, in every state the dialog can
    reach. *)

From S2P Require Import Prelude JsStr JsNum JsInt JsArray JsJson Topup TopupDialog.

(** ** Amounts *)

Lemma toPositive_pos v d : ngt d zero = true -> ngt (toPositiveNumber v d) zero = true.
Proof.
  intros Hd. unfold toPositiveNumber. cbv zeta. destruct (isFinite _ && ngt _ _) eqn:E; [|done].
  by apply andb_true_iff in E as [_ ?].
Qed.

Lemma one_pos : ngt one zero = true.
Proof. reflexivity. Qed.

Lemma providerMin_pos p i : ngt (getProviderMinTopup p i) zero = true.
Proof. destruct p; apply toPositive_pos, one_pos. Qed.

Lemma methodMin_pos m p i : ngt (getMethodMinTopup m p i) zero = true.
Proof. apply toPositive_pos, providerMin_pos. Qed.

(** ** Options *)

Definition option_fine (i : TopupInfo) (o : TopupPaymentOption) : Prop :=
  provider_enabled (provider o) i = true /\ ngt (minTopup o) zero = true.

Lemma method_option_fine i m o : method_option i m = Some o -> option_fine i o.
Proof.
  unfold method_option. cbv zeta. repeat simp_if; try done. intros [= <-]. split; [|apply methodMin_pos].
  cbn [provider]. by destruct (provider_enabled _ i).
Qed.

Lemma has_provider_In p l : has_provider p l = true <-> exists o, In o l /\ provider o = p.
Proof.
  unfold has_provider. rewrite existsb_exists. split; intros (o & Ho & Hp); exists o; (split; [done|]);
    by apply bool_decide_eq_true in Hp || apply bool_decide_eq_true.
Qed.

Lemma add_default_In id name p i l o :
  In o (add_default id name p i l) ->
  In o l \/ (provider_enabled p i = true /\ o = default_option id name p i).
Proof.
  unfold add_default. destruct (provider_enabled p i); cbn [andb]; [|by left].
  destruct (has_provider p l); cbn [negb]; [by left|]. rewrite in_app_iff. cbn. intuition.
Qed.

Lemma add_default_keeps id name p i l o : In o l -> In o (add_default id name p i l).
Proof. unfold add_default. destruct (_ && _); [|done]. rewrite in_app_iff. by left. Qed.

Lemma add_default_has id name p i l :
  provider_enabled p i = true -> exists o, In o (add_default id name p i l) /\ provider o = p.
Proof.
  intros Hp. unfold add_default. rewrite Hp. cbn [andb]. destruct (has_provider p l) eqn:E; cbn [negb].
  - by apply has_provider_In.
  - exists (default_option id name p i). split; [|done]. apply in_app_iff. right. by left.
Qed.

Lemma default_fine id name p i : provider_enabled p i = true -> option_fine i (default_option id name p i).
Proof. intros Hp. split; [done|apply providerMin_pos]. Qed.

Lemma options_fine i o : In o (payment_options i) -> option_fine i o.
Proof.
  unfold payment_options. cbv zeta.
  set (base := omap (method_option i) (pay_methods i)).
  assert (forall o, In o base -> option_fine i o) as Hbase.
  { intros x Hx. apply list_elem_of_In, list_elem_of_omap in Hx as (m & _ & Hm). by eapply method_option_fine. }
  assert (forall l id name p, (forall o, In o l -> option_fine i o) ->
            forall o, In o (add_default id name p i l) -> option_fine i o) as Hadd.
  { intros l id name p Hl x [Hx|[Hp ->]]%add_default_In; [by apply Hl|by apply default_fine]. }
  destruct (hasSpecificWaffoMethods i) eqn:Hw.
  - intros [Ho|Ho]%in_app_iff; [by eapply Hadd; [apply Hadd, Hbase|]|].
    apply in_imap in Ho as (n & a & _ & ->). split; [|apply providerMin_pos].
    by apply andb_true_iff in Hw as [? _].
  - by apply Hadd, Hadd, Hadd, Hbase.
Qed.

Lemma waffo_listed i : enable_waffo_topup i = true -> exists o, In o (payment_options i) /\ provider o = Waffo.
Proof.
  intros Hp. unfold payment_options. cbv zeta. destruct (hasSpecificWaffoMethods i) eqn:Hw.
  - apply andb_true_iff in Hw as [_ Hw]. destruct (waffo_pay_methods i) as [|m l]; [done|].
    exists (waffo_option i 0 m). split; [|done]. apply in_app_iff. right. by left.
  - by apply add_default_has.
Qed.

Lemma tail_keeps i l o :
  In o l -> In o (if hasSpecificWaffoMethods i then l ++ imap (waffo_option i) (waffo_pay_methods i)
                  else add_default (js "waffo") (js "Waffo") Waffo i l).
Proof. intros Ho. destruct (hasSpecificWaffoMethods i); [apply in_app_iff; by left|by apply add_default_keeps]. Qed.

Lemma provider_listed i p :
  p <> Epay -> provider_enabled p i = true -> exists o, In o (payment_options i) /\ provider o = p.
Proof.
  intros Hne Hp. destruct p; [done| |by apply waffo_listed|].
  - destruct (add_default_has (js "stripe") (js "Stripe") Stripe i (omap (method_option i) (pay_methods i)) Hp)
      as (o & Ho & E). exists o. split; [|done]. by apply tail_keeps, add_default_keeps.
  - destruct (add_default_has (js "waffo_pancake") (js "Waffo Pancake") WaffoPancake i
                (add_default (js "stripe") (js "Stripe") Stripe i (omap (method_option i) (pay_methods i))) Hp)
      as (o & Ho & E). exists o. split; [|done]. by apply tail_keeps.
Qed.

(** The dialog offers a provider only if the server enables it, offers
    every enabled provider other than the generic one, and the least amount of
    every offer is positive. *)
Theorem offers_enabled_providers topupInfo :
  (forall o, In o (getTopupPaymentOptions topupInfo) ->
     provider_enabled (provider o) (info topupInfo) = true /\ ngt (minTopup o) zero = true)
  /\ (forall p, p <> Epay -> provider_enabled p (info topupInfo) = true ->
        exists o, In o (getTopupPaymentOptions topupInfo) /\ provider o = p).
Proof. split; [apply options_fine|apply provider_listed]. Qed.

(** ** Invariants of the dialog *)

Section Dialogs.
  Variable t : jsstr -> jsstr.
  Variable t_amount : jsstr -> num -> jsstr.
  Variable t_text : jsstr -> jsstr -> jsstr.
  Variable toUpperCase : jsstr -> jsstr.
  Variable toLocaleString : num -> jsstr.
  Variable currencyFormat : jsstr -> Z -> num -> option jsstr.
  Variable url_protocol : jsstr -> option jsstr.

Abbreviation handle_ := (handle t t_amount t_text toUpperCase toLocaleString currencyFormat url_protocol).
Abbreviation reachable_ := (reachable t t_amount t_text toUpperCase toLocaleString currencyFormat url_protocol).

(** A property of the fields that rendering leaves alone holds in every
    reachable state if the handlers keep it. *)
Definition core (s : Dialog) := (topupInfo s, topupProgress s, in_flight s, sent_log s, paymentLoading s).

Lemma effects_core s : core (effects s) = core s.
Proof.
  unfold effects. cbv zeta.
  assert (forall r x, core (amount_effect r x) = core x) as H1.
  { intros r x. unfold amount_effect. destruct (topupInfo r); [|done]. destruct (ngt _ _); [done|by destruct x]. }
  assert (forall r x, core (selection_effect r x) = core x) as H2.
  { intros r x. unfold selection_effect. destruct (paymentOptions r); [by destruct x|].
    destruct (existsb _ _); [done|by destruct x]. }
  assert (forall r x, core (estimate_effect r x) = core x) as H3.
  { intros r x. unfold estimate_effect. cbv zeta. destruct (selectedPaymentMethod r); [|by destruct x].
    destruct (_ || _); by destruct x. }
  assert (forall x d q n, core (set_quote x d q n) = core x) as H4 by (by intros []).
  rewrite H4. repeat simp_if; rewrite ?H3, ?H2, ?H1; done.
Qed.

Lemma settle_core s : core (settle s) = core s.
Proof. unfold settle. by rewrite !effects_core. Qed.

Lemma reachable_core (P : _ -> Prop) s :
  P (core (loadTopupDialog (mount true))) -> P (core (loadTopupDialog (mount false))) ->
  (forall e s, P (core s) -> P (core (handle_ e s))) ->
  reachable_ s -> P (core s).
Proof.
  intros H1 H2 He. induction 1 as [[]|e s _ IH]; [by rewrite settle_core..|].
  unfold step. rewrite settle_core. by apply He.
Qed.

(** ** Orders *)

Definition sent_fine (x : Sent) : Prop :=
  match x with
  | SentPayment i amount o =>
      In o (getTopupPaymentOptions i) /\ payment_compliance_confirmed (info i) <> Some false
      /\ (exists a, amount = nfloor a) /\ nle (minTopup o) amount = true
  | SentCreem id => id <> []
  | SentCode code => code <> [] /\ trim code = code
  end.

Lemma selected_In s m : selectedPaymentMethod s = Some m -> In m (paymentOptions s).
Proof.
  unfold selectedPaymentMethod. destruct (find _ _) as [x|] eqn:E.
  - intros [= <-]. by apply find_some in E as [? _].
  - destruct (paymentOptions s); [done|]. intros [= <-]. by left.
Qed.

Definition orders (s : Dialog) := (in_flight s, sent_log s).

Lemma orders_message s m : orders (setMessage s m) = orders s.
Proof. by destruct s. Qed.
Lemma orders_progress s m : orders (setTopupProgress s m) = orders s.
Proof. by destruct s. Qed.
Lemma orders_loading s m : orders (setPaymentLoading s m) = orders s.
Proof. by destruct s. Qed.
Lemma orders_redemption s c b : orders (setRedemption s c b) = orders s.
Proof. by destruct s. Qed.
Lemma orders_amount s m : orders (setTopupAmount s m) = orders s.
Proof. by destruct s. Qed.
Lemma orders_selected s m : orders (setSelectedPaymentMethodId s m) = orders s.
Proof. by destruct s. Qed.
Lemma orders_estimate s m q : orders (setPaymentAmount s m q) = orders s.
Proof. by destruct s. Qed.
Lemma orders_busy s m : orders (setAmountLoading s m) = orders s.
Proof. by destruct s. Qed.
Lemma orders_load s b i : orders (set_loading s b i) = orders s.
Proof. by destruct s. Qed.
Lemma orders_info s i g c : orders (setTopupInfo s i g c) = orders s.
Proof. by destruct s. Qed.
Lemma orders_set s l log : orders (set_orders s l log) = (l, log).
Proof. by destruct s. Qed.

Create Rewrite HintDb orders_db.
Hint Rewrite orders_message orders_progress orders_loading orders_redemption orders_amount orders_selected
  orders_estimate orders_busy orders_load orders_info orders_set : orders_db.

Lemma orders_steps o i l s : orders (setTopupSteps o i l s) = orders s.
Proof. apply orders_progress. Qed.
Lemma orders_update m e c l s : orders (updateTopupProgress m e c l s) = orders s.
Proof. apply orders_progress. Qed.
Lemma orders_fail m s : orders (fail_with m s) = orders s.
Proof. unfold fail_with. by rewrite orders_message, orders_update. Qed.
Lemma orders_launch l b s : orders (handleLaunchTopupPayment t l b s) = orders s.
Proof. unfold handleLaunchTopupPayment. cbv zeta. by rewrite orders_message, orders_update, !orders_steps. Qed.

Hint Rewrite orders_steps orders_update orders_fail orders_launch : orders_db.

Lemma orders_start title p r k s :
  orders (startTopupPayment t title p r k s)
  = if signed_in s then (p :: in_flight s, r :: sent_log s) else orders s.
Proof. by destruct s as [[]]. Qed.

Lemma orders_answered n response launched s :
  orders (paymentAnswered t url_protocol n response launched s) = (delete n (in_flight s), sent_log s).
Proof.
  unfold paymentAnswered. destruct (in_flight s !! n) eqn:E.
  - cbv zeta. rewrite orders_loading. destruct (isApiSuccess response); cbn [negb]; [|by autorewrite with orders_db].
    destruct (getTopupLaunch _ _ _) as [l|]; [|by autorewrite with orders_db].
    destruct launched; by autorewrite with orders_db.
  - apply lookup_ge_None in E. rewrite delete_take_drop, take_ge, drop_ge by lia. by rewrite app_nil_r.
Qed.

Lemma start_log title p r k s :
  sent_log (startTopupPayment t title p r k s) = sent_log s
  \/ sent_log (startTopupPayment t title p r k s) = r :: sent_log s.
Proof.
  pose proof (orders_start title p r k s) as H. destruct (signed_in s); injection H as H1 H2; [by right|by left].
Qed.

Lemma positive_number x : ngt x zero = true -> isNaN x = false.
Proof. by destruct x. Qed.

Lemma pay_log s m :
  paymentDisabled s = false -> selectedPaymentMethod s = Some m ->
  let s' := handleTopupPayment t t_amount toUpperCase toLocaleString currencyFormat m s in
  sent_log s' = sent_log s \/ exists x, sent_fine x /\ sent_log s' = x :: sent_log s.
Proof.
  intros Hd Hm. cbv zeta. unfold handleTopupPayment. cbv zeta.
  destruct (nlt _ (minTopup m)) eqn:E; [left; by destruct s|].
  set (amount := nfloor (num_or (topupAmount s) zero)) in *.
  match goal with |- context [startTopupPayment t ?title ?p ?r ?k s] =>
    destruct (start_log title p r k s) as [H|H]; [left; exact H|right; exists r] end. split; [|exact H]. cbn [sent_fine].
  apply selected_In in Hm as Hin.
  split; [exact Hin|]. split.
  { intros Hc. unfold paymentDisabled, complianceBlocked in Hd. by rewrite Hc in Hd. }
  split; [by eexists|]. apply nlt_false_le; [|by apply positive_number; apply options_fine in Hin as [_ ?]|done].
  apply nfloor_number. unfold num_or. by destruct (topupAmount s).
Qed.

(** An event sends at most one request, and that one is fine. *)
Lemma handle_log e s :
  sent_log (handle_ e s) = sent_log s \/ exists x, sent_fine x /\ sent_log (handle_ e s) = x :: sent_log s.
Proof.
  assert (forall s', orders s' = orders s -> sent_log s' = sent_log s) as keep by (intros s' H; by injection H).
  destruct e; cbn [handle].
  - left. apply keep. unfold loadTopupDialog. by destruct (negb _); autorewrite with orders_db.
  - left. apply keep. unfold loaded. destruct (negb _); [done|]. cbv zeta. autorewrite with orders_db.
    destruct infoOk, infoRes; by autorewrite with orders_db.
  - left. apply keep. by autorewrite with orders_db.
  - left. apply keep. destruct (bool_decide _); by autorewrite with orders_db.
  - left. apply keep. destruct (str_eqb _ _); by autorewrite with orders_db.
  - left. apply keep. unfold quoteAnswered. destruct (issued s !! id); [|done]. destruct (bool_decide _); [|done].
    cbv zeta. autorewrite with orders_db. destruct value; [destruct (isFinite _)|]; by autorewrite with orders_db.
  - destruct (paymentDisabled s) eqn:Hd; [by left|].
    destruct (selectedPaymentMethod s) as [m|] eqn:Hm; [|by left]. by apply pay_log.
  - destruct (_ || _); [by left|]. unfold handleCreemPayment. cbv zeta.
    set (id := or_text _ _). destruct (truthy id) eqn:Ht; cbn [negb]; [|left; apply keep; by autorewrite with orders_db].
    destruct (start_log (or_text (product_name product) (js "Creem")) Creem (SentCreem id) (js "creem:" ++ id) s) as [H|H].
    + by left.
    + right. exists (SentCreem id). split; [|done]. cbn. by intros E; rewrite E in Ht.
  - left. by injection (orders_answered n response launched s).
  - left. apply keep. destruct (topupProgress s); [|done]. destruct (canClose _); by autorewrite with orders_db.
  - left. apply keep. destruct (topupProgress s) as [p|]; [|done]. destruct (canClose _); [|done].
    destruct (p_launch p); by autorewrite with orders_db.
  - left. apply keep. by autorewrite with orders_db.
  - destruct (_ || _); [by left|]. unfold handleRedeemCode. cbv zeta.
    destruct (truthy (trim (redemptionCode s))) eqn:Ht; cbn [negb]; [|left; apply keep; by autorewrite with orders_db].
    right. exists (SentCode (trim (redemptionCode s))). split.
    + split; [by intros E; rewrite E in Ht|apply trim_idemp].
    + by destruct s.
  - left. apply keep. unfold redeemAnswered. cbv zeta. autorewrite with orders_db.
    destruct (negb _); by autorewrite with orders_db.
Qed.

Lemma reachable_log s : reachable_ s -> Forall sent_fine (sent_log s).
Proof.
  apply (reachable_core (fun c => Forall sent_fine c.1.2)); [constructor|constructor|].
  intros e s' H. cbn [core fst snd] in *. destruct (handle_log e s') as [-> |(x & Hx & ->)]; [done|by constructor].
Qed.

(** ** The panel of a payment *)

Definition closable (s : Dialog) : Prop := forall p, topupProgress s = Some p -> canClose p = true.

Lemma update_closable m e l s : closable (updateTopupProgress m e (Some true) l s).
Proof.
  intros p. destruct s as [? ? ? ? ? ? ? ? ? ? ? ? ? ? tp ? ? ? ? ? ?]. cbn. destruct tp; [|done]. by intros [= <-].
Qed.

Lemma closable_message s m : closable s -> closable (setMessage s m).
Proof. by destruct s. Qed.
Lemma closable_loading s m : closable s -> closable (setPaymentLoading s m).
Proof. by destruct s. Qed.

Lemma fail_closable m s : closable (fail_with m s).
Proof. apply closable_message, update_closable. Qed.
Lemma launch_closable l b s : closable (handleLaunchTopupPayment t l b s).
Proof. apply closable_message, update_closable. Qed.

Lemma answered_closable n r l s :
  (n < length (in_flight s))%nat -> closable (paymentAnswered t url_protocol n r l s).
Proof.
  intros Hn. unfold paymentAnswered. destruct (lookup_lt_is_Some_2 _ _ Hn) as [p ->]. cbv zeta.
  apply closable_loading. destruct (negb _); [apply fail_closable|].
  destruct (getTopupLaunch _ _ _); [|apply fail_closable]. destruct l; [apply launch_closable|apply fail_closable].
Qed.

(** The panel and the orders after an event: unless the event starts or ends
    an order, or opens the page again, they are kept, or the panel is closed. *)
Lemma start_waits title p r k s :
  signed_in s = true -> in_flight (startTopupPayment t title p r k s) <> [].
Proof. intros Hs. pose proof (orders_start title p r k s) as H. rewrite Hs in H. by injection H as -> _. Qed.

Definition panel_inv (s : Dialog) : Prop := in_flight s = [] -> closable s.

Lemma panel_kept s s' :
  topupProgress s' = topupProgress s -> in_flight s' = in_flight s -> panel_inv s -> panel_inv s'.
Proof. unfold panel_inv, closable. by intros -> ->. Qed.

Lemma start_panel title p r k s : panel_inv s -> panel_inv (startTopupPayment t title p r k s).
Proof.
  intros Hs. destruct (signed_in s) eqn:E.
  - intros H. by apply start_waits in H.
  - unfold startTopupPayment. by rewrite E.
Qed.

Ltac keep := (eapply panel_kept; [| |eassumption]); match goal with s : Dialog |- _ => by destruct s end.

Lemma handle_panel e s : panel_inv s -> panel_inv (handle_ e s).
Proof.
  intros Hs. destruct e; cbn [handle].
  - unfold loadTopupDialog. destruct (negb _); keep.
  - unfold loaded. destruct (negb _); [done|]. cbv zeta. destruct infoOk, infoRes; keep.
  - keep.
  - destruct (bool_decide _); [keep|done].
  - destruct (str_eqb _ _); [done|keep].
  - unfold quoteAnswered. destruct (issued s !! id); [|done]. destruct (bool_decide _); [|done]. cbv zeta.
    destruct value; [destruct (isFinite _)|]; keep.
  - destruct (paymentDisabled s); [done|]. destruct (selectedPaymentMethod s); [|done].
    unfold handleTopupPayment. cbv zeta. destruct (nlt _ _); [keep|by apply start_panel].
  - destruct (_ || _); [done|]. unfold handleCreemPayment. cbv zeta. destruct (negb _); [keep|by apply start_panel].
  - destruct (decide (n < length (in_flight s))%nat) as [Hn|Hn]; [by intros _; apply answered_closable|].
    unfold paymentAnswered. assert (in_flight s !! n = None) as -> by (apply lookup_ge_None; lia). done.
  - destruct (topupProgress s) eqn:E; [|done]. destruct (canClose _); [|done]. intros _ q. by destruct s.
  - destruct (topupProgress s) as [p|]; [|done]. destruct (canClose p); [|done]. destruct (p_launch p); [|done].
    intros _. apply launch_closable.
  - keep.
  - destruct (_ || _); [done|]. unfold handleRedeemCode. cbv zeta. destruct (negb _); keep.
  - unfold redeemAnswered. cbv zeta. destruct (negb _); keep.
Qed.

Lemma reachable_panel s : reachable_ s -> panel_inv s.
Proof.
  intros Hr.
  refine (reachable_core (fun c => c.1.1.2 = [] -> forall p, c.1.1.1.2 = Some p -> canClose p = true) s _ _ _ Hr);
    [done|done|]. intros e s'. apply handle_panel.
Qed.

(** ** The estimate *)

(** An amount and a provider are the current ones of the dependencies [d]. *)
Definition current_for (s : Dialog) (d : Deps) (amount : num) (p : TopupPaymentProvider) : Prop :=
  amount = dep_amount d
  /\ (dep_info d = info_gen s ->
      exists m, find (fun o => str_eqb (opt_id o) (default [] (dep_method d))) (paymentOptions s) = Some m
                /\ provider m = p).

Definition estimate_inv (s : Dialog) : Prop :=
  match deps s with
  | None => live_quote s = None /\ paymentAmount s = None /\ amountLoading s = false
  | Some d =>
      (dep_info d <= info_gen s)%nat
      /\ (forall n, live_quote s = Some n ->
            exists q, issued s !! n = Some q /\ current_for s d (quote_amount q) (quote_provider q))
      /\ (live_quote s = None -> paymentAmount s = None /\ amountLoading s = false)
      /\ (forall a, paymentAmount s = Some a -> amountLoading s = false ->
            exists amount p, quoted_for s = Some (amount, p) /\ current_for s d amount p)
  end.

Definition est (s : Dialog) :=
  (deps s, info_gen s, topupInfo s, live_quote s, paymentAmount s, amountLoading s, quoted_for s, issued s).

Lemma estimate_ext s s' : est s' = est s -> estimate_inv s -> estimate_inv s'.
Proof.
  unfold est. intros E. injection E as E1 E2 E3 E4 E5 E6 E7 E8.
  unfold estimate_inv, current_for, paymentOptions. by rewrite E1, E2, E3, E4, E5, E6, E7, E8.
Qed.

Lemma selected_find s m :
  selectedPaymentMethod s = Some m -> find (fun o => str_eqb (opt_id o) (opt_id m)) (paymentOptions s) = Some m.
Proof.
  unfold selectedPaymentMethod. destruct (find _ _) as [x|] eqn:E.
  - intros [= <-]. pose proof (find_some _ _ E) as [_ ->%str_eqb_eq]. done.
  - destruct (paymentOptions s) as [|o l]; [done|]. intros [= <-]. cbn [find]. by rewrite str_eqb_refl.
Qed.

(** The fields an effect leaves alone. *)
Lemma amount_est r s : est (amount_effect r s) = est s.
Proof. unfold amount_effect. destruct (topupInfo r); [|done]. destruct (ngt _ _); [done|by destruct s]. Qed.
Lemma selection_est r s : est (selection_effect r s) = est s.
Proof.
  unfold selection_effect. destruct (paymentOptions r); [by destruct s|]. destruct (existsb _ _); [done|by destruct s].
Qed.
Lemma set_deps_est s d :
  est (set_quote s d (live_quote s) (issued s))
  = (d, info_gen s, topupInfo s, live_quote s, paymentAmount s, amountLoading s, quoted_for s, issued s).
Proof. by destruct s. Qed.

Lemma estimate_effect_est r x :
  est (estimate_effect r x) = (deps x, info_gen x, topupInfo x, None, None, false, None, issued x)
  \/ exists m, selectedPaymentMethod r = Some m
       /\ est (estimate_effect r x)
          = (deps x, info_gen x, topupInfo x, Some (length (issued x)), paymentAmount x, true,
             quoted_for x, issued x ++ [mkQuote (topupAmount r) (provider m)]).
Proof.
  unfold estimate_effect. cbv zeta. destruct (selectedPaymentMethod r) as [m|]; [|left; by destruct x].
  destruct (_ || _); [left; by destruct x|]. right. exists m. by destruct x.
Qed.

(** The state before the effect of the estimate. *)
Definition before_estimate (r : Dialog) : Dialog :=
  let now := current_deps r in
  let s := if info_changed (deps r) now then amount_effect r r else r in
  if selection_changed (deps r) now then selection_effect r s else s.

Lemma before_est r : est (before_estimate r) = est r.
Proof.
  unfold before_estimate. cbv zeta. destruct (selection_changed _ _); rewrite ?selection_est;
    by destruct (info_changed _ _); rewrite ?amount_est.
Qed.

Lemma effects_unfold r :
  effects r =
  let s := if estimate_changed (deps r) (current_deps r) then estimate_effect r (before_estimate r)
           else before_estimate r in
  set_quote s (Some (current_deps r)) (live_quote s) (issued s).
Proof. reflexivity. Qed.

Lemma estimate_same d now :
  estimate_changed (Some d) now = false ->
  dep_info d = dep_info now /\ dep_method d = dep_method now /\ dep_amount d = dep_amount now.
Proof.
  cbn. rewrite !orb_false_iff, !negb_false_iff, !bool_decide_eq_true. tauto.
Qed.

Lemma effects_estimate r : estimate_inv r -> estimate_inv (effects r).
Proof.
  intros Hr. pose proof (before_est r) as Hb. unfold est in Hb. injection Hb as B1 B2 B3 B4 B5 B6 B7 B8.
  rewrite effects_unfold. cbv zeta. destruct (estimate_changed _ _) eqn:Ech.
  - pose proof (set_deps_est (estimate_effect r (before_estimate r)) (Some (current_deps r))) as He.
    set (s' := set_quote _ _ _ _) in *.
    destruct (estimate_effect_est r (before_estimate r)) as [E|(m & Hm & E)];
      unfold est in E, He; injection E as E1 E2 E3 E4 E5 E6 E7 E8;
      rewrite E2, E3, E4, E5, E6, E7, E8, ?B2, ?B3 in He; injection He as H1 H2 H3 H4 H5 H6 H7 H8;
      unfold estimate_inv, current_for, paymentOptions; rewrite H1, H2, H3, H4, H5, H6, H7, H8;
      cbn [current_deps dep_info dep_amount dep_method].
    + repeat split; try done; lia.
    + split; [lia|]. split; [|done]. intros n [= <-].
      exists (mkQuote (topupAmount r) (provider m)). split; [by rewrite list_lookup_middle|]. split; [done|].
      intros _. exists m. split; [|done]. rewrite Hm. by apply selected_find in Hm.
  - destruct (deps r) as [d|] eqn:Ed; [|done]. apply estimate_same in Ech as (D1 & D2 & D3).
    pose proof (set_deps_est (before_estimate r) (Some (current_deps r))) as He.
    set (s' := set_quote _ _ _ _) in *. unfold est in He. rewrite B2, B3, B4, B5, B6, B7, B8 in He.
    injection He as H1 H2 H3 H4 H5 H6 H7 H8. unfold estimate_inv in *. rewrite Ed in Hr.
    unfold current_for, paymentOptions in *. rewrite H1, H2, H3, H4, H5, H6, H7, H8.
    rewrite D1, D2, D3 in Hr. destruct Hr as (R1 & R2 & R3 & R4). split; [done|]. split; [|by split].
    intros q Hq. exact (R2 q Hq).
Qed.

Lemma est_start title p r k s : est (startTopupPayment t title p r k s) = est s.
Proof. by destruct s as [[]]. Qed.

Lemma est_launch l b s : est (handleLaunchTopupPayment t l b s) = est s.
Proof. by destruct s. Qed.

Lemma est_fail m s : est (fail_with m s) = est s.
Proof. by destruct s. Qed.
Lemma est_steps o i l s : est (setTopupSteps o i l s) = est s.
Proof. by destruct s. Qed.
Lemma est_update m e c l s : est (updateTopupProgress m e c l s) = est s.
Proof. by destruct s. Qed.

Lemma est_answered n r l s : est (paymentAnswered t url_protocol n r l s) = est s.
Proof.
  unfold paymentAnswered. destruct (in_flight s !! n); [|done]. cbv zeta.
  assert (forall x m, est (setPaymentLoading x m) = est x) as -> by (by intros []).
  assert (forall x m o, est (set_orders x m o) = est x) as Ho by (by intros []).
  destruct (negb _); [by rewrite est_fail, est_steps, Ho|].
  destruct (getTopupLaunch _ _ _); [|by rewrite est_fail, est_steps, Ho].
  destruct l; [rewrite est_launch|rewrite est_fail, !est_steps]; by rewrite est_update, est_steps, Ho.
Qed.

Lemma loaded_estimate id st ok i m s : estimate_inv s -> estimate_inv (loaded t id st ok i m s).
Proof.
  intros Hs. unfold loaded. destruct (negb _); [done|]. cbv zeta.
  assert (forall x y b n, estimate_inv x -> estimate_inv (set_loading (setMessage x y) b n)) as Hm
    by (intros x y b n Hx; eapply estimate_ext; [|exact Hx]; by destruct x).
  apply Hm. clear Hm. destruct ok, i as [i|]; try (eapply estimate_ext; [|exact Hs]; by destruct s).
  set (s' := setTopupInfo _ _ _ _).
  assert (est s' = (deps s, S (info_gen s), Some i, live_quote s, paymentAmount s, amountLoading s, quoted_for s, issued s)) as E
    by (by destruct s).
  injection E as E1 E2 E3 E4 E5 E6 E7 E8. unfold estimate_inv, current_for in *.
  rewrite E1, E2, E4, E5, E6, E7, E8. destruct (deps s) as [d|]; [|done]. destruct Hs as (H1 & H2 & H3 & H4).
  split; [lia|]. split; [|split; [done|]].
  - intros n Hn. destruct (H2 n Hn) as (q & Hq & Ha & _). exists q. split; [done|]. split; [done|lia].
  - intros a Ha Hl. destruct (H4 a Ha Hl) as (x & p & Hq & -> & _). exists (dep_amount d), p. split; [done|].
    split; [done|lia].
Qed.

Lemma quoted_estimate id v s : estimate_inv s -> estimate_inv (quoteAnswered id v s).
Proof.
  intros Hs. unfold quoteAnswered. destruct (issued s !! id) as [q|] eqn:Ei; [|done].
  case_bool_decide as Eq; [|done]. cbv zeta.
  assert (exists a, (a = None \/ exists x, a = Some x) /\
            est (setAmountLoading
                   (match v with
                    | Some x => if isFinite x then setPaymentAmount s (Some x) (Some (quote_amount q, quote_provider q))
                                else setPaymentAmount s None None
                    | None => setPaymentAmount s None None
                    end) false)
            = (deps s, info_gen s, topupInfo s, live_quote s, a, false,
               match a with Some _ => Some (quote_amount q, quote_provider q) | None => None end, issued s)) as (a & Ha & E).
  { destruct v as [x|]; [destruct (isFinite x)|];
      [exists (Some x)|exists None|exists None]; (split; [eauto|by destruct s]). }
  set (s' := setAmountLoading _ _) in *. injection E as E1 E2 E3 E4 E5 E6 E7 E8.
  unfold estimate_inv, current_for, paymentOptions in *. rewrite E1, E2, E3, E4, E5, E6, E7, E8.
  destruct (deps s) as [d|]; [|destruct Hs as (Hs & _ & _); congruence]. destruct Hs as (H1 & H2 & H3 & H4).
  split; [done|]. split; [done|]. split; [by rewrite Eq|]. intros b -> _.
  exists (quote_amount q), (quote_provider q). split; [done|].
  destruct (H2 id Eq) as (q' & Hq' & Hc).
  rewrite Ei in Hq'. by injection Hq' as <-.
Qed.

Lemma handle_estimate e s : estimate_inv s -> estimate_inv (handle_ e s).
Proof.
  intros Hs. destruct e; cbn [handle].
  - eapply estimate_ext; [|exact Hs]. unfold loadTopupDialog. destruct (negb _); by destruct s.
  - by apply loaded_estimate.
  - eapply estimate_ext; [|exact Hs]. by destruct s.
  - destruct (bool_decide _); [|done]. eapply estimate_ext; [|exact Hs]. by destruct s.
  - destruct (str_eqb _ _); [done|]. eapply estimate_ext; [|exact Hs]. by destruct s.
  - by apply quoted_estimate.
  - destruct (paymentDisabled s); [done|]. destruct (selectedPaymentMethod s); [|done].
    unfold handleTopupPayment. cbv zeta. eapply estimate_ext; [|exact Hs].
    destruct (nlt _ _); [by destruct s|apply est_start].
  - destruct (_ || _); [done|]. unfold handleCreemPayment. cbv zeta. eapply estimate_ext; [|exact Hs].
    destruct (negb _); [by destruct s|apply est_start].
  - eapply estimate_ext; [|exact Hs]. apply est_answered.
  - destruct (topupProgress s) eqn:E; [|done]. destruct (canClose _); [|done].
    eapply estimate_ext; [|exact Hs]. by destruct s.
  - destruct (topupProgress s) as [p|]; [|done]. destruct (canClose p); [|done]. destruct (p_launch p); [|done].
    eapply estimate_ext; [|exact Hs]. apply est_launch.
  - eapply estimate_ext; [|exact Hs]. by destruct s.
  - destruct (_ || _); [done|]. unfold handleRedeemCode. cbv zeta. eapply estimate_ext; [|exact Hs].
    destruct (negb _); by destruct s.
  - eapply estimate_ext; [|exact Hs]. unfold redeemAnswered. cbv zeta. destruct (negb _); by destruct s.
Qed.

Lemma reachable_estimate s : reachable_ s -> estimate_inv s.
Proof.
  induction 1 as [[]|e s _ IH]; unfold step, settle; do 3 apply effects_estimate; [done|done|].
  by apply handle_estimate.
Qed.

(** ** Rendering comes to rest *)

Definition vis (s : Dialog) := (info_gen s, topupInfo s, selectedPaymentMethodId s, topupAmount s).

Lemma deps_vis s s' : vis s = vis s' -> current_deps s = current_deps s'.
Proof.
  unfold vis. intros [= E1 E2 E3 E4].
  unfold current_deps, selectedPaymentMethod, paymentOptions. by rewrite E1, E2, E3, E4.
Qed.

Lemma effects_vis r : vis (effects r) = vis (before_estimate r).
Proof.
  rewrite effects_unfold. cbv zeta. set (b := before_estimate r).
  assert (forall x d q n, vis (set_quote x d q n) = vis x) as -> by (by intros []).
  destruct (estimate_changed _ _); [|done]. unfold estimate_effect. cbv zeta.
  destruct (selectedPaymentMethod r); [destruct (_ || _)|]; by destruct b.
Qed.

Lemma effects_deps r : deps (effects r) = Some (current_deps r).
Proof.
  rewrite effects_unfold. cbv zeta. assert (forall x d q n, deps (set_quote x d q n) = d) as Hd by (by intros []).
  apply Hd.
Qed.

Lemma effects_info r : info_gen (effects r) = info_gen r /\ topupInfo (effects r) = topupInfo r.
Proof.
  pose proof (effects_vis r) as H. pose proof (before_est r) as B. unfold vis in H. unfold est in B.
  injection H as H1 H2 _ _. injection B as _ B2 B3 _ _ _ _ _. by rewrite H1, H2.
Qed.

(** The id the first round leaves is one the second round keeps. *)
Lemma selection_settled r :
  selectedPaymentMethodId (effects r) <> selectedPaymentMethodId r ->
  vis (selection_effect (effects r) (effects r)) = vis (effects r).
Proof.
  pose proof (effects_vis r) as H. unfold vis in H. injection H as _ _ H _. rewrite H. intros Hne.
  destruct (effects_info r) as [_ Hi].
  unfold selection_effect. assert (paymentOptions (effects r) = paymentOptions r) as ->
    by (unfold paymentOptions; by rewrite Hi).
  assert (selectedPaymentMethodId (effects r) = match paymentOptions r with [] => [] | o :: _ => opt_id o end) as Hsel.
  { rewrite H. revert Hne. unfold before_estimate. cbv zeta.
    assert (forall x m, selectedPaymentMethodId (setSelectedPaymentMethodId x m) = m) as Hset by (by intros []).
    assert (selectedPaymentMethodId (if info_changed (deps r) (current_deps r) then amount_effect r r else r)
            = selectedPaymentMethodId r) as Ha.
    { destruct (info_changed _ _); [|done]. unfold amount_effect. destruct (topupInfo r); [|done].
      destruct (ngt _ _); [done|by destruct r]. }
    destruct (selection_changed _ _); [|by rewrite Ha]. unfold selection_effect.
    destruct (paymentOptions r); [by rewrite Hset|]. destruct (existsb _ _); [by rewrite Ha|by rewrite Hset]. }
  destruct (paymentOptions r) as [|o l].
  - rewrite <- Hsel at 1. by destruct (effects r).
  - cbn [existsb]. by rewrite Hsel, str_eqb_refl.
Qed.

Lemma effects_twice r : current_deps (effects (effects r)) = current_deps (effects r).
Proof.
  apply deps_vis. rewrite effects_vis. unfold before_estimate. cbv zeta. rewrite effects_deps.
  destruct (effects_info r) as [Hg _]. unfold info_changed, selection_changed. cbn [current_deps dep_info dep_selected].
  rewrite Hg, bool_decide_true by done. cbn [negb orb].
  destruct (negb _) eqn:E; [|done]. apply negb_true_iff, bool_decide_eq_false in E.
  apply selection_settled. congruence.
Qed.

(** Three rounds are enough: a further one has nothing to do. *)
Lemma settle_rests s : deps (settle s) = Some (current_deps (settle s)).
Proof. unfold settle. by rewrite effects_deps, !effects_twice. Qed.

Lemma reachable_rests s : reachable_ s -> deps s = Some (current_deps s).
Proof. intros []; apply settle_rests. Qed.

Lemma reachable_run es s :
  reachable_ s ->
  reachable_ (foldl (fun s e => step t t_amount t_text toUpperCase toLocaleString currencyFormat url_protocol e s) s es).
Proof. revert s. induction es as [|e es IH]; intros s Hs; [done|]. cbn [foldl]. apply IH. by constructor. Qed.

(** ** The theorems on the dialog *)

(** C15: every payment the dialog has ordered was for one of the methods it
    offered, of an enabled provider, with the compliance of the operator not
    denied, and for a whole amount that is not below the method's positive
    minimum. *)
Theorem ordered_payments_allowed s i amount o :
  reachable_ s -> In (SentPayment i amount o) (sent_log s) ->
  In o (getTopupPaymentOptions i)
  /\ provider_enabled (provider o) (info i) = true
  /\ payment_compliance_confirmed (info i) <> Some false
  /\ (exists a, amount = nfloor a)
  /\ ngt (minTopup o) zero = true /\ nle (minTopup o) amount = true.
Proof.
  intros Hr Hin. apply reachable_log in Hr. rewrite List.Forall_forall in Hr.
  destruct (Hr _ Hin) as (H1 & H2 & H3 & H4). destruct (options_fine _ _ H1) as [H5 H6]. done.
Qed.

(** C16: the estimate that is shown when no calculation is running answers the
    amount that is entered and the provider that is selected now, whatever
    answers came late or out of order. *)
Theorem shown_estimate_current s a :
  reachable_ s -> paymentAmount s = Some a -> amountLoading s = false ->
  exists m, selectedPaymentMethod s = Some m /\ quoted_for s = Some (topupAmount s, provider m).
Proof.
  intros Hr Ha Hl. pose proof (reachable_rests s Hr) as Hd. apply reachable_estimate in Hr.
  unfold estimate_inv in Hr. rewrite Hd in Hr. destruct Hr as (_ & _ & _ & H4).
  destruct (H4 a Ha Hl) as (x & p & Hq & -> & Hm). cbn [current_deps dep_info dep_amount dep_method] in Hm.
  destruct (Hm eq_refl) as (m & Hf & <-). exists m. split; [|done].
  destruct (selectedPaymentMethod s) as [n|] eqn:E in Hf |- *.
  - change (default [] (option_map opt_id (Some n))) with (opt_id n) in Hf.
    apply selected_find in E. rewrite E in Hf. congruence.
  - unfold selectedPaymentMethod in E.
    destruct (find _ (paymentOptions s)) eqn:Ef in E; [done|]. by destruct (paymentOptions s).
Qed.

(** C17: the panel of a payment never gets stuck: every answer of the server
    settles one of the orders that wait, and once none waits the panel can be
    closed. *)
Theorem panel_never_stuck s :
  reachable_ s ->
  (forall n response launched, (n < length (in_flight s))%nat ->
     length (in_flight (step t t_amount t_text toUpperCase toLocaleString currencyFormat url_protocol
                          (EPaymentAnswer n response launched) s)) = (length (in_flight s) - 1)%nat)
  /\ (in_flight s = [] ->
      topupProgress (step t t_amount t_text toUpperCase toLocaleString currencyFormat url_protocol EClosePanel s) = None).
Proof.
  intros Hr. split.
  - intros n r l Hn. unfold step. cbn [handle].
    pose proof (settle_core (paymentAnswered t url_protocol n r l s)) as H. unfold core in H.
    injection H as _ _ H _ _. rewrite H. pose proof (orders_answered n r l s) as Ho. injection Ho as -> _.
    by rewrite length_delete by (by apply lookup_lt_is_Some_2).
  - intros Hf. pose proof (reachable_panel s Hr Hf) as Hc. unfold step. cbn [handle].
    match goal with |- topupProgress (settle ?x) = _ => pose proof (settle_core x) as H end.
    unfold core in H. injection H as _ H _ _ _. rewrite H. destruct (topupProgress s) as [p|] eqn:E; [|done].
    rewrite (Hc p E). by destruct s.
Qed.

(** A page is opened only for an http address, except that an order of the
    generic provider posts to the address of the answer as it is. *)
Lemma launched_page response p l :
  getTopupLaunch url_protocol response p = Some l ->
  match l with
  | LaunchUrl u _ => u <> [] /\ isSafeCheckoutUrl url_protocol u = true
  | LaunchEpay u _ => p = ByProvider Epay /\ url response = Some u /\ u <> []
  end.
Proof.
  unfold getTopupLaunch. cbv zeta. set (d := match data response with Some _ => _ | None => _ end).
  set (u := match link_field _ d with Some _ => _ | None => _ end).
  assert ((if negb (truthy u) || negb (isSafeCheckoutUrl url_protocol u) then None
           else Some (LaunchUrl u (bool_decide (p = ByProvider WaffoPancake)))) = Some l ->
          match l with
          | LaunchUrl u _ => u <> [] /\ isSafeCheckoutUrl url_protocol u = true
          | LaunchEpay u _ => p = ByProvider Epay /\ url response = Some u /\ u <> []
          end) as Hc.
  { destruct (truthy u) eqn:Et; [|done]. destruct (isSafeCheckoutUrl url_protocol u) eqn:Es; [|done].
    intros [= <-]. split; [by intros E; rewrite E in Et|done]. }
  destruct p as [[]|]; try done. destruct (url response) as [v|] eqn:Eu; [|done].
  destruct (truthy v) eqn:Ev; [|done]. intros [= <-]. repeat split. intros ->. done.
Qed.
End Dialogs.

(** ** A session *)

Definition demo_info : TopupInfo :=
  mkInfo false true false false false None None [] [] None [] [] None (Some (inl (num_of_Z 5))) None None.

Definition demo (es : list Event) : Dialog :=
  foldl (fun s e => step (fun x => x) (fun x _ => x) (fun x _ => x) (fun x => x) num_to_str
                      (fun _ _ _ => None) (fun _ => Some (js "https:")) e s)
    (settle (loadTopupDialog (mount true))) es.

Definition demo_events : list Event :=
  [ELoaded 1 None true (Some demo_info) None; EType (js "10.5"); EQuote 1 (Some (num_of_Z 9)); EPay].

Lemma topup_demo_reachable es :
  reachable (fun x => x) (fun x _ => x) (fun x _ => x) (fun x => x) num_to_str (fun _ _ _ => None)
    (fun _ => Some (js "https:")) (demo es).
Proof. apply reachable_run. constructor. Qed.

Lemma ordered_payments_allowed_witness :
  let o := mkOption (js "stripe") (js "Stripe") Stripe (Some (js "stripe")) (num_of_Z 5) None None in
  sent_log (demo demo_events) = [SentPayment (Some demo_info) (num_of_Z 10) o]
  /\ nle (num_of_Z 5) (num_of_Z 10) = true.
Proof.
  split; [vm_compute; reflexivity|].
  eapply (ordered_payments_allowed _ _ _ _ _ _ _ (demo demo_events) (Some demo_info) (num_of_Z 10)
            (mkOption (js "stripe") (js "Stripe") Stripe (Some (js "stripe")) (num_of_Z 5) None None)).
  - apply topup_demo_reachable.
  - vm_compute. left. reflexivity.
Defined.

Lemma shown_estimate_current_witness :
  exists m, selectedPaymentMethod (demo demo_events) = Some m
            /\ quoted_for (demo demo_events) = Some (num_of_str (js "10.5"), provider m).
Proof.
  apply (shown_estimate_current _ _ _ _ _ _ _ (demo demo_events) (num_of_Z 9) (topup_demo_reachable demo_events)).
  - vm_compute. reflexivity.
  - vm_compute. reflexivity.
Defined.

Lemma panel_never_stuck_witness :
  let s := demo (demo_events ++ [EPaymentAnswer 0 (mkResponse false None None None) None]) in
  in_flight s = [] /\ topupProgress s <> None
  /\ topupProgress (step (fun x => x) (fun x _ => x) (fun x _ => x) (fun x => x) num_to_str (fun _ _ _ => None)
                      (fun _ => Some (js "https:")) EClosePanel s) = None.
Proof.
  split; [vm_compute; reflexivity|]. split; [vm_compute; discriminate|].
  apply (panel_never_stuck (fun x => x) (fun x _ => x) (fun x _ => x) (fun x => x) num_to_str (fun _ _ _ => None)
           (fun _ => Some (js "https:")) _ (topup_demo_reachable _)).
  vm_compute. reflexivity.
Defined.

(** The estimate is asked for the amount as typed, the order is for its floor. *)
Example estimate_for_another_amount :
  quoted_for (demo demo_events) = Some (num_of_str (js "10.5"), Stripe)
  /\ map (fun x => match x with SentPayment _ a _ => Some a | _ => None end) (sent_log (demo demo_events))
     = [Some (num_of_Z 10)].
Proof. split; vm_compute; reflexivity. Qed.

(** The button of the code is disabled while a code is redeemed, the Enter key
    is not: the code is sent twice. *)
Example enter_redeems_twice :
  sent_log (demo [ELoaded 1 None true (Some demo_info) None; ECode (js "abc"); ERedeem true; ERedeem false; ERedeem true])
  = [SentCode (js "abc"); SentCode (js "abc")].
Proof. vm_compute. reflexivity. Qed.
