(* ===== verification/ParamOverride.v ===== *)
(** * Parameter override rules

    Model of the helpers of src/web/default/src/features/channels/components/
    dialogs/param-override-editor-dialog.tsx: the rules that rewrite a request,
    read from the JSON text of a channel, validated, and printed back; and the
    drafts of the two modes whose value is edited with a form of its own.  The
    conversion of case, the translation and the clock are parameters. *)

From S2P Require Import Prelude JsStr JsNum JsArray JsJson JsPrint.
Local Open Scope js_scope.

(** ** Conversions of JSON values *)

(** [Number(value)]. *)
Definition Number_json (v : option json) : num :=
  match v with
  | None => nan
  | Some JNull => zero
  | Some (JBool b) => num_of_Z (if b then 1 else 0)
  | Some (JNum x) => x
  | Some (JStr s) => num_of_str s
  | Some (JArr l) => num_of_str (json_to_str (JArr l))
  | Some (JObj _) => nan
  end.

Definition isInteger (x : num) : bool := isFinite x && neq (nfloor x) x.

(** [typeof v === 'string' ? v : '']. *)
Definition string_field (k : jsstr) (v : json) : jsstr :=
  match jfield k v with Some (JStr s) => s | _ => [] end.

(** [v === true], [v !== false]. *)
Definition is_true (k : jsstr) (v : json) : bool :=
  match jfield k v with Some (JBool true) => true | _ => false end.
Definition not_false (k : jsstr) (v : json) : bool :=
  match jfield k v with Some (JBool false) => false | _ => true end.

(** [String(a || b || ... || d)] on fields. *)
Fixpoint text_or (ks : list jsstr) (d : jsstr) (v : json) : jsstr :=
  match ks with
  | [] => d
  | k :: t => match jfield k v with
              | Some x => if json_truthy x then json_to_str x else text_or t d v
              | None => text_or t d v
              end
  end.

(** ** Rules *)

Record ParamOverrideCondition := mkCondition {
  c_id : jsstr; c_path : jsstr; c_mode : jsstr; c_value_text : jsstr; c_invert : bool; c_pass_missing_key : bool
}.

Record ParamOverrideOperation := mkOperation {
  o_id : jsstr; o_description : jsstr; o_path : jsstr; o_mode : jsstr; o_value_text : jsstr; o_keep_origin : bool;
  o_from : jsstr; o_to : jsstr; o_logic : jsstr; o_conditions : list ParamOverrideCondition
}.

Definition OPERATION_MODE_OPTIONS : list (jsstr * jsstr) :=
  [(js "Set Field", js "set"); (js "Delete Field", js "delete"); (js "Append to End", js "append");
   (js "Prepend to Start", js "prepend"); (js "Copy Field", js "copy"); (js "Move Field", js "move");
   (js "String Replace", js "replace"); (js "Regex Replace", js "regex_replace");
   (js "Trim Prefix", js "trim_prefix"); (js "Trim Suffix", js "trim_suffix");
   (js "Ensure Prefix", js "ensure_prefix"); (js "Ensure Suffix", js "ensure_suffix");
   (js "Trim Space", js "trim_space"); (js "To Lowercase", js "to_lower"); (js "To Uppercase", js "to_upper");
   (js "Return Custom Error", js "return_error"); (js "Prune Object Items", js "prune_objects");
   (js "Pass Through Headers", js "pass_headers"); (js "Sync Fields", js "sync_fields");
   (js "Set Request Header", js "set_header"); (js "Delete Request Header", js "delete_header");
   (js "Copy Request Header", js "copy_header"); (js "Move Request Header", js "move_header")].

Definition OPERATION_MODE_VALUES : list jsstr := map snd OPERATION_MODE_OPTIONS.

Definition CONDITION_MODE_VALUES : list jsstr :=
  [js "full"; js "prefix"; js "suffix"; js "contains"; js "gt"; js "gte"; js "lt"; js "lte"].

Definition has (set : list jsstr) (x : jsstr) : bool := existsb (str_eqb x) set.

(** [set.has(v) ? v : d]. *)
Definition known (set : list jsstr) (v : option json) (d : jsstr) : jsstr :=
  match v with Some (JStr s) => if has set s then s else d | _ => d end.

(** [meta_to] is [undefined], [true] or [false]. *)
Record ModeMeta := mkMeta {
  meta_path : bool; meta_pathOptional : bool; meta_value : bool; meta_from : bool; meta_to : option bool;
  meta_keepOrigin : bool; meta_pathAlias : bool
}.

Definition MODE_META : list (jsstr * ModeMeta) :=
  let path := mkMeta true false false false None false false in
  let path_value := mkMeta true false true false None false false in
  let path_value_keep := mkMeta true false true false None true false in
  let from_to := mkMeta false false false true (Some true) false false in
  let replace := mkMeta true false false true (Some false) false false in
  let alias := mkMeta false false false true (Some true) true true in
  [(js "delete", path); (js "set", path_value_keep); (js "append", path_value_keep); (js "prepend", path_value_keep);
   (js "copy", from_to); (js "move", from_to); (js "replace", replace); (js "regex_replace", replace);
   (js "trim_prefix", path_value); (js "trim_suffix", path_value); (js "ensure_prefix", path_value);
   (js "ensure_suffix", path_value); (js "trim_space", path); (js "to_lower", path); (js "to_upper", path);
   (js "return_error", mkMeta false false true false None false false);
   (js "prune_objects", mkMeta false true true false None false false);
   (js "pass_headers", mkMeta false false true false None true false);
   (js "sync_fields", from_to); (js "set_header", path_value_keep); (js "delete_header", path);
   (js "copy_header", alias); (js "move_header", alias)].

(** [MODE_META[mode] || MODE_META.set]. *)
Definition meta_of (mode : jsstr) : ModeMeta :=
  match mget mode MODE_META with Some m => m | None => mkMeta true false true false None true false end.

Definition VALUE_REQUIRED_MODES : list jsstr :=
  [js "trim_prefix"; js "trim_suffix"; js "ensure_prefix"; js "ensure_suffix"; js "set_header"; js "return_error";
   js "prune_objects"; js "pass_headers"].
Definition FROM_REQUIRED_MODES : list jsstr :=
  [js "copy"; js "move"; js "replace"; js "regex_replace"; js "copy_header"; js "move_header"; js "sync_fields"].
Definition TO_REQUIRED_MODES : list jsstr :=
  [js "copy"; js "move"; js "copy_header"; js "move_header"; js "sync_fields"].

(** ** Values and their texts *)

Definition toValueText (value : option json) : jsstr :=
  match value with
  | None => []
  | Some (JStr s) => s
  | Some v => stringify 0 0 v
  end.

Definition parseLooseValue (valueText : jsstr) : json :=
  let raw := trim valueText in
  if str_eqb raw [] then JStr []
  else match parse raw with Some v => v | None => JStr raw end.

Definition verifyJSON (text : jsstr) : bool := match parse text with Some _ => true | None => false end.

(** ** Reading rules *)

Section Reading.
  Variable toLowerCase toUpperCase : jsstr -> jsstr.
  (** The reading of the clock when the [n]th id is made. *)
  Variable clock : nat -> Z.

Definition nextLocalId (localIdSeed : nat) : jsstr :=
  js "po_" ++ digits_of (clock localIdSeed) ++ js "_" ++ digits_of (Z.of_nat localIdSeed).

(** A map whose function takes ids; the seed goes from item to item. *)
Fixpoint map_ids {A B} (f : A -> nat -> outcome (B * nat)) (l : list A) (seed : nat) : outcome (list B * nat) :=
  match l with
  | [] => Returns ([], seed)
  | x :: t =>
      let! p := f x seed in
      let! q := map_ids f t p.2 in
      Returns (p.1 :: q.1, q.2)
  end.

(** Reading a field of [null] throws. *)
Definition normalizeCondition (condition : json) (seed : nat) : outcome (ParamOverrideCondition * nat) :=
  match condition with
  | JNull => Throws (js "TypeError")
  | _ => Returns (mkCondition (nextLocalId seed) (string_field (js "path") condition)
                    (known CONDITION_MODE_VALUES (jfield (js "mode") condition) (js "full"))
                    (toValueText (jfield (js "value") condition))
                    (is_true (js "invert") condition) (is_true (js "pass_missing_key") condition), S seed)
  end.

Definition createDefaultCondition (seed : nat) : ParamOverrideCondition * nat :=
  (mkCondition (nextLocalId seed) [] (js "full") [] false false, S seed).

Definition normalize_logic (v : json) : jsstr :=
  if str_eqb (toUpperCase (text_or [js "logic"] (js "OR") v)) (js "AND") then js "AND" else js "OR".

Definition normalizeOperation (operation : json) (seed : nat) : outcome (ParamOverrideOperation * nat) :=
  match operation with
  | JNull => Throws (js "TypeError")
  | _ =>
      let! cs := match jfield (js "conditions") operation with
                 | Some (JArr l) => map_ids normalizeCondition l (S seed)
                 | _ => Returns ([], S seed)
                 end in
      Returns (mkOperation (nextLocalId seed) (string_field (js "description") operation)
                 (string_field (js "path") operation)
                 (known OPERATION_MODE_VALUES (jfield (js "mode") operation) (js "set"))
                 (toValueText (jfield (js "value") operation)) (is_true (js "keep_origin") operation)
                 (string_field (js "from") operation) (string_field (js "to") operation)
                 (normalize_logic operation) cs.1, cs.2)
  end.

Definition createDefaultOperation (seed : nat) : ParamOverrideOperation * nat :=
  (mkOperation (nextLocalId seed) [] [] (js "set") [] false [] []
     (if str_eqb (toUpperCase (js "OR")) (js "AND") then js "AND" else js "OR") [], S seed).

(** ** Lists of rules *)

Definition findIndex {A} (p : A -> bool) (l : list A) : option nat :=
  (fix go i l := match l with [] => None | x :: t => if p x then Some i else go (S i) t end) 0%nat l.

Definition reorderOperations (ops : list ParamOverrideOperation) (sourceId targetId : jsstr) (after : bool)
    : list ParamOverrideOperation :=
  if negb (truthy sourceId) || negb (truthy targetId) || str_eqb sourceId targetId then ops
  else
    match findIndex (fun o => str_eqb (o_id o) sourceId) ops with
    | None => ops
    | Some srcIdx =>
        match ops !! srcIdx with
        | None => ops
        | Some moved =>
            let next := delete srcIdx ops in
            match findIndex (fun o => str_eqb (o_id o) targetId) next with
            | None => ops
            | Some i =>
                let insertIdx := (if after then i + 1 else i)%nat in
                take insertIdx next ++ moved :: drop insertIdx next
            end
        end
    end.

Definition isOperationBlank (operation : ParamOverrideOperation) : bool :=
  let hasCondition :=
    existsb (fun c => truthy (trim (c_path c)) || truthy (trim (c_value_text c))
                      || negb (str_eqb (c_mode c) (js "full")) || c_invert c || c_pass_missing_key c)
      (o_conditions operation) in
  str_eqb (o_mode operation) (js "set") && negb (truthy (trim (o_path operation)))
  && negb (truthy (trim (o_from operation))) && negb (truthy (trim (o_to operation)))
  && str_eqb (trim (o_value_text operation)) [] && negb (o_keep_origin operation) && negb hasCondition.

Definition or_dash (l : list jsstr) : jsstr := match List.filter truthy l with s :: _ => s | [] => js "-" end.

Definition getOperationSummary (operation : ParamOverrideOperation) (index : nat) : jsstr :=
  let mode := if truthy (o_mode operation) then o_mode operation else js "set" in
  let modeLabel :=
    match find (fun o => str_eqb o.2 mode) OPERATION_MODE_OPTIONS with Some o => o.1 | None => mode end in
  let path := trim (o_path operation) in
  let from := trim (o_from operation) in
  let to := trim (o_to operation) in
  digits_of (Z.of_nat (index + 1)) ++ js ". " ++ modeLabel ++ [32; 183; 32]%N
  ++ (if str_eqb mode (js "sync_fields") then or_dash [from; to] else or_dash [path; from; to]).

(** ** Labels of a mode *)

Definition getModeTagTailwind (mode : jsstr) : jsstr :=
  if includes mode (js "header") then js "bg-cyan-500/15 text-cyan-700 dark:text-cyan-300 border-cyan-500/20"
  else if includes mode (js "replace") || includes mode (js "trim")
  then js "bg-violet-500/15 text-violet-700 dark:text-violet-300 border-violet-500/20"
  else if includes mode (js "copy") || includes mode (js "move")
  then js "bg-blue-500/15 text-blue-700 dark:text-blue-300 border-blue-500/20"
  else if includes mode (js "error") || includes mode (js "prune")
  then js "bg-red-500/15 text-red-700 dark:text-red-300 border-red-500/20"
  else if includes mode (js "sync") then js "bg-green-500/15 text-green-700 dark:text-green-300 border-green-500/20"
  else js "bg-muted text-muted-foreground".

Definition getModePathLabel (mode : jsstr) : jsstr :=
  if has [js "set_header"; js "delete_header"] mode then js "Header Name"
  else if str_eqb mode (js "prune_objects") then js "Target Path (optional)" else js "Target Field Path".

Definition getModePathPlaceholder (mode : jsstr) : jsstr :=
  if str_eqb mode (js "set_header") then js "Authorization"
  else if str_eqb mode (js "delete_header") then js "X-Debug-Mode"
  else if str_eqb mode (js "prune_objects") then js "messages" else js "temperature".

Definition getModeFromLabel (mode : jsstr) : jsstr :=
  if str_eqb mode (js "replace") then js "Match Text"
  else if str_eqb mode (js "regex_replace") then js "Regex Pattern"
  else if has [js "copy_header"; js "move_header"] mode then js "Source Header" else js "Source Field".

Definition getModeFromPlaceholder (mode : jsstr) : jsstr :=
  if str_eqb mode (js "replace") then js "openai/"
  else if str_eqb mode (js "regex_replace") then js "^gpt-"
  else if has [js "copy_header"; js "move_header"] mode then js "Authorization" else js "model".

Definition getModeToLabel (mode : jsstr) : jsstr :=
  if has [js "replace"; js "regex_replace"] mode then js "Replace With"
  else if has [js "copy_header"; js "move_header"] mode then js "Target Header" else js "Target Field".

Definition getModeToPlaceholder (mode : jsstr) : jsstr :=
  if str_eqb mode (js "replace") then js "(leave empty to delete)"
  else if str_eqb mode (js "regex_replace") then js "openai/gpt-"
  else if has [js "copy_header"; js "move_header"] mode then js "X-Upstream-Auth" else js "original_model".

Definition AFFIX_MODES : list jsstr :=
  [js "trim_prefix"; js "trim_suffix"; js "ensure_prefix"; js "ensure_suffix"].

Definition getModeValueLabel (mode : jsstr) : jsstr :=
  if str_eqb mode (js "set_header") then js "Header Value (supports string or JSON mapping)"
  else if str_eqb mode (js "pass_headers") then js "Pass-through Headers (comma-separated or JSON array)"
  else if has AFFIX_MODES mode then js "Prefix/Suffix Text"
  else if str_eqb mode (js "prune_objects") then js "Prune Rule (string or JSON object)"
  else js "Value (supports JSON or plain text)".

(** ** Targets of synchronised fields *)

Definition parseSyncTargetSpec (spec : jsstr) : jsstr * jsstr :=
  let raw := trim spec in
  if negb (truthy raw) then (js "json", [])
  else match findIndex (N.eqb 58) raw with
       | None => (js "json", raw)
       | Some idx =>
           let prefix := toLowerCase (trim (take idx raw)) in
           let key := trim (drop (idx + 1) raw) in
           if str_eqb prefix (js "header") then (js "header", key) else (js "json", key)
       end.

Definition buildSyncTargetSpec (type key : jsstr) : jsstr :=
  let normalizedType := if str_eqb type (js "header") then js "header" else js "json" in
  let normalizedKey := trim key in
  if negb (truthy normalizedKey) then [] else normalizedType ++ js ":" ++ normalizedKey.

(** ** The value of return_error *)

Record ReturnErrorDraft := mkReturnError {
  e_message : jsstr; e_statusCode : num; e_code : jsstr; e_type : jsstr; e_skipRetry : bool; e_simpleMode : bool
}.

Definition status_or_400 (x : num) : num :=
  if isInteger x && nge x (num_of_Z 100) && nle x (num_of_Z 599) then x else num_of_Z 400.

Definition plain_error (message : jsstr) : ReturnErrorDraft :=
  mkReturnError message (num_of_Z 400) [] [] true true.

Definition parseReturnErrorDraft (valueText : jsstr) : ReturnErrorDraft :=
  let raw := trim valueText in
  if negb (truthy raw) then plain_error []
  else match parse raw with
       | Some (JObj l) =>
           let parsed := JObj l in
           let statusRaw := match jfield (js "status_code") parsed with
                            | Some x => Some x
                            | None => jfield (js "status") parsed
                            end in
           mkReturnError (trim (text_or [js "message"; js "msg"] [] parsed)) (status_or_400 (Number_json statusRaw))
             (trim (text_or [js "code"] [] parsed)) (trim (text_or [js "type"] [] parsed))
             (not_false (js "skip_retry") parsed) false
       | _ => plain_error raw
       end.

(** [if (text) payload[k] = text]. *)
Definition set_text (k text : jsstr) (l : list (jsstr * json)) : list (jsstr * json) :=
  if truthy text then obj_set k (JStr text) l else l.

Definition buildReturnErrorValueText (draft : ReturnErrorDraft) : jsstr :=
  let message := trim (e_message draft) in
  if e_simpleMode draft then message
  else
    let payload := [(js "message", JStr message); (js "status_code", JNum (status_or_400 (e_statusCode draft)))] in
    let payload := set_text (js "code") (trim (e_code draft)) payload in
    let payload := set_text (js "type") (trim (e_type draft)) payload in
    let payload := if e_skipRetry draft then payload else obj_set (js "skip_retry") (JBool false) payload in
    stringify 0 0 (JObj payload).

(** ** The value of prune_objects *)

Record PruneObjectsDraft := mkPrune {
  p_simpleMode : bool; p_typeText : jsstr; p_logic : jsstr; p_recursive : bool; p_rules : list ParamOverrideCondition
}.

(** A rule has the fields of a condition, and is read in the same way. *)
Definition normalizePruneRule : json -> nat -> outcome (ParamOverrideCondition * nat) := normalizeCondition.

(** [for (const [path, value] of Object.entries(o)) rules.push(...)]. *)
Definition rules_of_entries (l : list (jsstr * json)) (seed : nat) : outcome (list ParamOverrideCondition * nat) :=
  map_ids (fun e => normalizePruneRule
                      (JObj [(js "path", JStr e.1); (js "mode", JStr (js "full")); (js "value", e.2)])) l seed.

Definition plain_prune (typeText : jsstr) : PruneObjectsDraft := mkPrune true typeText (js "AND") true [].

Definition has_field (k : jsstr) (v : json) : bool := match jfield k v with Some _ => true | None => false end.

(** Items that are objects (or arrays) become rules. *)
Definition objectish (v : json) : bool := match v with JObj _ | JArr _ => true | _ => false end.

Definition parsePruneObjectsDraft (valueText : jsstr) (seed : nat) : outcome (PruneObjectsDraft * nat) :=
  let raw := trim valueText in
  if negb (truthy raw) then Returns (plain_prune [], seed)
  else match parse raw with
       | None => Returns (plain_prune raw, seed)
       | Some (JStr s) => Returns (plain_prune (trim s), seed)
       | Some (JObj l) =>
           let parsed := JObj l in
           let! where_ := match jfield (js "where") parsed with
                          | Some (JObj w) => rules_of_entries w seed
                          | _ => Returns ([], seed)
                          end in
           let! conditions := match jfield (js "conditions") parsed with
                              | Some (JArr items) => map_ids normalizePruneRule (List.filter objectish items) where_.2
                              | Some (JObj w) => rules_of_entries w where_.2
                              | _ => Returns ([], where_.2)
                              end in
           let typeText := match jfield (js "type") parsed with Some v => trim (json_to_str v) | None => [] end in
           let logic := if str_eqb (toUpperCase (text_or [js "logic"] (js "AND") parsed)) (js "OR")
                        then js "OR" else js "AND" in
           let hasAdvancedFields := has_field (js "logic") parsed || has_field (js "recursive") parsed
                                    || has_field (js "where") parsed || has_field (js "conditions") parsed in
           Returns (mkPrune (negb hasAdvancedFields) typeText logic (not_false (js "recursive") parsed)
                      (where_.1 ++ conditions.1), conditions.2)
       | Some JNull => Returns (plain_prune [], seed)
       | Some v => Returns (plain_prune (trim (json_to_str v)), seed)
       end.

Definition prune_condition (rule : ParamOverrideCondition) : json :=
  let payload := [(js "path", JStr (trim (c_path rule)));
                  (js "mode", JStr (if has CONDITION_MODE_VALUES (c_mode rule) then c_mode rule else js "full"))] in
  let valueRaw := trim (c_value_text rule) in
  let payload := if str_eqb valueRaw [] then payload else obj_set (js "value") (parseLooseValue valueRaw) payload in
  let payload := if c_invert rule then obj_set (js "invert") (JBool true) payload else payload in
  JObj (if c_pass_missing_key rule then obj_set (js "pass_missing_key") (JBool true) payload else payload).

Definition buildPruneObjectsValueText (draft : PruneObjectsDraft) : jsstr :=
  let typeText := trim (p_typeText draft) in
  if p_simpleMode draft then typeText
  else
    let payload := set_text (js "type") typeText [] in
    let payload := if str_eqb (toUpperCase (if truthy (p_logic draft) then p_logic draft else js "AND")) (js "OR")
                   then obj_set (js "logic") (JStr (js "OR")) payload else payload in
    let payload := if p_recursive draft then payload else obj_set (js "recursive") (JBool false) payload in
    let conditions := map prune_condition (List.filter (fun r => truthy (trim (c_path r))) (p_rules draft)) in
    let payload := match conditions with [] => payload | _ => obj_set (js "conditions") (JArr conditions) payload end in
    if negb (truthy typeText) && match conditions with [] => true | _ => false end
    then stringify 0 0 (JObj [(js "logic", JStr (js "AND"))])
    else stringify 0 0 (JObj payload).

End Reading.

(** ** Header names *)

Definition header_names (l : list json) : list jsstr :=
  List.filter truthy (map (fun i => trim (match i with JNull => [] | _ => json_to_str i end)) l).

Definition parsePassHeaderNames (rawValue : json) : list jsstr :=
  match rawValue with
  | JArr l => header_names l
  | JObj o =>
      match jfield (js "headers") (JObj o) with
      | Some (JArr l) => header_names l
      | _ => match jfield (js "header") (JObj o) with
             | Some h => header_names [h]
             | None => []
             end
      end
  | JStr s => List.filter truthy (map trim (split_char 44%N s))
  | _ => []
  end.

(** ** Printing rules *)

Definition buildConditionPayload (condition : ParamOverrideCondition) : option json :=
  let path := trim (c_path condition) in
  if negb (truthy path) then None
  else
    let payload := [(js "path", JStr path);
                    (js "mode", JStr (if truthy (c_mode condition) then c_mode condition else js "full"));
                    (js "value", parseLooseValue (c_value_text condition))] in
    let payload := if c_invert condition then obj_set (js "invert") (JBool true) payload else payload in
    Some (JObj (if c_pass_missing_key condition
                then obj_set (js "pass_missing_key") (JBool true) payload else payload)).

Definition op_mode (op : ParamOverrideOperation) : jsstr := if truthy (o_mode op) then o_mode op else js "set".

(** A field of a payload that is a string, if it is not empty. *)
Definition blank_member (k : jsstr) (l : list (jsstr * json)) : bool :=
  match jfield k (JObj l) with Some v => negb (json_truthy v) | None => true end.

Definition operation_payload (operation : ParamOverrideOperation) : json :=
  let mode := op_mode operation in
  let meta := meta_of mode in
  let pathValue := trim (o_path operation) in
  let fromValue := trim (o_from operation) in
  let toValue := trim (o_to operation) in
  let payload := [(js "mode", JStr mode)] in
  let payload := set_text (js "description") (trim (o_description operation)) payload in
  let payload := if meta_path meta then obj_set (js "path") (JStr pathValue) payload else payload in
  let payload := if meta_pathOptional meta then set_text (js "path") pathValue payload else payload in
  let payload := if meta_value meta then obj_set (js "value") (parseLooseValue (o_value_text operation)) payload
                 else payload in
  let payload := if meta_keepOrigin meta && o_keep_origin operation
                 then obj_set (js "keep_origin") (JBool true) payload else payload in
  let payload := if meta_from meta then obj_set (js "from") (JStr fromValue) payload else payload in
  let payload := if negb (default false (meta_to meta)) then set_text (js "to") toValue payload else payload in
  let payload := if default false (meta_to meta) then obj_set (js "to") (JStr toValue) payload else payload in
  let payload :=
    if meta_pathAlias meta then
      let payload := if blank_member (js "from") payload then set_text (js "from") pathValue payload else payload in
      if blank_member (js "to") payload then set_text (js "to") pathValue payload else payload
    else payload in
  let conditions := omap buildConditionPayload (o_conditions operation) in
  JObj (match conditions with
        | [] => payload
        | _ => obj_set (js "logic") (JStr (if str_eqb (o_logic operation) (js "AND") then js "AND" else js "OR"))
                 (obj_set (js "conditions") (JArr conditions) payload)
        end).

(** ** Validation *)

Section Validation.
  (** [t(key, { line })]. *)
  Variable t_line : jsstr -> nat -> jsstr.

(** The message for one rule, if it is refused.  The later checks of the source
    for an empty value are not reached: the modes they are for require one. *)
Definition validate_operation (op : ParamOverrideOperation) (line : nat) : option jsstr :=
  let mode := op_mode op in
  let meta := meta_of mode in
  let pathValue := trim (o_path op) in
  let fromValue := trim (o_from op) in
  let toValue := trim (o_to op) in
  let raw := trim (o_value_text op) in
  if meta_path meta && negb (truthy pathValue) then Some (t_line (js "Rule {{line}} is missing target path") line)
  else if has FROM_REQUIRED_MODES mode && negb (truthy fromValue) && negb (meta_pathAlias meta && truthy pathValue)
  then Some (t_line (js "Rule {{line}} is missing source field") line)
  else if has TO_REQUIRED_MODES mode && negb (truthy toValue) && negb (meta_pathAlias meta && truthy pathValue)
  then Some (t_line (js "Rule {{line}} is missing target field") line)
  else if has VALUE_REQUIRED_MODES mode && str_eqb raw [] then Some (t_line (js "Rule {{line}} is missing value") line)
  else if str_eqb mode (js "return_error")
          && match parse raw with
             | Some (JObj l) => negb (truthy (trim (text_or [js "message"] [] (JObj l))))
             | _ => false
             end
  then Some (t_line (js "Rule {{line}} return_error requires a message field") line)
  else if str_eqb mode (js "pass_headers") && Nat.eqb (length (parsePassHeaderNames (parseLooseValue raw))) 0
  then Some (t_line (js "Rule {{line}} pass_headers format is invalid") line)
  else None.

(** The message of the first rule that is refused. *)
Fixpoint validate_from (line : nat) (operations : list ParamOverrideOperation) : jsstr :=
  match operations with
  | [] => []
  | op :: rest =>
      match validate_operation op line with
      | Some message => message
      | None => validate_from (S line) rest
      end
  end.

Definition validateOperations (operations : list ParamOverrideOperation) : jsstr := validate_from 1 operations.

(** An exception carries its message. *)
Definition buildOperationsJson (sourceOperations : list ParamOverrideOperation) (validate : bool)
    : jsstr + jsstr :=
  let filteredOps := List.filter (fun o => negb (isOperationBlank o)) sourceOperations in
  match filteredOps with
  | [] => inr []
  | _ =>
      let message := if validate then validateOperations filteredOps else [] in
      if truthy message then inl message
      else inr (stringify 2 0 (JObj [(js "operations", JArr (map operation_payload filteredOps))]))
  end.

End Validation.
