(* ===== verification/ParamEditor.v ===== *)
(** * The editor of parameter override rules

    Model of the component ParamOverrideEditorDialog in src/web/default/src/
    features/channels/components/dialogs/param-override-editor-dialog.tsx as a
    transition system: its state, the handlers of its controls and the effect
    that keeps the selection valid.  Toasts and markup are left out. *)

From S2P Require Import Prelude JsStr JsNum JsArray JsJson JsPrint ParamOverride.
Local Open Scope js_scope.

Inductive EditMode := Visual | Json.
Inductive VisualMode := Operations | Legacy.

#[export] Instance visual_eq_dec : EqDecision VisualMode.
Proof. solve_decision. Defined.

(** [saved] is the last text given to onSave; the seed of the ids is global. *)
Record Editor := mkEditor {
  editMode : EditMode;
  visualMode : VisualMode;
  legacyValue : jsstr;
  operations : list ParamOverrideOperation;
  jsonText : jsstr;
  jsonError : jsstr;
  operationSearch : jsstr;
  selectedOperationId : jsstr;
  expandedConditions : list (jsstr * bool);
  draggedOperationId : jsstr;
  dragOverOperationId : jsstr;
  dragOverAfter : bool;
  templatePresetKey : jsstr;
  localIdSeed : nat;
  saved : option jsstr
}.

(** ** Updates of single fields *)

Section Setters.
  Variable s : Editor.

Definition set_main (m : EditMode) (v : VisualMode) (l : jsstr) (ops : list ParamOverrideOperation) (t e : jsstr)
    (seed : nat) : Editor :=
  mkEditor m v l ops t e (operationSearch s) (selectedOperationId s) (expandedConditions s) (draggedOperationId s)
    (dragOverOperationId s) (dragOverAfter s) (templatePresetKey s) seed (saved s).
Definition setOperations (ops : list ParamOverrideOperation) (seed : nat) : Editor :=
  set_main (editMode s) (visualMode s) (legacyValue s) ops (jsonText s) (jsonError s) seed.
Definition setJson (t e : jsstr) : Editor :=
  set_main (editMode s) (visualMode s) (legacyValue s) (operations s) t e (localIdSeed s).
Definition setSelectedOperationId (id : jsstr) : Editor :=
  mkEditor (editMode s) (visualMode s) (legacyValue s) (operations s) (jsonText s) (jsonError s) (operationSearch s)
    id (expandedConditions s) (draggedOperationId s) (dragOverOperationId s) (dragOverAfter s) (templatePresetKey s)
    (localIdSeed s) (saved s).
Definition setExpandedConditions (m : list (jsstr * bool)) : Editor :=
  mkEditor (editMode s) (visualMode s) (legacyValue s) (operations s) (jsonText s) (jsonError s) (operationSearch s)
    (selectedOperationId s) m (draggedOperationId s) (dragOverOperationId s) (dragOverAfter s) (templatePresetKey s)
    (localIdSeed s) (saved s).
Definition setDrag (dragged over : jsstr) (after : bool) : Editor :=
  mkEditor (editMode s) (visualMode s) (legacyValue s) (operations s) (jsonText s) (jsonError s) (operationSearch s)
    (selectedOperationId s) (expandedConditions s) dragged over after (templatePresetKey s) (localIdSeed s) (saved s).
Definition setTemplatePresetKey (k : jsstr) : Editor :=
  mkEditor (editMode s) (visualMode s) (legacyValue s) (operations s) (jsonText s) (jsonError s) (operationSearch s)
    (selectedOperationId s) (expandedConditions s) (draggedOperationId s) (dragOverOperationId s) (dragOverAfter s) k
    (localIdSeed s) (saved s).
Definition setOperationSearch (k : jsstr) : Editor :=
  mkEditor (editMode s) (visualMode s) (legacyValue s) (operations s) (jsonText s) (jsonError s) k
    (selectedOperationId s) (expandedConditions s) (draggedOperationId s) (dragOverOperationId s) (dragOverAfter s)
    (templatePresetKey s) (localIdSeed s) (saved s).
Definition setSaved (text : jsstr) : Editor :=
  mkEditor (editMode s) (visualMode s) (legacyValue s) (operations s) (jsonText s) (jsonError s) (operationSearch s)
    (selectedOperationId s) (expandedConditions s) (draggedOperationId s) (dragOverOperationId s) (dragOverAfter s)
    (templatePresetKey s) (localIdSeed s) (Some text).
End Setters.

(** ** Templates *)

Definition obj (l : list (jsstr * json)) : json := JObj l.
Definition str (s : jsstr) : json := JStr s.

Definition LEGACY_TEMPLATE : json :=
  obj [(js "temperature", JNum zero); (js "max_tokens", JNum (num_of_Z 1000))].

Definition prefix_condition (path mode value : jsstr) : json :=
  obj [(js "path", str path); (js "mode", str mode); (js "value", str value)].

Definition OPERATION_TEMPLATE : list json :=
  [obj [(js "description", str (js "Set default temperature for openai/* models."));
        (js "path", str (js "temperature")); (js "mode", str (js "set"));
        (js "value", JNum (dec_to_num false 7 (-1)));
        (js "conditions", JArr [prefix_condition (js "model") (js "prefix") (js "openai/")]);
        (js "logic", str (js "AND"))]].

Definition HEADER_PASSTHROUGH_TEMPLATE : list json :=
  [obj [(js "description", str (js "Pass through X-Request-Id header to upstream."));
        (js "mode", str (js "pass_headers")); (js "value", JArr [str (js "X-Request-Id")]);
        (js "keep_origin", JBool true)]].

Definition GEMINI_IMAGE_4K_TEMPLATE : list json :=
  [obj [(js "description", str (js "Set imageSize to 4K when model contains gemini/image and ends with 4k."));
        (js "mode", str (js "set")); (js "path", str (js "generationConfig.imageConfig.imageSize"));
        (js "value", str (js "4K"));
        (js "conditions", JArr [prefix_condition (js "original_model") (js "contains") (js "gemini");
                                prefix_condition (js "original_model") (js "contains") (js "image");
                                prefix_condition (js "original_model") (js "suffix") (js "4k")]);
        (js "logic", str (js "AND"))]].

Definition CODEX_CLI_HEADER_PASSTHROUGH_HEADERS : list jsstr :=
  [js "Originator"; js "Session_id"; js "User-Agent"; js "X-Codex-Beta-Features"; js "X-Codex-Turn-Metadata"].

Definition CLAUDE_CLI_HEADER_PASSTHROUGH_HEADERS : list jsstr :=
  [js "X-Stainless-Arch"; js "X-Stainless-Lang"; js "X-Stainless-Os"; js "X-Stainless-Package-Version";
   js "X-Stainless-Retry-Count"; js "X-Stainless-Runtime"; js "X-Stainless-Runtime-Version"; js "X-Stainless-Timeout";
   js "User-Agent"; js "X-App"; js "Anthropic-Beta"; js "Anthropic-Dangerous-Direct-Browser-Access";
   js "Anthropic-Version"].

Definition buildPassHeadersTemplate (headers : list jsstr) : list json :=
  [obj [(js "mode", str (js "pass_headers")); (js "value", JArr (map JStr headers)); (js "keep_origin", JBool true)]].

Definition AWS_BEDROCK_ANTHROPIC_COMPAT_TEMPLATE : list json :=
  let keep s := (s, str s) in
  let drop s := (s, JNull) in
  [obj [(js "description", str (js "Normalize anthropic-beta header tokens for Bedrock compatibility."));
        (js "mode", str (js "set_header")); (js "path", str (js "anthropic-beta"));
        (js "value",
         obj [(js "advanced-tool-use-2025-11-20", str (js "tool-search-tool-2025-10-19"));
              drop (js "bash_20241022"); drop (js "bash_20250124"); drop (js "code-execution-2025-08-25");
              keep (js "compact-2026-01-12"); keep (js "computer-use-2025-01-24"); keep (js "computer-use-2025-11-24");
              keep (js "context-1m-2025-08-07"); keep (js "context-management-2025-06-27");
              drop (js "effort-2025-11-24"); drop (js "fast-mode-2026-02-01"); drop (js "files-api-2025-04-14");
              drop (js "fine-grained-tool-streaming-2025-05-14"); keep (js "interleaved-thinking-2025-05-14");
              drop (js "mcp-client-2025-11-20"); drop (js "mcp-client-2025-04-04"); drop (js "mcp-servers-2025-12-04");
              drop (js "output-128k-2025-02-19"); drop (js "structured-output-2024-03-01");
              drop (js "prompt-caching-scope-2026-01-05"); drop (js "skills-2025-10-02");
              drop (js "structured-outputs-2025-11-13"); drop (js "text_editor_20241022");
              drop (js "text_editor_20250124"); drop (js "token-efficient-tools-2025-02-19");
              keep (js "tool-search-tool-2025-10-19"); drop (js "web-fetch-2025-09-10");
              drop (js "web-search-2025-03-05"); drop (js "oauth-2025-04-20")])];
   obj [(js "description", str (js "Remove all tools[*].custom.input_examples before upstream relay."));
        (js "mode", str (js "delete")); (js "path", str (js "tools.*.custom.input_examples"))]].

(** The preset of a key: the legacy one, or the operations of the others. *)
Definition TEMPLATE_PRESET_CONFIG : list (jsstr * option (list json)) :=
  [(js "operations_default", Some OPERATION_TEMPLATE); (js "legacy_default", None);
   (js "pass_headers_auth", Some HEADER_PASSTHROUGH_TEMPLATE); (js "gemini_image_4k", Some GEMINI_IMAGE_4K_TEMPLATE);
   (js "claude_cli_headers_passthrough", Some (buildPassHeadersTemplate CLAUDE_CLI_HEADER_PASSTHROUGH_HEADERS));
   (js "codex_cli_headers_passthrough", Some (buildPassHeadersTemplate CODEX_CLI_HEADER_PASSTHROUGH_HEADERS));
   (js "aws_bedrock_anthropic_beta_override", Some AWS_BEDROCK_ANTHROPIC_COMPAT_TEMPLATE)].

(** ** Changes of a rule *)

(** A change of one field. *)
Inductive OperationPatch :=
| PatchMode (v : jsstr) | PatchPath (v : jsstr) | PatchDescription (v : jsstr) | PatchValue (v : jsstr)
| PatchKeep (v : bool) | PatchFrom (v : jsstr) | PatchTo (v : jsstr) | PatchLogic (v : jsstr).

Definition patch_operation (p : OperationPatch) (o : ParamOverrideOperation) : ParamOverrideOperation :=
  let '(mkOperation i d pa m v k f t l c) := o in
  match p with
  | PatchMode x => mkOperation i d pa x v k f t l c
  | PatchPath x => mkOperation i d x m v k f t l c
  | PatchDescription x => mkOperation i x pa m v k f t l c
  | PatchValue x => mkOperation i d pa m x k f t l c
  | PatchKeep x => mkOperation i d pa m v x f t l c
  | PatchFrom x => mkOperation i d pa m v k x t l c
  | PatchTo x => mkOperation i d pa m v k f x l c
  | PatchLogic x => mkOperation i d pa m v k f t x c
  end.

Inductive ConditionPatch :=
| CondPath (v : jsstr) | CondMode (v : jsstr) | CondValue (v : jsstr) | CondInvert (v : bool) | CondPass (v : bool).

Definition patch_condition (p : ConditionPatch) (c : ParamOverrideCondition) : ParamOverrideCondition :=
  let '(mkCondition i pa m v n q) := c in
  match p with
  | CondPath x => mkCondition i x m v n q
  | CondMode x => mkCondition i pa x v n q
  | CondValue x => mkCondition i pa m x n q
  | CondInvert x => mkCondition i pa m v x q
  | CondPass x => mkCondition i pa m v n x
  end.

Definition set_conditions (o : ParamOverrideOperation) (c : list ParamOverrideCondition) : ParamOverrideOperation :=
  mkOperation (o_id o) (o_description o) (o_path o) (o_mode o) (o_value_text o) (o_keep_origin o) (o_from o) (o_to o)
    (o_logic o) c.

Inductive ReturnErrorPatch :=
| ErrMessage (v : jsstr) | ErrStatus (v : num) | ErrCode (v : jsstr) | ErrType (v : jsstr) | ErrSkip (v : bool)
| ErrSimple (v : bool) | ErrPreset (status : num) (code type : jsstr).

Definition patch_return_error (p : ReturnErrorPatch) (d : ReturnErrorDraft) : ReturnErrorDraft :=
  let '(mkReturnError m s c t k q) := d in
  match p with
  | ErrMessage x => mkReturnError x s c t k q
  | ErrStatus x => mkReturnError m x c t k q
  | ErrCode x => mkReturnError m s x t k q
  | ErrType x => mkReturnError m s c x k q
  | ErrSkip x => mkReturnError m s c t x q
  | ErrSimple x => mkReturnError m s c t k x
  | ErrPreset a b d => mkReturnError m a b d k q
  end.

Inductive PrunePatch :=
| PruneSimple (v : bool) | PruneType (v : jsstr) | PruneLogic (v : jsstr) | PruneRecursive (v : bool).

Definition patch_prune (p : PrunePatch) (d : PruneObjectsDraft) : PruneObjectsDraft :=
  let '(mkPrune s t l r rules) := d in
  match p with
  | PruneSimple x => mkPrune x t l r rules
  | PruneType x => mkPrune s x l r rules
  | PruneLogic x => mkPrune s t x r rules
  | PruneRecursive x => mkPrune s t l x rules
  end.

Section Editing.
  Variable toUpperCase : jsstr -> jsstr.
  Variable clock : nat -> Z.
  Variable t : jsstr -> jsstr.
  Variable t_line : jsstr -> nat -> jsstr.

Definition createOperation (seed : nat) : ParamOverrideOperation * nat := createDefaultOperation toUpperCase clock seed.

(** [ops.length > 0 ? ops.map(normalizeOperation) : [createDefaultOperation()]]. *)
Definition normalize_all (l : list json) (seed : nat) : outcome (list ParamOverrideOperation * nat) :=
  match l with
  | [] => let '(o, seed') := createOperation seed in Returns ([o], seed')
  | _ => map_ids (normalizeOperation toUpperCase clock) l seed
  end.

(** ** Opening *)

(** The parsed state and the next seed. *)
Definition parseInitialState (rawValue : jsstr) (seed : nat)
    : outcome (EditMode * VisualMode * jsstr * list ParamOverrideOperation * jsstr * jsstr * nat) :=
  let trimmed := trim rawValue in
  let '(fallback, seed') := createOperation seed in
  if negb (truthy trimmed) then Returns (Visual, Operations, [], [fallback], [], [], seed')
  else match parse trimmed with
       | None => Returns (Json, Operations, [], [fallback], rawValue, js "Invalid JSON format", seed')
       | Some parsed =>
           let pretty := stringify 2 0 parsed in
           match parsed with
           | JObj l =>
               match jfield (js "operations") parsed with
               | Some (JArr items) =>
                   let! r := normalize_all items seed in
                   Returns (Visual, Operations, [], r.1, pretty, [], r.2)
               | _ => Returns (Visual, Legacy, pretty, [fallback], pretty, [], seed')
               end
           | _ => Returns (Json, Operations, [], [fallback], pretty, [], seed')
           end
       end.

Definition first_id (ops : list ParamOverrideOperation) : jsstr := match ops with o :: _ => o_id o | [] => [] end.

(** The effect of opening the dialog with a value. *)
Definition openEditor (value : jsstr) (s : Editor) : outcome Editor :=
  let! r := parseInitialState value (localIdSeed s) in
  let '(m, v, l, ops, text, err, seed) := r in
  Returns (mkEditor m v l ops text err [] (first_id ops) [] [] [] false
             (match v with Legacy => js "legacy_default" | Operations => js "operations_default" end) seed (saved s)).

(** The effect that keeps the selection valid. *)
Definition selection_effect (s : Editor) : Editor :=
  match operations s with
  | [] => setSelectedOperationId s []
  | o :: _ =>
      if existsb (fun x => str_eqb (o_id x) (selectedOperationId s)) (operations s) then s
      else setSelectedOperationId s (o_id o)
  end.

(** ** Rules *)

Definition map_operation (id : jsstr) (f : ParamOverrideOperation -> ParamOverrideOperation)
    (ops : list ParamOverrideOperation) : list ParamOverrideOperation :=
  map (fun o => if str_eqb (o_id o) id then f o else o) ops.

Definition updateOperation (id : jsstr) (patch : OperationPatch) (s : Editor) : Editor :=
  setOperations s (map_operation id (patch_operation patch) (operations s)) (localIdSeed s).

Definition addOperation (s : Editor) : Editor :=
  let '(created, seed) := createOperation (localIdSeed s) in
  setSelectedOperationId (setOperations s (operations s ++ [created]) seed) (o_id created).

Definition condition_source (c : ParamOverrideCondition) : json :=
  JObj [(js "path", JStr (c_path c)); (js "mode", JStr (c_mode c)); (js "value", parseLooseValue (c_value_text c));
        (js "invert", JBool (c_invert c)); (js "pass_missing_key", JBool (c_pass_missing_key c))].

Definition operation_source (o : ParamOverrideOperation) : json :=
  JObj [(js "description", JStr (o_description o)); (js "path", JStr (o_path o)); (js "mode", JStr (o_mode o));
        (js "value", parseLooseValue (o_value_text o)); (js "keep_origin", JBool (o_keep_origin o));
        (js "from", JStr (o_from o)); (js "to", JStr (o_to o)); (js "logic", JStr (o_logic o));
        (js "conditions", JArr (map condition_source (o_conditions o)))].

(** [eager] says whether the updater has run when the selection is set. *)
Definition duplicateOperation (id : jsstr) (eager : bool) (s : Editor) : outcome Editor :=
  match findIndex (fun o => str_eqb (o_id o) id) (operations s) with
  | None => Returns s
  | Some idx =>
      match operations s !! idx with
      | None => Returns s
      | Some source =>
          let! r := normalizeOperation toUpperCase clock (operation_source source) (localIdSeed s) in
          let s' := setOperations s (take (idx + 1) (operations s) ++ r.1 :: drop (idx + 1) (operations s)) r.2 in
          Returns (if eager then setSelectedOperationId s' (o_id r.1) else s')
      end
  end.

Definition removeOperation (id : jsstr) (s : Editor) : Editor :=
  if Nat.leb (length (operations s)) 1 then
    let '(o, seed) := createOperation (localIdSeed s) in setOperations s [o] seed
  else setOperations s (List.filter (fun o => negb (str_eqb (o_id o) id)) (operations s)) (localIdSeed s).

(** ** Conditions *)

Definition addCondition (id : jsstr) (s : Editor) : Editor :=
  let '(created, seed) := createDefaultCondition clock (localIdSeed s) in
  let s' := setOperations s (map_operation id (fun o => set_conditions o (o_conditions o ++ [created])) (operations s))
              seed in
  setExpandedConditions s' (mset (c_id created) true (expandedConditions s')).

Definition updateCondition (id cid : jsstr) (patch : ConditionPatch) (s : Editor) : Editor :=
  setOperations s
    (map_operation id
       (fun o => set_conditions o (map (fun c => if str_eqb (c_id c) cid then patch_condition patch c else c)
                                     (o_conditions o)))
       (operations s)) (localIdSeed s).

Definition removeCondition (id cid : jsstr) (s : Editor) : Editor :=
  setOperations s
    (map_operation id (fun o => set_conditions o (List.filter (fun c => negb (str_eqb (c_id c) cid)) (o_conditions o)))
       (operations s)) (localIdSeed s).

(** ** Drafts *)

Definition updateReturnErrorDraft (id : jsstr) (patch : ReturnErrorPatch) (s : Editor) : Editor :=
  setOperations s
    (map_operation id
       (fun o => patch_operation
                   (PatchValue (buildReturnErrorValueText (patch_return_error patch (parseReturnErrorDraft (o_value_text o)))))
                   o)
       (operations s)) (localIdSeed s).

(** The updater parses the value of the rule anew, with new ids. *)
Definition prune_update (updater : PruneObjectsDraft -> nat -> outcome (PruneObjectsDraft * nat))
    (o : ParamOverrideOperation) (seed : nat) : outcome (ParamOverrideOperation * nat) :=
  let! d := parsePruneObjectsDraft toUpperCase clock (o_value_text o) seed in
  let! n := updater d.1 d.2 in
  Returns (patch_operation (PatchValue (buildPruneObjectsValueText toUpperCase n.1)) o, n.2).

Definition updatePruneObjectsDraft (id : jsstr)
    (updater : PruneObjectsDraft -> nat -> outcome (PruneObjectsDraft * nat)) (s : Editor) : outcome Editor :=
  let! r := map_ids (fun o seed => if str_eqb (o_id o) id then prune_update updater o seed else Returns (o, seed))
              (operations s) (localIdSeed s) in
  Returns (setOperations s r.1 r.2).

Definition set_rules (rules : list ParamOverrideCondition) (d : PruneObjectsDraft) : PruneObjectsDraft :=
  mkPrune (p_simpleMode d) (p_typeText d) (p_logic d) (p_recursive d) rules.

Definition add_rule (d : PruneObjectsDraft) (seed : nat) : outcome (PruneObjectsDraft * nat) :=
  let '(rule, seed') := createDefaultCondition clock seed in
  Returns (mkPrune false (p_typeText d) (p_logic d) (p_recursive d) (p_rules d ++ [rule]), seed').

Definition update_rule (ruleId : jsstr) (patch : ConditionPatch) (d : PruneObjectsDraft) (seed : nat)
    : outcome (PruneObjectsDraft * nat) :=
  Returns (set_rules (map (fun r => if str_eqb (c_id r) ruleId then patch_condition patch r else r) (p_rules d)) d, seed).

Definition remove_rule (ruleId : jsstr) (d : PruneObjectsDraft) (seed : nat) : outcome (PruneObjectsDraft * nat) :=
  Returns (set_rules (List.filter (fun r => negb (str_eqb (c_id r) ruleId)) (p_rules d)) d, seed).

Definition addPruneRule (id : jsstr) : Editor -> outcome Editor := updatePruneObjectsDraft id add_rule.
Definition updatePruneRule (id ruleId : jsstr) (patch : ConditionPatch) : Editor -> outcome Editor :=
  updatePruneObjectsDraft id (update_rule ruleId patch).
Definition removePruneRule (id ruleId : jsstr) : Editor -> outcome Editor :=
  updatePruneObjectsDraft id (remove_rule ruleId).

(** The draft the editor shows; computing it takes ids. *)
Definition pruneObjectsDraft (o : ParamOverrideOperation) (seed : nat) : outcome (PruneObjectsDraft * nat) :=
  parsePruneObjectsDraft toUpperCase clock (o_value_text o) seed.

(** ** Drag and drop *)

Definition handleDragStart (id : jsstr) (s : Editor) : Editor :=
  setSelectedOperationId (setDrag s id (dragOverOperationId s) (dragOverAfter s)) id.

Definition handleDragOver (id : jsstr) (after : bool) (s : Editor) : Editor :=
  if negb (truthy (draggedOperationId s)) || str_eqb (draggedOperationId s) id then s
  else setDrag s (draggedOperationId s) id after.

(** [transferred] is the text of the drag event. *)
Definition handleDrop (id transferred : jsstr) (s : Editor) : Editor :=
  let sourceId := if truthy (draggedOperationId s) then draggedOperationId s else transferred in
  let after := str_eqb (dragOverOperationId s) id && dragOverAfter s in
  let s' := if truthy sourceId && truthy id && negb (str_eqb sourceId id)
            then setSelectedOperationId
                   (setOperations s (reorderOperations (operations s) sourceId id after) (localIdSeed s)) sourceId
            else s in
  setDrag s' [] [] false.

(** ** Modes *)

Definition buildVisualJson (s : Editor) : jsstr + jsstr :=
  match visualMode s with
  | Legacy =>
      let trimmed := trim (legacyValue s) in
      if negb (truthy trimmed) then inr []
      else match parse trimmed with
           | None => inl (t (js "Parameter override must be valid JSON format"))
           | Some (JObj l) => inr (stringify 2 0 (JObj l))
           | Some _ => inl (t (js "Legacy format must be a JSON object"))
           end
  | Operations => buildOperationsJson t_line (operations s) true
  end.

Definition switchToJsonMode (s : Editor) : Editor :=
  match editMode s with
  | Json => s
  | Visual =>
      let '(text, err) :=
        match buildVisualJson s with
        | inr text => (text, [])
        | inl message =>
            (match visualMode s with
             | Legacy => legacyValue s
             | Operations => match buildOperationsJson t_line (operations s) false with inr x => x | inl x => x end
             end,
             if truthy message then message else t (js "Parameter configuration error"))
        end in
      set_main s Json (visualMode s) (legacyValue s) (operations s) text err (localIdSeed s)
  end.

Definition switchToVisualMode (s : Editor) : outcome Editor :=
  match editMode s with
  | Visual => Returns s
  | Json =>
      let trimmed := trim (jsonText s) in
      let '(fallback, seed) := createOperation (localIdSeed s) in
      if negb (truthy trimmed) then
        Returns (setSelectedOperationId (set_main s Visual Operations [] [fallback] (jsonText s) [] seed) (o_id fallback))
      else match parse trimmed with
           | None => Returns s
           | Some parsed =>
               match parsed with
               | JObj _ =>
                   match jfield (js "operations") parsed with
                   | Some (JArr items) =>
                       let! r := normalize_all items (localIdSeed s) in
                       Returns (setTemplatePresetKey
                                  (setSelectedOperationId (set_main s Visual Operations [] r.1 (jsonText s) [] r.2)
                                     (first_id r.1)) (js "operations_default"))
                   | _ =>
                       Returns (setTemplatePresetKey
                                  (setSelectedOperationId
                                     (set_main s Visual Legacy (stringify 2 0 parsed) [fallback] (jsonText s) [] seed)
                                     (o_id fallback)) (js "legacy_default"))
                   end
               | _ => Returns s
               end
           end
  end.

(** The own members that a spread copies. *)
Definition spread (v : json) : list (jsstr * json) :=
  match v with
  | JObj l => l
  | JArr l => imap (fun i x => (digits_of (Z.of_nat i), x)) l
  | JStr s => imap (fun i c => (digits_of (Z.of_nat i), JStr [c])) s
  | _ => []
  end.

Definition fill_legacy (text : jsstr) (s : Editor) : Editor :=
  let '(fallback, seed) := createOperation (localIdSeed s) in
  set_main s Visual Legacy text [fallback] text [] seed.

Definition fillTemplate (append : bool) (s : Editor) : outcome Editor :=
  match default (Some OPERATION_TEMPLATE) (mget (templatePresetKey s) TEMPLATE_PRESET_CONFIG) with
  | None =>
      if append && bool_decide (visualMode s = Legacy) then
        let trimmed := trim (legacyValue s) in
        match (if truthy trimmed then parse trimmed else Some (JObj [])) with
        | None => Returns s
        | Some parsedCurrent =>
            let merged := foldl (fun l p => obj_set p.1 p.2 l) (spread LEGACY_TEMPLATE) (spread parsedCurrent) in
            Returns (fill_legacy (stringify 2 0 (JObj merged)) s)
        end
      else Returns (fill_legacy (stringify 2 0 LEGACY_TEMPLATE) s)
  | Some operationsPayload =>
      if append then
        let! r := map_ids (normalizeOperation toUpperCase clock) operationsPayload (localIdSeed s) in
        let existing := match visualMode s with
                        | Operations => List.filter (fun o => negb (isOperationBlank o)) (operations s)
                        | Legacy => []
                        end in
        let nextOps := existing ++ r.1 in
        Returns (setSelectedOperationId (set_main s Visual Operations [] nextOps [] [] r.2) (first_id nextOps))
      else
        let! r := normalize_all operationsPayload (localIdSeed s) in
        Returns (setSelectedOperationId
                   (set_main s Visual Operations (legacyValue s) r.1
                      (stringify 2 0 (JObj [(js "operations", JArr operationsPayload)])) [] r.2) (first_id r.1))
  end.

Definition resetEditorState (s : Editor) : Editor :=
  let '(fallback, seed) := createOperation (localIdSeed s) in
  setTemplatePresetKey
    (setSelectedOperationId (set_main s Visual Operations [] [fallback] [] [] seed) (o_id fallback))
    (js "operations_default").

(** ** The JSON mode and saving *)

Definition handleJsonChange (nextValue : jsstr) (s : Editor) : Editor :=
  let trimmed := trim nextValue in
  setJson s nextValue (if negb (truthy trimmed) then [] else if verifyJSON trimmed then [] else t (js "JSON format error")).

Definition formatJson (s : Editor) : Editor :=
  let trimmed := trim (jsonText s) in
  if negb (truthy trimmed) then s
  else match parse trimmed with
       | None => s
       | Some v => setJson s (stringify 2 0 v) []
       end.

Definition visualValidationError (s : Editor) : jsstr :=
  match editMode s with
  | Json => []
  | Visual => match buildVisualJson s with
              | inr _ => []
              | inl message => if truthy message then message else t (js "Parameter configuration error")
              end
  end.

(** The text that is saved, or the message of the error. *)
Definition save_result (s : Editor) : jsstr + jsstr :=
  match editMode s with
  | Json =>
      let trimmed := trim (jsonText s) in
      if negb (truthy trimmed) then inr []
      else match parse trimmed with
           | None => inl (t (js "Parameter override must be valid JSON format"))
           | Some v => inr (stringify 2 0 v)
           end
  | Visual => buildVisualJson s
  end.

Definition handleSave (s : Editor) : Editor :=
  match save_result s with inr result => setSaved s result | inl _ => s end.

(** ** Expanded conditions *)

Definition selectedOperation (s : Editor) : option ParamOverrideOperation :=
  find (fun o => str_eqb (o_id o) (selectedOperationId s)) (operations s).

Definition expand_all (open : bool) (s : Editor) : Editor :=
  match selectedOperation s with
  | None => s
  | Some o => setExpandedConditions s (foldl (fun m c => mset (c_id c) open m) (expandedConditions s) (o_conditions o))
  end.
Definition expandAllConditions : Editor -> Editor := expand_all true.
Definition collapseAllConditions : Editor -> Editor := expand_all false.

(** ** Derived lists *)

Definition operationCount (s : Editor) : nat :=
  length (List.filter (fun o => negb (isOperationBlank o)) (operations s)).

Definition filteredOperations (toLowerCase : jsstr -> jsstr) (s : Editor) : list ParamOverrideOperation :=
  let keyword := toLowerCase (trim (operationSearch s)) in
  if negb (truthy keyword) then operations s
  else List.filter
         (fun op => includes
            (toLowerCase (join (js " ") (List.filter truthy
               [o_description op; o_mode op; o_path op; o_from op; o_to op; o_value_text op]))) keyword)
         (operations s).

Definition topOperationModes (s : Editor) : list (jsstr * num) :=
  let counts := foldl (fun m op => mset (op_mode op) (nadd (num_or (default zero (mget (op_mode op) m)) zero) (num_of_Z 1)) m)
                  [] (operations s) in
  take 4 (sort_with (fun a b => nsub b.2 a.2) counts).

(** ** Events *)

(** [ERender] is a render without a handler: it evaluates the initial value of
    the rules again, which takes an id. *)
Inductive Event :=
| EOpen (value : jsstr) | EUpdate (id : jsstr) (patch : OperationPatch) | EAdd | EDuplicate (id : jsstr) (eager : bool)
| ERemove (id : jsstr) | EAddCondition (id : jsstr) | EUpdateCondition (id cid : jsstr) (patch : ConditionPatch)
| ERemoveCondition (id cid : jsstr) | EReturnError (id : jsstr) (patch : ReturnErrorPatch)
| EPrune (id : jsstr) (patch : PrunePatch) | EAddRule (id : jsstr)
| EUpdateRule (id ruleId : jsstr) (patch : ConditionPatch) | ERemoveRule (id ruleId : jsstr)
| EShowDraft (id : jsstr)
| EDragStart (id : jsstr) | EDragOver (id : jsstr) (after : bool) | EDrop (id transferred : jsstr) | EDragEnd
| EToJson | EToVisual | EFill (append : bool) | EReset | EJson (text : jsstr) | EFormat | ESave | ESelect (id : jsstr)
| ERender | ELegacy (text : jsstr) | ESearch (text : jsstr) | EPreset (key : jsstr) | EExpand (open : bool).

Definition handle (e : Event) (s : Editor) : outcome Editor :=
  match e with
  | EOpen value => openEditor value s
  | EUpdate id patch => Returns (updateOperation id patch s)
  | EAdd => Returns (addOperation s)
  | EDuplicate id eager => duplicateOperation id eager s
  | ERemove id => Returns (removeOperation id s)
  | EAddCondition id => Returns (addCondition id s)
  | EUpdateCondition id cid patch => Returns (updateCondition id cid patch s)
  | ERemoveCondition id cid => Returns (removeCondition id cid s)
  | EReturnError id patch => Returns (updateReturnErrorDraft id patch s)
  | EPrune id patch => updatePruneObjectsDraft id (fun d seed => Returns (patch_prune patch d, seed)) s
  | EAddRule id => addPruneRule id s
  | EUpdateRule id ruleId patch => updatePruneRule id ruleId patch s
  | ERemoveRule id ruleId => removePruneRule id ruleId s
  | EShowDraft id =>
      match find (fun o => str_eqb (o_id o) id) (operations s) with
      | None => Returns s
      | Some o => let! d := pruneObjectsDraft o (localIdSeed s) in Returns (setOperations s (operations s) d.2)
      end
  | EDragStart id => Returns (handleDragStart id s)
  | EDragOver id after => Returns (handleDragOver id after s)
  | EDrop id transferred => Returns (handleDrop id transferred s)
  | EDragEnd => Returns (setDrag s [] [] false)
  | EToJson => Returns (switchToJsonMode s)
  | EToVisual => switchToVisualMode s
  | EFill append => fillTemplate append s
  | EReset => Returns (resetEditorState s)
  | EJson text => Returns (handleJsonChange text s)
  | EFormat => Returns (formatJson s)
  | ESave => Returns (handleSave s)
  | ESelect id => Returns (setSelectedOperationId s id)
  | ERender => Returns (setOperations s (operations s) (S (localIdSeed s)))
  | ELegacy text => Returns (set_main s (editMode s) (visualMode s) text (operations s) (jsonText s) (jsonError s) (localIdSeed s))
  | ESearch text => Returns (setOperationSearch s text)
  | EPreset key => Returns (setTemplatePresetKey s (if truthy key then key else js "operations_default"))
  | EExpand open => Returns (expand_all open s)
  end.

(** The first render, before the dialog is opened. *)
Definition mountEditor (seed : nat) : Editor :=
  let '(o, seed') := createOperation seed in
  mkEditor Visual Operations [] [o] [] [] [] [] [] [] [] false (js "operations_default") seed' None.

(** A handler, then the effect of the selection. *)
Inductive reachable : Editor -> Prop :=
| reach_mount seed : reachable (selection_effect (mountEditor seed))
| reach_event e s s' : reachable s -> handle e s = Returns s' -> reachable (selection_effect s').

End Editing.
