(* ===== verification/ParamOverrideProps.v ===== *)
(** * What the rule editor keeps and loses

    Which values survive the text field they are edited in, that rules which
    are saved and opened again are saved as the same text, that rules and
    conditions keep distinct ids, and that the rules of the prune mode cannot
    be edited. *)

From S2P Require Import Prelude JsStr JsNum JsArray JsJson JsPrint ParamOverride ParamEditor.
Local Open Scope js_scope.

(** ** Values in a text field *)

(** A string survives if it is not padded and does not read as JSON. *)
Definition survives (v : json) : bool :=
  match v with
  | JStr s => trimmed s && (negb (truthy s) || negb (verifyJSON s))
  | _ => true
  end.

Lemma trim_eq_trimmed s : trim s = s <-> trimmed s = true.
Proof. split; [intros <-; apply trim_trimmed|apply trim_id]. Qed.

Lemma loose_text v : printable v = true -> parseLooseValue (stringify 0 0 v) = v.
Proof.
  intros Hv. unfold parseLooseValue. rewrite trim_id by (by apply stringify_trimmed).
  destruct (stringify_starts 0 0 v Hv) as (c & u & E & _). rewrite parse_stringify by done.
  cbv zeta. destruct (str_eqb _ []) eqn:E'; [|done]. apply str_eqb_eq in E'. by rewrite E in E'.
Qed.

Lemma loose_string s : parseLooseValue s = JStr s <-> survives (JStr s) = true.
Proof.
  unfold parseLooseValue, survives, verifyJSON. cbv zeta. rewrite andb_true_iff, <- trim_eq_trimmed.
  destruct (str_eqb (trim s) []) eqn:E.
  - apply str_eqb_eq in E. rewrite E. split; [intros [= <-]; done|]. by intros [<- _].
  - apply str_eqb_neq in E. split.
    + destruct (parse (trim s)) as [v|] eqn:Ep.
      * intros ->. apply parse_string_length in Ep. pose proof (trim_length s). lia.
      * intros [= H]. rewrite H in *. rewrite Ep. by rewrite orb_true_r.
    + intros [Ht Hs]. rewrite Ht in *. destruct (truthy s) eqn:Es; [|by apply truthy_false in Es].
      cbn [negb orb] in Hs. by destruct (parse s).
Qed.

(** A value that is printed into the text field of a rule and read back. *)
Lemma loose_round_trip v :
  printable v = true -> parseLooseValue (toValueText (Some v)) = v <-> survives v = true.
Proof.
  intros Hv. destruct v as [| | |s| |]; try (split; [done|]; intros _; by apply loose_text). apply loose_string.
Qed.

(** A value that is shown in the text field of a rule and read back is the
    same value exactly when it is not a string, or is a string without padding
    that does not itself read as JSON; "true" or "12" come back as a boolean
    and a number. *)
Theorem loose_value_exact v :
  printable v = true -> parseLooseValue (toValueText (Some v)) = v <-> survives v = true.
Proof. apply loose_round_trip. Qed.

Lemma loose_value_exact_witness :
  parseLooseValue (toValueText (Some (JArr [JStr (js "12")]))) = JArr [JStr (js "12")]
  /\ parseLooseValue (toValueText (Some (JStr (js "12")))) <> JStr (js "12").
Proof.
  split.
  - apply (loose_value_exact (JArr [JStr (js "12")])); vm_compute; reflexivity.
  - intros H. apply (loose_value_exact (JStr (js "12"))) in H; [vm_compute in H; discriminate|vm_compute; reflexivity].
Defined.

(** ** Fields of a payload *)

Lemma jfield_set_text k k' s l :
  jfield k (JObj (set_text k' s l))
  = if str_eqb k' k then (if truthy s then Some (JStr s) else jfield k (JObj l)) else jfield k (JObj l).
Proof. unfold set_text. destruct (truthy s); [apply jfield_set|by destruct (str_eqb k' k)]. Qed.

Lemma jfield_if k (b : bool) x y : jfield k (JObj (if b then x else y)) = if b then jfield k (JObj x) else jfield k (JObj y).
Proof. by destruct b. Qed.

(** Comparisons of literal keys. *)
Ltac keys :=
  repeat match goal with
  | |- context [str_eqb (js ?a) (js ?b)] =>
      let r := eval vm_compute in (str_eqb (js a) (js b)) in change (str_eqb (js a) (js b)) with r
  end; cbn iota.

Ltac fields := repeat (rewrite ?jfield_if, ?jfield_set, ?jfield_set_text; keys).

Definition text_member (s : jsstr) : option json := if truthy s then Some (JStr s) else None.

(** ** Conditions *)

Definition value_settled (text : jsstr) : bool :=
  printable (parseLooseValue text) && survives (parseLooseValue text).

Definition condition_settled (c : ParamOverrideCondition) : bool :=
  has CONDITION_MODE_VALUES (c_mode c) && value_settled (c_value_text c).

Lemma value_again text : value_settled text = true -> parseLooseValue (toValueText (Some (parseLooseValue text))) = parseLooseValue text.
Proof. intros [Hp Hs]%andb_true_iff. by apply loose_round_trip. Qed.

Lemma has_In set x : has set x = true <-> In x set.
Proof.
  unfold has. rewrite existsb_exists. split; [intros (y & Hy & ->%str_eqb_eq); done|].
  intros H. exists x. split; [done|apply str_eqb_refl].
Qed.

Lemma condition_mode_truthy m : has CONDITION_MODE_VALUES m = true -> truthy m = true.
Proof. intros H%has_In. cbn in H. by repeat (destruct H as [<-|H]; [reflexivity|]). Qed.

Lemma operation_mode_truthy m : has OPERATION_MODE_VALUES m = true -> truthy m = true.
Proof. intros H%has_In. cbn in H. by repeat (destruct H as [<-|H]; [reflexivity|]). Qed.

Lemma condition_again clock c P seed :
  condition_settled c = true -> buildConditionPayload c = Some P ->
  exists c', normalizeCondition clock P seed = Returns (c', S seed) /\ buildConditionPayload c' = Some P.
Proof.
  intros [Hm Hv]%andb_true_iff. unfold buildConditionPayload. cbv zeta.
  destruct (truthy (trim (c_path c))) eqn:Ep; [|done]. cbn [negb]. rewrite (condition_mode_truthy _ Hm).
  set (v := parseLooseValue (c_value_text c)).
  set (base := [(js "path", JStr (trim (c_path c))); (js "mode", JStr (c_mode c)); (js "value", v)]).
  set (l := if c_pass_missing_key c then _ else _). intros [= <-].
  assert (jfield (js "path") (JObj l) = Some (JStr (trim (c_path c))) /\ jfield (js "mode") (JObj l) = Some (JStr (c_mode c))
          /\ jfield (js "value") (JObj l) = Some v
          /\ is_true (js "invert") (JObj l) = c_invert c /\ is_true (js "pass_missing_key") (JObj l) = c_pass_missing_key c)
    as (F1 & F2 & F3 & F4 & F5).
  { subst l base. unfold is_true. fields. by destruct (c_invert c), (c_pass_missing_key c). }
  exists (mkCondition (nextLocalId clock seed) (trim (c_path c)) (c_mode c) (toValueText (Some v)) (c_invert c) (c_pass_missing_key c)).
  split.
  - unfold normalizeCondition, string_field. rewrite F1, F2, F3, F4, F5. unfold known. by rewrite Hm.
  - cbn [c_path c_mode c_value_text c_invert c_pass_missing_key].
    rewrite trim_idemp, Ep. cbn [negb]. rewrite (condition_mode_truthy _ Hm). subst l base v.
    by rewrite value_again.
Qed.

Lemma conditions_again clock cs seed :
  forallb condition_settled cs = true ->
  exists cs' seed', map_ids (normalizeCondition clock) (omap buildConditionPayload cs) seed = Returns (cs', seed')
                    /\ omap buildConditionPayload cs' = omap buildConditionPayload cs.
Proof.
  revert seed. induction cs as [|c cs IH]; intros seed; [by exists [], seed|].
  cbn [forallb]. intros [Hc Hcs]%andb_true_iff. cbn [omap list_omap].
  destruct (buildConditionPayload c) as [P|] eqn:E; [|by apply IH].
  destruct (condition_again clock c P seed Hc E) as (c' & Hn & Hb).
  destruct (IH (S seed) Hcs) as (cs' & seed' & Hm & Ho). exists (c' :: cs'), seed'. split.
  - cbn [map_ids]. rewrite Hn. cbn [obind fst snd]. by rewrite Hm.
  - cbn [omap list_omap]. by rewrite Hb, Ho.
Qed.

(** ** Operations *)

(** The payload before its conditions, from trimmed fields. *)
Definition base (meta : ModeMeta) (mode d p : jsstr) (v : json) (k : bool) (f t : jsstr) : list (jsstr * json) :=
  let payload := [(js "mode", JStr mode)] in
  let payload := set_text (js "description") d payload in
  let payload := if meta_path meta then obj_set (js "path") (JStr p) payload else payload in
  let payload := if meta_pathOptional meta then set_text (js "path") p payload else payload in
  let payload := if meta_value meta then obj_set (js "value") v payload else payload in
  let payload := if meta_keepOrigin meta && k then obj_set (js "keep_origin") (JBool true) payload else payload in
  let payload := if meta_from meta then obj_set (js "from") (JStr f) payload else payload in
  let payload := if negb (default false (meta_to meta)) then set_text (js "to") t payload else payload in
  let payload := if default false (meta_to meta) then obj_set (js "to") (JStr t) payload else payload in
  if meta_pathAlias meta then
    let payload := if blank_member (js "from") payload then set_text (js "from") p payload else payload in
    if blank_member (js "to") payload then set_text (js "to") p payload else payload
  else payload.

Definition with_conditions (logic : jsstr) (conditions : list json) (l : list (jsstr * json)) : json :=
  JObj (match conditions with
        | [] => l
        | _ => obj_set (js "logic") (JStr (if str_eqb logic (js "AND") then js "AND" else js "OR"))
                 (obj_set (js "conditions") (JArr conditions) l)
        end).

Lemma operation_payload_eq o :
  operation_payload o
  = with_conditions (o_logic o) (omap buildConditionPayload (o_conditions o))
      (base (meta_of (op_mode o)) (op_mode o) (trim (o_description o)) (trim (o_path o))
         (parseLooseValue (o_value_text o)) (o_keep_origin o) (trim (o_from o)) (trim (o_to o))).
Proof. unfold operation_payload, with_conditions, base. cbv zeta. reflexivity. Qed.

Definition metas : list ModeMeta :=
  [mkMeta true false false false None false false; mkMeta true false true false None false false;
   mkMeta true false true false None true false; mkMeta false false false true (Some true) false false;
   mkMeta true false false true (Some false) false false; mkMeta false false false true (Some true) true true;
   mkMeta false false true false None false false; mkMeta false true true false None false false;
   mkMeta false false true false None true false].

Lemma meta_known m : has OPERATION_MODE_VALUES m = true -> In (meta_of m) metas.
Proof.
  intros H%has_In. cbn in H.
  repeat (destruct H as [<-|H]; [vm_compute; tauto|]). done.
Qed.

(** What reading a printed payload gives for its text fields. *)
Definition read_text (k : string) (l : list (jsstr * json)) : jsstr := string_field (js k) (JObj l).

Ltac each_meta HM := cbn in HM; repeat (destruct HM as [<-|HM]); try done.

Ltac each_text := repeat match goal with s : jsstr |- _ => destruct s end.

(** The payload depends on the fields it prints, and on the others not. *)
Lemma base_again meta mode d p v v' k f t :
  In meta metas -> (meta_value meta = true -> v' = v) ->
  let l := base meta mode d p v k f t in
  base meta mode (read_text "description" l) (read_text "path" l) v' (is_true (js "keep_origin") (JObj l))
    (read_text "from" l) (read_text "to" l) = l.
Proof.
  intros HM Hv. each_meta HM; cbn [meta_value] in Hv; try (specialize (Hv eq_refl); subst v'); clear Hv || idtac;
    destruct k, d, p, f, t; vm_compute; reflexivity.
Qed.

Lemma base_texts meta mode d p v k f t key :
  In meta metas -> In key ["description"; "path"; "from"; "to"]%string ->
  In (read_text key (base meta mode d p v k f t)) [[]; d; p; f; t].
Proof.
  intros HM Hk. each_meta Hk; each_meta HM; destruct k, d, p, f, t; vm_compute; tauto.
Qed.

Lemma base_value meta mode d p v k f t :
  In meta metas -> meta_value meta = true -> jfield (js "value") (JObj (base meta mode d p v k f t)) = Some v.
Proof.
  intros HM Hv. each_meta HM; try discriminate Hv; destruct k, d, p, f, t; vm_compute; reflexivity.
Qed.

Lemma base_mode meta mode d p v k f t :
  In meta metas -> jfield (js "mode") (JObj (base meta mode d p v k f t)) = Some (JStr mode).
Proof. intros HM. each_meta HM; destruct k, d, p, f, t; vm_compute; reflexivity. Qed.

Lemma base_plain meta mode d p v k f t key :
  In meta metas -> In key ["conditions"; "logic"]%string -> jfield (js key) (JObj (base meta mode d p v k f t)) = None.
Proof. intros HM Hk. each_meta Hk; each_meta HM; destruct k, d, p, f, t; vm_compute; reflexivity. Qed.

(** Conditions are printed after the other fields. *)
Lemma with_conditions_field logic cs l k :
  str_eqb (js "conditions") k = false -> str_eqb (js "logic") k = false ->
  jfield k (with_conditions logic cs l) = jfield k (JObj l).
Proof. intros H1 H2. destruct cs as [|c cs]; [done|]. unfold with_conditions. by rewrite !jfield_set, H1, H2. Qed.

(** The value of a rule survives; a mode that requires a value has one. *)
Definition operation_settled (o : ParamOverrideOperation) : bool :=
  has OPERATION_MODE_VALUES (o_mode o) && forallb condition_settled (o_conditions o)
  && (negb (meta_value (meta_of (o_mode o))) || value_settled (o_value_text o))
  && (negb (has VALUE_REQUIRED_MODES (o_mode o)) || truthy (toValueText (Some (parseLooseValue (o_value_text o))))).

Section Reopening.
  Variable toUpperCase : jsstr -> jsstr.
  Variable clock : nat -> Z.
  Hypothesis upper_and : toUpperCase (js "AND") = js "AND".
  Hypothesis upper_or : toUpperCase (js "OR") = js "OR".

(** The rule that is read from the payload [base] with conditions. *)
Definition reread (o : ParamOverrideOperation) (seed : nat) (cs : list ParamOverrideCondition) : ParamOverrideOperation :=
  let l := base (meta_of (o_mode o)) (o_mode o) (trim (o_description o)) (trim (o_path o))
             (parseLooseValue (o_value_text o)) (o_keep_origin o) (trim (o_from o)) (trim (o_to o)) in
  mkOperation (nextLocalId clock seed) (read_text "description" l) (read_text "path" l) (o_mode o)
    (toValueText (jfield (js "value") (JObj l))) (is_true (js "keep_origin") (JObj l))
    (read_text "from" l) (read_text "to" l)
    (normalize_logic toUpperCase (operation_payload o)) cs.

Lemma op_mode_known o : has OPERATION_MODE_VALUES (o_mode o) = true -> op_mode o = o_mode o.
Proof. intros H. unfold op_mode. by rewrite (operation_mode_truthy _ H). Qed.

Lemma reread_eq o seed :
  operation_settled o = true ->
  exists cs seed', normalizeOperation toUpperCase clock (operation_payload o) seed = Returns (reread o seed cs, seed')
                   /\ omap buildConditionPayload cs = omap buildConditionPayload (o_conditions o).
Proof.
  unfold operation_settled. rewrite !andb_true_iff. intros [[[Hm Hcs] _] _].
  destruct (conditions_again clock (o_conditions o) (S seed) Hcs) as (cs & seed' & Hn & Ho).
  exists (match omap buildConditionPayload (o_conditions o) with [] => [] | _ => cs end),
    (match omap buildConditionPayload (o_conditions o) with [] => S seed | _ => seed' end).
  split; [|by destruct (omap buildConditionPayload (o_conditions o))].
  unfold normalizeOperation, reread, string_field, is_true, read_text, string_field.
  rewrite operation_payload_eq at 1. rewrite (op_mode_known o Hm).
  set (l := base _ _ _ _ _ _ _ _). 
  assert (Hmode : jfield (js "mode") (JObj l) = Some (JStr (o_mode o))) by (by apply base_mode, meta_known).
  assert (Hc : jfield (js "conditions") (JObj l) = None)
    by (apply (base_plain _ _ _ _ _ _ _ _ "conditions"); [by apply meta_known|cbn; tauto]).
  rewrite operation_payload_eq, (op_mode_known o Hm). fold l.
  repeat match goal with
  | |- context [jfield ?k (with_conditions ?a ?b ?c)] => rewrite (with_conditions_field a b c k) by reflexivity
  end.
  rewrite Hmode. cbn [known]. rewrite Hm.
  destruct (omap buildConditionPayload (o_conditions o)) as [|c r] eqn:E.
  - unfold with_conditions. rewrite Hc. reflexivity.
  - unfold with_conditions. rewrite !jfield_set. keys. rewrite Hn. reflexivity.
Qed.

(** A printed logic is read as itself. *)
Lemma logic_again o :
  omap buildConditionPayload (o_conditions o) <> [] ->
  normalize_logic toUpperCase (operation_payload o) = if str_eqb (o_logic o) (js "AND") then js "AND" else js "OR".
Proof.
  intros Hne. rewrite operation_payload_eq. destruct (omap buildConditionPayload (o_conditions o)) as [|c r]; [done|].
  unfold with_conditions, normalize_logic. cbn [text_or]. rewrite jfield_set. keys.
  destruct (str_eqb (o_logic o) (js "AND")); cbn [json_truthy json_to_str]; keys;
    change (truthy (js "AND")) with true; change (truthy (js "OR")) with true; cbn iota;
    by rewrite ?upper_and, ?upper_or.
Qed.

Lemma read_trimmed o key :
  has OPERATION_MODE_VALUES (o_mode o) = true -> In key ["description"; "path"; "from"; "to"]%string ->
  trim (read_text key (base (meta_of (o_mode o)) (o_mode o) (trim (o_description o)) (trim (o_path o))
          (parseLooseValue (o_value_text o)) (o_keep_origin o) (trim (o_from o)) (trim (o_to o))))
  = read_text key (base (meta_of (o_mode o)) (o_mode o) (trim (o_description o)) (trim (o_path o))
          (parseLooseValue (o_value_text o)) (o_keep_origin o) (trim (o_from o)) (trim (o_to o))).
Proof.
  intros Hm Hk. pose proof (base_texts _ (o_mode o) (trim (o_description o)) (trim (o_path o))
    (parseLooseValue (o_value_text o)) (o_keep_origin o) (trim (o_from o)) (trim (o_to o)) key (meta_known _ Hm) Hk) as H.
  cbn [In] in H. repeat (destruct H as [<-|H]; [by rewrite ?trim_idemp|]). done.
Qed.

Lemma payload_again o seed cs :
  operation_settled o = true -> omap buildConditionPayload cs = omap buildConditionPayload (o_conditions o) ->
  operation_payload (reread o seed cs) = operation_payload o.
Proof.
  unfold operation_settled. rewrite !andb_true_iff, orb_true_iff. intros [[[Hm _] Hv] _] Hcs.
  rewrite (operation_payload_eq (reread o seed cs)).
  assert (Hm' : op_mode (reread o seed cs) = o_mode o) by (by apply (op_mode_known (reread o seed cs))).
  rewrite Hm'. unfold reread. cbn [o_description o_path o_value_text o_keep_origin o_from o_to o_logic o_conditions].
  rewrite !read_trimmed by (done || (cbn; tauto)). rewrite base_again; [|by apply meta_known|].
  - pose proof (logic_again o) as HL. set (L := normalize_logic _ _) in *. clearbody L.
    rewrite Hcs, operation_payload_eq, (op_mode_known o Hm).
    destruct (omap buildConditionPayload (o_conditions o)) as [|c r]; [done|].
    rewrite HL by done. unfold with_conditions. by destruct (str_eqb (o_logic o) (js "AND")).
  - intros Hmv. rewrite base_value; [|by apply meta_known|done]. apply value_again.
    by destruct Hv as [Hv%negb_true_iff|Hv]; [congruence|].
Qed.

(** ** Validation *)

(** The checks on the fields, and those on the value. *)
Definition shape_ok (mode p f t : jsstr) : bool :=
  let meta := meta_of mode in
  negb (meta_path meta && negb (truthy p))
  && negb (has FROM_REQUIRED_MODES mode && negb (truthy f) && negb (meta_pathAlias meta && truthy p))
  && negb (has TO_REQUIRED_MODES mode && negb (truthy t) && negb (meta_pathAlias meta && truthy p)).

Definition value_ok (mode raw : jsstr) : bool :=
  negb (has VALUE_REQUIRED_MODES mode && str_eqb raw [])
  && negb (str_eqb mode (js "return_error")
           && match parse raw with
              | Some (JObj l) => negb (truthy (trim (text_or [js "message"] [] (JObj l))))
              | _ => false
              end)
  && negb (str_eqb mode (js "pass_headers") && Nat.eqb (length (parsePassHeaderNames (parseLooseValue raw))) 0).

Variable t_line : jsstr -> nat -> jsstr.
Hypothesis messages : forall key line, truthy (t_line key line) = true.

Lemma validate_ok o line :
  validate_operation t_line o line = None
  <-> shape_ok (op_mode o) (trim (o_path o)) (trim (o_from o)) (trim (o_to o)) = true
      /\ value_ok (op_mode o) (trim (o_value_text o)) = true.
Proof.
  unfold validate_operation, shape_ok, value_ok. cbv zeta. rewrite !andb_true_iff, !negb_true_iff.
  repeat match goal with
  | |- context [if ?b then Some (t_line ?k line) else _] =>
      destruct b; [split; [done|intuition discriminate]|]
  end. intuition.
Qed.

(** The checks on the fields hold of the fields that are read back. *)
Lemma shape_again mode d p v k f t :
  has OPERATION_MODE_VALUES mode = true -> shape_ok mode p f t = true ->
  let l := base (meta_of mode) mode d p v k f t in
  shape_ok mode (read_text "path" l) (read_text "from" l) (read_text "to" l) = true.
Proof.
  intros Hm%has_In. cbn in Hm.
  repeat (destruct Hm as [<-|Hm]; [destruct k, d, p, f, t; vm_compute; (reflexivity || discriminate)|]). done.
Qed.

Lemma no_value_ok mode raw :
  has OPERATION_MODE_VALUES mode = true -> meta_value (meta_of mode) = false -> value_ok mode raw = true.
Proof.
  intros Hm Hv.
  assert (has VALUE_REQUIRED_MODES mode = false /\ str_eqb mode (js "return_error") = false
          /\ str_eqb mode (js "pass_headers") = false) as (H1 & H2 & H3).
  { apply has_In in Hm. cbn in Hm.
    repeat (destruct Hm as [<-|Hm]; [vm_compute in Hv |- *; (discriminate || tauto)|]). done. }
  unfold value_ok. by rewrite H1, H2, H3.
Qed.

Lemma loose_object text l : parse (trim text) = Some (JObj l) <-> parseLooseValue text = JObj l.
Proof.
  unfold parseLooseValue. cbv zeta. destruct (str_eqb (trim text) []) eqn:E.
  - apply str_eqb_eq in E. rewrite E. by split.
  - destruct (parse (trim text)); naive_solver.
Qed.

Lemma loose_trim text : parseLooseValue (trim text) = parseLooseValue text.
Proof. unfold parseLooseValue. by rewrite trim_idemp. Qed.

Lemma value_text_trimmed v : printable v = true -> survives v = true -> trim (toValueText (Some v)) = toValueText (Some v).
Proof.
  intros Hp Hs. apply trim_id. destruct v; cbn [toValueText]; try by apply stringify_trimmed.
  cbn [survives] in Hs. by apply andb_true_iff in Hs as [-> _].
Qed.

Lemma value_ok_again mode text :
  value_settled text = true ->
  negb (has VALUE_REQUIRED_MODES mode) || truthy (toValueText (Some (parseLooseValue text))) = true ->
  value_ok mode (trim text) = true -> value_ok mode (trim (toValueText (Some (parseLooseValue text)))) = true.
Proof.
  intros Hs Hreq. pose proof (value_again _ Hs) as Hv. apply andb_true_iff in Hs as [Hp Hs].
  pose proof (value_text_trimmed _ Hp Hs) as Ht. unfold value_ok. rewrite !loose_trim, Hv.
  set (text' := toValueText _) in *. rewrite !andb_true_iff, !negb_true_iff. intros [[_ Hr] Hh]. repeat split; [| |done].
  - destruct (has VALUE_REQUIRED_MODES mode); [|done]. rewrite Ht. cbn [negb orb] in Hreq.
    by destruct text'.
  - destruct (str_eqb mode (js "return_error")); [|done]. cbn [andb] in *.
    destruct (parse (trim text')) as [[]|] eqn:E; try done.
    apply loose_object in E. rewrite Hv in E. apply loose_object in E. by rewrite E in Hr.
Qed.

(** A rule that passes the validation passes it when it is read back. *)
Lemma validate_again o seed cs line :
  operation_settled o = true -> validate_operation t_line o line = None ->
  validate_operation t_line (reread o seed cs) line = None.
Proof.
  unfold operation_settled. rewrite !andb_true_iff. intros [[[Hm _] Hv] Hreq]. rewrite !validate_ok.
  rewrite (op_mode_known (reread o seed cs)) by done. rewrite (op_mode_known o Hm).
  unfold reread. cbn [o_path o_from o_to o_value_text o_mode].
  rewrite !read_trimmed by (done || (cbn; tauto)). intros [Hs Hval]. split; [by apply shape_again|].
  destruct (meta_value (meta_of (o_mode o))) eqn:Emv; [|by apply no_value_ok].
  rewrite base_value by (done || by apply meta_known). by apply value_ok_again.
Qed.

(** A rule that passes the validation is not blank. *)
Lemma valid_not_blank o line : validate_operation t_line o line = None -> isOperationBlank o = false.
Proof.
  rewrite validate_ok. intros [Hs _]. unfold isOperationBlank. destruct (str_eqb (o_mode o) (js "set")) eqn:E; [|done].
  apply str_eqb_eq in E. unfold op_mode in Hs. rewrite E in Hs. change (truthy (js "set")) with true in Hs.
  destruct (trim (o_path o)); [|done]. vm_compute in Hs. discriminate.
Qed.

(** ** Saving and opening again *)

Lemma truthy_false_nil m : truthy m = false -> m = [].
Proof. by destruct m. Qed.

(** A message is not empty. *)
Lemma refused o line : validate_operation t_line o line <> Some [].
Proof.
  assert (H : forall key, Some (t_line key line) <> Some []).
  { intros key [= E]. pose proof (messages key line) as Hm. by rewrite E in Hm. }
  unfold validate_operation. cbv zeta.
  repeat match goal with |- context [if ?b then Some (t_line ?k line) else _] => destruct b; [apply H|] end. done.
Qed.

Lemma operations_again line ops seed :
  forallb operation_settled ops = true -> validate_from t_line line ops = [] ->
  exists ops' seed',
    map_ids (normalizeOperation toUpperCase clock) (map operation_payload ops) seed = Returns (ops', seed')
    /\ map operation_payload ops' = map operation_payload ops
    /\ validate_from t_line line ops' = []
    /\ List.filter (fun o => negb (isOperationBlank o)) ops' = ops'.
Proof.
  revert line seed. induction ops as [|o ops IH]; intros line seed; [by exists [], seed|].
  cbn [forallb validate_from]. intros [Ho Hops]%andb_true_iff.
  destruct (validate_operation t_line o line) as [m|] eqn:E; [intros ->; by apply refused in E|]. intros Hv.
  destruct (reread_eq o seed Ho) as (cs & seed' & Hn & Hcs).
  destruct (IH (S line) seed' Hops Hv) as (ops' & seed2 & Hm & Hp & Hv' & Hf).
  pose proof (validate_again o seed cs line Ho E) as Ev.
  exists (reread o seed cs :: ops'), seed2. cbn [map map_ids validate_from List.filter]. repeat split.
  - rewrite Hn. cbn [obind fst snd]. by rewrite Hm.
  - by rewrite Hp, payload_again.
  - by rewrite Ev.
  - rewrite (valid_not_blank _ _ Ev). cbn [negb]. by rewrite Hf.
Qed.

Definition kept (ops : list ParamOverrideOperation) : list ParamOverrideOperation :=
  List.filter (fun o => negb (isOperationBlank o)) ops.

Definition rules_json (ops : list ParamOverrideOperation) : json :=
  JObj [(js "operations", JArr (map operation_payload ops))].

(** What a successful build gives. *)
Lemma build_inv ops text :
  buildOperationsJson t_line ops true = inr text ->
  kept ops = [] /\ text = []
  \/ kept ops <> [] /\ validate_from t_line 1 (kept ops) = [] /\ text = stringify 2 0 (rules_json (kept ops)).
Proof.
  unfold buildOperationsJson. fold (kept ops). destruct (kept ops) as [|o r] eqn:E; [intros [= <-]; by left|].
  cbv zeta. unfold validateOperations. destruct (truthy (validate_from t_line 1 (o :: r))) eqn:Ev; [discriminate|].
  apply truthy_false_nil in Ev. intros H. apply (inj inr) in H. right.
  split; [done|]. split; [exact Ev|symmetry; exact H].
Qed.

Lemma build_valid ops :
  kept ops <> [] -> validate_from t_line 1 (kept ops) = [] ->
  buildOperationsJson t_line ops true = inr (stringify 2 0 (rules_json (kept ops))).
Proof.
  unfold buildOperationsJson. fold (kept ops). intros Hne Hv. unfold validateOperations. rewrite Hv.
  by destruct (kept ops).
Qed.

Lemma default_blank seed : isOperationBlank (createOperation toUpperCase clock seed).1 = true.
Proof. reflexivity. Qed.

(** The state that opening a saved text parses. *)
Lemma parse_saved ops text seed :
  forallb operation_settled (kept ops) = true -> printable (rules_json (kept ops)) = true ->
  buildOperationsJson t_line ops true = inr text ->
  exists ops' seed', parseInitialState toUpperCase clock text seed = Returns (Visual, Operations, [], ops', text, [], seed')
                     /\ buildOperationsJson t_line ops' true = inr text.
Proof.
  intros Hs Hp [[_ ->]|(Hne & Hv & ->)]%build_inv.
  { eexists _, _. split; reflexivity. }
  destruct (operations_again 1 (kept ops) seed Hs Hv) as (ops' & seed' & Hm & Hpay & Hv' & Hf).
  exists ops', seed'. split.
  - unfold parseInitialState. rewrite trim_id by (by apply stringify_trimmed). rewrite parse_stringify by done.
    destruct (stringify_starts 2 0 _ Hp) as (c & u & E & _). rewrite E. change (truthy (c :: u)) with true. rewrite <- E.
    cbn [negb createOperation createDefaultOperation]. unfold createOperation, createDefaultOperation. cbn iota.
    unfold rules_json at 1. change (jfield (js "operations") (rules_json (kept ops))) with (Some (JArr (map operation_payload (kept ops)))).
    cbn iota. unfold normalize_all. destruct (map operation_payload (kept ops)) as [|P Ps] eqn:EP.
    { by apply map_eq_nil in EP. }
    rewrite Hm. reflexivity.
  - assert (kept ops' = ops') as Hk by done. rewrite build_valid; rewrite Hk; [|by intros ->; symmetry in Hpay; apply map_eq_nil in Hpay|done].
    unfold rules_json. by rewrite Hpay.
Qed.

End Reopening.

(** C18: rules that are saved from the visual editor and opened again are shown
    without error and are saved as the same text, whatever editor opens them;
    the values of the rules have to survive their text fields. *)
Theorem saved_rules_reopen toUpperCase clock t t_line s s2 text :
  toUpperCase (js "AND") = js "AND" -> toUpperCase (js "OR") = js "OR" ->
  (forall key line, truthy (t_line key line) = true) ->
  editMode s = Visual -> visualMode s = Operations ->
  forallb operation_settled (kept (operations s)) = true -> printable (rules_json (kept (operations s))) = true ->
  save_result t t_line s = inr text ->
  exists s', openEditor toUpperCase clock text s2 = Returns s'
             /\ editMode s' = Visual /\ visualMode s' = Operations /\ jsonText s' = text /\ jsonError s' = []
             /\ save_result t t_line s' = inr text.
Proof.
  intros Ha Ho Ht He Hv Hs Hp. unfold save_result at 1, buildVisualJson at 1. rewrite He, Hv. intros Hb.
  destruct (parse_saved toUpperCase clock Ha Ho t_line Ht (operations s) text (localIdSeed s2) Hs Hp Hb)
    as (ops' & seed' & Hparse & Hb').
  eexists. unfold openEditor. rewrite Hparse. cbn [obind]. split; [reflexivity|]. by repeat split.
Qed.

(** An editor that holds one rule with a condition. *)
Definition sample_editor : Editor :=
  mkEditor Visual Operations []
    [mkOperation (js "a") [] (js " temperature ") (js "set") (js "0.5") true [] [] (js "AND")
       [mkCondition (js "b") (js "model") (js "prefix") (js "gpt") false true];
     mkOperation (js "c") [] (js "X-Key") (js "copy_header") [] false [] [] (js "OR") []]
    [] [] [] [] [] [] [] false [] 3 None.

Lemma saved_rules_reopen_witness :
  exists text s', openEditor (fun x => x) Z.of_nat text sample_editor = Returns s'
    /\ truthy text = true /\ save_result (fun x => x) (fun k _ => k ++ js "!") s' = inr text.
Proof.
  destruct (saved_rules_reopen (fun x => x) Z.of_nat (fun x => x) (fun k _ => k ++ js "!") sample_editor sample_editor
              (stringify 2 0 (rules_json (kept (operations sample_editor))))) as (s' & Ho & _ & _ & _ & _ & Hs);
    [reflexivity|reflexivity|intros [|c k] line; reflexivity|reflexivity|reflexivity|vm_compute; reflexivity
    |vm_compute; reflexivity|vm_compute; reflexivity|].
  exists (stringify 2 0 (rules_json (kept (operations sample_editor)))), s'.
  split; [exact Ho|]. split; [vm_compute; reflexivity|exact Hs].
Defined.
