(* ===== verification/ParamEditorProps.v ===== *)
(** * The state of the rule editor

    That rules keep distinct ids and one of them is selected in every state the
    handlers reach, that a drop moves one rule and keeps the others in order,
    and what the handlers of the prune mode do to its rules. *)

From S2P Require Import Prelude JsStr JsNum JsArray JsJson JsPrint ParamOverride ParamEditor ParamOverrideProps.
Local Open Scope js_scope.

(** ** Local ids *)

Section Ids.
  Variable toUpperCase : jsstr -> jsstr.
  Variable clock : nat -> Z.

(** What follows the last underscore. *)
Lemma last_segment (c : N) x y d e : ~ In c d -> ~ In c e -> x ++ c :: d = y ++ c :: e -> d = e.
Proof.
  revert y. induction x as [|a x IH]; intros [|b y] Hd He; cbn [app].
  - by intros [= ->].
  - intros [= <- ->]. exfalso. apply Hd, in_or_app. right. by left.
  - intros [= -> E]. exfalso. apply He. rewrite <- E. apply in_or_app. right. by left.
  - intros [= _ E]. by apply (IH y).
Qed.

Lemma digits_fuel_not c f z acc : (57 < c)%N -> ~ In c acc -> ~ In c (digits_fuel f z acc).
Proof.
  intros Hc. revert z acc. induction f as [|f IH]; intros z acc Ha; [done|]. cbn [digits_fuel].
  pose proof (Z.mod_pos_bound z 10 ltac:(lia)).
  assert (~ In c (Z.to_N (z mod 10 + 48) :: acc)) by (intros [E|E]; [lia|done]).
  destruct (z <? 10)%Z; [done|]. by apply IH.
Qed.

Lemma nextLocalId_inj a b : nextLocalId clock a = nextLocalId clock b -> a = b.
Proof.
  unfold nextLocalId. rewrite !(app_assoc (js "po_")). intros H.
  apply (last_segment 95) in H; [|apply digits_fuel_not; [lia|intros []]..].
  apply digits_of_inj in H; lia.
Qed.

(** Distinct ids made while the seed went from [lo] to [hi]. *)
Definition issued (lo hi : nat) (id : jsstr) : Prop := exists k, lo <= k < hi /\ id = nextLocalId clock k.

Definition fresh (lo hi : nat) (ids : list jsstr) : Prop := NoDup ids /\ forall id, In id ids -> issued lo hi id.

Lemma fresh_nil lo hi : fresh lo hi [].
Proof. split; [constructor|done]. Qed.

Lemma fresh_one lo hi : lo < hi -> fresh lo hi [nextLocalId clock lo].
Proof. intros H. split; [by apply NoDup_singleton|]. intros id [<-|[]]. exists lo. split; [lia|done]. Qed.

Lemma fresh_weaken lo hi lo' hi' ids : lo' <= lo -> hi <= hi' -> fresh lo hi ids -> fresh lo' hi' ids.
Proof. intros H1 H2 [Hn Hi]. split; [done|]. intros id (k & Hk & ->)%Hi. exists k. split; [lia|done]. Qed.

Lemma fresh_app lo mid hi a b : lo <= mid <= hi -> fresh lo mid a -> fresh mid hi b -> fresh lo hi (a ++ b).
Proof.
  intros Hm [Ha Ia] [Hb Ib]. split.
  - apply NoDup_app. repeat split; [done| |done]. intros x Hx Hy. apply list_elem_of_In in Hx, Hy.
    apply Ia in Hx as (k & Hk & ->). apply Ib in Hy as (j & Hj & E). apply nextLocalId_inj in E. lia.
  - intros id [(k & Hk & ->)%Ia|(k & Hk & ->)%Ib]%in_app_or; exists k; (split; [lia|done]).
Qed.

Lemma fresh_perm lo hi a b : Permutation a b -> fresh lo hi a -> fresh lo hi b.
Proof.
  intros Hp [Hn Hi]. split; [by rewrite <- Hp|]. intros id H. apply Hi. by apply (Permutation_in (l := b)).
Qed.

(** The seed never goes back. *)
Lemma map_ids_fresh {A B} (f : A -> nat -> outcome (B * nat)) (id : B -> jsstr) :
  (forall x seed y seed', f x seed = Returns (y, seed') -> seed < seed' /\ id y = nextLocalId clock seed) ->
  forall l seed r seed', map_ids f l seed = Returns (r, seed') ->
    seed <= seed' /\ length r = length l /\ fresh seed seed' (map id r).
Proof.
  intros Hf. induction l as [|x l IH]; intros seed r seed'; cbn [map_ids].
  - intros [= <- <-]. repeat split; [lia|constructor|done].
  - destruct (f x seed) as [[y s1]|] eqn:E; [|done]. cbn [obind fst snd]. apply Hf in E as [H1 H2].
    destruct (map_ids f l s1) as [[r' s2]|] eqn:E'; [|done]. cbn [obind fst snd]. intros [= <- <-].
    apply IH in E' as (H3 & H4 & H5). split; [lia|]. split; [cbn; lia|].
    apply (fresh_app seed s1 s2 [id y]); [lia| |done]. rewrite H2. by apply fresh_one.
Qed.

Lemma normalizeCondition_id v seed c seed' :
  normalizeCondition clock v seed = Returns (c, seed') -> seed < seed' /\ c_id c = nextLocalId clock seed.
Proof. unfold normalizeCondition. destruct v; intros H; inversion H; subst; split; (lia || done). Qed.

Lemma normalizeOperation_id v seed o seed' :
  normalizeOperation toUpperCase clock v seed = Returns (o, seed') -> seed < seed' /\ o_id o = nextLocalId clock seed.
Proof.
  assert (H : forall cs seed',
    match jfield (js "conditions") v with Some (JArr l) => map_ids (normalizeCondition clock) l (S seed)
    | _ => Returns ([], S seed) end = Returns (cs, seed') -> S seed <= seed').
  { intros cs s1. destruct (jfield (js "conditions") v) as [[]|]; try (intros [= <- <-]; lia).
    intros E. by apply (map_ids_fresh _ c_id normalizeCondition_id) in E as [? _]. }
  unfold normalizeOperation. destruct v; try done;
    (destruct (match jfield (js "conditions") _ with Some (JArr l) => _ | _ => _ end) as [[cs s1]|] eqn:E; [|done];
     specialize (H _ _ eq_refl); cbn [obind fst snd]; intros [= <- <-]; split; [lia|done]).
Qed.

(** ** The rules of an editor *)

Definition wf_rules (ops : list ParamOverrideOperation) (seed : nat) : Prop :=
  fresh 0 seed (map o_id ops) /\ ops <> [].

Definition wf (s : Editor) : Prop := wf_rules (operations s) (localIdSeed s).

(** Rules whose ids are the same, with a later seed. *)
Lemma wf_same ops ops' seed seed' : map o_id ops' = map o_id ops -> seed <= seed' -> wf_rules ops seed -> wf_rules ops' seed'.
Proof.
  intros E Hs [Hf Hn]. split; [rewrite E; by apply (fresh_weaken 0 seed)|]. intros ->. by destruct ops.
Qed.

Lemma wf_fresh ops lo hi : fresh lo hi (map o_id ops) -> ops <> [] -> wf_rules ops hi.
Proof. intros Hf Hn. split; [|done]. by apply (fresh_weaken lo hi); [lia|lia|]. Qed.

Lemma wf_default seed : wf_rules [(createOperation toUpperCase clock seed).1] (S seed).
Proof. apply (wf_fresh _ seed); [apply fresh_one; lia|done]. Qed.

Lemma wf_normalize_all l seed ops seed' :
  normalize_all toUpperCase clock l seed = Returns (ops, seed') -> wf_rules ops seed'.
Proof.
  destruct l as [|v l]; cbn [normalize_all].
  - intros [= <- <-]. apply wf_default.
  - intros H. apply (map_ids_fresh _ o_id normalizeOperation_id) in H as (_ & Hl & Hf).
    apply (wf_fresh _ seed); [done|]. by destruct ops.
Qed.

Lemma map_operation_ids id f ops : (forall o, o_id (f o) = o_id o) -> map o_id (map_operation id f ops) = map o_id ops.
Proof.
  intros Hf. unfold map_operation. rewrite map_map. apply map_ext. intros o. by destruct (str_eqb (o_id o) id).
Qed.

Lemma patch_id p o : o_id (patch_operation p o) = o_id o.
Proof. by destruct o, p. Qed.

(** ** Moving a rule *)

Lemma findIndex_spec {A} (p : A -> bool) l i :
  findIndex p l = Some i -> exists x, l !! i = Some x /\ p x = true.
Proof.
  unfold findIndex. assert (H : forall l n i,
    (fix go i l := match l with [] => None | x :: t => if p x then Some i else go (S i) t end) n l = Some i ->
    exists k x, i = n + k /\ l !! k = Some x /\ p x = true).
  { clear. induction l as [|x l IH]; intros n i; [done|]. destruct (p x) eqn:E.
    - intros [= <-]. exists 0, x. split; [lia|done].
    - intros (k & y & -> & H)%IH. exists (S k), y. split; [lia|done]. }
  intros (k & x & -> & Hk)%H. by exists x.
Qed.

Lemma reorder_perm ops a b after : Permutation (reorderOperations ops a b after) ops.
Proof.
  unfold reorderOperations. destruct (_ || _ || _); [done|].
  destruct (findIndex _ ops) as [i|]; [|done]. destruct (ops !! i) as [m|] eqn:E; [|done].
  destruct (findIndex _ (delete i ops)) as [j|]; [|done].
  rewrite <- Permutation_middle, take_drop. symmetry. by apply delete_Permutation.
Qed.

(** ** Every handler keeps the ids distinct *)

Lemma fresh_filter lo hi (p : ParamOverrideOperation -> bool) ops :
  fresh lo hi (map o_id ops) -> fresh lo hi (map o_id (List.filter p ops)).
Proof.
  intros [Hn Hi]. assert (Hsub : forall id, In id (map o_id (List.filter p ops)) -> In id (map o_id ops)).
  { intros id (o & <- & [Ho _]%filter_In)%in_map_iff. by apply in_map. }
  split; [|by intros id ?%Hsub%Hi]. clear Hi Hsub. induction ops as [|o ops IH]; [constructor|].
  cbn [map] in Hn. apply NoDup_cons in Hn as [Ho Hn]. cbn [List.filter].
  destruct (p o); [|by apply IH]. cbn [map]. apply NoDup_cons. split; [|by apply IH].
  intros H. apply Ho. apply list_elem_of_In in H. apply list_elem_of_In.
  apply in_map_iff in H as (o' & <- & [Ho' _]%filter_In). by apply in_map.
Qed.

Lemma wf_remove id s : wf s -> wf (removeOperation toUpperCase clock id s).
Proof.
  intros [Hf Hn]. unfold removeOperation. destruct (Nat.leb_spec (length (operations s)) 1) as [Hl|Hl].
  - apply wf_default.
  - split; [by apply fresh_filter|]. cbn [operations setOperations set_main]. destruct Hf as [Hd _].
    destruct (operations s) as [|a [|b r]]; [cbn in Hl; lia..|]. cbn [map] in Hd.
    apply NoDup_cons in Hd as [Hd _]. cbn [List.filter].
    destruct (str_eqb (o_id a) id) eqn:Ea; [|done]. destruct (str_eqb (o_id b) id) eqn:Eb; [|done].
    apply str_eqb_eq in Ea, Eb. exfalso. apply Hd. rewrite Ea, Eb. left.
Qed.

Lemma wf_add s : wf s -> wf (addOperation toUpperCase clock s).
Proof.
  intros [Hf Hn]. split; cbn.
  - rewrite map_app. apply (fresh_app 0 (localIdSeed s)); [lia|done|]. apply fresh_one. lia.
  - intros H. by apply app_eq_nil in H as [_ ?].
Qed.

Lemma wf_duplicate id eager s s' : wf s -> duplicateOperation toUpperCase clock id eager s = Returns s' -> wf s'.
Proof.
  intros [Hf Hn]. unfold duplicateOperation. destruct (findIndex _ _) as [i|]; [|by intros [= <-]].
  destruct (operations s !! i) as [o|]; [|by intros [= <-]].
  destruct (normalizeOperation _ _ _ _) as [[o' seed]|] eqn:E; [|done]. cbn [obind fst snd].
  apply normalizeOperation_id in E as [Hs Hid].
  assert (wf_rules (take (i + 1) (operations s) ++ o' :: drop (i + 1) (operations s)) seed) as H.
  { split; [|intros H; by apply app_eq_nil in H as [_ ?]].
    apply (fresh_perm 0 seed (map o_id (operations s) ++ [o_id o'])).
    - rewrite <- (take_drop (i + 1) (operations s)) at 1. rewrite !map_app, <- app_assoc. apply Permutation_app_head.
      cbn [map]. symmetry. apply Permutation_cons_append.
    - apply (fresh_app 0 (localIdSeed s)); [lia|done|]. rewrite Hid. by apply fresh_one. }
  by destruct eager; intros [= <-].
Qed.

(** A pass over the rules that keeps their ids and may take ids for others. *)
Lemma map_ids_keep (f : ParamOverrideOperation -> nat -> outcome (ParamOverrideOperation * nat)) :
  (forall o seed o' seed', f o seed = Returns (o', seed') -> seed <= seed' /\ o_id o' = o_id o) ->
  forall ops seed ops' seed', map_ids f ops seed = Returns (ops', seed') ->
    seed <= seed' /\ map o_id ops' = map o_id ops.
Proof.
  intros Hf. induction ops as [|o ops IH]; intros seed ops' seed'; cbn [map_ids].
  - intros [= <- <-]. split; [lia|done].
  - destruct (f o seed) as [[o' s1]|] eqn:E; [|done]. cbn [obind fst snd]. apply Hf in E as [H1 H2].
    destruct (map_ids f ops s1) as [[r s2]|] eqn:E'; [|done]. cbn [obind fst snd]. intros [= <- <-].
    apply IH in E' as [H3 H4]. split; [lia|]. cbn [map]. by rewrite H2, H4.
Qed.

Lemma rules_of_entries_seed l seed r seed' : rules_of_entries clock l seed = Returns (r, seed') -> seed <= seed'.
Proof.
  intros H. apply (map_ids_fresh _ c_id) in H as [? _]; [done|]. intros x s0 y s1. apply normalizeCondition_id.
Qed.

Lemma parse_prune_seed text seed d seed' :
  parsePruneObjectsDraft toUpperCase clock text seed = Returns (d, seed') -> seed <= seed'.
Proof.
  unfold parsePruneObjectsDraft. cbv zeta. destruct (negb _); [by intros [= _ <-]|].
  destruct (parse (trim text)) as [[]|]; try by intros [= _ <-].
  set (v := JObj l). 
  destruct (match jfield (js "where") v with Some (JObj w) => _ | _ => _ end) as [[w s1]|] eqn:E1; [|done].
  assert (seed <= s1).
  { destruct (jfield (js "where") v) as [[]|]; try (by injection E1 as _ <-). by apply rules_of_entries_seed in E1. }
  cbn [obind fst snd].
  destruct (match jfield (js "conditions") v with Some (JArr items) => _ | Some (JObj w0) => _ | _ => _ end)
    as [[c s2]|] eqn:E2; [|done].
  assert (s1 <= s2).
  { destruct (jfield (js "conditions") v) as [[]|]; try (by injection E2 as _ <-).
    - by apply (map_ids_fresh _ c_id normalizeCondition_id) in E2 as [? _].
    - by apply rules_of_entries_seed in E2. }
  cbn [obind fst snd]. intros [= _ <-]. lia.
Qed.

Lemma wf_prune id updater s s' :
  (forall d seed d' seed', updater d seed = Returns (d', seed') -> seed <= seed') ->
  wf s -> updatePruneObjectsDraft toUpperCase clock id updater s = Returns s' -> wf s'.
Proof.
  intros Hu Hw. unfold updatePruneObjectsDraft.
  destruct (map_ids _ (operations s) (localIdSeed s)) as [[ops seed]|] eqn:E; [|done]. cbn [obind fst snd]. intros [= <-].
  apply map_ids_keep in E as [H1 H2]; [by apply (wf_same (operations s) _ (localIdSeed s))|].
  intros o s0 o' s1. destruct (str_eqb (o_id o) id); [|intros [= <- <-]; split; [lia|done]].
  unfold prune_update. destruct (parsePruneObjectsDraft _ _ _ _) as [[d s2]|] eqn:Ed; [|done]. cbn [obind fst snd].
  destruct (updater d s2) as [[n s3]|] eqn:En; [|done]. cbn [obind fst snd]. intros [= <- <-].
  apply parse_prune_seed in Ed. apply Hu in En. split; [lia|apply patch_id].
Qed.

Lemma wf_created seed o seed' : createOperation toUpperCase clock seed = (o, seed') -> wf_rules [o] seed'.
Proof. intros [= <- <-]. apply wf_default. Qed.

Lemma wf_initial value seed m v l ops text err seed' :
  parseInitialState toUpperCase clock value seed = Returns (m, v, l, ops, text, err, seed') -> wf_rules ops seed'.
Proof.
  unfold parseInitialState. cbv zeta. destruct (createOperation toUpperCase clock seed) as [fb s0] eqn:Ec.
  apply wf_created in Ec. destruct (negb _); [by intros [= _ _ _ <- _ _ <-]|].
  destruct (parse (trim value)) as [p|]; [|by intros [= _ _ _ <- _ _ <-]].
  destruct p; try by intros [= _ _ _ <- _ _ <-].
  destruct (jfield _ _) as [[]|]; try by intros [= _ _ _ <- _ _ <-].
  destruct (normalize_all toUpperCase clock _ seed) as [[r s1]|] eqn:E; [|done]. cbn [obind fst snd].
  intros [= _ _ _ <- _ _ <-]. by apply wf_normalize_all in E.
Qed.

Lemma wf_to_visual s s' : wf s -> switchToVisualMode toUpperCase clock s = Returns s' -> wf s'.
Proof.
  intros Hw. unfold switchToVisualMode. cbv zeta. destruct (editMode s); [by intros [= <-]|].
  destruct (createOperation toUpperCase clock (localIdSeed s)) as [fb s0] eqn:Ec.
  apply wf_created in Ec. destruct (negb _); [by intros [= <-]|].
  destruct (parse (trim (jsonText s))) as [p|]; [|by intros [= <-]].
  destruct p; try by intros [= <-].
  destruct (jfield _ _) as [[]|]; try by intros [= <-].
  destruct (normalize_all toUpperCase clock _ _) as [[r s1]|] eqn:E; [|done]. cbn [obind fst snd].
  intros [= <-]. by apply wf_normalize_all in E.
Qed.

(** Kept rules followed by rules that are read from a template. *)
Lemma wf_append s ops r seed :
  fresh 0 (localIdSeed s) (map o_id ops) -> r <> [] -> localIdSeed s <= seed ->
  fresh (localIdSeed s) seed (map o_id r) -> wf_rules (ops ++ r) seed.
Proof.
  intros Ho Hr Hs Hf. split; [|by intros [_ H]%app_eq_nil].
  rewrite map_app. by apply (fresh_app 0 (localIdSeed s)); [lia|..].
Qed.

Lemma preset_not_empty k l :
  In (k, Some l) TEMPLATE_PRESET_CONFIG -> l <> [].
Proof.
  assert (H : forallb (fun p => match p.2 with Some [] => false | _ => true end) TEMPLATE_PRESET_CONFIG = true)
    by reflexivity.
  rewrite forallb_forall in H. intros Hin%H. by destruct l.
Qed.

Lemma wf_fill append s s' : wf s -> fillTemplate toUpperCase clock append s = Returns s' -> wf s'.
Proof.
  intros Hw. unfold fillTemplate.
  destruct (default (Some OPERATION_TEMPLATE) (mget (templatePresetKey s) TEMPLATE_PRESET_CONFIG)) as [l|] eqn:Ek.
  - destruct append.
    + destruct (map_ids _ l (localIdSeed s)) as [[r seed]|] eqn:E; [|done]. cbn [obind fst snd]. intros [= <-].
      apply (map_ids_fresh _ o_id normalizeOperation_id) in E as (H1 & H2 & H3).
      apply (wf_append s); [|intros ->|done|done].
      * destruct (visualMode s); [by apply fresh_filter; destruct Hw|apply fresh_nil].
      * assert (l <> []) as Hl; [|by destruct l]. clear -Ek.
        destruct (mget (templatePresetKey s) TEMPLATE_PRESET_CONFIG) as [o|] eqn:Em; cbn in Ek; subst.
        -- apply mget_In in Em. by apply preset_not_empty in Em.
        -- by injection Ek as <-.
    + destruct (normalize_all toUpperCase clock l _) as [[r seed]|] eqn:E; [|done]. cbn [obind fst snd]. intros [= <-].
      by apply wf_normalize_all in E.
  - destruct (append && _); [|intros [= <-]; apply wf_default].
    destruct (if truthy _ then _ else _); [|by intros [= <-]]. intros [= <-]. apply wf_default.
Qed.

Lemma wf_drop id x s : wf s -> wf (handleDrop id x s).
Proof.
  intros [Hf Hn]. unfold handleDrop. destruct (_ && _ && _); [|done]. split; cbn.
  - apply (fresh_perm 0 _ (map o_id (operations s))); [|done]. apply Permutation_map. symmetry. apply reorder_perm.
  - intros H. pose proof (reorder_perm (operations s) (if truthy (draggedOperationId s) then draggedOperationId s else x)
      id (str_eqb (dragOverOperationId s) id && dragOverAfter s)) as Hp.
    rewrite H in Hp. by apply Permutation_nil in Hp.
Qed.

Lemma wf_handle t t_line e s s' : handle toUpperCase clock t t_line e s = Returns s' -> wf s -> wf s'.
Proof.
  intros H Hw.
  assert (Hkeep : forall f id, (forall o, o_id (f o) = o_id o) ->
            wf_rules (map_operation id f (operations s)) (localIdSeed s)).
  { intros f id Hf. apply (wf_same (operations s) _ (localIdSeed s)); [by apply map_operation_ids|lia|done]. }
  destruct e; cbn [handle] in H; try (injection H as <-; exact Hw).
  - unfold openEditor in H. destruct (parseInitialState _ _ _ _) as [[[[[[[m v] l] ops] tx] er] sd]|] eqn:E; [|done].
    injection H as <-. by apply wf_initial in E.
  - injection H as <-. apply Hkeep. intros o. apply patch_id.
  - injection H as <-. by apply wf_add.
  - by apply wf_duplicate in H.
  - injection H as <-. by apply wf_remove.
  - injection H as <-. apply (wf_same (operations s) _ (localIdSeed s)); [by apply map_operation_ids|cbn; lia|done].
  - injection H as <-. by apply Hkeep.
  - injection H as <-. by apply Hkeep.
  - injection H as <-. apply Hkeep. intros o. apply patch_id.
  - apply wf_prune in H; [done| |done]. by intros d s0 d' s1 [= _ <-].
  - apply wf_prune in H; [done| |done]. intros d s0 d' s1. cbn. intros [= _ <-]. lia.
  - apply wf_prune in H; [done| |done]. intros d s0 d' s1 [= _ <-]. lia.
  - apply wf_prune in H; [done| |done]. intros d s0 d' s1 [= _ <-]. lia.
  - destruct (find _ _) as [o|]; [|by injection H as <-].
    destruct (pruneObjectsDraft _ _ o _) as [[d s1]|] eqn:E; [|done]. cbn [obind] in H. injection H as <-.
    apply parse_prune_seed in E. by apply (wf_same (operations s) _ (localIdSeed s)).
  - injection H as <-. unfold handleDragOver. by destruct (_ || _).
  - injection H as <-. by apply wf_drop.
  - injection H as <-. unfold switchToJsonMode. destruct (editMode s); [|done]. by destruct (match _ with inl _ => _ | inr _ => _ end).
  - by apply wf_to_visual in H.
  - by apply wf_fill in H.
  - injection H as <-. apply wf_default.
  - injection H as <-. unfold formatJson. cbv zeta. destruct (negb _); [done|]. by destruct (parse _).
  - injection H as <-. unfold handleSave. by destruct (save_result _ _ _).
  - injection H as <-. apply (wf_same (operations s) _ (localIdSeed s)); [done|cbn; lia|done].
  - injection H as <-. unfold expand_all. by destruct (selectedOperation s).
Qed.

Lemma wf_selection s : wf s -> wf (selection_effect s).
Proof. intros Hw. unfold selection_effect. destruct (operations s) eqn:E; [done|]. by destruct (existsb _ _). Qed.

Lemma selection_valid s : operations s <> [] -> In (selectedOperationId (selection_effect s)) (map o_id (operations s)).
Proof.
  unfold selection_effect. destruct (operations s) as [|o r] eqn:E; [done|]. intros _.
  destruct (existsb _ (o :: r)) eqn:Ee; [|by left].
  apply existsb_exists in Ee as (x & Hx & <-%str_eqb_eq). by apply in_map.
Qed.

Lemma reachable_wf t t_line s : reachable toUpperCase clock t t_line s -> wf s.
Proof.
  induction 1 as [seed|e s s' _ IH Hh]; apply wf_selection; [apply wf_default|by apply wf_handle in Hh].
Qed.

End Ids.

(** In every state the handlers reach, the rules have distinct ids, there is
    at least one rule, and the selected id is that of one of them. *)
Theorem one_rule_selected toUpperCase clock t t_line s :
  reachable toUpperCase clock t t_line s ->
  NoDup (map o_id (operations s)) /\ exists o, selectedOperation s = Some o /\ In o (operations s).
Proof.
  intros Hr. pose proof (reachable_wf _ _ _ _ _ Hr) as [[Hd _] Hn]. split; [done|].
  assert (Hs : In (selectedOperationId s) (map o_id (operations s))).
  { clear Hd Hn. destruct Hr as [seed|e s s' Hr Hh].
    - by left.
    - assert (wf clock s') as [_ Hn] by (apply reachable_wf in Hr; by apply wf_handle in Hh).
      pose proof (selection_valid s' Hn) as H. unfold selection_effect in H |- *.
      destruct (operations s') as [|o r] eqn:E; [done|].
      destruct (existsb _ (o :: r)); cbn [operations setSelectedOperationId] in *; by rewrite E. }
  apply in_map_iff in Hs as (o & Ho & Hin). unfold selectedOperation.
  destruct (find (fun o => str_eqb (o_id o) (selectedOperationId s)) (operations s)) as [x|] eqn:Ef.
  - apply find_some in Ef as [Hx _]. by exists x.
  - apply (find_none _ _ Ef) in Hin. by rewrite Ho, str_eqb_refl in Hin.
Qed.

Lemma one_rule_selected_witness :
  exists s, reachable (fun x => x) Z.of_nat (fun x => x) (fun k _ => k) s /\ length (operations s) = 2
    /\ exists o, selectedOperation s = Some o /\ In o (operations s).
Proof.
  set (s := selection_effect (addOperation (fun x => x) Z.of_nat (selection_effect (mountEditor (fun x => x) Z.of_nat 0)))).
  assert (Hr : reachable (fun x => x) Z.of_nat (fun x => x) (fun k _ => k) s).
  { eapply (reach_event _ _ _ _ EAdd); [apply reach_mount|reflexivity]. }
  exists s. split; [exact Hr|]. split; [vm_compute; reflexivity|].
  apply (one_rule_selected _ _ _ _ _ Hr).
Defined.

(** ** The rules of the prune mode *)

Section Prune.
  Variable toUpperCase : jsstr -> jsstr.
  Variable clock : nat -> Z.

(** The rules of a parsed draft have ids made while it was parsed. *)
Lemma parse_prune_ids text seed d seed' :
  parsePruneObjectsDraft toUpperCase clock text seed = Returns (d, seed') -> fresh clock seed seed' (map c_id (p_rules d)).
Proof.
  unfold parsePruneObjectsDraft. cbv zeta. destruct (negb _); [intros [= <- <-]; apply fresh_nil|].
  destruct (parse (trim text)) as [[]|]; try (intros [= <- <-]; apply fresh_nil).
  set (v := JObj l).
  assert (He : forall l s0 r s1, rules_of_entries clock l s0 = Returns (r, s1) -> s0 <= s1 /\ fresh clock s0 s1 (map c_id r)).
  { intros l0 s0 r s1 H. apply (map_ids_fresh clock _ c_id) in H as (? & _ & ?); [done|].
    intros x a y b. apply normalizeCondition_id. }
  destruct (match jfield (js "where") v with Some (JObj w) => _ | _ => _ end) as [[w s1]|] eqn:E1; [|done].
  assert (seed <= s1 /\ fresh clock seed s1 (map c_id w)) as [H1 F1].
  { destruct (jfield (js "where") v) as [[]|]; try (injection E1 as <- <-; split; [lia|apply fresh_nil]). by apply He in E1. }
  cbn [obind fst snd].
  destruct (match jfield (js "conditions") v with Some (JArr items) => _ | Some (JObj w0) => _ | _ => _ end)
    as [[c s2]|] eqn:E2; [|done].
  assert (s1 <= s2 /\ fresh clock s1 s2 (map c_id c)) as [H2 F2].
  { destruct (jfield (js "conditions") v) as [[]|]; try (injection E2 as <- <-; split; [lia|apply fresh_nil]).
    - by apply (map_ids_fresh clock _ c_id (normalizeCondition_id clock)) in E2 as (? & _ & ?).
    - by apply He in E2. }
  cbn [obind fst snd]. intros [= <- <-]. cbn [p_rules]. rewrite map_app. by apply (fresh_app clock seed s1).
Qed.

(** An id of an earlier draft is not the id of a rule of a later one. *)
Lemma old_id_absent text seed d seed' lo ruleId r :
  parsePruneObjectsDraft toUpperCase clock text seed = Returns (d, seed') -> issued clock lo seed ruleId ->
  In r (p_rules d) -> str_eqb (c_id r) ruleId = false.
Proof.
  intros [_ Hi]%parse_prune_ids (k & Hk & ->) Hin. apply str_eqb_neq. intros E.
  destruct (Hi (c_id r)) as (j & Hj & E'); [by apply in_map|]. rewrite E in E'. apply nextLocalId_inj in E'. lia.
Qed.

(** Reading the value of a rule and writing it again. *)
Definition rewrite_draft (d : PruneObjectsDraft) (seed : nat) : outcome (PruneObjectsDraft * nat) := Returns (d, seed).

Lemma set_rules_same d : set_rules (p_rules d) d = d.
Proof. by destruct d. Qed.

Lemma update_old_rule o seed lo ruleId patch :
  issued clock lo seed ruleId ->
  prune_update toUpperCase clock (update_rule ruleId patch) o seed = prune_update toUpperCase clock rewrite_draft o seed
  /\ prune_update toUpperCase clock (remove_rule ruleId) o seed = prune_update toUpperCase clock rewrite_draft o seed.
Proof.
  intros Hi. unfold prune_update.
  destruct (parsePruneObjectsDraft toUpperCase clock (o_value_text o) seed) as [[d s1]|] eqn:E; [|done].
  cbn [obind fst snd update_rule remove_rule rewrite_draft]. pose proof (fun r => old_id_absent _ _ _ _ _ _ r E Hi) as Ha.
  unfold update_rule, remove_rule. split.
  - erewrite map_ext_in; [rewrite map_id, set_rules_same; reflexivity|]. intros r Hr. cbn. by rewrite Ha.
  - rewrite filter_all, set_rules_same; [reflexivity|]. apply forallb_forall. intros r Hr. by rewrite Ha.
Qed.

(** A new rule has no path, and a rule without a path is not written. *)
Lemma add_rule_lost d seed :
  buildPruneObjectsValueText toUpperCase
    (mkPrune false (p_typeText d) (p_logic d) (p_recursive d) (p_rules d ++ [(createDefaultCondition clock seed).1]))
  = buildPruneObjectsValueText toUpperCase (patch_prune (PruneSimple false) d).
Proof.
  destruct d as [sm ty lo re rs]. unfold buildPruneObjectsValueText. cbn [patch_prune p_simpleMode p_typeText p_logic p_recursive p_rules].
  rewrite List.filter_app. change (List.filter _ [_]) with (@nil ParamOverrideCondition). by rewrite app_nil_r.
Qed.

Lemma map_ids_same {A B} (f g : A -> nat -> outcome (B * nat)) seed :
  (forall x n, seed <= n -> f x n = g x n) ->
  (forall x n y n', g x n = Returns (y, n') -> n <= n') ->
  forall l n, seed <= n -> map_ids f l n = map_ids g l n.
Proof.
  intros Hfg Hg. induction l as [|x l IH]; intros n Hn; [done|]. cbn [map_ids]. rewrite Hfg by done.
  destruct (g x n) as [[y n']|] eqn:E; [|done]. cbn [obind fst snd]. rewrite IH; [done|]. apply Hg in E. lia.
Qed.

Lemma update_same id (u1 : PruneObjectsDraft -> nat -> outcome (PruneObjectsDraft * nat)) s :
  (forall o n, localIdSeed s <= n ->
     prune_update toUpperCase clock u1 o n = prune_update toUpperCase clock rewrite_draft o n) ->
  updatePruneObjectsDraft toUpperCase clock id u1 s = updatePruneObjectsDraft toUpperCase clock id rewrite_draft s.
Proof.
  intros H. unfold updatePruneObjectsDraft. erewrite (map_ids_same _ _ (localIdSeed s)); [reflexivity| | |lia].
  - intros o n Hn. cbn. destruct (str_eqb (o_id o) id); [by apply H|reflexivity].
  - intros o n o' n'. cbn. destruct (str_eqb (o_id o) id); [|intros [= _ <-]; lia]. unfold prune_update.
    destruct (parsePruneObjectsDraft _ _ _ _) as [[d n1]|] eqn:E; [|done]. cbn. intros [= _ <-].
    by apply parse_prune_seed in E.
Qed.

End Prune.

(** The rules of the prune mode cannot be edited: changing or removing a
    rule by any id that was made before does what writing the value back does,
    since reading the value gives its rules new ids; and adding a rule only
    leaves the simple mode, since the new rule has no path and is not written. *)
Theorem prune_rules_not_edited toUpperCase clock s id ruleId patch :
  issued clock 0 (localIdSeed s) ruleId ->
  updatePruneRule toUpperCase clock id ruleId patch s = updatePruneObjectsDraft toUpperCase clock id rewrite_draft s
  /\ removePruneRule toUpperCase clock id ruleId s = updatePruneObjectsDraft toUpperCase clock id rewrite_draft s
  /\ forall o seed d seed', parsePruneObjectsDraft toUpperCase clock (o_value_text o) seed = Returns (d, seed') ->
       prune_update toUpperCase clock (add_rule clock) o seed
       = Returns (patch_operation
                    (PatchValue (buildPruneObjectsValueText toUpperCase (patch_prune (PruneSimple false) d))) o, S seed').
Proof.
  intros (k & Hk & ->). split; [|split].
  - apply update_same. intros o n Hn. apply (update_old_rule _ _ o n 0). exists k. split; [lia|done].
  - apply update_same. intros o n Hn. apply (update_old_rule _ _ o n 0 _ (CondPath [])). exists k. split; [lia|done].
  - intros o seed d seed' E. unfold prune_update. rewrite E. cbn [obind fst snd]. unfold add_rule.
    rewrite <- (add_rule_lost _ clock d seed'). reflexivity.
Qed.

(** A rule whose value has one condition, shown with the id of seed 0. *)
Definition prune_editor : Editor :=
  mkEditor Visual Operations []
    [mkOperation (js "a") [] [] (js "prune_objects")
       (stringify 0 0 (JObj [(js "type", JStr (js "x")); (js "conditions", JArr [prefix_condition (js "p") (js "full") (js "v")])]))
       false [] [] (js "OR") []]
    [] [] [] [] [] [] [] false [] 1 None.

Lemma prune_rules_not_edited_witness :
  removePruneRule (fun x => x) Z.of_nat (js "a") (nextLocalId Z.of_nat 0) prune_editor
  = Returns (setOperations prune_editor (operations prune_editor) 2)
  /\ map c_id (match pruneObjectsDraft (fun x => x) Z.of_nat (default (createDefaultOperation (fun x => x) Z.of_nat 0).1
                  (operations prune_editor !! 0)) 0 with Returns d => p_rules d.1 | Throws _ => [] end)
     = [nextLocalId Z.of_nat 0].
Proof.
  split; [|vm_compute; reflexivity].
  destruct (prune_rules_not_edited (fun x => x) Z.of_nat prune_editor (js "a") (nextLocalId Z.of_nat 0) (CondPath []))
    as (_ & H & _).
  - exists 0. split; [vm_compute; lia|reflexivity].
  - rewrite H. vm_compute. reflexivity.
Defined.

(** ** Other behaviours of the editor *)

(** Leaving the simple mode has no effect on a rule that only has a type: the
    written value has no advanced field, so it is read in the simple mode. *)
Lemma advanced_toggle_reverts toUpperCase clock type seed :
  trimmed type = true -> truthy type = true -> units type = true -> str_eqb (toUpperCase (js "AND")) (js "OR") = false ->
  parsePruneObjectsDraft toUpperCase clock
    (buildPruneObjectsValueText toUpperCase (patch_prune (PruneSimple false) (plain_prune type))) seed
  = Returns (plain_prune type, seed).
Proof.
  intros Ht Hne Hu Ha. unfold buildPruneObjectsValueText. cbn [patch_prune plain_prune p_simpleMode p_typeText p_logic p_recursive p_rules List.filter map].
  rewrite (trim_id _ Ht). change (if truthy (js "AND") then js "AND" else js "AND") with (js "AND"). rewrite Ha, Hne. cbn [negb andb].
  unfold set_text. rewrite Hne.
  assert (Hp : printable (JObj (obj_set (js "type") (JStr type) [])) = true) by (cbn; by rewrite Hu).
  unfold parsePruneObjectsDraft. rewrite trim_id by (by apply stringify_trimmed). rewrite parse_stringify by done.
  destruct (stringify_starts 0 0 _ Hp) as (c & u & -> & _). cbv zeta. change (truthy (c :: u)) with true. cbn [negb].
  change (obj_set (js "type") (JStr type) []) with [(js "type", JStr type)].
  cbn [obind fst snd]. unfold plain_prune, has_field, not_false. cbn [text_or].
  repeat match goal with |- context [jfield (js ?k) (JObj [(js "type", JStr type)])] =>
    let r := eval cbv in (str_eqb (js "type") (js k)) in
    change (jfield (js k) (JObj [(js "type", JStr type)])) with (if r then Some (JStr type) else None) end.
  cbn [obind fst snd json_to_str]. by rewrite Ha, (trim_id _ Ht).
Qed.

(** A [null] among the rules of a stored text is not reported: opening throws. *)
Lemma null_rule_throws toUpperCase clock s :
  openEditor toUpperCase clock (stringify 0 0 (JObj [(js "operations", JArr [JNull])])) s = Throws (js "TypeError").
Proof. vm_compute. reflexivity. Qed.
