(* ===== verification/TableUrl.v ===== *)
(** * Tables whose state lives in the URL

    Model of src/web/default/src/hooks/use-table-url-state.ts: the hook that
    derives a table's pagination and filters from the search parameters of
    the URL and writes changes back with [navigate].  The record given to
    [navigate] is the search the component is next rendered with; [urlChanged]
    is that render, and any other change of the URL, together with the effect
    that follows it.  A property that is [undefined] is an absent key. *)

From S2P Require Import Prelude JsStr JsNum JsInt JsArray JsJson.
Local Open Scope js_scope.

Definition SearchRecord := gmap jsstr json.

(** [{ ...s, [k]: v }]. *)
Definition put (k : jsstr) (v : option json) (s : SearchRecord) : SearchRecord :=
  partial_alter (fun _ => v) k s.

(** ** The stored page size *)

(** [localStorage]: whether it can be used, and the item under the key. *)
Record LocalStorage := mkLocal { available : bool; item : option jsstr }.

(** [parseInt(s, 10)]. *)
Definition parseInt10 (s : jsstr) : num :=
  let '(neg, ds) :=
    match trimStart s with
    | 45%N :: t => (true, takeb is_digit t)
    | 43%N :: t => (false, takeb is_digit t)
    | t => (false, takeb is_digit t)
    end in
  match ds with
  | [] => nan
  | _ => let x := num_of_Z (digits_val ds) in if neg then nneg x else x
  end.

Definition getStoredPageSize (st : LocalStorage) : option num :=
  if available st then
    let n := parseInt10 (default [] (item st)) in
    if ngt n zero then Some n else None
  else None.

Definition setStoredPageSize (size : num) (st : LocalStorage) : LocalStorage :=
  if available st then mkLocal true (Some (num_to_str size)) else st.

(** ** Parameters *)

Inductive FilterType := TString | TArray.

Record ColumnFilterCfg := mkFilterCfg {
  columnId : jsstr;
  searchKey : jsstr;
  cfg_type : option FilterType;
  serialize : option (json -> option json);
  deserialize : option (option json -> option json)
}.

Record UseTableUrlStateParams := mkParams {
  p_pageKey : option jsstr; p_pageSizeKey : option jsstr;
  p_defaultPage : option num; p_defaultPageSize : option num;
  p_globalEnabled : option bool; p_globalKey : option jsstr; p_globalTrim : option bool;
  columnFiltersCfg : list ColumnFilterCfg
}.

Definition pageKey (P : UseTableUrlStateParams) : jsstr := default (js "page") (p_pageKey P).
Definition pageSizeKey (P : UseTableUrlStateParams) : jsstr := default (js "pageSize") (p_pageSizeKey P).
Definition defaultPage (P : UseTableUrlStateParams) : num := default (num_of_Z 1) (p_defaultPage P).
Definition defaultPageSize (P : UseTableUrlStateParams) : num := default (num_of_Z 20) (p_defaultPageSize P).
Definition globalFilterKey (P : UseTableUrlStateParams) : jsstr := default (js "filter") (p_globalKey P).
Definition globalFilterEnabled (P : UseTableUrlStateParams) : bool := default true (p_globalEnabled P).
Definition trimGlobal (P : UseTableUrlStateParams) : bool := default true (p_globalTrim P).

(** ** Reading the URL *)

Definition ColumnFiltersState := list (jsstr * json).
Record PaginationState := mkPagination { pageIndex : num; pageSize : num }.

(** [v ?? d]. *)
Definition nullish (v : option json) (d : json) : json :=
  match v with None | Some JNull => d | Some x => x end.

(** A value that is a filter of this column: a string that is not blank, or
    for a type other than 'string' an array that is not empty. *)
Definition is_filter (cfg : ColumnFilterCfg) (v : json) : bool :=
  match cfg_type cfg with
  | Some TString => match v with JStr s => truthy (trim s) | _ => false end
  | _ => match v with JArr l => negb (Nat.eqb (length l) 0) | _ => false end
  end.

Definition empty_value (cfg : ColumnFilterCfg) : json :=
  match cfg_type cfg with Some TString => JStr [] | _ => JArr [] end.

Definition read_filter (search : SearchRecord) (cfg : ColumnFilterCfg) : option (jsstr * json) :=
  let raw := search !! searchKey cfg in
  let value := nullish (default id (deserialize cfg) raw) (empty_value cfg) in
  if is_filter cfg value then Some (columnId cfg, value) else None.

Definition initialColumnFilters (P : UseTableUrlStateParams) (search : SearchRecord) : ColumnFiltersState :=
  omap (read_filter search) (columnFiltersCfg P).

(** [typeof v === 'number' ? v : d]. *)
Definition number_or (v : option json) (d : num) : num :=
  match v with Some (JNum x) => x | _ => d end.

Definition pagination (P : UseTableUrlStateParams) (search : SearchRecord) (st : LocalStorage) : PaginationState :=
  let pageNum := number_or (search !! pageKey P) (defaultPage P) in
  let pageSizeNum :=
    number_or (search !! pageSizeKey P) (default (defaultPageSize P) (getStoredPageSize st)) in
  mkPagination (nmax zero (nsub pageNum (num_of_Z 1))) pageSizeNum.

(** ** The state of the hook and its handlers *)

Record TableState := mkTable {
  search : SearchRecord;
  columnFilters : ColumnFiltersState;
  globalFilter : option jsstr;
  storage : LocalStorage
}.

Definition mountTable (P : UseTableUrlStateParams) (s : SearchRecord) (st : LocalStorage) : TableState :=
  mkTable s (initialColumnFilters P s)
    (if negb (globalFilterEnabled P) then None
     else Some match s !! globalFilterKey P with Some (JStr g) => g | _ => [] end)
    st.

(** A new search: the effect takes the column filters from it. *)
Definition urlChanged (P : UseTableUrlStateParams) (s : SearchRecord) (ts : TableState) : TableState :=
  mkTable s (initialColumnFilters P s) (globalFilter ts) (storage ts).

(** The handlers: the state after them and the record they navigate to.  An
    updater that is a value is the constant function. *)
Definition onPaginationChange (P : UseTableUrlStateParams) (updater : PaginationState -> PaginationState)
    (ts : TableState) : TableState * SearchRecord :=
  let current := pagination P (search ts) (storage ts) in
  let next := updater current in
  let nextPage := nadd (pageIndex next) (num_of_Z 1) in
  let nextPageSize := pageSize next in
  let st := if negb (neq nextPageSize (pageSize current))
            then setStoredPageSize nextPageSize (storage ts) else storage ts in
  (mkTable (search ts) (columnFilters ts) (globalFilter ts) st,
   put (pageSizeKey P) (Some (JNum nextPageSize))
     (put (pageKey P) (if nle nextPage (defaultPage P) then None else Some (JNum nextPage)) (search ts))).

(** Only offered when the global filter is enabled. *)
Definition onGlobalFilterChange (P : UseTableUrlStateParams) (updater : jsstr -> jsstr)
    (ts : TableState) : TableState * SearchRecord :=
  let next := updater (default [] (globalFilter ts)) in
  let value := if trimGlobal P then trim next else next in
  (mkTable (search ts) (columnFilters ts) (Some value) (storage ts),
   put (globalFilterKey P) (if truthy value then Some (JStr value) else None)
     (put (pageKey P) None (search ts))).

(** What [onColumnFiltersChange] writes for one column. *)
Definition filter_param (next : ColumnFiltersState) (cfg : ColumnFilterCfg) : option json :=
  match find (fun f => str_eqb f.1 (columnId cfg)) next with
  | Some (_, v) => if is_filter cfg v then default Some (serialize cfg) v else None
  | None => None
  end.

Definition onColumnFiltersChange (P : UseTableUrlStateParams)
    (updater : ColumnFiltersState -> ColumnFiltersState) (ts : TableState) : TableState * SearchRecord :=
  let next := updater (columnFilters ts) in
  (mkTable (search ts) next (globalFilter ts) (storage ts),
   foldl (fun s cfg => put (searchKey cfg) (filter_param next cfg) s)
     (put (pageKey P) None (search ts)) (columnFiltersCfg P)).

Inductive ResetTo := to_first | to_last.

(** The record navigated to, when the page is out of range. *)
Definition ensurePageInRange (P : UseTableUrlStateParams) (pageCount : num) (resetTo : ResetTo)
    (ts : TableState) : option SearchRecord :=
  let pageNum := number_or (search ts !! pageKey P) (defaultPage P) in
  if ngt pageCount zero && ngt pageNum pageCount
  then Some (put (pageKey P)
               (match resetTo with to_last => Some (JNum pageCount) | to_first => None end) (search ts))
  else None.

(** What the hook returns to the table. *)
Record UseTableUrlStateReturn := mkReturn {
  r_globalFilter : option jsstr;
  r_columnFilters : ColumnFiltersState;
  r_pagination : PaginationState
}.

Definition useTableUrlState (P : UseTableUrlStateParams) (ts : TableState) : UseTableUrlStateReturn :=
  mkReturn (if globalFilterEnabled P then Some (default [] (globalFilter ts)) else None)
    (columnFilters ts) (pagination P (search ts) (storage ts)).
