(* ===== verification/TableUrlProps.v ===== *)
(** * Tables in the URL refine tables in memory

    An abstract table keeps its page, page size, filters and search text in
    memory.  The hook, each handler followed by the render with the URL it
    navigated to, implements it. *)

From S2P Require Import Prelude JsStr JsNum JsInt JsArray JsJson TableUrl.

(** ** The abstract table *)

Inductive TableEvent :=
| Paginate (index : Z) (size : num)
| Filter (next : ColumnFiltersState)
| Find (text : jsstr).

Section Spec.
  Variable P : UseTableUrlStateParams.

(** The filters that a list of filters sets, one per configured column. *)
Definition shown_filters (next : ColumnFiltersState) : ColumnFiltersState :=
  omap (fun cfg => match find (fun f => str_eqb f.1 (columnId cfg)) next with
                   | Some (_, v) => if is_filter cfg v then Some (columnId cfg, v) else None
                   | None => None
                   end) (columnFiltersCfg P).

(** Turning the page changes nothing else; a filter or a search goes back to
    the first page. *)
Definition spec_step (v : UseTableUrlStateReturn) (e : TableEvent) : UseTableUrlStateReturn :=
  match e with
  | Paginate i size =>
      mkReturn (r_globalFilter v) (r_columnFilters v) (mkPagination (num_of_Z i) size)
  | Filter next =>
      mkReturn (r_globalFilter v) (shown_filters next) (mkPagination zero (pageSize (r_pagination v)))
  | Find text =>
      mkReturn (Some (if trimGlobal P then trim text else text)) (r_columnFilters v)
        (mkPagination zero (pageSize (r_pagination v)))
  end.

(** ** The hook *)

Definition hook_step (ts : TableState) (e : TableEvent) : TableState :=
  let '(ts, s) :=
    match e with
    | Paginate i size => onPaginationChange P (fun _ => mkPagination (num_of_Z i) size) ts
    | Filter next => onColumnFiltersChange P (fun _ => next) ts
    | Find text => onGlobalFilterChange P (fun _ => text) ts
    end in
  urlChanged P s ts.

Definition event_ok (e : TableEvent) : Prop :=
  match e with
  | Paginate i _ => (0 <= i < 2 ^ 53 - 1)%Z
  | Filter _ => True
  | Find _ => globalFilterEnabled P = true
  end.

(** The parameters of a table: pages count from one, every part of the state
    has its own search key, and a filter survives its encoding. *)
Record params_ok : Prop := {
  ok_first_page : defaultPage P = num_of_Z 1;
  ok_keys : NoDup (pageKey P :: pageSizeKey P :: globalFilterKey P :: map searchKey (columnFiltersCfg P));
  ok_codec : Forall (fun cfg => forall v, is_filter cfg v = true ->
               exists w, default Some (serialize cfg) v = Some w
                      /\ nullish (default id (deserialize cfg) (Some w)) (empty_value cfg) = v) (columnFiltersCfg P);
  ok_absent : Forall (fun cfg =>
               is_filter cfg (nullish (default id (deserialize cfg) None) (empty_value cfg)) = false) (columnFiltersCfg P)
}.

(** The column filters are those of the URL. *)
Definition synced (ts : TableState) : Prop := columnFilters ts = initialColumnFilters P (search ts).

(** ** Lemmas *)

Lemma put_eq k v s : put k v s !! k = v.
Proof. apply lookup_partial_alter_eq. Qed.

Lemma put_ne k k' v s : k <> k' -> put k v s !! k' = s !! k'.
Proof. intros H. by apply lookup_partial_alter_ne. Qed.

(** The filters only depend on the search keys of the columns. *)
Lemma filters_agree s s' :
  (forall k, In k (map searchKey (columnFiltersCfg P)) -> s !! k = s' !! k) ->
  initialColumnFilters P s = initialColumnFilters P s'.
Proof.
  unfold initialColumnFilters. induction (columnFiltersCfg P) as [|cfg l IH]; intros H; [done|].
  assert (read_filter s cfg = read_filter s' cfg) as E.
  { unfold read_filter. by rewrite (H (searchKey cfg)) by (by left). }
  cbn [omap list_omap]. rewrite E. specialize (IH (fun k Hk => H k (or_intror Hk))).
  destruct (read_filter s' cfg); [f_equal|]; apply IH.
Qed.

Lemma number_round v d : number_or (Some (JNum v)) d = v.
Proof. done. Qed.

(** A page written to the URL is read back. *)
Lemma page_round_trip i :
  (0 <= i < 2 ^ 53 - 1)%Z -> defaultPage P = num_of_Z 1 ->
  let next := nadd (num_of_Z i) (num_of_Z 1) in
  nmax zero (nsub (number_or (if nle next (defaultPage P) then None else Some (JNum next)) (defaultPage P))
               (num_of_Z 1)) = num_of_Z i.
Proof.
  intros Hi ->. cbn zeta. assert (exact i) by (unfold exact; lia). assert (exact 1) by done.
  assert (exact (i + 1)) by (unfold exact; lia).
  rewrite nadd_Z, nle_Z by done. destruct (Z.leb_spec (i + 1) 1) as [Hle|Hgt].
  - assert (i = 0%Z) as -> by lia. reflexivity.
  - cbn [number_or]. rewrite nsub_Z by (done || by replace (i + 1 - 1)%Z with i by lia).
    replace (i + 1 - 1)%Z with i by lia.
    destruct i as [|p|p]; [lia| |lia]. rewrite num_of_Z_pos by done. reflexivity.
Qed.

Lemma first_page : defaultPage P = num_of_Z 1 -> nmax zero (nsub (defaultPage P) (num_of_Z 1)) = zero.
Proof. intros ->. reflexivity. Qed.

(** The keys written by the filters. *)
Lemma patch_other next l s k :
  ~ In k (map searchKey l) ->
  foldl (fun s cfg => put (searchKey cfg) (filter_param next cfg) s) s l !! k = s !! k.
Proof.
  revert s. induction l as [|cfg l IH]; intros s H; [done|]. cbn [foldl map In] in *.
  rewrite IH by tauto. apply put_ne. tauto.
Qed.

Lemma patch_filters next l s :
  NoDup (map searchKey l) ->
  (forall cfg, In cfg l ->
     foldl (fun s cfg => put (searchKey cfg) (filter_param next cfg) s) s l !! searchKey cfg = filter_param next cfg).
Proof.
  revert s. induction l as [|c l IH]; intros s Hnd cfg Hin; [done|]. cbn [foldl map] in *.
  apply NoDup_cons in Hnd as [Hc Hnd]. rewrite list_elem_of_In in Hc. destruct Hin as [->|Hin].
  - rewrite patch_other by done. apply put_eq.
  - by apply IH.
Qed.

Lemma omap_ext_in {A B} (f g : A -> option B) l : (forall x, In x l -> f x = g x) -> omap f l = omap g l.
Proof.
  induction l as [|x l IH]; intros H; [done|]. cbn [omap list_omap]. rewrite (H x) by (by left).
  specialize (IH (fun y Hy => H y (or_intror Hy))). destruct (g x); [f_equal|]; apply IH.
Qed.

Lemma written_filters next s :
  params_ok ->
  initialColumnFilters P (foldl (fun s cfg => put (searchKey cfg) (filter_param next cfg) s) s (columnFiltersCfg P))
  = shown_filters next.
Proof.
  intros [_ Hk Hc Ha]. rewrite !NoDup_cons in Hk. destruct Hk as (_ & _ & _ & Hnd).
  unfold initialColumnFilters, shown_filters. apply omap_ext_in. intros cfg Hin.
  unfold read_filter. rewrite patch_filters by done.
  rewrite List.Forall_forall in Hc, Ha. specialize (Hc cfg Hin). specialize (Ha cfg Hin).
  unfold filter_param. destruct (find _ next) as [[q v]|]; [|by rewrite Ha].
  destruct (is_filter cfg v) eqn:Ev; [|by rewrite Ha].
  destruct (Hc v Ev) as (w & -> & ->). by rewrite Ev.
Qed.

(** ** Refinement *)

Lemma keys_differ3 :
  params_ok ->
  pageKey P <> pageSizeKey P /\ pageKey P <> globalFilterKey P /\ pageSizeKey P <> globalFilterKey P
  /\ (forall k, In k (map searchKey (columnFiltersCfg P)) ->
        pageKey P <> k /\ pageSizeKey P <> k /\ globalFilterKey P <> k).
Proof.
  intros [_ Hk _ _]. rewrite !NoDup_cons, !not_elem_of_cons, !list_elem_of_In in Hk.
  destruct Hk as ((? & ? & H1) & (? & H2) & H3 & _). repeat split; try done; by intros <-.
Qed.

(** One handler, and the render with the URL it navigated to. *)
Lemma table_step_refines ts e :
  params_ok -> synced ts -> event_ok e ->
  useTableUrlState P (hook_step ts e) = spec_step (useTableUrlState P ts) e /\ synced (hook_step ts e).
Proof.
  intros Hok Hs He. split; [|by destruct e].
  destruct (keys_differ3 Hok) as (H12 & H13 & H23 & Hcols). pose proof (ok_first_page Hok) as H1.
  destruct e as [i size|next|text]; cbn [spec_step event_ok] in *.
  - unfold hook_step, onPaginationChange, urlChanged, useTableUrlState, pagination; cbn [search storage globalFilter columnFilters
      r_globalFilter r_columnFilters r_pagination pageIndex pageSize].
    f_equal.
    + rewrite Hs. apply filters_agree. intros k Hk. destruct (Hcols k Hk) as (? & ? & ?).
      by rewrite !put_ne.
    + rewrite put_eq, put_ne, put_eq by done. f_equal. by apply page_round_trip.
  - unfold hook_step, onColumnFiltersChange, urlChanged, useTableUrlState, pagination; cbn [search storage globalFilter columnFilters
      r_globalFilter r_columnFilters r_pagination pageIndex pageSize].
    rewrite written_filters by done.
    assert (forall k, pageKey P = k \/ pageSizeKey P = k -> ~ In k (map searchKey (columnFiltersCfg P))) as Hn.
    { intros k [<-|<-] Hin; by destruct (Hcols _ Hin) as (? & ? & ?). }
    rewrite !patch_other by (apply Hn; tauto). rewrite put_eq, put_ne by done. cbn [number_or].
    by rewrite first_page.
  - unfold hook_step, onGlobalFilterChange, urlChanged, useTableUrlState, pagination; cbn [search storage globalFilter columnFilters
      r_globalFilter r_columnFilters r_pagination pageIndex pageSize]. rewrite He. cbn [default].
    f_equal.
    + rewrite Hs. apply filters_agree. intros k Hk. destruct (Hcols k Hk) as (? & ? & ?). by rewrite !put_ne.
    + rewrite (put_ne (globalFilterKey P) (pageKey P)), put_eq by done.
      rewrite (put_ne (globalFilterKey P) (pageSizeKey P)), put_ne by done. cbn [number_or]. by rewrite first_page.
Qed.

(** C12: the hook implements the abstract table.  From any URL the table is
    opened on, after any sequence of page turns, filters and searches, each
    followed by the render with the URL it navigated to, the hook shows the
    table what the abstract table holds: turning the page or changing the
    page size leaves the filters, a filter or a search text replaces its part
    and goes back to the first page at the same size. *)
Theorem table_refines s st events :
  params_ok -> Forall event_ok events ->
  useTableUrlState P (foldl hook_step (mountTable P s st) events)
  = foldl spec_step (useTableUrlState P (mountTable P s st)) events.
Proof.
  intros Hok Hev. assert (synced (mountTable P s st)) as Hs by done.
  revert Hs. generalize (mountTable P s st) as ts. induction Hev as [|e es He _ IH]; intros ts Hs; [done|].
  destruct (table_step_refines ts e Hok Hs He) as [Hv Hs']. cbn [foldl]. rewrite IH by done. by rewrite Hv.
Qed.

(** When the page in the URL is beyond the last one, the redirect leads
    to a page that is in range, so that it happens once: after it, with either
    choice of where to go, [ensurePageInRange] has nothing more to do, and the
    filters and the page size are as before. *)
Theorem redirect_happens_once ts c r r' s' :
  params_ok -> synced ts -> (1 <= c < 2 ^ 53)%Z ->
  ensurePageInRange P (num_of_Z c) r ts = Some s' ->
  let ts' := urlChanged P s' ts in
  ensurePageInRange P (num_of_Z c) r' ts' = None
  /\ columnFilters ts' = columnFilters ts
  /\ pageSize (pagination P (search ts') (storage ts')) = pageSize (pagination P (search ts) (storage ts)).
Proof.
  intros Hok Hs Hc. unfold ensurePageInRange. destruct (_ && _); [|done]. intros [= <-]. cbn zeta.
  destruct (keys_differ3 Hok) as (H12 & H13 & H23 & Hcols).
  cbn [urlChanged search storage columnFilters]. split; [|split].
  - rewrite put_eq. destruct r; cbn [number_or].
    + rewrite (ok_first_page Hok). unfold ngt at 2. fold (nlt (num_of_Z c) (num_of_Z 1)).
      rewrite nlt_Z by (unfold exact; cbn; lia).
      destruct (Z.ltb_spec c 1); [lia|]. by rewrite andb_false_r.
    + unfold ngt at 2. fold (nlt (num_of_Z c) (num_of_Z c)). rewrite nlt_irrefl. by rewrite andb_false_r.
  - rewrite Hs. apply filters_agree. intros k Hk. destruct (Hcols k Hk) as (? & ? & ?). by rewrite put_ne.
  - cbn [pagination pageSize]. by rewrite put_ne.
Qed.

(** The search box does not follow the URL.  After a search text was
    entered, going back to the URL of before restores the filters and the
    page, but the hook still returns the text, which a table opened on that
    URL would not show. *)
Theorem search_box_not_synced s st text :
  globalFilterEnabled P = true -> s !! globalFilterKey P = None ->
  let typed := hook_step (mountTable P s st) (Find text) in
  let back := urlChanged P s typed in
  r_globalFilter (useTableUrlState P back) = Some (if trimGlobal P then trim text else text)
  /\ r_globalFilter (useTableUrlState P (mountTable P s st)) = Some []
  /\ r_columnFilters (useTableUrlState P back) = r_columnFilters (useTableUrlState P (mountTable P s st))
  /\ r_pagination (useTableUrlState P back) = r_pagination (useTableUrlState P (mountTable P s st)).
Proof.
  intros He Hg. cbn zeta. unfold useTableUrlState, mountTable. cbn. rewrite He, Hg. done.
Qed.

End Spec.

(** ** Instances *)

(** The users table: 'page', 'pageSize', 'filter', two array filters and a
    string filter without codecs. *)
Definition users_params : UseTableUrlStateParams :=
  mkParams None None (Some (num_of_Z 1)) (Some (num_of_Z 20)) (Some true) (Some (js "filter")) None
    [mkFilterCfg (js "status") (js "status") (Some TArray) None None;
     mkFilterCfg (js "role") (js "role") (Some TArray) None None;
     mkFilterCfg (js "group") (js "group") (Some TString) None None].

Lemma users_params_ok : params_ok users_params.
Proof.
  split.
  - reflexivity.
  - repeat (apply NoDup_cons; split; [by rewrite ?list_elem_of_In; vm_compute; intuition congruence|]). constructor.
  - repeat constructor; intros v Hv; exists v; (split; [done|]); destruct v; done.
  - repeat constructor.
Qed.

Lemma table_refines_witness :
  useTableUrlState users_params
    (foldl (hook_step users_params) (mountTable users_params ∅ (mkLocal true (Some (js "50"))))
       [Paginate 3 (num_of_Z 50); Filter [(js "group", JStr (js "vip"))]; Find (js " ada ")])
  = mkReturn (Some (js "ada")) [(js "group", JStr (js "vip"))] (mkPagination zero (num_of_Z 50)).
Proof.
  rewrite table_refines; [vm_compute; reflexivity|apply users_params_ok|].
  repeat constructor; vm_compute; discriminate.
Defined.

Lemma redirect_happens_once_witness :
  let ts := mountTable users_params {[ js "page" := JNum (num_of_Z 9) ]} (mkLocal false None) in
  let ts' := urlChanged users_params {[ js "page" := JNum (num_of_Z 4) ]} ts in
  ensurePageInRange users_params (num_of_Z 4) to_first ts' = None
  /\ columnFilters ts' = columnFilters ts
  /\ pageSize (pagination users_params (search ts') (storage ts'))
     = pageSize (pagination users_params (search ts) (storage ts)).
Proof.
  apply (redirect_happens_once users_params _ 4 to_last to_first);
    [apply users_params_ok|done|lia|vm_compute; reflexivity].
Defined.

Lemma search_box_not_synced_witness :
  let typed := hook_step users_params (mountTable users_params ∅ (mkLocal false None)) (Find (js "ada")) in
  r_globalFilter (useTableUrlState users_params (urlChanged users_params ∅ typed)) = Some (js "ada").
Proof. apply (search_box_not_synced users_params ∅ (mkLocal false None) (js "ada")); reflexivity. Defined.
