(* ===== verification/AdvancedCustom.v ===== *)
(** * Advanced custom channels

    Model of src/web/default/src/features/channels/lib/advanced-custom.ts: the
    routes of an advanced custom channel, read from JSON text the operator can
    edit, normalised, validated, summarised and printed again.  Everything
    that comes from [JSON.parse] is a [json] value here, so that a field of
    the wrong type behaves as it does in the code: a property of [null], or
    [trim] on a number, throws a TypeError. *)

From S2P Require Import Prelude JsStr JsNum JsArray JsJson JsPrint.
Local Open Scope js_scope.

(** ** Values *)

(** [v.k]. *)
Definition get (k : jsstr) (v : json) : outcome (option json) :=
  match v with JNull => Throws (js "TypeError") | _ => Returns (jfield k v) end.

(** [v || d]. *)
Definition or_else (v : option json) (d : json) : json :=
  match v with Some x => if json_truthy x then x else d | None => d end.

(** [x.trim()]. *)
Definition trim_value (x : json) : outcome jsstr :=
  match x with JStr s => Returns (trim s) | _ => Throws (js "TypeError") end.

(** [x?.trim() || ""]. *)
Definition optional_trim (v : option json) : outcome jsstr :=
  match v with None | Some JNull => Returns [] | Some x => trim_value x end.

(** [v === s] for a string literal [s]. *)
Definition is_str (v : option json) (s : jsstr) : bool :=
  match v with Some (JStr t) => str_eqb t s | _ => false end.

(** [l.map(f)] where [f] can throw. *)
Fixpoint omap_all {A B} (f : A -> outcome B) (l : list A) : outcome (list B) :=
  match l with
  | [] => Returns []
  | a :: t => let! b := f a in let! bs := omap_all f t in Returns (b :: bs)
  end.

(** ** Options and templates *)

Definition CHANNEL_TYPE_ADVANCED_CUSTOM : Z := 58.

Record SelectOption := mkOption { opt_value : jsstr; opt_label : jsstr }.

Definition ADVANCED_CUSTOM_CONVERTER_OPTIONS : list SelectOption :=
  [
   mkOption (js "none") (js "Native forwarding");
   mkOption (js "anthropic_messages_to_openai_chat_completions") (js "Anthropic Messages to OpenAI Chat");
   mkOption (js "openai_chat_completions_to_anthropic_messages") (js "OpenAI Chat to Anthropic Messages");
   mkOption (js "openai_chat_completions_to_openai_responses") (js "OpenAI Chat to OpenAI Responses");
   mkOption (js "openai_responses_to_openai_chat_completions") (js "OpenAI Responses to OpenAI Chat");
   mkOption (js "gemini_generate_content_to_openai_chat_completions") (js "Gemini Generate Content to OpenAI Chat");
   mkOption (js "openai_chat_completions_to_gemini_generate_content") (js "OpenAI Chat to Gemini Generate Content")].

Definition ADVANCED_CUSTOM_AUTH_MODE_OPTIONS : list SelectOption :=
  [
   mkOption (js "default") (js "Default Bearer");
   mkOption (js "none") (js "No Auth");
   mkOption (js "header") (js "Header");
   mkOption (js "query") (js "Query")].

Definition ADVANCED_CUSTOM_INCOMING_PATH_OPTIONS : list SelectOption :=
  [
   mkOption (js "/v1/chat/completions") (js "OpenAI Chat");
   mkOption (js "/v1/responses") (js "OpenAI Responses");
   mkOption (js "/v1/responses/compact") (js "OpenAI Responses Compact");
   mkOption (js "/v1/embeddings") (js "OpenAI Embeddings");
   mkOption (js "/v1/images/generations") (js "OpenAI Image Generations");
   mkOption (js "/v1/images/edits") (js "OpenAI Image Edits");
   mkOption (js "/v1/completions") (js "OpenAI Completions");
   mkOption (js "/v1/audio/speech") (js "OpenAI Audio Speech");
   mkOption (js "/v1/audio/transcriptions") (js "OpenAI Audio Transcriptions");
   mkOption (js "/v1/audio/translations") (js "OpenAI Audio Translations");
   mkOption (js "/v1/rerank") (js "OpenAI Rerank");
   mkOption (js "/v1/realtime") (js "OpenAI Realtime");
   mkOption (js "/v1/messages") (js "Claude Messages");
   mkOption (js "/v1beta/models/{model}:generateContent") (js "Gemini Generate Content");
   mkOption (js "/v1beta/models/{model}:embedContent") (js "Gemini Embed Content");
   mkOption (js "/v1beta/models/{model}:batchEmbedContents") (js "Gemini Batch Embed Contents")].

Definition ADVANCED_CUSTOM_ROUTE_SUMMARY_LABELS : list (jsstr * jsstr) :=
  [(js "/v1/chat/completions", js "OpenAI Chat")].

Record AdvancedCustomValidationError := mkError { message : jsstr; routeIndex : option nat }.

Record AdvancedCustomTemplateOption := mkTemplate {
  tpl_value : jsstr; tpl_label : jsstr; tpl_config : json
}.

Definition auth_of (type name value : jsstr) : json :=
  JObj [(js "type", JStr type); (js "name", JStr name); (js "value", JStr value)].

Definition bearerHeaderAuth : json := auth_of (js "header") (js "Authorization") (js "Bearer {api_key}").
Definition apiKeyHeaderAuth : json := auth_of (js "header") (js "x-api-key") (js "{api_key}").
Definition geminiQueryAuth : json := auth_of (js "query") (js "key") (js "{api_key}").

Definition config_of (routes : list json) : json := JObj [(js "advanced_routes", JArr routes)].

Definition template_route (incoming upstream converter : jsstr) (auth : json) : json :=
  JObj [(js "incoming_path", JStr incoming); (js "upstream_path", JStr upstream);
        (js "converter", JStr converter); (js "auth", auth)].

Definition ADVANCED_CUSTOM_TEMPLATE_OPTIONS : list AdvancedCustomTemplateOption :=
  [
   mkTemplate (js "official_openai_chat") (js "Official OpenAI Chat") (config_of [
      template_route (js "/v1/chat/completions")
        (js "/v1/chat/completions") (js "none") bearerHeaderAuth]);
   mkTemplate (js "official_openai_responses") (js "Official OpenAI Responses") (config_of [
      template_route (js "/v1/responses")
        (js "/v1/responses") (js "none") bearerHeaderAuth]);
   mkTemplate (js "official_openai_embeddings") (js "Official OpenAI Embeddings") (config_of [
      template_route (js "/v1/embeddings")
        (js "/v1/embeddings") (js "none") bearerHeaderAuth]);
   mkTemplate (js "official_openai_images") (js "Official OpenAI Images") (config_of [
      template_route (js "/v1/images/generations")
        (js "/v1/images/generations") (js "none") bearerHeaderAuth;
      template_route (js "/v1/images/edits")
        (js "/v1/images/edits") (js "none") bearerHeaderAuth]);
   mkTemplate (js "official_claude_messages") (js "Official Claude Messages") (config_of [
      template_route (js "/v1/messages")
        (js "/v1/messages") (js "none") apiKeyHeaderAuth]);
   mkTemplate (js "official_gemini_native") (js "Official Gemini Native") (config_of [
      template_route (js "/v1beta/models/{model}:generateContent")
        (js "/v1beta/models/{model}:generateContent") (js "none") geminiQueryAuth;
      template_route (js "/v1beta/models/{model}:embedContent")
        (js "/v1beta/models/{model}:embedContent") (js "none") geminiQueryAuth;
      template_route (js "/v1beta/models/{model}:batchEmbedContents")
        (js "/v1beta/models/{model}:batchEmbedContents") (js "none") geminiQueryAuth]);
   mkTemplate (js "official_gemini_from_openai_chat") (js "Official Gemini from OpenAI Chat") (config_of [
      template_route (js "/v1/chat/completions")
        (js "/v1beta/models/{model}:generateContent") (js "openai_chat_completions_to_gemini_generate_content") geminiQueryAuth])].

Definition cloneAdvancedCustomConfig (config : json) : outcome json :=
  match parse (stringify 0 0 config) with Some v => Returns v | None => Throws (js "SyntaxError") end.

Definition first_template : AdvancedCustomTemplateOption :=
  match ADVANCED_CUSTOM_TEMPLATE_OPTIONS with t :: _ => t | [] => mkTemplate [] [] (config_of []) end.

Definition getAdvancedCustomTemplateConfig (templateKey : jsstr) : outcome json :=
  let template :=
    match find (fun o => str_eqb (tpl_value o) templateKey) ADVANCED_CUSTOM_TEMPLATE_OPTIONS with
    | Some t => t
    | None => first_template
    end in
  cloneAdvancedCustomConfig (tpl_config template).

Definition createAdvancedCustomRoute : json :=
  JObj [(js "incoming_path", JStr (js "/v1/chat/completions"));
        (js "upstream_path", JStr (js "/v1/chat/completions"));
        (js "converter", JStr (js "none"))].

Definition createAdvancedCustomConfig : json := config_of [createAdvancedCustomRoute].

Definition getAdvancedCustomUpstreamPathPlaceholder (converter : json) : jsstr :=
  if is_str (Some converter) (js "openai_chat_completions_to_gemini_generate_content")
  then js "/v1beta/models/{model}:generateContent"
  else if is_str (Some converter) (js "openai_chat_completions_to_anthropic_messages")
  then js "/v1/messages"
  else if is_str (Some converter) (js "openai_responses_to_openai_chat_completions")
  then js "/v1/chat/completions"
  else js "/v1/chat/completions".

(** ** Converters and paths *)

Definition isAdvancedCustomConverter (value : json) : bool :=
  existsb (fun o => is_str (Some value) (opt_value o)) ADVANCED_CUSTOM_CONVERTER_OPTIONS.

Definition isConverterPathAllowed (incomingPath : jsstr) (converter : json) : bool :=
  let c := is_str (Some converter) in
  if c (js "none") then true
  else if c (js "anthropic_messages_to_openai_chat_completions")
  then str_eqb incomingPath (js "/v1/messages")
  else if c (js "openai_chat_completions_to_anthropic_messages")
          || c (js "openai_chat_completions_to_openai_responses")
          || c (js "openai_chat_completions_to_gemini_generate_content")
  then str_eqb incomingPath (js "/v1/chat/completions")
  else if c (js "openai_responses_to_openai_chat_completions")
  then str_eqb incomingPath (js "/v1/responses")
  else includes incomingPath (js ":generateContent")
       || includes incomingPath (js ":streamGenerateContent").

Definition getAdvancedCustomIncomingPathOptions (converter : json) : list SelectOption :=
  List.filter (fun o => isConverterPathAllowed (opt_value o) converter)
    ADVANCED_CUSTOM_INCOMING_PATH_OPTIONS.

Definition getDefaultAdvancedCustomIncomingPath (converter : json) : jsstr :=
  match getAdvancedCustomIncomingPathOptions converter with
  | o :: _ => str_or (opt_value o) (js "/v1/chat/completions")
  | [] => js "/v1/chat/completions"
  end.

Definition isAdvancedCustomIncomingPathAllowed (incomingPath : jsstr) (converter : json) : bool :=
  isConverterPathAllowed incomingPath converter.

Definition getAdvancedCustomConverterOptions (incomingPath : jsstr) : list SelectOption :=
  let normalizedIncomingPath := trim incomingPath in
  List.filter
    (fun o => str_eqb (opt_value o) (js "none")
              || isConverterPathAllowed normalizedIncomingPath (JStr (opt_value o)))
    ADVANCED_CUSTOM_CONVERTER_OPTIONS.

Definition getAdvancedCustomIncomingPathLabel (value : jsstr) : jsstr :=
  match find (fun o => str_eqb (opt_value o) value) ADVANCED_CUSTOM_INCOMING_PATH_OPTIONS with
  | Some o => str_or (opt_label o) value
  | None => value
  end.

(** ** Normalisation *)

Definition getAdvancedCustomRouteUpstreamPath (route : json) : outcome jsstr :=
  let! u := get (js "upstream_path") route in trim_value (or_else u (JStr [])).

(** A property that is [undefined] is not printed and not found, as one that
    is absent. *)
Definition opt_member (k : jsstr) (v : option json) : list (jsstr * json) :=
  match v with Some x => [(k, x)] | None => [] end.

Definition normalize_auth (auth : json) : json :=
  JObj (opt_member (js "type") (jfield (js "type") auth)
        ++ [(js "name", or_else (jfield (js "name") auth) (JStr []));
            (js "value", or_else (jfield (js "value") auth) (JStr []))]).

Definition normalizeAdvancedCustomRoute (route : json) : outcome json :=
  let! incoming := get (js "incoming_path") route in
  let! upstream := getAdvancedCustomRouteUpstreamPath route in
  let! converter := get (js "converter") route in
  let! auth := get (js "auth") route in
  Returns (JObj ([(js "incoming_path", or_else incoming (JStr []));
                  (js "upstream_path", JStr upstream);
                  (js "converter", or_else converter (JStr (js "none")))]
                 ++ match auth with
                    | Some a => if json_truthy a then [(js "auth", normalize_auth a)] else []
                    | None => []
                    end)).

Definition normalizeAdvancedCustomConfig (config : json) : outcome json :=
  let! advanced_routes := get (js "advanced_routes") config in
  let! routes := match advanced_routes with
                 | Some (JArr l) => omap_all normalizeAdvancedCustomRoute l
                 | _ => Returns []
                 end in
  Returns (config_of routes).

(** [config.advanced_routes || []] of a normalised configuration. *)
Definition routes_of (config : json) : list json :=
  match jfield (js "advanced_routes") config with Some (JArr l) => l | _ => [] end.

Definition parseAdvancedCustomConfig (value : option jsstr) : option json :=
  match value with
  | None => None
  | Some s =>
      if negb (truthy (trim s)) then None
      else match parse s with
           | Some (JObj l) =>
               match normalizeAdvancedCustomConfig (JObj l) with
               | Returns c => Some c
               | Throws _ => None
               end
           | _ => None
           end
  end.

Definition stringifyAdvancedCustomConfig (config : json) : outcome jsstr :=
  let! c := normalizeAdvancedCustomConfig config in Returns (stringify 2 0 c).

(** ** Validation *)

Definition validateRouteAuth (auth : option json) : outcome (option jsstr) :=
  match auth with
  | None => Returns None
  | Some a =>
      if negb (json_truthy a) then Returns None
      else
        let type := jfield (js "type") a in
        if is_str type (js "none") then Returns None
        else if negb (is_str type (js "header")) && negb (is_str type (js "query"))
        then Returns (Some (js "Auth type is invalid"))
        else
          let! name := optional_trim (jfield (js "name") a) in
          if negb (truthy name) then Returns (Some (js "Auth name is required"))
          else
            let! value := optional_trim (jfield (js "value") a) in
            if negb (truthy value) then Returns (Some (js "Auth value is required"))
            else Returns None
  end.

Section Url.
  (** [new URL(value)]: its host and protocol, [None] when it throws. *)
  Variable new_URL : jsstr -> option (jsstr * jsstr).

Definition isFullHttpURLOrAbsolutePath (value : jsstr) : bool :=
  if startsWith value (js "/") then negb (startsWith value (js "//"))
  else match new_URL value with
       | Some (host, protocol) =>
           truthy host && (str_eqb protocol (js "http:") || str_eqb protocol (js "https:"))
       | None => false
       end.

(** The checks of one route, up to the check against the paths seen so far:
    the error, or the route's path. *)
Definition validate_route (seenPaths : list jsstr) (route : json) : outcome (jsstr + jsstr) :=
  let! incoming := get (js "incoming_path") route in
  let! incomingPath := optional_trim incoming in
  let! upstreamPath := getAdvancedCustomRouteUpstreamPath route in
  let converter := or_else (jfield (js "converter") route) (JStr (js "none")) in
  if negb (truthy incomingPath) then Returns (inl (js "Incoming path is required"))
  else if negb (startsWith incomingPath (js "/")) then Returns (inl (js "Incoming path must start with /"))
  else if includes incomingPath (js "?") then Returns (inl (js "Incoming path must not include query"))
  else if existsb (str_eqb incomingPath) seenPaths then Returns (inl (js "Incoming path must be unique"))
  else if negb (truthy upstreamPath) then Returns (inl (js "Upstream path is required"))
  else if negb (isFullHttpURLOrAbsolutePath upstreamPath)
  then Returns (inl (js "Upstream path must be a full URL or a path starting with /"))
  else if negb (isAdvancedCustomConverter converter) then Returns (inl (js "Converter is not registered"))
  else if negb (isConverterPathAllowed incomingPath converter)
  then Returns (inl (js "Converter does not match incoming path"))
  else
    let! authError := validateRouteAuth (jfield (js "auth") route) in
    match authError with
    | Some e => Returns (inl e)
    | None => Returns (inr incomingPath)
    end.

Fixpoint validate_routes (index : nat) (seenPaths : list jsstr) (routes : list json)
    : outcome (option AdvancedCustomValidationError) :=
  match routes with
  | [] => Returns None
  | route :: rest =>
      let! r := validate_route seenPaths route in
      match r with
      | inl e => Returns (Some (mkError e (Some index)))
      | inr incomingPath => validate_routes (S index) (sadd incomingPath seenPaths) rest
      end
  end.

Definition validateAdvancedCustomConfig (config : json) : outcome (option AdvancedCustomValidationError) :=
  if negb (json_truthy config)
  then Returns (Some (mkError (js "Advanced custom configuration is required") None))
  else
    let! normalized := normalizeAdvancedCustomConfig config in
    match routes_of normalized with
    | [] => Returns (Some (mkError (js "Advanced custom configuration requires at least one route") None))
    | routes => validate_routes 0 [] routes
    end.

Definition advancedCustomConfigUsesRelativeUpstreamPath (config : json) : outcome bool :=
  if negb (json_truthy config) then Returns false
  else
    let! normalized := normalizeAdvancedCustomConfig config in
    let! paths := omap_all getAdvancedCustomRouteUpstreamPath (routes_of normalized) in
    Returns (existsb (fun p => startsWith p (js "/")) paths).

(** ** Summary *)

Definition getAdvancedCustomRouteSummaryLabel (route : json) : outcome (option jsstr) :=
  let! incoming := get (js "incoming_path") route in
  let! incomingPath := optional_trim incoming in
  if negb (truthy incomingPath) then Returns None
  else Returns (Some match mget incomingPath ADVANCED_CUSTOM_ROUTE_SUMMARY_LABELS with
                     | Some l => str_or l (getAdvancedCustomIncomingPathLabel incomingPath)
                     | None => getAdvancedCustomIncomingPathLabel incomingPath
                     end).

Record AdvancedCustomStats := mkStats {
  routeCount : nat; valid : bool; routeTypeLabels : list jsstr
}.

Definition getAdvancedCustomStats (value : option jsstr) : outcome AdvancedCustomStats :=
  match parseAdvancedCustomConfig value with
  | None => Returns (mkStats 0 false [])
  | Some config =>
      let! normalized := normalizeAdvancedCustomConfig config in
      let routes := routes_of normalized in
      let! labels := omap_all getAdvancedCustomRouteSummaryLabel routes in
      let! error := validateAdvancedCustomConfig normalized in
      Returns (mkStats (length routes) (match error with None => true | Some _ => false end)
                 (uniq (List.filter truthy (omap id labels))))
  end.

End Url.

(** ** Authentication of a route *)

Definition getAdvancedCustomAuthMode (route : json) : json :=
  or_else (match jfield (js "auth") route with Some a => jfield (js "type") a | None => None end)
    (JStr (js "default")).

Definition buildAdvancedCustomAuth (mode : jsstr) (previousAuth : option json) : option json :=
  let prev k := match previousAuth with Some a => jfield k a | None => None end in
  if str_eqb mode (js "default") then None
  else if str_eqb mode (js "none") then Some (JObj [(js "type", JStr (js "none"))])
  else if str_eqb mode (js "header") then
    Some (JObj [(js "type", JStr (js "header"));
                (js "name", or_else (prev (js "name")) (JStr (js "Authorization")));
                (js "value", or_else (prev (js "value")) (JStr (js "Bearer {api_key}")))])
  else
    Some (JObj [(js "type", JStr (js "query"));
                (js "name", or_else (prev (js "name")) (JStr (js "api_key")));
                (js "value", or_else (prev (js "value")) (JStr (js "{api_key}")))]).
