(* ===== verification/AdvancedProps.v ===== *)
(** * Advanced custom channels: what the validator accepts

    A declarative description of a well-formed configuration, the proof that
    [validateAdvancedCustomConfig] accepts exactly those, and the round trip
    of a configuration through its JSON text. *)

From S2P Require Import Prelude JsStr JsNum JsArray JsJson JsPrint AdvancedCustom.
Local Open Scope js_scope.

(** ** Well-formed configurations *)

(** Which incoming paths a registered converter handles. *)
Inductive converter_accepts : jsstr -> jsstr -> Prop :=
| accepts_native p : converter_accepts (js "none") p
| accepts_claude_as_chat :
    converter_accepts (js "anthropic_messages_to_openai_chat_completions") (js "/v1/messages")
| accepts_chat_as_claude :
    converter_accepts (js "openai_chat_completions_to_anthropic_messages") (js "/v1/chat/completions")
| accepts_chat_as_responses :
    converter_accepts (js "openai_chat_completions_to_openai_responses") (js "/v1/chat/completions")
| accepts_chat_as_gemini :
    converter_accepts (js "openai_chat_completions_to_gemini_generate_content") (js "/v1/chat/completions")
| accepts_responses_as_chat :
    converter_accepts (js "openai_responses_to_openai_chat_completions") (js "/v1/responses")
| accepts_gemini_as_chat a b :
    converter_accepts (js "gemini_generate_content_to_openai_chat_completions")
      (a ++ js ":generateContent" ++ b)
| accepts_gemini_stream_as_chat a b :
    converter_accepts (js "gemini_generate_content_to_openai_chat_completions")
      (a ++ js ":streamGenerateContent" ++ b).

(** A string property that is not blank. *)
Definition filled (k : jsstr) (v : json) : Prop :=
  exists s, jfield k v = Some (JStr s) /\ trim s <> [].

(** The value of a property that defaults when it is missing or falsy. *)
Definition defaulted (k : jsstr) (v : json) (d x : json) : Prop :=
  x = or_else (jfield k v) d.

Inductive auth_ok : option json -> Prop :=
| auth_missing : auth_ok None
| auth_falsy a : json_truthy a = false -> auth_ok (Some a)
| auth_none a : jfield (js "type") a = Some (JStr (js "none")) -> auth_ok (Some a)
| auth_complete a t :
    jfield (js "type") a = Some (JStr t) -> t = js "header" \/ t = js "query" ->
    filled (js "name") a -> filled (js "value") a -> auth_ok (Some a).

(** A route that serves the path [p]. *)
Record route_ok (new_URL : jsstr -> option (jsstr * jsstr)) (r : json) (p : jsstr) : Prop := {
  ok_incoming : exists s, jfield (js "incoming_path") r = Some (JStr s) /\ p = trim s;
  ok_slash : exists t, p = js "/" ++ t;
  ok_no_query : ~ In 63%N p;
  ok_upstream : exists u, jfield (js "upstream_path") r = Some (JStr u)
                /\ trim u <> [] /\ isFullHttpURLOrAbsolutePath new_URL (trim u) = true;
  ok_converter : exists c, defaulted (js "converter") r (JStr (js "none")) (JStr c)
                 /\ converter_accepts c p;
  ok_auth : auth_ok (jfield (js "auth") r)
}.

Definition config_ok new_URL (config : json) : Prop :=
  exists l ps, jfield (js "advanced_routes") config = Some (JArr l) /\ l <> []
            /\ Forall2 (route_ok new_URL) l ps /\ NoDup ps.

(** ** Converters *)

Lemma allowed_native p : isConverterPathAllowed p (JStr (js "none")) = true.
Proof. reflexivity. Qed.
Lemma allowed_claude_as_chat p :
  isConverterPathAllowed p (JStr (js "anthropic_messages_to_openai_chat_completions"))
  = str_eqb p (js "/v1/messages").
Proof. reflexivity. Qed.
Lemma allowed_chat_as_claude p :
  isConverterPathAllowed p (JStr (js "openai_chat_completions_to_anthropic_messages"))
  = str_eqb p (js "/v1/chat/completions").
Proof. reflexivity. Qed.
Lemma allowed_chat_as_responses p :
  isConverterPathAllowed p (JStr (js "openai_chat_completions_to_openai_responses"))
  = str_eqb p (js "/v1/chat/completions").
Proof. reflexivity. Qed.
Lemma allowed_chat_as_gemini p :
  isConverterPathAllowed p (JStr (js "openai_chat_completions_to_gemini_generate_content"))
  = str_eqb p (js "/v1/chat/completions").
Proof. reflexivity. Qed.
Lemma allowed_responses_as_chat p :
  isConverterPathAllowed p (JStr (js "openai_responses_to_openai_chat_completions"))
  = str_eqb p (js "/v1/responses").
Proof. reflexivity. Qed.
Lemma allowed_gemini_as_chat p :
  isConverterPathAllowed p (JStr (js "gemini_generate_content_to_openai_chat_completions"))
  = includes p (js ":generateContent") || includes p (js ":streamGenerateContent").
Proof. reflexivity. Qed.

#[export] Hint Rewrite allowed_native allowed_claude_as_chat allowed_chat_as_claude
  allowed_chat_as_responses allowed_chat_as_gemini allowed_responses_as_chat
  allowed_gemini_as_chat : js_db.

Lemma registered_names c :
  isAdvancedCustomConverter (JStr c) = true <-> In c (map opt_value ADVANCED_CUSTOM_CONVERTER_OPTIONS).
Proof.
  unfold isAdvancedCustomConverter. rewrite existsb_exists, in_map_iff.
  split; intros (o & H1 & H2); exists o.
  - cbn [is_str] in H2. apply str_eqb_eq in H2. by subst.
  - subst. split; [done|]. cbn [is_str]. apply str_eqb_refl.
Qed.

(** The registered converters, each with the paths the code allows for it. *)
Lemma converter_spec p cv :
  isAdvancedCustomConverter cv && isConverterPathAllowed p cv = true
  <-> exists c, cv = JStr c /\ converter_accepts c p.
Proof.
  rewrite andb_true_iff. split.
  - intros [Hr Ha]. destruct cv as [| | |c| |]; try (unfold isAdvancedCustomConverter in Hr; done).
    exists c. split; [done|]. apply registered_names in Hr.
    cbn [ADVANCED_CUSTOM_CONVERTER_OPTIONS map opt_value In] in Hr.
    repeat destruct Hr as [<-|Hr]; try done;
      autorewrite with js_db in Ha; try apply str_eqb_eq in Ha; subst; try constructor.
    apply orb_true_iff in Ha as [(a & b & ->)%includes_true|(a & b & ->)%includes_true]; by constructor.
  - intros (c & -> & H). rewrite registered_names.
    destruct H; autorewrite with js_db; (split; [cbn [ADVANCED_CUSTOM_CONVERTER_OPTIONS map opt_value In]; tauto|]);
      try done; apply orb_true_iff; [left|right]; apply includes_true; by eexists _, _.
Qed.

(** ** Authentication *)

Lemma is_str_true v s : is_str v s = true <-> v = Some (JStr s).
Proof.
  destruct v as [[]|]; cbn [is_str]; try (split; congruence).
  rewrite str_eqb_eq. split; congruence.
Qed.

Lemma optional_trim_filled k a n :
  optional_trim (jfield k a) = Returns n -> truthy n = true -> filled k a.
Proof.
  unfold filled. destruct (jfield k a) as [[]|]; cbn; intros [= <-] Hn; try done.
  eexists. split; [done|]. by apply truthy_true.
Qed.

Lemma filled_trim k a : filled k a -> exists n, optional_trim (jfield k a) = Returns n /\ truthy n = true.
Proof. intros (s & -> & Hs). eexists. split; [done|]. by apply truthy_true. Qed.

Lemma auth_spec a : validateRouteAuth a = Returns None <-> auth_ok a.
Proof.
  destruct a as [a|]; cbn [validateRouteAuth]; [|split; [constructor|done]].
  destruct (json_truthy a) eqn:Ea; cbn [negb]; [|split; [by intros; apply auth_falsy|done]].
  destruct (is_str (jfield (js "type") a) (js "none")) eqn:En.
  { apply is_str_true in En. split; [by intros; apply auth_none|done]. }
  destruct (negb _ && negb _) eqn:Et.
  { split; [done|]. intros H. exfalso. apply andb_true_iff in Et as [E1 E2].
    apply negb_true_iff in E1, E2. inversion H as [|a' Hf|a' Hn|a' t Ht [-> | ->] Hnm Hv]; subst; try congruence.
    - apply is_str_true in Hn. congruence.
    - apply is_str_true in Ht. congruence.
    - apply is_str_true in Ht. congruence. }
  assert (exists t, jfield (js "type") a = Some (JStr t) /\ (t = js "header" \/ t = js "query")) as (t & Ht & Hor).
  { apply andb_false_iff in Et as [E|E]; apply negb_false_iff, is_str_true in E; eauto. }
  split.
  - destruct (optional_trim (jfield (js "name") a)) as [n|] eqn:E1; cbn [obind]; [|done].
    destruct (truthy n) eqn:T1; cbn [negb]; [|done].
    destruct (optional_trim (jfield (js "value") a)) as [v|] eqn:E2; cbn [obind]; [|done].
    destruct (truthy v) eqn:T2; cbn [negb]; [|done]. intros _.
    eapply auth_complete; eauto using optional_trim_filled.
  - intros H. inversion H as [|a' Hf|a' Hn|a' t' Ht' Ho Hnm Hv]; subst; try congruence.
    { apply is_str_true in Hn. congruence. }
    apply filled_trim in Hnm as (n & -> & Hn). apply filled_trim in Hv as (v & -> & Hv).
    cbn [obind]. rewrite Hn. cbn [negb]. cbn [obind]. by rewrite Hv.
Qed.

(** ** Normalised routes *)

Lemma get_returns k v x : get k v = Returns x <-> v <> JNull /\ x = jfield k v.
Proof. destruct v; cbn; split; try (by intros [= <-]); try (by intros [_ ->]); try done. by intros []. Qed.

Lemma filled_or_else k a s :
  trim s <> [] -> or_else (jfield k a) (JStr []) = JStr s <-> jfield k a = Some (JStr s).
Proof.
  intros Hs. unfold or_else. destruct (jfield k a) as [x|].
  - destruct (json_truthy x) eqn:E; split; try congruence.
    + intros [= <-]. by cbn in Hs.
    + intros [= ->]. cbn in E. by destruct s.
  - split; [intros [= <-]; by cbn in Hs|done].
Qed.


Lemma normalize_auth_type a : jfield (js "type") (normalize_auth a) = jfield (js "type") a.
Proof. unfold normalize_auth. by destruct (jfield (js "type") a). Qed.

Lemma normalize_auth_member k a :
  k = js "name" \/ k = js "value" ->
  jfield k (normalize_auth a) = Some (or_else (jfield k a) (JStr [])).
Proof. unfold normalize_auth. intros [-> | ->]; by destruct (jfield (js "type") a). Qed.

Lemma normalize_auth_filled k a :
  k = js "name" \/ k = js "value" -> filled k (normalize_auth a) <-> filled k a.
Proof.
  intros Hk. unfold filled. rewrite normalize_auth_member by done.
  split; intros (s & H & Hs); exists s; (split; [|done]).
  - injection H as H. by apply filled_or_else in H.
  - f_equal. by apply filled_or_else.
Qed.

Lemma normalize_auth_ok a : json_truthy a = true -> auth_ok (Some (normalize_auth a)) <-> auth_ok (Some a).
Proof.
  intros Ha. split; intros H; inversion H as [|a' Hf|a' Hn|a' t Ht Ho Hnm Hv]; subst;
    try solve [congruence|cbn in Hf; discriminate].
  - rewrite normalize_auth_type in Hn. by apply auth_none.
  - rewrite normalize_auth_type in Ht. rewrite normalize_auth_filled in Hnm, Hv by tauto.
    by eapply auth_complete.
  - apply auth_none. by rewrite normalize_auth_type.
  - eapply auth_complete; [by rewrite normalize_auth_type|done| |];
      apply normalize_auth_filled; tauto.
Qed.

(** The fields of a normalised route. *)
Record normal_route (r n : json) : Prop := {
  nr_object : r <> JNull /\ n <> JNull;
  nr_incoming : jfield (js "incoming_path") n = Some (or_else (jfield (js "incoming_path") r) (JStr []));
  nr_upstream : exists u, getAdvancedCustomRouteUpstreamPath r = Returns u
                /\ jfield (js "upstream_path") n = Some (JStr u);
  nr_converter : jfield (js "converter") n = Some (or_else (jfield (js "converter") r) (JStr (js "none")));
  nr_auth : jfield (js "auth") n =
            match jfield (js "auth") r with
            | Some a => if json_truthy a then Some (normalize_auth a) else None
            | None => None
            end
}.

Lemma normalize_route_fields r n : normalizeAdvancedCustomRoute r = Returns n -> normal_route r n.
Proof.
  unfold normalizeAdvancedCustomRoute. rewrite !obind_returns.
  intros (i & [Hr ->]%get_returns & H). rewrite !obind_returns in H.
  destruct H as (u & Hu & H). rewrite !obind_returns in H.
  destruct H as (c & [_ ->]%get_returns & H). rewrite !obind_returns in H.
  destruct H as (a & [_ ->]%get_returns & [= <-]).
  split; try done; [by eexists|].
  destruct (jfield (js "auth") r) as [a|]; [destruct (json_truthy a)|]; done.
Qed.

Lemma or_else_truthy v d : json_truthy d = true -> json_truthy (or_else v d) = true.
Proof. unfold or_else. destruct v as [x|]; [destruct (json_truthy x) eqn:?|]; done. Qed.

Lemma normal_upstream r n u :
  normal_route r n ->
  getAdvancedCustomRouteUpstreamPath n = Returns u /\ truthy u = true <->
  exists s, jfield (js "upstream_path") r = Some (JStr s) /\ u = trim s /\ trim s <> [].
Proof.
  intros [[Hr Hn] _ (w & Hw & Hu) _ _]. unfold getAdvancedCustomRouteUpstreamPath in *.
  rewrite obind_returns in Hw. destruct Hw as (x & [_ ->]%get_returns & Hx).
  assert (get (js "upstream_path") n = Returns (Some (JStr w))) as -> by (apply get_returns; split; congruence).
  cbn [obind].
  assert (trim_value (or_else (Some (JStr w)) (JStr [])) = Returns (trim w)) as ->.
  { unfold or_else. cbn. by destruct w. }
  unfold or_else in Hx. split.
  - intros [[= <-] Ht]. destruct (jfield _ r) as [x|]; [|injection Hx as <-; done].
    destruct (json_truthy x) eqn:Ex; [|injection Hx as <-; done].
    destruct x as [| | |s| |]; try done. cbn in Hx. injection Hx as <-.
    rewrite trim_idemp in *. exists s. split; [done|]. split; [done|]. by apply truthy_true.
  - intros (s & Hs & -> & Ht). rewrite Hs in Hx.
    assert (json_truthy (JStr s) = true) as E by (destruct s; done). rewrite E in Hx.
    cbn in Hx. injection Hx as <-. rewrite trim_idemp. split; [done|]. by apply truthy_true.
Qed.

Lemma normal_incoming r n p :
  normal_route r n ->
  optional_trim (jfield (js "incoming_path") n) = Returns p /\ truthy p = true <->
  exists s, jfield (js "incoming_path") r = Some (JStr s) /\ p = trim s /\ trim s <> [].
Proof.
  intros [_ -> _ _ _]. split.
  - unfold or_else. destruct (jfield _ r) as [x|]; [|by intros [[= <-] ?]].
    destruct (json_truthy x) eqn:Ex; [|by intros [[= <-] ?]].
    destruct x as [| | |s| |]; try (by intros [? ?]). cbn. intros [[= <-] Ht].
    exists s. split; [done|]. split; [done|]. by apply truthy_true.
  - intros (s & Hs & -> & Ht). apply filled_or_else in Hs; [|done]. rewrite Hs.
    split; [done|]. by apply truthy_true.
Qed.

Lemma existsb_str p l : existsb (str_eqb p) l = false <-> ~ In p l.
Proof.
  rewrite <- not_true_iff_false, existsb_exists. split.
  - intros H Hin. apply H. exists p. by rewrite str_eqb_refl.
  - intros H (x & Hx & <-%str_eqb_eq). done.
Qed.

Section Validate.
  Variable new_URL : jsstr -> option (jsstr * jsstr).

(** The branch of [validate_route] that accepts. *)
Lemma validate_route_accepts seen n p :
  validate_route new_URL seen n = Returns (inr p) <->
  n <> JNull
  /\ (optional_trim (jfield (js "incoming_path") n) = Returns p /\ truthy p = true)
  /\ startsWith p (js "/") = true /\ includes p (js "?") = false
  /\ existsb (str_eqb p) seen = false
  /\ (exists u, (getAdvancedCustomRouteUpstreamPath n = Returns u /\ truthy u = true)
             /\ isFullHttpURLOrAbsolutePath new_URL u = true)
  /\ (let cv := or_else (jfield (js "converter") n) (JStr (js "none")) in
      isAdvancedCustomConverter cv && isConverterPathAllowed p cv = true)
  /\ validateRouteAuth (jfield (js "auth") n) = Returns None.
Proof.
  unfold validate_route. split.
  - rewrite obind_returns. intros (i & [Hn ->]%get_returns & H).
    rewrite obind_returns in H. destruct H as (p' & Hp & H).
    rewrite obind_returns in H. destruct H as (u & Hu & H).
    repeat match type of H with
    | (if negb ?b then _ else _) = _ => destruct b eqn:?; cbn [negb] in H; [|done]
    | (if ?b then _ else _) = _ => destruct b eqn:?; [done|]
    end.
    rewrite obind_returns in H. destruct H as ([e|] & Ha & [= <-]).
    repeat (split; [done|]). split; [by eexists|]. split; [|done].
    cbn zeta. by apply andb_true_iff.
  - intros (Hn & [Hp Tp] & Hs & Hq & Hx & (u & [Hu Tu] & Hf) & Hc & Ha).
    cbn zeta in Hc. apply andb_true_iff in Hc as [Hc1 Hc2].
    assert (get (js "incoming_path") n = Returns (jfield (js "incoming_path") n)) as -> by (by apply get_returns).
    cbn [obind]. rewrite Hp. cbn [obind]. rewrite Hu. cbn [obind].
    rewrite Tp, Hs, Hq, Hx, Tu, Hf, Hc1, Hc2. cbn [negb]. by rewrite Ha.
Qed.

Lemma validate_route_normal seen r n p :
  normal_route r n ->
  validate_route new_URL seen n = Returns (inr p) <-> route_ok new_URL r p /\ ~ In p seen.
Proof.
  intros Hn. rewrite validate_route_accepts, (normal_incoming r n p Hn), auth_spec, existsb_str.
  change (js "?") with [63%N]. rewrite includes_char, startsWith_true.
  rewrite (nr_converter r n Hn).
  assert (or_else (Some (or_else (jfield (js "converter") r) (JStr (js "none")))) (JStr (js "none"))
          = or_else (jfield (js "converter") r) (JStr (js "none"))) as ->.
  { unfold or_else at 1. by rewrite or_else_truthy. }
  cbn zeta. rewrite converter_spec.
  assert (auth_ok (jfield (js "auth") n) <-> auth_ok (jfield (js "auth") r)) as ->.
  { rewrite (nr_auth r n Hn). destruct (jfield (js "auth") r) as [a|]; [|done].
    destruct (json_truthy a) eqn:Ea; [by apply normalize_auth_ok|].
    split; [by intros _; apply auth_falsy|constructor]. }
  assert ((exists u, (getAdvancedCustomRouteUpstreamPath n = Returns u /\ truthy u = true)
                  /\ isFullHttpURLOrAbsolutePath new_URL u = true) <->
          (exists u, jfield (js "upstream_path") r = Some (JStr u)
                /\ trim u <> [] /\ isFullHttpURLOrAbsolutePath new_URL (trim u) = true)) as ->.
  { split.
    - intros (u & (s & Hs & -> & Ht)%(normal_upstream r n u Hn) & Hf). by exists s.
    - intros (s & Hs & Ht & Hf). exists (trim s). split; [|done].
      apply (normal_upstream r n _ Hn). by exists s. }
  split.
  - intros (_ & (s & Hs & -> & Ht) & Hsl & Hq & Hx & Hu & (c & Hc & Hacc) & Ha).
    split; [|done]. split; eauto. exists c. by split.
  - intros [[(s & Hs & ->) Hsl Hq Hu (c & Hc & Hacc) Ha] Hx].
    split; [apply Hn|]. split; [|by eauto 10]. exists s. split; [done|]. split; [done|].
    destruct Hsl as [t Hsl]. rewrite Hsl. done.
Qed.

Lemma validate_routes_normal rs ns index seen :
  Forall2 normal_route rs ns ->
  validate_routes new_URL index seen ns = Returns None <->
  exists ps, Forall2 (route_ok new_URL) rs ps /\ NoDup ps /\ Forall (fun p => ~ In p seen) ps.
Proof.
  intros H. revert index seen. induction H as [|r n rs ns Hr Hrs IH]; intros index seen; cbn [validate_routes].
  - split; [|done]. intros _. exists []. repeat split; constructor.
  - rewrite obind_returns. split.
    + intros ([e|p] & Hv & H); [done|]. apply IH in H as (ps & Hps & Hnd & Hseen).
      apply (validate_route_normal seen r n p Hr) in Hv as [Hok Hp]. exists (p :: ps).
      rewrite List.Forall_forall in Hseen. setoid_rewrite sadd_In in Hseen.
      split; [by constructor|]. split.
      * constructor; [|done]. rewrite list_elem_of_In. intros Hin. apply (Hseen p Hin). by left.
      * constructor; [done|]. rewrite List.Forall_forall. intros q Hq Hs. apply (Hseen q Hq). by right.
    + intros (ps & Hps & Hnd & Hseen). inversion Hps as [|? p ? ps' Hok Hps']; subst.
      apply NoDup_cons in Hnd as [Hp Hnd]. apply Forall_cons_iff in Hseen as [Hpseen Hseen].
      exists (inr p). split; [by apply (validate_route_normal seen r n p Hr)|].
      apply IH. exists ps'. split; [done|]. split; [done|]. rewrite List.Forall_forall in *.
      intros q Hq. rewrite sadd_In. intros [-> |Hs]; [by rewrite list_elem_of_In in Hp|by apply (Hseen q)].
Qed.

Lemma normalize_routes rs ns :
  omap_all normalizeAdvancedCustomRoute rs = Returns ns -> Forall2 normal_route rs ns.
Proof.
  revert ns. induction rs as [|r rs IH]; intros ns; cbn [omap_all]; [intros [= <-]; constructor|].
  rewrite obind_returns. intros (n & Hn & H). rewrite obind_returns in H.
  destruct H as (ns' & Hns & [= <-]). constructor; [by apply normalize_route_fields|by apply IH].
Qed.

(** A route that is well formed is normalised without a TypeError. *)
Lemma route_ok_normalizes r p : route_ok new_URL r p -> exists n, normalizeAdvancedCustomRoute r = Returns n.
Proof.
  intros [(s & Hs & _) _ _ (u & Hu & Htu & _) _ _]. unfold normalizeAdvancedCustomRoute, getAdvancedCustomRouteUpstreamPath.
  assert (forall k, get k r = Returns (jfield k r)) as Hget by (intros k; destruct r; done).
  rewrite !Hget. cbn [obind]. rewrite Hu.
  destruct u as [|c u]; [done|]. by eexists.
Qed.

Lemma routes_ok_normalize rs ps :
  Forall2 (route_ok new_URL) rs ps -> exists ns, omap_all normalizeAdvancedCustomRoute rs = Returns ns.
Proof.
  induction 1 as [|r p rs ps Hr _ [ns IH]]; [by eexists|]. cbn [omap_all].
  destruct (route_ok_normalizes r p Hr) as [n ->]. cbn [obind]. rewrite IH. by eexists.
Qed.

Lemma routes_of_config l : routes_of (config_of l) = l.
Proof. reflexivity. Qed.

(** C10: the validator accepts a configuration exactly when it is well formed:
    it has at least one route, every route has a path that starts with a
    slash and has no query, an upstream that is a path or an http URL, a
    registered converter that handles the path and complete credentials, and
    no two routes serve the same path.  Whatever [JSON.parse] delivered, a
    field of the wrong type included, it is not accepted otherwise. *)
Theorem validator_exact config :
  validateAdvancedCustomConfig new_URL config = Returns None <-> config_ok new_URL config.
Proof.
  unfold validateAdvancedCustomConfig, config_ok. split.
  - destruct (json_truthy config) eqn:Ec; cbn [negb]; [|done].
    unfold normalizeAdvancedCustomConfig. rewrite obind_returns.
    intros (c & Hc & H). rewrite obind_returns in Hc. destruct Hc as (ar & [_ ->]%get_returns & Hc).
    rewrite obind_returns in Hc. destruct Hc as (ns & Hns & [= <-]). rewrite routes_of_config in H.
    destruct (jfield (js "advanced_routes") config) as [[| | | |l|]|];
      try (injection Hns as <-; discriminate H).
    apply normalize_routes in Hns. destruct ns as [|n ns]; [done|].
    apply (validate_routes_normal l) in H as (ps & Hps & Hnd & _); [|done].
    exists l, ps. repeat split; try done. by inversion Hns.
  - intros (l & ps & Hl & Hne & Hps & Hnd).
    destruct config as [| | | | |fs]; try done. cbn [json_truthy negb].
    unfold normalizeAdvancedCustomConfig. cbn [get obind]. rewrite Hl.
    destruct (routes_ok_normalize l ps Hps) as [ns Hns]. rewrite Hns. cbn [obind].
    rewrite routes_of_config. apply normalize_routes in Hns.
    destruct ns as [|n ns]; [by inversion Hns; subst|].
    apply (validate_routes_normal l); [done|]. exists ps. split; [done|]. split; [done|].
    rewrite List.Forall_forall. by intros ? _ [].
Qed.

End Validate.

(** ** The text of a configuration *)

Lemma or_else_idem v d : or_else (Some (or_else v d)) d = or_else v d.
Proof. unfold or_else. destruct v as [x|]; [destruct (json_truthy x) eqn:E|]; [by rewrite E| |]; by destruct (json_truthy d). Qed.

Lemma normalize_auth_idem a : normalize_auth (normalize_auth a) = normalize_auth a.
Proof.
  unfold normalize_auth at 1. rewrite normalize_auth_type, !normalize_auth_member by tauto.
  by rewrite !or_else_idem.
Qed.

Lemma normal_route_text r n :
  normalizeAdvancedCustomRoute r = Returns n -> normalizeAdvancedCustomRoute n = Returns n.
Proof.
  unfold normalizeAdvancedCustomRoute at 1. rewrite obind_returns.
  intros (i & _ & H). rewrite obind_returns in H. destruct H as (u & Hu & H).
  rewrite obind_returns in H. destruct H as (c & _ & H).
  rewrite obind_returns in H. destruct H as (a & _ & [= <-]).
  unfold getAdvancedCustomRouteUpstreamPath in Hu. rewrite obind_returns in Hu.
  destruct Hu as (v & _ & Hu).
  assert (trim u = u) as Ht.
  { destruct (or_else v (JStr [])); try done. injection Hu as <-. apply trim_idemp. }
  assert (trim_value (or_else (Some (JStr u)) (JStr [])) = Returns u) as Hw.
  { destruct u as [|x u]; [done|]. change (Returns (trim (x :: u)) = Returns (x :: u)). by rewrite Ht. }
  set (rest := match a with Some a => if json_truthy a then [(js "auth", normalize_auth a)] else [] | None => [] end).
  unfold normalizeAdvancedCustomRoute, getAdvancedCustomRouteUpstreamPath. cbn [get obind].
  change (jfield (js "incoming_path") _) with (Some (or_else i (JStr []))).
  change (jfield (js "upstream_path") _) with (Some (JStr u)).
  change (jfield (js "converter") _) with (Some (or_else c (JStr (js "none")))).
  rewrite Hw. cbn [obind]. rewrite !or_else_idem. subst rest.
  destruct a as [a|]; [destruct (json_truthy a)|]; try done.
  change (jfield (js "auth") _) with (Some (normalize_auth a)).
  cbn iota. change (json_truthy (normalize_auth a)) with true. cbn iota.
  by rewrite normalize_auth_idem.
Qed.

Lemma normal_routes_text rs ns :
  omap_all normalizeAdvancedCustomRoute rs = Returns ns -> omap_all normalizeAdvancedCustomRoute ns = Returns ns.
Proof.
  revert ns. induction rs as [|r rs IH]; intros ns; cbn [omap_all]; [by intros [= <-]|].
  rewrite obind_returns. intros (n & Hn & H). rewrite obind_returns in H.
  destruct H as (ns' & Hns & [= <-]). cbn [omap_all].
  rewrite (normal_route_text r n Hn). cbn [obind]. by rewrite (IH ns' Hns).
Qed.

(** A normalised configuration is a list of normalised routes. *)
Lemma normal_config config n :
  normalizeAdvancedCustomConfig config = Returns n ->
  exists ns, n = config_of ns /\ omap_all normalizeAdvancedCustomRoute ns = Returns ns.
Proof.
  unfold normalizeAdvancedCustomConfig. rewrite obind_returns. intros (ar & _ & H).
  rewrite obind_returns in H. destruct H as (ns & Hns & [= <-]). exists ns. split; [done|].
  destruct ar as [[| | | |l|]|]; try (by injection Hns as <-). by apply normal_routes_text in Hns.
Qed.

Lemma normal_config_of ns :
  omap_all normalizeAdvancedCustomRoute ns = Returns ns ->
  normalizeAdvancedCustomConfig (config_of ns) = Returns (config_of ns).
Proof.
  intros H. unfold normalizeAdvancedCustomConfig. cbn [get config_of obind].
  change (jfield (js "advanced_routes") _) with (Some (JArr ns)).
  cbn iota. by rewrite H.
Qed.

Lemma trim_nonblank c t : is_space c = false -> truthy (trim (c :: t)) = true.
Proof.
  intros Hc. unfold trim, trimStart, trimEnd. cbn [dropb]. rewrite Hc. apply truthy_true.
  cbn [rev]. intros H%(f_equal (@length jschar)). rewrite length_rev in H.
  destruct (dropb is_space (rev t ++ [c])) eqn:E; [|done].
  assert (In c (takeb is_space (rev t ++ [c]))) as Hin.
  { pose proof (takeb_dropb is_space (rev t ++ [c])) as Hd. rewrite E, app_nil_r in Hd. rewrite Hd.
    apply in_app_iff. right. by left. }
  pose proof (forallb_takeb is_space (rev t ++ [c])) as Hf. rewrite forallb_forall in Hf.
  rewrite (Hf c Hin) in Hc. done.
Qed.

(** The text of a normalised configuration is read back. *)
Lemma parse_text n :
  normalizeAdvancedCustomConfig n = Returns n -> printable n = true ->
  parseAdvancedCustomConfig (Some (stringify 2 0 n)) = Some n.
Proof.
  intros Hn Hp. destruct (normal_config n n Hn) as (ns & -> & Hns). unfold parseAdvancedCustomConfig.
  assert (exists t, stringify 2 0 (config_of ns) = 123%N :: t) as [t Ht] by (by eexists).
  rewrite Ht, trim_nonblank by done. cbn [negb]. rewrite <- Ht, parse_stringify by done.
  unfold config_of in *. by rewrite Hn.
Qed.

(** The text of a configuration, as the editor shows and saves it, is
    read back as the normalised configuration, it is printed the same again,
    and the validator says of it what it says of the original. *)
Theorem config_text_round_trip config n :
  json_truthy config = true ->
  normalizeAdvancedCustomConfig config = Returns n -> printable n = true ->
  exists text, stringifyAdvancedCustomConfig config = Returns text
    /\ parseAdvancedCustomConfig (Some text) = Some n
    /\ stringifyAdvancedCustomConfig n = Returns text
    /\ forall new_URL, validateAdvancedCustomConfig new_URL n = validateAdvancedCustomConfig new_URL config.
Proof.
  intros Hc Hn Hp. exists (stringify 2 0 n).
  destruct (normal_config config n Hn) as (ns & -> & Hns). pose proof (normal_config_of ns Hns) as Hid.
  unfold stringifyAdvancedCustomConfig. rewrite Hn, Hid. split; [done|]. split; [by apply parse_text|split; [done|]].
  intros new_URL. unfold validateAdvancedCustomConfig. by rewrite Hc, Hn, Hid.
Qed.

Lemma config_text_round_trip_witness :
  exists text, stringifyAdvancedCustomConfig createAdvancedCustomConfig = Returns text
    /\ parseAdvancedCustomConfig (Some text) = Some createAdvancedCustomConfig
    /\ stringifyAdvancedCustomConfig createAdvancedCustomConfig = Returns text
    /\ forall new_URL, validateAdvancedCustomConfig new_URL createAdvancedCustomConfig
                       = validateAdvancedCustomConfig new_URL createAdvancedCustomConfig.
Proof.
  exact (config_text_round_trip createAdvancedCustomConfig createAdvancedCustomConfig
           ltac:(vm_compute; reflexivity) ltac:(vm_compute; reflexivity) ltac:(vm_compute; reflexivity)).
Defined.
