(* ===== verification/RouteEditor.v ===== *)
(** * The editor of advanced custom routes

    Model of the state of
    src/web/default/src/features/channels/components/dialogs/advanced-custom-editor-dialog.tsx:
    the dialog keeps the configuration, a React key per row, the text of the
    JSON mode and its error; its handlers are the transitions.  [t] is the
    translation function and [new_URL] the URL constructor. *)

From S2P Require Import Prelude JsStr JsNum JsArray JsJson JsPrint AdvancedCustom AdvancedProps.
Local Open Scope js_scope.

Inductive AdvancedCustomEditMode := visual | json_text.

Record Editor := mkEditor {
  ed_config : json;
  routeKeys : list jsstr;
  editMode : AdvancedCustomEditMode;
  jsonText : jsstr;
  jsonError : jsstr;
  templateKey : jsstr;
  routeKeyCounter : Z;
  ed_saved : list jsstr;   (* the texts handed to onSave, the last one first *)
  ed_open : bool
}.

Definition set_config (c : json) (st : Editor) : Editor :=
  mkEditor c (routeKeys st) (editMode st) (jsonText st) (jsonError st) (templateKey st)
    (routeKeyCounter st) (ed_saved st) (ed_open st).
Definition set_keys (ks : list jsstr) (n : Z) (st : Editor) : Editor :=
  mkEditor (ed_config st) ks (editMode st) (jsonText st) (jsonError st) (templateKey st)
    n (ed_saved st) (ed_open st).
Definition set_mode (m : AdvancedCustomEditMode) (st : Editor) : Editor :=
  mkEditor (ed_config st) (routeKeys st) m (jsonText st) (jsonError st) (templateKey st)
    (routeKeyCounter st) (ed_saved st) (ed_open st).
Definition set_text (s : jsstr) (st : Editor) : Editor :=
  mkEditor (ed_config st) (routeKeys st) (editMode st) s (jsonError st) (templateKey st)
    (routeKeyCounter st) (ed_saved st) (ed_open st).
Definition set_error (s : jsstr) (st : Editor) : Editor :=
  mkEditor (ed_config st) (routeKeys st) (editMode st) (jsonText st) s (templateKey st)
    (routeKeyCounter st) (ed_saved st) (ed_open st).
Definition set_template (s : jsstr) (st : Editor) : Editor :=
  mkEditor (ed_config st) (routeKeys st) (editMode st) (jsonText st) (jsonError st) s
    (routeKeyCounter st) (ed_saved st) (ed_open st).
Definition save_and_close (s : jsstr) (st : Editor) : Editor :=
  mkEditor (ed_config st) (routeKeys st) (editMode st) (jsonText st) (jsonError st) (templateKey st)
    (routeKeyCounter st) (s :: ed_saved st) false.

(** ** Row keys *)

Definition initial_key (i : nat) : jsstr := js "advanced-custom-route-initial-" ++ digits_of (Z.of_nat i).
Definition route_key (n : Z) : jsstr := js "advanced-custom-route-" ++ digits_of n.

Definition createRouteKey (st : Editor) : jsstr * Z :=
  (route_key (routeKeyCounter st + 1), routeKeyCounter st + 1)%Z.

Definition createRouteKeys (count : nat) (st : Editor) : list jsstr * Z :=
  (map (fun i => route_key (routeKeyCounter st + 1 + Z.of_nat i)) (seq 0 count),
   routeKeyCounter st + Z.of_nat count)%Z.

(** ** Mounting and rendering *)

Definition initial_config (value : jsstr) : json :=
  match parseAdvancedCustomConfig (Some value) with Some c => c | None => createAdvancedCustomConfig end.

Definition mount (value : jsstr) : outcome Editor :=
  let config := initial_config value in
  let! normalized := normalizeAdvancedCustomConfig config in
  let! text := stringifyAdvancedCustomConfig config in
  Returns (mkEditor config (imap (fun i _ => initial_key i) (routes_of normalized)) visual
             text [] (tpl_value first_template) 0 [] true).

(** The handlers of a row, as the patch they hand to [onChange]. *)
Definition Patch := list (jsstr * option json).

Definition route_converter (route : json) : json :=
  or_else (jfield (js "converter") route) (JStr (js "none")).

(** The path a row shows; the row's list of converters trims it, which throws
    when it is not a string. *)
Definition route_incoming_path (route : json) : outcome jsstr :=
  match or_else (jfield (js "incoming_path") route)
          (JStr (getDefaultAdvancedCustomIncomingPath (route_converter route))) with
  | JStr s => Returns s
  | _ => Throws (js "TypeError")
  end.

Definition setConverter (route : json) (nextConverter : jsstr) : outcome Patch :=
  let! incomingPath := route_incoming_path route in
  Returns ([(js "converter", Some (JStr nextConverter))]
           ++ if negb (isAdvancedCustomIncomingPathAllowed incomingPath (JStr nextConverter))
              then [(js "incoming_path", Some (JStr (getDefaultAdvancedCustomIncomingPath (JStr nextConverter))))]
              else []).

Definition setIncomingPath (route : json) (nextIncomingPath : jsstr) : Patch :=
  let resolvedIncomingPath :=
    str_or nextIncomingPath (getDefaultAdvancedCustomIncomingPath (route_converter route)) in
  [(js "incoming_path", Some (JStr resolvedIncomingPath))]
  ++ if negb (isAdvancedCustomIncomingPathAllowed resolvedIncomingPath (route_converter route))
     then [(js "converter", Some (JStr (js "none")))] else [].

Definition setAuthMode (route : json) (mode : jsstr) : Patch :=
  [(js "auth", buildAdvancedCustomAuth mode (jfield (js "auth") route))].

Inductive AuthField := auth_name | auth_value.

(** No patch when the route has no credentials. *)
Definition updateAuth (route : json) (field : AuthField) (value : jsstr) : option Patch :=
  match jfield (js "auth") route with
  | None => None
  | Some a =>
      if negb (json_truthy a) || is_str (jfield (js "type") a) (js "none") then None
      else
        let name := or_else (jfield (js "name") a) (JStr []) in
        let val := or_else (jfield (js "value") a) (JStr []) in
        Some [(js "auth",
               Some (JObj (opt_member (js "type") (jfield (js "type") a)
                     ++ match field with
                        | auth_name => [(js "name", JStr value); (js "value", val)]
                        | auth_value => [(js "name", name); (js "value", JStr value)]
                        end)))]
  end.

Section Dialog.
  Variable new_URL : jsstr -> option (jsstr * jsstr).
  Variable t : jsstr -> jsstr.

(** What a render computes: the normalised configuration and the error shown. *)
Definition render (st : Editor) : outcome (json * option AdvancedCustomValidationError) :=
  let! normalizedConfig := normalizeAdvancedCustomConfig (ed_config st) in
  let! validationError := validateAdvancedCustomConfig new_URL normalizedConfig in
  Returns (normalizedConfig, validationError).

(** ** Handlers *)

(** [{ ...route, ...patch }]. *)
Definition patch_member (l : list (jsstr * json)) (p : jsstr * option json) : list (jsstr * json) :=
  match p.2 with
  | Some v => obj_set p.1 v l
  | None => List.filter (fun q => negb (str_eqb q.1 p.1)) l
  end.

Definition spread (route : json) (patch : Patch) : json :=
  match route with JObj l => JObj (foldl patch_member l patch) | _ => route end.

(** Rows pass their own index, which is in range. *)
Definition updateRoute (index : nat) (patch : Patch) (st : Editor) : outcome Editor :=
  let! next := normalizeAdvancedCustomConfig (ed_config st) in
  Returns (set_config (config_of (alter (fun r => spread r patch) index (routes_of next))) st).

Definition addRoute (st : Editor) : outcome Editor :=
  let! next := normalizeAdvancedCustomConfig (ed_config st) in
  let '(k, n) := createRouteKey st in
  Returns (set_keys (routeKeys st ++ [k]) n
             (set_config (config_of (routes_of next ++ [createAdvancedCustomRoute])) st)).

Definition removeRoute (index : nat) (st : Editor) : outcome Editor :=
  let! next := normalizeAdvancedCustomConfig (ed_config st) in
  Returns (set_keys (delete index (routeKeys st)) (routeKeyCounter st)
             (set_config (config_of (delete index (routes_of next))) st)).

Definition parseJsonEditorConfig (st : Editor) : outcome (option json * Editor) :=
  match parseAdvancedCustomConfig (Some (jsonText st)) with
  | None => Returns (None, set_error (t (js "Invalid JSON")) st)
  | Some parsed =>
      let! error := validateAdvancedCustomConfig new_URL parsed in
      match error with
      | Some e => Returns (None, set_error (t (message e)) st)
      | None => Returns (Some parsed, set_error [] st)
      end
  end.

Definition switchToVisualMode (st : Editor) : outcome Editor :=
  let! r := parseJsonEditorConfig st in
  match r with
  | (None, st) => Returns st
  | (Some parsed, st) =>
      let! normalized := normalizeAdvancedCustomConfig parsed in
      let '(ks, n) := createRouteKeys (length (routes_of normalized)) st in
      Returns (set_mode visual (set_keys ks n (set_config normalized st)))
  end.

Definition switchToJsonMode (st : Editor) : outcome Editor :=
  let! normalizedConfig := normalizeAdvancedCustomConfig (ed_config st) in
  let! text := stringifyAdvancedCustomConfig normalizedConfig in
  Returns (set_mode json_text (set_error [] (set_text text st))).

Definition handleJsonChange (nextValue : jsstr) (st : Editor) : Editor :=
  let st := set_text nextValue st in
  if truthy (jsonError st) then set_error [] st else st.

Definition formatJson (st : Editor) : outcome Editor :=
  let! r := parseJsonEditorConfig st in
  match r with
  | (None, st) => Returns st
  | (Some parsed, st) => let! text := stringifyAdvancedCustomConfig parsed in Returns (set_text text st)
  end.

(** The end of [applyTemplate]. *)
Definition install (nextConfig : json) (st : Editor) : outcome Editor :=
  let! normalized := normalizeAdvancedCustomConfig nextConfig in
  let! text := stringifyAdvancedCustomConfig normalized in
  let '(ks, n) := createRouteKeys (length (routes_of normalized)) st in
  Returns (set_error [] (set_text text (set_keys ks n (set_config normalized st)))).

Definition fillTemplate (st : Editor) : outcome Editor :=
  let! templateConfig := getAdvancedCustomTemplateConfig (templateKey st) in
  install templateConfig st.

Definition appendTemplate (st : Editor) : outcome Editor :=
  let! templateConfig := getAdvancedCustomTemplateConfig (templateKey st) in
  let! r := match editMode st with
            | json_text => parseJsonEditorConfig st
            | visual => let! n := normalizeAdvancedCustomConfig (ed_config st) in Returns (Some n, st)
            end in
  match r with
  | (None, st) => Returns st
  | (Some baseConfig, st) =>
      let! base := normalizeAdvancedCustomConfig baseConfig in
      let! template := normalizeAdvancedCustomConfig templateConfig in
      install (config_of (routes_of base ++ routes_of template)) st
  end.

Definition selectTemplate (nextValue : jsstr) (st : Editor) : Editor :=
  set_template (str_or nextValue (tpl_value first_template)) st.

Definition saveConfig (st : Editor) : outcome Editor :=
  match editMode st with
  | json_text =>
      let! r := parseJsonEditorConfig st in
      match r with
      | (None, st) => Returns st
      | (Some parsed, st) =>
          let! text := stringifyAdvancedCustomConfig parsed in Returns (save_and_close text st)
      end
  | visual =>
      let! r := render st in
      match r with
      | (_, Some _) => Returns st
      | (normalizedConfig, None) =>
          let! text := stringifyAdvancedCustomConfig normalizedConfig in
          Returns (save_and_close text st)
      end
  end.

(** ** The dialog as a transition system *)

Inductive RowAction :=
| ChangeUpstream (s : jsstr)
| ChooseConverter (c : jsstr)
| ChooseIncomingPath (p : jsstr)
| ChooseAuthMode (m : jsstr)
| ChangeAuth (f : AuthField) (s : jsstr).

Definition row_patch (route : json) (a : RowAction) : outcome (option Patch) :=
  match a with
  | ChangeUpstream s => Returns (Some [(js "upstream_path", Some (JStr s))])
  | ChooseConverter c => let! p := setConverter route c in Returns (Some p)
  | ChooseIncomingPath p => Returns (Some (setIncomingPath route p))
  | ChooseAuthMode m => Returns (Some (setAuthMode route m))
  | ChangeAuth f s => Returns (updateAuth route f s)
  end.

Inductive Action :=
| Row (index : nat) (a : RowAction)
| AddRoute | RemoveRoute (index : nat)
| VisualButton | JsonButton
| JsonChange (s : jsstr) | FormatButton
| SelectTemplate (s : jsstr) | FillButton | AppendButton
| SaveButton.

(** A row handler acts on the route its row was rendered with. *)
Definition perform_row (index : nat) (a : RowAction) (st : Editor) : outcome Editor :=
  let! normalizedConfig := normalizeAdvancedCustomConfig (ed_config st) in
  match routes_of normalizedConfig !! index with
  | None => Returns st
  | Some route =>
      let! p := row_patch route a in
      match p with Some patch => updateRoute index patch st | None => Returns st end
  end.

Definition perform (a : Action) (st : Editor) : outcome Editor :=
  match a with
  | Row index a => perform_row index a st
  | AddRoute => addRoute st
  | RemoveRoute index => removeRoute index st
  | VisualButton => switchToVisualMode st
  | JsonButton => switchToJsonMode st
  | JsonChange s => Returns (handleJsonChange s st)
  | FormatButton => formatJson st
  | SelectTemplate s => Returns (selectTemplate s st)
  | FillButton => fillTemplate st
  | AppendButton => appendTemplate st
  | SaveButton => saveConfig st
  end.

(** The states of a dialog opened on [value]: a handler that throws leaves the
    state as it was. *)
Inductive reachable (value : jsstr) : Editor -> Prop :=
| opened st : mount value = Returns st -> reachable value st
| acted st a st' : reachable value st -> perform a st = Returns st' -> reachable value st'.

End Dialog.
