(* ===== verification/RouteEditorProps.v ===== *)
(** * The route editor: keys, rows and what is saved

    Invariants of the reachable states of the dialog, by induction on its
    transitions, and what the mode switches do to the configuration. *)

From S2P Require Import Prelude JsStr JsNum JsArray JsJson JsPrint AdvancedCustom AdvancedProps RouteEditor.
Local Open Scope js_scope.

(** ** Row keys are distinct *)

Lemma digits_fuel_digit f z : (0 <= z)%Z -> forallb is_digit (digits_fuel f z []) = true.
Proof.
  revert z. induction f as [|f IH]; intros z Hz; [done|]. cbn [digits_fuel].
  pose proof (Z.mod_pos_bound z 10 ltac:(lia)) as Hm.
  assert (is_digit (Z.to_N (z mod 10 + 48)) = true) as Hd.
  { unfold is_digit. apply andb_true_iff. split; apply N.leb_le; lia. }
  destruct (z <? 10)%Z; cbn [forallb]; [by rewrite Hd|].
  rewrite digits_fuel_acc, forallb_app, IH by (apply Z.div_pos; lia). cbn [forallb]. by rewrite Hd.
Qed.

Lemma keys_differ i n : (0 <= n)%Z -> initial_key i <> route_key n.
Proof.
  intros Hn H. unfold initial_key, route_key in H.
  change (js "advanced-custom-route-initial-") with (js "advanced-custom-route-" ++ js "initial-") in H.
  rewrite <- app_assoc in H. apply app_inv_head in H.
  pose proof (digits_fuel_digit (S (Z.to_nat (Z.log2 n))) n Hn) as Hd.
  fold (digits_of n) in Hd. rewrite <- H in Hd. done.
Qed.

Lemma route_key_inj a b : (0 <= a)%Z -> (0 <= b)%Z -> route_key a = route_key b -> a = b.
Proof. intros Ha Hb H. apply app_inv_head in H. by apply digits_of_inj. Qed.

#[global] Instance initial_key_inj : Inj (=) (=) initial_key.
Proof. intros a b H. apply app_inv_head, digits_of_inj in H; lia. Qed.

Lemma imap_index {A B} (f : nat -> B) (l : list A) : imap (fun i _ => f i) l = f <$> seq 0 (length l).
Proof.
  revert f. induction l as [|x l IH]; intros f; [done|]. rewrite imap_cons. cbn [length seq].
  rewrite fmap_cons, <- (fmap_S_seq 0), <- list_fmap_compose. f_equal. apply (IH (f ∘ S)).
Qed.

(** A key handed out so far. *)
Definition known_key (counter : Z) (k : jsstr) : Prop :=
  (exists i, k = initial_key i) \/ (exists n, (1 <= n <= counter)%Z /\ k = route_key n).

Lemma known_key_mono c c' k : (c <= c')%Z -> known_key c k -> known_key c' k.
Proof. intros Hc [?|(n & Hn & ->)]; [by left|right]. exists n. split; [lia|done]. Qed.

(** The keys of the rows: one per row, distinct, all handed out. *)
Record keys_ok (rows : nat) (counter : Z) (ks : list jsstr) : Prop := {
  keys_counter : (0 <= counter)%Z;
  keys_length : length ks = rows;
  keys_distinct : NoDup ks;
  keys_known : Forall (known_key counter) ks
}.

Lemma mount_keys {A} (l : list A) : keys_ok (length l) 0 (imap (fun i _ => initial_key i) l).
Proof.
  rewrite imap_index. split; [lia|by rewrite length_fmap, length_seq| |].
  - apply NoDup_fmap_2; [apply _|apply NoDup_seq].
  - apply Forall_fmap, Forall_forall. intros i _. left. by exists i.
Qed.

Lemma created_keys n st :
  (0 <= routeKeyCounter st)%Z ->
  keys_ok n (createRouteKeys n st).2 (createRouteKeys n st).1.
Proof.
  intros Hc. cbn [createRouteKeys fst snd]. split; [lia|by rewrite length_map, length_seq| |].
  - apply NoDup_fmap_2_strong; [|apply NoDup_seq]. intros x y _ _ H. apply route_key_inj in H; lia.
  - apply Forall_fmap, Forall_forall. intros i Hi. apply elem_of_seq in Hi.
    right. eexists. split; [|reflexivity]. lia.
Qed.

Lemma added_key rows c ks : keys_ok rows c ks -> keys_ok (S rows) (c + 1) (ks ++ [route_key (c + 1)]).
Proof.
  intros [Hc Hl Hd Hk]. split; [lia|rewrite length_app; cbn; lia| |].
  - apply NoDup_app. split; [done|]. split; [|apply NoDup_singleton].
    intros k Hin ->%list_elem_of_singleton. rewrite Forall_forall in Hk.
    destruct (Hk _ Hin) as [(i & Hi)|(n & Hn & Hi)]; symmetry in Hi.
    + by apply keys_differ in Hi; [|lia].
    + apply route_key_inj in Hi; lia.
  - apply Forall_app. split.
    + eapply Forall_impl; [done|]. intros k. apply known_key_mono. lia.
    + constructor; [|constructor]. right. eexists. split; [|reflexivity]. lia.
Qed.

Lemma removed_key rows c ks i :
  i < rows -> keys_ok rows c ks -> keys_ok (rows - 1) c (delete i ks).
Proof.
  intros Hi [Hc Hl Hd Hk]. split; [lia| | |].
  - rewrite length_delete; [lia|]. apply lookup_lt_is_Some. lia.
  - by eapply sublist_NoDup; [|apply sublist_delete].
  - by apply Forall_delete.
Qed.

(** ** Rows stay routes *)

(** A route object whose upstream path is a string: it can be normalised. *)
Definition editable (r : json) : Prop :=
  exists l s, r = JObj l /\ jfield (js "upstream_path") r = Some (JStr s).

Lemma editable_normalizes r : editable r -> exists n, normalizeAdvancedCustomRoute r = Returns n.
Proof.
  intros (l & s & -> & Hs). unfold normalizeAdvancedCustomRoute, getAdvancedCustomRouteUpstreamPath.
  cbn [get obind]. rewrite Hs. unfold or_else at 2. destruct s; by eexists.
Qed.

Lemma normalized_editable r n : normalizeAdvancedCustomRoute r = Returns n -> editable n.
Proof.
  unfold normalizeAdvancedCustomRoute. rewrite obind_returns. intros (i & _ & H).
  rewrite obind_returns in H. destruct H as (u & _ & H).
  rewrite obind_returns in H. destruct H as (c & _ & H).
  rewrite obind_returns in H. destruct H as (a & _ & [= <-]). by eexists _, _.
Qed.

(** A patch that only sets the upstream path to strings. *)
Definition patch_ok (p : Patch) : Prop :=
  Forall (fun m => m.1 = js "upstream_path" -> exists s, m.2 = Some (JStr s)) p.

Lemma spread_editable r p : editable r -> patch_ok p -> editable (spread r p).
Proof.
  intros (l & s & -> & Hs) Hp. cbn [spread]. revert l s Hs.
  induction Hp as [|[k v] p Hk _ IH]; intros l s Hs; [by eexists _, _|]. cbn [foldl].
  assert (exists s', jfield (js "upstream_path") (JObj (patch_member l (k, v))) = Some (JStr s')) as [s' Hs'].
  { unfold patch_member. cbn [fst snd] in *. destruct (str_eqb k (js "upstream_path")) eqn:E.
    - destruct (Hk (proj1 (str_eqb_eq _ _) E)) as [s' ->]. rewrite jfield_set, E. by eexists.
    - destruct v as [v|]; [rewrite jfield_set, E|rewrite jfield_unset by done]; by eexists. }
  by apply (IH _ s').
Qed.

Ltac patch_keys := repeat (constructor; [first [by eauto|by intros ?]|]); constructor.

Lemma row_patch_ok route a p : row_patch route a = Returns (Some p) -> patch_ok p.
Proof.
  unfold patch_ok. destruct a as [s|c|q|m|f s]; cbn [row_patch].
  - intros [= <-]. patch_keys.
  - unfold setConverter. rewrite obind_returns. intros (p' & H & [= <-]).
    rewrite obind_returns in H. destruct H as (ip & _ & [= <-]).
    cbn [app]. destruct (negb _); patch_keys.
  - unfold setIncomingPath. intros [= <-]. cbn [app]. destruct (negb _); patch_keys.
  - intros [= <-]. patch_keys.
  - unfold updateAuth. destruct (jfield _ route) as [a|]; [|done].
    destruct (_ || _); [done|]. intros [= <-]. patch_keys.
Qed.

Lemma editable_all rs :
  Forall editable rs -> exists ns, omap_all normalizeAdvancedCustomRoute rs = Returns ns
                        /\ length ns = length rs /\ Forall editable ns.
Proof.
  induction 1 as [|r rs Hr _ (ns & IH & Hl & He)]; [by eexists|]. cbn [omap_all].
  destruct (editable_normalizes r Hr) as [n Hn]. rewrite Hn, IH. cbn [obind].
  eexists. split; [done|]. cbn [length]. split; [lia|]. constructor; [|done].
  by apply normalized_editable in Hn.
Qed.

Lemma normal_editable ns :
  omap_all normalizeAdvancedCustomRoute ns = Returns ns -> Forall editable ns.
Proof.
  assert (forall rs ns, omap_all normalizeAdvancedCustomRoute rs = Returns ns -> Forall editable ns) as H; [|apply H].
  clear. induction rs as [|r rs IH]; intros ns; cbn [omap_all]; [by intros [= <-]|].
  rewrite obind_returns. intros (n & Hn & H). rewrite obind_returns in H.
  destruct H as (ns' & Hns & [= <-]). constructor; [by apply normalized_editable in Hn|by apply IH].
Qed.

(** The configuration of the editor is a list of routes. *)
Definition rows_config (c : json) : Prop := exists rs, c = config_of rs /\ Forall editable rs.

Lemma rows_normalize c :
  rows_config c ->
  exists ns, normalizeAdvancedCustomConfig c = Returns (config_of ns)
          /\ length ns = length (routes_of c) /\ Forall editable ns
          /\ omap_all normalizeAdvancedCustomRoute ns = Returns ns.
Proof.
  intros (rs & -> & Hrs). destruct (editable_all rs Hrs) as (ns & Hns & Hl & He). exists ns.
  unfold normalizeAdvancedCustomConfig. cbn [get config_of obind].
  change (jfield (js "advanced_routes") _) with (Some (JArr rs)). cbn iota. rewrite Hns.
  split; [done|]. split; [done|]. split; [done|]. by apply normal_routes_text in Hns.
Qed.

Lemma normal_rows c n : normalizeAdvancedCustomConfig c = Returns n -> rows_config n.
Proof.
  intros (ns & -> & Hns)%normal_config. exists ns. split; [done|]. by apply normal_editable.
Qed.

Lemma parsed_normal s c : parseAdvancedCustomConfig s = Some c -> normalizeAdvancedCustomConfig c = Returns c.
Proof.
  unfold parseAdvancedCustomConfig. destruct s as [s|]; [|done]. destruct (negb _); [done|].
  destruct (parse s) as [[| | | | |l]|]; try done.
  destruct (normalizeAdvancedCustomConfig (JObj l)) as [n|] eqn:E; [|done]. intros [= <-].
  destruct (normal_config _ _ E) as (ns & -> & Hns). by apply normal_config_of.
Qed.

Section Reachable.
  Variable new_URL : jsstr -> option (jsstr * jsstr).
  Variable t : jsstr -> jsstr.

(** ** The invariant *)

(** A text that is the JSON of a well-formed configuration. *)
Definition saved_ok (text : jsstr) : Prop :=
  exists n, text = stringify 2 0 n /\ config_ok new_URL n
         /\ (printable n = true -> parseAdvancedCustomConfig (Some text) = Some n).

Record editor_inv (st : Editor) : Prop := {
  inv_rows : rows_config (ed_config st);
  inv_keys : keys_ok (length (routes_of (ed_config st))) (routeKeyCounter st) (routeKeys st);
  inv_saved : Forall saved_ok (ed_saved st)
}.

Lemma normal_saved n :
  normalizeAdvancedCustomConfig n = Returns n -> validateAdvancedCustomConfig new_URL n = Returns None ->
  saved_ok (stringify 2 0 n).
Proof.
  intros Hn Hv. pose proof Hv as Hok. apply validator_exact in Hok. exists n. split; [done|]. split; [done|].
  by apply parse_text.
Qed.

(** [parseJsonEditorConfig] only touches the error. *)
Lemma parse_editor st r st' :
  parseJsonEditorConfig new_URL t st = Returns (r, st') ->
  (exists e, st' = set_error e st)
  /\ forall c, r = Some c -> normalizeAdvancedCustomConfig c = Returns c
                     /\ validateAdvancedCustomConfig new_URL c = Returns None
                     /\ parseAdvancedCustomConfig (Some (jsonText st)) = Some c.
Proof.
  unfold parseJsonEditorConfig.
  destruct (parseAdvancedCustomConfig (Some (jsonText st))) as [c|] eqn:Ep.
  - rewrite obind_returns. intros ([e|] & Hv & [= <- <-]); (split; [by eexists|]); [done|].
    intros c' [= <-]. split; [by eapply parsed_normal|done].
  - intros [= <- <-]. split; [by eexists|done].
Qed.

Lemma error_inv e st : editor_inv st -> editor_inv (set_error e st).
Proof. by intros [? ? ?]. Qed.

Lemma text_inv s st : editor_inv st -> editor_inv (set_text s st).
Proof. by intros [? ? ?]. Qed.

(** A new configuration with a new key per row. *)
Lemma replaced_inv n ks c st :
  editor_inv st -> rows_config n -> createRouteKeys (length (routes_of n)) st = (ks, c) ->
  editor_inv (set_keys ks c (set_config n st)).
Proof.
  intros [Hr Hk Hs] Hn Hc. pose proof (created_keys (length (routes_of n)) st (keys_counter _ _ _ Hk)) as H.
  rewrite Hc in H. by split.
Qed.

Lemma install_inv c st st' : editor_inv st -> install c st = Returns st' -> editor_inv st'.
Proof.
  intros Hst. unfold install. rewrite obind_returns. intros (n & Hn & H).
  rewrite obind_returns in H. destruct H as (text & _ & H).
  destruct (createRouteKeys _ _) as [ks k] eqn:Ek. injection H as <-.
  apply error_inv, text_inv. eapply replaced_inv; [done|by eapply normal_rows|done].
Qed.

Lemma saved_inv n text st :
  editor_inv st -> normalizeAdvancedCustomConfig n = Returns n ->
  validateAdvancedCustomConfig new_URL n = Returns None ->
  stringifyAdvancedCustomConfig n = Returns text -> editor_inv (save_and_close text st).
Proof.
  intros [Hr Hk Hs] Hn Hv. unfold stringifyAdvancedCustomConfig. rewrite Hn. intros [= <-].
  split; [done|done|]. constructor; [|done]. by apply normal_saved.
Qed.

Lemma update_inv i p st st' :
  editor_inv st -> patch_ok p -> updateRoute i p st = Returns st' -> editor_inv st'.
Proof.
  intros [Hr Hk Hs] Hp. unfold updateRoute. rewrite obind_returns. intros (n & Hn & [= <-]).
  destruct (rows_normalize _ Hr) as (ns & Hns & Hl & He & _). rewrite Hn in Hns. injection Hns as ->.
  cbn [set_config]. rewrite routes_of_config. split; cbn.
  - eexists. split; [reflexivity|]. apply Forall_alter; [done|]. intros r Hri Hrr. by apply spread_editable.
  - change (routes_of _) with (alter (fun r => spread r p) i ns). by rewrite length_alter, Hl.
  - done.
Qed.

Lemma delete_length_ge {A} i (l : list A) : length l <= i -> delete i l = l.
Proof. revert i. induction l as [|x l IH]; intros [|i] H; cbn in *; try done; [lia|]. f_equal. apply IH. lia. Qed.

Lemma remove_inv i st st' : editor_inv st -> removeRoute i st = Returns st' -> editor_inv st'.
Proof.
  intros [Hr Hk Hs]. unfold removeRoute. rewrite obind_returns. intros (n & Hn & [= <-]).
  destruct (rows_normalize _ Hr) as (ns & Hns & Hl & He & _). rewrite Hn in Hns. injection Hns as ->.
  rewrite routes_of_config. split; cbn [ed_config routeKeys routeKeyCounter ed_saved set_keys set_config]; [|rewrite routes_of_config|done].
  - eexists. split; [reflexivity|]. by apply Forall_delete.
  - rewrite <- Hl in Hk. destruct (decide (i < length ns)) as [Hi|Hi].
    + rewrite length_delete by (by apply lookup_lt_is_Some). by apply removed_key.
    + rewrite (delete_length_ge i ns) by lia.
      rewrite delete_length_ge by (rewrite (keys_length _ _ _ Hk); lia). done.
Qed.

Lemma add_inv st st' : editor_inv st -> addRoute st = Returns st' -> editor_inv st'.
Proof.
  intros [Hr Hk Hs]. unfold addRoute. rewrite obind_returns. intros (n & Hn & [= <-]).
  destruct (rows_normalize _ Hr) as (ns & Hns & Hl & He & _). rewrite Hn in Hns. injection Hns as ->.
  rewrite routes_of_config. split; cbn [ed_config routeKeys routeKeyCounter ed_saved set_keys set_config]; [|rewrite routes_of_config|done].
  - eexists. split; [reflexivity|]. apply Forall_app. split; [done|]. constructor; [|constructor]. by eexists _, _.
  - rewrite length_app, Nat.add_1_r, Hl. by apply added_key.
Qed.

Lemma visual_inv st st' : editor_inv st -> switchToVisualMode new_URL t st = Returns st' -> editor_inv st'.
Proof.
  intros Hst. unfold switchToVisualMode. rewrite obind_returns. intros ([[c|] st1] & Hp & H);
    apply parse_editor in Hp as ([e ->] & Hc); [|injection H as <-; by apply error_inv].
  rewrite obind_returns in H. destruct H as (n & Hn & H).
  destruct (createRouteKeys _ _) as [ks k] eqn:Ek. injection H as <-.
  assert (editor_inv (set_keys ks k (set_config n (set_error e st)))) as [? ? ?]; [|done].
  eapply replaced_inv; [by apply error_inv|by eapply normal_rows|done].
Qed.

Lemma save_inv st st' : editor_inv st -> saveConfig new_URL t st = Returns st' -> editor_inv st'.
Proof.
  intros Hst. unfold saveConfig. destruct (editMode st).
  - rewrite obind_returns. intros ([n [e|]] & Hr & H); [by injection H as <-|].
    rewrite obind_returns in H. destruct H as (text & Ht & [= <-]).
    unfold render in Hr. rewrite obind_returns in Hr. destruct Hr as (n' & Hn & Hr).
    rewrite obind_returns in Hr. destruct Hr as (e & Hv & [= <- ->]).
    destruct (normal_config _ _ Hn) as (ns & -> & Hns). eapply saved_inv; try done. by apply normal_config_of.
  - rewrite obind_returns. intros ([[c|] st1] & Hp & H);
      apply parse_editor in Hp as ([e ->] & Hc); [|injection H as <-; by apply error_inv].
    rewrite obind_returns in H. destruct H as (text & Ht & [= <-]).
    destruct (Hc c eq_refl) as (Hn & Hv & _). eapply saved_inv; try done. by apply error_inv.
Qed.

Lemma format_inv st st' : editor_inv st -> formatJson new_URL t st = Returns st' -> editor_inv st'.
Proof.
  intros Hst. unfold formatJson. rewrite obind_returns. intros ([[c|] st1] & Hp & H);
    apply parse_editor in Hp as ([e ->] & Hc); [|injection H as <-; by apply error_inv].
  rewrite obind_returns in H. destruct H as (text & Ht & [= <-]). by apply text_inv, error_inv.
Qed.

Lemma append_inv st st' : editor_inv st -> appendTemplate new_URL t st = Returns st' -> editor_inv st'.
Proof.
  intros Hst. unfold appendTemplate. rewrite obind_returns. intros (tc & _ & H).
  rewrite obind_returns in H. destruct H as ([r st1] & Hr & H).
  assert (editor_inv st1) as Hst1.
  { destruct (editMode st).
    - rewrite obind_returns in Hr. by destruct Hr as (n & _ & [= <- <-]).
    - apply parse_editor in Hr as ([e ->] & _). by apply error_inv. }
  destruct r as [c|]; [|by injection H as <-].
  rewrite obind_returns in H. destruct H as (b & _ & H). rewrite obind_returns in H.
  destruct H as (tn & _ & H). by eapply install_inv.
Qed.

Lemma row_inv i a st st' : editor_inv st -> perform_row i a st = Returns st' -> editor_inv st'.
Proof.
  intros Hst. unfold perform_row. rewrite obind_returns. intros (n & _ & H).
  destruct (routes_of n !! i) as [r|]; [|by injection H as <-].
  rewrite obind_returns in H. destruct H as ([p|] & Hp & H); [|by injection H as <-].
  eapply update_inv; [done|by eapply row_patch_ok|done].
Qed.

Lemma perform_inv a st st' : editor_inv st -> perform new_URL t a st = Returns st' -> editor_inv st'.
Proof.
  intros Hst. destruct a as [i a| |i| | |s| |s| | |]; cbn [perform].
  - by apply row_inv.
  - by apply add_inv.
  - by apply remove_inv.
  - by apply visual_inv.
  - unfold switchToJsonMode. rewrite obind_returns. intros (n & _ & H).
    rewrite obind_returns in H. destruct H as (text & _ & [= <-]). by destruct Hst.
  - intros [= <-]. unfold handleJsonChange. destruct (truthy _); [apply error_inv|]; by apply text_inv.
  - by apply format_inv.
  - intros [= <-]. by destruct Hst.
  - unfold fillTemplate. rewrite obind_returns. intros (c & _ & H). by eapply install_inv.
  - by apply append_inv.
  - by apply save_inv.
Qed.

Lemma mount_inv value st : mount value = Returns st -> editor_inv st.
Proof.
  unfold mount. rewrite obind_returns. intros (n & Hn & H). rewrite obind_returns in H.
  destruct H as (text & _ & [= <-]).
  assert (normalizeAdvancedCustomConfig (initial_config value) = Returns (initial_config value)) as Hi.
  { unfold initial_config. destruct (parseAdvancedCustomConfig _) eqn:E; [by eapply parsed_normal|done]. }
  rewrite Hi in Hn. injection Hn as <-. split; [by eapply normal_rows|apply mount_keys|constructor].
Qed.

Lemma reachable_inv value st : reachable new_URL t value st -> editor_inv st.
Proof. induction 1; [by eapply mount_inv|by eapply perform_inv]. Qed.

(** ** Properties of the dialog *)

(** In every state the dialog can reach its configuration is normalised
    without an exception, it has exactly one React key per row, and no two
    rows share a key. *)
Theorem rows_have_their_keys value st :
  reachable new_URL t value st ->
  exists n, normalizeAdvancedCustomConfig (ed_config st) = Returns n
    /\ length (routeKeys st) = length (routes_of n) /\ NoDup (routeKeys st).
Proof.
  intros [Hr Hk _]%reachable_inv. destruct (rows_normalize _ Hr) as (ns & Hn & Hl & _ & _).
  exists (config_of ns). split; [done|]. rewrite routes_of_config, Hl. split; apply Hk.
Qed.

(** C11: whatever the operator does in the dialog, in either mode, every text
    it hands to [onSave] is the JSON of a well-formed configuration, and the
    text is read back as that configuration. *)
Theorem saved_configurations_valid value st text :
  reachable new_URL t value st -> In text (ed_saved st) -> saved_ok text.
Proof. intros [_ _ Hs]%reachable_inv. rewrite List.Forall_forall in Hs. apply Hs. Qed.

(** Switching a valid configuration to the JSON mode and back keeps it:
    the switch back succeeds and leaves the normalised configuration in the
    visual mode without an error. *)
Theorem mode_switch_keeps_config st n :
  render new_URL st = Returns (n, None) -> printable n = true ->
  exists st1 st2, perform new_URL t JsonButton st = Returns st1
    /\ perform new_URL t VisualButton st1 = Returns st2
    /\ ed_config st2 = n /\ editMode st2 = visual /\ jsonError st2 = [].
Proof.
  intros Hr Hp. unfold render in Hr. rewrite obind_returns in Hr. destruct Hr as (n' & Hn & Hr).
  rewrite obind_returns in Hr. destruct Hr as (e & Hv & [= -> ->]).
  destruct (normal_config _ _ Hn) as (ns & -> & Hns). pose proof (normal_config_of ns Hns) as Hid.
  cbn [perform]. unfold switchToJsonMode, stringifyAdvancedCustomConfig. rewrite Hn. cbn [obind].
  rewrite Hid. cbn [obind]. eexists _, _. split; [reflexivity|].
  unfold switchToVisualMode, parseJsonEditorConfig. cbn [jsonText set_mode set_error set_text].
  rewrite (parse_text _ Hid Hp).
  rewrite Hv. cbn [obind]. rewrite Hid. cbn [obind]. by split.
Qed.

(** The "Visual" button pressed while the dialog is in the visual mode
    reads the text of the last visit to the JSON mode, or of the mount, and
    replaces the edits made since: from the default configuration, an edit of
    the upstream path is gone after it. *)
Theorem visual_button_drops_edits s :
  exists st st1 st2, mount [] = Returns st
    /\ perform new_URL t (Row 0 (ChangeUpstream s)) st = Returns st1
    /\ perform new_URL t VisualButton st1 = Returns st2
    /\ map (jfield (js "upstream_path")) (routes_of (ed_config st1)) = [Some (JStr s)]
    /\ map (jfield (js "upstream_path")) (routes_of (ed_config st2)) = [Some (JStr (js "/v1/chat/completions"))].
Proof.
  eexists _, _, _. split; [vm_compute; reflexivity|]. split; [vm_compute; reflexivity|].
  split; [vm_compute; reflexivity|]. split; reflexivity.
Qed.

End Reachable.

(** A URL constructor that accepts nothing. *)
Definition no_URL (s : jsstr) : option (jsstr * jsstr) := None.

(** The dialog opened on no text, a route added and removed, and saved. *)
Definition demo (acts : list Action) : Editor :=
  match mount [] with
  | Returns st => foldl (fun st a => match perform no_URL id a st with Returns st' => st' | Throws _ => st end) st acts
  | Throws _ => mkEditor JNull [] visual [] [] [] 0 [] false
  end.

Lemma demo_reachable acts : reachable no_URL id [] (demo acts).
Proof.
  unfold demo. destruct (mount []) as [st|] eqn:E; [|vm_compute in E; discriminate].
  assert (reachable no_URL id [] st) as H by (by apply opened). clear E. revert st H.
  induction acts as [|a acts IH]; intros st H; [done|]. cbn [foldl]. apply IH.
  destruct (perform no_URL id a st) eqn:E; [by eapply acted|done].
Qed.

Lemma rows_have_their_keys_witness :
  reachable no_URL id [] (demo [AddRoute; RemoveRoute 0; AddRoute])
  /\ exists n, normalizeAdvancedCustomConfig (ed_config (demo [AddRoute; RemoveRoute 0; AddRoute])) = Returns n
    /\ length (routeKeys (demo [AddRoute; RemoveRoute 0; AddRoute])) = length (routes_of n)
    /\ NoDup (routeKeys (demo [AddRoute; RemoveRoute 0; AddRoute])).
Proof.
  split; [apply demo_reachable|].
  apply (rows_have_their_keys no_URL id []). apply demo_reachable.
Defined.

Lemma saved_configurations_valid_witness :
  exists text, ed_saved (demo [JsonButton; SaveButton]) = [text] /\ saved_ok no_URL text.
Proof.
  eexists. split; [vm_compute; reflexivity|].
  apply (saved_configurations_valid no_URL id [] (demo [JsonButton; SaveButton]));
    [apply demo_reachable|vm_compute; by left].
Defined.

Lemma mode_switch_keeps_config_witness :
  exists st1 st2, perform no_URL id JsonButton (demo []) = Returns st1
    /\ perform no_URL id VisualButton st1 = Returns st2
    /\ ed_config st2 = createAdvancedCustomConfig /\ editMode st2 = visual /\ jsonError st2 = [].
Proof. apply (mode_switch_keeps_config no_URL id); vm_compute; reflexivity. Defined.

(** ** What the rows and the templates offer *)

(** Trimming keeps a word that neither starts nor ends with a blank. *)
Lemma trim_around a w b c d m :
  w = c :: m -> is_space c = false -> (exists m', w = m' ++ [d]) -> is_space d = false ->
  exists a' b', trim (a ++ w ++ b) = a' ++ w ++ b'.
Proof.
  intros Hw Hc (m' & Hw') Hd.
  assert (exists a', trimStart (a ++ w ++ b) = a' ++ w ++ b) as [a' Ha].
  { unfold trimStart. induction a as [|x a IH]; cbn [app dropb].
    - exists []. rewrite Hw. cbn [app dropb]. by rewrite Hc.
    - destruct (is_space x); [apply IH|]. by exists (x :: a). }
  unfold trim. rewrite Ha. unfold trimEnd.
  assert (exists b', dropb is_space (rev (a' ++ w ++ b)) = b' ++ rev w ++ rev a') as [b' Hb].
  { rewrite !rev_app_distr, <- app_assoc. generalize (rev b) as l. induction l as [|x l IH]; cbn [app dropb].
    - exists []. cbn [app]. rewrite Hw', rev_app_distr. cbn [rev app dropb]. by rewrite Hd.
    - destruct (is_space x); [apply IH|]. by exists (x :: l). }
  rewrite Hb, !rev_app_distr, !rev_involutive, <- app_assoc. by eexists _, _.
Qed.

Lemma allowed_trim p c : converter_accepts c p -> converter_accepts c (trim p).
Proof.
  intros H. destruct H as [p| | | | | |a b|a b]; try (vm_compute; constructor).
  - edestruct (trim_around a (js ":generateContent") b) as (a' & b' & ->);
      [reflexivity|reflexivity|by exists (js ":generateConten")|reflexivity|constructor].
  - edestruct (trim_around a (js ":streamGenerateContent") b) as (a' & b' & ->);
      [reflexivity|reflexivity|by exists (js ":streamGenerateConten")|reflexivity|constructor].
Qed.

(** The converter and the path of a route, as the validator reads them. *)
Definition row_compatible (r : json) : Prop :=
  exists c p, route_converter r = JStr c /\ jfield (js "incoming_path") r = Some (JStr p)
           /\ converter_accepts c (trim p).

(** The default path of every registered converter is one it handles. *)
Lemma default_path_accepted c :
  In c (map opt_value ADVANCED_CUSTOM_CONVERTER_OPTIONS) ->
  converter_accepts c (getDefaultAdvancedCustomIncomingPath (JStr c)).
Proof.
  intros H. assert (exists c', JStr c = JStr c' /\ converter_accepts c' (getDefaultAdvancedCustomIncomingPath (JStr c)))
    as (c' & [= <-] & Hc); [|done].
  apply converter_spec. cbn [ADVANCED_CUSTOM_CONVERTER_OPTIONS map opt_value In] in H.
  repeat (destruct H as [<-|H]; [vm_compute; reflexivity|]). done.
Qed.

(** The fields of [{ ...r, ...p }]. *)
Lemma spread_field k l p :
  jfield k (spread (JObj l) p) = foldl (fun v m => if str_eqb m.1 k then m.2 else v) (jfield k (JObj l)) p.
Proof.
  cbn [spread]. revert l. induction p as [|[q v] p IH]; intros l; [done|].
  cbn [foldl]. rewrite IH. f_equal. unfold patch_member. cbn [fst snd].
  destruct v as [v|]; [by rewrite jfield_set|].
  destruct (str_eqb q k) eqn:E; [apply str_eqb_eq in E as ->; apply jfield_removed|by apply jfield_unset].
Qed.

Lemma registered_truthy c : In c (map opt_value ADVANCED_CUSTOM_CONVERTER_OPTIONS) -> truthy c = true.
Proof.
  intros H. cbn [ADVANCED_CUSTOM_CONVERTER_OPTIONS map opt_value In] in H.
  by repeat (destruct H as [<-|H]; [reflexivity|]).
Qed.

Lemma allowed_accepts c p :
  In c (map opt_value ADVANCED_CUSTOM_CONVERTER_OPTIONS) -> isConverterPathAllowed p (JStr c) = true ->
  converter_accepts c p.
Proof.
  intros Hc Hp. apply registered_names in Hc.
  destruct (proj1 (converter_spec p (JStr c))) as (c' & [= <-] & H); [by rewrite Hc, Hp|done].
Qed.

Lemma chosen_converter_compatible l p c patch :
  jfield (js "incoming_path") (JObj l) = Some (JStr p) -> p <> [] ->
  In c (map opt_value ADVANCED_CUSTOM_CONVERTER_OPTIONS) ->
  setConverter (JObj l) c = Returns patch -> row_compatible (spread (JObj l) patch).
Proof.
  intros Hp Hne Hc. unfold setConverter, route_incoming_path. rewrite Hp.
  assert (or_else (Some (JStr p)) (JStr (getDefaultAdvancedCustomIncomingPath (route_converter (JObj l)))) = JStr p)
    as -> by (unfold or_else; by destruct p).
  cbn [obind]. intros [= <-]. unfold isAdvancedCustomIncomingPathAllowed.
  destruct (isConverterPathAllowed p (JStr c)) eqn:Ea; cbn [negb app];
    [exists c, p|exists c, (getDefaultAdvancedCustomIncomingPath (JStr c))];
    unfold route_converter; rewrite !spread_field; cbn [foldl fst snd];
    (split; [|split]).
  - change (str_eqb _ _) with true. cbn iota. unfold or_else. cbn [json_truthy]. by rewrite registered_truthy.
  - by change (str_eqb _ _) with false.
  - by apply allowed_trim, allowed_accepts.
  - change (str_eqb (js "incoming_path") (js "converter")) with false.
    change (str_eqb _ _) with true. cbn iota. unfold or_else. cbn [json_truthy]. by rewrite registered_truthy.
  - done.
  - by apply allowed_trim, default_path_accepted.
Qed.

Lemma chosen_path_compatible l p c :
  route_converter (JObj l) = JStr c -> In c (map opt_value ADVANCED_CUSTOM_CONVERTER_OPTIONS) ->
  row_compatible (spread (JObj l) (setIncomingPath (JObj l) p)).
Proof.
  intros Hc Hin. unfold setIncomingPath. rewrite Hc.
  set (q := str_or p (getDefaultAdvancedCustomIncomingPath (JStr c))).
  unfold isAdvancedCustomIncomingPathAllowed. destruct (isConverterPathAllowed q (JStr c)) eqn:Ea; cbn [negb app];
    [exists c, q|exists (js "none"), q]; unfold route_converter in *; rewrite !spread_field; cbn [foldl fst snd];
    (split; [|split]); try done.
  - by apply allowed_trim, allowed_accepts.
  - constructor.
Qed.

(** After the operator picks a converter, or an incoming path, in a row
    of the editor, the row's converter handles the row's path: the handler
    moves the path to the new converter's default, or the converter to native
    forwarding, when the pair would not match. *)
Theorem row_choices_compatible l p c :
  jfield (js "incoming_path") (JObj l) = Some (JStr p) -> p <> [] ->
  route_converter (JObj l) = JStr c -> In c (map opt_value ADVANCED_CUSTOM_CONVERTER_OPTIONS) ->
  (forall c' patch, In c' (map opt_value ADVANCED_CUSTOM_CONVERTER_OPTIONS) ->
     row_patch (JObj l) (ChooseConverter c') = Returns (Some patch) -> row_compatible (spread (JObj l) patch))
  /\ (forall p' patch, row_patch (JObj l) (ChooseIncomingPath p') = Returns (Some patch) ->
     row_compatible (spread (JObj l) patch)).
Proof.
  intros Hp Hne Hc Hin. split; cbn [row_patch].
  - intros c' patch Hc' H. rewrite obind_returns in H. destruct H as (patch' & H & [= <-]).
    by eapply chosen_converter_compatible.
  - intros p' patch [= <-]. by eapply chosen_path_compatible.
Qed.

Lemma template_facts new_URL :
  Forall (fun o => cloneAdvancedCustomConfig (tpl_config o) = Returns (tpl_config o)
                   /\ validateAdvancedCustomConfig new_URL (tpl_config o) = Returns None)
    ADVANCED_CUSTOM_TEMPLATE_OPTIONS.
Proof. unfold ADVANCED_CUSTOM_TEMPLATE_OPTIONS. repeat (constructor; [split; vm_compute; reflexivity|]). constructor. Qed.

(** Every template, and the configuration of a new dialog, passes the
    validator whatever URLs the platform accepts; a template is handed out as
    a faithful copy, and an unknown key gives the first one. *)
Theorem templates_valid new_URL key :
  exists tpl, In tpl ADVANCED_CUSTOM_TEMPLATE_OPTIONS
    /\ (tpl_value tpl = key \/ ~ In key (map tpl_value ADVANCED_CUSTOM_TEMPLATE_OPTIONS) /\ tpl = first_template)
    /\ getAdvancedCustomTemplateConfig key = Returns (tpl_config tpl)
    /\ validateAdvancedCustomConfig new_URL (tpl_config tpl) = Returns None
    /\ validateAdvancedCustomConfig new_URL createAdvancedCustomConfig = Returns None.
Proof.
  pose proof (template_facts new_URL) as Hall. rewrite List.Forall_forall in Hall.
  unfold getAdvancedCustomTemplateConfig.
  destruct (find (fun o => str_eqb (tpl_value o) key) ADVANCED_CUSTOM_TEMPLATE_OPTIONS) as [o|] eqn:E.
  - apply find_some in E as [Hin Heq%str_eqb_eq]. exists o. destruct (Hall o Hin) as [Hc Hv].
    split; [done|]. split; [by left|]. split; [done|]. split; [done|]. reflexivity.
  - exists first_template. assert (In first_template ADVANCED_CUSTOM_TEMPLATE_OPTIONS) as Hin by (by left).
    destruct (Hall _ Hin) as [Hc Hv]. split; [done|]. split; [|by split].
    right. split; [|done]. rewrite in_map_iff. intros (o & Hk & Ho).
    pose proof (find_none _ _ E o Ho) as Hn. cbn beta in Hn. subst key. by rewrite str_eqb_refl in Hn.
Qed.

(** ** A path that is not a string *)

(** A number in place of a path is not reported as an error: the text is
    read, and then the validator, the summary shown by the channel form and
    the render of the dialog opened on it throw a TypeError. *)
Theorem numeric_path_throws new_URL x :
  let route := JObj [(js "incoming_path", JNum x); (js "upstream_path", JStr (js "/v1"));
                     (js "converter", JStr (js "none"))] in
  forall value, parseAdvancedCustomConfig (Some value) = Some (config_of [route]) ->
  validateAdvancedCustomConfig new_URL (config_of [route]) = Throws (js "TypeError")
  /\ getAdvancedCustomStats new_URL (Some value) = Throws (js "TypeError")
  /\ exists st, mount value = Returns st /\ render new_URL st = Throws (js "TypeError").
Proof.
  intros route value Hp.
  assert (normalizeAdvancedCustomConfig (config_of [route]) = Returns (config_of [route])) as Hn.
  { by eapply parsed_normal. }
  assert (validateAdvancedCustomConfig new_URL (config_of [route]) = Throws (js "TypeError")) as Hv.
  { unfold validateAdvancedCustomConfig. by rewrite Hn. }
  split; [done|]. split.
  - unfold getAdvancedCustomStats. rewrite Hp, Hn. done.
  - unfold mount, initial_config, stringifyAdvancedCustomConfig. rewrite Hp, Hn. cbn [obind].
    eexists. split; [reflexivity|]. unfold render. cbn [ed_config]. rewrite Hn. cbn [obind]. by rewrite Hv.
Qed.

Lemma numeric_path_throws_witness :
  let route := JObj [(js "incoming_path", JNum (num_of_Z 5)); (js "upstream_path", JStr (js "/v1"));
                     (js "converter", JStr (js "none"))] in
  exists value,
  validateAdvancedCustomConfig no_URL (config_of [route]) = Throws (js "TypeError")
  /\ getAdvancedCustomStats no_URL (Some value) = Throws (js "TypeError")
  /\ exists st, mount value = Returns st /\ render no_URL st = Throws (js "TypeError").
Proof.
  exists (stringify 2 0 (config_of [JObj [(js "incoming_path", JNum (num_of_Z 5));
            (js "upstream_path", JStr (js "/v1")); (js "converter", JStr (js "none"))]])).
  apply numeric_path_throws; vm_compute; reflexivity.
Defined.

Lemma row_choices_compatible_witness :
  row_compatible (spread createAdvancedCustomRoute
    [(js "converter", Some (JStr (js "anthropic_messages_to_openai_chat_completions")));
     (js "incoming_path", Some (JStr (js "/v1/messages")))]).
Proof.
  refine (proj1 (row_choices_compatible _ (js "/v1/chat/completions") (js "none") _ _ _ _)
            (js "anthropic_messages_to_openai_chat_completions") _ _ _);
    try reflexivity; try done; vm_compute; repeat (first [left; reflexivity|right]).
Defined.
