(* ===== verification/ChannelForm.v ===== *)
(** * The form of a channel

    Model of src/web/default/src/features/channels/lib/channel-form.ts and
    hooks/use-channel-mutate-form.ts: the schema of the form, the values it is
    opened with, the texts it stores in a channel and the payloads it sends.
    What a parsed setting puts into a form is kept as JSON: the source does not
    check its type before the schema does. *)

From S2P Require Import Prelude JsStr JsNum JsArray JsJson JsPrint ModelMapping AdvancedCustom Sidebar ParamOverride.
Local Open Scope js_scope.

(** ** Channels and forms *)

Inductive AddMode := ModeSingle | ModeBatch | ModeMultiToSingle.
Inductive MultiKeyMode := KeyRandom | KeyPolling.
Inductive KeyMode := KeyAppend | KeyReplace.

#[export] Instance add_mode_eq_dec : EqDecision AddMode.
Proof. solve_decision. Defined.

(** The fields the form reads; [multi_key_mode] is that of channel_info. *)
Record Channel := mkChannel {
  ch_id : num; ch_type : Z; ch_openai_organization : option jsstr; ch_test_model : option jsstr; ch_status : num;
  ch_name : jsstr; ch_weight : option num; ch_base_url : option jsstr; ch_other : jsstr; ch_models : jsstr;
  ch_group : jsstr; ch_model_mapping : option jsstr; ch_status_code_mapping : option jsstr; ch_priority : option num;
  ch_auto_ban : option num; ch_tag : option jsstr; ch_setting : option jsstr; ch_param_override : option jsstr;
  ch_header_override : option jsstr; ch_remark : jsstr; ch_settings : jsstr; ch_multi_key_mode : option MultiKeyMode
}.

(** The switches that live in the text [settings], one per member. *)
Inductive Switch :=
| is_enterprise_account | allow_service_tier | disable_store | allow_safety_identifier | allow_include_obfuscation
| allow_inference_geo | allow_speed | claude_beta_query | disable_task_polling_sleep
| upstream_model_update_check_enabled | upstream_model_update_auto_sync_enabled.

(** The members of the text [setting]. *)
Inductive Extra :=
| force_format | thinking_to_content | proxy | pass_through_body_enabled | system_prompt | system_prompt_override.

Record ChannelFormValues := mkForm {
  f_name : jsstr; f_type : Z; f_base_url : option jsstr; f_key : jsstr; f_openai_organization : option jsstr;
  f_models : jsstr; f_group : list jsstr; f_model_mapping : option jsstr; f_priority : option num;
  f_weight : option num; f_test_model : option jsstr; f_auto_ban : option num; f_status : num;
  f_status_code_mapping : option jsstr; f_tag : option jsstr; f_remark : option jsstr; f_setting : option jsstr;
  f_param_override : option jsstr; f_header_override : option jsstr; f_settings : option jsstr;
  f_advanced_custom : option jsstr; f_other : option jsstr; f_multi_key_mode : option AddMode;
  f_multi_key_type : option MultiKeyMode; f_batch_add_set_key_prefix_2_name : option bool;
  f_key_mode : option KeyMode;
  f_extra : Extra -> option json;
  f_vertex_key_type : option json; f_aws_key_type : option json; f_azure_responses_version : option json;
  f_switch : Switch -> option bool;
  f_ignored_models : option jsstr
}.

(** [value?.trim()] is not empty. *)
Definition filled (v : option jsstr) : bool := match v with Some s => truthy (trim s) | None => false end.

(** ** Checks of texts *)

(** [undefined], or the parsed value; [None] when parsing throws. *)
Definition parseOptionalJson (value : option jsstr) : option (option json) :=
  match value with
  | Some s => if truthy (trim s) then match parse s with Some v => Some (Some v) | None => None end else Some None
  | None => Some None
  end.

Definition isJsonObjectValue (v : json) : bool := match v with JObj _ => true | _ => false end.

Definition isOptionalJsonObject (value : option jsstr) : bool :=
  match parseOptionalJson value with
  | None => false
  | Some None => true
  | Some (Some v) => isJsonObjectValue v
  end.

Definition isOptionalModelMapping (value : option jsstr) : bool :=
  match parseOptionalJson value with
  | None => false
  | Some None => true
  | Some (Some (JObj l)) => forallb (fun p => match p.2 with JStr _ => true | _ => false end) l
  | Some (Some _) => false
  end.

Definition is_status_code (x : num) : bool := isInteger x && nge x (num_of_Z 100) && nle x (num_of_Z 599).

Definition isOptionalStatusCodeMapping (value : option jsstr) : bool :=
  match parseOptionalJson value with
  | None => false
  | Some None => true
  | Some (Some (JObj l)) => forallb (fun p => is_status_code (num_of_str p.1) && is_status_code (Number_json (Some p.2))) l
  | Some (Some _) => false
  end.

(** [typeof v === 'string' && v.trim().length > 0]. *)
Definition filled_string (v : option json) : bool := match v with Some (JStr s) => truthy (trim s) | _ => false end.

Definition isCodexCredential (value : option jsstr) : bool :=
  match parseOptionalJson value with
  | None => false
  | Some None => true
  | Some (Some v) =>
      isJsonObjectValue v && filled_string (jfield (js "access_token") v) && filled_string (jfield (js "account_id") v)
  end.

Definition isVertexJsonKey (value : option jsstr) : bool :=
  match parseOptionalJson value with
  | None => false
  | Some None => true
  | Some (Some (JArr l)) => forallb isJsonObjectValue l
  | Some (Some v) => isJsonObjectValue v
  end.

(** ** The schema *)

Definition optional_boolean (v : option json) : bool :=
  match v with None | Some (JBool _) => true | _ => false end.
Definition optional_string (v : option json) : bool :=
  match v with None | Some (JStr _) => true | _ => false end.
Definition optional_enum (values : list jsstr) (v : option json) : bool :=
  match v with None => true | Some (JStr s) => has values s | _ => false end.

Definition boolean_extras : list Extra :=
  [force_format; thinking_to_content; pass_through_body_enabled; system_prompt_override].
Definition string_extras : list Extra := [proxy; system_prompt].

(** The checks of single fields. *)
Definition fields_ok (d : ChannelFormValues) : bool :=
  truthy (f_name d) && (0 <=? f_type d)%Z && truthy (f_models d) && negb (Nat.eqb (length (f_group d)) 0)
  && isOptionalModelMapping (f_model_mapping d) && isOptionalStatusCodeMapping (f_status_code_mapping d)
  && match f_remark d with Some s => Nat.leb (length s) 255 | None => true end
  && isOptionalJsonObject (f_setting d) && isOptionalJsonObject (f_param_override d)
  && isOptionalJsonObject (f_header_override d) && isOptionalJsonObject (f_settings d)
  && forallb (fun e => optional_boolean (f_extra d e)) boolean_extras
  && forallb (fun e => optional_string (f_extra d e)) string_extras
  && optional_enum [js "json"; js "api_key"] (f_vertex_key_type d)
  && optional_enum [js "ak_sk"; js "api_key"] (f_aws_key_type d)
  && optional_string (f_azure_responses_version d).

Definition Issue : Type := jsstr * jsstr.

Definition when_issue (b : bool) (path message : jsstr) : list Issue := if b then [(path, message)] else [].

Definition zin (x : Z) (l : list Z) : bool := existsb (Z.eqb x) l.

Definition is_batch (m : option AddMode) : bool :=
  match m with None | Some ModeSingle => false | _ => true end.

Definition null_or (v : option json) : json := match v with Some x => x | None => JNull end.

Section Schema.
  Variable new_URL : jsstr -> option (jsstr * jsstr).

(** The callback of superRefine. *)
Definition refine (data : ChannelFormValues) : outcome (list Issue) :=
  let base := when_issue (zin (f_type data) [3; 8; 36; 45]%Z && negb (filled (f_base_url data)))
                (js "base_url") (js "Base URL is required for this channel type") in
  let! advanced :=
    if (f_type data =? CHANNEL_TYPE_ADVANCED_CUSTOM)%Z then
      let config := null_or (parseAdvancedCustomConfig (f_advanced_custom data)) in
      let! error := validateAdvancedCustomConfig new_URL config in
      let! relative := advancedCustomConfigUsesRelativeUpstreamPath config in
      Returns (match error with Some e => [(js "advanced_custom", message e)] | None => [] end
               ++ when_issue (relative && negb (filled (f_base_url data))) (js "base_url")
                    (js "Base URL is required when an advanced route uses an upstream path"))
    else Returns [] in
  let other := when_issue (zin (f_type data) [3; 18; 21; 39; 41; 49]%Z && negb (filled (f_other data)))
                 (js "other") (js "This channel type requires additional configuration") in
  let codex :=
    if (f_type data =? 57)%Z then
      when_issue (is_batch (f_multi_key_mode data)) (js "multi_key_mode")
        (js "Codex channels do not support batch creation")
      ++ when_issue (filled (Some (f_key data)) && negb (isCodexCredential (Some (f_key data)))) (js "key")
           (js "Codex credential must be a JSON object with access_token and account_id")
    else [] in
  let vertex_json :=
    when_issue ((f_type data =? 41)%Z && is_str (f_vertex_key_type data) (js "json")
                && filled (Some (f_key data)) && negb (isVertexJsonKey (Some (f_key data))))
      (js "key") (js "Vertex AI service account key must be valid JSON") in
  let vertex_batch :=
    when_issue ((f_type data =? 41)%Z && is_str (f_vertex_key_type data) (js "api_key")
                && is_batch (f_multi_key_mode data))
      (js "multi_key_mode") (js "Vertex AI API Key mode does not support batch creation") in
  Returns (base ++ advanced ++ other ++ codex ++ vertex_json ++ vertex_batch).

(** The form is submitted when the schema reports nothing.  A form with a wrong
    field is refused whether or not the library still runs the callback. *)
Definition channelFormSchema (data : ChannelFormValues) : outcome bool :=
  if fields_ok data then
    let! issues := refine data in Returns (match issues with [] => true | _ => false end)
  else Returns false.

End Schema.

(** ** Values a form is opened with *)

Definition no_extra (e : Extra) : json :=
  match e with proxy | system_prompt => JStr [] | _ => JBool false end.

Definition extra_name (e : Extra) : jsstr :=
  match e with
  | force_format => js "force_format" | thinking_to_content => js "thinking_to_content" | proxy => js "proxy"
  | pass_through_body_enabled => js "pass_through_body_enabled" | system_prompt => js "system_prompt"
  | system_prompt_override => js "system_prompt_override"
  end.

Definition EXTRAS : list Extra :=
  [force_format; thinking_to_content; proxy; pass_through_body_enabled; system_prompt; system_prompt_override].

(** The name of the member of [settings] that a switch is stored in. *)
Definition switch_name (s : Switch) : jsstr :=
  match s with
  | is_enterprise_account => js "openrouter_enterprise" | allow_service_tier => js "allow_service_tier"
  | disable_store => js "disable_store" | allow_safety_identifier => js "allow_safety_identifier"
  | allow_include_obfuscation => js "allow_include_obfuscation" | allow_inference_geo => js "allow_inference_geo"
  | allow_speed => js "allow_speed" | claude_beta_query => js "claude_beta_query"
  | disable_task_polling_sleep => js "disable_task_polling_sleep"
  | upstream_model_update_check_enabled => js "upstream_model_update_check_enabled"
  | upstream_model_update_auto_sync_enabled => js "upstream_model_update_auto_sync_enabled"
  end.

Definition CHANNEL_FORM_DEFAULT_VALUES : ChannelFormValues :=
  mkForm [] 1 (Some []) [] (Some []) [] [js "default"] (Some []) (Some zero) (Some zero) (Some [])
    (Some (num_of_Z 1)) (num_of_Z 1) (Some []) (Some []) (Some []) (Some []) (Some []) (Some []) (Some (js "{}"))
    (Some []) (Some []) (Some ModeSingle) (Some KeyRandom) (Some false) (Some KeyAppend)
    (fun e => Some (no_extra e)) (Some (JStr (js "json"))) (Some (JStr (js "ak_sk"))) (Some (JStr []))
    (fun _ => Some false) (Some []).

(** [v || d]. *)
Definition or_json (v : option json) (d : json) : json :=
  match v with Some x => if json_truthy x then x else d | None => d end.
Definition or_text (v : option jsstr) (d : jsstr) : jsstr := match v with Some s => str_or s d | None => d end.
Definition or_num (v : option num) (d : num) : num := match v with Some x => num_or x d | None => d end.

(** Reading a member of [null] throws, which the source catches: the defaults stay. *)
Definition readable (text : jsstr) : option json :=
  match parse text with Some JNull => None | r => r end.

Definition extra_settings (setting : option jsstr) (e : Extra) : json :=
  match setting with
  | Some s => if truthy s then match readable s with
                               | Some v => or_json (jfield (extra_name e) v) (no_extra e)
                               | None => no_extra e
                               end
              else no_extra e
  | None => no_extra e
  end.

Definition is_true_member (k : jsstr) (v : option json) : bool :=
  match v with Some x => is_true k x | None => false end.

Definition parsed_settings (settings : jsstr) : option json := if truthy settings then readable settings else None.

Definition member_or (k : jsstr) (d : jsstr) (v : option json) : json :=
  match v with Some x => or_json (jfield k x) (JStr d) | None => JStr d end.

Definition ignored_models_text (v : option json) : jsstr :=
  match v with
  | Some x => match jfield (js "upstream_model_update_ignored_models") x with
              | Some (JArr l) => json_to_str (JArr l)
              | _ => []
              end
  | None => []
  end.

(** An exception of the printer is caught too; it is the last member read. *)
Definition advanced_custom_text (v : option json) : jsstr :=
  match v with
  | Some x => match jfield (js "advanced_custom") x with
              | Some c => if json_truthy c then match stringifyAdvancedCustomConfig c with
                                                | Returns t => t
                                                | Throws _ => []
                                                end
                          else []
              | None => []
              end
  | None => []
  end.

Definition parseModels (models : jsstr) : list jsstr :=
  if truthy models then List.filter truthy (map trim (split_char 44%N models)) else [].
Definition parseGroups (groups : jsstr) : list jsstr :=
  if truthy groups then List.filter truthy (map trim (split_char 44%N groups)) else [].
Definition formatModels (models : list jsstr) : jsstr := join (js ",") models.
Definition formatGroups (groups : list jsstr) : jsstr := join (js ",") groups.

Definition transformChannelToFormDefaults (channel : Channel) : ChannelFormValues :=
  let parsed := parsed_settings (ch_settings channel) in
  mkForm (ch_name channel) (ch_type channel) (Some (or_text (ch_base_url channel) [])) []
    (Some (or_text (ch_openai_organization channel) [])) (ch_models channel)
    (parseGroups (str_or (ch_group channel) (js "default"))) (Some (or_text (ch_model_mapping channel) []))
    (Some (or_num (ch_priority channel) zero)) (Some (or_num (ch_weight channel) zero))
    (Some (or_text (ch_test_model channel) [])) (Some (default (num_of_Z 1) (ch_auto_ban channel)))
    (ch_status channel) (Some (or_text (ch_status_code_mapping channel) [])) (Some (or_text (ch_tag channel) []))
    (Some (ch_remark channel)) (Some (or_text (ch_setting channel) [])) (Some (or_text (ch_param_override channel) []))
    (Some (or_text (ch_header_override channel) [])) (Some (str_or (ch_settings channel) (js "{}")))
    (Some (advanced_custom_text parsed)) (Some (ch_other channel)) (Some ModeSingle)
    (Some (default KeyRandom (ch_multi_key_mode channel))) (Some false) (Some KeyAppend)
    (fun e => Some (extra_settings (ch_setting channel) e))
    (Some (member_or (js "vertex_key_type") (js "json") parsed))
    (Some (member_or (js "aws_key_type") (js "ak_sk") parsed))
    (Some (member_or (js "azure_responses_version") [] parsed))
    (fun s => Some (is_true_member (switch_name s) parsed))
    (Some (ignored_models_text parsed)).

(** ** Texts of a channel *)

Definition buildSettingJSON (formData : ChannelFormValues) : jsstr :=
  stringify 0 0 (JObj (map (fun e => (extra_name e, or_json (f_extra formData e) (no_extra e))) EXTRAS)).

Definition Members : Type := list (jsstr * json).

(** [if (b) o[k] = v else if (k in o) delete o[k]]. *)
Definition keep_member (b : bool) (k : jsstr) (v : json) (o : Members) : Members :=
  if b then obj_set k v o else List.filter (fun p => negb (str_eqb p.1 k)) o.

Definition is_on (d : ChannelFormValues) (s : Switch) : bool := default false (f_switch d s).

Definition keep_switch (b : bool) (s : Switch) (d : ChannelFormValues) (o : Members) : Members :=
  keep_member b (switch_name s) (JBool (is_on d s)) o.

Definition MODEL_FETCHABLE_TYPES : list Z :=
  [1; 4; 14; 17; 20; 23; 24; 25; 26; 27; 31; 34; 35; 40; 42; 43; 47; 48]%Z.

Definition ignored_models (d : ChannelFormValues) : json :=
  JArr (map JStr (uniq (List.filter truthy (map trim (split_char 44%N (or_text (f_ignored_models d) [])))))).

Definition last_detected : jsstr := js "upstream_model_update_last_detected_models".
Definition last_check_time : jsstr := js "upstream_model_update_last_check_time".

Definition set_upstream (d : ChannelFormValues) (o : Members) : Members :=
  let enabled := is_on d upstream_model_update_check_enabled in
  let o := obj_set (js "upstream_model_update_check_enabled") (JBool enabled) o in
  let o := obj_set (js "upstream_model_update_auto_sync_enabled")
             (JBool (enabled && is_on d upstream_model_update_auto_sync_enabled)) o in
  let o := obj_set (js "upstream_model_update_ignored_models") (ignored_models d) o in
  let o := match jfield last_detected (JObj o) with
           | Some (JArr _) => if enabled then o else obj_set last_detected (JArr []) o
           | _ => obj_set last_detected (JArr []) o
           end in
  match jfield last_check_time (JObj o) with
  | Some (JNum _) => o
  | _ => obj_set last_check_time (JNum zero) o
  end.

(** The controls of OpenAI channels; Anthropic shares one of them. *)
Definition set_openai_fields (d : ChannelFormValues) (o : Members) : Members :=
  if zin (f_type d) [1; 57]%Z then
    keep_switch true allow_inference_geo d (keep_switch true allow_include_obfuscation d
      (keep_switch true allow_safety_identifier d (keep_switch true disable_store d o)))
  else
    let o := keep_switch false allow_include_obfuscation d
               (keep_switch false allow_safety_identifier d (keep_switch false disable_store d o)) in
    if (f_type d =? 14)%Z then o else keep_switch false allow_inference_geo d o.

Definition set_anthropic_fields (d : ChannelFormValues) (o : Members) : Members :=
  if (f_type d =? 14)%Z then
    keep_switch true claude_beta_query d
      (keep_switch true allow_speed d (keep_switch true allow_inference_geo d o))
  else keep_switch false claude_beta_query d (keep_switch false allow_speed d o).

(** The changes to the members of [settings], in the order of the source. *)
Definition edit_settings (d : ChannelFormValues) (o : Members) : Members :=
  let type := f_type d in
  let o := keep_member (type =? 41)%Z (js "vertex_key_type") (or_json (f_vertex_key_type d) (JStr (js "json"))) o in
  let o := keep_member ((type =? 3)%Z && match f_azure_responses_version d with Some v => json_truthy v | None => false end)
             (js "azure_responses_version") (null_or (f_azure_responses_version d)) o in
  let o := keep_switch (type =? 20)%Z is_enterprise_account d o in
  let o := keep_member (type =? 33)%Z (js "aws_key_type") (or_json (f_aws_key_type d) (JStr (js "ak_sk"))) o in
  let o := keep_switch (zin type [1; 14; 57]%Z) allow_service_tier d o in
  let o := set_openai_fields d o in
  let o := set_anthropic_fields d o in
  let o := keep_switch true disable_task_polling_sleep d o in
  let o := if zin type MODEL_FETCHABLE_TYPES then set_upstream d o else o in
  if (type =? CHANNEL_TYPE_ADVANCED_CUSTOM)%Z then
    match parseAdvancedCustomConfig (f_advanced_custom d) with
    | Some c => if json_truthy c then obj_set (js "advanced_custom") c o else o
    | None => o
    end
  else keep_member false (js "advanced_custom") JNull o.

(** The members of an array are not printed; other values have none. *)
Definition buildSettingsJSON (formData : ChannelFormValues) : outcome jsstr :=
  let edit o := Returns (stringify 0 0 (JObj (edit_settings formData o))) in
  let text := or_text (f_settings formData) [] in
  if truthy text && negb (str_eqb text (js "{}")) then
    match parse text with
    | None => edit []
    | Some (JObj o) => edit o
    | Some (JArr l) => Returns (stringify 0 0 (JArr l))
    | Some _ => Throws (js "TypeError")
    end
  else edit [].

(** ** Payloads *)

(** [replace(/\/+$/, '')] after [trim()]. *)
Definition normalizeBaseUrl (value : option jsstr) : jsstr :=
  rev (dropb (N.eqb 47) (rev (trim (or_text value [])))).

(** [text || null], [text || '']. *)
Definition text_or_null (v : option jsstr) : json := match v with Some s => if truthy s then JStr s else JNull | None => JNull end.
Definition num_or_null (v : option num) : json := match v with Some x => if ntruthy x then JNum x else JNull | None => JNull end.
Definition text_or_empty (v : option jsstr) : json := JStr (or_text v []).

(** [Object.keys(o).forEach]: an empty string becomes [null]. *)
Definition empty_to_null (o : Members) : Members :=
  map (fun p => match p.2 with JStr [] => (p.1, JNull) | _ => p end) o.

Record CreatePayload := mkCreate {
  cp_mode : AddMode; cp_multi_key_mode : option MultiKeyMode; cp_batch_add_set_key_prefix_2_name : option bool;
  cp_channel : Members
}.

Definition transformFormDataToCreatePayload (formData : ChannelFormValues) : outcome CreatePayload :=
  let mode := default ModeSingle (f_multi_key_mode formData) in
  let! settings := buildSettingsJSON formData in
  let channel :=
    [(js "name", JStr (f_name formData)); (js "type", JNum (num_of_Z (f_type formData)));
     (js "base_url", text_or_null (Some (normalizeBaseUrl (f_base_url formData)))); (js "key", JStr (f_key formData));
     (js "openai_organization", text_or_null (f_openai_organization formData)); (js "models", JStr (f_models formData));
     (js "group", JStr (formatGroups (f_group formData))); (js "model_mapping", text_or_null (f_model_mapping formData));
     (js "priority", num_or_null (f_priority formData)); (js "weight", num_or_null (f_weight formData));
     (js "test_model", text_or_null (f_test_model formData));
     (js "auto_ban", JNum (default (num_of_Z 1) (f_auto_ban formData))); (js "status", JNum (f_status formData));
     (js "status_code_mapping", text_or_null (f_status_code_mapping formData)); (js "tag", text_or_null (f_tag formData));
     (js "remark", text_or_empty (f_remark formData)); (js "setting", JStr (buildSettingJSON formData));
     (js "param_override", text_or_null (f_param_override formData));
     (js "header_override", text_or_null (f_header_override formData)); (js "settings", JStr settings);
     (js "other", text_or_empty (f_other formData))] in
  Returns (mkCreate mode
             (if bool_decide (mode = ModeMultiToSingle) then f_multi_key_type formData else None)
             (if bool_decide (mode = ModeBatch) then f_batch_add_set_key_prefix_2_name formData else None)
             (empty_to_null channel)).

(** The fields that are sent as empty texts. *)
Definition cleared_fields (formData : ChannelFormValues) : Members :=
  [(js "base_url", text_or_empty (Some (normalizeBaseUrl (f_base_url formData))));
   (js "openai_organization", text_or_empty (f_openai_organization formData));
   (js "test_model", text_or_empty (f_test_model formData)); (js "tag", text_or_empty (f_tag formData));
   (js "remark", text_or_empty (f_remark formData)); (js "model_mapping", text_or_empty (f_model_mapping formData));
   (js "status_code_mapping", text_or_empty (f_status_code_mapping formData));
   (js "param_override", text_or_empty (f_param_override formData));
   (js "header_override", text_or_empty (f_header_override formData))].

Definition transformFormDataToUpdatePayload (formData : ChannelFormValues) (channelId : num) : outcome Members :=
  let! settings := buildSettingsJSON formData in
  let payload :=
    [(js "id", JNum channelId); (js "name", JStr (f_name formData)); (js "type", JNum (num_of_Z (f_type formData)));
     (js "base_url", text_or_null (Some (normalizeBaseUrl (f_base_url formData))));
     (js "openai_organization", text_or_null (f_openai_organization formData)); (js "models", JStr (f_models formData));
     (js "group", JStr (formatGroups (f_group formData))); (js "model_mapping", text_or_null (f_model_mapping formData));
     (js "priority", JNum (default zero (f_priority formData))); (js "weight", JNum (default zero (f_weight formData)));
     (js "test_model", text_or_null (f_test_model formData));
     (js "auto_ban", JNum (default (num_of_Z 1) (f_auto_ban formData)));
     (js "status_code_mapping", text_or_null (f_status_code_mapping formData)); (js "tag", text_or_null (f_tag formData));
     (js "remark", text_or_empty (f_remark formData)); (js "setting", JStr (buildSettingJSON formData));
     (js "param_override", text_or_null (f_param_override formData));
     (js "header_override", text_or_null (f_header_override formData)); (js "settings", JStr settings);
     (js "other", text_or_empty (f_other formData))] in
  let payload := if filled (Some (f_key formData)) then obj_set (js "key") (JStr (f_key formData)) payload else payload in
  Returns (foldl (fun o p => obj_set p.1 p.2 o) (empty_to_null payload) (cleared_fields formData)).

(** ** Submission *)

Definition SENSITIVE_UPDATE_FIELDS : list jsstr :=
  [js "type"; js "key"; js "base_url"; js "openai_organization"; js "param_override"; js "header_override";
   js "setting"; js "settings"; js "other"].

Definition delete_members (ks : list jsstr) (o : Members) : Members :=
  foldl (fun o k => List.filter (fun p => negb (str_eqb p.1 k)) o) o ks.

Definition key_mode_text (m : KeyMode) : jsstr := match m with KeyAppend => js "append" | KeyReplace => js "replace" end.

(** What a submission of the form sends. *)
Inductive MutateRequest :=
| UpdateChannel (id : num) (payload : Members)
| CreateChannel (payload : CreatePayload).

Definition canEditSensitive (user : option AuthUser) : bool := hasPermission user (js "channel") (js "sensitive_write").

Definition mutationFn (user : option AuthUser) (isMultiKeyChannel : bool) (editing : option num)
    (data : ChannelFormValues) : outcome MutateRequest :=
  match editing with
  | Some id =>
      let! payload := transformFormDataToUpdatePayload data id in
      let payload := if filled (Some (f_key data)) then payload else delete_members [js "key"] payload in
      let payload := if canEditSensitive user then payload else delete_members SENSITIVE_UPDATE_FIELDS payload in
      Returns (UpdateChannel id
        (match f_key_mode data with
         | Some m => if canEditSensitive user && isMultiKeyChannel && filled (Some (f_key data))
                     then obj_set (js "key_mode") (JStr (key_mode_text m)) payload else payload
         | None => payload
         end))
  | None => let! payload := transformFormDataToCreatePayload data in Returns (CreateChannel payload)
  end.

(** ** Helpers of validation *)

Definition validateJSON (value : jsstr) : bool :=
  if negb (truthy value) || str_eqb (trim value) [] then true else verifyJSON value.

Definition validateModelMapping (value : jsstr) : bool :=
  if negb (truthy value) || str_eqb (trim value) [] then true else validateJSON value.

(** ** Errors of the form *)

Definition ADVANCED_SETTINGS_FIELDS : list jsstr :=
  [js "priority"; js "weight"; js "test_model"; js "auto_ban"; js "tag"; js "remark"; js "param_override";
   js "header_override"; js "status_code_mapping"; js "advanced_custom"; js "force_format"; js "thinking_to_content";
   js "pass_through_body_enabled"; js "proxy"; js "system_prompt"; js "system_prompt_override";
   js "allow_service_tier"; js "disable_store"; js "allow_safety_identifier"; js "allow_include_obfuscation";
   js "allow_inference_geo"; js "allow_speed"; js "claude_beta_query"; js "disable_task_polling_sleep";
   js "upstream_model_update_check_enabled"; js "upstream_model_update_auto_sync_enabled";
   js "upstream_model_update_ignored_models"].

Definition isAdvancedSettingsField (fieldName : jsstr) : bool := has ADVANCED_SETTINGS_FIELDS fieldName.

Definition hasAdvancedSettingsErrors (errors : list Issue) : bool :=
  existsb (fun e => isAdvancedSettingsField e.1) errors.
