(* ===== verification/ChannelFormProps.v ===== *)
(** * What a channel form stores and sends

    The members of the stored settings against a table, that what was stored is
    shown when the form is opened again, that a form the schema accepts is sent
    without an exception, and that users without the permission send no
    sensitive field. *)

From S2P Require Import Prelude JsStr JsNum JsArray JsJson JsPrint ModelMapping AdvancedCustom Sidebar ParamOverride ParamEditor ParamOverrideProps ChannelForm.
Local Open Scope js_scope.

(** ** The members of the settings *)

(** The types a switch is stored for; the others do not have its member. *)
Definition switch_types (s : Switch) (type : Z) : bool :=
  match s with
  | is_enterprise_account => zin type [20]
  | allow_service_tier | allow_inference_geo => zin type [1; 14; 57]
  | disable_store | allow_safety_identifier | allow_include_obfuscation => zin type [1; 57]
  | allow_speed | claude_beta_query => zin type [14]
  | disable_task_polling_sleep => true
  | upstream_model_update_check_enabled | upstream_model_update_auto_sync_enabled => zin type MODEL_FETCHABLE_TYPES
  end%Z.

(** Models are synchronised only where they are checked. *)
Definition effective (d : ChannelFormValues) (s : Switch) : bool :=
  match s with
  | upstream_model_update_auto_sync_enabled => is_on d upstream_model_update_check_enabled && is_on d s
  | _ => is_on d s
  end.

Definition SWITCHES : list Switch :=
  [is_enterprise_account; allow_service_tier; disable_store; allow_safety_identifier; allow_include_obfuscation;
   allow_inference_geo; allow_speed; claude_beta_query; disable_task_polling_sleep;
   upstream_model_update_check_enabled; upstream_model_update_auto_sync_enabled].

(** The upstream switches of a type that has none stay as they are. *)
Definition is_upstream (s : Switch) : bool :=
  match s with upstream_model_update_check_enabled | upstream_model_update_auto_sync_enabled => true | _ => false end.

(** The member [k] after the form is stored, from what it was before. *)
Definition stored_member (d : ChannelFormValues) (k : jsstr) (old : option json) : option json :=
  let type := f_type d in
  let fetchable := zin type MODEL_FETCHABLE_TYPES in
  match find (fun s => str_eqb (switch_name s) k) SWITCHES with
  | Some s => if switch_types s type then Some (JBool (effective d s)) else if is_upstream s then old else None
  | None =>
      if str_eqb (js "vertex_key_type") k
      then if (type =? 41)%Z then Some (or_json (f_vertex_key_type d) (JStr (js "json"))) else None
      else if str_eqb (js "aws_key_type") k
      then if (type =? 33)%Z then Some (or_json (f_aws_key_type d) (JStr (js "ak_sk"))) else None
      else if str_eqb (js "azure_responses_version") k
      then if (type =? 3)%Z then match f_azure_responses_version d with
                                 | Some v => if json_truthy v then Some v else None
                                 | None => None
                                 end
           else None
      else if str_eqb (js "upstream_model_update_ignored_models") k
      then if fetchable then Some (ignored_models d) else old
      else if str_eqb last_detected k
      then if fetchable then Some (match old with
                                   | Some (JArr l) => if is_on d upstream_model_update_check_enabled then JArr l else JArr []
                                   | _ => JArr []
                                   end)
           else old
      else if str_eqb last_check_time k
      then if fetchable then Some (match old with Some (JNum x) => JNum x | _ => JNum zero end) else old
      else if str_eqb (js "advanced_custom") k
      then if (type =? CHANNEL_TYPE_ADVANCED_CUSTOM)%Z
           then match parseAdvancedCustomConfig (f_advanced_custom d) with Some c => Some c | None => old end
           else None
      else old
  end.

Lemma jfield_keep b k k' v o :
  jfield k (JObj (keep_member b k' v o))
  = if str_eqb k' k then (if b then Some v else None) else jfield k (JObj o).
Proof.
  unfold keep_member. destruct b; [apply jfield_set|].
  destruct (str_eqb k' k) eqn:E; [|by apply jfield_unset].
  apply str_eqb_eq in E. subst. apply jfield_removed.
Qed.

Lemma parsed_config_truthy v c : parseAdvancedCustomConfig v = Some c -> json_truthy c = true.
Proof.
  destruct v as [s|]; [|done]. cbn [parseAdvancedCustomConfig]. destruct (negb _); [done|].
  destruct (parse s) as [[]|]; try done. unfold normalizeAdvancedCustomConfig.
  destruct (get _ _) as [r|]; [|done]. cbn [obind].
  destruct (match r with Some (JArr l0) => _ | _ => _ end); [|done]. by intros [= <-].
Qed.

(** The upstream members, in a settings object whose other members are set. *)
Lemma jfield_upstream d o k :
  jfield k (JObj (set_upstream d o))
  = if str_eqb last_check_time k
    then Some (match jfield last_check_time (JObj o) with Some (JNum x) => JNum x | _ => JNum zero end)
    else if str_eqb last_detected k
    then Some (match jfield last_detected (JObj o) with
               | Some (JArr l) => if is_on d upstream_model_update_check_enabled then JArr l else JArr []
               | _ => JArr []
               end)
    else if str_eqb (js "upstream_model_update_ignored_models") k then Some (ignored_models d)
    else if str_eqb (js "upstream_model_update_auto_sync_enabled") k
    then Some (JBool (effective d upstream_model_update_auto_sync_enabled))
    else if str_eqb (js "upstream_model_update_check_enabled") k
    then Some (JBool (is_on d upstream_model_update_check_enabled))
    else jfield k (JObj o).
Proof.
  unfold set_upstream. cbv zeta.
  set (o3 := obj_set (js "upstream_model_update_ignored_models") _ _).
  assert (H3 : forall k, jfield k (JObj o3) =
    if str_eqb (js "upstream_model_update_ignored_models") k then Some (ignored_models d)
    else if str_eqb (js "upstream_model_update_auto_sync_enabled") k
    then Some (JBool (effective d upstream_model_update_auto_sync_enabled))
    else if str_eqb (js "upstream_model_update_check_enabled") k
    then Some (JBool (is_on d upstream_model_update_check_enabled)) else jfield k (JObj o)).
  { intros k0. unfold o3. by rewrite !jfield_set. }
  assert (Hd : jfield last_detected (JObj o3) = jfield last_detected (JObj o)) by (rewrite H3; reflexivity).
  set (o4 := match jfield last_detected (JObj o3) with Some (JArr _) => _ | _ => _ end).
  assert (H4 : forall k, jfield k (JObj o4) =
    if str_eqb last_detected k
    then Some (match jfield last_detected (JObj o) with
               | Some (JArr l) => if is_on d upstream_model_update_check_enabled then JArr l else JArr []
               | _ => JArr []
               end)
    else jfield k (JObj o3)).
  { intros k0. unfold o4. rewrite Hd.
    destruct (jfield last_detected (JObj o)) as [[]|] eqn:E; try (by rewrite jfield_set).
    destruct (is_on d _); [|by rewrite jfield_set].
    destruct (str_eqb last_detected k0) eqn:Ek; [|done]. apply str_eqb_eq in Ek as <-. by rewrite Hd. }
  assert (Ht : jfield last_check_time (JObj o4) = jfield last_check_time (JObj o)) by (rewrite H4, H3; reflexivity).
  rewrite Ht. destruct (str_eqb last_check_time k) eqn:Ek.
  - apply str_eqb_eq in Ek as <-.
    destruct (jfield last_check_time (JObj o)) as [[]|] eqn:E; try (rewrite jfield_set, str_eqb_refl; reflexivity).
    by rewrite Ht.
  - destruct (jfield last_check_time (JObj o)) as [[]|]; rewrite ?jfield_set, ?Ek, H4, H3; reflexivity.
Qed.

(** Names of the members the form manages. *)
Definition managed : list jsstr :=
  map switch_name SWITCHES
  ++ [js "vertex_key_type"; js "aws_key_type"; js "azure_responses_version"; js "upstream_model_update_ignored_models";
      last_detected; last_check_time; js "advanced_custom"].

Lemma jfield_switch b s d k o :
  jfield k (JObj (keep_switch b s d o))
  = if str_eqb (switch_name s) k then (if b then Some (JBool (is_on d s)) else None) else jfield k (JObj o).
Proof. apply jfield_keep. Qed.

Lemma jfield_advanced type text k o :
  jfield k (JObj (if (type =? CHANNEL_TYPE_ADVANCED_CUSTOM)%Z then
                    match parseAdvancedCustomConfig text with
                    | Some c => if json_truthy c then obj_set (js "advanced_custom") c o else o
                    | None => o
                    end
                  else keep_member false (js "advanced_custom") JNull o))
  = if str_eqb (js "advanced_custom") k
    then if (type =? CHANNEL_TYPE_ADVANCED_CUSTOM)%Z
         then match parseAdvancedCustomConfig text with Some c => Some c | None => jfield k (JObj o) end
         else None
    else jfield k (JObj o).
Proof.
  destruct (_ =? _)%Z; [|apply jfield_keep].
  destruct (parseAdvancedCustomConfig text) as [c|] eqn:E; [|by destruct (str_eqb _ _)].
  rewrite (parsed_config_truthy _ _ E). apply jfield_set.
Qed.

(** Both blocks of controls, for a type that is one or the other. *)
Lemma jfield_controls d k o :
  jfield k (JObj (set_anthropic_fields d (set_openai_fields d o)))
  = let openai := zin (f_type d) [1; 57]%Z in
    let anthropic := (f_type d =? 14)%Z in
    let at_type (b : bool) s := if b then Some (JBool (is_on d s)) else None in
    if str_eqb (switch_name claude_beta_query) k then at_type anthropic claude_beta_query
    else if str_eqb (switch_name allow_speed) k then at_type anthropic allow_speed
    else if str_eqb (switch_name allow_inference_geo) k then at_type (openai || anthropic) allow_inference_geo
    else if str_eqb (switch_name allow_include_obfuscation) k then at_type openai allow_include_obfuscation
    else if str_eqb (switch_name allow_safety_identifier) k then at_type openai allow_safety_identifier
    else if str_eqb (switch_name disable_store) k then at_type openai disable_store
    else jfield k (JObj o).
Proof.
  cbv zeta. unfold set_anthropic_fields, set_openai_fields.
  destruct (f_type d =? 14)%Z eqn:E14, (zin (f_type d) [1; 57]%Z) eqn:E1; rewrite !jfield_switch; cbn [orb];
    repeat match goal with |- context [if str_eqb ?a k then _ else _] => destruct (str_eqb a k) end; reflexivity.
Qed.

(** Members that a step does not touch. *)
Ltac untouched := rewrite ?jfield_switch, ?jfield_controls; cbv zeta; rewrite ?jfield_switch, ?jfield_keep, ?jfield_switch, ?jfield_keep;
  cbn [switch_name]; unfold last_check_time, last_detected; keys.

Lemma managed_cases k : In k managed \/ forallb (fun n => negb (str_eqb n k)) managed = true.
Proof.
  destruct (forallb (fun n => negb (str_eqb n k)) managed) eqn:E; [by right|left].
  apply not_true_iff_false in E. rewrite forallb_forall in E. apply dec_stable. intros H. apply E.
  intros n Hn. apply negb_true_iff, str_eqb_neq. by intros ->.
Qed.

(** The settings after the form, member by member. *)
Lemma edit_settings_exact d o k : jfield k (JObj (edit_settings d o)) = stored_member d k (jfield k (JObj o)).
Proof.
  unfold edit_settings. cbv zeta. rewrite jfield_advanced, jfield_if, jfield_upstream.


  destruct (managed_cases k) as [Hk|Hk].
  - unfold managed in Hk. cbn [map app SWITCHES switch_name In] in Hk.
    repeat match goal with
    | H : _ = k \/ _ |- _ => destruct H as [<-|H]
    end; try done.
    all: unfold stored_member, last_check_time, last_detected; cbn [switch_name find SWITCHES]; keys.
    all: untouched; unfold switch_types, effective, is_upstream; generalize (f_type d); intros type.
    all: destruct (zin type MODEL_FETCHABLE_TYPES); try reflexivity.
    all: unfold zin; cbn [existsb]; rewrite ?orb_false_r; try reflexivity.
    all: try by destruct (type =? 1)%Z, (type =? 14)%Z, (type =? 57)%Z.
    all: by destruct (type =? 3)%Z, (f_azure_responses_version d) as [v|]; cbn [andb]; try destruct (json_truthy v).
  - rewrite forallb_forall in Hk. unfold stored_member.
    assert (Hn : forall n, In n managed -> str_eqb n k = false) by (intros n Hn; by apply negb_true_iff, Hk).
    rewrite ?jfield_switch, ?jfield_controls. cbv zeta. rewrite ?jfield_switch, ?jfield_keep, ?jfield_switch, ?jfield_keep.
    cbn [switch_name find SWITCHES]. rewrite !Hn by (cbn; tauto). by destruct (zin _ _).
Qed.

(** ** Stored texts *)

(** The members of a text that passes the schema. *)
Definition members_of (settings : option jsstr) : Members :=
  match parse (or_text settings []) with Some (JObj o) => o | _ => [] end.

Lemma build_settings_ok d :
  isOptionalJsonObject (f_settings d) = true ->
  buildSettingsJSON d = Returns (stringify 0 0 (JObj (edit_settings d (members_of (f_settings d))))).
Proof.
  unfold isOptionalJsonObject, parseOptionalJson, buildSettingsJSON, members_of, or_text.
  destruct (f_settings d) as [s|]; [|done]. unfold str_or. destruct (truthy s) eqn:Es; [|reflexivity].
  cbn [andb]. rewrite Es. destruct (str_eqb s (js "{}")) eqn:E.
  { apply str_eqb_eq in E as ->. reflexivity. }
  cbn [negb]. destruct (truthy (trim s)) eqn:Et.
  - destruct (parse s) as [[]|]; try done.
  - intros _. rewrite parse_blank; [done|]. by destruct (trim s).
Qed.

(** ** Forms the schema accepts *)

Lemma accepted_fields new_URL d : channelFormSchema new_URL d = Returns true -> fields_ok d = true.
Proof. unfold channelFormSchema. by destruct (fields_ok d). Qed.

Lemma accepted_settings new_URL d : channelFormSchema new_URL d = Returns true -> isOptionalJsonObject (f_settings d) = true.
Proof. intros H%accepted_fields. unfold fields_ok in H. rewrite !andb_true_iff in H. tauto. Qed.

(** C19: the settings a form stores are those of a table.  A form that the schema
    accepts is printed without an exception, and each member of the printed
    object is the one [stored_member] gives: switches and key types are stored
    for their channel types and removed for the others, the upstream members
    are filled in where models can be fetched, and every other member is the
    one the settings had before. *)
Theorem stored_settings_exact new_URL d :
  channelFormSchema new_URL d = Returns true ->
  exists l, buildSettingsJSON d = Returns (stringify 0 0 (JObj l))
            /\ forall k, jfield k (JObj l) = stored_member d k (jfield k (JObj (members_of (f_settings d)))).
Proof.
  intros H%accepted_settings. exists (edit_settings d (members_of (f_settings d))).
  split; [by apply build_settings_ok|]. intros k. apply edit_settings_exact.
Qed.

(** An OpenAI channel whose settings hold a member the form does not know. *)
Definition sample_form : ChannelFormValues :=
  mkForm (js "a") 1 None (js "sk-1") None (js "gpt") [js "default"] None None None None None (num_of_Z 1) None None None None
    None None (Some (stringify 0 0 (JObj [(js "custom", JNum (num_of_Z 7)); (js "aws_key_type", JStr (js "api_key"))])))
    None None None None None None (fun _ => None) None None None
    (fun s => match s with disable_store => Some true | _ => None end) (Some (js "x, y,x")).

Lemma stored_settings_exact_witness :
  exists l, buildSettingsJSON sample_form = Returns (stringify 0 0 (JObj l))
    /\ jfield (js "custom") (JObj l) = Some (JNum (num_of_Z 7))
    /\ jfield (js "aws_key_type") (JObj l) = None
    /\ jfield (js "disable_store") (JObj l) = Some (JBool true).
Proof.
  destruct (stored_settings_exact (fun _ => None) sample_form) as (l & Hb & Hk); [vm_compute; reflexivity|].
  exists l. split; [exact Hb|]. rewrite !Hk. repeat split; vm_compute; reflexivity.
Defined.

(** ** Opening what was stored *)

Definition setting_object (d : ChannelFormValues) : json :=
  JObj (map (fun e => (extra_name e, or_json (f_extra d e) (no_extra e))) EXTRAS).

Lemma readable_object l : printable (JObj l) = true -> readable (stringify 0 0 (JObj l)) = Some (JObj l).
Proof. intros Hp. unfold readable. by rewrite parse_stringify. Qed.

Lemma stringify_truthy gap ind v : printable v = true -> truthy (stringify gap ind v) = true.
Proof. intros Hp. destruct (stringify_starts gap ind v Hp) as (c & t & -> & _). done. Qed.

Lemma or_json_again v x : or_json (Some (or_json v x)) x = or_json v x.
Proof.
  unfold or_json. destruct v as [y|]; [|by destruct (json_truthy x)].
  destruct (json_truthy y) eqn:E; [by rewrite E|]. by destruct (json_truthy x).
Qed.

Lemma extras_read_back d e :
  printable (setting_object d) = true ->
  extra_settings (Some (buildSettingJSON d)) e = or_json (f_extra d e) (no_extra e).
Proof.
  intros Hp. unfold extra_settings, buildSettingJSON. fold (setting_object d).
  rewrite stringify_truthy by done. unfold setting_object in *. rewrite readable_object by done.
  replace (jfield _ _) with (Some (or_json (f_extra d e) (no_extra e))) by (by destruct e). apply or_json_again.
Qed.

Lemma settings_parsed d :
  printable (JObj (edit_settings d (members_of (f_settings d)))) = true ->
  parsed_settings (stringify 0 0 (JObj (edit_settings d (members_of (f_settings d)))))
  = Some (JObj (edit_settings d (members_of (f_settings d)))).
Proof. intros Hp. unfold parsed_settings. rewrite stringify_truthy by done. by apply readable_object. Qed.

Lemma switch_found s : find (fun s' => str_eqb (switch_name s') (switch_name s)) SWITCHES = Some s.
Proof. by destruct s. Qed.

Lemma switch_stored d s old :
  stored_member d (switch_name s) old
  = if switch_types s (f_type d) then Some (JBool (effective d s)) else if is_upstream s then old else None.
Proof. unfold stored_member. by rewrite switch_found. Qed.

Lemma stored_vertex d old : f_type d = 41%Z ->
  stored_member d (js "vertex_key_type") old = Some (or_json (f_vertex_key_type d) (JStr (js "json"))).
Proof. intros E. unfold stored_member. rewrite E. reflexivity. Qed.

Lemma stored_aws d old : f_type d = 33%Z ->
  stored_member d (js "aws_key_type") old = Some (or_json (f_aws_key_type d) (JStr (js "ak_sk"))).
Proof. intros E. unfold stored_member. rewrite E. reflexivity. Qed.

Lemma stored_azure d old : f_type d = 3%Z ->
  stored_member d (js "azure_responses_version") old
  = match f_azure_responses_version d with Some v => if json_truthy v then Some v else None | None => None end.
Proof. intros E. unfold stored_member. rewrite E. reflexivity. Qed.

(** C20: what a form stores is what it shows when it is opened again.  For a form
    the schema accepts and a channel that holds the texts it printed, the
    switches of the channel's type are as they were set (models are synchronised
    only where they are checked), those of other types are off, except that the
    switches of upstream updates keep what the settings held before when models
    cannot be fetched for the type; and the extra settings and the key types are
    the chosen ones.  The settings and the extra settings must be ones that JSON
    reads back as they were printed: [printable] asks for finite numbers that
    their decimal text denotes, 16-bit characters and distinct member names. *)
Theorem stored_form_reopens new_URL d c :
  channelFormSchema new_URL d = Returns true ->
  printable (JObj (edit_settings d (members_of (f_settings d)))) = true -> printable (setting_object d) = true ->
  ch_type c = f_type d -> ch_setting c = Some (buildSettingJSON d) -> buildSettingsJSON d = Returns (ch_settings c) ->
  let d' := transformChannelToFormDefaults c in
  (forall s, f_switch d' s
     = Some (if switch_types s (f_type d) then effective d s
             else is_upstream s && is_true (switch_name s) (JObj (members_of (f_settings d)))))
  /\ (forall e, f_extra d' e = Some (or_json (f_extra d e) (no_extra e)))
  /\ (f_type d = 41%Z -> f_vertex_key_type d' = Some (or_json (f_vertex_key_type d) (JStr (js "json"))))
  /\ (f_type d = 33%Z -> f_aws_key_type d' = Some (or_json (f_aws_key_type d) (JStr (js "ak_sk"))))
  /\ (f_type d = 3%Z -> f_azure_responses_version d' = Some (or_json (f_azure_responses_version d) (JStr [])))
  /\ (zin (f_type d) MODEL_FETCHABLE_TYPES = true -> f_ignored_models d' = Some (json_to_str (ignored_models d))).
Proof.
  intros Ha Hp Hx Ht Hs Hb. rewrite build_settings_ok in Hb by (by eapply accepted_settings).
  apply returns_inj in Hb. unfold transformChannelToFormDefaults. cbv zeta. rewrite <- Hb, settings_parsed, Hs by done.
  cbn [f_switch f_extra f_vertex_key_type f_aws_key_type f_azure_responses_version f_ignored_models].
  unfold is_true_member, is_true, member_or, ignored_models_text.
  set (o := members_of (f_settings d)) in *. repeat split.
  - intros s. rewrite edit_settings_exact, switch_stored. f_equal.
    destruct (switch_types s (f_type d)); [by destruct (effective d s)|]. by destruct (is_upstream s).
  - intros e. by rewrite extras_read_back.
  - intros E. rewrite edit_settings_exact, stored_vertex by done. f_equal. apply or_json_again.
  - intros E. rewrite edit_settings_exact, stored_aws by done. f_equal. apply or_json_again.
  - intros E. rewrite edit_settings_exact, stored_azure by done.
    destruct (f_azure_responses_version d) as [v|]; [|done]. unfold or_json. destruct (json_truthy v) eqn:Ev; [|done]. by rewrite Ev.
  - intros E. rewrite edit_settings_exact. unfold stored_member. rewrite E. reflexivity.
Qed.

(** A channel that holds what [sample_form] stored. *)
Definition sample_channel : Channel :=
  mkChannel (num_of_Z 5) 1 None None (num_of_Z 1) (js "a") None None [] (js "gpt") (js "default") None None None None None
    (Some (buildSettingJSON sample_form)) None None []
    (match buildSettingsJSON sample_form with Returns t => t | Throws _ => [] end) None.

Lemma stored_form_reopens_witness :
  f_switch (transformChannelToFormDefaults sample_channel) disable_store = Some true
  /\ f_ignored_models (transformChannelToFormDefaults sample_channel) = Some (js "x,y").
Proof.
  destruct (stored_form_reopens (fun _ => None) sample_form sample_channel) as (Hsw & _ & _ & _ & _ & Hig);
    [vm_compute; reflexivity..|].
  split; [rewrite Hsw; vm_compute; reflexivity|]. rewrite Hig; vm_compute; reflexivity.
Defined.

(** ** Submissions *)

Lemma jfield_delete k ks o :
  jfield k (JObj (delete_members ks o)) = if has ks k then None else jfield k (JObj o).
Proof.
  unfold delete_members. revert o. induction ks as [|k' ks IH]; intros o; [done|]. cbn [foldl has existsb]. rewrite IH.
  fold (has ks k). destruct (has ks k); [by rewrite orb_true_r|]. rewrite orb_false_r.
  destruct (str_eqb k k') eqn:E.
  - apply str_eqb_eq in E as ->. apply jfield_removed.
  - apply jfield_unset. apply str_eqb_neq in E. apply str_eqb_neq. congruence.
Qed.

Lemma jfield_empty_to_null k o :
  jfield k (JObj (empty_to_null o)) = (fun v => match v with JStr [] => JNull | _ => v end) <$> jfield k (JObj o).
Proof.
  unfold empty_to_null. cbn [jfield]. induction o as [|[q v] o IH]; [done|]. cbn [map find fst snd].
  destruct v as [| | |[|c s]| |]; cbn [fst]; destruct (str_eqb q k); by rewrite ?IH.
Qed.

Lemma jfield_absent k o : ~ In k (map fst o) -> jfield k (JObj o) = None.
Proof.
  intros H. cbn [jfield]. destruct (find _ o) as [p|] eqn:E; [|done]. apply find_some in E as [Hin Hk].
  apply str_eqb_eq in Hk. exfalso. apply H. rewrite <- Hk. by apply in_map.
Qed.

(** The members of an update, before those that are set again. *)
Lemma update_member k d id p :
  transformFormDataToUpdatePayload d id = Returns p -> ~ In k (map fst (cleared_fields d)) ->
  exists payload, jfield k (JObj p) = jfield k (JObj (empty_to_null payload))
    /\ forall x, In x (map fst payload) -> In x [js "id"; js "name"; js "type"; js "base_url"; js "openai_organization";
         js "models"; js "group"; js "model_mapping"; js "priority"; js "weight"; js "test_model"; js "auto_ban";
         js "status_code_mapping"; js "tag"; js "remark"; js "setting"; js "param_override"; js "header_override";
         js "settings"; js "other"; js "key"].
Proof.
  unfold transformFormDataToUpdatePayload. destruct (buildSettingsJSON d) as [st|]; [|done]. cbn [obind]. cbv zeta.
  intros H Hk. apply returns_inj in H. subst p.
  set (payload := if filled _ then _ else _). exists payload. split.
  - assert (G : forall (l : Members) o, ~ In k (map fst l) -> jfield k (JObj (foldl (fun o p => obj_set p.1 p.2 o) o l)) = jfield k (JObj o)).
    { clear. induction l as [|[q v] l IH]; intros o Hk; [done|]. cbn [foldl fst snd]. rewrite IH, jfield_set.
      - destruct (str_eqb q k) eqn:E; [|done]. apply str_eqb_eq in E. exfalso. apply Hk. by left.
      - intros H. apply Hk. by right. }
    by apply G.
  - intros x Hx. unfold payload in Hx. destruct (filled _); vm_compute in Hx; vm_compute; tauto.
Qed.

(** What only a user with the permission may change. *)
Definition RESERVED : list jsstr :=
  [js "type"; js "key"; js "key_mode"; js "base_url"; js "openai_organization"; js "param_override";
   js "header_override"; js "setting"; js "settings"; js "other"].

Lemma update_no_key_mode d id p : transformFormDataToUpdatePayload d id = Returns p -> jfield (js "key_mode") (JObj p) = None.
Proof.
  intros E. destruct (update_member (js "key_mode") d id p E) as (payload & -> & Hin); [vm_compute; intuition discriminate|].
  rewrite jfield_empty_to_null, jfield_absent; [done|]. intros H1%Hin. vm_compute in H1. intuition discriminate.
Qed.

Lemma reserved_fields k : has RESERVED k = has SENSITIVE_UPDATE_FIELDS k || str_eqb k (js "key_mode").
Proof.
  unfold has, RESERVED, SENSITIVE_UPDATE_FIELDS. cbn [existsb].
  repeat match goal with |- context [str_eqb k ?x] => destruct (str_eqb k x) end; reflexivity.
Qed.

(** C21: a user without the permission to write sensitive fields sends none of
    them: whatever the form holds, the update has no type, key, key mode,
    address, organisation, override of parameters or headers, setting, settings
    or other text; and every other member is the one a user with the permission
    sends for the same form. *)
Theorem sensitive_fields_not_sent user multi id d req :
  canEditSensitive user = false -> mutationFn user multi (Some id) d = Returns req ->
  exists payload, req = UpdateChannel id payload
    /\ (forall k, In k [js "type"; js "key"; js "key_mode"; js "base_url"; js "openai_organization"; js "param_override";
          js "header_override"; js "setting"; js "settings"; js "other"] -> jfield k (JObj payload) = None)
    /\ forall owner full k, canEditSensitive owner = true -> mutationFn owner multi (Some id) d = Returns (UpdateChannel id full) ->
         ~ In k [js "type"; js "key"; js "key_mode"; js "base_url"; js "openai_organization"; js "param_override";
          js "header_override"; js "setting"; js "settings"; js "other"] -> jfield k (JObj payload) = jfield k (JObj full).
Proof.
  intros Hu. unfold mutationFn. rewrite Hu. cbn [andb].
  destruct (transformFormDataToUpdatePayload d id) as [p|] eqn:E; [|done]. cbn [obind].
  pose proof (update_no_key_mode d id p E) as Hp. set (q := if filled _ then p else _). intros H.
  assert (jfield (js "key_mode") (JObj q) = None) as Hq by (unfold q; destruct (filled _); [done|by rewrite jfield_delete]).
  exists (delete_members SENSITIVE_UPDATE_FIELDS q). split; [by destruct (f_key_mode d); apply returns_inj in H|].
  fold RESERVED. assert (forall k, In k RESERVED <-> has RESERVED k = true) as HR.
  { intros k. unfold has. rewrite existsb_exists. split; [intros Hk; exists k; by rewrite str_eqb_refl|by intros (x & Hx & ->%str_eqb_eq)]. }
  split.
  - intros k Hk. apply HR in Hk. rewrite reserved_fields in Hk. rewrite jfield_delete. destruct (has SENSITIVE_UPDATE_FIELDS k); [done|].
    apply str_eqb_eq in Hk as ->. exact Hq.
  - intros owner full k Ho Hf Hk. rewrite jfield_delete. rewrite HR, reserved_fields, not_true_iff_false, orb_false_iff in Hk.
    destruct Hk as [-> Hk]. rewrite Ho in Hf. cbn [andb] in Hf. apply returns_inj in Hf. injection Hf as <-.
    destruct (f_key_mode d); [|done]. destruct (_ && _); [|done]. rewrite jfield_set.
    destruct (str_eqb (js "key_mode") k) eqn:Ek; [|done]. apply str_eqb_eq in Ek. apply str_eqb_neq in Hk. congruence.
Qed.

Lemma sensitive_fields_not_sent_witness :
  exists payload, mutationFn (Some (mkUser 10 None)) true (Some (num_of_Z 5)) sample_form = Returns (UpdateChannel (num_of_Z 5) payload)
    /\ jfield (js "name") (JObj payload) = Some (JStr (js "a")) /\ jfield (js "key") (JObj payload) = None.
Proof.
  destruct (mutationFn (Some (mkUser 10 None)) true (Some (num_of_Z 5)) sample_form) as [req|m] eqn:E;
    [|vm_compute in E; discriminate].
  destruct (sensitive_fields_not_sent (Some (mkUser 10 None)) true (num_of_Z 5) sample_form req)
    as (payload & -> & Hk & _); [reflexivity|exact E|].
  exists payload. split; [reflexivity|]. split; [|apply Hk; right; left; reflexivity].
  vm_compute in E. injection E as <-. vm_compute. reflexivity.
Defined.

(** ** The rule editor and the form *)

(** The rules that the visual editor saves are a text the form accepts: what
    [handleSave] hands over in the visual mode passes the check of the field
    param_override. *)
Theorem saved_rules_accepted t t_line s text :
  editMode s = Visual ->
  (visualMode s = Operations -> printable (rules_json (kept (operations s))) = true) ->
  (forall l, visualMode s = Legacy -> parse (trim (legacyValue s)) = Some (JObj l) -> printable (JObj l) = true) ->
  save_result t t_line s = inr text -> isOptionalJsonObject (Some text) = true.
Proof.
  intros He Hp Hl. unfold save_result. rewrite He. unfold buildVisualJson.
  assert (G : forall l, printable (JObj l) = true -> isOptionalJsonObject (Some (stringify 2 0 (JObj l))) = true).
  { intros l Hpl. unfold isOptionalJsonObject, parseOptionalJson. rewrite parse_stringify by done. by destruct (truthy _). }
  destruct (visualMode s) eqn:Ev.
  - unfold buildOperationsJson. fold (kept (operations s)). intros H.
    destruct (kept (operations s)) as [|o r] eqn:Ek; [by injection H as <-|]. cbv zeta in H.
    destruct (truthy _); [discriminate|]. apply (inj inr) in H. rewrite <- H. apply G, Hp. reflexivity.
  - cbv zeta. destruct (negb _); [by intros [= <-]|].
    destruct (parse (trim (legacyValue s))) as [[]|] eqn:E; try discriminate.
    intros H. apply (inj inr) in H. rewrite <- H. apply G. by eapply Hl.
Qed.

Lemma saved_rules_accepted_witness :
  exists text, save_result (fun x => x) (fun k _ => k) sample_editor = inr text
    /\ truthy text = true /\ isOptionalJsonObject (Some text) = true.
Proof.
  exists (stringify 2 0 (rules_json (kept (operations sample_editor)))).
  assert (H : save_result (fun x => x) (fun k _ => k) sample_editor = inr (stringify 2 0 (rules_json (kept (operations sample_editor)))))
    by (vm_compute; reflexivity).
  split; [exact H|]. split; [vm_compute; reflexivity|].
  apply (saved_rules_accepted (fun x => x) (fun k _ => k) sample_editor); [reflexivity|intros _; vm_compute; reflexivity| |exact H].
  intros l Hv. discriminate Hv.
Defined.

(** In the JSON mode any JSON is saved, also what the form then refuses. *)
Lemma json_mode_saves_numbers t t_line :
  let s := mkEditor Json Operations [] [] (js "12") [] [] [] [] [] [] false [] 0 None in
  save_result t t_line s = inr (js "12") /\ isOptionalJsonObject (Some (js "12")) = false.
Proof. split; vm_compute; reflexivity. Qed.
