(* ===== verification/ChannelUtils.v ===== *)
(** * Helpers of the channel list

    Model of src/web/default/src/features/channels/lib/channel-utils.ts,
    status-code-risk-guard.ts, multi-key-utils.ts and upstream-update-utils.ts:
    labels, lists of models and groups, keys, rows aggregated by tag, and the
    guard against risky redirections of status codes.  The comparison of the
    locale is a parameter. *)

From S2P Require Import Prelude JsStr JsNum JsInt JsArray JsJson ModelMapping ParamOverride ChannelForm.
Local Open Scope js_scope.

(** ** Types *)

Definition CHANNEL_TYPES : list (Z * jsstr) :=
  [(0, js "Unknown"); (1, js "OpenAI"); (2, js "MjProxy"); (3, js "Azure"); (4, js "Ollama"); (5, js "MjProxyPlus");
   (7, js "OhMyGPT"); (8, js "Custom"); (14, js "Anthropic"); (15, js "Baidu"); (16, js "Zhipu"); (17, js "Ali");
   (18, js "Xunfei"); (19, js "360"); (20, js "OpenRouter"); (22, js "FastGPT"); (23, js "Tencent");
   (24, js "Gemini"); (25, js "Moonshot"); (26, js "Zhipu V4"); (27, js "Perplexity"); (31, js "LingYiWanWu");
   (33, js "AWS"); (34, js "Cohere"); (35, js "MiniMax"); (36, js "SunoAPI"); (37, js "Dify"); (38, js "Jina");
   (39, js "Cloudflare"); (40, js "SiliconFlow"); (41, js "Vertex AI"); (42, js "Mistral"); (43, js "DeepSeek");
   (44, js "MokaAI"); (45, js "VolcEngine"); (46, js "Baidu V2"); (47, js "Xinference"); (48, js "xAI");
   (49, js "Coze"); (50, js "Kling"); (51, js "Jimeng"); (52, js "Vidu"); (53, js "Submodel");
   (54, js "DoubaoVideo"); (55, js "Sora"); (56, js "Replicate"); (57, js "ChatGPT Subscription (Codex)");
   (58, js "Advanced Custom")]%Z.

Definition CHANNEL_TYPE_DISPLAY_ORDER : list Z :=
  [1; 14; 33; 24; 43; 3; 41; 48; 58; 42; 34; 20; 4; 40; 27; 25; 17; 26; 15; 46; 23; 18; 45; 31; 35; 49; 19; 47; 37;
   38; 39; 11; 8; 57; 22; 21; 44; 2; 5; 36; 50; 51; 52; 53; 54; 55; 56]%Z.

Definition zget {A} (k : Z) (l : list (Z * A)) : option A :=
  match find (fun p => (p.1 =? k)%Z) l with Some p => Some p.2 | None => None end.

(** The known types in the order of display, then the others. *)
Definition CHANNEL_TYPE_OPTIONS : list (Z * jsstr) :=
  let ordered := omap (fun id => match zget id CHANNEL_TYPES with
                                 | Some label => if truthy label then Some (id, label) else None
                                 | None => None
                                 end) CHANNEL_TYPE_DISPLAY_ORDER in
  ordered ++ List.filter (fun p => negb (p.1 =? 0)%Z && negb (zin p.1 (map fst ordered))) CHANNEL_TYPES.

Definition getChannelTypeLabel (type : Z) : jsstr :=
  match zget type CHANNEL_TYPES with Some l => str_or l (js "Unknown") | None => js "Unknown" end.

Definition TYPE_TO_ICON : list (Z * jsstr) :=
  [(1, js "OpenAI"); (6, js "OpenAI"); (7, js "OpenAI"); (8, js "OpenAI"); (58, js "NewAPI"); (3, js "Azure");
   (14, js "Claude"); (24, js "Gemini"); (11, js "Google"); (41, js "Gemini"); (33, js "Aws"); (39, js "Cloudflare");
   (15, js "Baidu"); (46, js "Baidu"); (16, js "Zhipu"); (26, js "Zhipu"); (17, js "Qwen"); (18, js "Spark");
   (23, js "Hunyuan"); (19, js "Ai360"); (25, js "Moonshot"); (31, js "Yi"); (35, js "Minimax");
   (45, js "Volcengine"); (4, js "Ollama"); (27, js "Perplexity"); (34, js "Cohere"); (42, js "Mistral");
   (43, js "DeepSeek"); (48, js "XAI"); (49, js "Coze"); (40, js "SiliconCloud"); (44, js "OpenAI");
   (20, js "OpenRouter"); (2, js "Midjourney"); (5, js "Midjourney"); (50, js "Kling"); (51, js "Jimeng");
   (52, js "Vidu"); (36, js "Suno"); (55, js "OpenAI"); (54, js "Doubao"); (56, js "Replicate"); (37, js "Dify");
   (38, js "Jina"); (22, js "FastGPT"); (47, js "Xinference"); (53, js "OpenAI"); (10, js "OpenAI");
   (21, js "OpenAI"); (12, js "OpenAI"); (13, js "OpenAI"); (9, js "OpenAI")]%Z.

Definition getChannelTypeIcon (type : Z) : jsstr :=
  match zget type TYPE_TO_ICON with Some l => str_or l (js "OpenAI") | None => js "OpenAI" end.

Definition TYPE_TO_KEY_PROMPT : list (Z * jsstr) :=
  [(15, js "Format: APIKey|SecretKey"); (18, js "Format: APPID|APISecret|APIKey");
   (22, js "Format: APIKey-AppId, e.g., fastgpt-0sp2gtvfdgyi4k30jwlgwf1i-64f335d84283f05518e9e041");
   (23, js "Format: AppId|SecretId|SecretKey"); (33, js "Format: Ak|Sk|Region");
   (50, js "Format: AccessKey|SecretKey (or just ApiKey if upstream is New API)");
   (51, js "Format: Access Key ID|Secret Access Key");
   (57, js "Paste Codex OAuth JSON credential (access_token / refresh_token / account_id)")]%Z.

Definition getKeyPromptForType (type : Z) : jsstr :=
  match zget type TYPE_TO_KEY_PROMPT with
  | Some l => str_or l (js "Enter API key for this channel")
  | None => js "Enter API key for this channel"
  end.

(** ** Status *)

Record Badge := mkBadge { badge_variant : jsstr; badge_label : jsstr }.

Definition CHANNEL_STATUS_CONFIG : list (Z * Badge) :=
  [(0, mkBadge (js "neutral") (js "Unknown")); (1, mkBadge (js "success") (js "Enabled"));
   (2, mkBadge (js "danger") (js "Disabled")); (3, mkBadge (js "warning") (js "Auto Disabled"))]%Z.

Definition MULTI_KEY_STATUS_CONFIG : list (Z * Badge) :=
  [(1, mkBadge (js "success") (js "Enabled")); (2, mkBadge (js "neutral") (js "Manual Disabled"));
   (3, mkBadge (js "danger") (js "Auto Disabled"))]%Z.

Definition getChannelStatusBadge (status : Z) : Badge :=
  default (mkBadge (js "neutral") (js "Unknown")) (zget status CHANNEL_STATUS_CONFIG).
Definition getMultiKeyStatusBadge (status : Z) : Badge :=
  default (mkBadge (js "success") (js "Enabled")) (zget status MULTI_KEY_STATUS_CONFIG).
Definition getMultiKeyStatusConfig (status : Z) : Badge :=
  default (mkBadge (js "neutral") (js "Unknown")) (zget status MULTI_KEY_STATUS_CONFIG).

Inductive MultiKeyAction := ActDelete | ActEnable | ActDisable | ActEnableAll | ActDisableAll | ActDeleteDisabled.

Definition getMultiKeyConfirmMessage (action : option MultiKeyAction) : jsstr :=
  match action with
  | None => []
  | Some ActDelete => js "Are you sure you want to delete this key? This action cannot be undone."
  | Some ActEnable => js "Enable this key?"
  | Some ActDisable => js "Disable this key?"
  | Some ActEnableAll => js "Are you sure you want to enable all keys?"
  | Some ActDisableAll => js "Are you sure you want to disable all enabled keys?"
  | Some ActDeleteDisabled => js "Are you sure you want to delete all auto-disabled keys? This action cannot be undone."
  end.

Definition isDestructiveAction (action : option MultiKeyAction) : bool :=
  match action with Some ActDelete | Some ActDeleteDisabled | Some ActDisableAll => true | _ => false end.

(** ** Keys *)

(** [key.slice(-n)]. *)
Definition last_chars (n : nat) (s : jsstr) : jsstr := drop (length s - n) s.

(** [key.split('\n').filter((k) => k.trim())]. *)
Definition key_lines (key : jsstr) : list jsstr := List.filter (fun k => truthy (trim k)) (split_char 10%N key).

Definition formatChannelKey (key : jsstr) (isMultiKey : bool) : jsstr :=
  if negb (truthy key) then []
  else if isMultiKey then digits_of (Z.of_nat (length (key_lines key))) ++ js " keys"
  else if Nat.leb (length key) 16 then take 4 key ++ js "..." ++ last_chars 4 key
  else take 8 key ++ js "..." ++ last_chars 8 key.

Definition formatKeyPreview (key : jsstr) (maxLength : nat) : jsstr :=
  if negb (truthy key) then []
  else if Nat.leb (length key) maxLength then key else take maxLength key ++ js "...".

Definition countKeys (key : jsstr) : nat := if negb (truthy key) then 0 else length (key_lines key).

Record Deduplicated := mkDedup {
  deduplicatedText : jsstr; beforeCount : nat; afterCount : nat; removedCount : nat
}.

Definition dedup_line (keys : list jsstr) (line : jsstr) : list jsstr :=
  let trimmedLine := trim line in
  if truthy trimmedLine && negb (has keys trimmedLine) then keys ++ [trimmedLine] else keys.

(** The set and the list of the source hold the same keys. *)
Definition deduplicateKeys (keysText : jsstr) : Deduplicated :=
  if negb (truthy keysText) || str_eqb (trim keysText) [] then mkDedup [] 0 0 0
  else
    let keyLines := split_char 10%N keysText in
    let keys := foldl dedup_line [] keyLines in
    mkDedup (join [10%N] keys) (length keyLines) (length keys) (length keyLines - length keys).

(** ** Models and groups *)

Definition parseModelsList (models : jsstr) : list jsstr := parseModels models.

Definition parseGroupsList (localeCompare : jsstr -> jsstr -> num) (groups : jsstr) : list jsstr :=
  sort_with (fun a b => if str_eqb a (js "default") then num_of_Z (-1)
                        else if str_eqb b (js "default") then num_of_Z 1 else localeCompare a b)
    (parseGroups groups).

Definition formatModelsString (models : list jsstr) : jsstr := join (js ",") models.
Definition formatGroupsString (groups : list jsstr) : jsstr := join (js ",") groups.

Definition parseChannelSettings (settingStr : option jsstr) : json :=
  match settingStr with
  | Some s => if truthy s then match parse s with Some v => v | None => JObj [] end else JObj []
  | None => JObj []
  end.

Definition parseChannelOtherSettings (settingsStr : option jsstr) : json :=
  match settingsStr with
  | Some s => if truthy s && negb (str_eqb s (js "{}")) then match parse s with Some v => v | None => JObj [] end
              else JObj []
  | None => JObj []
  end.

Definition validateChannelSettings (settings : jsstr) : bool := validateJSON settings.
Definition validateChannelName (name : jsstr) : bool := truthy (trim name).
Definition validateApiKey (key : jsstr) : bool := truthy (trim key).
Definition validateModels (models : jsstr) : bool := negb (Nat.eqb (length (parseModelsList models)) 0).
Definition validateGroups (lc : jsstr -> jsstr -> num) (groups : jsstr) : bool :=
  negb (Nat.eqb (length (parseGroupsList lc groups)) 0).

(** ** Balance, response time, priority *)

Definition getBalanceVariant (balance : num) : jsstr :=
  if neq balance zero then js "neutral"
  else if nlt balance (num_of_Z 1) then js "danger"
  else if nlt balance (num_of_Z 10) then js "warning" else js "success".

(** Without a translation function. *)
Definition formatResponseTime (timeMs : num) : jsstr :=
  if neq timeMs zero then js "Not tested"
  else if nlt timeMs (num_of_Z 1000) then num_to_str timeMs ++ js "ms"
  else toFixed (ndiv timeMs (num_of_Z 1000)) 2 ++ js "s".

Definition getResponseTimeConfig (timeMs : num) : Badge :=
  if neq timeMs zero then mkBadge (js "neutral") (js "Not tested")
  else if nle timeMs (num_of_Z 500) then mkBadge (js "success") (js "Excellent")
  else if nle timeMs (num_of_Z 1000) then mkBadge (js "success") (js "Good")
  else if nle timeMs (num_of_Z 2000) then mkBadge (js "warning") (js "Fair")
  else mkBadge (js "danger") (js "Poor").

Definition getPriorityDisplay (priority : option num) : jsstr :=
  match priority with Some x => num_to_str x | None => js "0" end.
Definition getWeightDisplay (weight : option num) : jsstr :=
  match weight with Some x => num_to_str x | None => js "0" end.

(** ** Channels of the list *)

(** The fields the list reads; [null] is the only missing priority or weight. *)
Record ListedChannel := mkListed {
  lc_id : num; lc_tag : option jsstr; lc_status : num; lc_group : jsstr; lc_used_quota : num; lc_response_time : num;
  lc_priority : option num; lc_weight : option num; lc_balance : num; lc_is_multi_key : bool;
  lc_multi_key_status_list : option (list (jsstr * num)); lc_multi_key_size : num
}.

Definition isChannelEnabled (channel : ListedChannel) : bool := neq (lc_status channel) (num_of_Z 1).
Definition isMultiKeyChannel (channel : ListedChannel) : bool := lc_is_multi_key channel.

Definition low_balance (channel : ListedChannel) : bool :=
  ngt (lc_balance channel) zero && nlt (lc_balance channel) (num_of_Z 1).

Definition all_keys_disabled (channel : ListedChannel) : bool :=
  lc_is_multi_key channel
  && match lc_multi_key_status_list channel with
     | Some l => nge (num_of_Z (Z.of_nat (length l))) (lc_multi_key_size channel)
     | None => false
     end.

Definition channelNeedsAttention (channel : ListedChannel) : bool :=
  neq (lc_status channel) (num_of_Z 3) || low_balance channel || all_keys_disabled channel.

Definition getAttentionReason (channel : ListedChannel) : option jsstr :=
  if neq (lc_status channel) (num_of_Z 3) then Some (js "Auto-disabled")
  else if low_balance channel then Some (js "Low balance")
  else if all_keys_disabled channel then Some (js "All keys disabled") else None.

(** ** Rows by tag *)

(** [tr_base] is the channel whose other fields the row copies. *)
Record TagRow := mkTagRow {
  tr_base : ListedChannel; tr_tag : jsstr; tr_status : option num; tr_group : jsstr; tr_used_quota : num;
  tr_response_time : num; tr_priority : option num; tr_weight : option num; tr_children : list ListedChannel
}.

Definition minus_one : num := num_of_Z (-1).

Definition new_row (tag : jsstr) (channel : ListedChannel) : TagRow :=
  mkTagRow channel tag None [] zero zero (Some minus_one) (Some minus_one) [].

(** [===] on numbers and [null]. *)
Definition same_number (a b : option num) : bool :=
  match a, b with Some x, Some y => neq x y | None, None => true | _, _ => false end.

(** The marker -1 is replaced, another value has to agree. *)
Definition merge_number (current new : option num) : option num :=
  if same_number current (Some minus_one) then new
  else if same_number current new then current else None.

Definition groups_of (group : jsstr) : list jsstr := List.filter truthy (split_char 44%N group).

(** [existingGroups] is not extended while groups are appended. *)
Definition merge_group (group new : jsstr) : jsstr :=
  if str_eqb group [] then new
  else foldl (fun acc g => if has (groups_of group) g then acc else acc ++ js "," ++ g) group (groups_of new).

Definition merge_status (current : option num) (status : num) : option num :=
  if neq status (num_of_Z 1) then Some (num_of_Z 1)
  else match current with None => Some status | _ => current end.

Definition add_child (row : TagRow) (channel : ListedChannel) : TagRow :=
  let children := tr_children row ++ [channel] in
  let childCount := Z.of_nat (length children) in
  mkTagRow (tr_base row) (tr_tag row) (merge_status (tr_status row) (lc_status channel))
    (merge_group (tr_group row) (lc_group channel)) (nadd (tr_used_quota row) (lc_used_quota channel))
    (ndiv (nadd (nmul (tr_response_time row) (num_of_Z (childCount - 1))) (lc_response_time channel)) (num_of_Z childCount))
    (merge_number (tr_priority row) (lc_priority channel)) (merge_number (tr_weight row) (lc_weight channel)) children.

Definition channel_tag (channel : ListedChannel) : jsstr := or_text (lc_tag channel) [].

(** The map and the result hold the same row objects, in the same order. *)
Definition aggregate_step (tagMap : list (jsstr * TagRow)) (channel : ListedChannel) : list (jsstr * TagRow) :=
  let tag := channel_tag channel in
  mset tag (add_child (default (new_row tag channel) (mget tag tagMap)) channel) tagMap.

Definition aggregateChannelsByTag (channels : list ListedChannel) : list TagRow :=
  map snd (foldl aggregate_step [] channels).

(** ** Redirections of status codes *)

Definition NON_REDIRECTABLE_STATUS_CODES : list Z := [504; 524]%Z.

(** [/^[1-5]\d{2}$/] and the number it reads. *)
Definition three_digits (s : jsstr) : option Z :=
  match s with
  | [a; b; c] => if ((49 <=? a) && (a <=? 53))%N && is_digit b && is_digit c
                 then Some (100 * (Z.of_N a - 48) + 10 * (Z.of_N b - 48) + (Z.of_N c - 48))%Z else None
  | _ => None
  end.

Definition parseStatusCodeKey (rawKey : jsstr) : option Z := three_digits (trim rawKey).

Definition parseStatusCodeMappingTarget (rawValue : json) : option num :=
  match rawValue with
  | JNum x => if is_status_code x then Some x else None
  | JStr s => num_of_Z <$> three_digits (trim s)
  | _ => None
  end.

(** The entries of a text that is a JSON object; [] for any other text. *)
Definition mapping_entries (text : jsstr) : list (jsstr * json) :=
  if negb (truthy (trim text)) then []
  else match parse text with Some (JObj l) => object_order l | _ => [] end.

Definition collectInvalidStatusCodeEntries (statusCodeMappingStr : jsstr) : list jsstr :=
  omap (fun e => match parseStatusCodeKey e.1, parseStatusCodeMappingTarget e.2 with
                 | Some _, Some _ => None
                 | _, _ => Some (e.1 ++ [32; 8594; 32]%N ++ json_to_str e.2)
                 end) (mapping_entries statusCodeMappingStr).

Definition redirect_text (from : Z) (to : num) : jsstr := digits_of from ++ js " -> " ++ num_to_str to.

Definition risky_entry (e : jsstr * json) : option jsstr :=
  match parseStatusCodeKey e.1, parseStatusCodeMappingTarget e.2 with
  | Some from, Some to =>
      if negb (zin from NON_REDIRECTABLE_STATUS_CODES) || neq (num_of_Z from) to then None else Some (redirect_text from to)
  | _, _ => None
  end.

(** The order of code units, as [sort()] without a comparison. *)
Fixpoint str_leb (a b : jsstr) : bool :=
  match a, b with
  | [], _ => true
  | _ :: _, [] => false
  | x :: a', y :: b' => if (x =? y)%N then str_leb a' b' else (x <? y)%N
  end.

Definition collectDisallowedStatusCodeRedirects (statusCodeMappingStr : jsstr) : list jsstr :=
  isort str_leb (uniq (omap risky_entry (mapping_entries statusCodeMappingStr))).

Definition collectNewDisallowedStatusCodeRedirects (originalStr currentStr : jsstr) : list jsstr :=
  let currentRisky := collectDisallowedStatusCodeRedirects currentStr in
  if Nat.eqb (length currentRisky) 0 then []
  else
    let originalRiskySet := collectDisallowedStatusCodeRedirects originalStr in
    List.filter (fun m => negb (has originalRiskySet m)) currentRisky.

(** ** Upstream models *)

Definition normalizeModelList (models : list json) : list jsstr :=
  uniq (List.filter truthy (map (fun m => trim (if json_truthy m then json_to_str m else [])) models)).

(** [parsed[k] as unknown[] || []]; a value that is not an array throws. *)
Definition model_list_member (k : jsstr) (v : json) : outcome (list jsstr) :=
  match jfield k v with
  | Some (JArr l) => Returns (normalizeModelList l)
  | Some x => if json_truthy x then Throws (js "TypeError") else Returns []
  | None => Returns []
  end.

(** [settings] is an object or a text. *)
Definition parse_settings_value (settings : json) : option json :=
  match settings with
  | JObj l => Some (JObj l)
  | JStr s => match parse s with Some (JObj l) => Some (JObj l) | Some (JArr l) => Some (JArr l) | _ => None end
  | _ => None
  end.

Definition parseUpstreamUpdateMeta (settings : json) : outcome (bool * list jsstr * list jsstr) :=
  match parse_settings_value settings with
  | None => Returns (false, [], [])
  | Some parsed =>
      let! add := model_list_member (js "upstream_model_update_last_detected_models") parsed in
      let! remove := model_list_member (js "upstream_model_update_last_removed_models") parsed in
      Returns (is_true (js "upstream_model_update_check_enabled") parsed, add, remove)
  end.
