(* ===== verification/ChannelUtilsProps.v ===== *)
(** * What the channel list shows

    Rows by tag against the grouping they stand for, deduplicated keys, and the
    guard against risky redirections. *)

From S2P Require Import Prelude JsStr JsNum JsInt JsArray JsJson JsPrint ModelMapping ParamOverride ParamOverrideProps ChannelForm ChannelUtils.
Local Open Scope js_scope.

(** ** Rows by tag *)

Definition of_tag (tag : jsstr) (channels : list ListedChannel) : list ListedChannel :=
  List.filter (fun c => str_eqb (channel_tag c) tag) channels.

(** The row of a tag, from the channels that have it. *)
Definition row_of (tag : jsstr) (channels : list ListedChannel) : option TagRow :=
  match of_tag tag channels with
  | [] => None
  | c :: l => Some (foldl add_child (new_row tag c) (c :: l))
  end.

Lemma of_tag_snoc tag channels c :
  of_tag tag (channels ++ [c]) = of_tag tag channels ++ (if str_eqb (channel_tag c) tag then [c] else []).
Proof. unfold of_tag. rewrite List.filter_app. cbn. by destruct (str_eqb _ _). Qed.

Lemma row_of_snoc tag channels c :
  row_of tag (channels ++ [c])
  = if str_eqb (channel_tag c) tag then Some (add_child (default (new_row tag c) (row_of tag channels)) c)
    else row_of tag channels.
Proof.
  unfold row_of. rewrite of_tag_snoc. destruct (str_eqb (channel_tag c) tag); [|by rewrite app_nil_r].
  destruct (of_tag tag channels) as [|x l]; [done|]. cbn [app]. by rewrite app_comm_cons, foldl_app.
Qed.

(** After some channels the map holds the rows of their tags. *)
Lemma aggregate_map channels :
  (forall tag, mget tag (foldl aggregate_step [] channels) = row_of tag channels)
  /\ map fst (foldl aggregate_step [] channels) = uniq (map channel_tag channels).
Proof.
  induction channels as [|c channels [IHg IHk]] using rev_ind; [done|]. rewrite foldl_app. cbn [foldl].
  unfold aggregate_step at 1 3. cbv zeta. rewrite IHg. split.
  - intros tag. rewrite row_of_snoc. destruct (str_eqb (channel_tag c) tag) eqn:E.
    + apply str_eqb_eq in E as <-. apply mget_mset.
    + apply str_eqb_neq in E. rewrite mget_mset_ne; [apply IHg|congruence].
  - rewrite map_app. cbn [map]. unfold uniq. rewrite foldl_app. cbn [foldl]. fold (uniq (map channel_tag channels)).
    rewrite <- IHk, mset_keys. unfold sadd, mhas.
    destruct (mget (channel_tag c) (foldl aggregate_step [] channels)) as [r|] eqn:E.
    + apply mget_In in E. rewrite decide_True; [done|]. apply in_map_iff. by exists (channel_tag c, r).
    + apply mget_None_keys in E. by rewrite decide_False.
Qed.

(** ** The fields of a row *)

Lemma fold_children cs row :
  tr_children (foldl add_child row cs) = tr_children row ++ cs /\ tr_tag (foldl add_child row cs) = tr_tag row
  /\ tr_used_quota (foldl add_child row cs) = foldl nadd (tr_used_quota row) (map lc_used_quota cs).
Proof.
  revert row. induction cs as [|c cs IH]; intros row; [by rewrite app_nil_r|].
  cbn [foldl map]. destruct (IH (add_child row c)) as (-> & -> & ->). cbn [add_child tr_children tr_tag tr_used_quota].
  by rewrite <- app_assoc.
Qed.

Definition row_status (cs : list ListedChannel) : option num :=
  if existsb isChannelEnabled cs then Some (num_of_Z 1) else match cs with c :: _ => Some (lc_status c) | [] => None end.

Lemma fold_status cs row :
  tr_status (foldl add_child row cs)
  = if existsb isChannelEnabled cs then Some (num_of_Z 1)
    else match tr_status row with Some x => Some x | None => match cs with c :: _ => Some (lc_status c) | [] => None end end.
Proof.
  revert row. induction cs as [|c cs IH]; intros row; [cbn; by destruct (tr_status row)|].
  cbn [foldl existsb]. rewrite IH. cbn [add_child tr_status]. unfold merge_status. fold (isChannelEnabled c).
  destruct (isChannelEnabled c) eqn:E; [by destruct (existsb _ cs)|]. cbn [orb].
  destruct (existsb _ cs); [done|]. by destruct (tr_status row).
Qed.

Lemma split_char_without c s g : In g (split_char c s) -> ~ In c g.
Proof.
  revert g. induction s as [|d s IH]; intros g; cbn [split_char].
  - intros [<-|[]] [].
  - destruct (N.eqb_spec d c) as [->|Hd].
    + intros [<-|H]; [intros []|by apply IH].
    + destruct (split_char c s) as [|p ps] eqn:E; [by destruct (split_char_nonempty c s)|].
      intros [<-|H]; [|apply IH; by right]. intros [|H]; [done|]. apply (IH p); [by left|done].
Qed.

Lemma split_char_concat c a b : split_char c (a ++ c :: b) = split_char c a ++ split_char c b.
Proof.
  induction a as [|d a IH]; cbn [app split_char]; [by rewrite N.eqb_refl|]. rewrite IH.
  destruct (N.eqb_spec d c); [done|]. by destruct (split_char c a) as [|p ps] eqn:E; [destruct (split_char_nonempty c a)|].
Qed.

(** A group of a list has no comma. *)
Lemma groups_of_plain g x : In g (groups_of x) -> ~ In 44%N g /\ truthy g = true.
Proof. unfold groups_of. rewrite filter_In. intros [H ->]. split; [|done]. by apply (split_char_without 44%N x). Qed.

Lemma groups_of_snoc x g : truthy g = true -> ~ In 44%N g -> groups_of (x ++ js "," ++ g) = groups_of x ++ [g].
Proof.
  intros Ht Hg. unfold groups_of. change (js "," ++ g) with (44%N :: g).
  rewrite split_char_concat, List.filter_app, (split_char_alone 44%N g) by (by apply includes_char). cbn. by rewrite Ht.
Qed.

Lemma groups_append new x known :
  (forall g, In g new -> ~ In 44%N g /\ truthy g = true) ->
  groups_of (foldl (fun acc g => if has known g then acc else acc ++ js "," ++ g) x new)
  = groups_of x ++ List.filter (fun g => negb (has known g)) new.
Proof.
  revert x. induction new as [|g new IH]; intros x Hn; [by rewrite app_nil_r|].
  cbn [foldl List.filter]. rewrite IH by (intros; apply Hn; by right).
  destruct (Hn g) as [Hc Ht]; [by left|].
  destruct (has known g); [done|]. cbn [negb]. by rewrite groups_of_snoc, <- app_assoc.
Qed.

Lemma merge_group_In g a b : In g (groups_of (merge_group a b)) <-> In g (groups_of a) \/ In g (groups_of b).
Proof.
  unfold merge_group. destruct (str_eqb a []) eqn:E.
  - apply str_eqb_eq in E as ->. cbn. tauto.
  - rewrite groups_append by (intros; by eapply groups_of_plain). rewrite in_app_iff, filter_In, negb_true_iff.
    destruct (has (groups_of a) g) eqn:Eh; [apply has_In in Eh; tauto|]. tauto.
Qed.

Lemma fold_groups g cs row :
  In g (groups_of (tr_group (foldl add_child row cs)))
  <-> In g (groups_of (tr_group row)) \/ exists c, In c cs /\ In g (groups_of (lc_group c)).
Proof.
  revert row. induction cs as [|c cs IH]; intros row; cbn [foldl].
  - split; [by left|]. by intros [H|(? & [] & _)].
  - rewrite IH. cbn [add_child tr_group]. rewrite merge_group_In. split.
    + intros [[H|H]|(x & Hx & H)]; [by left|right; exists c; split; [by left|done]|right; exists x; split; [by right|done]].
    + intros [H|(x & [<-|Hx] & H)]; [tauto|tauto|right; by exists x].
Qed.

Lemma rows_exact channels row :
  In row (aggregateChannelsByTag channels) <-> exists tag, row_of tag channels = Some row.
Proof.
  destruct (aggregate_map channels) as [Hg Hk]. unfold aggregateChannelsByTag. rewrite in_map_iff. split.
  - intros ([tag r] & <- & Hin). exists tag. rewrite <- Hg. apply In_mget; [rewrite Hk; apply uniq_NoDup|done].
  - intros (tag & H). rewrite <- Hg in H. apply mget_In in H. by exists (tag, row).
Qed.

Lemma row_tag tag channels row : row_of tag channels = Some row -> tr_tag row = tag.
Proof.
  unfold row_of. destruct (of_tag tag channels) as [|c l]; [done|]. intros [= <-].
  change (foldl add_child (add_child (new_row tag c) c) l) with (foldl add_child (new_row tag c) (c :: l)).
  by destruct (fold_children (c :: l) (new_row tag c)) as (_ & -> & _).
Qed.

Lemma row_tags channels : map tr_tag (aggregateChannelsByTag channels) = uniq (map channel_tag channels).
Proof.
  destruct (aggregate_map channels) as [Hg Hk]. rewrite <- Hk. unfold aggregateChannelsByTag. rewrite map_map.
  apply map_ext_in. intros [tag r] Hin. cbn [snd fst]. apply In_mget in Hin; [|rewrite Hk; apply uniq_NoDup].
  rewrite Hg in Hin. by apply row_tag in Hin.
Qed.

(** The tag mode shows one row per tag, in the order in which the tags first
    occur, and every channel in the row of its tag: the children of a row are
    exactly the channels with its tag, in order, its quota is their sum, it is
    enabled exactly when one of them is, and its groups are theirs. *)
Theorem tag_rows_exact channels :
  map tr_tag (aggregateChannelsByTag channels) = uniq (map channel_tag channels)
  /\ forall row, In row (aggregateChannelsByTag channels) ->
     tr_children row = of_tag (tr_tag row) channels
     /\ tr_used_quota row = foldl nadd zero (map lc_used_quota (tr_children row))
     /\ tr_status row = row_status (tr_children row)
     /\ forall g, In g (groups_of (tr_group row)) <-> exists c, In c (tr_children row) /\ In g (groups_of (lc_group c)).
Proof.
  split; [apply row_tags|]. intros row [tag H]%rows_exact. rewrite (row_tag _ _ _ H). unfold row_of in H.
  destruct (of_tag tag channels) as [|c l]; [done|]. apply (inj Some) in H. rewrite <- H.
  destruct (fold_children (c :: l) (new_row tag c)) as (-> & _ & ->). split; [done|]. split; [done|]. split.
  - rewrite fold_status. unfold row_status. by destruct (existsb _ _).
  - intros g. rewrite fold_groups. cbn. split; [by intros [[]|]|by right].
Qed.

Definition listed (tag : option jsstr) (priority : Z) : ListedChannel :=
  mkListed zero tag (num_of_Z 1) (js "default") zero zero (Some (num_of_Z priority)) None zero false None zero.

(** The marker for a row without a priority is a priority channels can have: a
    channel with priority -1 is overruled instead of shown as a difference. *)
Lemma marker_hides_difference :
  map tr_priority (aggregateChannelsByTag [listed None (-1); listed None 5]) = [Some (num_of_Z 5)]
  /\ map tr_priority (aggregateChannelsByTag [listed None 5; listed None (-1)]) = [None].
Proof. split; vm_compute; reflexivity. Qed.

(** ** Keys *)

(** The lines that are kept: trimmed, not blank, each once. *)
Definition kept_keys (text : jsstr) : list jsstr :=
  uniq (List.filter truthy (map trim (split_char 10%N text))).

Lemma dedup_fold lines keys :
  foldl dedup_line keys lines = foldl (fun s x => sadd x s) keys (List.filter truthy (map trim lines)).
Proof.
  revert keys. induction lines as [|l lines IH]; intros keys; [done|]. cbn [foldl map List.filter]. rewrite IH.
  unfold dedup_line. cbv zeta. destruct (truthy (trim l)); [|done]. cbn [foldl]. f_equal. unfold sadd. cbn [andb].
  destruct (has keys (trim l)) eqn:E.
  - apply has_In in E. by rewrite decide_True.
  - rewrite decide_False; [done|]. intros H%has_In. congruence.
Qed.

Lemma trim_spaces s : forallb is_space s = true -> trim s = [].
Proof. intros H. unfold trim, trimStart, trimEnd. by rewrite (dropb_all is_space s H). Qed.

Lemma trim_part c s : In c (trim s) -> In c s.
Proof.
  unfold trim, trimEnd, trimStart. rewrite <- in_rev. intros H.
  assert (G : forall l, In c (dropb is_space l) -> In c l).
  { clear. induction l as [|x l IH]; [done|]. cbn [dropb]. destruct (is_space x); [right; by apply IH|done]. }
  apply G in H. rewrite <- in_rev in H. by apply G.
Qed.

Lemma split_char_part c s p x : In p (split_char c s) -> In x p -> In x s.
Proof.
  revert p. induction s as [|d s IH]; intros p; cbn [split_char]; [by intros [<-|[]]|].
  destruct (N.eqb_spec d c) as [->|Hd].
  - intros [<-|H] Hx; [done|]. right. by apply (IH p).
  - destruct (split_char c s) as [|q qs] eqn:E; [by destruct (split_char_nonempty c s)|].
    intros [<-|H] Hx; [|right; apply (IH p); [by right|done]].
    destruct Hx as [->|Hx]; [by left|]. right. apply (IH q); [by left|done].
Qed.

Lemma split_char_join c ks : (forall k, In k ks -> ~ In c k) -> ks <> [] -> split_char c (join [c] ks) = ks.
Proof.
  induction ks as [|k ks IH]; intros Hk Hn; [done|]. destruct ks as [|k2 ks].
  - cbn. apply split_char_alone, includes_char, Hk. by left.
  - rewrite join_cons by done. cbn [app]. rewrite split_char_concat, split_char_alone by (apply includes_char, Hk; by left).
    cbn [app]. f_equal. apply IH; [|done]. intros q Hq. apply Hk. by right.
Qed.

Lemma kept_keys_plain text k : In k (kept_keys text) -> ~ In 10%N k /\ truthy k = true /\ trim k = k.
Proof.
  unfold kept_keys. rewrite uniq_In, filter_In. intros [(p & <- & Hp)%in_map_iff Ht].
  split; [|split; [done|apply trim_idemp]]. intros H%trim_part. by apply split_char_without in Hp.
Qed.

Lemma uniq_distinct {A} `{EqDecision A} (l : list A) : NoDup l -> uniq l = l.
Proof.
  intros Hl. unfold uniq. change l with ([] ++ l) at 2. change l with ([] ++ l) in Hl. revert Hl. generalize (@nil A).
  induction l as [|x l IH]; intros s Hs; [by rewrite app_nil_r|]. cbn [foldl]. unfold sadd at 2.
  rewrite decide_False.
  - rewrite IH; rewrite <- app_assoc; done.
  - intros Hin. apply NoDup_app in Hs as (_ & Hd & _). apply (Hd x); [by apply list_elem_of_In|left].
Qed.

(** The kept keys of the text of the kept keys. *)
Lemma kept_again text : kept_keys text <> [] -> kept_keys (join [10%N] (kept_keys text)) = kept_keys text.
Proof.
  intros Hn. unfold kept_keys at 1. rewrite split_char_join; [|intros k Hk; by apply kept_keys_plain in Hk as [? _]|done].
  rewrite map_ext_in with (g := fun k => k) by (intros k Hk; by apply kept_keys_plain in Hk as (_ & _ & ?)).
  rewrite map_id, filter_all; [apply uniq_distinct, uniq_NoDup|].
  apply forallb_forall. intros k Hk. by apply kept_keys_plain in Hk as (_ & ? & _).
Qed.

Lemma dedup_keys text : deduplicatedText (deduplicateKeys text) = join [10%N] (kept_keys text).
Proof.
  unfold deduplicateKeys. destruct (negb (truthy text) || str_eqb (trim text) []) eqn:E.
  - unfold kept_keys. assert (Hb : trim text = []).
    { apply orb_true_iff in E as [E|E]; [|by apply str_eqb_eq in E]. by destruct text. }
    assert (Hl : List.filter truthy (map trim (split_char 10%N text)) = []); [|by rewrite Hl].
    clear E. apply trim_blank in Hb. rewrite forallb_forall in Hb.
    destruct (List.filter truthy (map trim (split_char 10 text))) as [|k r] eqn:E; [done|]. exfalso.
    assert (Hk : In k (List.filter truthy (map trim (split_char 10%N text)))) by (rewrite E; by left).
    apply filter_In in Hk as [(p & <- & Hp)%in_map_iff Ht].
    rewrite trim_spaces in Ht; [done|]. apply forallb_forall. intros c Hc. apply Hb. by apply (split_char_part 10%N text p).
  - cbv zeta. cbn [deduplicatedText]. unfold kept_keys, uniq. by rewrite dedup_fold.
Qed.

(** Removing duplicate keys keeps each key once: the lines of the result are
    the trimmed lines of the text that are not blank, in order of first
    occurrence, and a second pass finds nothing to remove. *)
Theorem keys_deduplicated text :
  kept_keys text <> [] ->
  let result := deduplicateKeys text in
  split_char 10%N (deduplicatedText result) = kept_keys text /\ NoDup (kept_keys text)
  /\ (forall k, In k (kept_keys text) <-> truthy k = true /\ exists line, In line (split_char 10%N text) /\ trim line = k)
  /\ deduplicatedText (deduplicateKeys (deduplicatedText result)) = deduplicatedText result
  /\ removedCount (deduplicateKeys (deduplicatedText result)) = 0.
Proof.
  intros Hn. cbv zeta. rewrite !dedup_keys, kept_again by done.
  assert (Hsp : split_char 10%N (join [10%N] (kept_keys text)) = kept_keys text).
  { apply split_char_join; [|done]. intros k Hk. by apply kept_keys_plain in Hk as [? _]. }
  split; [done|]. split; [apply uniq_NoDup|]. split.
  { intros k. unfold kept_keys. rewrite uniq_In, filter_In, in_map_iff. split.
    - intros [(line & <- & Hl) Ht]. split; [done|]. by exists line.
    - intros [Ht (line & Hl & <-)]. split; [by exists line|done]. }
  split; [done|]. unfold deduplicateKeys. destruct (_ || _); [done|]. cbv zeta. cbn [removedCount].
  rewrite Hsp, dedup_fold. fold (uniq (List.filter truthy (map trim (kept_keys text)))).
  rewrite <- Hsp at 2. fold (kept_keys (join [10%N] (kept_keys text))). rewrite kept_again by done. lia.
Qed.

Lemma keys_deduplicated_witness :
  let text := js "a" ++ [10%N] ++ js " b " ++ [10%N; 10%N] ++ js "a" in
  split_char 10%N (deduplicatedText (deduplicateKeys text)) = [js "a"; js "b"].
Proof.
  intros text. destruct (keys_deduplicated text) as [H _]; [vm_compute; discriminate|].
  rewrite H. vm_compute. reflexivity.
Defined.

(** Blank lines are counted as duplicates: a final newline is reported as one. *)
Lemma blank_line_counted : removedCount (deduplicateKeys (js "a" ++ [10%N])) = 1.
Proof. vm_compute. reflexivity. Qed.

(** A key of at most eight characters is shown whole. *)
Lemma short_key_shown key :
  key <> [] -> length key <= 8 -> exists o, formatChannelKey key false = take 4 key ++ js "..." ++ o ++ drop 4 key.
Proof.
  intros Hn Hl. unfold formatChannelKey. destruct key as [|x key']; [done|]. set (key := x :: key') in *.
  change (truthy key) with true. cbn [negb]. destruct (Nat.leb_spec (length key) 16); [|lia].
  exists (take (4 - (length key - 4)) (drop (length key - 4) key)). do 2 f_equal. unfold last_chars.
  rewrite <- (take_drop (4 - (length key - 4)) (drop (length key - 4) key)) at 1. f_equal.
  rewrite drop_drop. f_equal. lia.
Qed.

(** ** The guard against risky redirections *)

(** A redirection the guard warns of: from a timeout to another code. *)
Definition risky (text m : jsstr) : Prop :=
  exists key value from to, In (key, value) (mapping_entries text)
    /\ parseStatusCodeKey key = Some from /\ parseStatusCodeMappingTarget value = Some to
    /\ In from NON_REDIRECTABLE_STATUS_CODES /\ neq (num_of_Z from) to = false /\ m = redirect_text from to.

Lemma zin_In x l : zin x l = true <-> In x l.
Proof.
  unfold zin. rewrite existsb_exists. split; [by intros (y & Hy & ->%Z.eqb_eq)|].
  intros H. exists x. split; [done|apply Z.eqb_refl].
Qed.

Lemma collected_risky text m : In m (collectDisallowedStatusCodeRedirects text) <-> risky text m.
Proof.
  unfold collectDisallowedStatusCodeRedirects. rewrite isort_In, uniq_In. rewrite <- list_elem_of_In, list_elem_of_omap.
  split.
  - intros ([key value] & Hin%list_elem_of_In & H). unfold risky_entry in H. cbn [fst snd] in H.
    destruct (parseStatusCodeKey key) as [from|] eqn:Ef; [|done].
    destruct (parseStatusCodeMappingTarget value) as [to|] eqn:Et; [|done].
    destruct (negb _ || _) eqn:E; [done|]. apply orb_false_iff in E as [Hz%negb_false_iff%zin_In Hn].
    injection H as <-. by exists key, value, from, to.
  - intros (key & value & from & to & Hin & Hf & Ht & Hz%zin_In & Hn & ->). exists (key, value).
    split; [by apply list_elem_of_In|]. unfold risky_entry. cbn [fst snd]. by rewrite Hf, Ht, Hz, Hn.
Qed.

(** Before a channel is saved the operator is asked about exactly the new
    redirections of a timeout (504 or 524) to another status code: those of the
    current mapping that the stored mapping does not have, each once. *)
Theorem new_redirects_exact originalStr currentStr :
  let asked := collectNewDisallowedStatusCodeRedirects originalStr currentStr in
  NoDup asked /\ forall m, In m asked <-> risky currentStr m /\ ~ risky originalStr m.
Proof.
  cbv zeta. unfold collectNewDisallowedStatusCodeRedirects. cbv zeta.
  assert (Hd : NoDup (collectDisallowedStatusCodeRedirects currentStr)).
  { unfold collectDisallowedStatusCodeRedirects. rewrite <- isort_perm. apply uniq_NoDup. }
  destruct (Nat.eqb_spec (length (collectDisallowedStatusCodeRedirects currentStr)) 0) as [E|E].
  - split; [constructor|]. intros m. split; [intros []|]. intros [H%collected_risky _].
    destruct (collectDisallowedStatusCodeRedirects currentStr); [destruct H|cbn in E; lia].
  - split; [by apply NoDup_ListNoDup, List.NoDup_filter, NoDup_ListNoDup|].
    intros m. rewrite filter_In, negb_true_iff, collected_risky, <- (collected_risky originalStr), <- has_In.
    by rewrite not_true_iff_false.
Qed.
