(* ===== verification/UpstreamUpdates.v ===== *)
(** * Updates of upstream models

    Model of src/web/default/src/features/channels/hooks/
    use-channel-upstream-updates.ts as a transition system: the modal with the
    pending models of a channel, and the four requests with their guards, whose
    answers and refreshes arrive in any order.  Toasts are left out. *)

From S2P Require Import Prelude JsStr JsNum JsArray JsJson JsPrint ParamOverride ParamOverrideProps ChannelForm ChannelUtils ChannelUtilsProps.
Local Open Scope js_scope.

Inductive Tab := TabAdd | TabRemove.
Inductive Op := ApplyOne | ApplyAll | DetectOne | DetectAll.

#[export] Instance op_eq_dec : EqDecision Op.
Proof. solve_decision. Defined.

(** The body of a request; only applying to one channel has models. *)
Record UpdateRequest := mkRequest {
  q_id : num; q_add_models : list jsstr; q_ignore_models : list jsstr; q_remove_models : list jsstr
}.

Inductive Phase := Requesting | Refreshing.

Record Task := mkTask { task_op : Op; task_phase : Phase; task_request : UpdateRequest }.

(** [busy] holds the references that guard the requests, [loading] the states
    that are shown (detecting for one channel shows none). *)
Record Updates := mkUpdates {
  showModal : bool; u_channel : option num; addModels : list jsstr; removeModels : list jsstr; preferredTab : Tab;
  loading : Op -> bool; busy : Op -> bool; tasks : list Task
}.

Definition useChannelUpstreamUpdates : Updates :=
  mkUpdates false None [] [] TabAdd (fun _ => false) (fun _ => false) [].

Definition set_op (op : Op) (b : bool) (f : Op -> bool) : Op -> bool := fun o => if decide (o = op) then b else f o.

Definition shows_loading (op : Op) : bool := match op with DetectOne => false | _ => true end.

Definition model_names (l : list jsstr) : list jsstr := normalizeModelList (map JStr l).

(** [record?.id] is truthy. *)
Definition has_id (record : option num) : bool := match record with Some id => ntruthy id | None => false end.

Definition openModal (record : option num) (pendingAdd pendingRemove : list jsstr) (tab : Tab) (s : Updates) : Updates :=
  let normAdd := model_names pendingAdd in
  let normRemove := model_names pendingRemove in
  if negb (has_id record) || Nat.eqb (length normAdd) 0 && Nat.eqb (length normRemove) 0 then s
  else mkUpdates true record normAdd normRemove tab (loading s) (busy s) (tasks s).

Definition closeModal (s : Updates) : Updates :=
  mkUpdates false None [] [] TabAdd (loading s) (busy s) (tasks s).

(** The guard, the loading state and the request. *)
Definition start (op : Op) (request : UpdateRequest) (s : Updates) : Updates :=
  if busy s op then s
  else mkUpdates (showModal s) (u_channel s) (addModels s) (removeModels s) (preferredTab s)
         (if shows_loading op then set_op op true (loading s) else loading s) (set_op op true (busy s))
         (tasks s ++ [mkTask op Requesting request]).

Definition no_models (id : num) : UpdateRequest := mkRequest id [] [] [].

Definition apply_request (id : num) (selectedAdd selectedRemove : list jsstr) (s : Updates) : UpdateRequest :=
  let normSelectedAdd := model_names selectedAdd in
  mkRequest id normSelectedAdd (List.filter (fun m => negb (has normSelectedAdd m)) (addModels s))
    (model_names selectedRemove).

Definition applyUpdates (selectedAdd selectedRemove : list jsstr) (s : Updates) : Updates :=
  if busy s ApplyOne then s
  else match u_channel s with
       | Some id => if ntruthy id then start ApplyOne (apply_request id selectedAdd selectedRemove s) s else closeModal s
       | None => closeModal s
       end.

Definition applyAllUpdates (s : Updates) : Updates := start ApplyAll (no_models zero) s.
Definition detectAllUpdates (s : Updates) : Updates := start DetectAll (no_models zero) s.

Definition detectChannelUpdates (ch : option num) (s : Updates) : Updates :=
  match ch with
  | Some id => if ntruthy id then start DetectOne (no_models id) s else s
  | None => s
  end.

(** The finally block of the [i]th task. *)
Definition finish (i : nat) (s : Updates) : Updates :=
  match tasks s !! i with
  | None => s
  | Some task =>
      let op := task_op task in
      mkUpdates (showModal s) (u_channel s) (addModels s) (removeModels s) (preferredTab s)
        (if shows_loading op then set_op op false (loading s) else loading s) (set_op op false (busy s))
        (delete i (tasks s))
  end.

(** The answer of a request: a failure ends it, a success closes the modal
    (when models were applied) and waits for the refresh. *)
Definition answered (i : nat) (success : bool) (s : Updates) : Updates :=
  match tasks s !! i with
  | Some (mkTask op Requesting request) =>
      if success then
        let s' := match op with ApplyOne => closeModal s | _ => s end in
        mkUpdates (showModal s') (u_channel s') (addModels s') (removeModels s') (preferredTab s') (loading s') (busy s')
          (<[i := mkTask op Refreshing request]> (tasks s'))
      else finish i s
  | _ => s
  end.

(** The refresh ended, well or not. *)
Definition refreshed (i : nat) (s : Updates) : Updates :=
  match tasks s !! i with
  | Some (mkTask _ Refreshing _) => finish i s
  | _ => s
  end.

Inductive Event :=
| EOpen (record : option num) (add remove : list jsstr) (tab : Tab) | EClose
| EApply (add remove : list jsstr) | EApplyAll | EDetect (ch : option num) | EDetectAll
| EAnswered (i : nat) (success : bool) | ERefreshed (i : nat).

Definition handle (e : Event) (s : Updates) : Updates :=
  match e with
  | EOpen record add remove tab => openModal record add remove tab s
  | EClose => closeModal s
  | EApply add remove => applyUpdates add remove s
  | EApplyAll => applyAllUpdates s
  | EDetect ch => detectChannelUpdates ch s
  | EDetectAll => detectAllUpdates s
  | EAnswered i success => answered i success s
  | ERefreshed i => refreshed i s
  end.

Inductive reachable : Updates -> Prop :=
| reach_mount : reachable useChannelUpstreamUpdates
| reach_event e s : reachable s -> reachable (handle e s).

(** ** One request of each kind at a time *)

Definition running (op : Op) (s : Updates) : nat := length (List.filter (fun t => bool_decide (task_op t = op)) (tasks s)).

Definition guarded (s : Updates) : Prop :=
  (forall op, running op s = if busy s op then 1 else 0)
  /\ (forall op, loading s op = busy s op && shows_loading op).

Lemma count_app op (l : list Task) t :
  length (List.filter (fun t => bool_decide (task_op t = op)) (l ++ [t]))
  = length (List.filter (fun t => bool_decide (task_op t = op)) l) + (if decide (task_op t = op) then 1 else 0).
Proof. rewrite List.filter_app, length_app. cbn. case_bool_decide; case_decide; cbn; (lia || done). Qed.

Lemma guarded_start op r s : guarded s -> guarded (start op r s).
Proof.
  intros [Hr Hl]. unfold start. destruct (busy s op) eqn:E; [done|]. split.
  - intros o. unfold running. cbn [tasks busy]. rewrite count_app. fold (running o s). rewrite Hr. unfold set_op. cbn [task_op].
    destruct (decide (op = o)), (decide (o = op)); try congruence; subst; [by rewrite E|]. lia.
  - intros o. cbn [loading busy]. rewrite <- (andb_true_r (_ && _)). unfold set_op.
    destruct (shows_loading op) eqn:Es.
    + destruct (decide (o = op)) as [->|]; [by rewrite Es|]. by rewrite Hl, andb_true_r.
    + rewrite Hl. destruct (decide (o = op)) as [->|]; [by rewrite Es, !andb_false_r|]. by rewrite andb_true_r.
Qed.

Lemma count_delete op (l : list Task) i t :
  l !! i = Some t ->
  length (List.filter (fun t => bool_decide (task_op t = op)) l)
  = length (List.filter (fun t => bool_decide (task_op t = op)) (delete i l)) + (if decide (task_op t = op) then 1 else 0).
Proof.
  revert i. induction l as [|x l IH]; intros [|i]; cbn [lookup list_lookup delete list_delete List.filter]; [done..| |].
  - intros [= ->]. case_bool_decide; case_decide; cbn; (lia || done).
  - intros H. destruct (bool_decide _); cbn [length]; by rewrite (IH i H).
Qed.

Lemma guarded_finish i s : guarded s -> guarded (finish i s).
Proof.
  intros [Hr Hl]. unfold finish. destruct (tasks s !! i) as [t|] eqn:E; [|done]. split.
  - intros o. unfold running. cbn [tasks busy]. pose proof (count_delete o _ _ _ E) as Hc. fold (running o s) in Hc.
    rewrite Hr in Hc. unfold set_op. destruct (decide (task_op t = o)), (decide (o = task_op t)); try congruence; subst.
    + destruct (busy s (task_op t)); lia.
    + destruct (busy s o); lia.
  - intros o. cbn [loading busy]. unfold set_op. destruct (shows_loading (task_op t)) eqn:Es.
    + destruct (decide (o = task_op t)); [done|apply Hl].
    + rewrite Hl. destruct (decide (o = task_op t)) as [->|]; [by rewrite Es, andb_false_r|done].
Qed.

Lemma count_update op (l : list Task) i t t' :
  l !! i = Some t -> task_op t' = task_op t ->
  length (List.filter (fun t => bool_decide (task_op t = op)) (<[i := t']> l))
  = length (List.filter (fun t => bool_decide (task_op t = op)) l).
Proof.
  intros Hi Ho. revert i Hi. induction l as [|x l IH]; intros [|i]; [done..| |].
  - intros [= ->]. change (<[0 := t']> (t :: l)) with (t' :: l). cbn [List.filter]. rewrite Ho. by destruct (bool_decide _).
  - intros H. change (<[S i := t']> (x :: l)) with (x :: <[i := t']> l). cbn [List.filter].
    destruct (bool_decide _); cbn [length]; by rewrite (IH i H).
Qed.

Lemma guarded_answered i b s : guarded s -> guarded (answered i b s).
Proof.
  intros Hg. unfold answered. destruct (tasks s !! i) as [[op [] r]|] eqn:E; [|done..].
  destruct b; [|by apply guarded_finish]. cbv zeta. destruct Hg as [Hr Hl]. split.
  - intros o. unfold running. cbn [tasks busy]. destruct op; cbn [tasks busy closeModal];
      rewrite (count_update _ _ _ _ _ E) by done; apply Hr.
  - intros o. destruct op; apply Hl.
Qed.

Lemma reachable_guarded s : reachable s -> guarded s.
Proof.
  induction 1 as [|e s _ IH]; [by split|]. destruct e as [record add remove tab| |add remove| |ch| |i b|i]; cbn [handle].
  - unfold openModal. cbv zeta. by destruct (_ || _).
  - done.
  - unfold applyUpdates. destruct (busy s ApplyOne); [done|].
    destruct (u_channel s) as [id|]; [|done]. destruct (ntruthy id); [by apply guarded_start|done].
  - by apply guarded_start.
  - unfold detectChannelUpdates. destruct ch as [id|]; [|done]. destruct (ntruthy id); [by apply guarded_start|done].
  - by apply guarded_start.
  - by apply guarded_answered.
  - unfold refreshed. destruct (tasks s !! i) as [[op [] r]|] eqn:E; try done. by apply guarded_finish.
Qed.

(** At most one request of each kind is running: in every reachable state
    the number of running requests of a kind is one if its guard is set and zero
    if not, and what is shown as loading is what is running; so when every
    request has been answered, nothing is shown as loading and every action is
    possible again. *)
Theorem one_request_each s :
  reachable s -> forall op, running op s = (if busy s op then 1 else 0) /\ loading s op = busy s op && shows_loading op.
Proof. intros [Hr Hl]%reachable_guarded op. by split. Qed.

Lemma one_request_each_witness :
  let s := handle EDetectAll (handle EDetectAll (handle EApplyAll useChannelUpstreamUpdates)) in
  running DetectAll s = 1 /\ length (tasks s) = 2 /\ loading s DetectAll = true.
Proof.
  intros s. assert (Hr : reachable s) by (repeat apply reach_event; apply reach_mount).
  destruct (one_request_each s Hr DetectAll) as [H1 H2].
  split; [rewrite H1; vm_compute; reflexivity|]. split; [vm_compute; reflexivity|]. rewrite H2. vm_compute. reflexivity.
Defined.

(** ** What is applied *)

(** A normalised list: names that are trimmed, not empty and distinct. *)
Definition normal_list (l : list jsstr) : Prop := NoDup l /\ forall m, In m l -> truthy m = true /\ trim m = m.

Lemma model_names_eq l : model_names l = uniq (List.filter truthy (map trim l)).
Proof.
  unfold model_names, normalizeModelList. rewrite map_map. do 2 f_equal. apply map_ext. intros m. cbn [json_truthy json_to_str].
  destruct (truthy m) eqn:E; [done|]. by destruct m.
Qed.

Lemma model_names_normal l : normal_list (model_names l).
Proof.
  rewrite model_names_eq. split; [apply uniq_NoDup|]. intros m. rewrite uniq_In, filter_In.
  intros [(x & <- & _)%in_map_iff Ht]. split; [done|apply trim_idemp].
Qed.

Lemma model_names_In l m : (forall x, In x l -> truthy x = true /\ trim x = x) -> In m (model_names l) <-> In m l.
Proof.
  intros Hl. rewrite model_names_eq, uniq_In, filter_In, in_map_iff. split.
  - intros [(x & <- & Hx) _]. destruct (Hl x Hx) as [_ E]. by rewrite E.
  - intros Hm. destruct (Hl m Hm) as [Ht E]. split; [by exists m|done].
Qed.

Lemma reachable_lists s : reachable s -> normal_list (addModels s) /\ normal_list (removeModels s).
Proof.
  assert (Hnil : normal_list []) by (split; [constructor|done]).
  assert (Hstart : forall op r s, normal_list (addModels s) /\ normal_list (removeModels s) ->
            normal_list (addModels (start op r s)) /\ normal_list (removeModels (start op r s))).
  { intros op r s' H. unfold start. by destruct (busy s' op). }
  assert (Hfinish : forall i s, normal_list (addModels s) /\ normal_list (removeModels s) ->
            normal_list (addModels (finish i s)) /\ normal_list (removeModels (finish i s))).
  { intros i s' H. unfold finish. by destruct (tasks s' !! i). }
  induction 1 as [|e s _ IH]; [by split|]. destruct e as [record add remove tab| |add remove| |ch| |i b|i]; cbn [handle].
  - unfold openModal. cbv zeta. destruct (_ || _); [done|]. split; apply model_names_normal.
  - by split.
  - unfold applyUpdates. destruct (busy s ApplyOne); [done|].
    destruct (u_channel s) as [id|]; [|by split]. destruct (ntruthy id); [by apply Hstart|by split].
  - by apply Hstart.
  - unfold detectChannelUpdates. destruct ch as [id|]; [|done]. destruct (ntruthy id); [by apply Hstart|done].
  - by apply Hstart.
  - unfold answered. destruct (tasks s !! i) as [[op [] r]|]; try done. destruct b; [|by apply Hfinish].
    destruct op; (by split) || done.
  - unfold refreshed. destruct (tasks s !! i) as [[op [] r]|]; try done. by apply Hfinish.
Qed.

(** Applying decides about every pending model: whatever part of the shown
    models is selected, the request adds exactly the selected ones and ignores
    exactly the others, each once. *)
Theorem apply_decides_all s id selected removed :
  reachable s -> (forall m, In m selected -> In m (addModels s)) ->
  let r := apply_request id selected removed s in
  NoDup (q_add_models r ++ q_ignore_models r)
  /\ (forall m, In m (q_add_models r) <-> In m selected)
  /\ (forall m, In m (q_add_models r ++ q_ignore_models r) <-> In m (addModels s)).
Proof.
  intros [[Hd Hn] _]%reachable_lists Hsel. cbv zeta. unfold apply_request. cbn [q_add_models q_ignore_models].
  assert (Hm : forall m, In m (model_names selected) <-> In m selected) by (intros m; apply model_names_In; auto).
  split; [|split; [done|]].
  - apply NoDup_app. split; [apply model_names_normal|]. split; [|by apply NoDup_ListNoDup, List.NoDup_filter, NoDup_ListNoDup].
    intros m H1%list_elem_of_In H2%list_elem_of_In. apply filter_In in H2 as [_ H2%negb_true_iff].
    apply has_In in H1. congruence.
  - intros m. rewrite in_app_iff, filter_In, negb_true_iff. destruct (has (model_names selected) m) eqn:E.
    + apply has_In in E. split; [intros _; by apply Hsel, Hm|by left].
    + split; [intros [H%has_In|[H _]]; [congruence|done]|]. intros H. by right.
Qed.

Lemma apply_decides_all_witness :
  let s := handle (EOpen (Some (num_of_Z 3)) [js "a"; js " b"; js "a"] [] TabAdd) useChannelUpstreamUpdates in
  let r := apply_request (num_of_Z 3) [js "b"] [] s in
  forall m, In m (q_add_models r ++ q_ignore_models r) <-> In m [js "a"; js "b"].
Proof.
  intros s r. assert (Hr : reachable s) by (apply reach_event, reach_mount).
  destruct (apply_decides_all s (num_of_Z 3) [js "b"] [] Hr) as (_ & _ & H); [|exact H].
  intros m [<-|[]]. vm_compute. tauto.
Defined.

(** The answer to a request closes the modal that is open then, which may be the
    one of another channel. *)
Lemma late_answer_closes_other a b :
  ntruthy a = true -> ntruthy b = true ->
  let open id := EOpen (Some id) [js "m"] [] TabAdd in
  let s := foldl (fun s e => handle e s) useChannelUpstreamUpdates
             [open a; EApply [js "m"] []; EClose; open b] in
  u_channel s = Some b /\ showModal s = true /\ showModal (handle (EAnswered 0 true) s) = false.
Proof.
  intros Ha Hb. cbv zeta. cbn [foldl handle]. unfold openModal, applyUpdates, has_id. cbv zeta.
  change (model_names [js "m"]) with [js "m"]. change (model_names []) with (@nil jsstr). rewrite Ha, Hb.
  cbn. rewrite Ha. by repeat split.
Qed.
