(* ===== verification/Plans.v ===== *)
(** * Subscription plans of the customer site

    Model of src/web/customer/src/helpers/plans.ts: how the plans of the server
    become the cards of the pricing page, their labels in both languages, and
    which of them are shown.  The conversion of case and the number formats of
    the locale are parameters. *)

From S2P Require Import Prelude JsStr JsNum JsArray JsJson Topup.

(** ** Types *)

(** A text in Chinese and in English. *)
Record Label := mkLabel { zh : jsstr; en : jsstr }.

(** A text that is the same in both. *)
Definition same (s : jsstr) : Label := mkLabel s s.

Inductive Variant := payg | pro | max_plan | ultra | default_plan.

#[export] Instance variant_eq_dec : EqDecision Variant.
Proof. solve_decision. Defined.

Record SubscriptionPlan := mkPlan {
  plan_id : num;
  title : jsstr;
  plan_subtitle : option jsstr;
  price_amount : num;
  plan_currency : option jsstr;
  duration_unit : option jsstr;
  duration_value : option num;
  custom_seconds : option num;
  total_amount : option num;
  quota_reset_period : option jsstr;
  quota_reset_custom_seconds : option num;
  allow_balance_pay : option bool;
  stripe_price_id : option jsstr;
  creem_product_id : option jsstr;
  waffo_pancake_product_id : option jsstr;
  max_purchase_per_user : option num;
  upgrade_group : option jsstr
}.

Record CustomerPricePlan := mkCard {
  name : jsstr;
  price : jsstr;
  priceZh : option jsstr;
  priceEn : option jsstr;
  suffixZh : jsstr;
  suffixEn : jsstr;
  hideSuffix : option bool;
  saveZh : jsstr;
  saveEn : jsstr;
  promoZh : option jsstr;
  promoEn : option jsstr;
  originalPriceZh : option jsstr;
  originalPriceEn : option jsstr;
  descriptionZh : option jsstr;
  descriptionEn : option jsstr;
  hideDescription : bool;
  rate : jsstr;
  ctaZh : jsstr;
  ctaEn : jsstr;
  tint : jsstr;
  variant : option Variant;
  featuresZh : list jsstr;
  featuresEn : list jsstr;
  planId : option num;
  allowBalancePay : option bool;
  priceAmount : num;
  requiredQuota : num;
  quotaLabelZh : jsstr;
  quotaLabelEn : jsstr;
  periodLabelZh : jsstr;
  periodLabelEn : jsstr;
  resetLabelZh : jsstr;
  resetLabelEn : jsstr;
  paymentLabelZh : jsstr;
  paymentLabelEn : jsstr;
  stripePriceId : option jsstr;
  creemProductId : option jsstr;
  waffoPancakeProductId : option jsstr;
  maxPurchasePerUser : option num;
  upgradeGroup : option jsstr
}.

(** ** Presets of the coding plans *)

Record CodingPlanPreset := mkPreset {
  preset_variant : Variant;
  rank : Z;
  preset_priceZh : option jsstr;
  preset_priceEn : option jsstr;
  preset_hideSuffix : option bool;
  preset_saveZh : option jsstr;
  preset_saveEn : option jsstr;
  preset_cta : Label;
  tone : jsstr;
  preset_featuresZh : list jsstr;
  preset_featuresEn : list jsstr
}.

Definition preset_payg : CodingPlanPreset :=
  mkPreset payg 0 None None None None None
    (mkLabel (uni "立即购买") (js "Buy now")) []
    [ uni "按量加量，临时任务也划算";
      uni "余额当月有效，用完再充";
      uni "适合补额度、试用和轻量开发";
      uni "输入 Token 按模型价格自动折算" ]
    [ js "Top up on demand for short tasks";
      js "Balance is valid for the current month";
      js "Great for trials, overflow, and light coding";
      js "Input tokens are converted by model pricing" ].

Definition preset_pro : CodingPlanPreset :=
  mkPreset pro 1 None None None None None
    (mkLabel (uni "购买 Pro 版") (js "Buy Pro")) []
    [ uni "约 450 次程序开发任务";
      uni "约 900 次程序码对话";
      uni "轻量开发首选";
      uni "输入 Token 按模型定价折算为等效输出 Token" ]
    [ js "About 450 coding tasks";
      js "About 900 coding chats";
      js "Best for light development";
      js "Input tokens are converted to equivalent output tokens by model pricing" ].

Definition preset_max : CodingPlanPreset :=
  mkPreset max_plan 2 None None None None None
    (mkLabel (uni "购买 Max 版") (js "Buy Max")) (js "feat")
    [ uni "约 1200 次程序开发任务";
      uni "约 2400 次程序码对话";
      uni "全职开发者标配";
      uni "输入 Token 按模型定价折算为等效输出 Token" ]
    [ js "About 1200 coding tasks";
      js "About 2400 coding chats";
      js "Standard pick for full-time developers";
      js "Input tokens are converted to equivalent output tokens by model pricing" ].

Definition preset_ultra : CodingPlanPreset :=
  mkPreset ultra 3 None None None None None
    (mkLabel (uni "购买 Ultra 版") (js "Buy Ultra")) (js "tint-cream")
    [ uni "约 4500 次程序开发任务";
      uni "约 9000 次程序码对话";
      uni "重度使用者最佳选择";
      uni "输入 Token 按模型定价折算为等效输出 Token" ]
    [ js "About 4500 coding tasks";
      js "About 9000 coding chats";
      js "Best for heavy users";
      js "Input tokens are converted to equivalent output tokens by model pricing" ].

Definition getCodingPlanRank (plan : CustomerPricePlan) : num :=
  match variant plan with
  | Some payg => num_of_Z (rank preset_payg)
  | Some pro => num_of_Z (rank preset_pro)
  | Some max_plan => num_of_Z (rank preset_max)
  | Some ultra => num_of_Z (rank preset_ultra)
  | _ => num_of_Z (2 ^ 53 - 1)
  end.

Definition getPlanVisualTint (index : nat) : jsstr :=
  if Nat.eqb (index mod 3) 1 then js "tint-mint"
  else if Nat.eqb (index mod 3) 2 then js "tint-cream"
  else [].

(** ** Labels *)

(** The ending of an English plural. *)
Definition plural (value : num) : jsstr := if ngt value (num_of_Z 1) then js "s" else [].

Definition formatDurationSeconds (seconds : option num) : Label :=
  let value := default zero seconds in
  if negb (isFinite value) || nle value zero then
    mkLabel (uni "自定义周期") (js "Custom period")
  else if nge value (num_of_Z 86400) then
    let days := nfloor (ndiv value (num_of_Z 86400)) in
    mkLabel (num_to_str days ++ uni " 天") (num_to_str days ++ js " day" ++ plural days)
  else if nge value (num_of_Z 3600) then
    let hours := nfloor (ndiv value (num_of_Z 3600)) in
    mkLabel (num_to_str hours ++ uni " 小时") (num_to_str hours ++ js " hour" ++ plural hours)
  else if nge value (num_of_Z 60) then
    let minutes := nfloor (ndiv value (num_of_Z 60)) in
    mkLabel (num_to_str minutes ++ uni " 分钟") (num_to_str minutes ++ js " minute" ++ plural minutes)
  else mkLabel (num_to_str (nfloor value) ++ uni " 秒") (num_to_str (nfloor value) ++ js " seconds").

Definition zhUnits : list (jsstr * jsstr) :=
  [ (js "year", uni "年"); (js "month", uni "月");
    (js "day", uni "天"); (js "hour", uni "小时") ].
Definition enUnits : list (jsstr * jsstr) :=
  [ (js "year", js "year"); (js "month", js "month"); (js "day", js "day"); (js "hour", js "hour") ].

(** [units[unit] || unit]; the names every object inherits ("constructor" and
    the like) are not units of the server. *)
Definition unit_name (units : list (jsstr * jsstr)) (unit : jsstr) : jsstr := or_text (mget unit units) unit.

Definition formatSubscriptionPeriod (plan : option SubscriptionPlan) : Label :=
  match plan with
  | None => same (js "-")
  | Some plan =>
      let value := num_or (default zero (duration_value plan)) (num_of_Z 1) in
      let unit := or_text (duration_unit plan) (js "month") in
      if str_eqb unit (js "custom") then formatDurationSeconds (custom_seconds plan)
      else mkLabel (num_to_str value ++ js " " ++ unit_name zhUnits unit)
             (num_to_str value ++ js " " ++ unit_name enUnits unit ++ plural value)
  end.

Definition formatPlanQuota (plan : SubscriptionPlan) (status : option CustomerStatus) : Label :=
  let total := default zero (total_amount plan) in
  if ngt total zero then same (formatQuotaMoney total status)
  else mkLabel (uni "不限额度") (js "Unlimited").

Definition formatPlanResetPeriod (plan : SubscriptionPlan) : Label :=
  let period := or_text (quota_reset_period plan) (js "never") in
  if str_eqb period (js "daily") then mkLabel (uni "每日重置") (js "Daily reset")
  else if str_eqb period (js "weekly") then mkLabel (uni "每周重置") (js "Weekly reset")
  else if str_eqb period (js "monthly") then mkLabel (uni "每月重置") (js "Monthly reset")
  else if str_eqb period (js "custom") then
    let duration := formatDurationSeconds (quota_reset_custom_seconds plan) in
    mkLabel (uni "每 " ++ zh duration ++ uni " 重置") (js "Resets every " ++ en duration)
  else mkLabel (uni "不自动重置") (js "No automatic reset").

(** [Boolean(s)] on a string that may be undefined. *)
Definition given (s : option jsstr) : bool := match s with Some s => truthy s | None => false end.

Definition formatPlanPaymentLabel (plan : SubscriptionPlan) : Label :=
  let allowBalance := negb (bool_decide (allow_balance_pay plan = Some false)) in
  let hasExternal := given (stripe_price_id plan) || given (creem_product_id plan)
                     || given (waffo_pancake_product_id plan) in
  if allowBalance && hasExternal then mkLabel (uni "支持余额 / 在线支付") (js "Balance / online payment")
  else if allowBalance then mkLabel (uni "支持余额支付") (js "Balance payment")
  else if hasExternal then mkLabel (uni "支持在线支付") (js "Online payment")
  else mkLabel (uni "需管理员配置支付") (js "Payment needs configuration").

(** [plan.subtitle?.trim() || ""]. *)
Definition subtitle_text (plan : SubscriptionPlan) : jsstr := trim (default [] (plan_subtitle plan)).

Definition getPlanSummary (plan : SubscriptionPlan) (quota : Label) : Label :=
  if truthy (subtitle_text plan) then same (subtitle_text plan)
  else mkLabel (uni "到账金额 " ++ zh quota) (js "Received amount " ++ en quota).

Record ValueMeta := mkMeta { meta_save : Label; meta_original : Label }.

(** The percentage a plan saves, if it is worth saying. *)
Definition save_percent (plan : SubscriptionPlan) (status : option CustomerStatus) : option num :=
  let paymentAmount := num_or (price_amount plan) zero in
  let receivedAmount := ndiv (default zero (total_amount plan)) (getQuotaPerUnit status) in
  if negb (isFinite paymentAmount) || negb (isFinite receivedAmount) || nle paymentAmount zero
     || nle receivedAmount paymentAmount then None
  else
    let savePercent :=
      nround (nmul (ndiv (nsub receivedAmount paymentAmount) receivedAmount) (num_of_Z 100)) in
    if nle savePercent zero then None else Some savePercent.

Definition getCodingPlanValueMeta (plan : SubscriptionPlan) (quota : Label) (status : option CustomerStatus)
    : option ValueMeta :=
  match save_percent plan status with
  | None => None
  | Some savePercent =>
      Some (mkMeta
        (mkLabel (uni "节省 " ++ num_to_str savePercent ++ js "%") (js "Save " ++ num_to_str savePercent ++ js "%"))
        (mkLabel (uni "到账 " ++ zh quota) (js "Received " ++ en quota)))
  end.

(** ** Cards *)

Section Cards.
  (** [s.toLowerCase()], [s.toUpperCase()] and the currency format of the
      locale ([None] when it throws). *)
  Variable toLowerCase toUpperCase : jsstr -> jsstr.
  Variable currencyFormat : jsstr -> Z -> num -> option jsstr.

Definition getCodingPlanPreset (title : jsstr) : option CodingPlanPreset :=
  let normalized := toLowerCase title in
  if negb (includes normalized (js "ai coding")) then None
  else if includes normalized (js "ultra") then Some preset_ultra
  else if includes normalized (js "max") then Some preset_max
  else if includes normalized (js "pro") then Some preset_pro
  else if includes normalized (js "payg") || includes normalized (js "pay as you go")
          || includes normalized (js "token") || includes normalized (uni "储值")
          || includes normalized (uni "儲值") || includes normalized (uni "按量")
  then Some preset_payg
  else None.

Definition subscriptionPlanToPricePlan (plan : SubscriptionPlan) (index : nat) (status : option CustomerStatus)
    : CustomerPricePlan :=
  let codingPreset := getCodingPlanPreset (title plan) in
  let period := formatSubscriptionPeriod (Some plan) in
  let quotaLabel := formatPlanQuota plan status in
  let resetLabel := formatPlanResetPeriod plan in
  let paymentLabel := formatPlanPaymentLabel plan in
  let summary := getPlanSummary plan quotaLabel in
  let codingValueMeta := match codingPreset with
                         | Some _ => getCodingPlanValueMeta plan quotaLabel status
                         | None => None
                         end in
  let subtitle := subtitle_text plan in
  let requiredQuota := nceil (nmul (num_or (price_amount plan) zero) (getQuotaPerUnit status)) in
  let maxPurchase := default zero (max_purchase_per_user plan) in
  let upgradeGroup := trim (or_text (upgrade_group plan) []) in
  let extraFeaturesZh := List.filter truthy
    [ (if ngt maxPurchase zero then uni "每个用户最多购买 " ++ num_to_str maxPurchase ++ uni " 次" else []);
      (if truthy upgradeGroup then uni "购买后升级到 " ++ upgradeGroup ++ uni " 分组" else []) ] in
  let purchaseLabelEn :=
    if ngt maxPurchase zero
    then js "Max " ++ num_to_str maxPurchase ++ js " purchase"
         ++ (if neq maxPurchase (num_of_Z 1) then [] else js "s") ++ js " per user"
    else [] in
  let extraFeaturesEn := List.filter truthy
    [ purchaseLabelEn; (if truthy upgradeGroup then js "Upgrades group to " ++ upgradeGroup else []) ] in
  {| name := or_text (Some (title plan)) (js "Plan " ++ num_to_str (plan_id plan));
     price := formatCurrencyAmount toUpperCase currencyFormat (price_amount plan) (default [] (plan_currency plan));
     priceZh := codingPreset ≫= preset_priceZh;
     priceEn := codingPreset ≫= preset_priceEn;
     suffixZh := match codingPreset with Some _ => uni "月" | None => zh period end;
     suffixEn := match codingPreset with Some _ => js "mo" | None => en period end;
     hideSuffix := codingPreset ≫= preset_hideSuffix;
     saveZh := default (default (zh summary) (zh ∘ meta_save <$> codingValueMeta)) (codingPreset ≫= preset_saveZh);
     saveEn := default (default (en summary) (en ∘ meta_save <$> codingValueMeta)) (codingPreset ≫= preset_saveEn);
     promoZh := Some subtitle;
     promoEn := Some subtitle;
     originalPriceZh := zh ∘ meta_original <$> codingValueMeta;
     originalPriceEn := en ∘ meta_original <$> codingValueMeta;
     descriptionZh := None;
     descriptionEn := None;
     hideDescription := match codingPreset with Some _ => true | None => false end;
     rate := [];
     ctaZh := default (uni "立即购买") (zh ∘ preset_cta <$> codingPreset);
     ctaEn := default (js "Buy now") (en ∘ preset_cta <$> codingPreset);
     tint := default (getPlanVisualTint index) (tone <$> codingPreset);
     variant := Some (default default_plan (preset_variant <$> codingPreset));
     featuresZh := default
       ([ uni "到账金额 " ++ zh quotaLabel; uni "周期 " ++ zh period; zh resetLabel; zh paymentLabel ]
        ++ extraFeaturesZh)
       (preset_featuresZh <$> codingPreset);
     featuresEn := default
       ([ js "Received amount " ++ en quotaLabel; js "Period " ++ en period; en resetLabel; en paymentLabel ]
        ++ extraFeaturesEn)
       (preset_featuresEn <$> codingPreset);
     planId := Some (plan_id plan);
     allowBalancePay := Some (negb (bool_decide (allow_balance_pay plan = Some false)));
     priceAmount := num_or (price_amount plan) zero;
     requiredQuota := requiredQuota;
     quotaLabelZh := zh quotaLabel;
     quotaLabelEn := en quotaLabel;
     periodLabelZh := zh period;
     periodLabelEn := en period;
     resetLabelZh := zh resetLabel;
     resetLabelEn := en resetLabel;
     paymentLabelZh := zh paymentLabel;
     paymentLabelEn := en paymentLabel;
     stripePriceId := stripe_price_id plan;
     creemProductId := creem_product_id plan;
     waffoPancakeProductId := waffo_pancake_product_id plan;
     maxPurchasePerUser := Some maxPurchase;
     upgradeGroup := Some upgradeGroup |}.

(** The cards of all records, in the order of the server. *)
Definition price_plans (records : list SubscriptionPlan) (status : option CustomerStatus) : list CustomerPricePlan :=
  imap (fun index record => subscriptionPlanToPricePlan record index status) records.

Definition is_coding_plan (plan : CustomerPricePlan) : bool :=
  match variant plan with Some payg | Some pro | Some max_plan | Some ultra => true | _ => false end.

Definition coding_plans (plans : list CustomerPricePlan) : list CustomerPricePlan :=
  sort_with (fun a b => nsub (getCodingPlanRank a) (getCodingPlanRank b)) (List.filter is_coding_plan plans).

Definition MAX_VISIBLE_SUBSCRIPTION_PLANS : nat := 4.

Definition recordsToPricePlans (records : list SubscriptionPlan) (status : option CustomerStatus)
    : list CustomerPricePlan :=
  let plans := price_plans records status in
  let codingPlans := coding_plans plans in
  let variants := uniq (map variant codingPlans) in
  let displayPlans := if Nat.leb 4 (length variants) then codingPlans else plans in
  take MAX_VISIBLE_SUBSCRIPTION_PLANS displayPlans.

Definition recordToPricePlan (record : SubscriptionPlan) (status : option CustomerStatus) : CustomerPricePlan :=
  subscriptionPlanToPricePlan record 0 status.

End Cards.
