(* ===== verification/PlansProps.v ===== *)
(** * Which plans the pricing page shows

    The cards that are shown, against the records of the server: the four
    coding plans in their order when the server has them all, and otherwise
    the first records as they come. *)

From S2P Require Import Prelude JsStr JsNum JsArray JsJson Topup Plans.
From Stdlib Require Import Sorting.Sorted.
From stdpp Require Import sorting.

(** ** Ranks *)

(** The coding plans, in the order they are shown. *)
Definition presets : list Variant := [payg; pro; max_plan; ultra].

Definition place (v : option Variant) : Z :=
  match v with
  | Some payg => 0 | Some pro => 1 | Some max_plan => 2 | Some ultra => 3
  | _ => 2 ^ 53 - 1
  end.

Lemma rank_order a b :
  cmp_le (fun a b => nsub (getCodingPlanRank a) (getCodingPlanRank b)) a b
  = Z.leb (place (variant a)) (place (variant b)).
Proof.
  unfold cmp_le, getCodingPlanRank.
  destruct (variant a) as [[]|], (variant b) as [[]|]; reflexivity.
Qed.

Lemma is_coding_variant card : is_coding_plan card = true <-> exists v, v ∈ presets /\ variant card = Some v.
Proof.
  unfold is_coding_plan, presets. split.
  - destruct (variant card) as [v|]; [|done]. intros H. exists v. split; [|done]. by destruct v; repeat constructor.
  - intros (v & Hv & ->). destruct v; [done..|]. by apply list_elem_of_In in Hv; cbn in Hv; intuition.
Qed.

(** ** The coding plans of a list of cards *)

Lemma coding_plans_perm cards : coding_plans cards ≡ₚ List.filter is_coding_plan cards.
Proof. symmetry. apply sort_with_perm. Qed.

Lemma coding_plans_In card cards : In card (coding_plans cards) <-> In card cards /\ is_coding_plan card = true.
Proof.
  rewrite <- filter_In. split; intros H; [eapply Permutation_in; [apply coding_plans_perm|done]|].
  eapply Permutation_in; [symmetry; apply coding_plans_perm|done].
Qed.

Lemma coding_plans_sorted cards :
  StronglySorted (fun a b => (place (variant a) <= place (variant b))%Z) (coding_plans cards).
Proof.
  apply Sorted_StronglySorted; [intros a b c; lia|].
  eapply Sorted_ind with (P := fun l => Sorted (fun a b => (place (variant a) <= place (variant b))%Z) l);
    [constructor| |apply isort_sorted].
  - intros a l _ IH Hhd. constructor; [done|]. destruct Hhd as [|b l Hab]; constructor.
    rewrite rank_order in Hab. by apply Z.leb_le.
  - intros a b. rewrite !rank_order. rewrite Z.leb_gt, Z.leb_le. lia.
Qed.

(** Four different coding plans are all of them. *)
Lemma four_variants cards :
  Nat.leb 4 (length (uniq (map variant (coding_plans cards)))) = true
  <-> forall v, v ∈ presets -> exists card, In card cards /\ variant card = Some v.
Proof.
  rewrite Nat.leb_le.
  assert (forall o, In o (uniq (map variant (coding_plans cards))) <->
            exists v, v ∈ presets /\ o = Some v /\ exists card, In card cards /\ variant card = Some v) as Hin.
  { intros o. rewrite uniq_In, in_map_iff. setoid_rewrite coding_plans_In. setoid_rewrite is_coding_variant. split.
    - intros (card & <- & Hc & v & Hv & E). exists v. rewrite E. eauto.
    - intros (v & Hv & -> & card & Hc & E). exists card. eauto 6. }
  split.
  - intros Hlen v Hv.
    assert (incl (map Some presets) (uniq (map variant (coding_plans cards)))) as Hincl.
    { apply NoDup_length_incl; [apply NoDup_ListNoDup, uniq_NoDup|done|].
      intros o Ho. apply Hin in Ho as (w & Hw & -> & _). by apply in_map, list_elem_of_In. }
    destruct (proj1 (Hin (Some v))) as (w & _ & [= <-] & H); [|done].
    apply Hincl. by apply in_map, list_elem_of_In.
  - intros Hall. change 4 with (length (map Some presets)).
    apply NoDup_incl_length; [by repeat constructor; cbn; intuition|].
    intros o Ho. apply in_map_iff in Ho as (v & <- & Hv). apply list_elem_of_In in Hv.
    apply Hin. exists v. repeat split; [done|]. by apply Hall.
Qed.

(** ** The cards of the records *)

Section Shown.
  Variable toLowerCase toUpperCase : jsstr -> jsstr.
  Variable currencyFormat : jsstr -> Z -> num -> option jsstr.

Abbreviation preset_ := (getCodingPlanPreset toLowerCase).
Abbreviation card_ := (subscriptionPlanToPricePlan toLowerCase toUpperCase currencyFormat).
Abbreviation cards_ := (price_plans toLowerCase toUpperCase currencyFormat).
Abbreviation shown_ := (recordsToPricePlans toLowerCase toUpperCase currencyFormat).

(** What the title of a record makes of it. *)
Definition plan_kind (r : SubscriptionPlan) : Variant := default default_plan (preset_variant <$> preset_ (title r)).

Lemma card_variant r i st : variant (card_ r i st) = Some (plan_kind r).
Proof. reflexivity. Qed.

Lemma cards_In card records st :
  In card (cards_ records st) <-> exists i r, records !! i = Some r /\ card = card_ r i st.
Proof. apply in_imap. Qed.

Lemma cards_variants records st : map variant (cards_ records st) = map (Some ∘ plan_kind) records.
Proof.
  unfold price_plans. apply list_eq. intros i.
  rewrite !list_lookup_fmap, list_lookup_imap. by destruct (records !! i).
Qed.

Lemma some_card records st v :
  (exists card, In card (cards_ records st) /\ variant card = Some v)
  <-> exists r, In r records /\ plan_kind r = v.
Proof.
  split.
  - intros (card & (i & r & Hr & ->)%cards_In & [= <-]). exists r. split; [|done].
    by eapply list_elem_of_In, list_elem_of_lookup_2.
  - intros (r & Hr & <-). apply list_elem_of_In, list_elem_of_lookup in Hr as (i & Hi).
    exists (card_ r i st). split; [|done]. apply cards_In. eauto.
Qed.

Lemma shown_from_record card records st :
  In card (shown_ records st) -> exists i r, records !! i = Some r /\ card = card_ r i st.
Proof.
  unfold recordsToPricePlans. cbv zeta. intros H. apply cards_In.
  assert (forall l, In card (take MAX_VISIBLE_SUBSCRIPTION_PLANS l) -> In card l) as Htake.
  { intros l Hl. rewrite <- (take_drop MAX_VISIBLE_SUBSCRIPTION_PLANS l). apply in_app_iff. by left. }
  case_match; apply Htake in H; [by apply coding_plans_In in H as [? _]|done].
Qed.

Lemma shown_cases records st :
  (shown_ records st = take 4 (coding_plans (cards_ records st))
   /\ forall v, v ∈ presets -> exists r, In r records /\ plan_kind r = v)
  \/ (shown_ records st = take 4 (cards_ records st)
      /\ exists v, v ∈ presets /\ forall r, In r records -> plan_kind r <> v).
Proof.
  unfold recordsToPricePlans, MAX_VISIBLE_SUBSCRIPTION_PLANS. cbv zeta.
  destruct (Nat.leb 4 _) eqn:E.
  - left. split; [done|]. intros v Hv. apply (some_card _ st). revert v Hv. by apply four_variants.
  - right. split; [done|].
    destruct (decide (Exists (fun v => Forall (fun r => plan_kind r <> v) records) presets)) as [H|H].
    + apply Exists_exists in H as (v & Hv & Hall). exists v. split; [done|].
      rewrite Forall_forall in Hall. intros r Hr. by apply Hall, list_elem_of_In.
    + exfalso. rewrite (proj2 (four_variants _)) in E; [done|]. intros v Hv. apply some_card.
      apply not_Exists_Forall in H; [|intros w; apply _]. rewrite Forall_forall in H. specialize (H v Hv). cbn in H.
      apply not_Forall_Exists in H; [|intros r; apply _]. apply Exists_exists in H as (r & Hr & Hk). exists r.
      split; [by apply list_elem_of_In|]. by apply dec_stable in Hk.
Qed.

(** ** What is shown *)

Lemma sorted_map {A B} (f : A -> B) (R : B -> B -> Prop) l :
  StronglySorted (fun a b => R (f a) (f b)) l -> StronglySorted R (map f l).
Proof. induction 1 as [|a l _ IH Hall]; cbn; constructor; [done|]. by apply Forall_map. Qed.

Lemma sorted_split {A} (R : A -> A -> Prop) l1 l2 a b :
  StronglySorted R (l1 ++ l2) -> In a l1 -> In b l2 -> R a b.
Proof.
  induction l1 as [|x l1 IH]; [done|]. cbn. inversion 1 as [|? ? Hs Hall]. subst.
  rewrite List.Forall_forall in Hall. intros [->|Ha] Hb; [|by apply IH]. apply Hall, in_app_iff. by right.
Qed.

Definition is_preset (v : Variant) : bool := bool_decide (v ∈ presets).

Lemma coding_kinds records st :
  map variant (List.filter is_coding_plan (cards_ records st))
  = map Some (List.filter is_preset (map plan_kind records)).
Proof.
  assert (forall cards ks, map variant cards = map Some ks ->
            map variant (List.filter is_coding_plan cards) = map Some (List.filter is_preset ks)) as H.
  { intros cards. induction cards as [|c l IH]; intros [|k ks]; [done..|]. cbn [map List.filter].
    intros [= Hc Hl]. specialize (IH ks Hl). unfold is_coding_plan at 1. rewrite Hc.
    destruct k; cbn [is_preset]; cbn; rewrite ?IH, ?Hc; done. }
  apply H. rewrite cards_variants, map_map. done.
Qed.

Lemma coding_kinds_sorted records st ks :
  List.filter is_preset (map plan_kind records) ≡ₚ ks ->
  StronglySorted (fun a b => (place (Some a) <= place (Some b))%Z) ks -> NoDup (map place (map Some ks)) ->
  map variant (coding_plans (cards_ records st)) = map Some ks.
Proof.
  intros Hp Hs Hn. eapply (StronglySorted_unique_strong (fun a b => (place a <= place b)%Z)).
  - intros a b Ha Hb Hab Hba. apply list_elem_of_In in Hb.
    assert (In a (map Some ks)) as Ha'.
    { eapply Permutation_in; [|by apply list_elem_of_In]. rewrite <- Hp, <- (coding_kinds records st).
      apply Permutation_map, coding_plans_perm. }
    assert (place a = place b) as E by lia.
    clear -Hn Ha' Hb E. induction (map Some ks) as [|x l IH]; [done|].
    cbn in Hn. apply NoDup_cons in Hn as [Hx Hn]. destruct Ha' as [->|Ha], Hb as [->|Hb]; [done| | |by apply IH].
    + exfalso. apply Hx. rewrite E. by apply list_elem_of_In, in_map.
    + exfalso. apply Hx. rewrite <- E. by apply list_elem_of_In, in_map.
  - apply sorted_map, coding_plans_sorted.
  - by apply sorted_map.
  - rewrite <- Hp, <- (coding_kinds records st). apply Permutation_map, coding_plans_perm.
Qed.

Lemma presets_sorted : StronglySorted (fun a b => (place (Some a) <= place (Some b))%Z) presets.
Proof. by repeat constructor. Qed.

Lemma presets_apart : NoDup (map place (map Some presets)).
Proof. apply (bool_decide_unpack _). by vm_compute. Qed.

(** The pricing page shows at most four cards, each made from a record of
    the server.  If some kind of coding plan is missing these are the first
    records as they come; if none is, they are coding plans in the order of
    their kinds, none of a higher kind than one left out; and if every kind
    occurs once they are one of each, whatever the order of the records. *)
Theorem shown_plans_exact records st :
  let shown := shown_ records st in
  let kinds := List.filter is_preset (map plan_kind records) in
  length shown <= 4
  /\ (forall card, In card shown -> exists i r, records !! i = Some r /\ card = card_ r i st)
  /\ (shown = take 4 (cards_ records st)
      \/ (forall v, v ∈ presets -> v ∈ kinds)
         /\ StronglySorted (fun a b => (place (variant a) <= place (variant b))%Z) shown
         /\ (forall card, In card shown -> is_coding_plan card = true)
         /\ (forall a b, In a shown -> In b (cards_ records st) -> is_coding_plan b = true -> ~ In b shown ->
               (place (variant a) <= place (variant b))%Z))
  /\ (kinds ≡ₚ presets -> map variant shown = map Some presets).
Proof.
  cbv zeta. destruct (shown_cases records st) as [[E Hall]|[E (v & Hv & Hmiss)]].
  - pose proof (coding_plans_sorted (cards_ records st)) as Hsort.
    rewrite <- (take_drop 4 (coding_plans (cards_ records st))) in Hsort. rewrite <- E in Hsort.
    assert (forall card, In card (shown_ records st) -> In card (coding_plans (cards_ records st))) as Hsub.
    { intros card. rewrite E. intros H. rewrite <- (take_drop 4 (coding_plans _)). apply in_app_iff. by left. }
    split; [rewrite E, length_take; lia|]. split; [by intros card; apply shown_from_record|]. split; [right|].
    + split; [|split; [|split]].
      * intros v Hv. destruct (Hall v Hv) as (r & Hr & <-). apply list_elem_of_In, filter_In.
        split; [by apply in_map|by apply bool_decide_eq_true].
      * by eapply StronglySorted_app_1_l.
      * intros card Hc. by apply Hsub, coding_plans_In in Hc as [_ ?].
      * intros a b Ha Hb Hcode Hnot. eapply (sorted_split _ _ _ a b Hsort); [done|].
        assert (In b (coding_plans (cards_ records st))) as Hin by (by apply coding_plans_In).
        rewrite <- (take_drop 4 (coding_plans _)), <- E in Hin. by apply in_app_iff in Hin as [?|?].
    + intros Hk. rewrite E, <- firstn_map, (coding_kinds_sorted _ _ _ Hk); [done|apply presets_sorted|apply presets_apart].
  - split; [rewrite E, length_take; lia|]. split; [by intros card; apply shown_from_record|]. split; [by left|].
    intros Hk. exfalso.
    assert (In v (List.filter is_preset (map plan_kind records))) as Hin.
    { eapply Permutation_in; [symmetry; apply Hk|by apply list_elem_of_In]. }
    apply filter_In in Hin as [(r & Hr & Hin)%in_map_iff _]. by apply (Hmiss r).
Qed.

(** Every feature of a card has its translation. *)
Theorem features_paired r i st : length (featuresZh (card_ r i st)) = length (featuresEn (card_ r i st)).
Proof.
  unfold subscriptionPlanToPricePlan. cbv zeta. cbn [featuresZh featuresEn].
  destruct (preset_ (title r)) as [p|] eqn:E; cbn [fmap option_fmap option_map default].
  - unfold getCodingPlanPreset in E. cbv zeta in E. repeat simp_if_in E; try done; by injection E as <-.
  - rewrite !length_app. cbn [length]. apply (f_equal (Nat.add 4)).
    destruct (ngt _ zero), (truthy (trim (or_text (upgrade_group r) []))) eqn:Eu; reflexivity.
Qed.

(** A coding plan is priced by the month, whatever its period. *)
Lemma coding_suffix r i st :
  is_Some (preset_ (title r)) -> suffixEn (card_ r i st) = js "mo".
Proof. intros [p E]. unfold subscriptionPlanToPricePlan. cbv zeta. cbn [suffixEn]. by rewrite E. Qed.

End Shown.

(** ** Concrete plans *)

(** [s.toLowerCase()] on ASCII titles, and the same the other way. *)
Definition ascii_lower : jsstr -> jsstr := map (fun c => if ((65 <=? c) && (c <=? 90))%N then (c + 32)%N else c).
Definition ascii_upper : jsstr -> jsstr := map (fun c => if ((97 <=? c) && (c <=? 122))%N then (c - 32)%N else c).

Definition sample_plan (id : Z) (title : jsstr) (unit : jsstr) : SubscriptionPlan :=
  mkPlan (num_of_Z id) title None (num_of_Z 20) None (Some unit) None None (Some (num_of_Z 12500000)) None None None
    None None None (Some (num_of_Z 1)) None.

Abbreviation sample_shown records := (recordsToPricePlans ascii_lower ascii_upper (fun _ _ _ => None) records None).

(** The four kinds in any order are shown in their order. *)
Example shown_in_order :
  map variant (sample_shown
    [ sample_plan 1 (js "AI Coding Ultra") (js "month"); sample_plan 2 (js "Team") (js "month");
      sample_plan 3 (js "AI Coding Pro") (js "month"); sample_plan 4 (js "AI Coding Token pack") (js "month");
      sample_plan 5 (js "AI Coding Max") (js "month") ])
  = map Some presets.
Proof. vm_compute. reflexivity. Qed.

(** A second plan of one kind takes the place of the highest kind, which is no
    longer shown. *)
Example second_payg_hides_ultra :
  map variant (sample_shown
    [ sample_plan 1 (js "AI Coding PAYG") (js "month"); sample_plan 2 (js "AI Coding Pro") (js "month");
      sample_plan 3 (js "AI Coding Max") (js "month"); sample_plan 4 (js "AI Coding Ultra") (js "month");
      sample_plan 5 (js "AI Coding PAYG large") (js "month") ])
  = map Some [payg; payg; pro; max_plan].
Proof. vm_compute. reflexivity. Qed.

(** A coding plan of a year is priced by the month. *)
Example yearly_plan_per_month :
  let card := subscriptionPlanToPricePlan ascii_lower ascii_upper (fun _ _ _ => None)
                (sample_plan 1 (js "AI Coding Pro") (js "year")) 0 None in
  suffixEn card = js "mo" /\ periodLabelEn card = js "1 year" /\ saveEn card = js "Save 20%".
Proof. vm_compute. repeat split. Qed.

(** The kinds are found anywhere in a title. *)
Example promo_read_as_pro :
  preset_variant <$> getCodingPlanPreset ascii_lower (js "AI Coding PAYG promotion") = Some pro.
Proof. vm_compute. reflexivity. Qed.
