(* ===== verification/PlanPurchase.v ===== *)
(** * Buying a subscription plan

    Model of the pricing page of the customer site as a transition system: the
    page (src/web/customer/src/pages/Subscription/index.tsx) with its cards
    (components/topup/PriceCard.tsx), the hook usePlanPurchase.tsx that owns
    the purchase, the dialogs PlanPurchaseDialog.tsx and
    PurchaseProgressDialog.tsx, and the requests of services/customer-api.ts.
    The handlers are cut at their awaits and the answers arrive in any order.
    A control acts when its [disabled] allows it and no dialog covers it
    (components/common/ui/Dialog.tsx makes the page inert under a dialog).
    Markup, the toast of the message and the top-up dialog (TopupDialog.v) are
    left out. *)

From S2P Require Import Prelude JsStr JsNum JsArray JsJson Topup TopupDialog Plans.

(** ** State *)

Record User := mkUser { user_id : num; user_quota : option num }.

(** The [plan_id] of every entry of [all_subscriptions]; an absent list is
    empty. *)
Record SelfSubscriptionData := mkSelf { all_subscriptions : list (option num) }.

Inductive PurchasePaymentProvider := ByBalance | ByStripe | ByCreem | ByWaffoPancake | ByEpay.

#[export] Instance purchase_provider_eq_dec : EqDecision PurchasePaymentProvider.
Proof. solve_decision. Defined.

(** The page and the account it is shown to. *)
Record Page := mkPage {
  user : option User;
  page_status : option CustomerStatus;
  plans : list SubscriptionPlan;
  page_info : option TopupInfo;
  page_loading : bool;
  plansError : bool;
  reloadKey : nat;
  topupDialogOpen : bool
}.

(** An order, with the page and the purchases it was made from. *)
Record Order := mkOrder {
  o_page : Page;
  o_self : option SelfSubscriptionData;
  o_plan : CustomerPricePlan;
  o_id : num;
  o_provider : PurchasePaymentProvider;
  o_method : jsstr                     (* [paymentMethod || selectedEpayMethod] *)
}.

(** Where a purchase waits: for the answer to its order, or for the refresh
    after a payment by balance. *)
Inductive Waiting := WaitPay (o : Order) | WaitRefresh.

Record PurchaseHook := mkHook {
  selfSubscription : option SelfSubscriptionData;
  live_fetch : option nat;             (* mounted and not answered *)
  fetches : nat;
  hook_message : jsstr;
  buyingPlanId : option num;
  selectedPurchasePlan : option CustomerPricePlan;
  selectedEpayMethod : jsstr;
  purchaseProgress : option PurchaseProgress;
  waiting : list Waiting;
  sent : list Order;                   (* a log of the orders *)
  visited : list jsstr                 (* and of the navigations *)
}.

Record Site := mkSite { page : Page; hook : PurchaseHook }.

(** ** Updates of single fields *)

Section Setters.
  Variable h : PurchaseHook.

Definition setSelfSubscription (x : option SelfSubscriptionData) (live : option nat) (n : nat) : PurchaseHook :=
  let '(mkHook _ _ _ d e f g i j k l) := h in mkHook x live n d e f g i j k l.
Definition set_message (x : jsstr) : PurchaseHook :=
  let '(mkHook a b c _ e f g i j k l) := h in mkHook a b c x e f g i j k l.
Definition setBuyingPlanId (x : option num) : PurchaseHook :=
  let '(mkHook a b c d _ f g i j k l) := h in mkHook a b c d x f g i j k l.
Definition setSelectedPurchasePlan (x : option CustomerPricePlan) : PurchaseHook :=
  let '(mkHook a b c d e _ g i j k l) := h in mkHook a b c d e x g i j k l.
Definition setSelectedEpayMethod (x : jsstr) : PurchaseHook :=
  let '(mkHook a b c d e f _ i j k l) := h in mkHook a b c d e f x i j k l.
Definition setPurchaseProgress (x : option PurchaseProgress) : PurchaseHook :=
  let '(mkHook a b c d e f g _ j k l) := h in mkHook a b c d e f g x j k l.
Definition set_waiting (x : list Waiting) (log : list Order) : PurchaseHook :=
  let '(mkHook a b c d e f g i _ _ l) := h in mkHook a b c d e f g i x log l.
Definition navigateTo (path : jsstr) : PurchaseHook :=
  let '(mkHook a b c d e f g i j k l) := h in mkHook a b c d e f g i j k (path :: l).
End Setters.

(** ** Purchases of the customer *)

(** [user?.id] and whether it counts as signed in. *)
Definition account (u : option User) : option num := user_id <$> u.
Definition signed_in (u : option User) : bool :=
  match u with Some u => ntruthy (user_id u) | None => false end.

Definition count_plan (m : list (num * nat)) (plan_id : option num) : list (num * nat) :=
  match plan_id with
  | Some id => if ntruthy id then mset id (S (default 0 (mget id m))) m else m
  | None => m
  end.

Definition planPurchaseCountMap (self : option SelfSubscriptionData) : list (num * nat) :=
  foldl count_plan [] (default [] (all_subscriptions <$> self)).

Definition getPlanPurchaseCount (self : option SelfSubscriptionData) (planId : option num) : nat :=
  match planId with
  | Some id => if ntruthy id then default 0 (mget id (planPurchaseCountMap self)) else 0
  | None => 0
  end.

Definition purchaseLimit (plan : CustomerPricePlan) : num :=
  num_or (default zero (maxPurchasePerUser plan)) zero.

Definition limitReached (plan : CustomerPricePlan) (count : nat) : bool :=
  ngt (purchaseLimit plan) zero && nge (num_of_nat count) (purchaseLimit plan).

(** The effect on [user?.id]: the cleanup of the fetch before, and the next
    one. *)
Definition account_effect (before after : option User) (h : PurchaseHook) : PurchaseHook :=
  if bool_decide (account before = account after) then h
  else if signed_in after then setSelfSubscription h (selfSubscription h) (Some (fetches h)) (S (fetches h))
  else setSelfSubscription h None None (fetches h).

Definition set_user (u : option User) (s : Site) : Site :=
  let '(mkPage before st l i b e k d) := page s in
  mkSite (mkPage u st l i b e k d) (account_effect before u (hook s)).

Definition selfLoaded (id : nat) (answer : option SelfSubscriptionData) (h : PurchaseHook) : PurchaseHook :=
  if bool_decide (live_fetch h = Some id) then setSelfSubscription h answer None (fetches h) else h.

(** ** Progress *)

Definition setPurchaseSteps (o i l : option PurchaseStepState) (h : PurchaseHook) : PurchaseHook :=
  setPurchaseProgress h
    ((fun p => mkProgress (planName p) (default (order p) o) (default (paymentInfo p) i)
                 (default (launch_step p) l) (p_message p) (p_error p) (canClose p) (p_launch p))
     <$> purchaseProgress h).

(** A patch: [None] is an absent field, [Some None] an error set to undefined. *)
Definition updatePurchaseProgress (m : option jsstr) (e : option (option jsstr)) (c : option bool)
    (l : option PurchaseLaunch) (h : PurchaseHook) : PurchaseHook :=
  setPurchaseProgress h
    ((fun p => mkProgress (planName p) (order p) (paymentInfo p) (launch_step p) (default (p_message p) m)
                 (default (p_error p) e) (default (canClose p) c)
                 (match l with Some x => Some x | None => p_launch p end))
     <$> purchaseProgress h).

Definition purchase_failed (errorMessage : jsstr) (h : PurchaseHook) : PurchaseHook :=
  set_message (updatePurchaseProgress (Some errorMessage) (Some (Some errorMessage)) (Some true) None h) errorMessage.

(** ** Requests *)

Definition order_request (o : Order) : Request :=
  let id := (js "plan_id", JNum (o_id o)) in
  match o_provider o with
  | ByBalance => mkRequest (js "/api/subscription/balance/pay") (JObj [id])
  | ByStripe => mkRequest (js "/api/subscription/stripe/pay") (JObj [id])
  | ByCreem => mkRequest (js "/api/subscription/creem/pay") (JObj [id])
  | ByWaffoPancake => mkRequest (js "/api/subscription/waffo-pancake/pay") (JObj [id])
  | ByEpay => mkRequest (js "/api/subscription/epay/pay") (JObj [id; (js "payment_method", JStr (o_method o))])
  end.

(** [response.data?.key], where it counts as given. *)
Definition data_field (k : jsstr) (response : ApiResponse) : option json :=
  match data response ≫= jfield k with Some v => if json_truthy v then Some v else None | None => None end.

Definition purchase_launch (response : ApiResponse) (p : PurchasePaymentProvider) : option PurchaseLaunch :=
  let epayParams := match data response with
                    | Some (JObj l) => JObj l
                    | Some (JArr l) => JArr l
                    | _ => JObj []
                    end in
  let paymentUrl := match data_field (js "pay_link") response with
                    | Some v => Some v
                    | None => data_field (js "checkout_url") response
                    end in
  let checkout := match paymentUrl with
                  | Some (JStr s) => if truthy s then Some (LaunchUrl s (bool_decide (p = ByWaffoPancake))) else None
                  | _ => None
                  end in
  match p, url response with
  | ByEpay, Some u => if truthy u then Some (LaunchEpay u epayParams) else checkout
  | _, _ => checkout
  end.

(** ** The hook *)

Section Hooks.
  (** [localizeKey(language, key)], also with a count and a limit. *)
  Variable t : jsstr -> jsstr.
  Variable t_limit : jsstr -> nat -> num -> jsstr.

(** [launched] is what opening the page returned, [None] when it threw. *)
Definition handleLaunchPayment (launch : PurchaseLaunch) (launched : bool) (h : PurchaseHook) : PurchaseHook :=
  let h := setPurchaseSteps None None (Some processing) h in
  let nextMessage := getPaymentLaunchMessage t launch launched in
  let h := setPurchaseSteps None None (Some done) h in
  set_message (updatePurchaseProgress (Some nextMessage) (Some None) (Some true) None h) nextMessage.

(** What is left of it when opening the page throws. *)
Definition launch_threw (h : PurchaseHook) : PurchaseHook := setPurchaseSteps None None (Some processing) h.

Definition openPurchase (pg : Page) (plan : CustomerPricePlan) (h : PurchaseHook) : PurchaseHook :=
  if negb (signed_in (user pg)) then navigateTo h (js "/sign-in")
  else match planId plan with
       | Some id =>
           if ntruthy id then
             let first := or_text (head (getEpayMethods (page_info pg)) ≫= method_type) [] in
             setSelectedPurchasePlan (setSelectedEpayMethod (set_message h []) first) (Some plan)
           else navigateTo h (js "/dashboard/billing")
       | None => navigateTo h (js "/dashboard/billing")
       end.

Definition balanceEnough (u : option User) (plan : CustomerPricePlan) : bool :=
  nge (default zero (u ≫= user_quota)) (requiredQuota plan).

(** The end of every path: the [finally] block. *)
Definition purchase_settled (h : PurchaseHook) : PurchaseHook := setBuyingPlanId h None.

(** The first part of the [try] block, up to its request. *)
Definition placeOrder (pg : Page) (plan : CustomerPricePlan) (id : num) (p : PurchasePaymentProvider)
    (method : option jsstr) (h : PurchaseHook) : PurchaseHook :=
  let o := mkOrder pg (selfSubscription h) plan id p (or_text method (selectedEpayMethod h)) in
  let ask h := set_waiting h (waiting h ++ [WaitPay o]) (o :: sent h) in
  match p with
  | ByBalance =>
      if bool_decide (allowBalancePay plan = Some false) || negb (balanceEnough (user pg) plan) then
        let errorMessage := if bool_decide (allowBalancePay plan = Some false)
                            then t (js "This plan does not allow balance payment.")
                            else t (js "Insufficient balance.") in
        purchase_settled (purchase_failed errorMessage (setPurchaseSteps (Some error) None None h))
      else ask (updatePurchaseProgress (Some (t (js "Completing purchase with balance..."))) None None None h)
  | _ =>
      ask (setPurchaseSteps None (Some processing) None
             (updatePurchaseProgress (Some (t (js "Getting payment details..."))) None None None h))
  end.

(** [handlePurchasePayment] up to its request. *)
Definition handlePurchasePayment (p : PurchasePaymentProvider) (method : option jsstr) (pg : Page) (h : PurchaseHook) : PurchaseHook :=
  if negb (signed_in (user pg)) then navigateTo h (js "/sign-in")
  else
    match selectedPurchasePlan h with
    | Some plan =>
        match planId plan with
        | Some id =>
            if negb (ntruthy id) then navigateTo (setSelectedPurchasePlan h None) (js "/dashboard/billing")
            else
              let purchaseCount := getPlanPurchaseCount (selfSubscription h) (Some id) in
              if limitReached plan purchaseCount then
                set_message h
                  (t_limit (js "Purchase limit reached ({{current}}/{{limit}})") purchaseCount (purchaseLimit plan))
              else if bool_decide (p = ByEpay) && negb (given method) then
                set_message h (t (js "Please select a payment method."))
              else
                let h := setBuyingPlanId (set_message (setSelectedPurchasePlan h None) []) (Some id) in
                let h := setPurchaseProgress h
                           (Some (mkProgress (name plan) processing pending pending (t (js "Creating order..."))
                                    None false None)) in
                placeOrder pg plan id p method h
        | None => navigateTo (setSelectedPurchasePlan h None) (js "/dashboard/billing")
        end
    | None => navigateTo (setSelectedPurchasePlan h None) (js "/dashboard/billing")
    end.

(** The answer to a payment by balance; the [n]th purchase goes on to refresh
    the page's data. *)
Definition balanceAnswered (n : nat) (response : ApiResponse) (h : PurchaseHook) : PurchaseHook :=
  if negb (success response) then
    purchase_settled (purchase_failed (or_text (r_message response) (t (js "Failed to purchase plan")))
      (setPurchaseSteps (Some error) None None (set_waiting h (delete n (waiting h)) (sent h))))
  else
    let successMessage := t (js "Plan purchased successfully.") in
    let h := setPurchaseSteps (Some done) (Some done) (Some done) h in
    let h := set_message (updatePurchaseProgress (Some successMessage) (Some None) (Some true) None h) successMessage in
    set_waiting h (<[n := WaitRefresh]> (waiting h)) (sent h).

(** The answer to an order at a payment provider. *)
Definition providerAnswered (o : Order) (response : ApiResponse) (launched : option bool) (h : PurchaseHook) : PurchaseHook :=
  if negb (isSubscriptionPaymentSuccess response) then
    purchase_failed (getSubscriptionPaymentError t response) (setPurchaseSteps (Some error) (Some pending) None h)
  else
    let h := setPurchaseSteps (Some done) (Some done) (Some processing) h in
    let h := updatePurchaseProgress (Some (t (js "Payment details received. Launching payment..."))) None None None h in
    match purchase_launch response (o_provider o) with
    | None => purchase_failed (t (js "Payment link was not returned.")) (setPurchaseSteps None None (Some error) h)
    | Some launch =>
        let h := updatePurchaseProgress None None None (Some launch) h in
        match launched with
        | Some b => handleLaunchPayment launch b h
        | None => purchase_failed (t (js "Purchase flow failed. Please try again."))
                    (setPurchaseSteps (Some error) None None (launch_threw h))
        end
    end.

(** The rest of [handlePurchasePayment], for the answer to the [n]th purchase. *)
Definition purchaseAnswered (n : nat) (response : ApiResponse) (launched : option bool) (h : PurchaseHook) : PurchaseHook :=
  match waiting h !! n with
  | Some (WaitPay o) =>
      match o_provider o with
      | ByBalance => balanceAnswered n response h
      | _ => purchase_settled (providerAnswered o response launched (set_waiting h (delete n (waiting h)) (sent h)))
      end
  | _ => h
  end.

(** The answers to [refreshPurchaseState], if they are successes with data. *)
Definition purchaseRefreshed (n : nat) (self : option User) (subs : option SelfSubscriptionData) (s : Site) : Site :=
  match waiting (hook s) !! n with
  | Some WaitRefresh =>
      let h := match subs with
               | Some d => setSelfSubscription (hook s) (Some d) (live_fetch (hook s)) (fetches (hook s))
               | None => hook s
               end in
      let h := purchase_settled (set_waiting h (delete n (waiting h)) (sent h)) in
      match self with
      | Some u => set_user (Some u) (mkSite (page s) h)
      | None => mkSite (page s) h
      end
  | _ => s
  end.

(** ** The dialogs *)

Definition availableQuota (u : option User) : num :=
  nmax zero (num_or (num_or (default zero (u ≫= user_quota)) zero) zero).
Definition balanceCost (plan : CustomerPricePlan) : num := nmax zero (requiredQuota plan).

Definition hasStripe (i : option TopupInfo) (plan : CustomerPricePlan) : bool :=
  enable_stripe_topup (info i) && given (stripePriceId plan).
Definition hasCreem (i : option TopupInfo) (plan : CustomerPricePlan) : bool :=
  enable_creem_topup (info i) && given (creemProductId plan).
Definition hasWaffoPancake (i : option TopupInfo) (plan : CustomerPricePlan) : bool :=
  enable_waffo_pancake_topup (info i) && given (waffoPancakeProductId plan).
Definition hasEpay (i : option TopupInfo) : bool :=
  enable_online_topup (info i) && negb (Nat.eqb (length (getEpayMethods i)) 0).
Definition hasOnlinePayment (i : option TopupInfo) (plan : CustomerPricePlan) : bool :=
  hasStripe i plan || hasCreem i plan || hasWaffoPancake i plan || hasEpay i.
Definition resetIsNever (plan : CustomerPricePlan) : bool := str_eqb (resetLabelEn plan) (js "No automatic reset").

(** Whether the dialog shows the button of a provider, and it is enabled. *)
Definition pay_enabled (p : PurchasePaymentProvider) (pg : Page) (plan : CustomerPricePlan) (h : PurchaseHook) : bool :=
  let payButtonDisabled := limitReached plan (getPlanPurchaseCount (selfSubscription h) (planId plan)) in
  negb payButtonDisabled
  && match p with
     | ByBalance => negb (bool_decide (allowBalancePay plan = Some false))
                    && nge (availableQuota (user pg)) (balanceCost plan)
     | ByStripe => hasStripe (page_info pg) plan
     | ByCreem => hasCreem (page_info pg) plan
     | ByWaffoPancake => hasWaffoPancake (page_info pg) plan
     | ByEpay => hasEpay (page_info pg) && truthy (selectedEpayMethod h)
     end.

(** The effect of the dialog: a first method.  It depends on nothing but what
    it tests, so running it at every render is the same. *)
Definition epay_effect (pg : Page) (h : PurchaseHook) : PurchaseHook :=
  match selectedPurchasePlan h with
  | None => h
  | Some _ =>
      if truthy (selectedEpayMethod h) then h
      else match head (getEpayMethods (page_info pg)) ≫= method_type with
           | Some type => if truthy type then setSelectedEpayMethod h type else h
           | None => h
           end
  end.

(** The methods of the selection box. *)
Definition epay_types (i : option TopupInfo) : list jsstr := omap method_type (getEpayMethods i).

Definition steps_of (p : PurchaseProgress) : list PurchaseStepState := [order p; paymentInfo p; launch_step p].

Definition panel_title (p : PurchaseProgress) : jsstr :=
  if existsb (fun st => bool_decide (st = error)) (steps_of p) then t (js "Payment needs attention")
  else if existsb (fun st => bool_decide (st = processing)) (steps_of p) then t (js "Preparing payment")
  else match p_launch p with
       | Some _ => t (js "Payment page ready")
       | None => t (js "Purchase successful")
       end.

Definition getPurchaseStepStatusLabel (state : PurchaseStepState) : jsstr :=
  match state with
  | done => t (js "Done")
  | processing => t (js "Processing")
  | error => t (js "Failed")
  | pending => t (js "Waiting")
  end.

(** ** The page *)

  Variable toLowerCase toUpperCase : jsstr -> jsstr.
  Variable currencyFormat : jsstr -> Z -> num -> option jsstr.

Definition displayPlans (pg : Page) : list CustomerPricePlan :=
  recordsToPricePlans toLowerCase toUpperCase currencyFormat (plans pg) (page_status pg).

Definition mount_page (u : option User) : Site :=
  mkSite (mkPage u None [] None true false 0 false)
    (account_effect None u (mkHook None None 0 [] None None [] None [] [] [])).

(** The answers of the load with the given key: the status and the top-up
    settings if they are successes with data. *)
Definition pageLoaded (key : nat) (st : option CustomerStatus) (plansOk : bool)
    (plansData : option (list SubscriptionPlan)) (i : option TopupInfo) (pg : Page) : Page :=
  if page_loading pg && Nat.eqb key (reloadKey pg) then
    mkPage (user pg) (match st with Some x => Some x | None => page_status pg end)
      (if plansOk then default [] plansData else [])
      (match i with Some x => Some x | None => page_info pg end)
      false (negb plansOk) (reloadKey pg) (topupDialogOpen pg)
  else pg.

Definition reload (pg : Page) : Page :=
  mkPage (user pg) (page_status pg) (plans pg) (page_info pg) true false (S (reloadKey pg)) (topupDialogOpen pg).

Definition set_topup (b : bool) (pg : Page) : Page :=
  mkPage (user pg) (page_status pg) (plans pg) (page_info pg) (page_loading pg) (plansError pg) (reloadKey pg) b.

(** A visitor is sent to the sign-in page. *)
Definition handleOpenTopup (s : Site) : Site :=
  if signed_in (user (page s)) then mkSite (set_topup true (page s)) (hook s)
  else mkSite (page s) (navigateTo (hook s) (js "/sign-in")).

(** No dialog covers the page. *)
Definition page_active (s : Site) : bool :=
  match selectedPurchasePlan (hook s), purchaseProgress (hook s) with
  | None, None => negb (topupDialogOpen (page s))
  | _, _ => false
  end.

Definition card_disabled (h : PurchaseHook) (plan : CustomerPricePlan) : bool :=
  match buyingPlanId h with Some _ => true | None => false end
  || limitReached plan (getPlanPurchaseCount (selfSubscription h) (planId plan)).

(** ** Events *)

Inductive PlanEvent :=
| VUser (u : option User)
| VPageLoaded (key : nat) (st : option CustomerStatus) (plansOk : bool) (plansData : option (list SubscriptionPlan))
    (i : option TopupInfo)
| VRetry
| VTopup
| VCloseTopup
| VSelfLoaded (id : nat) (answer : option SelfSubscriptionData)
| VBuy (index : nat)
| VMethod (type : jsstr)
| VCloseDialog
| VPay (p : PurchasePaymentProvider)
| VAnswer (n : nat) (response : ApiResponse) (launched : option bool)
| VRefreshed (n : nat) (self : option User) (subs : option SelfSubscriptionData)
| VClosePanel
| VLaunchAgain (launched : option bool).

Definition on_hook (f : PurchaseHook -> PurchaseHook) (s : Site) : Site := mkSite (page s) (f (hook s)).
Definition on_page (f : Page -> Page) (s : Site) : Site := mkSite (f (page s)) (hook s).

Definition plan_handle (e : PlanEvent) (s : Site) : Site :=
  let pg := page s in
  let h := hook s in
  match e with
  | VUser u => set_user u s
  | VPageLoaded key st ok l i => on_page (pageLoaded key st ok l i) s
  | VRetry => if page_active s && negb (page_loading pg) && plansError pg then on_page reload s else s
  | VTopup => if page_active s && negb (page_loading pg) then handleOpenTopup s else s
  | VCloseTopup => on_page (set_topup false) s
  | VSelfLoaded id answer => on_hook (selfLoaded id answer) s
  | VBuy index =>
      if page_active s && negb (page_loading pg) && negb (plansError pg) then
        match displayPlans pg !! index with
        | Some plan => if card_disabled h plan then s else on_hook (openPurchase pg plan) s
        | None => s
        end
      else s
  | VMethod type =>
      match selectedPurchasePlan h with
      | Some plan =>
          if hasEpay (page_info pg)
             && negb (limitReached plan (getPlanPurchaseCount (selfSubscription h) (planId plan)))
             && bool_decide (type ∈ epay_types (page_info pg))
          then on_hook (fun h => setSelectedEpayMethod h type) s else s
      | None => s
      end
  | VCloseDialog => on_hook (fun h => setSelectedPurchasePlan h None) s
  | VPay p =>
      match selectedPurchasePlan h with
      | Some plan =>
          if pay_enabled p pg plan h then
            let method := match p with ByEpay => Some (selectedEpayMethod h) | _ => None end in
            on_hook (handlePurchasePayment p method pg) s
          else s
      | None => s
      end
  | VAnswer n response launched => on_hook (purchaseAnswered n response launched) s
  | VRefreshed n self subs => purchaseRefreshed n self subs s
  | VClosePanel =>
      match purchaseProgress h with
      | Some p => if canClose p then on_hook (fun h => setPurchaseProgress h None) s else s
      | None => s
      end
  | VLaunchAgain launched =>
      match purchaseProgress h with
      | Some p =>
          match p_launch p with
          | Some launch =>
              if canClose p then
                on_hook (match launched with Some b => handleLaunchPayment launch b | None => launch_threw end) s
              else s
          | None => s
          end
      | None => s
      end
  end.

(** An event and the effect of the dialog after it. *)
Definition plan_step (e : PlanEvent) (s : Site) : Site :=
  let s := plan_handle e s in mkSite (page s) (epay_effect (page s) (hook s)).

Inductive plan_reachable : Site -> Prop :=
| preach_mount u : plan_reachable (mount_page u)
| preach_step e s : plan_reachable s -> plan_reachable (plan_step e s).

End Hooks.

(** ** Cards *)

(** What a card shows. *)
Record CardView := mkView {
  v_features : list jsstr;
  v_description : jsstr;
  v_price : jsstr;
  v_received : jsstr;
  v_promo : jsstr;
  v_saving : option jsstr;
  v_original : option jsstr;
  v_suffix : option jsstr;
  v_cta : jsstr
}.

(** [localizeText(language, zh, en)] is a parameter. *)
Definition PriceCard (localizeText : jsstr -> jsstr -> jsstr) (plan : CustomerPricePlan) : CardView :=
  let promoZh' := trim (default [] (promoZh plan)) in
  let promoEn' := or_text (trim <$> promoEn plan) promoZh' in
  let showSaving := truthy (trim (saveZh plan))
                    && (negb (truthy promoZh') || negb (str_eqb (trim (saveZh plan)) promoZh')) in
  {| v_features := imap (fun index feature => localizeText feature (default feature (featuresEn plan !! index)))
                     (featuresZh plan);
     v_description := if given (descriptionZh plan)
                      then localizeText (default [] (descriptionZh plan))
                             (default (default [] (descriptionZh plan)) (descriptionEn plan))
                      else if hideDescription plan then [] else rate plan;
     v_price := if given (priceZh plan)
                then localizeText (default [] (priceZh plan)) (default (default [] (priceZh plan)) (priceEn plan))
                else price plan;
     v_received := localizeText (quotaLabelZh plan) (quotaLabelEn plan);
     v_promo := if truthy promoZh' && truthy promoEn'
                then localizeText (uni "限时 " ++ promoZh') (js "Limited time " ++ promoEn') else [];
     v_saving := if showSaving then Some (localizeText (saveZh plan) (saveEn plan)) else None;
     v_original := if given (originalPriceZh plan)
                   then Some (localizeText (default [] (originalPriceZh plan))
                                (default (default [] (originalPriceZh plan)) (originalPriceEn plan)))
                   else None;
     v_suffix := if default false (hideSuffix plan) then None
                 else Some (localizeText (suffixZh plan) (suffixEn plan));
     v_cta := localizeText (ctaZh plan) (ctaEn plan) |}.
