(* ===== verification/PlanPurchaseProps.v ===== *)
(** * What buying a plan guarantees

    In every state the pricing page can reach: at most one purchase waits, its
    panel stays open until the answer, and every order that was sent was
    offered by the dialog for a plan of the server and within its limits. *)

From S2P Require Import Prelude JsStr JsNum JsArray JsJson Topup TopupDialog Plans PlansProps PlanPurchase.

Section Purchases.
  Variable t : jsstr -> jsstr.
  Variable t_limit : jsstr -> nat -> num -> jsstr.
  Variable toLowerCase toUpperCase : jsstr -> jsstr.
  Variable currencyFormat : jsstr -> Z -> num -> option jsstr.

Abbreviation handle_ := (plan_handle t t_limit toLowerCase toUpperCase currencyFormat).
Abbreviation step_ := (plan_step t t_limit toLowerCase toUpperCase currencyFormat).
Abbreviation reachable_ := (plan_reachable t t_limit toLowerCase toUpperCase currencyFormat).
Abbreviation display_ := (displayPlans toLowerCase toUpperCase currencyFormat).

(** ** Phases of a purchase *)

Definition panel_closable (h : PurchaseHook) : Prop := forall p, purchaseProgress h = Some p -> canClose p = true.
Definition panel_held (h : PurchaseHook) : Prop :=
  exists p, purchaseProgress h = Some p /\ canClose p = false /\ order p = processing.

Definition idle (h : PurchaseHook) : Prop := waiting h = [] /\ buyingPlanId h = None /\ panel_closable h.
Definition paying (h : PurchaseHook) : Prop :=
  exists o, waiting h = [WaitPay o] /\ buyingPlanId h = Some (o_id o) /\ panel_held h /\ selectedPurchasePlan h = None.
Definition refreshing (h : PurchaseHook) : Prop :=
  waiting h = [WaitRefresh] /\ is_Some (buyingPlanId h) /\ panel_closable h /\ selectedPurchasePlan h = None.

Definition phase (h : PurchaseHook) : Prop := idle h \/ paying h \/ refreshing h.

(** What an order was allowed by. *)
Definition provider_fits (o : Order) : Prop :=
  let i := page_info (o_page o) in
  match o_provider o with
  | ByBalance => allowBalancePay (o_plan o) <> Some false /\ balanceEnough (user (o_page o)) (o_plan o) = true
  | ByStripe => hasStripe i (o_plan o) = true
  | ByCreem => hasCreem i (o_plan o) = true
  | ByWaffoPancake => hasWaffoPancake i (o_plan o) = true
  | ByEpay => hasEpay i = true /\ o_method o ∈ epay_types i
  end.

Definition order_allowed (o : Order) : Prop :=
  signed_in (user (o_page o)) = true
  /\ o_plan o ∈ display_ (o_page o)
  /\ planId (o_plan o) = Some (o_id o)
  /\ ntruthy (o_id o) = true
  /\ limitReached (o_plan o) (getPlanPurchaseCount (o_self o) (planId (o_plan o))) = false
  /\ provider_fits o.

(** The dialog shows a plan of the page, and a method of its list. *)
Definition dialog_fits (pg : Page) (h : PurchaseHook) : Prop :=
  forall plan, selectedPurchasePlan h = Some plan ->
    purchaseProgress h = None /\ page_loading pg = false /\ topupDialogOpen pg = false
    /\ plan ∈ display_ pg
    /\ (truthy (selectedEpayMethod h) = true -> selectedEpayMethod h ∈ epay_types (page_info pg)).

Record sound (s : Site) : Prop := {
  sound_phase : phase (hook s);
  sound_dialog : dialog_fits (page s) (hook s);
  sound_log : Forall order_allowed (sent (hook s))
}.

(** ** Steps that keep the purchase as it is *)

(** What the invariant reads of the hook. *)
Definition purchase_core (h : PurchaseHook) :=
  (waiting h, buyingPlanId h, selectedPurchasePlan h, selectedEpayMethod h, purchaseProgress h, sent h).

Lemma sound_core pg h h' : purchase_core h' = purchase_core h -> sound (mkSite pg h) -> sound (mkSite pg h').
Proof.
  destruct h as [a b c d e f g i j k l], h' as [a' b' c' d' e' f' g' i' j' k' l'].
  cbn. intros [= -> -> -> -> -> ->] [Hp Hd Hl]. by split.
Qed.

Lemma account_effect_core u v h : purchase_core (account_effect u v h) = purchase_core h.
Proof. unfold account_effect. repeat case_match; by destruct h. Qed.

Lemma navigate_core h p : purchase_core (navigateTo h p) = purchase_core h.
Proof. by destruct h. Qed.
Lemma message_core h m : purchase_core (set_message h m) = purchase_core h.
Proof. by destruct h. Qed.
Lemma self_core h x y n : purchase_core (setSelfSubscription h x y n) = purchase_core h.
Proof. by destruct h. Qed.

(** The dialog is closed: nothing of the page matters. *)
Lemma dialog_closed pg h : selectedPurchasePlan h = None -> dialog_fits pg h.
Proof. intros H plan. by rewrite H. Qed.

Lemma active_closed s :
  page_active s = true ->
  selectedPurchasePlan (hook s) = None /\ purchaseProgress (hook s) = None /\ topupDialogOpen (page s) = false.
Proof. unfold page_active. repeat case_match; try done. by destruct (topupDialogOpen _). Qed.

Lemma sound_user u s : sound s -> sound (set_user u s).
Proof.
  destruct s as [pg h]. intros Hs. unfold set_user. cbn [page hook].
  destruct pg as [u0 st l i b e k d]. eapply sound_core; [apply account_effect_core|].
  destruct Hs as [Hp Hd Hl]. by split.
Qed.

Lemma sound_loaded key st ok l i s : sound s -> sound (on_page (pageLoaded key st ok l i) s).
Proof.
  intros [Hp Hd Hl]. split; [done| |done]. cbn. unfold pageLoaded.
  destruct (page_loading (page s) && Nat.eqb key (reloadKey (page s))) eqn:E; [|done].
  apply andb_true_iff in E as [E _]. intros plan Hplan. destruct (Hd plan Hplan) as (_ & Hf & _). congruence.
Qed.

(** ** Opening *)

Lemma epay_types_head i type :
  head (getEpayMethods i) ≫= method_type = Some type -> type ∈ epay_types i.
Proof.
  unfold epay_types. destruct (getEpayMethods i) as [|m l]; [done|]. cbn [head mbind option_bind omap list_omap].
  intros ->. apply list_elem_of_here.
Qed.

Lemma first_method_fits i :
  truthy (or_text (head (getEpayMethods i) ≫= method_type) []) = true ->
  or_text (head (getEpayMethods i) ≫= method_type) [] ∈ epay_types i.
Proof.
  destruct (head (getEpayMethods i) ≫= method_type) as [type|] eqn:E; cbn [or_text]; [|done].
  destruct (truthy type); [|done]. intros _. by apply epay_types_head.
Qed.

Lemma sound_open plan s :
  sound s -> page_active s = true -> page_loading (page s) = false -> buyingPlanId (hook s) = None ->
  plan ∈ display_ (page s) -> sound (on_hook (openPurchase (page s) plan) s).
Proof.
  intros Hs Ha Hload Hbuy Hin. destruct (active_closed s Ha) as (Hsel & Hprog & Htop).
  destruct s as [pg h]. cbn [page hook on_hook] in *. unfold openPurchase.
  repeat case_match; try (eapply sound_core; [apply navigate_core|done]).
  destruct Hs as [Hp Hd Hl]. cbn [page hook] in *. destruct h as [a b c d e f g i j k l]. cbn in *. subst.
  split; cbn; [|intros x [= <-]; cbn|done].
  - left. destruct Hp as [(? & _ & ?)|[(o & ? & ? & _)|(? & [? ?] & _)]]; [by split|done|done].
  - repeat split; try done. apply first_method_fits.
Qed.

(** ** Paying *)

Definition no_method (p : PurchasePaymentProvider) (method : option jsstr) : bool :=
  bool_decide (p = ByEpay) && negb (given method).

(** The order a payment would place. *)
Definition new_order (pg : Page) (h : PurchaseHook) (plan : CustomerPricePlan) (id : num) (p : PurchasePaymentProvider)
    (method : option jsstr) : Order :=
  mkOrder pg (selfSubscription h) plan id p (or_text method (selectedEpayMethod h)).

Lemma place_sound pg plan id p method h :
  idle h -> selectedPurchasePlan h = Some plan -> Forall order_allowed (sent h) ->
  (p = ByBalance -> allowBalancePay plan <> Some false -> balanceEnough (user pg) plan = true ->
     order_allowed (new_order pg h plan id p method)) ->
  (p <> ByBalance -> order_allowed (new_order pg h plan id p method)) ->
  sound (mkSite pg
    (placeOrder t pg plan id p method
       (setPurchaseProgress (setBuyingPlanId (set_message (setSelectedPurchasePlan h None) []) (Some id))
          (Some (mkProgress (name plan) processing pending pending (t (js "Creating order..."))
                   None false None))))).
Proof.
  destruct h as [a b c d e f g i j k l]. intros (Hw & Hb & Hc) Hsel Hl Hbal Hother. cbn in *. subst.
  unfold placeOrder.
  assert (forall o pr, order_allowed o -> o_id o = id -> canClose pr = false -> order pr = processing ->
            sound (mkSite pg (mkHook a b c [] (Some id) None g (Some pr) [WaitPay o] (o :: k) l))) as Hask.
  { intros o pr Ho Hid Hcl Hord. split; cbn; [|by apply dialog_closed|by constructor].
    right; left. exists o. rewrite Hid. repeat split. by exists pr. }
  destruct p; cbn.
  - destruct (decide (allowBalancePay plan = Some false)) as [E|E].
    + rewrite bool_decide_true by done. cbn. split; cbn; [|by apply dialog_closed|done].
      left. repeat split. by intros pr [= <-].
    + rewrite bool_decide_false by done. cbn. destruct (balanceEnough (user pg) plan) eqn:Eb; cbn.
      * apply Hask; [by apply Hbal|done..].
      * split; cbn; [|by apply dialog_closed|done]. left. repeat split. by intros pr [= <-].
  - apply Hask; [by apply Hother|done..].
  - apply Hask; [by apply Hother|done..].
  - apply Hask; [by apply Hother|done..].
  - apply Hask; [by apply Hother|done..].
Qed.

Lemma selected_idle h plan : phase h -> selectedPurchasePlan h = Some plan -> idle h.
Proof. intros [?|[(o & _ & _ & _ & H)|(_ & _ & _ & H)]]; [done|congruence|congruence]. Qed.

Lemma enabled_fits p pg plan h id :
  dialog_fits pg h -> selectedPurchasePlan h = Some plan -> pay_enabled p pg plan h = true -> p <> ByBalance ->
  provider_fits (new_order pg h plan id p (match p with ByEpay => Some (selectedEpayMethod h) | _ => None end)).
Proof.
  intros Hd Hsel He Hp. unfold pay_enabled in He. cbv zeta in He. apply andb_true_iff in He as [_ He].
  destruct p; try done. unfold provider_fits, new_order. cbn in *.
  apply andb_true_iff in He as [He1 He2]. split; [done|]. rewrite He2.
  destruct (Hd plan Hsel) as (_ & _ & _ & _ & Hm). by apply Hm.
Qed.

Lemma enabled_limit p pg plan h :
  pay_enabled p pg plan h = true ->
  limitReached plan (getPlanPurchaseCount (selfSubscription h) (planId plan)) = false.
Proof.
  unfold pay_enabled. cbv zeta. intros He. apply andb_true_iff in He as [He _]. by destruct (limitReached _ _).
Qed.

Lemma sound_pay p plan s :
  sound s -> selectedPurchasePlan (hook s) = Some plan -> pay_enabled p (page s) plan (hook s) = true ->
  sound (on_hook (handlePurchasePayment t t_limit p
          (match p with ByEpay => Some (selectedEpayMethod (hook s)) | _ => None end) (page s)) s).
Proof.
  intros Hs Hsel He. pose proof (selected_idle _ _ (sound_phase _ Hs) Hsel) as Hidle.
  pose proof (enabled_limit _ _ _ _ He) as Hlim. destruct s as [pg h]. cbn [page hook on_hook] in *.
  unfold on_hook, handlePurchasePayment. cbn [page hook]. rewrite Hsel.
  destruct (signed_in (user pg)) eqn:Hu; cbn [negb]; [|eapply sound_core; [apply navigate_core|done]].
  assert (forall m, sound (mkSite pg (navigateTo (setSelectedPurchasePlan h None) m))) as Hnav.
  { intros m. eapply sound_core; [apply navigate_core|]. destruct Hs as [_ _ Hl]. destruct h. cbn in *.
    split; [by left|by apply dialog_closed|done]. }
  destruct (planId plan) as [id|] eqn:Hid; [|apply Hnav].
  destruct (ntruthy id) eqn:Ht; cbn [negb]; [|apply Hnav].
  rewrite Hlim. case_match; [eapply sound_core; [apply message_core|done]|].
  destruct (sound_dialog _ Hs plan Hsel) as (_ & _ & _ & Hin & _). cbn [page hook] in Hin.
  apply place_sound; [done|done|apply Hs| |]; intros; (split; [done|]; split; [done|]; split; [done|]; split; [done|]; split).
  - cbn. by rewrite Hid.
  - subst p. by split.
  - cbn. by rewrite Hid.
  - by apply enabled_fits; [apply Hs|..].
Qed.

(** ** Answers *)

(** A path that ends: the panel can be closed. *)
Lemma sound_settled pg h :
  selectedPurchasePlan h = None -> waiting h = [] -> panel_closable h -> Forall order_allowed (sent h) ->
  sound (mkSite pg (purchase_settled h)).
Proof.
  intros Hs Hw Hc Hl. destruct h. cbn in *. split; [|by apply dialog_closed|done]. left. by repeat split.
Qed.

Lemma failed_closable m h : panel_closable (purchase_failed m h).
Proof. destruct h as [a b c d e f g i j k l]. intros p. destruct i; [|done]. by intros [= <-]. Qed.

Lemma launched_closable launch b h : panel_closable (handleLaunchPayment t launch b h).
Proof. destruct h as [a b' c d e f g i j k l]. intros p. destruct i; [|done]. by intros [= <-]. Qed.

Lemma provider_closable o r l h : panel_closable (providerAnswered t o r l h).
Proof.
  unfold providerAnswered. cbv zeta. repeat case_match; (apply failed_closable || apply launched_closable).
Qed.

(** What the answers of a provider leave alone. *)
Definition order_core (h : PurchaseHook) := (waiting h, sent h, selectedPurchasePlan h).

Lemma steps_core o i l h : order_core (setPurchaseSteps o i l h) = order_core h.
Proof. by destruct h. Qed.
Lemma update_core m e c l h : order_core (updatePurchaseProgress m e c l h) = order_core h.
Proof. by destruct h. Qed.
Lemma failed_core m h : order_core (purchase_failed m h) = order_core h.
Proof. by destruct h. Qed.
Lemma launched_core x b h : order_core (handleLaunchPayment t x b h) = order_core h.
Proof. by destruct h. Qed.

Lemma provider_core o r l h : order_core (providerAnswered t o r l h) = order_core h.
Proof.
  unfold providerAnswered, launch_threw. cbv zeta.
  repeat case_match; rewrite ?failed_core, ?launched_core, ?steps_core, ?update_core, ?steps_core; done.
Qed.

Lemma sound_balance o r pg h :
  sound (mkSite pg h) -> waiting h = [WaitPay o] -> sound (mkSite pg (balanceAnswered t 0 r h)).
Proof.
  intros [Hp _ Hl] Hw. cbn [page hook] in *.
  destruct Hp as [(E & _)|[(o' & E & Hb & Hpan & Hsel)|(E & _)]]; rewrite Hw in E; try done.
  unfold balanceAnswered. cbv zeta. destruct (success r); cbn [negb].
  - destruct h as [a b c d e f g i j k l]. cbn in *. subst.
    split; cbn; [|by apply dialog_closed|done]. right; right. split; [done|]. split; [done|]. split; [|done].
    destruct Hpan as (p0 & Hi & _). cbn in Hi. subst i. by intros p [= <-].
  - apply sound_settled; [..|apply failed_closable|]; destruct h; cbn in *; by subst.
Qed.

Lemma sound_answer n r launched s : sound s -> sound (on_hook (purchaseAnswered t n r launched) s).
Proof.
  intros Hs. destruct s as [pg h]. unfold on_hook, purchaseAnswered. cbn [page hook].
  destruct (waiting h !! n) as [[o|]|] eqn:E; [|done|done].
  assert (waiting h = [WaitPay o] /\ n = 0) as [Hw ->].
  { destruct (sound_phase _ Hs) as [(Ew & _)|[(o' & Ew & _)|(Ew & _)]]; cbn in Ew; rewrite Ew in E.
    - by rewrite lookup_nil in E.
    - destruct n; [|done]. injection E as <-. done.
    - by destruct n. }
  assert (selectedPurchasePlan h = None) as Hsel.
  { destruct (sound_phase _ Hs) as [(Ew & _)|[(o' & _ & _ & _ & H)|(Ew & _)]]; cbn in *; congruence. }
  assert (sound (mkSite pg (purchase_settled (providerAnswered t o r launched
            (set_waiting h (delete 0 (waiting h)) (sent h)))))) as Hprov.
  { pose proof (provider_core o r launched (set_waiting h (delete 0 (waiting h)) (sent h))) as Hc.
    unfold order_core in Hc. injection Hc as H1 H2 H3.
    apply sound_settled; [rewrite H3|rewrite H1|apply provider_closable|rewrite H2];
      destruct h; cbn in *; subst; try done. apply Hs. }
  destruct (o_provider o); try done. by eapply sound_balance.
Qed.

Lemma sound_refreshed n self subs s : sound s -> sound (purchaseRefreshed n self subs s).
Proof.
  intros Hs. unfold purchaseRefreshed. destruct (waiting (hook s) !! n) as [[o|]|] eqn:E; [done| |done].
  assert (waiting (hook s) = [WaitRefresh] /\ n = 0 /\ panel_closable (hook s) /\ selectedPurchasePlan (hook s) = None)
    as (Hw & -> & Hc & Hsel).
  { destruct (sound_phase _ Hs) as [(Ew & _)|[(o' & Ew & _)|(Ew & _ & Hc & Hsel)]]; rewrite Ew in E.
    - by rewrite lookup_nil in E.
    - by destruct n.
    - destruct n; done. }
  assert (forall h, purchase_core h = purchase_core (hook s) ->
            sound (mkSite (page s) (purchase_settled (set_waiting h (delete 0 (waiting h)) (sent h))))) as Hend.
  { intros h Hh. destruct s as [pg h0]. pose proof (sound_log _ Hs) as Hl. unfold purchase_core in Hh.
    apply sound_settled; destruct h, h0; cbn in *; injection Hh as -> -> -> -> -> ->; by subst. }
  cbv zeta. destruct self; [apply sound_user|]; apply Hend; destruct subs; try done; apply self_core.
Qed.

(** ** Every step *)

Lemma sound_close s : sound s -> sound (on_hook (fun h => setSelectedPurchasePlan h None) s).
Proof.
  destruct s as [pg h]. intros [Hp _ Hl]. destruct h. cbn in *. split; [|by apply dialog_closed|done].
  destruct Hp as [?|[(o & Hw & Hb & Hc & Hs)|(Hw & Hb & Hc & Hs)]]; cbn in *; subst;
    [by left|right; left; by exists o|by right; right].
Qed.

Lemma sound_close_panel s p :
  sound s -> purchaseProgress (hook s) = Some p -> canClose p = true ->
  sound (on_hook (fun h => setPurchaseProgress h None) s).
Proof.
  destruct s as [pg h]. intros [Hp Hd Hl] Hpr Hc. destruct h. cbn in *. subst.
  split; [|intros plan Hplan; by destruct (Hd plan Hplan)|done].
  destruct Hp as [(? & ? & _)|[(o & _ & _ & (p0 & [= <-] & ? & _) & _)|(? & ? & _ & ?)]]; cbn in *.
  - left. by repeat split.
  - congruence.
  - right; right. by repeat split.
Qed.

(** Updates of a panel that can be closed keep it so. *)
Lemma sound_panel f s p :
  sound s -> purchaseProgress (hook s) = Some p -> canClose p = true ->
  (forall h, order_core (f h) = order_core h /\ buyingPlanId (f h) = buyingPlanId h /\
     (panel_closable h -> panel_closable (f h))) ->
  sound (on_hook f s).
Proof.
  destruct s as [pg h]. intros [Hp Hd Hl] Hpr Hc Hf. unfold on_hook. cbn [page hook] in *.
  destruct (Hf h) as (Hcore & Hbuy & Hclo). unfold order_core in Hcore. injection Hcore as H1 H2 H3.
  split; cbn [page hook].
  - destruct Hp as [(? & ? & ?)|[(o & _ & _ & (p0 & E & ? & _) & _)|(? & ? & ? & ?)]]; [| |].
    + left. unfold idle. rewrite H1, Hbuy. repeat split; [done..|by apply Hclo].
    + rewrite Hpr in E. injection E as <-. congruence.
    + right; right. unfold refreshing. rewrite H1, Hbuy, H3. repeat split; [done..|by apply Hclo|done].
  - intros plan Hplan. rewrite H3 in Hplan. destruct (Hd plan Hplan) as (E & _). congruence.
  - by rewrite H2.
Qed.

Lemma launch_again_sound launch launched s p :
  sound s -> purchaseProgress (hook s) = Some p -> canClose p = true ->
  sound (on_hook (match launched with Some b => handleLaunchPayment t launch b | None => launch_threw end) s).
Proof.
  intros Hs Hp Hc. eapply sound_panel; [done..|]. intros h. destruct launched.
  - split; [apply launched_core|]. split; [by destruct h|]. intros _. apply launched_closable.
  - split; [apply steps_core|]. split; [by destruct h|]. destruct h as [a b c d e f g i j k l].
    intros H q. destruct i as [q0|]; [|done]. intros [= <-]. cbn. by apply H.
Qed.

Lemma sound_method type s :
  sound s -> type ∈ epay_types (page_info (page s)) -> sound (on_hook (fun h => setSelectedEpayMethod h type) s).
Proof.
  destruct s as [pg h]. intros [Hp Hd Hl] Hin. destruct h. cbn in *. split; [done| |done].
  intros plan Hplan. destruct (Hd plan Hplan) as (? & ? & ? & ? & _). by repeat split.
Qed.

Lemma sound_epay_effect s : sound s -> sound (mkSite (page s) (epay_effect (page s) (hook s))).
Proof.
  intros Hs. assert (mkSite (page s) (hook s) = s) as E by (by destruct s). unfold epay_effect.
  destruct (selectedPurchasePlan (hook s)); [|by rewrite E].
  destruct (truthy (selectedEpayMethod (hook s))); [by rewrite E|].
  destruct (head _ ≫= method_type) as [type|] eqn:Ht; [|by rewrite E].
  destruct (truthy type); [|by rewrite E].
  apply (sound_method type s); [done|]. by apply epay_types_head.
Qed.

Lemma sound_handle e s : sound s -> sound (handle_ e s).
Proof.
  intros Hs. destruct e; cbn [plan_handle].
  - by apply sound_user.
  - by apply sound_loaded.
  - case_match; [|done]. repeat simp_if. destruct (page_active s) eqn:Ha; [|done].
    destruct (active_closed s Ha) as (Hsel & _). destruct Hs as [Hp _ Hl]. split; [done|by apply dialog_closed|done].
  - case_match; [|done]. destruct (page_active s) eqn:Ha; [|done].
    destruct (active_closed s Ha) as (Hsel & _). unfold handleOpenTopup. destruct s as [pg h].
    destruct (signed_in _); [|eapply sound_core; [apply navigate_core|done]].
    destruct Hs as [Hp _ Hl]. split; [done|by apply dialog_closed|done].
  - destruct Hs as [Hp Hd Hl]. split; [done| |done]. intros plan Hplan.
    destruct (Hd plan Hplan) as (? & ? & ? & ? & ?). by repeat split.
  - destruct s as [pg h]. eapply sound_core; [|done]. unfold selfLoaded. case_match; [apply self_core|done].
  - destruct (page_active s && _ && _) eqn:E; [|done].
    apply andb_true_iff in E as [E _]. apply andb_true_iff in E as [Ha Hload]. apply negb_true_iff in Hload.
    destruct (display_ (page s) !! index) as [plan|] eqn:Hi; [|done].
    destruct (card_disabled (hook s) plan) eqn:Hc; [done|].
    apply sound_open; [done..| |by eapply list_elem_of_lookup_2].
    unfold card_disabled in Hc. apply orb_false_iff in Hc as [Hc _]. by destruct (buyingPlanId (hook s)).
  - destruct (selectedPurchasePlan (hook s)); [|done]. destruct (_ && bool_decide _) eqn:E; [|done].
    apply andb_true_iff in E as [_ E]. apply bool_decide_eq_true in E. by apply sound_method.
  - by apply sound_close.
  - destruct (selectedPurchasePlan (hook s)) eqn:Hsel; [|done]. case_match; [|done]. by eapply sound_pay.
  - by apply sound_answer.
  - by apply sound_refreshed.
  - destruct (purchaseProgress (hook s)) as [p|] eqn:Hp; [|done]. destruct (canClose p) eqn:Hc; [|done].
    by eapply sound_close_panel.
  - destruct (purchaseProgress (hook s)) as [p|] eqn:Hp; [|done]. destruct (p_launch p); [|done].
    destruct (canClose p) eqn:Hc; [|done]. by eapply launch_again_sound.
Qed.

Lemma reachable_sound s : reachable_ s -> sound s.
Proof.
  induction 1 as [u|e s _ IH].
  - unfold mount_page. eapply sound_core; [apply account_effect_core|].
    split; [by left|by apply dialog_closed|by constructor].
  - apply sound_epay_effect. by apply sound_handle.
Qed.

(** C22: at most one purchase waits at any time.  A plan is marked as being
    bought exactly while one waits, the panel refuses to close exactly while
    its order waits for the answer, and the dialog of a plan is open only
    when nothing waits and no panel is shown. *)
Theorem one_purchase_at_a_time s :
  plan_reachable t t_limit toLowerCase toUpperCase currencyFormat s ->
  length (waiting (hook s)) <= 1
  /\ (buyingPlanId (hook s) = None <-> waiting (hook s) = [])
  /\ ((exists p, purchaseProgress (hook s) = Some p /\ canClose p = false)
      <-> exists o, waiting (hook s) = [WaitPay o])
  /\ (is_Some (selectedPurchasePlan (hook s)) -> waiting (hook s) = [] /\ purchaseProgress (hook s) = None).
Proof.
  intros Hr. pose proof (reachable_sound _ Hr) as [Hp Hd _].
  assert (forall h, panel_closable h -> ~ exists p, purchaseProgress h = Some p /\ canClose p = false) as Hclo.
  { intros h Hc (p & Hp' & Hf). specialize (Hc p Hp'). congruence. }
  assert (is_Some (selectedPurchasePlan (hook s)) -> waiting (hook s) = [] /\ purchaseProgress (hook s) = None) as H4.
  { intros [plan Hplan]. split; [by eapply selected_idle|by apply (Hd plan)]. }
  destruct Hp as [(Hw & Hb & Hc)|[(o & Hw & Hb & (p & Hpr & Hcl & _) & _)|(Hw & [id Hb] & Hc & _)]];
    (split; [rewrite Hw; cbn; lia|]); rewrite Hb;
    (split; [split; congruence|]); (split; [rewrite Hw|done]).
  - split; [by intros ?%Hclo|]. by intros [? ?].
  - split; [by exists o|]. intros _. by exists p.
  - split; [by intros ?%Hclo|]. by intros [? ?].
Qed.

(** ** Counting *)

(** How often a customer bought a plan. *)
Definition purchases (self : option SelfSubscriptionData) (id : num) : nat :=
  length (List.filter (fun x => bool_decide (x = Some id)) (default [] (all_subscriptions <$> self))).

Lemma count_fold id l m :
  ntruthy id = true ->
  default 0 (mget id (foldl count_plan m l))
  = default 0 (mget id m) + length (List.filter (fun x => bool_decide (x = Some id)) l).
Proof.
  intros Ht. revert m. induction l as [|x l IH]; intros m; cbn [foldl List.filter]; [cbn; lia|].
  rewrite IH. unfold count_plan. destruct x as [k|].
  - destruct (decide (k = id)) as [->|Hne].
    + rewrite bool_decide_true by done. rewrite Ht, mget_mset. cbn [length]. cbn [default from_option Datatypes.id]. lia.
    + rewrite bool_decide_false by (intros [= ?]; done).
      destruct (ntruthy k); [rewrite mget_mset_ne by done|]; done.
  - by rewrite bool_decide_false by done.
Qed.

Lemma count_exact self id : ntruthy id = true -> getPlanPurchaseCount self (Some id) = purchases self id.
Proof. intros Ht. cbn. rewrite Ht. unfold planPurchaseCountMap. by rewrite count_fold. Qed.

(** What a record of the server allows an order to be. *)
Definition record_allows (r : SubscriptionPlan) (o : Order) : Prop :=
  let i := info (page_info (o_page o)) in
  match o_provider o with
  | ByBalance =>
      allow_balance_pay r <> Some false
      /\ nge (default zero (user (o_page o) ≫= user_quota))
           (nceil (nmul (num_or (price_amount r) zero) (getQuotaPerUnit (page_status (o_page o))))) = true
  | ByStripe => enable_stripe_topup i = true /\ given (stripe_price_id r) = true
  | ByCreem => enable_creem_topup i = true /\ given (creem_product_id r) = true
  | ByWaffoPancake => enable_waffo_pancake_topup i = true /\ given (waffo_pancake_product_id r) = true
  | ByEpay => enable_online_topup i = true /\ o_method o ∈ epay_types (page_info (o_page o))
  end.

Lemma fits_record r n st o :
  o_plan o = subscriptionPlanToPricePlan toLowerCase toUpperCase currencyFormat r n st ->
  st = page_status (o_page o) -> provider_fits o -> record_allows r o.
Proof.
  intros Ho -> Hf. unfold provider_fits, record_allows in *. cbv zeta in *. rewrite Ho in Hf.
  destruct (o_provider o).
  - destruct Hf as [H1 H2]. split; [|exact H2]. intros E. apply H1. unfold subscriptionPlanToPricePlan. cbv zeta.
    cbn [allowBalancePay]. by rewrite bool_decide_true.
  - by apply andb_true_iff in Hf.
  - by apply andb_true_iff in Hf.
  - by apply andb_true_iff in Hf.
  - destruct Hf as [H1 H2]. by apply andb_true_iff in H1 as [? _].
Qed.

Lemma limit_open r n st self :
  let plan := subscriptionPlanToPricePlan toLowerCase toUpperCase currencyFormat r n st in
  ntruthy (plan_id r) = true ->
  limitReached plan (getPlanPurchaseCount self (planId plan)) = false ->
  let limit := default zero (max_purchase_per_user r) in
  ngt limit zero = true -> nge (num_of_nat (purchases self (plan_id r))) limit = false.
Proof.
  cbv zeta. intros Ht Hl Hpos. unfold limitReached in Hl.
  change (purchaseLimit _) with (num_or (default zero (max_purchase_per_user r)) zero) in Hl.
  change (planId _) with (Some (plan_id r)) in Hl. rewrite count_exact in Hl by done.
  assert (num_or (default zero (max_purchase_per_user r)) zero = default zero (max_purchase_per_user r)) as E.
  { unfold num_or. by destruct (default zero (max_purchase_per_user r)). }
  rewrite E, Hpos in Hl. exact Hl.
Qed.

(** C23: every order that was sent was for a plan the server lists, by a
    signed-in customer, through a payment the record and the settings allow: by
    balance only where the record permits it and the quota covers the price, by a
    provider only if it is enabled and the record names its product, and
    otherwise by one of the listed methods.  If the page had the list of the
    customer's subscriptions when the order was sent, the plan was on it less
    often than its limit; without the list (not loaded yet, or it failed to
    load) the page does not hold an order back, and the server has to. *)
Theorem orders_within_limits s o :
  reachable_ s -> In o (sent (hook s)) ->
  exists i r,
    plans (o_page o) !! i = Some r
    /\ o_plan o = subscriptionPlanToPricePlan toLowerCase toUpperCase currencyFormat r i (page_status (o_page o))
    /\ o_id o = plan_id r
    /\ signed_in (user (o_page o)) = true
    /\ (forall self, o_self o = Some self -> ngt (default zero (max_purchase_per_user r)) zero = true ->
        let bought := length (List.filter (fun x => bool_decide (x = Some (plan_id r))) (all_subscriptions self)) in
        nge (num_of_nat bought) (default zero (max_purchase_per_user r)) = false)
    /\ record_allows r o.
Proof.
  intros Hr Ho. pose proof (sound_log _ (reachable_sound _ Hr)) as Hl. rewrite List.Forall_forall in Hl.
  destruct (Hl o Ho) as (Hu & Hin & Hid & Ht & Hlim & Hfit).
  apply list_elem_of_In, shown_from_record in Hin as (i & r & Hi & Hplan).
  exists i, r. rewrite Hplan in Hid, Hlim. injection Hid as Hid. rewrite <- Hid in Ht.
  repeat split; [done..| |by eapply fits_record].
  intros self Hself. pose proof (limit_open r i (page_status (o_page o)) (o_self o) Ht Hlim) as H.
  cbv zeta in H. rewrite Hself in H. exact H.
Qed.

End Purchases.

(** ** Links *)

(** The link of an answer is opened whatever its protocol, where the top-up
    of the same site refuses it. *)
Theorem purchase_link_unchecked url_protocol link response :
  truthy link = true -> url_protocol link = Some (js "javascript:") ->
  data response = Some (JObj [(js "pay_link", JStr link)]) ->
  purchase_launch response ByStripe = Some (LaunchUrl link false)
  /\ getTopupLaunch url_protocol response (ByProvider Stripe) = None.
Proof.
  intros Hl Hu Hd. unfold purchase_launch, getTopupLaunch, data_field, link_field, isSafeCheckoutUrl.
  rewrite Hd. cbv zeta. cbn [mbind option_bind].
  assert (jfield (js "pay_link") (JObj [(js "pay_link", JStr link)]) = Some (JStr link)) as -> by reflexivity.
  cbn [json_truthy]. rewrite !Hl, Hu. by rewrite bool_decide_false by done.
Qed.

(** ** A purchase *)

Definition demo_user : User := mkUser (num_of_Z 1) (Some (num_of_Z 10000000)).

Abbreviation demo_step :=
  (plan_step (fun s => s) (fun s _ _ => s) ascii_lower ascii_upper (fun _ _ _ => None)).
Abbreviation demo_reach :=
  (plan_reachable (fun s => s) (fun s _ _ => s) ascii_lower ascii_upper (fun _ _ _ => None)).

Definition demo_site : Site :=
  demo_step (VPay ByBalance)
    (demo_step (VBuy 0)
       (demo_step (VPageLoaded 0 None true (Some [sample_plan 7 (js "AI Coding Pro") (js "month")]) None)
          (mount_page (Some demo_user)))).

Lemma plan_demo_reachable : demo_reach demo_site.
Proof. do 3 apply preach_step. apply preach_mount. Qed.

Lemma one_purchase_at_a_time_witness :
  length (waiting (hook demo_site)) = 1 /\ length (waiting (hook demo_site)) <= 1.
Proof.
  split; [vm_compute; reflexivity|].
  apply (one_purchase_at_a_time (fun s => s) (fun s _ _ => s) ascii_lower ascii_upper (fun _ _ _ => None)
           demo_site plan_demo_reachable).
Defined.

Lemma orders_within_limits_witness :
  match sent (hook demo_site) with
  | o :: _ => o_provider o = ByBalance /\ exists i r, plans (o_page o) !! i = Some r /\ record_allows r o
  | [] => False
  end.
Proof.
  pose proof (fun o => orders_within_limits (fun s => s) (fun s _ _ => s) ascii_lower ascii_upper (fun _ _ _ => None)
                demo_site o plan_demo_reachable) as H.
  assert (o_provider <$> head (sent (hook demo_site)) = Some ByBalance) as E by (vm_compute; reflexivity).
  destruct (sent (hook demo_site)) as [|o l]; [discriminate|].
  cbn in E. injection E as E. split; [exact E|].
  destruct (H o (or_introl eq_refl)) as (i & r & Hi & _ & _ & _ & _ & Hr). exists i, r. split; assumption.
Defined.
