(* ===== verification/ApiKeys.v ===== *)
(** * API keys of the customer site

    Model of src/web/customer/src/helpers/api-keys.ts, of the parts of
    helpers/format.ts for API keys and pages, of components/token/user-groups.ts
    and cc-switch.ts, and of helpers/server-address.ts.  The clock and the
    calendar of the browser, its case conversions, its string order, its
    encoding of query strings and the translation are parameters. *)

From S2P Require Import Prelude JsStr JsNum JsArray JsJson Pricing Topup ParamOverride.

(** ** Types *)

Record CustomerToken := mkToken {
  token_id : num;
  token_name : jsstr;
  token_key : jsstr;
  token_status : num;
  expired_time : option num;
  remain_quota : option num;
  unlimited_quota : option bool;
  token_group : option jsstr;
  model_limits_enabled : option bool;
  model_limits : option jsstr;
  allow_ips : option jsstr;            (* null and undefined are both [None] *)
  cross_group_retry : option bool
}.

Inductive ApiKeyExpiryMode := never_expires | days7 | days30 | days90 | custom_date.

#[export] Instance expiry_eq_dec : EqDecision ApiKeyExpiryMode.
Proof. solve_decision. Defined.

Record ApiKeyCreateForm := mkForm {
  f_name : jsstr;
  f_group : jsstr;
  expiryMode : ApiKeyExpiryMode;
  expiryDate : jsstr;
  quotaLimit : jsstr;
  unlimitedQuota : bool
}.

Record UserGroupSelectOption := mkGroup { g_name : jsstr; g_desc : jsstr; g_ratio : jsstr }.

(** ** Groups *)

(** [String(info.desc || "")] and [String(info.ratio ?? "")]. *)
Definition group_option (entry : jsstr * json) : UserGroupSelectOption :=
  let '(name, info) := entry in
  mkGroup name
    (match jfield (js "desc") info with Some v => if json_truthy v then json_to_str v else [] | None => [] end)
    (match jfield (js "ratio") info with Some JNull | None => [] | Some v => json_to_str v end).

Section Groups.
  (** [first.name.localeCompare(second.name)]. *)
  Variable localeCompare : jsstr -> jsstr -> num.

Definition group_order (first second : UserGroupSelectOption) : num :=
  if str_eqb (g_name first) (js "auto") then num_of_Z (-1)
  else if str_eqb (g_name second) (js "auto") then num_of_Z 1
  else localeCompare (g_name first) (g_name second).

Definition normalizeUserGroupOptions (groups : list (jsstr * json)) : list UserGroupSelectOption :=
  sort_with group_order (map group_option groups).
End Groups.

(** The separator of labels. *)
Definition middot : jsstr := uni " · ".

Definition formatUserGroupOptionLabel (option : UserGroupSelectOption) : jsstr :=
  join middot ([g_name option] ++ (if truthy (g_desc option) then [g_desc option] else [])
               ++ (if truthy (g_ratio option) then [g_ratio option] else [])).

(** ** Requests and forms *)

Definition buildTokenUpdatePayload (token : CustomerToken) (name group : jsstr) (expiredTime remainQuota : num)
    (unlimitedQuota crossGroupRetry : bool) : json :=
  JObj [ (js "id", JNum (token_id token));
         (js "name", JStr name);
         (js "expired_time", JNum expiredTime);
         (js "remain_quota", JNum (if unlimitedQuota then zero else remainQuota));
         (js "unlimited_quota", JBool unlimitedQuota);
         (js "model_limits_enabled", JBool (default false (model_limits_enabled token)));
         (js "model_limits", JStr (or_text (model_limits token) []));
         (js "allow_ips", JStr (default [] (allow_ips token)));
         (js "group", JStr group);
         (js "cross_group_retry", JBool (if str_eqb group (js "auto") then crossGroupRetry else false)) ].

Definition createPayload (name group : jsstr) (expiredTime remainQuota : num) (unlimited : bool) : json :=
  JObj [ (js "name", JStr name); (js "group", JStr group); (js "expired_time", JNum expiredTime);
         (js "remain_quota", JNum remainQuota); (js "unlimited_quota", JBool unlimited) ].

Definition formatApiKey (key : jsstr) : jsstr :=
  if negb (truthy key) then js "sk-" else if startsWith key (js "sk-") then key else js "sk-" ++ key.

(** ** Quotas and times *)

(** The clock and the calendar of the browser: [Date.now()], the date of a
    time ([toDateInputValue(new Date(ms))]), the time of
    [new Date(`${date}T23:59:59`)] (NaN if it is no date), the time some days
    after now ([setDate(getDate() + days)]), and the local date of a time in
    the format of the locale. *)
Record Calendar := mkCalendar {
  Date_now : num;
  date_input : num -> jsstr;
  end_of_day : jsstr -> num;
  days_ahead : Z -> num;
  locale_date : num -> jsstr
}.

Section Keys.
  Variable cal : Calendar.
  Variable t : jsstr -> jsstr.
  (** [localizeKey(language, key, { date })]. *)
  Variable t_date : jsstr -> jsstr -> jsstr.
  Variable toUpperCase : jsstr -> jsstr.

Definition in_tokens (status : option CustomerStatus) : bool :=
  bool_decide (display_type toUpperCase status = Some (js "TOKENS")).

Definition getApiKeyQuotaLimitUnit (status : option CustomerStatus) : jsstr :=
  if in_tokens status then js "tokens" else js "USD".

Definition parseApiKeyQuotaLimit (value : jsstr) (status : option CustomerStatus) : num :=
  let amount := num_of_str (trim value) in
  if negb (isFinite amount) then nan
  else if in_tokens status then nfloor amount
  else nround (nmul amount (getQuotaPerUnit status)).

Definition getApiKeyQuotaLimitInputValue (quota : num) (status : option CustomerStatus) : jsstr :=
  let value := if in_tokens status then quota else ndiv quota (getQuotaPerUnit status) in
  if negb (isFinite value) then js "0"
  else if isInteger value then num_to_str value
  else drop_trailing (toFixed value 6).

Definition getDefaultApiKeyExpiryDate : jsstr := date_input cal (days_ahead cal 30).

Definition getDefaultApiKeyCreateForm : ApiKeyCreateForm :=
  mkForm [] [] never_expires getDefaultApiKeyExpiryDate (js "10") true.

(** [parseInt(mode.replace("d", ""), 10)] for the modes in days. *)
Definition expiry_days (mode : ApiKeyExpiryMode) : Z :=
  match mode with days7 => 7 | days30 => 30 | _ => 90 end.

(** [Math.floor(ms / 1000)]. *)
Definition seconds (ms : num) : num := nfloor (ndiv ms (num_of_Z 1000)).

Definition getApiKeyExpiryTimestamp (form : ApiKeyCreateForm) : option num :=
  match expiryMode form with
  | never_expires => Some (num_of_Z (-1))
  | custom_date =>
      if negb (truthy (expiryDate form)) then None
      else
        let timestamp := seconds (end_of_day cal (expiryDate form)) in
        if isFinite timestamp then Some timestamp else None
  | mode => Some (seconds (days_ahead cal (expiry_days mode)))
  end.

Definition getApiKeyEditForm (token : CustomerToken) (status : option CustomerStatus) : ApiKeyCreateForm :=
  let expiredTime := default (num_of_Z (-1)) (expired_time token) in
  mkForm (token_name token) (or_text (token_group token) [])
    (if ngt expiredTime zero then custom_date else never_expires)
    (if ngt expiredTime zero then date_input cal (nmul expiredTime (num_of_Z 1000))
     else expiryDate getDefaultApiKeyCreateForm)
    (getApiKeyQuotaLimitInputValue (default zero (remain_quota token)) status)
    (default false (unlimited_quota token)).

(** ** Labels *)

Definition formatTokenGroupLabel (token : CustomerToken) (groupOptions : list UserGroupSelectOption) : jsstr :=
  let group := trim (or_text (token_group token) []) in
  if negb (truthy group) then t (js "Select group")
  else match find (fun item => str_eqb (g_name item) group) groupOptions with
       | None => group
       | Some option => join middot ([group] ++ (if truthy (g_ratio option) then [g_ratio option] else []))
       end.

Definition formatTimestamp (timestamp : option num) : jsstr :=
  match timestamp with
  | Some x => if ntruthy x then locale_date cal (nmul x (num_of_Z 1000)) else js "-"
  | None => js "-"
  end.

Definition isApiKeyExpired (expiredTime : option num) : bool :=
  match expiredTime with
  | Some x => ngt x zero && nle x (ndiv (Date_now cal) (num_of_Z 1000))
  | None => false
  end.

Definition getApiKeyExpiryLabel (expiredTime : option num) : jsstr :=
  match expiredTime with
  | Some x =>
      if negb (ntruthy x) || nlt x zero then t (js "Expires: Never")
      else
        let date := formatTimestamp (Some x) in
        if isApiKeyExpired (Some x) then t_date (js "Expired: {{date}}") date
        else t_date (js "Expires: {{date}}") date
  | None => t (js "Expires: Never")
  end.

Definition getApiKeyDisplayName (token : CustomerToken) : jsstr :=
  let name := trim (token_name token) in
  if truthy name then name else t (js "Unnamed key").

(** ** What a form is submitted with *)

(** A form that is refused, with the message, or the values of the request. *)
Inductive Checked :=
| Refused (message : jsstr)
| Accepted (name group : jsstr) (expiredTime remainQuota : num).

(** The checks that [createToken] and [updateToken] share. *)
Definition check_form (form : ApiKeyCreateForm) (groupOptions : list UserGroupSelectOption)
    (status : option CustomerStatus) : Checked :=
  let name := trim (f_name form) in
  if negb (truthy name) then Refused (t (js "Please enter a key name"))
  else if Nat.ltb 50 (length name) then Refused (t (js "Key name cannot exceed 50 characters"))
  else
    let group := trim (f_group form) in
    if negb (truthy group) then Refused (t (js "Please select a group"))
    else if negb (Nat.eqb (length groupOptions) 0)
            && negb (existsb (fun option => str_eqb (g_name option) group) groupOptions)
    then Refused (t (js "Please select a group"))
    else match getApiKeyExpiryTimestamp form with
         | None => Refused (t (js "Please choose a valid time"))
         | Some expiredTime =>
             if unlimitedQuota form then Accepted name group expiredTime zero
             else if negb (truthy (trim (quotaLimit form))) then Refused (t (js "Please enter a quota limit"))
             else
               let remainQuota := parseApiKeyQuotaLimit (quotaLimit form) status in
               if negb (isFinite remainQuota) || nlt remainQuota zero
               then Refused (t (js "Quota limit must be 0 or greater"))
               else Accepted name group expiredTime remainQuota
         end.

(** The amount the dialog announces. *)
Definition quotaPreview (form : ApiKeyCreateForm) (status : option CustomerStatus) : jsstr :=
  let quotaLimit' := parseApiKeyQuotaLimit (quotaLimit form) status in
  if negb (unlimitedQuota form) && truthy (trim (quotaLimit form)) && isFinite quotaLimit'
  then formatQuotaTokens quotaLimit' else [].

End Keys.

(** ** Pages of a list *)

Record PageData := mkPageData {
  pd_items : list CustomerToken; pd_page : num; pd_pageSize : num; pd_total : num
}.

(** [undefined], an array, or an object whose fields may be absent. *)
Inductive PageAnswer :=
| NoData
| PlainArray (items : list CustomerToken)
| Paged (items : option (list CustomerToken)) (page page_size total : option num).

Definition normalizePageItems (data : PageAnswer) : list CustomerToken :=
  match data with
  | NoData => []
  | PlainArray items => items
  | Paged items _ _ _ => default [] items
  end.

Definition normalizePageData (data : PageAnswer) (fallbackPage fallbackPageSize : num) : PageData :=
  let items := normalizePageItems data in
  match data with
  | PlainArray _ | NoData => mkPageData items fallbackPage fallbackPageSize (num_of_nat (length items))
  | Paged _ page page_size total =>
      mkPageData items (default fallbackPage page) (default fallbackPageSize page_size)
        (default (num_of_nat (length items)) total)
  end.

(** ** Addresses *)

Section Addresses.
  (** [window.location.origin]. *)
  Variable origin : jsstr.

(** [s.replace(/\/+$/, "")]. *)
Definition strip_slashes (s : jsstr) : jsstr := rev (dropb (N.eqb 47) (rev s)).

Definition normalizeServerAddress (value : option jsstr) : jsstr :=
  let trimmed := trim (or_text value []) in
  strip_slashes (str_or trimmed origin).

(** The test for a last segment v1, in either case of its letter. *)
Definition ends_with_v1 (s : jsstr) : bool := endsWith s (js "/v1") || endsWith s (js "/V1").

Definition getOpenAICompatibleServerAddress (value : option jsstr) : jsstr :=
  let normalized := normalizeServerAddress value in
  if ends_with_v1 normalized then normalized else normalized ++ js "/v1".

(** ** Export to CC Switch *)

Inductive CCSwitchApp := claude | codex | gemini.

#[export] Instance app_eq_dec : EqDecision CCSwitchApp.
Proof. solve_decision. Defined.

Definition app_text (app : CCSwitchApp) : jsstr :=
  match app with claude => js "claude" | codex => js "codex" | gemini => js "gemini" end.

Definition app_defaultName (app : CCSwitchApp) : jsstr :=
  match app with claude => js "My Claude" | codex => js "My Codex" | gemini => js "My Gemini" end.

Definition buildDefaultCcSwitchModels (app : CCSwitchApp) : list (jsstr * jsstr) :=
  match app with
  | claude => [ (js "model", js "claude-sonnet-4.6"); (js "haikuModel", js "claude-haiku-4-5-20251001");
                (js "sonnetModel", js "claude-sonnet-4.6"); (js "opusModel", js "claude-opus-4-8") ]
  | codex => [ (js "model", js "gpt-5.5") ]
  | gemini => [ (js "model", js "gemini-2.5-pro") ]
  end.

(** The keys of the fields the dialog shows. *)
Definition app_fields (app : CCSwitchApp) : list jsstr :=
  match app with
  | claude => [js "model"; js "haikuModel"; js "sonnetModel"; js "opusModel"]
  | codex | gemini => [js "model"]
  end.

  (** [encodeBase64(buildCcSwitchUsageScript())], a constant text, and
      [params.toString()]. *)
  Variable usage_script : jsstr.
  Variable query_string : list (jsstr * jsstr) -> jsstr.

Definition primary_model (models : list (jsstr * jsstr)) : jsstr := trim (default [] (mget (js "model") models)).

(** [if (trimmed) params.set(key, trimmed)]. *)
Definition set_model (params : list (jsstr * jsstr)) (entry : jsstr * jsstr) : list (jsstr * jsstr) :=
  let trimmed := trim entry.2 in if truthy trimmed then mset entry.1 trimmed params else params.

Definition set_param (params : list (jsstr * jsstr)) (entry : jsstr * jsstr) : list (jsstr * jsstr) :=
  mset entry.1 entry.2 params.

(** The parameters of [buildCcSwitchUrl], before and after the models. *)
Definition ccswitch_head (app : CCSwitchApp) (name apiKey serverAddress openaiBaseUrl : jsstr) : list (jsstr * jsstr) :=
  let endpoint := if decide (app = codex) then openaiBaseUrl else serverAddress in
  [ (js "resource", js "provider"); (js "app", app_text app); (js "name", name); (js "endpoint", endpoint);
    (js "apiKey", apiKey) ].

Definition ccswitch_tail (name apiKey serverAddress primaryModel : jsstr) : list (jsstr * jsstr) :=
  [ (js "homepage", serverAddress);
    (js "notes", if truthy primaryModel then name ++ middot ++ primaryModel else name);
    (js "icon", js "atf"); (js "enabled", js "true"); (js "usageEnabled", js "true");
    (js "usageApiKey", apiKey); (js "usageBaseUrl", serverAddress); (js "usageAutoInterval", js "5");
    (js "usageScript", usage_script) ].

Definition ccswitch_params (app : CCSwitchApp) (name : jsstr) (models : list (jsstr * jsstr))
    (apiKey serverAddress openaiBaseUrl : jsstr) : list (jsstr * jsstr) :=
  let params := foldl set_param [] (ccswitch_head app name apiKey serverAddress openaiBaseUrl) in
  let params := foldl set_model params models in
  foldl set_param params (ccswitch_tail name apiKey serverAddress (primary_model models)).

Definition buildCcSwitchUrl (app : CCSwitchApp) (name : jsstr) (models : list (jsstr * jsstr))
    (apiKey serverAddress openaiBaseUrl : jsstr) : jsstr :=
  js "ccswitch://v1/import?" ++ query_string (ccswitch_params app name models apiKey serverAddress openaiBaseUrl).

End Addresses.
