(* ===== verification/ApiKeysPage.v ===== *)
(** * The API keys page

    Model of src/web/customer/src/pages/Token/index.tsx as a transition system:
    the list with its pages, the dialogs that create and edit a key, the
    confirmation of a change of state and of a deletion
    (components/common/ConfirmActionDialog.tsx), the keys that are read and the
    export to CC Switch.  Every handler is cut at its awaits; what follows an
    await keeps the values of the render it started in.  The
    answers of the server arrive in any order.  A control acts when its
    [disabled] allows it and no dialog covers it.  Writing to the clipboard is
    part of the answer it follows.  Markup and toasts are left out. *)

From S2P Require Import Prelude JsStr JsNum JsArray JsJson Pricing Topup ParamOverride ApiKeys.

(** ** State *)

Record TokenList := mkTokenList {
  tokens : list CustomerToken;
  tokenPage : num;
  tokenPageSize : num;
  tokenTotal : num;
  loadingTokens : bool;
  tokenLoadError : bool;
  requestId : nat                      (* useLatestRequest *)
}.

Record CreateDialog := mkCreate {
  createDialogOpen : bool; createForm : ApiKeyCreateForm; createSubmitting : bool; createMessage : jsstr
}.

Record EditDialog := mkEdit { e_token : CustomerToken; e_form : ApiKeyCreateForm; crossGroupRetry : bool }.

Record SwitchDialog := mkSwitch {
  ccSwitchDialog : option (CustomerToken * jsstr);      (* the token and its key *)
  ccSwitchApp : CCSwitchApp;
  ccSwitchName : jsstr;
  ccSwitchModels : list (jsstr * jsstr);
  ccSwitchModelOptions : list jsstr;
  ccSwitchModelsLoading : bool
}.

(** The page and the page size a handler was started with. *)
Record Closure := mkClosure { c_page : num; c_size : num }.

Inductive Confirm := ConfirmDisable (token : CustomerToken) (c : Closure) | ConfirmDelete (token : CustomerToken) (c : Closure).

(** What waits for a key. *)
Inductive Reader :=
| ToClipboard
| ToSwitch (token : CustomerToken) (models_known : bool).  (* models loading or there when it was asked *)

(** Where the error of loading groups goes. *)
Inductive MessageTarget := ToCreate | ToPage.

(** Requests that wait for their answer; [closes] says that the confirmation
    dialog waits for the handler to end. *)
Inductive KeyTask :=
| TLoad (id : nat) (page size : num) (closes : bool)
| TGroups (target : MessageTarget)
| TCreate (size : num)
| TStatus (next : num) (c : Closure) (closes : bool)
| TEditLoad (st : option CustomerStatus)
| TUpdate (c : Closure)
| TDelete (c : Closure)
| TKey (id : num) (readers : list Reader)
| TModels.

(** A log of what was sent, with the options a form was checked against. *)
Inductive SentKey :=
| SCreate (options : list UserGroupSelectOption) (name group : jsstr) (expiredTime remainQuota : num) (unlimited : bool)
| SUpdate (options : list UserGroupSelectOption) (token : CustomerToken) (name group : jsstr)
    (expiredTime remainQuota : num) (unlimited cross : bool)
| SStatus (id next : num)
| SDelete (id : num)
| SReadKey (id : num).

Record Keys := mkKeys {
  status : option CustomerStatus;
  address : option jsstr;              (* status?.server_address ?? status?.serverAddress *)
  tlist : TokenList;
  tokenMessage : jsstr;
  create : CreateDialog;
  groupOptions : list UserGroupSelectOption;
  groupsLoading : bool;
  editDialog : option EditDialog;
  editSubmitting : bool;
  switch : SwitchDialog;
  keyCache : list (num * jsstr);       (* tokenKeyCacheRef *)
  keyPending : list num;               (* tokenKeyPendingRef and readingTokenKeys *)
  confirm : option (Confirm * bool);   (* the question, and whether it was answered *)
  tasks : list KeyTask;
  sent : list SentKey;
  opened : list jsstr                  (* the pages that were opened *)
}.

(** ** Updates of single fields *)

Section Setters.
  Variable s : Keys.

Definition set_status (x : option CustomerStatus) (y : option jsstr) : Keys :=
  let '(mkKeys _ _ c d e f g h i j k l m n o p) := s in mkKeys x y c d e f g h i j k l m n o p.
Definition set_list (x : TokenList) : Keys :=
  let '(mkKeys a b _ d e f g h i j k l m n o p) := s in mkKeys a b x d e f g h i j k l m n o p.
Definition setTokenMessage (x : jsstr) : Keys :=
  let '(mkKeys a b c _ e f g h i j k l m n o p) := s in mkKeys a b c x e f g h i j k l m n o p.
Definition set_create (x : CreateDialog) : Keys :=
  let '(mkKeys a b c d _ f g h i j k l m n o p) := s in mkKeys a b c d x f g h i j k l m n o p.
Definition set_groups (x : list UserGroupSelectOption) (busy : bool) : Keys :=
  let '(mkKeys a b c d e _ _ h i j k l m n o p) := s in mkKeys a b c d e x busy h i j k l m n o p.
Definition setEditDialog (x : option EditDialog) : Keys :=
  let '(mkKeys a b c d e f g _ i j k l m n o p) := s in mkKeys a b c d e f g x i j k l m n o p.
Definition setEditSubmitting (x : bool) : Keys :=
  let '(mkKeys a b c d e f g h _ j k l m n o p) := s in mkKeys a b c d e f g h x j k l m n o p.
Definition set_switch (x : SwitchDialog) : Keys :=
  let '(mkKeys a b c d e f g h i _ k l m n o p) := s in mkKeys a b c d e f g h i x k l m n o p.
Definition set_key_store (x : list (num * jsstr)) (y : list num) : Keys :=
  let '(mkKeys a b c d e f g h i j _ _ m n o p) := s in mkKeys a b c d e f g h i j x y m n o p.
Definition set_confirm (x : option (Confirm * bool)) : Keys :=
  let '(mkKeys a b c d e f g h i j k l _ n o p) := s in mkKeys a b c d e f g h i j k l x n o p.
Definition set_tasks (x : list KeyTask) : Keys :=
  let '(mkKeys a b c d e f g h i j k l m _ o p) := s in mkKeys a b c d e f g h i j k l m x o p.
Definition record_sent (x : SentKey) : Keys :=
  let '(mkKeys a b c d e f g h i j k l m n o p) := s in mkKeys a b c d e f g h i j k l m n (x :: o) p.
Definition open_page (x : jsstr) : Keys :=
  let '(mkKeys a b c d e f g h i j k l m n o p) := s in mkKeys a b c d e f g h i j k l m n o (x :: p).
End Setters.

Definition start_task (x : KeyTask) (s : Keys) : Keys := set_tasks s (tasks s ++ [x]).

Definition set_createMessage (m : jsstr) (s : Keys) : Keys :=
  set_create s (mkCreate (createDialogOpen (create s)) (createForm (create s)) (createSubmitting (create s)) m).

Definition closure (s : Keys) : Closure := mkClosure (tokenPage (tlist s)) (tokenPageSize (tlist s)).

(** An answer; what it carries depends on the request. *)
Record Answer := mkAnswer {
  ok : bool;
  a_message : option jsstr;
  a_page : PageAnswer;
  a_token : option CustomerToken;
  a_groups : option (list (jsstr * json));
  a_key : option jsstr;
  a_models : option (list jsstr);
  a_clip : option bool                 (* no clipboard, or whether writing succeeds *)
}.

(** ** The list *)

(** [loadTokens(nextPage)] up to its request. *)
Definition loadTokens (nextPage size : num) (closes : bool) (s : Keys) : Keys :=
  let normalizedPage := nmax one nextPage in
  let l := tlist s in
  let id := S (requestId l) in
  start_task (TLoad id normalizedPage size closes)
    (set_list s (mkTokenList (tokens l) (tokenPage l) (tokenPageSize l) (tokenTotal l) true false id)).

Definition close_confirm (closes : bool) (s : Keys) : Keys := if closes then set_confirm s None else s.

Definition last_page (total size : num) : num := nmax one (nceil (ndiv total (nmax one size))).

Section Page.
  Variable cal : Calendar.
  Variable t : jsstr -> jsstr.
  Variable toUpperCase : jsstr -> jsstr.
  Variable localeCompare : jsstr -> jsstr -> num.
  Variable origin : jsstr.
  Variable usage_script : jsstr.
  Variable query_string : list (jsstr * jsstr) -> jsstr.

(** The rest of [loadTokens]. *)
Definition tokensLoaded (id : nat) (normalizedPage size : num) (closes : bool) (a : Answer) (s : Keys) : Keys :=
  let s := close_confirm closes s in
  let l := tlist s in
  if negb (Nat.eqb id (requestId l)) then s
  else if ok a then
    let pageData := normalizePageData (a_page a) normalizedPage size in
    let resolvedPageSize := nmax one (pd_pageSize pageData) in
    let maxPage := last_page (pd_total pageData) (pd_pageSize pageData) in
    if Nat.eqb (length (pd_items pageData)) 0 && ngt (pd_total pageData) zero && ngt normalizedPage maxPage
    then loadTokens maxPage size false s
    else
      setTokenMessage
        (set_list s (mkTokenList (pd_items pageData) (nmin (nmax one (pd_page pageData)) maxPage) resolvedPageSize
                       (pd_total pageData) false false (requestId l))) []
  else
    setTokenMessage
      (set_list s (mkTokenList (tokens l) (tokenPage l) (tokenPageSize l) (tokenTotal l) false true (requestId l)))
      (or_text (a_message a) (t (js "Failed to load API keys"))).

Definition tokenTotalPages (l : TokenList) : num := last_page (tokenTotal l) (tokenPageSize l).

Definition tokenStartRow (l : TokenList) : num :=
  if neq (tokenTotal l) zero then zero
  else nadd (nmul (nsub (tokenPage l) one) (tokenPageSize l)) one.
Definition tokenEndRow (l : TokenList) : num :=
  if neq (tokenTotal l) zero then zero else nmin (nmul (tokenPage l) (tokenPageSize l)) (tokenTotal l).

Definition goTokenPage (nextPage : num) (s : Keys) : Keys :=
  let l := tlist s in
  if loadingTokens l then s
  else
    let boundedPage := nmin (nmax one nextPage) (tokenTotalPages l) in
    if neq boundedPage (tokenPage l) then s else loadTokens boundedPage (tokenPageSize l) false s.

(** ** Groups *)

Definition loadUserGroups (target : MessageTarget) (s : Keys) : Keys :=
  if groupsLoading s || negb (Nat.eqb (length (groupOptions s)) 0) then s
  else start_task (TGroups target) (set_groups s (groupOptions s) true).

Definition groupsLoaded (target : MessageTarget) (a : Answer) (s : Keys) : Keys :=
  let s := set_groups s (groupOptions s) false in
  match ok a, a_groups a with
  | true, Some groups => set_groups s (normalizeUserGroupOptions localeCompare groups) false
  | _, _ =>
      let m := or_text (a_message a) (t (js "Failed to load groups")) in
      match target with ToCreate => set_createMessage m s | ToPage => setTokenMessage s m end
  end.

(** ** Creating *)

Definition openCreateDialog (s : Keys) : Keys :=
  loadUserGroups ToCreate
    (set_create s (mkCreate true (getDefaultApiKeyCreateForm cal) (createSubmitting (create s)) [])).

Definition closeCreateDialog (s : Keys) : Keys :=
  let c := create s in
  if createSubmitting c then s else set_create s (mkCreate false (createForm c) false (createMessage c)).

Definition createToken (s : Keys) : Keys :=
  let c := create s in
  match check_form cal t toUpperCase (createForm c) (groupOptions s) (status s) with
  | Refused m => set_createMessage m s
  | Accepted name group expiredTime remainQuota =>
      let s := set_create s (mkCreate (createDialogOpen c) (createForm c) true (t (js "Creating key..."))) in
      start_task (TCreate (tokenPageSize (tlist s)))
        (record_sent (setTokenMessage s [])
           (SCreate (groupOptions s) name group expiredTime remainQuota (unlimitedQuota (createForm c))))
  end.

Definition tokenCreated (size : num) (a : Answer) (s : Keys) : Keys :=
  let c := create s in
  let s := set_create s (mkCreate (createDialogOpen c) (createForm c) false (createMessage c)) in
  if negb (ok a) then set_createMessage (or_text (a_message a) (t (js "Failed to create key"))) s
  else
    let s := set_create s (mkCreate false (createForm c) false (createMessage c)) in
    loadTokens one size false (setTokenMessage s (t (js "Key created"))).

(** ** Enabling, disabling, deleting *)

Definition enabled_status : num := num_of_Z 1.
Definition disabled_status : num := num_of_Z 2.

Definition updateTokenStatus (token : CustomerToken) (next : num) (c : Closure) (closes : bool) (s : Keys) : Keys :=
  start_task (TStatus next c closes)
    (record_sent
       (setTokenMessage s (if neq next enabled_status then t (js "Enabling key...") else t (js "Disabling key...")))
       (SStatus (token_id token) next)).

Definition statusUpdated (next : num) (c : Closure) (closes : bool) (a : Answer) (s : Keys) : Keys :=
  if negb (ok a) then
    close_confirm closes (setTokenMessage s (or_text (a_message a) (t (js "Failed to update key status"))))
  else
    loadTokens (c_page c) (c_size c) closes
      (setTokenMessage s (if neq next enabled_status then t (js "Key enabled") else t (js "Key disabled"))).

Definition toggleTokenStatus (token : CustomerToken) (s : Keys) : Keys :=
  if neq (token_status token) enabled_status then set_confirm s (Some (ConfirmDisable token (closure s), false))
  else updateTokenStatus token enabled_status (closure s) false s.

Definition deleteToken (token : CustomerToken) (s : Keys) : Keys :=
  set_confirm s (Some (ConfirmDelete token (closure s), false)).

Definition deleteTokenNow (token : CustomerToken) (c : Closure) (s : Keys) : Keys :=
  start_task (TDelete c) (record_sent (setTokenMessage s (t (js "Deleting key..."))) (SDelete (token_id token))).

Definition tokenDeleted (c : Closure) (a : Answer) (s : Keys) : Keys :=
  if negb (ok a) then
    close_confirm true (setTokenMessage s (or_text (a_message a) (t (js "Failed to delete key"))))
  else loadTokens (c_page c) (c_size c) true (setTokenMessage s (t (js "Key deleted"))).

(** The dialog of a question: [handleConfirm] and its closing. *)
Definition handleConfirm (s : Keys) : Keys :=
  match confirm s with
  | Some (ConfirmDisable token c as q, false) =>
      updateTokenStatus token disabled_status c true (set_confirm s (Some (q, true)))
  | Some (ConfirmDelete token c as q, false) => deleteTokenNow token c (set_confirm s (Some (q, true)))
  | _ => s
  end.

Definition cancelConfirm (s : Keys) : Keys :=
  match confirm s with Some (_, false) => set_confirm s None | _ => s end.

(** ** Editing *)

Definition openEditDialog (s : Keys) : Keys :=
  start_task (TEditLoad (status s)) (loadUserGroups ToPage (setTokenMessage s (t (js "Loading key...")))).

Definition editLoaded (st : option CustomerStatus) (a : Answer) (s : Keys) : Keys :=
  match ok a, a_token a with
  | true, Some token =>
      setTokenMessage
        (setEditDialog s (Some (mkEdit token (getApiKeyEditForm cal toUpperCase token st)
                                  (default false (cross_group_retry token))))) []
  | _, _ => setTokenMessage s (or_text (a_message a) (t (js "Failed to load key")))
  end.

Definition closeEditDialog (s : Keys) : Keys := if editSubmitting s then s else setEditDialog s None.

Definition changeEditForm (form : ApiKeyCreateForm) (s : Keys) : Keys :=
  setEditDialog s
    ((fun e => mkEdit (e_token e) form (if str_eqb (f_group form) (js "auto") then crossGroupRetry e else false))
     <$> editDialog s).

Definition updateToken (s : Keys) : Keys :=
  match editDialog s with
  | None => s
  | Some e =>
      match check_form cal t toUpperCase (e_form e) (groupOptions s) (status s) with
      | Refused m => setTokenMessage s m
      | Accepted name group expiredTime remainQuota =>
          start_task (TUpdate (closure s))
            (record_sent (setTokenMessage (setEditSubmitting s true) (t (js "Updating key...")))
               (SUpdate (groupOptions s) (e_token e) name group expiredTime remainQuota (unlimitedQuota (e_form e))
                  (crossGroupRetry e)))
      end
  end.

Definition tokenUpdated (c : Closure) (a : Answer) (s : Keys) : Keys :=
  let s := setEditSubmitting s false in
  if negb (ok a) then setTokenMessage s (or_text (a_message a) (t (js "Failed to update key")))
  else loadTokens (c_page c) (c_size c) false (setTokenMessage (setEditDialog s None) (t (js "Key updated"))).

(** ** Reading keys *)

Definition models_known (s : Keys) : bool :=
  ccSwitchModelsLoading (switch s) || negb (Nat.eqb (length (ccSwitchModelOptions (switch s))) 0).

Definition loadCcSwitchModels (known : bool) (s : Keys) : Keys :=
  let w := switch s in
  if known then s
  else start_task TModels
         (set_switch s (mkSwitch (ccSwitchDialog w) (ccSwitchApp w) (ccSwitchName w) (ccSwitchModels w)
                          (ccSwitchModelOptions w) true)).

(** What the reader of a key does with it. *)
Definition use_key (apiKey : jsstr) (clip : option bool) (s : Keys) (r : Reader) : Keys :=
  match r with
  | ToClipboard =>
      setTokenMessage s (match clip with Some true => t (js "Key copied") | _ => t (js "Copy failed") end)
  | ToSwitch token known =>
      let w := switch s in
      loadCcSwitchModels known
        (setTokenMessage
           (set_switch s (mkSwitch (Some (token, apiKey)) claude (app_defaultName claude)
                            (buildDefaultCcSwitchModels claude) (ccSwitchModelOptions w) (ccSwitchModelsLoading w))) [])
  end.

(** The request a reader joins. *)
Definition join_reader (id : num) (r : Reader) (x : KeyTask) : KeyTask :=
  match x with TKey id' rs => if bool_decide (id' = id) then TKey id' (rs ++ [r]) else x | _ => x end.

(** [readTokenKey(token)] for a reader. *)
Definition readTokenKey (token : CustomerToken) (r : Reader) (clip : option bool) (s : Keys) : Keys :=
  let id := token_id token in
  match mget id (keyCache s) with
  | Some key => if truthy key then use_key key clip s r else s
  | None =>
      if bool_decide (id ∈ keyPending s) then set_tasks s (map (join_reader id r) (tasks s))
      else start_task (TKey id [r]) (record_sent (set_key_store s (keyCache s) (keyPending s ++ [id])) (SReadKey id))
  end.

Definition keyRead (id : num) (readers : list Reader) (a : Answer) (s : Keys) : Keys :=
  let pending := List.filter (fun x => negb (bool_decide (x = id))) (keyPending s) in
  match ok a, a_key a with
  | true, Some key =>
      if truthy key then
        let apiKey := formatApiKey key in
        let s := set_key_store s (mset id apiKey (keyCache s)) pending in
        foldl (use_key apiKey (a_clip a)) s readers
      else setTokenMessage (set_key_store s (keyCache s) pending) (or_text (a_message a) (t (js "Failed to read key")))
  | _, _ => setTokenMessage (set_key_store s (keyCache s) pending) (or_text (a_message a) (t (js "Failed to read key")))
  end.

(** ** CC Switch *)

Definition modelsLoaded (a : Answer) (s : Keys) : Keys :=
  let w := switch s in
  let with_options opts := set_switch s (mkSwitch (ccSwitchDialog w) (ccSwitchApp w) (ccSwitchName w) (ccSwitchModels w)
                                           opts false) in
  match ok a, a_models a with
  | true, Some l => with_options l
  | _, _ => setTokenMessage (with_options (ccSwitchModelOptions w)) (or_text (a_message a) (t (js "Failed to load models")))
  end.

Definition handleCcSwitchAppChange (app : CCSwitchApp) (s : Keys) : Keys :=
  let w := switch s in
  set_switch s (mkSwitch (ccSwitchDialog w) app (app_defaultName app) (buildDefaultCcSwitchModels app)
                  (ccSwitchModelOptions w) (ccSwitchModelsLoading w)).

Definition edit_switch (name : jsstr) (models : list (jsstr * jsstr)) (s : Keys) : Keys :=
  let w := switch s in
  set_switch s (mkSwitch (ccSwitchDialog w) (ccSwitchApp w) name models (ccSwitchModelOptions w)
                  (ccSwitchModelsLoading w)).

Definition close_switch (s : Keys) : Keys :=
  let w := switch s in
  set_switch s (mkSwitch None (ccSwitchApp w) (ccSwitchName w) (ccSwitchModels w) (ccSwitchModelOptions w)
                  (ccSwitchModelsLoading w)).

Definition gatewayOrigin (s : Keys) : jsstr := normalizeServerAddress origin (address s).
Definition openaiGatewayUrl (s : Keys) : jsstr := getOpenAICompatibleServerAddress origin (address s).

Definition openCcSwitch (s : Keys) : Keys :=
  let w := switch s in
  match ccSwitchDialog w with
  | None => s
  | Some (_, apiKey) =>
      if negb (truthy (primary_model (ccSwitchModels w))) then
        setTokenMessage s (t (js "Please select a primary model"))
      else
        let url := buildCcSwitchUrl usage_script query_string (ccSwitchApp w)
                     (str_or (trim (ccSwitchName w)) (app_defaultName (ccSwitchApp w))) (ccSwitchModels w) apiKey
                     (gatewayOrigin s) (openaiGatewayUrl s) in
        setTokenMessage (close_switch (open_page s url)) (t (js "Opening CC Switch..."))
  end.

(** ** Events *)

Definition task_answered (x : KeyTask) (a : Answer) (s : Keys) : Keys :=
  match x with
  | TLoad id page size closes => tokensLoaded id page size closes a s
  | TGroups target => groupsLoaded target a s
  | TCreate size => tokenCreated size a s
  | TStatus next c closes => statusUpdated next c closes a s
  | TEditLoad st => editLoaded st a s
  | TUpdate c => tokenUpdated c a s
  | TDelete c => tokenDeleted c a s
  | TKey id readers => keyRead id readers a s
  | TModels => modelsLoaded a s
  end.

Definition mount_keys : Keys :=
  let l := mkTokenList [] one (num_of_Z 10) zero true false 0 in
  let s := mkKeys None None l [] (mkCreate false (getDefaultApiKeyCreateForm cal) false []) [] false None false
             (mkSwitch None claude (app_defaultName claude) (buildDefaultCcSwitchModels claude) [] false)
             [] [] None [] [] [] in
  loadUserGroups ToCreate (loadTokens one (num_of_Z 10) false s).

(** No dialog covers the page. *)
Definition keys_active (s : Keys) : bool :=
  negb (createDialogOpen (create s))
  && match editDialog s, ccSwitchDialog (switch s), confirm s with None, None, None => true | _, _, _ => false end.

(** The rows are shown. *)
Definition rows_shown (s : Keys) : bool :=
  keys_active s && negb (loadingTokens (tlist s)) && negb (tokenLoadError (tlist s)).

Definition pages_shown (s : Keys) : bool :=
  keys_active s && negb (loadingTokens (tlist s)) && ngt (tokenTotal (tlist s)) (tokenPageSize (tlist s)).

Inductive KeyEvent :=
| KStatus (st : CustomerStatus) (address : option jsstr)
| KAnswer (n : nat) (a : Answer)
| KOpenCreate | KCreateForm (form : ApiKeyCreateForm) | KCloseCreate | KCreate
| KToggle (row : nat) | KDelete (row : nat) | KEdit (row : nat)
| KCopy (row : nat) (clip : option bool) | KSwitch (row : nat)
| KConfirm | KCancel
| KEditForm (form : ApiKeyCreateForm) | KCloseEdit | KUpdate
| KApp (app : CCSwitchApp) | KSwitchName (name : jsstr) | KSwitchModel (key value : jsstr)
| KOpenSwitch | KCloseSwitch
| KPrevious | KNext | KRetry.

(** A row whose button is enabled; the key of [token] is not being read when
    [reading] matters. *)
Definition on_row (row : nat) (reading : bool) (f : CustomerToken -> Keys -> Keys) (s : Keys) : Keys :=
  if rows_shown s then
    match tokens (tlist s) !! row with
    | Some token => if reading && bool_decide (token_id token ∈ keyPending s) then s else f token s
    | None => s
    end
  else s.

Definition key_handle (e : KeyEvent) (s : Keys) : Keys :=
  match e with
  | KStatus st a => set_status s (Some st) a
  | KAnswer n a =>
      match tasks s !! n with
      | Some x => task_answered x a (set_tasks s (delete n (tasks s)))
      | None => s
      end
  | KOpenCreate => if keys_active s then openCreateDialog s else s
  | KCreateForm form =>
      let c := create s in
      if createDialogOpen c then set_create s (mkCreate true form (createSubmitting c) (createMessage c)) else s
  | KCloseCreate => if createDialogOpen (create s) then closeCreateDialog s else s
  | KCreate => if createDialogOpen (create s) && negb (createSubmitting (create s)) && negb (groupsLoading s)
               then createToken s else s
  | KToggle row => on_row row false toggleTokenStatus s
  | KDelete row => on_row row false deleteToken s
  | KEdit row => on_row row false (fun _ => openEditDialog) s
  | KCopy row clip => on_row row true (fun token => readTokenKey token ToClipboard clip) s
  | KSwitch row => on_row row true (fun token => readTokenKey token (ToSwitch token (models_known s)) None) s
  | KConfirm => handleConfirm s
  | KCancel => cancelConfirm s
  | KEditForm form => changeEditForm form s
  | KCloseEdit => closeEditDialog s
  | KUpdate => if editSubmitting s || groupsLoading s then s else updateToken s
  | KApp app => match ccSwitchDialog (switch s) with Some _ => handleCcSwitchAppChange app s | None => s end
  | KSwitchName name =>
      match ccSwitchDialog (switch s) with Some _ => edit_switch name (ccSwitchModels (switch s)) s | None => s end
  | KSwitchModel key value =>
      match ccSwitchDialog (switch s) with
      | Some _ => if bool_decide (key ∈ app_fields (ccSwitchApp (switch s)))
                  then edit_switch (ccSwitchName (switch s)) (mset key value (ccSwitchModels (switch s))) s else s
      | None => s
      end
  | KOpenSwitch => openCcSwitch s
  | KCloseSwitch => close_switch s
  | KPrevious => if pages_shown s && negb (nle (tokenPage (tlist s)) one)
                 then goTokenPage (nsub (tokenPage (tlist s)) one) s else s
  | KNext => if pages_shown s && negb (nge (tokenPage (tlist s)) (tokenTotalPages (tlist s)))
             then goTokenPage (nadd (tokenPage (tlist s)) one) s else s
  | KRetry => if keys_active s && negb (loadingTokens (tlist s)) && tokenLoadError (tlist s)
              then loadTokens one (tokenPageSize (tlist s)) false s else s
  end.

Inductive keys_reachable : Keys -> Prop :=
| kreach_mount : keys_reachable mount_keys
| kreach_step e s : keys_reachable s -> keys_reachable (key_handle e s).

End Page.
