(* ===== verification/ApiKeysProps.v ===== *)
(** * What the API keys page guarantees

    The page that is shown and the request it waits for, the keys that are
    read, the forms that are saved and the link that exports a key. *)

From S2P Require Import Prelude JsStr JsNum JsInt JsArray JsJson Pricing Topup ParamOverride ApiKeys ApiKeysPage.

(** ** Numbers *)

Lemma nle_refl x : isNaN x = false -> nle x x = true.
Proof. intros Hx. by apply nlt_false_le; [..|apply nlt_irrefl]. Qed.

Lemma nmin_number a b : isNaN (nmin a b) = false -> isNaN a = false /\ isNaN b = false.
Proof. destruct a, b; cbn; try done; repeat case_match; done. Qed.

Lemma nmin_either a b : isNaN (nmin a b) = false -> nmin a b = a \/ nmin a b = b.
Proof.
  destruct a as [[]|[]| |[] m e], b as [[]|[]| |[] m' e']; cbn [nmin]; try done; intros _;
    repeat case_match; auto.
Qed.

Lemma nmin_below a b : isNaN (nmin a b) = false -> nle (nmin a b) b = true.
Proof.
  intros H. destruct (nmin_number a b H) as [Ha Hb].
  destruct a as [[]|[]| |[] m e], b as [[]|[]| |[] m' e']; try done; unfold nmin;
    match goal with |- context [SFltb ?y ?x] => destruct (SFltb y x) eqn:E end;
    try (by apply nle_refl); by apply nlt_false_le.
Qed.

Lemma nmax_above x : isNaN (nmax one x) = false -> nle one (nmax one x) = true.
Proof.
  intros H. change (nmax one x) with (match x with S754_nan => nan | _ => if SFltb one x then x else one end) in *.
  destruct x; try done; destruct (SFltb one _) eqn:E; try done;
    (rewrite nle_cases; apply orb_true_iff; left; exact E).
Qed.

Lemma nmax_idem x : nmax one (nmax one x) = nmax one x.
Proof.
  change (nmax one x) with (match x with S754_nan => nan | _ => if SFltb one x then x else one end).
  destruct x; try done; destruct (SFltb one _) eqn:E; try done;
    (unfold nmax, one; cbn [num_of_Z]; unfold one in E; rewrite E || idtac; done).
Qed.

(** ** The invariant *)

Definition load_id (x : KeyTask) : option nat := match x with TLoad id _ _ _ => Some id | _ => None end.
Definition key_id (x : KeyTask) : option num := match x with TKey id _ => Some id | _ => None end.

Definition page_fits (l : TokenList) : Prop :=
  isNaN (tokenPage l) = false -> nle one (tokenPage l) = true /\ nle (tokenPage l) (tokenTotalPages l) = true.

(** The loads that wait have different numbers, none after the latest. *)
Definition list_ready (l : TokenList) (ids : list nat) : Prop :=
  NoDup ids /\ Forall (fun id => id <= requestId l) ids /\ page_fits l.
Definition list_fits (l : TokenList) (ids : list nat) : Prop :=
  list_ready l ids /\ (loadingTokens l = true <-> In (requestId l) ids).

(** The keys that are read, each by one request, and those that were. *)
Definition keys_fit (cache : list (num * jsstr)) (pending ids : list num) : Prop :=
  ids ≡ₚ pending /\ NoDup pending
  /\ (forall id key, mget id cache = Some key -> startsWith key (js "sk-") = true)
  /\ (forall id, In id pending -> mget id cache = None).

Definition form_fits (options : list UserGroupSelectOption) (name group : jsstr) (quota : num) : Prop :=
  truthy name = true /\ trim name = name /\ length name <= 50 /\ truthy group = true
  /\ (options = [] \/ exists option, In option options /\ g_name option = group)
  /\ isFinite quota = true /\ nlt quota zero = false.

Definition sent_fits (x : SentKey) : Prop :=
  match x with
  | SCreate options name group _ quota _ => form_fits options name group quota
  | SUpdate options _ name group _ quota _ _ => form_fits options name group quota
  | _ => True
  end.

Definition view (s : Keys) :=
  (tlist s, omap load_id (tasks s), keyCache s, keyPending s, omap key_id (tasks s), sent s).

Definition fits (v : TokenList * list nat * list (num * jsstr) * list num * list num * list SentKey) : Prop :=
  let '(l, loads, cache, pending, reads, log) := v in
  list_fits l loads /\ keys_fit cache pending reads /\ Forall sent_fits log.

Definition keys_sound (s : Keys) : Prop := fits (view s).

(** ** What leaves it alone *)

Create Rewrite HintDb keyview.

Lemma view_status s x y : view (set_status s x y) = view s. Proof. by destruct s. Qed.
Lemma view_message s m : view (setTokenMessage s m) = view s. Proof. by destruct s. Qed.
Lemma view_create s c : view (set_create s c) = view s. Proof. by destruct s. Qed.
Lemma view_groups s g b : view (set_groups s g b) = view s. Proof. by destruct s. Qed.
Lemma view_edit s e : view (setEditDialog s e) = view s. Proof. by destruct s. Qed.
Lemma view_submitting s b : view (setEditSubmitting s b) = view s. Proof. by destruct s. Qed.
Lemma view_switch s w : view (set_switch s w) = view s. Proof. by destruct s. Qed.
Lemma view_confirm s c : view (set_confirm s c) = view s. Proof. by destruct s. Qed.
Lemma view_open s p : view (open_page s p) = view s. Proof. by destruct s. Qed.
Lemma view_close b s : view (close_confirm b s) = view s.
Proof. destruct b; [apply view_confirm|done]. Qed.

Lemma view_start x s : load_id x = None -> key_id x = None -> view (start_task x s) = view s.
Proof.
  intros Hl Hk. destruct s. unfold view, start_task. cbn. rewrite !omap_app. cbn. by rewrite Hl, Hk, !app_nil_r.
Qed.

#[export] Hint Rewrite view_status view_message view_create view_groups view_edit view_submitting view_switch
  view_confirm view_open view_close : keyview.

Lemma omap_delete {A B} (f : A -> option B) (l : list A) (n : nat) x :
  l !! n = Some x -> omap f l ≡ₚ (match f x with Some y => [y] | None => [] end) ++ omap f (delete n l).
Proof.
  intros H. rewrite (delete_Permutation l n x H) at 1. cbn. by destruct (f x).
Qed.

Lemma omap_delete_none {A B} (f : A -> option B) (l : list A) (n : nat) x :
  l !! n = Some x -> f x = None -> omap f (delete n l) = omap f l.
Proof.
  revert n. induction l as [|a l IH]; intros [|n]; [done..| |].
  - intros [= ->] Hf. change (omap f l = match f x with Some y => y :: omap f l | None => omap f l end). by rewrite Hf.
  - intros Hn Hf. change (match f a with Some y => y :: omap f (delete n l) | None => omap f (delete n l) end
                          = match f a with Some y => y :: omap f l | None => omap f l end). by rewrite (IH n Hn Hf).
Qed.

Lemma view_drop n x s :
  tasks s !! n = Some x -> load_id x = None -> key_id x = None -> view (set_tasks s (delete n (tasks s))) = view s.
Proof.
  intros Hn Hl Hk. destruct s. unfold view. cbn in *. by rewrite !(omap_delete_none _ _ _ _ Hn).
Qed.

Ltac keep_view := unfold keys_sound; autorewrite with keyview; try done.

Lemma view_loadGroups target s : view (loadUserGroups target s) = view s.
Proof.
  unfold loadUserGroups. case_match; [done|]. rewrite view_start by done. by autorewrite with keyview.
Qed.

Lemma view_createMessage m s : view (set_createMessage m s) = view s.
Proof. apply view_create. Qed.

Lemma view_loadModels b s : view (loadCcSwitchModels b s) = view s.
Proof. unfold loadCcSwitchModels. destruct b; [done|]. rewrite view_start by done. by autorewrite with keyview. Qed.

#[export] Hint Rewrite view_loadGroups view_createMessage view_loadModels : keyview.

Lemma view_sent x s : sent_fits x -> keys_sound s -> keys_sound (record_sent s x).
Proof.
  intros Hx. destruct s. unfold keys_sound, view. cbn. intros (H1 & H2 & H3).
  split; [done|]. split; [done|]. by constructor.
Qed.

(** ** The list *)

(** Everything but the clause on loading. *)
Definition nearly_sound (s : Keys) : Prop :=
  list_ready (tlist s) (omap load_id (tasks s))
  /\ keys_fit (keyCache s) (keyPending s) (omap key_id (tasks s)) /\ Forall sent_fits (sent s).

Lemma sound_nearly s : keys_sound s -> nearly_sound s.
Proof. by intros ([? _] & ? & ?). Qed.

Lemma nearly_view s s' : view s' = view s -> nearly_sound s -> nearly_sound s'.
Proof. unfold view, nearly_sound. intros [= -> -> -> -> -> ->]. done. Qed.

Lemma load_sound page size closes s : nearly_sound s -> keys_sound (loadTokens page size closes s).
Proof.
  destruct s as [a b l d e f g h i j k m n o p q]. intros ((Hn & Hle & Hp) & Hk & Hs).
  unfold keys_sound, view, loadTokens, start_task. cbn in *. rewrite !omap_app. cbn. rewrite app_nil_r.
  split; [|done]. split; [split; [|split]|]; cbn.
  - apply NoDup_app. split; [done|]. split; [|by apply NoDup_singleton].
    intros x Hx ->%list_elem_of_singleton. rewrite Forall_forall in Hle. specialize (Hle _ Hx). lia.
  - apply Forall_app. split; [|by constructor]. eapply Forall_impl; [exact Hle|]. cbn. lia.
  - done.
  - split; [|done]. intros _. apply in_app_iff. right. by left.
Qed.

Lemma settled_page_fits items page size total b1 b2 id :
  page_fits (mkTokenList items (nmin (nmax one page) (last_page total size)) (nmax one size) total b1 b2 id).
Proof.
  unfold page_fits, tokenTotalPages, last_page. cbn [tokenPage tokenPageSize tokenTotal]. rewrite nmax_idem.
  set (m := nmax one (nceil (ndiv total (nmax one size)))). intros H.
  destruct (nmin_number _ _ H) as [Ha Hb]. split; [|by apply nmin_below].
  destruct (nmin_either _ _ H) as [-> | ->]; by apply nmax_above.
Qed.

(** The latest load is answered. *)
Lemma settle_list (l : TokenList) s :
  nearly_sound s -> ~ In (requestId (tlist s)) (omap load_id (tasks s)) ->
  loadingTokens l = false -> requestId l = requestId (tlist s) -> page_fits l -> keys_sound (set_list s l).
Proof.
  destruct s. unfold nearly_sound, keys_sound, view. cbn. intros ((Hn & Hle & Hp) & Hk & Hs) Hnot Hload Hid Hfit.
  split; [|done]. unfold list_fits, list_ready. rewrite Hload, Hid.
  split; [split; [done|]; by split|]. by split.
Qed.

Lemma tokensLoaded_sound t n id page size closes a s :
  keys_sound s -> tasks s !! n = Some (TLoad id page size closes) ->
  keys_sound (tokensLoaded t id page size closes a (set_tasks s (delete n (tasks s)))).
Proof.
  intros Hs Hn. pose proof Hs as (((Hnd & Hle & Hp) & Hload) & Hk & Hlog).
  pose proof (omap_delete load_id _ _ _ Hn) as Hperm. cbn in Hperm.
  assert (nearly_sound (set_tasks s (delete n (tasks s)))) as Hnear.
  { destruct s. unfold nearly_sound. cbn in *. rewrite (omap_delete_none key_id _ _ _ Hn) by done.
    rewrite Hperm in Hnd. apply NoDup_cons in Hnd as [_ Hnd]. rewrite Hperm in Hle.
    by apply Forall_cons in Hle as [_ Hle]. }
  set (s' := set_tasks s (delete n (tasks s))) in *.
  assert (requestId (tlist s') = requestId (tlist s) /\ loadingTokens (tlist s') = loadingTokens (tlist s)
          /\ omap load_id (tasks s') = omap load_id (delete n (tasks s))) as (Hid & Hld & Htk) by (by destruct s).
  assert (nearly_sound (close_confirm closes s')) as Hnear' by (eapply nearly_view; [apply view_close|done]).
  unfold tokensLoaded. cbv zeta.
  assert (tlist (close_confirm closes s') = tlist s' /\ tasks (close_confirm closes s') = tasks s') as [-> Htasks]
    by (by destruct closes, s').
  destruct (Nat.eqb id (requestId (tlist s'))) eqn:E; cbn [negb].
  - apply Nat.eqb_eq in E. subst id.
    assert (~ In (requestId (tlist (close_confirm closes s'))) (omap load_id (tasks (close_confirm closes s')))) as Hnot.
    { rewrite Htasks, Htk. rewrite Hperm in Hnd. apply NoDup_cons in Hnd as [Hnin _]. rewrite <- list_elem_of_In.
      by destruct closes, s. }
    destruct (ok a); [case_match; [by apply load_sound|]|]; unfold keys_sound; rewrite view_message;
      apply settle_list; try done; try (by destruct closes, s). apply settled_page_fits.
  - apply Nat.eqb_neq in E. unfold keys_sound. rewrite view_close.
    destruct Hnear as (Hr & Hk' & Hl'). split; [|done]. split; [done|]. rewrite Hid, Hld, Htk, Hload, Hperm.
    rewrite Hid in E. split; [intros [?|?]; [congruence|done]|by right].
Qed.

(** ** Reading keys *)

Lemma use_key_view t key clip s r : view (use_key t key clip s r) = view s.
Proof. destruct r; cbn [use_key]; by autorewrite with keyview. Qed.

Lemma use_keys_view t key clip rs s : view (foldl (use_key t key clip) s rs) = view s.
Proof. revert s. induction rs as [|r rs IH]; intros s; cbn; [done|]. by rewrite IH, use_key_view. Qed.

Lemma join_ids id r ts :
  omap load_id (map (join_reader id r) ts) = omap load_id ts /\ omap key_id (map (join_reader id r) ts) = omap key_id ts.
Proof.
  induction ts as [|x ts [IH1 IH2]]; [done|]. cbn. rewrite IH1, IH2.
  destruct x; cbn; try done. by destruct (bool_decide _).
Qed.

Lemma readTokenKey_sound t token r clip s : keys_sound s -> keys_sound (readTokenKey t token r clip s).
Proof.
  intros Hs. unfold readTokenKey. cbv zeta. destruct (mget (token_id token) (keyCache s)) as [key|] eqn:Ec.
  - destruct (truthy key); [|done]. unfold keys_sound. by rewrite use_key_view.
  - destruct (decide (token_id token ∈ keyPending s)) as [Hin|Hnin].
    + rewrite bool_decide_true by done. unfold keys_sound. destruct s. unfold view in *. cbn in *.
      destruct (join_ids (token_id token) r tasks) as [-> ->]. exact Hs.
    + rewrite bool_decide_false by done. destruct s. unfold keys_sound, view, start_task in *. cbn in *.
      rewrite !omap_app. cbn. rewrite app_nil_r.
      destruct Hs as (Hl & (H1 & H2 & H3 & H4) & H5). split; [done|]. split; [|by constructor].
      split; [by rewrite H1|]. split.
      * apply NoDup_app. split; [done|]. split; [|by apply NoDup_singleton]. by intros x Hx ->%list_elem_of_singleton.
      * split; [done|]. intros id [Hid|[<-|[]]]%in_app_iff; [by apply H4|done].
Qed.

Lemma formatApiKey_prefix key : startsWith (formatApiKey key) (js "sk-") = true.
Proof.
  unfold formatApiKey. destruct (truthy key); cbn [negb]; [|done].
  destruct (startsWith key (js "sk-")) eqn:E; [done|]. done.
Qed.

Lemma filter_others (id : num) l : NoDup (id :: l) -> List.filter (fun x => negb (bool_decide (x = id))) l = l.
Proof.
  intros [Hnin _]%NoDup_cons. apply filter_all, forallb_forall. intros x Hx. apply negb_true_iff, bool_decide_eq_false.
  intros ->. by apply Hnin, list_elem_of_In.
Qed.

Lemma filter_perm {A} (p : A -> bool) l l' : l ≡ₚ l' -> List.filter p l ≡ₚ List.filter p l'.
Proof.
  induction 1; cbn; [done| | |by etransitivity].
  - destruct (p x); [by constructor|done].
  - destruct (p x), (p y); try done. by constructor.
Qed.

(** The pending keys once the answer for [id] is there. *)
Lemma pending_drop (id : num) (ids pending : list num) :
  id :: ids ≡ₚ pending -> NoDup pending ->
  ids ≡ₚ List.filter (fun x => negb (bool_decide (x = id))) pending
  /\ NoDup (List.filter (fun x => negb (bool_decide (x = id))) pending)
  /\ (forall x, In x (List.filter (fun x => negb (bool_decide (x = id))) pending) -> x <> id /\ In x pending).
Proof.
  intros Hp Hn. assert (NoDup (id :: ids)) as Hni by (by rewrite Hp).
  assert (ids ≡ₚ List.filter (fun x => negb (bool_decide (x = id))) pending) as H.
  { rewrite <- (filter_perm _ _ _ Hp). cbn. rewrite bool_decide_true by done. cbn. by rewrite filter_others. }
  split; [done|]. split; [rewrite <- H; by apply NoDup_cons in Hni as [_ ?]|].
  intros x [Hx Hne]%filter_In. split; [|done]. intros ->. by rewrite bool_decide_true in Hne.
Qed.

Lemma keyRead_sound t n id rs a s :
  keys_sound s -> tasks s !! n = Some (TKey id rs) ->
  keys_sound (keyRead t id rs a (set_tasks s (delete n (tasks s)))).
Proof.
  intros Hs Hn. pose proof Hs as (Hl & (H1 & H2 & H3 & H4) & H5).
  pose proof (omap_delete key_id _ _ _ Hn) as Hperm. cbn in Hperm. rewrite Hperm in H1.
  destruct (pending_drop _ _ _ H1 H2) as (Hp1 & Hp2 & Hp3).
  assert (forall cache, (cache = keyCache s \/ exists key, startsWith key (js "sk-") = true /\ cache = mset id key (keyCache s)) ->
            keys_sound (set_key_store (set_tasks s (delete n (tasks s))) cache
              (List.filter (fun x => negb (bool_decide (x = id))) (keyPending (set_tasks s (delete n (tasks s))))))) as Hend.
  { intros cache Hc. destruct s. unfold keys_sound, view. cbn in *. rewrite (omap_delete_none load_id _ _ _ Hn) by done.
    split; [done|]. split; [|done]. split; [done|]. split; [done|].
    destruct Hc as [->|(key & Hkey & ->)].
    - split; [done|]. intros x Hx. by apply H4, Hp3.
    - split.
      + intros x key'. destruct (decide (x = id)) as [->|Hne].
        * rewrite mget_mset. by intros [= <-].
        * rewrite mget_mset_ne by done. apply H3.
      + intros x [Hne Hx]%Hp3. rewrite mget_mset_ne by done. by apply H4. }
  unfold keyRead. cbv zeta.
  assert (keyCache (set_tasks s (delete n (tasks s))) = keyCache s) as Ec by (by destruct s).
  destruct (ok a), (a_key a) as [key|]; [destruct (truthy key)|..];
    unfold keys_sound; rewrite ?use_keys_view, ?view_message; apply Hend; rewrite Ec; eauto using formatApiKey_prefix.
Qed.

(** ** Forms *)

(** ** Forms *)

Lemma check_form_fits cal t up form options st name group e q :
  check_form cal t up form options st = Accepted name group e q -> form_fits options name group q.
Proof.
  unfold check_form. cbv zeta. destruct (truthy (trim (f_name form))) eqn:Hn; [|done].
  destruct (Nat.ltb 50 (length (trim (f_name form)))) eqn:Hlen; [done|]. apply Nat.ltb_ge in Hlen.
  destruct (truthy (trim (f_group form))) eqn:Hg; [|done]. cbn [negb].
  destruct (negb (Nat.eqb (length options) 0) && _) eqn:Ho; [done|].
  destruct (getApiKeyExpiryTimestamp cal form); [|done]. intros H.
  assert (name = trim (f_name form) /\ group = trim (f_group form) /\ isFinite q = true /\ nlt q zero = false)
    as (-> & -> & Hq1 & Hq2).
  { destruct (unlimitedQuota form); [injection H as <- <- <- <-; done|].
    destruct (truthy (trim (quotaLimit form))); [|done]. cbn [negb] in H.
    destruct (negb (isFinite _) || nlt _ zero) eqn:Eq; [done|]. apply orb_false_iff in Eq as [E1 E2].
    injection H as <- <- <- <-. split; [done|]. split; [done|]. split; [by apply negb_false_iff|done]. }
  repeat split; try done; [apply trim_idemp|].
  apply andb_false_iff in Ho as [Ho|Ho].
  - left. apply negb_false_iff, Nat.eqb_eq in Ho. by destruct options.
  - right. apply negb_false_iff, existsb_exists in Ho as (option & Hin & Ho). exists option.
    split; [done|]. by apply bool_decide_eq_true in Ho.
Qed.

(** ** Every step *)

Section Steps.
  Variable cal : Calendar.
  Variable t : jsstr -> jsstr.
  Variable toUpperCase : jsstr -> jsstr.
  Variable localeCompare : jsstr -> jsstr -> num.
  Variable origin usage_script : jsstr.
  Variable query_string : list (jsstr * jsstr) -> jsstr.

Abbreviation handle_ := (key_handle cal t toUpperCase localeCompare origin usage_script query_string).
Abbreviation reachable_ := (keys_reachable cal t toUpperCase localeCompare origin usage_script query_string).

Lemma sound_same s s' : view s' = view s -> keys_sound s -> keys_sound s'.
Proof. unfold keys_sound. by intros ->. Qed.

(** A load after changes that are not of the list. *)
Lemma reload_sound page size closes s s' :
  view s' = view s -> keys_sound s -> keys_sound (loadTokens page size closes s').
Proof. intros Hv Hs. apply load_sound. eapply nearly_view; [exact Hv|]. by apply sound_nearly. Qed.

Lemma start_sent_sound x e s s' :
  load_id x = None -> key_id x = None -> view s' = view s -> sent_fits e -> keys_sound s ->
  keys_sound (start_task x (record_sent s' e)).
Proof.
  intros Hl Hk Hv He Hs. unfold keys_sound. rewrite view_start by done. apply view_sent; [done|].
  by eapply sound_same.
Qed.

Lemma updateStatus_sound token next c b s s' :
  view s' = view s -> keys_sound s -> keys_sound (updateTokenStatus t token next c b s').
Proof.
  intros Hv Hs. unfold updateTokenStatus. eapply start_sent_sound; [done..|by rewrite view_message|done|done].
Qed.

Lemma answered_sound n x a s :
  keys_sound s -> tasks s !! n = Some x ->
  keys_sound (task_answered cal t toUpperCase localeCompare x a (set_tasks s (delete n (tasks s)))).
Proof.
  intros Hs Hn.
  assert (load_id x = None -> key_id x = None -> keys_sound (set_tasks s (delete n (tasks s)))) as Hdrop.
  { intros Hl Hk. eapply sound_same; [by eapply view_drop|done]. }
  destruct x as [id page size closes|target|size|next c closes|st|c|c|id readers| ]; cbn [task_answered].
  - by apply tokensLoaded_sound.
  - specialize (Hdrop eq_refl eq_refl). eapply sound_same; [|exact Hdrop].
    unfold groupsLoaded. cbv zeta. repeat case_match; by autorewrite with keyview.
  - specialize (Hdrop eq_refl eq_refl). unfold tokenCreated. cbv zeta. case_match.
    + eapply sound_same; [|exact Hdrop]. by autorewrite with keyview.
    + eapply reload_sound; [|exact Hdrop]. by autorewrite with keyview.
  - specialize (Hdrop eq_refl eq_refl). unfold statusUpdated. cbv zeta. case_match.
    + eapply sound_same; [|exact Hdrop]. by autorewrite with keyview.
    + eapply reload_sound; [|exact Hdrop]. by autorewrite with keyview.
  - specialize (Hdrop eq_refl eq_refl). eapply sound_same; [|exact Hdrop].
    unfold editLoaded. repeat case_match; by autorewrite with keyview.
  - specialize (Hdrop eq_refl eq_refl). unfold tokenUpdated. cbv zeta. case_match.
    + eapply sound_same; [|exact Hdrop]. by autorewrite with keyview.
    + eapply reload_sound; [|exact Hdrop]. by autorewrite with keyview.
  - specialize (Hdrop eq_refl eq_refl). unfold tokenDeleted. cbv zeta. case_match.
    + eapply sound_same; [|exact Hdrop]. by autorewrite with keyview.
    + eapply reload_sound; [|exact Hdrop]. by autorewrite with keyview.
  - by apply keyRead_sound.
  - specialize (Hdrop eq_refl eq_refl). eapply sound_same; [|exact Hdrop].
    unfold modelsLoaded. cbv zeta. repeat case_match; by autorewrite with keyview.
Qed.

Lemma createToken_sound s : keys_sound s -> keys_sound (createToken cal t toUpperCase s).
Proof.
  intros Hs. unfold createToken. cbv zeta. destruct (check_form _ _ _ _ _ _) eqn:E.
  - eapply sound_same; [apply view_createMessage|done].
  - eapply start_sent_sound; [done..| | |exact Hs]; [by autorewrite with keyview|].
    apply check_form_fits in E. by destruct s.
Qed.

Lemma updateToken_sound s : keys_sound s -> keys_sound (updateToken cal t toUpperCase s).
Proof.
  intros Hs. unfold updateToken. destruct (editDialog s) as [e|]; [|done]. destruct (check_form _ _ _ _ _ _) eqn:E.
  - eapply sound_same; [apply view_message|done].
  - eapply start_sent_sound; [done..| | |exact Hs]; [by autorewrite with keyview|].
    by apply check_form_fits in E.
Qed.

Lemma goTokenPage_sound page s : keys_sound s -> keys_sound (goTokenPage page s).
Proof. intros Hs. unfold goTokenPage. cbv zeta. repeat case_match; try done. by eapply reload_sound. Qed.

Lemma confirm_sound s : keys_sound s -> keys_sound (handleConfirm t s).
Proof.
  intros Hs. unfold handleConfirm. destruct (confirm s) as [[q []]|]; [by destruct q| |done].
  destruct q as [token c|token c].
  - eapply updateStatus_sound; [apply view_confirm|done].
  - unfold deleteTokenNow. eapply start_sent_sound; [done..| |done|exact Hs]. by autorewrite with keyview.
Qed.

Lemma row_sound row b f s :
  keys_sound s -> (forall token, keys_sound (f token s)) -> keys_sound (on_row row b f s).
Proof. intros Hs Hf. unfold on_row. repeat case_match; done. Qed.

Lemma handle_sound e s : keys_sound s -> keys_sound (handle_ e s).
Proof.
  intros Hs. destruct e; cbn [key_handle].
  - eapply sound_same; [apply view_status|done].
  - case_match; [|done]. by apply answered_sound.
  - case_match; [|done]. unfold openCreateDialog. eapply sound_same; [|done]. by autorewrite with keyview.
  - cbv zeta. case_match; [|done]. eapply sound_same; [apply view_create|done].
  - case_match; [|done]. unfold closeCreateDialog. cbv zeta. case_match; [done|].
    eapply sound_same; [apply view_create|done].
  - case_match; [|done]. by apply createToken_sound.
  - apply row_sound; [done|]. intros token. unfold toggleTokenStatus. case_match.
    + eapply sound_same; [apply view_confirm|done].
    + by eapply updateStatus_sound.
  - apply row_sound; [done|]. intros token. eapply sound_same; [apply view_confirm|done].
  - apply row_sound; [done|]. intros token. unfold openEditDialog. eapply sound_same; [|done].
    rewrite view_start by done. by autorewrite with keyview.
  - apply row_sound; [done|]. intros token. by apply readTokenKey_sound.
  - apply row_sound; [done|]. intros token. by apply readTokenKey_sound.
  - by apply confirm_sound.
  - unfold cancelConfirm. repeat case_match; try done. eapply sound_same; [apply view_confirm|done].
  - unfold changeEditForm. eapply sound_same; [apply view_edit|done].
  - unfold closeEditDialog. case_match; [done|]. eapply sound_same; [apply view_edit|done].
  - case_match; [done|]. by apply updateToken_sound.
  - case_match; [|done]. eapply sound_same; [apply view_switch|done].
  - case_match; [|done]. eapply sound_same; [apply view_switch|done].
  - repeat case_match; try done. eapply sound_same; [apply view_switch|done].
  - unfold openCcSwitch. cbv zeta. repeat case_match; try done; (eapply sound_same; [|done]);
      by unfold close_switch; autorewrite with keyview.
  - eapply sound_same; [apply view_switch|done].
  - case_match; [|done]. by apply goTokenPage_sound.
  - case_match; [|done]. by apply goTokenPage_sound.
  - case_match; [|done]. by eapply reload_sound.
Qed.

Lemma keys_reachable_sound s : reachable_ s -> keys_sound s.
Proof.
  induction 1 as [|e s _ IH]; [|by apply handle_sound].
  unfold mount_keys. eapply sound_same; [apply view_loadGroups|]. apply load_sound.
  by repeat split; try constructor.
Qed.

(** C24: in every state of the page the list is loading exactly while the
    latest request for it waits, so that an answer to an older one changes
    nothing, and the page that is shown lies between the first and the last
    one, unless the server sent no numbers. *)
Theorem token_list_current s :
  reachable_ s ->
  (loadingTokens (tlist s) = true
   <-> exists page size closes, In (TLoad (requestId (tlist s)) page size closes) (tasks s))
  /\ (forall id page size closes a, id <> requestId (tlist s) ->
        tlist (tokensLoaded t id page size closes a s) = tlist s)
  /\ (isNaN (tokenPage (tlist s)) = false ->
        nle one (tokenPage (tlist s)) = true /\ nle (tokenPage (tlist s)) (tokenTotalPages (tlist s)) = true).
Proof.
  intros Hr. destruct (keys_reachable_sound _ Hr) as (((_ & _ & Hp) & Hload) & _). split; [|split; [|exact Hp]].
  - rewrite Hload, <- list_elem_of_In, list_elem_of_omap. setoid_rewrite list_elem_of_In. split.
    + intros (x & Hx & E). destruct x; try done. injection E as ->. eauto.
    + intros (page & size & closes & Hx). eauto.
  - intros id page size closes a Hne. unfold tokensLoaded. cbv zeta.
    assert (tlist (close_confirm closes s) = tlist s) as E by (by destruct closes, s).
    rewrite E. apply Nat.eqb_neq in Hne. by rewrite Hne.
Qed.

(** No key of a token is asked for twice at a time or once it is known,
    and every key that is kept has its prefix. *)
Theorem key_read_once s :
  reachable_ s ->
  NoDup (omap key_id (tasks s))
  /\ (forall id, In id (omap key_id (tasks s)) <-> In id (keyPending s))
  /\ (forall id, In id (keyPending s) -> mget id (keyCache s) = None)
  /\ (forall id key, mget id (keyCache s) = Some key -> startsWith key (js "sk-") = true).
Proof.
  intros Hr. destruct (keys_reachable_sound _ Hr) as (_ & (H1 & H2 & H3 & H4) & _).
  split; [by rewrite H1|]. split; [|done]. intros id.
  split; intros H; (eapply Permutation_in; [|exact H]); [done|by symmetry].
Qed.


(** Asking again for a page that no longer exists goes down, never below the
    first page; the first page is never asked again. *)
Theorem retry_goes_down id page size closes a s :
  requestId (tlist (tokensLoaded t id page size closes a s)) <> requestId (tlist s) ->
  exists next, tasks (tokensLoaded t id page size closes a s)
               = tasks s ++ [TLoad (S (requestId (tlist s))) next size false]
    /\ nlt next page = true /\ (isNaN next = false -> nle one next = true).
Proof.
  unfold tokensLoaded. cbv zeta.
  assert (tlist (close_confirm closes s) = tlist s /\ tasks (close_confirm closes s) = tasks s) as [E1 E2]
    by (by destruct closes, s).
  rewrite E1. destruct (negb (Nat.eqb id (requestId (tlist s)))); [by rewrite E1|].
  destruct (ok a).
  - destruct (_ && ngt page _) eqn:E.
    + intros _. apply andb_true_iff in E as [_ E].
      set (m := last_page _ _) in *.
      assert (nmax one m = m) as Em by (apply nmax_idem).
      exists m. split; [|split; [exact E|]].
      * unfold loadTokens, start_task. cbv zeta. rewrite E1, Em. destruct closes, s; reflexivity.
      * intros Hm. rewrite <- Em in Hm |- *. by apply nmax_above.
    + by destruct closes, s.
  - by destruct closes, s.
Qed.

End Steps.

(** ** Saving a key again *)

(** The time of expiry that is saved depends only on the date it was on. *)
Theorem edit_moves_expiry cal up x y token st :
  ngt x zero = true -> ngt y zero = true ->
  date_input cal (nmul x (num_of_Z 1000)) = date_input cal (nmul y (num_of_Z 1000)) ->
  let at_time z := mkToken (token_id token) (token_name token) (token_key token) (token_status token) (Some z)
                     (remain_quota token) (unlimited_quota token) (token_group token) (model_limits_enabled token)
                     (model_limits token) (allow_ips token) (cross_group_retry token) in
  getApiKeyExpiryTimestamp cal (getApiKeyEditForm cal up (at_time x) st)
  = getApiKeyExpiryTimestamp cal (getApiKeyEditForm cal up (at_time y) st).
Proof.
  intros Hx Hy Hd. cbv zeta. unfold getApiKeyEditForm, getApiKeyExpiryTimestamp. cbn [expired_time default].
  cbn [from_option Datatypes.id]. rewrite Hx, Hy. cbn [expiryMode expiryDate]. by rewrite Hd.
Qed.

(** A calendar of days of a hundred seconds, for the examples. *)
Definition small_calendar : Calendar :=
  mkCalendar (num_of_Z 1000000)
    (fun ms => num_to_str (nfloor (ndiv ms (num_of_Z 100000))))
    (fun d => nadd (nmul (num_of_str d) (num_of_Z 100000)) (num_of_Z 99000))
    (fun days => num_of_Z (1000000 + days * 100000))
    num_to_str.

Definition sample_token (id : Z) (expires quota : num) : CustomerToken :=
  mkToken (num_of_Z id) (js "Production") (js "abc") (num_of_Z 1) (Some expires) (Some quota) (Some false)
    (Some (js "default")) None None None None.

(** A key saved without a change expires later than it did. *)
Example expiry_moved :
  getApiKeyExpiryTimestamp small_calendar
    (getApiKeyEditForm small_calendar (fun s => s) (sample_token 1 (num_of_Z 1234) (num_of_Z 0)) None)
  = Some (num_of_Z 1299).
Proof. vm_compute. reflexivity. Qed.

(** A key whose quota is overdrawn cannot be renamed. *)
Example overdrawn_key_refused :
  check_form small_calendar (fun s => s) (fun s => s)
    (getApiKeyEditForm small_calendar (fun s => s) (sample_token 1 (num_of_Z (-1)) (num_of_Z (-5))) None) [] None
  = Refused (js "Quota limit must be 0 or greater").
Proof. vm_compute. reflexivity. Qed.

(** ** Two dialogs at once *)

Abbreviation small_handle :=
  (key_handle small_calendar (fun s => s) (fun s => s) (fun _ _ => zero) [] [] (fun _ => [])).
Abbreviation small_reachable :=
  (keys_reachable small_calendar (fun s => s) (fun s => s) (fun _ _ => zero) [] [] (fun _ => [])).

Definition page_answer (l : list CustomerToken) : Answer :=
  mkAnswer true None (PlainArray l) None None None None None.
Definition token_answer (x : CustomerToken) : Answer := mkAnswer true None NoData (Some x) None None None None.

Definition token1 := sample_token 1 (num_of_Z 1234) (num_of_Z 500000).
Definition token2 := sample_token 2 (num_of_Z 1234) (num_of_Z 500000).

(** The list is loaded; the groups are too. *)
Definition loaded_page : Keys :=
  small_handle (KAnswer 0 (mkAnswer true None NoData None (Some [(js "default", JObj [])]) None None None))
    (small_handle (KAnswer 0 (page_answer [token1; token2])) (mount_keys small_calendar)).

(** Both keys are opened for editing, and the second answers first. *)
Definition two_edits : Keys :=
  small_handle (KAnswer 1 (token_answer token2)) (small_handle (KEdit 1) (small_handle (KEdit 0) loaded_page)).

Lemma loaded_reachable : small_reachable loaded_page.
Proof. do 2 apply kreach_step. apply kreach_mount. Qed.

(** The answer for a key that was opened first replaces the form of the one
    that is being edited. *)
Theorem late_edit_replaces_form :
  small_reachable two_edits
  /\ e_token <$> editDialog two_edits = Some token2
  /\ e_token <$> editDialog (small_handle (KAnswer 0 (token_answer token1)) two_edits) = Some token1.
Proof. split; [do 3 apply kreach_step; apply loaded_reachable|]. split; vm_compute; reflexivity. Qed.

(** ** Witnesses *)

(** A key is being read. *)
Definition reading_page : Keys := small_handle (KCopy 0 (Some true)) loaded_page.

Lemma reading_reachable : small_reachable reading_page.
Proof. apply kreach_step, loaded_reachable. Qed.

(** A key is being saved. *)
Definition saving_page : Keys :=
  small_handle KUpdate (small_handle (KAnswer 0 (token_answer token1)) (small_handle (KEdit 0) loaded_page)).

Lemma token_list_current_witness :
  isNaN (tokenPage (tlist loaded_page)) = false /\ nle one (tokenPage (tlist loaded_page)) = true.
Proof.
  assert (isNaN (tokenPage (tlist loaded_page)) = false) as H by (vm_compute; reflexivity).
  split; [exact H|].
  apply (token_list_current small_calendar (fun s => s) (fun s => s) (fun _ _ => zero) [] [] (fun _ => [])
           loaded_page loaded_reachable). exact H.
Defined.

Lemma key_read_once_witness :
  omap key_id (tasks reading_page) = [num_of_Z 1] /\ mget (num_of_Z 1) (keyCache reading_page) = None.
Proof.
  split; [vm_compute; reflexivity|].
  apply (key_read_once small_calendar (fun s => s) (fun s => s) (fun _ _ => zero) [] [] (fun _ => [])
           reading_page reading_reachable). vm_compute. left. reflexivity.
Defined.

Lemma saving_reachable : small_reachable saving_page.
Proof. do 3 apply kreach_step. apply loaded_reachable. Qed.


(** ** The link to CC Switch *)

Lemma set_params_other k params l : ~ In k (map fst l) -> mget k (foldl set_param params l) = mget k params.
Proof.
  revert params. induction l as [|[k' v] l IH]; intros params; cbn; [done|]. intros H.
  rewrite IH by tauto. apply mget_mset_ne. intros ->. tauto.
Qed.

Lemma set_models_other k params l : ~ In k (map fst l) -> mget k (foldl set_model params l) = mget k params.
Proof.
  revert params. induction l as [|[k' v] l IH]; intros params; cbn; [done|]. intros H.
  rewrite IH by tauto. unfold set_model. cbv zeta. case_match; [|done]. apply mget_mset_ne. intros ->. tauto.
Qed.

Lemma set_models_get k v params l :
  NoDup (map fst l) -> In (k, v) l -> truthy (trim v) = true -> mget k (foldl set_model params l) = Some (trim v).
Proof.
  revert params. induction l as [|[k' v'] l IH]; intros params; cbn; [done|].
  intros [Hnin Hn]%NoDup_cons [[= -> ->]|Hin] Hv; [|by apply IH].
  rewrite set_models_other by (rewrite <- list_elem_of_In; done).
  unfold set_model. cbv zeta. cbn [fst snd]. rewrite Hv. apply mget_mset.
Qed.

(** The fields of the dialog are not names of the other parameters. *)
Lemma fields_apart app k :
  k ∈ app_fields app ->
  ~ In k (map fst (ccswitch_head app [] [] [] [])) /\ ~ In k (map fst (ccswitch_tail [] [] [] [] [])).
Proof.
  intros Hk. rewrite <- !list_elem_of_In. revert k Hk.
  assert (forall (l l' : list jsstr), bool_decide (Forall (fun k => k ∉ l') l) = true -> forall k, k ∈ l -> k ∉ l') as H.
  { intros l l' E k Hk. apply bool_decide_eq_true in E. rewrite Forall_forall in E. by apply E. }
  intros k Hk. split; (eapply H; [|exact Hk]); destruct app; vm_compute; reflexivity.
Qed.

Lemma head_keys app name key server base :
  map fst (ccswitch_head app name key server base) = map fst (ccswitch_head app [] [] [] []).
Proof. reflexivity. Qed.
Lemma tail_keys script name key server model :
  map fst (ccswitch_tail script name key server model) = map fst (ccswitch_tail [] [] [] [] []).
Proof. reflexivity. Qed.

(** The link carries the key, the address for the application, its name and
    the models that are filled in; no model hides another parameter. *)
Theorem export_link_exact script app name models key server base :
  NoDup (map fst models) -> (forall k, In k (map fst models) -> k ∈ app_fields app) ->
  let p := ccswitch_params script app name models key server base in
  mget (js "apiKey") p = Some key /\ mget (js "usageApiKey") p = Some key
  /\ mget (js "endpoint") p = Some (if decide (app = codex) then base else server)
  /\ mget (js "app") p = Some (app_text app) /\ mget (js "name") p = Some name
  /\ (forall k v, In (k, v) models -> truthy (trim v) = true -> mget k p = Some (trim v)).
Proof.
  intros Hn Hsub. cbv zeta. unfold ccswitch_params. cbv zeta.
  assert (forall k, In k (map fst (ccswitch_head app [] [] [] [])) -> ~ In k (map fst models)) as Hhead.
  { intros k Hk Hm. by destruct (fields_apart app k (Hsub k Hm)) as [? _]. }
  assert (forall k, In k (map fst (ccswitch_head app [] [] [] [])) ->
            ~ In k (map fst (ccswitch_tail [] [] [] [] [])) ->
            mget k (foldl set_param (foldl set_model (foldl set_param [] (ccswitch_head app name key server base)) models)
                      (ccswitch_tail script name key server (primary_model models)))
            = mget k (foldl set_param [] (ccswitch_head app name key server base))) as Hget.
  { intros k H1 H2. rewrite set_params_other by (by rewrite tail_keys). by rewrite set_models_other by (by apply Hhead). }
  assert (forall k, k ∈ [js "apiKey"; js "endpoint"; js "app"; js "name"] ->
            In k (map fst (ccswitch_head app [] [] [] [])) /\ ~ In k (map fst (ccswitch_tail [] [] [] [] []))) as Hk.
  { intros k. rewrite <- !list_elem_of_In. revert k. apply Forall_forall.
    apply (bool_decide_unpack _). destruct app; vm_compute; exact I. }
  split; [|split; [|split; [|split; [|split]]]].
  - rewrite Hget by (apply Hk; set_solver). reflexivity.
  - unfold ccswitch_tail. cbn [foldl]. unfold set_param at 1 2 3 4. cbn [fst snd].
    do 3 rewrite mget_mset_ne by done. apply mget_mset.
  - rewrite Hget by (apply Hk; set_solver). reflexivity.
  - rewrite Hget by (apply Hk; set_solver). reflexivity.
  - rewrite Hget by (apply Hk; set_solver). reflexivity.
  - intros k v Hin Hv. rewrite set_params_other.
    + by apply set_models_get.
    + rewrite tail_keys. apply (fields_apart app k), Hsub. by apply (in_map fst _ (k, v)).
Qed.
