(* ===== verification/UsageLog.v ===== *)
(** * Usage logs of the customer site

    Model of src/web/customer/src/helpers/usage-log.ts: how an entry of the log
    becomes the lines that explain its cost, the tones of its times, and the
    numbers of the pager.  The calendar of the browser, its number format and
    the translation are parameters; the theorems are at the end. *)

From S2P Require Import Prelude JsStr JsNum JsArray JsJson Pricing Topup ParamOverride ApiKeys.

Local Open Scope Z_scope.

(** ** Times *)

(** The local parts of a time; months count from one. *)
Record LocalDate := mkDate { year : num; month : num; day : num; hours : num; minutes : num; secs : num }.

(** [`${value}`.padStart(2, "0")]. *)
Definition padDatePart (value : num) : jsstr :=
  let s := num_to_str value in replicate (2 - length s)%nat 48%N ++ s.

Definition toDateTimeLocalValue (date : LocalDate) : jsstr :=
  num_to_str (year date) ++ js "-" ++ padDatePart (month date) ++ js "-" ++ padDatePart (day date)
  ++ js "T" ++ padDatePart (hours date) ++ js ":" ++ padDatePart (minutes date).

Section Times.
  (** [new Date(ms)] in local parts, and [new Date(text).getTime()]. *)
  Variable local : num -> LocalDate.
  Variable parse_date : jsstr -> num.

(** The start of the day of [now], and [now]. *)
Definition getDefaultUsageDateTimes (now : num) : jsstr * jsstr :=
  let d := local now in
  (toDateTimeLocalValue (mkDate (year d) (month d) (day d) zero zero zero), toDateTimeLocalValue d).

Definition parseDateTimeTimestamp (value : jsstr) : num :=
  let timestamp := nfloor (ndiv (parse_date value) (num_of_Z 1000)) in
  if isFinite timestamp then timestamp else zero.

Definition getUnixRangeFromDateTimes (startDateTime endDateTime : jsstr) : num * num :=
  (parseDateTimeTimestamp startDateTime, parseDateTimeTimestamp endDateTime).

Definition formatUsageDateTime (timestamp : option num) : jsstr :=
  match timestamp with
  | Some x =>
      if ntruthy x then
        let d := local (nmul x (num_of_Z 1000)) in
        num_to_str (year d) ++ js "-" ++ padDatePart (month d) ++ js "-" ++ padDatePart (day d) ++ js " "
        ++ padDatePart (hours d) ++ js ":" ++ padDatePart (minutes d) ++ js ":" ++ padDatePart (secs d)
      else js "-"
  | None => js "-"
  end.
End Times.

(** ** Amounts *)

Definition formatQuotaMoneyDetailed (quota : option num) (status : option CustomerStatus) (digits : Z) : jsstr :=
  let numericQuota := default zero quota in
  if negb (ntruthy numericQuota) then js "$0"
  else js "$" ++ toFixed (ndiv numericQuota (getQuotaPerUnit status)) digits.

Definition formatCompactPrice (value : num) : jsstr :=
  if negb (isFinite value) then js "-"
  else drop_trailing (if nge (nabs value) one then toFixed value 2 else toFixed value 6).

Definition formatDuration (seconds : option num) : jsstr :=
  let value := default zero seconds in
  if negb (isFinite value) || nle value zero then js "-"
  else if nlt value one then num_to_str (nround (nmul value (num_of_Z 1000))) ++ js "ms"
  else toFixed value 1 ++ js "s".

(** ** Fields of an entry *)

Record UsageLogEntry := mkLog {
  log_type : num; log_content : option jsstr; log_quota : option num; prompt_tokens : option num;
  request_id : option jsstr
}.

Definition LogOther := list (jsstr * json).

Definition parseLogOther (other : option jsstr) : LogOther :=
  match other with
  | Some s => if truthy s then match parse s with Some (JObj l) => l | _ => [] end else []
  | None => []
  end.

Definition getNumberValue (other : LogOther) (key : jsstr) : option num :=
  let numberValue := Number_json (jfield key (JObj other)) in
  if isFinite numberValue then Some numberValue else None.

Definition getBooleanValue (other : LogOther) (key : jsstr) : bool :=
  match jfield key (JObj other) with Some (JBool true) => true | _ => false end.

Definition getStringValue (other : LogOther) (key : jsstr) : option jsstr :=
  match jfield key (JObj other) with
  | Some (JStr s) => if truthy (trim s) then Some (trim s) else None
  | _ => None
  end.

Definition getCacheReadTokens (other : LogOther) : num := default zero (getNumberValue other (js "cache_tokens")).

Definition getCacheWriteTokens (other : LogOther) : num :=
  match getNumberValue other (js "cache_write_tokens") with
  | Some explicitTotal => explicitTotal
  | None =>
      let splitTotal := nadd (default zero (getNumberValue other (js "cache_creation_tokens_5m")))
                          (default zero (getNumberValue other (js "cache_creation_tokens_1h"))) in
      if ngt splitTotal zero then splitTotal
      else default zero (getNumberValue other (js "cache_creation_tokens"))
  end.

Definition getDisplayInputTokens (log : UsageLogEntry) (other : LogOther) : num :=
  match getNumberValue other (js "input_tokens_total") with
  | Some x => x
  | None => default zero (prompt_tokens log)
  end.

Definition getFirstResponseSeconds (other : LogOther) : option num :=
  let firstResponseMs := match getNumberValue other (js "frt") with
                         | Some x => Some x
                         | None => match getNumberValue other (js "first_response_time_ms") with
                                   | Some x => Some x
                                   | None => getNumberValue other (js "ttft_ms")
                                   end
                         end in
  match firstResponseMs with
  | Some x => if ntruthy x && ngt x zero then Some (ndiv x (num_of_Z 1000)) else None
  | None => None
  end.

Inductive Tone := neutral | success_tone | warning | danger_tone.

Definition getResponseTone (seconds : option num) (completionTokens : num) : Tone :=
  let value := default zero seconds in
  if negb (isFinite value) || nle value zero then neutral
  else if nge completionTokens (num_of_Z 100) then
    let tokensPerSecond := ndiv completionTokens value in
    if nge tokensPerSecond (num_of_Z 30) then success_tone
    else if nge tokensPerSecond (num_of_Z 15) then warning
    else danger_tone
  else if nlt value (num_of_Z 10) then success_tone
  else if nlt value (num_of_Z 30) then warning
  else danger_tone.

Definition getFirstResponseTone (seconds : option num) : Tone :=
  match seconds with
  | Some x =>
      if negb (ntruthy x) || negb (isFinite x) then neutral
      else if nlt x (num_of_Z 5) then success_tone
      else if nlt x (num_of_Z 10) then warning
      else danger_tone
  | None => neutral
  end.

(** The label and the tone of a type of entry. *)
Definition getLogTypeMeta (type : num) : jsstr * jsstr :=
  if neq type (num_of_Z 2) then (js "Consumption", js "success")
  else if neq type (num_of_Z 5) then (js "Error", js "danger")
  else if neq type (num_of_Z 6) then (js "Refund", js "warning")
  else if neq type (num_of_Z 1) then (js "Top-up", js "info")
  else (js "Other", js "muted").

Definition isViolationFeeLog (other : LogOther) : bool :=
  getBooleanValue other (js "violation_fee")
  || match getStringValue other (js "violation_fee_code") with Some _ => true | None => false end
  || match getStringValue other (js "violation_fee_marker") with Some _ => true | None => false end.

(** ** Lines *)

Record DetailSegment := mkSegment { text : jsstr; muted : bool; danger : bool }.

Definition plain (s : jsstr) : DetailSegment := mkSegment s false false.
Definition muted_text (s : jsstr) : DetailSegment := mkSegment s true false.
Definition alarm (s : jsstr) : DetailSegment := mkSegment s false true.

(** [if (s) segments.push(f(s))]. *)
Definition push_text (f : jsstr -> DetailSegment) (s : option jsstr) : list DetailSegment :=
  match s with Some s => if truthy s then [f s] else [] | None => [] end.

Section Lines.
  (** [localizeKey(language, key)], also with one value; and
      [Intl.NumberFormat("en-US").format(x)]. *)
  Variable t : jsstr -> jsstr.
  Variable t_value : jsstr -> jsstr -> jsstr.
  Variable en_US : num -> jsstr.

Definition formatInteger (value : option num) : jsstr := en_US (default zero value).

Definition getCacheSummary (other : LogOther) : jsstr :=
  let cacheReadTokens := getCacheReadTokens other in
  let cacheWriteTokens := getCacheWriteTokens other in
  join middot
    ((if ngt cacheReadTokens zero
      then [t_value (js "Cache read {{tokens}}") (formatInteger (Some cacheReadTokens))] else [])
     ++ (if ngt cacheWriteTokens zero
         then [t_value (js "Cache write {{tokens}}") (formatInteger (Some cacheWriteTokens))] else [])).

Definition getCacheTokenLine (other : LogOther) : jsstr := str_or (getCacheSummary other) (t (js "No cache")).

Definition getMappedModelSubline (other : LogOther) : jsstr :=
  match getStringValue other (js "upstream_model_name") with
  | Some upstreamModelName =>
      if negb (getBooleanValue other (js "is_model_mapped")) then []
      else t_value (js "Actual model: {{model}}") upstreamModelName
  | None => []
  end.

Definition violation_segments (log : UsageLogEntry) (other : LogOther) (status : option CustomerStatus)
    : list DetailSegment :=
  let fee := match getNumberValue other (js "fee_quota") with Some x => x | None => default zero (log_quota log) end in
  [alarm (t (js "Violation fee"))] ++ push_text muted_text (getStringValue other (js "violation_fee_code"))
  ++ [muted_text (t (js "Fee") ++ js ": " ++ formatQuotaMoneyDetailed (Some fee) status 6)].

Definition tiered_segments (other : LogOther) : list DetailSegment :=
  [plain (t (js "Dynamic pricing") ++ middot
          ++ or_text (getStringValue other (js "matched_tier")) (t (js "Matched tier")))]
  ++ push_text muted_text (Some (getCacheSummary other)).

(** The line of the price: per request, or by the ratios. *)
Definition price_segments (other : LogOther) : list DetailSegment :=
  let by_ratio :=
    match getNumberValue other (js "model_ratio") with
    | None => []
    | Some modelRatio =>
        let completionRatio := default zero (getNumberValue other (js "completion_ratio")) in
        let inputPrice := nmul modelRatio (num_of_Z 2) in
        let outputPrice := nmul inputPrice completionRatio in
        [plain (t (js "Standard") ++ middot ++ js "$" ++ formatCompactPrice inputPrice ++ js " / $"
                ++ formatCompactPrice outputPrice ++ js "/M")]
        ++ push_text muted_text (Some (getCacheSummary other))
    end in
  match getNumberValue other (js "model_price") with
  | Some modelPrice =>
      if nge modelPrice zero
      then [plain (t (js "Per request") ++ middot ++ js "$" ++ formatCompactPrice modelPrice)] else by_ratio
  | None => by_ratio
  end.

Definition subscription_segments (other : LogOther) : list DetailSegment :=
  match getStringValue other (js "billing_source") with
  | Some source =>
      if str_eqb source (js "subscription") then
        [muted_text (match getStringValue other (js "subscription_plan_title") with
                | Some planTitle => t (js "Subscription") ++ middot ++ planTitle
                | None => t (js "Subscription")
                end)]
        ++ (match getNumberValue other (js "subscription_consumed") with
            | Some consumed => [muted_text (t (js "Subscription used") ++ js ": " ++ formatInteger (Some consumed))]
            | None => []
            end)
        ++ (match getNumberValue other (js "subscription_remain"), getNumberValue other (js "subscription_total") with
            | Some remain, Some total =>
                [muted_text (t (js "Subscription remaining") ++ js ": " ++ formatInteger (Some remain) ++ js "/"
                        ++ formatInteger (Some total))]
            | _, _ => []
            end)
      else []
  | None => []
  end.

Definition consumption_segments (log : UsageLogEntry) (other : LogOther) : list DetailSegment :=
  let segments :=
    price_segments other ++ subscription_segments other
    ++ (if getBooleanValue other (js "is_system_prompt_overwritten") then [alarm (t (js "System prompt override"))]
        else [])
    ++ push_text muted_text (log_content log) ++ push_text muted_text (request_id log) in
  match segments with [] => [plain (t (js "Standard"))] | _ => segments end.

Definition buildBillingSegments (log : UsageLogEntry) (other : LogOther) (status : option CustomerStatus)
    : list DetailSegment :=
  if neq (log_type log) (num_of_Z 5) then [alarm (t (js "Error"))] ++ push_text muted_text (log_content log)
  else if neq (log_type log) (num_of_Z 6) then [plain (t (js "Async task refund"))] ++ push_text muted_text (log_content log)
  else if negb (neq (log_type log) (num_of_Z 2)) then push_text plain (log_content log)
  else if isViolationFeeLog other then violation_segments log other status
  else if bool_decide (getStringValue other (js "billing_mode") = Some (js "tiered_expr")) then tiered_segments other
  else consumption_segments log other.

End Lines.

(** ** The pager *)

Inductive PageItem := PageNo (n : Z) | EllipsisLeft | EllipsisRight.

(** Pages are integers. *)
Definition getPageItems (current total : Z) : list PageItem :=
  if total <=? 7 then map PageNo (seqZ 1 total)
  else
    let start := Z.max 2 (current - 1) in
    let end_ := Z.min (total - 1) (current + 1) in
    [PageNo 1] ++ (if 2 <? start then [EllipsisLeft] else [])
    ++ map PageNo (seqZ start (end_ - start + 1))
    ++ (if end_ <? total - 1 then [EllipsisRight] else []) ++ [PageNo total].

(** ** What the pager shows *)

(** Numbers in a row are neighbours, and an ellipsis stands for at least one
    page. *)
Fixpoint spaced (prev : Z) (l : list PageItem) : bool :=
  match l with
  | [] => true
  | PageNo n :: l => (n =? prev + 1) && spaced n l
  | _ :: PageNo n :: l => (prev + 1 <? n) && spaced n l
  | _ => false
  end.

(** The pager as one list: a row of neighbours from [a] to [b]. *)
Lemma spaced_row a k l :
  0 <= k -> spaced a (map PageNo (seqZ (a + 1) k) ++ l) = spaced (a + k) l.
Proof.
  intros Hk. revert a. pattern k. apply natlike_ind; [| |exact Hk].
  - intros a. cbn. by rewrite Z.add_0_r.
  - intros n Hn IH a. rewrite seqZ_cons by lia. replace (Z.pred (Z.succ n)) with n by lia.
    replace (Z.succ (a + 1)) with ((a + 1) + 1) by lia. cbn [map app spaced]. rewrite IH.
    replace (a + 1 =? a + 1) with true by (symmetry; apply Z.eqb_refl). cbn [andb]. f_equal. lia.
Qed.

Lemma row_has a k n : a <= n < a + k -> In (PageNo n) (map PageNo (seqZ a k)).
Proof. intros H. apply in_map, list_elem_of_In, elem_of_seqZ. lia. Qed.

(** For a page of the list the pager begins with the first page and ends
    with the last, shows the current page and its neighbours, never more than
    seven entries, and leaves out pages only where an ellipsis stands. *)
Theorem pager_exact current total :
  1 <= current <= total ->
  let items := getPageItems current total in
  (exists l, items = PageNo 1 :: l /\ spaced 1 l = true)
  /\ last items = Some (PageNo total)
  /\ (forall n, 1 <= n <= total -> current - 1 <= n <= current + 1 -> In (PageNo n) items)
  /\ (length items <= 7)%nat.
Proof.
  intros Hc. unfold getPageItems. cbv zeta. destruct (Z.leb_spec total 7) as [Ht|Ht].
  - split; [|split; [|split]].
    + exists (map PageNo (seqZ 2 (total - 1))). rewrite seqZ_cons by lia.
      replace (Z.pred total) with (total - 1) by lia. split; [done|].
      rewrite <- (app_nil_r (map _ _)). change 2 with (1 + 1). by rewrite spaced_row by lia.
    + replace total with ((total - 1) + 1) at 1 by lia. rewrite seqZ_app by lia. rewrite map_app.
      rewrite (seqZ_cons _ 1) by lia. cbn [map]. change (seqZ _ (Z.pred 1)) with (@nil Z). cbn [map].
      rewrite last_snoc. do 2 f_equal. lia.
    + intros n Hn _. apply row_has. lia.
    + rewrite length_map, length_seqZ. lia.
  - set (start := Z.max 2 (current - 1)). set (end_ := Z.min (total - 1) (current + 1)).
    assert (start <= end_ /\ 2 <= start /\ end_ <= total - 1 /\ end_ - start <= 2
            /\ (start <= 2 -> start = 2) /\ (2 < start -> start = current - 1)
            /\ (end_ < total - 1 -> end_ = current + 1)) as (H1 & H2 & H3 & H4 & H5 & H6 & H7) by lia.
    split; [|split; [|split]].
    + eexists. split; [reflexivity|].
      assert (forall a, spaced a (map PageNo (seqZ (a + 1) (end_ - a))
                 ++ (if end_ <? total - 1 then [EllipsisRight] else []) ++ [PageNo total]) = true
               \/ end_ < a) as Hrow.
      { intros a. destruct (Z.ltb_spec end_ a); [by right|left]. rewrite spaced_row by lia.
        replace (a + (end_ - a)) with end_ by lia.
        destruct (Z.ltb_spec end_ (total - 1)); cbn; apply andb_true_iff; split; try done;
          [apply Z.ltb_lt|apply Z.eqb_eq]; lia. }
      destruct (Z.ltb_spec 2 start).
      * rewrite seqZ_cons by lia. cbn [app map spaced]. apply andb_true_iff. split; [apply Z.ltb_lt; lia|].
        replace (Z.pred (end_ - start + 1)) with (end_ - start) by lia. replace (Z.succ start) with (start + 1) by lia.
        destruct (Hrow start); [done|lia].
      * assert (start = 2) as -> by lia. cbn [app]. replace (end_ - 2 + 1) with (end_ - 1) by lia.
        destruct (Hrow 1); [done|lia].
    + rewrite !app_assoc. by rewrite last_snoc.
    + intros n Hn Hnear. rewrite !in_app_iff.
      destruct (decide (n = 1)) as [->|Hn1]; [left; by left|].
      destruct (decide (n = total)) as [->|Hnt]; [right; right; right; right; by left|].
      right; right; left. apply row_has. lia.
    + rewrite !length_app, length_map, length_seqZ. repeat case_match; cbn [length]; lia.
Qed.

Lemma pager_exact_witness :
  getPageItems 5 20 = [PageNo 1; EllipsisLeft; PageNo 4; PageNo 5; PageNo 6; EllipsisRight; PageNo 20]
  /\ (length (getPageItems 5 20) <= 7)%nat.
Proof.
  split; [vm_compute; reflexivity|]. apply (pager_exact 5 20). split; discriminate.
Defined.

(** A consumption is always explained. *)
Theorem consumption_explained t t_value en_US log other status :
  neq (log_type log) (num_of_Z 2) = true -> buildBillingSegments t t_value en_US log other status <> [].
Proof.
  intros H. unfold buildBillingSegments. rewrite H. cbn [negb]. repeat case_match; try done.
  unfold consumption_segments. cbv zeta. by case_match.
Qed.

(** A price that is null counts as a price of zero per request. *)
Example null_price_per_request :
  buildBillingSegments (fun s => s) (fun s _ => s) num_to_str
    (mkLog (num_of_Z 2) None None None None)
    [(js "model_price", JNull); (js "model_ratio", JNum (num_of_Z 3))] None
  = [plain (js "Per request" ++ middot ++ js "$0")].
Proof. vm_compute. reflexivity. Qed.
