(* ===== verification/TierEditor.v ===== *)
(** * The tiered pricing editor

    Model of src/web/default/src/features/system-settings/models/tiered-pricing-editor.tsx:
    the preset templates, the number field with its draft text, the cards of the
    visual editor, the request rule cards, the token estimator's fields, and the
    [TieredPricingEditor] component with its effects and the two expressions of
    the price form it writes to.

    A component is a record of its state. The parent's two setters
    ([setBillingExpr], [setRequestRuleExpr]) are fields of [Host]. Between two
    renders the setters of a component are collected: an effect or a handler
    takes the values of the render it was created in and the values the next
    render will see. *)

From S2P Require Import Prelude JsStr JsRegex JsNum JsJson BillingExpr TierExpr.

Local Open Scope js_scope.

(** ** Presets *)

Record Preset := mkPreset {
  preset_key : jsstr;
  preset_label : jsstr;
  preset_expr : jsstr;
  preset_requestRules : option (list RequestRuleGroup)
}.

Record PresetGroup := mkPresetGroup {
  pg_group : jsstr;
  pg_presets : list Preset
}.

Definition GPT_5_4_EXPR : jsstr :=
  js "len <= 272000 ? " ++ tier_call (js "standard") (js "p * 2.5 + c * 15 + cr * 0.25") ++ js " : "
  ++ tier_call (js "long_context") (js "p * 5 + c * 22.5 + cr * 0.5").

Definition CLAUDE_OPUS_EXPR : jsstr :=
  tier_call (js "base") (js "p * 5 + c * 25 + cr * 0.5 + cc * 6.25 + cc1h * 10").

Definition weekday_rule (value : jsstr) : RequestRuleGroup :=
  mkRRG [CTime (mkTC (js "weekday") (js "Asia/Shanghai") MATCH_EQ value [] [])] (js "0.8").

Definition service_tier_rule (value multiplier : jsstr) : RequestRuleGroup :=
  mkRRG [CParamHeader (mkPH SrcParam (js "service_tier") MATCH_EQ value)] multiplier.

Definition PRESET_GROUPS : list PresetGroup := [
  mkPresetGroup (js "Fixed price") [
    mkPreset (js "flat") (js "Flat") (tier_call (js "base") (js "p * 2 + c * 4")) None;
    mkPreset (js "claude-opus") (js "Claude Opus 4.6") CLAUDE_OPUS_EXPR None;
    mkPreset (js "gpt-5.4") (js "GPT-5.4") GPT_5_4_EXPR None];
  mkPresetGroup (js "Tiered") [
    mkPreset (js "claude-sonnet") (js "Claude Sonnet 4.5")
      (js "len <= 200000 ? " ++ tier_call (js "standard") (js "p * 3 + c * 15 + cr * 0.3 + cc * 3.75 + cc1h * 6")
       ++ js " : " ++ tier_call (js "long_context") (js "p * 6 + c * 22.5 + cr * 0.6 + cc * 7.5 + cc1h * 12")) None;
    mkPreset (js "qwen3-max") (js "Qwen3 Max")
      (js "len <= 32000 ? " ++ tier_call (js "short") (js "p * 1.2 + c * 6 + cr * 0.24 + cc * 1.5")
       ++ js " : len <= 128000 ? " ++ tier_call (js "mid") (js "p * 2.4 + c * 12 + cr * 0.48 + cc * 3")
       ++ js " : " ++ tier_call (js "long") (js "p * 3 + c * 15 + cr * 0.6 + cc * 3.75")) None;
    mkPreset (js "glm-4.5-air") (js "GLM-4.5 Air")
      (js "len < 32000 && c < 200 ? " ++ tier_call (js "short_output") (js "p * 0.8 + c * 2 + cr * 0.16")
       ++ js " : len < 32000 && c >= 200 ? " ++ tier_call (js "long_output") (js "p * 0.8 + c * 6 + cr * 0.16")
       ++ js " : " ++ tier_call (js "mid_context") (js "p * 1.2 + c * 8 + cr * 0.24")) None;
    mkPreset (js "doubao-seed-1.8") (js "Doubao Seed 1.8")
      (js "len <= 32000 && c <= 200 ? " ++ tier_call (js "discount") (js "p * 0.8 + c * 2 + cr * 0.16 + cc * 0.17")
       ++ js " : len <= 32000 ? " ++ tier_call (js "short") (js "p * 0.8 + c * 8 + cr * 0.16 + cc * 0.17")
       ++ js " : len <= 128000 ? " ++ tier_call (js "mid") (js "p * 1.2 + c * 16 + cr * 0.16 + cc * 0.17")
       ++ js " : " ++ tier_call (js "long") (js "p * 2.4 + c * 24 + cr * 0.16 + cc * 0.17")) None];
  mkPresetGroup (js "Multimodal") [
    mkPreset (js "gpt-image-1-mini") (js "GPT Image 1 Mini")
      (tier_call (js "base") (js "p * 2 + c * 8 + img * 2.5")) None;
    mkPreset (js "gemini-2.5-flash") (js "Gemini 2.5 Flash")
      (tier_call (js "base") (js "p * 0.3 + c * 2.5 + cr * 0.03 + ai * 1.0")) None;
    mkPreset (js "gemini-3-pro-image") (js "Gemini 3 Pro Image")
      (tier_call (js "base") (js "p * 2 + c * 12 + img_o * 120")) None;
    mkPreset (js "qwen3-omni-flash") (js "Qwen3 Omni Flash")
      (tier_call (js "base") (js "p * 0.43 + c * 3.06 + img * 0.78 + ai * 3.81 + ao * 15.11")) None];
  mkPresetGroup (js "Request rule") [
    mkPreset (js "claude-opus-fast") (js "Claude Opus 4.6 Fast") CLAUDE_OPUS_EXPR
      (Some [mkRRG [CParamHeader (mkPH SrcHeader (js "anthropic-beta") MATCH_CONTAINS
                                       (js "fast-mode-2026-02-01"))] (js "6")]);
    mkPreset (js "gpt-5.4-tiers") (js "GPT-5.4 Priority/Flex") GPT_5_4_EXPR
      (Some [service_tier_rule (js "priority") (js "2"); service_tier_rule (js "flex") (js "0.5")])];
  mkPresetGroup (js "Time-based") [
    mkPreset (js "night-discount") (js "Night discount (50%)") (tier_call (js "base") (js "p * 3 + c * 15"))
      (Some [mkRRG [CTime (mkTC (js "hour") (js "Asia/Shanghai") MATCH_RANGE [] (js "21") (js "6"))] (js "0.5")]);
    mkPreset (js "weekend-discount") (js "Weekend discount (80%)") (tier_call (js "base") (js "p * 3 + c * 15"))
      (Some [weekday_rule (js "0"); weekday_rule (js "6")])]
].

(** [PresetSection]: the groups shown, and whether the button for more is. *)
Definition visible_presets (expanded : bool) : list PresetGroup :=
  if expanded then PRESET_GROUPS else take 2 PRESET_GROUPS.
Definition hasMore : bool := Nat.ltb 2 (length PRESET_GROUPS).

(** ** Numbers and their drafts *)

Definition price_vars (g : jsstr) : list BillingVar :=
  List.filter (fun v => bool_decide (bv_group v = Some g)) BILLING_EXTRA_VARS.
Definition CACHE_PRICE_VARS : list BillingVar := price_vars (js "cache").
Definition MEDIA_PRICE_VARS : list BillingVar := price_vars (js "media").

Definition CONDITION_INPUT_OPTIONS : list (jsstr * jsstr) :=
  [(js "len", js "Full input length"); (js "p", js "Billable input tokens");
   (js "c", js "Billable output tokens")].
Definition OPS : list jsstr := [js "<"; js "<="; js ">"; js ">="].

Definition unitCostToPrice (uc : num) : num := num_or uc zero.
Definition priceToUnitCost (price : num) : num := num_or price zero.

(** [Number(v)]. *)
Definition cond_number (v : CondValue) : num :=
  match v with CVNum n => n | CVStr s => num_of_str s end.

(** [locale] is [toLocaleString] of a number. *)
Definition formatTokenHint (locale : num -> jsstr) (n : option CondValue) : jsstr :=
  match n with
  | None => []
  | Some n =>
      if match n with CVStr [] => true | _ => false end || isNaN (cond_number n) then []
      else
        let v := cond_number n in
        if neq v zero then js "= 0"
        else if nge v (num_of_Z 1000000) then js "= " ++ locale (ndiv v (num_of_Z 1000000)) ++ js "M tokens"
        else if nge v (num_of_Z 1000) then js "= " ++ locale (ndiv v (num_of_Z 1000)) ++ js "K tokens"
        else js "= " ++ locale v ++ js " tokens"
  end.

Definition formatNumberDraft (value : CondValue) : jsstr :=
  match value with
  | CVStr s => s
  | CVNum n => if isFinite n then num_to_str n else js "0"
  end.

Definition parseNumberDraft (value : jsstr) : num :=
  if negb (truthy (trim value)) then zero
  else let next := num_of_str value in if isFinite next then next else zero.

Definition isZeroDraft (value : jsstr) : bool :=
  truthy (trim value) && neq (parseNumberDraft value) zero.

(** *** [DraftNumberInput] *)

Record DraftInput := mkDraft { di_draft : jsstr; di_focused : bool }.

Definition draft_mount (value : CondValue) : DraftInput := mkDraft (formatNumberDraft value) false.

(** The effect on [focused] and [value]. *)
Definition draft_effect (value : CondValue) (s : DraftInput) : DraftInput :=
  if di_focused s then s else mkDraft (formatNumberDraft value) (di_focused s).

(** The new state and the number handed to [onValueChange]. *)
Definition draft_handleChange (nextDraft : jsstr) (s : DraftInput) : DraftInput * num :=
  (mkDraft nextDraft (di_focused s), parseNumberDraft nextDraft).

(** The new state and whether the field's text is selected. *)
Definition draft_handleFocus (selectZeroOnFocus : bool) (s : DraftInput) : DraftInput * bool :=
  (mkDraft (di_draft s) true, selectZeroOnFocus && isZeroDraft (di_draft s)).

(** Whether the default action is prevented and the text selected. *)
Definition draft_handleMouseUp (selectZeroOnFocus : bool) (s : DraftInput) : bool :=
  selectZeroOnFocus && isZeroDraft (di_draft s).

Definition draft_handleBlur (s : DraftInput) : DraftInput * num :=
  let normalized := parseNumberDraft (di_draft s) in
  (mkDraft (num_to_str normalized) false, normalized).

(** ** The visual editor *)

(** *** [ConditionRow] *)

Definition condition_set_var (v : jsstr) (c : TierConditionInput) : TierConditionInput :=
  mkTCI v (tci_op c) (tci_value c).
Definition condition_set_op (op : jsstr) (c : TierConditionInput) : TierConditionInput :=
  mkTCI (tci_var c) op (tci_value c).
Definition condition_set_value (n : num) (c : TierConditionInput) : TierConditionInput :=
  mkTCI (tci_var c) (tci_op c) (Some (CVNum n)).

(** *** [VisualTierCard] *)

(** [xs.filter((_, i) => i !== index)]. *)
Fixpoint remove_index {A} (index : nat) (l : list A) : list A :=
  match l, index with
  | [], _ => []
  | _ :: t, O => t
  | x :: t, S i => x :: remove_index i t
  end.

(** [{ ...tier, conditions }]. *)
Definition tier_with_conditions (t : VisualTier) (cs : list TierConditionInput) : VisualTier :=
  mkVT (vt_label t) cs (vt_input t) (vt_output t) (vt_cache_mode t) (vt_costs t).

(** A field of the object that holds the optional costs. *)
Fixpoint set_cost (field : jsstr) (value : num) (costs : list (jsstr * num)) : list (jsstr * num) :=
  match costs with
  | [] => [(field, value)]
  | (f, v) :: rest =>
      if str_eqb f field then (f, value) :: rest else (f, v) :: set_cost field value rest
  end.

(** The cards hand over an index of the array. *)
Definition card_handleConditionChange (i : nat) (next : TierConditionInput) (t : VisualTier) : VisualTier :=
  tier_with_conditions t (<[i := next]> (vt_conditions t)).

Definition card_handleConditionRemove (i : nat) (t : VisualTier) : VisualTier :=
  tier_with_conditions t (remove_index i (vt_conditions t)).

Definition card_handlePriceChange (field : jsstr) (value : num) (t : VisualTier) : VisualTier :=
  if str_eqb field (js "input_unit_cost")
  then mkVT (vt_label t) (vt_conditions t) value (vt_output t) (vt_cache_mode t) (vt_costs t)
  else if str_eqb field (js "output_unit_cost")
  then mkVT (vt_label t) (vt_conditions t) (vt_input t) value (vt_cache_mode t) (vt_costs t)
  else mkVT (vt_label t) (vt_conditions t) (vt_input t) (vt_output t) (vt_cache_mode t)
            (set_cost field value (vt_costs t)).

Definition card_handleCacheModeChange (mode : jsstr) (t : VisualTier) : VisualTier :=
  mkVT (vt_label t) (vt_conditions t) (vt_input t) (vt_output t) mode
    (set_cost (js "cache_create_1h_unit_cost")
       (if str_eqb mode CACHE_MODE_TIMED
        then default zero (assoc (js "cache_create_1h_unit_cost") (vt_costs t)) else zero)
       (vt_costs t)).

Definition card_handleLabelChange (label : jsstr) (t : VisualTier) : VisualTier :=
  mkVT label (vt_conditions t) (vt_input t) (vt_output t) (vt_cache_mode t) (vt_costs t).

(** The price shown for a variable, and what its field writes. *)
Definition variable_price (v : BillingVar) (t : VisualTier) : num :=
  unitCostToPrice (default zero (assoc (default [] (bv_tierField v)) (vt_costs t))).
Definition price_field_change (v : BillingVar) (next : num) (t : VisualTier) : VisualTier :=
  card_handlePriceChange (default [] (bv_tierField v)) (priceToUnitCost next) t.

Definition hasMediaPricing (t : VisualTier) : bool :=
  existsb (fun v => ngt (variable_price v t) zero) MEDIA_PRICE_VARS.

(** The state [mediaOpen] and its effect. *)
Definition media_mount (t : VisualTier) : bool := hasMediaPricing t.
Definition media_effect (t : VisualTier) (mediaOpen : bool) : bool :=
  if hasMediaPricing t then true else mediaOpen.

Definition shown_cache_vars (t : VisualTier) : list BillingVar :=
  List.filter (fun v => negb (str_eqb (bv_key v) (js "cc1h")
                              && negb (str_eqb (getTierCacheMode (partial_tier t)) CACHE_MODE_TIMED)))
    CACHE_PRICE_VARS.

(** *** [VisualEditor] *)

Definition default_condition (v : jsstr) : TierConditionInput :=
  mkTCI v (js "<") (Some (CVNum (num_of_Z 200000))).

Definition editor_config (visualConfig : option (list VisualTier)) : list VisualTier :=
  normalizeVisualConfig visualConfig.

Definition handleTierChange (index : nat) (next : VisualTier) (tiers : list VisualTier) : list VisualTier :=
  <[index := normalizeVisualTier (partial_tier next)]> tiers.

(** The last tier, when it has no condition, gets one. *)
Fixpoint bound_last (tiers : list VisualTier) : list VisualTier :=
  match tiers with
  | [] => []
  | [t] =>
      match vt_conditions t with
      | [] => [normalizeVisualTier (partial_tier (tier_with_conditions t [default_condition (js "len")]))]
      | _ => [t]
      end
  | t :: rest => t :: bound_last rest
  end.

Definition handleAddTier (tiers : list VisualTier) : list VisualTier :=
  let tiers := bound_last tiers in
  tiers ++ [normalizeVisualTier
              (mkPT (Some (js "tier_" ++ num_to_str (num_of_nat (length tiers + 1)))) (Some [])
                    (Some zero) (Some zero) None [])].

Definition handleRemoveTier (index : nat) (tiers : list VisualTier) : list VisualTier :=
  match remove_index index tiers with [] => tiers | kept => kept end.

(** [None]: the handler returns without a change. *)
Definition handleAddCondition (index : nat) (tiers : list VisualTier) : outcome (option (list VisualTier)) :=
  match tiers !! index with
  | None => Throws (js "TypeError")
  | Some tier =>
      if Nat.leb 2 (length (vt_conditions tier)) then Returns None
      else
        let nextVar := if existsb (fun c => str_eqb (tci_var c) (js "len")) (vt_conditions tier)
                       then js "c" else js "len" in
        Returns (Some (<[index := tier_with_conditions tier (vt_conditions tier ++ [default_condition nextVar])]> tiers))
  end.

(** What a card hands to [onChange], and what the editor's buttons do. *)
Inductive CardEdit :=
| CardLabel (label : jsstr)
| CardCondition (i : nat) (next : TierConditionInput)
| CardConditionRemove (i : nat)
| CardInputPrice (n : num)
| CardOutputPrice (n : num)
| CardPrice (v : BillingVar) (n : num)
| CardCacheMode (mode : jsstr).

Definition card_edit (e : CardEdit) (t : VisualTier) : VisualTier :=
  match e with
  | CardLabel label => card_handleLabelChange label t
  | CardCondition i next => card_handleConditionChange i next t
  | CardConditionRemove i => card_handleConditionRemove i t
  | CardInputPrice n => card_handlePriceChange (js "input_unit_cost") (priceToUnitCost n) t
  | CardOutputPrice n => card_handlePriceChange (js "output_unit_cost") (priceToUnitCost n) t
  | CardPrice v n => price_field_change v n t
  | CardCacheMode mode => card_handleCacheModeChange mode t
  end.

Inductive VisualEdit :=
| EditCard (index : nat) (e : CardEdit)
| EditAddTier
| EditRemoveTier (index : nat)
| EditAddCondition (index : nat).

(** The tiers after an edit; [None] when [onChange] is not called. *)
Definition visual_edit (e : VisualEdit) (tiers : list VisualTier) : outcome (option (list VisualTier)) :=
  match e with
  | EditCard index c =>
      match tiers !! index with
      | Some t => Returns (Some (handleTierChange index (card_edit c t) tiers))
      | None => Returns None
      end
  | EditAddTier => Returns (Some (handleAddTier tiers))
  | EditRemoveTier index =>
      if Nat.leb (length tiers) 1 then Returns None else Returns (Some (handleRemoveTier index tiers))
  | EditAddCondition index => handleAddCondition index tiers
  end.

(** ** Request rules *)

(** *** [RuleConditionRow] *)

Definition rule_source (c : RequestCondition) : jsstr :=
  match c with
  | CTime _ => SOURCE_TIME
  | CParamHeader p => match ph_source p with SrcParam => SOURCE_PARAM | SrcHeader => SOURCE_HEADER end
  end.

(** [None]: no call of [onChange]. *)
Definition row_handleSourceChange (source : jsstr) : option RequestCondition :=
  if str_eqb source SOURCE_TIME then Some (CTime createEmptyTimeCondition)
  else if str_eqb source SOURCE_HEADER
  then Some (CParamHeader (mkPH SrcHeader (ph_path createEmptyCondition) (ph_mode createEmptyCondition)
                                (ph_value createEmptyCondition)))
  else if str_eqb source SOURCE_PARAM
  then Some (CParamHeader (mkPH SrcParam (ph_path createEmptyCondition) (ph_mode createEmptyCondition)
                                (ph_value createEmptyCondition)))
  else None.

Definition row_handleModeChange (mode : jsstr) (c : RequestCondition) : RequestCondition :=
  match c with
  | CTime t => CTime (mkTC (tc_timeFunc t) (tc_timezone t) mode (tc_value t) (tc_rangeStart t) (tc_rangeEnd t))
  | CParamHeader p => CParamHeader (mkPH (ph_source p) (ph_path p) mode (ph_value p))
  end.

(** The fields of a time condition. *)
Inductive TimeField := TFunc | TZone | TRangeStart | TRangeEnd | TValue.

Definition row_set_time (f : TimeField) (v : jsstr) (t : TimeCondition) : TimeCondition :=
  match f with
  | TFunc => mkTC v (tc_timezone t) (tc_mode t) (tc_value t) (tc_rangeStart t) (tc_rangeEnd t)
  | TZone => mkTC (tc_timeFunc t) v (tc_mode t) (tc_value t) (tc_rangeStart t) (tc_rangeEnd t)
  | TRangeStart => mkTC (tc_timeFunc t) (tc_timezone t) (tc_mode t) (tc_value t) v (tc_rangeEnd t)
  | TRangeEnd => mkTC (tc_timeFunc t) (tc_timezone t) (tc_mode t) (tc_value t) (tc_rangeStart t) v
  | TValue => mkTC (tc_timeFunc t) (tc_timezone t) (tc_mode t) v (tc_rangeStart t) (tc_rangeEnd t)
  end.

(** The number fields write [String(value)]. *)
Definition row_set_time_number (f : TimeField) (n : num) (t : TimeCondition) : TimeCondition :=
  row_set_time f (num_to_str n) t.

Definition row_set_path (v : jsstr) (p : ParamHeaderCondition) : ParamHeaderCondition :=
  mkPH (ph_source p) v (ph_mode p) (ph_value p).
Definition row_set_value (v : jsstr) (p : ParamHeaderCondition) : ParamHeaderCondition :=
  mkPH (ph_source p) (ph_path p) (ph_mode p) v.

Definition getMatchLabel (mode : jsstr) : jsstr :=
  if str_eqb mode MATCH_EQ then js "Equals"
  else if str_eqb mode MATCH_CONTAINS then js "Contains"
  else if str_eqb mode MATCH_EXISTS then js "Exists"
  else if str_eqb mode MATCH_GT then js "Greater than"
  else if str_eqb mode MATCH_GTE then js "Greater than or equal"
  else if str_eqb mode MATCH_LT then js "Less than"
  else if str_eqb mode MATCH_LTE then js "Less than or equal"
  else if str_eqb mode MATCH_RANGE then js "Overnight range"
  else mode.

Definition getTimeFuncLabel (timeFunc : jsstr) : jsstr :=
  if str_eqb timeFunc (js "hour") then js "Hour of day"
  else if str_eqb timeFunc (js "minute") then js "Minute"
  else if str_eqb timeFunc (js "weekday") then js "Weekday"
  else if str_eqb timeFunc (js "month") then js "Month number"
  else if str_eqb timeFunc (js "day") then js "Day of month"
  else timeFunc.

(** *** [RuleGroupCard] *)

Definition group_handleConditionChange (i : nat) (next : RequestCondition) (g : RequestRuleGroup)
    : RequestRuleGroup :=
  mkRRG (<[i := next]> (rg_conditions g)) (rg_multiplier g).

Definition group_removeCondition (i : nat) (g : RequestRuleGroup) : RequestRuleGroup :=
  mkRRG (remove_index i (rg_conditions g)) (rg_multiplier g).

Definition group_handleAddCondition (timeMode : bool) (g : RequestRuleGroup) : RequestRuleGroup :=
  mkRRG (rg_conditions g ++ [if timeMode then CTime createEmptyTimeCondition
                             else CParamHeader createEmptyCondition])
        (rg_multiplier g).

Definition group_setMultiplier (n : num) (g : RequestRuleGroup) : RequestRuleGroup :=
  mkRRG (rg_conditions g) (num_to_str n).

(** ** The token estimator's fields *)

(** [field.replace('Price', 'Tokens')]: the first occurrence. *)
Definition stateKey (field : jsstr) : jsstr :=
  match indexOf (js "Price") field with
  | Some i => take i field ++ js "Tokens" ++ drop (i + 5) field
  | None => field
  end.

Definition initial_extras : list (jsstr * num) := map (fun kv => (kv.2, zero)) ESTIMATOR_VARS.

(** The fields rendered: the label, the key and the number shown. *)
Definition estimator_fields (effective : jsstr) (extras : list (jsstr * num)) : list (jsstr * jsstr * option num) :=
  if exprUsesExtraVars effective
  then omap (fun v => match bv_field v with
                      | None => None
                      | Some f => Some (bv_shortLabel v, stateKey f, assoc (stateKey f) extras)
                      end) BILLING_EXTRA_VARS
  else [].

Definition set_extra (key : jsstr) (value : num) (extras : list (jsstr * num)) : list (jsstr * num) :=
  set_cost key value extras.

(** ** [TieredPricingEditor] *)

Inductive EditorMode := VisualMode | RawMode.

#[export] Instance editor_mode_eq_dec : EqDecision EditorMode.
Proof. solve_decision. Defined.

(** [te_groups_ref] is the identity of the array of rule groups: every setter
    call stores a new array. *)
Record TEState := mkTES {
  te_mode : EditorMode;
  te_config : option (list VisualTier);
  te_raw : jsstr;
  te_groups : list RequestRuleGroup;
  te_groups_ref : nat
}.

(** The model name and the two expressions of the price form around the editor. *)
Record Host := mkHost {
  host_name : jsstr;
  host_expr : jsstr;
  host_rules : jsstr
}.

Record TierEditor := mkTE {
  te_state : TEState;
  te_host : Host;
  te_initRef : bool
}.

Definition te_set_mode (m : EditorMode) (s : TEState) : TEState :=
  mkTES m (te_config s) (te_raw s) (te_groups s) (te_groups_ref s).
Definition te_set_config (c : option (list VisualTier)) (s : TEState) : TEState :=
  mkTES (te_mode s) c (te_raw s) (te_groups s) (te_groups_ref s).
Definition te_set_raw (r : jsstr) (s : TEState) : TEState :=
  mkTES (te_mode s) (te_config s) r (te_groups s) (te_groups_ref s).
Definition te_set_groups (g : list RequestRuleGroup) (s : TEState) : TEState :=
  mkTES (te_mode s) (te_config s) (te_raw s) g (S (te_groups_ref s)).

Definition onBillingExprChange (next : jsstr) (h : Host) : Host := mkHost (host_name h) next (host_rules h).
Definition onRequestRuleExprChange (next : jsstr) (h : Host) : Host := mkHost (host_name h) (host_expr h) next.

(** The first render. *)
Definition te_mount (h : Host) : outcome TierEditor :=
  let! groups := tryParseRequestRuleExpr (host_rules h) in
  Returns (mkTE (mkTES VisualMode (tryParseVisualConfig (Some (host_expr h)))
                       (combineBillingExpr (host_expr h) (host_rules h)) (default [] groups) 0)
                h false).

Definition canUseVisualRules (rules : jsstr) : outcome bool :=
  if negb (truthy rules) then Returns true
  else let! g := tryParseRequestRuleExpr rules in
       Returns (match g with Some _ => true | None => false end).

Definition effectiveExpr (s : TEState) : outcome jsstr :=
  match te_mode s with
  | VisualMode => Returns (generateExprFromVisualConfig (te_config s))
  | RawMode => let! r := splitBillingExprAndRequestRules (te_raw s) in Returns r.1
  end.

(** *** The effects *)

(** What the effects depend on, and what a render computes for them. *)
Record RenderDeps := mkRD {
  rd_name : jsstr;
  rd_expr : jsstr;
  rd_rules : jsstr;
  rd_effective : jsstr;
  rd_mode : EditorMode;
  rd_groups_ref : nat
}.

#[export] Instance render_deps_eq_dec : EqDecision RenderDeps.
Proof. solve_decision. Defined.

Definition te_render (e : TierEditor) : outcome RenderDeps :=
  let! _ := canUseVisualRules (host_rules (te_host e)) in
  let! eff := effectiveExpr (te_state e) in
  Returns (mkRD (host_name (te_host e)) (host_expr (te_host e)) (host_rules (te_host e)) eff
                (te_mode (te_state e)) (te_groups_ref (te_state e))).

(** The first effect; [cur] is the render it belongs to, [next] collects. *)
Definition initEffect (cur next : TierEditor) : outcome TierEditor :=
  if te_initRef next then Returns next
  else
    let currentExpr := host_expr (te_host cur) in
    let currentRules := host_rules (te_host cur) in
    let s := match tryParseVisualConfig (Some currentExpr) with
             | Some parsed => te_set_mode VisualMode (te_set_config (Some parsed) (te_state next))
             | None => if truthy currentExpr then te_set_mode RawMode (te_set_config None (te_state next))
                       else te_set_config (Some createDefaultVisualConfig) (te_state next)
             end in
    let! groups := tryParseRequestRuleExpr currentRules in
    Returns (mkTE (te_set_groups (default [] groups) (te_set_raw (combineBillingExpr currentExpr currentRules) s))
                  (te_host next) true).

(** The second one: another model name lets the first one run again. *)
Definition resetEffect (next : TierEditor) : TierEditor := mkTE (te_state next) (te_host next) false.

Definition billingEffect (d : RenderDeps) (next : TierEditor) : TierEditor :=
  if str_eqb (rd_effective d) (rd_expr d) then next
  else mkTE (te_state next) (onBillingExprChange (rd_effective d) (te_host next)) (te_initRef next).

Definition ruleEffect (d : RenderDeps) (cur next : TierEditor) : TierEditor :=
  match rd_mode d with
  | RawMode => next
  | VisualMode =>
      let ruleExpr := buildRequestRuleExpr (te_groups (te_state cur)) in
      if str_eqb ruleExpr (rd_rules d) then next
      else mkTE (te_state next) (onRequestRuleExprChange ruleExpr (te_host next)) (te_initRef next)
  end.

(** Whether one of the dependencies [f] of an effect differs from the last
    render's; on the first te_render every effect runs. *)
Definition changed {A} `{EqDecision A} (f : RenderDeps -> A) (seen : option RenderDeps) (d : RenderDeps) : bool :=
  match seen with
  | None => true
  | Some p => negb (bool_decide (f p = f d))
  end.

(** The effects of one render, in the order they are declared. *)
Definition run_effects (seen : option RenderDeps) (d : RenderDeps) (cur : TierEditor) : outcome TierEditor :=
  let! n1 := if changed (fun d => (rd_expr d, rd_rules d)) seen d then initEffect cur cur else Returns cur in
  let n2 := if changed rd_name seen d then resetEffect n1 else n1 in
  let n3 := if changed (fun d => (rd_effective d, rd_expr d)) seen d then billingEffect d n2 else n2 in
  Returns (if changed (fun d => (rd_mode d, rd_groups_ref d, rd_rules d)) seen d
           then ruleEffect d cur n3 else n3).

(** Renders until one has the dependencies of the one before, so that no effect
    runs; [None] when the fuel is used up. *)
Fixpoint te_settle (fuel : nat) (seen : option RenderDeps) (cur : TierEditor)
    : outcome (option (RenderDeps * TierEditor)) :=
  match fuel with
  | O => Returns None
  | S f =>
      let! d := te_render cur in
      if bool_decide (seen = Some d) then Returns (Some (d, cur))
      else let! next := run_effects seen d cur in te_settle f (Some d) next
  end.

(** *** The handlers *)

Definition handleVisualChange (next : list VisualTier) (e : TierEditor) : TierEditor :=
  mkTE (te_set_config (Some next) (te_state e)) (te_host e) (te_initRef e).

Definition handleRawChange (value : jsstr) (e : TierEditor) : outcome TierEditor :=
  let! r := splitBillingExprAndRequestRules value in
  Returns (mkTE (te_set_raw value (te_state e)) (onRequestRuleExprChange r.2 (te_host e)) (te_initRef e)).

Definition te_handleModeChange (next : EditorMode) (e : TierEditor) : outcome TierEditor :=
  let s := te_state e in
  match next with
  | VisualMode =>
      let! r := splitBillingExprAndRequestRules (te_raw s) in
      let config := match tryParseVisualConfig (Some r.1) with
                    | Some parsed => parsed
                    | None => createDefaultVisualConfig
                    end in
      let! parsedGroups := tryParseRequestRuleExpr r.2 in
      Returns (mkTE (te_set_mode VisualMode (te_set_groups (default [] parsedGroups) (te_set_config (Some config) s)))
                    (onRequestRuleExprChange r.2 (te_host e)) (te_initRef e))
  | RawMode =>
      let expr := generateExprFromVisualConfig (te_config s) in
      let ruleExpr := buildRequestRuleExpr (te_groups s) in
      Returns (mkTE (te_set_mode RawMode (te_set_raw (str_or (combineBillingExpr expr ruleExpr) expr) s))
                    (te_host e) (te_initRef e))
  end.

Definition applyPreset (preset : Preset) (e : TierEditor) : TierEditor :=
  let presetGroups := default [] (preset_requestRules preset) in
  let ruleExpr := buildRequestRuleExpr presetGroups in
  let combined := str_or (combineBillingExpr (preset_expr preset) ruleExpr) (preset_expr preset) in
  let s := te_set_raw combined (te_state e) in
  let s := match tryParseVisualConfig (Some (preset_expr preset)) with
           | Some parsed => te_set_mode VisualMode (te_set_config (Some parsed) s)
           | None => te_set_config None (te_set_mode RawMode s)
           end in
  mkTE (te_set_groups presetGroups s) (onRequestRuleExprChange ruleExpr (te_host e)) (te_initRef e).

Definition handleRuleGroupsChange (next : list RequestRuleGroup) (e : TierEditor) : TierEditor :=
  mkTE (te_set_groups next (te_state e)) (te_host e) (te_initRef e).

(** The buttons around the rule cards. *)
Definition te_changeGroup (i : nat) (next : RequestRuleGroup) (e : TierEditor) : TierEditor :=
  handleRuleGroupsChange (<[i := next]> (te_groups (te_state e))) e.
Definition te_removeGroup (i : nat) (e : TierEditor) : TierEditor :=
  handleRuleGroupsChange (remove_index i (te_groups (te_state e))) e.
Definition te_addGroup (e : TierEditor) : TierEditor :=
  handleRuleGroupsChange (te_groups (te_state e) ++ [createEmptyRuleGroup]) e.

(** What the user does to the editor, and a new model name in the form. *)
Inductive TEEvent :=
| TEVisual (next : list VisualTier)
| TERaw (value : jsstr)
| TEMode (next : EditorMode)
| TEPreset (preset : Preset)
| TEGroups (next : list RequestRuleGroup)
| TEName (name : jsstr).

Definition te_handle (ev : TEEvent) (e : TierEditor) : outcome TierEditor :=
  match ev with
  | TEVisual next => Returns (handleVisualChange next e)
  | TERaw value => handleRawChange value e
  | TEMode next => te_handleModeChange next e
  | TEPreset preset => Returns (applyPreset preset e)
  | TEGroups next => Returns (handleRuleGroupsChange next e)
  | TEName name => Returns (mkTE (te_state e) (mkHost name (host_expr (te_host e)) (host_rules (te_host e)))
                                 (te_initRef e))
  end.

(** The renders a mount or an event needs before the editor rests. *)
Definition TE_RENDERS : nat := 6.

(** The editor once it is open, and after an event. *)
Definition te_open (h : Host) : outcome (option (RenderDeps * TierEditor)) :=
  let! e := te_mount h in te_settle TE_RENDERS None e.

Definition te_step (ev : TEEvent) (rested : RenderDeps * TierEditor)
    : outcome (option (RenderDeps * TierEditor)) :=
  let! e := te_handle ev rested.2 in te_settle TE_RENDERS (Some rested.1) e.
