(* ===== verification/TierEditorProps.v ===== *)
(** * The tiered pricing editor: the properties

    The cards keep the configuration well formed; the effects of the component
    come to rest after at most six renders, and at rest the price form holds
    what the editor shows; what opening the editor does to an expression it can
    read, and to one it cannot. *)

From S2P Require Import Prelude JsStr JsRegex JsNum JsJson BillingExpr BillingSplit BillingRoundTrip BillingRules BillingProps TierExpr TierProps TierEditor.

Local Open Scope js_scope.

(** ** The cards *)

Lemma remove_index_length {A} i (l : list A) :
  length (remove_index i l) = if Nat.ltb i (length l) then length l - 1 else length l.
Proof.
  revert i. induction l as [|x l IH]; intros [|i]; cbn [remove_index length]; try done.
  - change (Nat.ltb 0 (S (length l))) with true. cbn iota. lia.
  - rewrite IH. change (Nat.ltb (S i) (S (length l))) with (Nat.ltb i (length l)).
    destruct (Nat.ltb_spec i (length l)); lia.
Qed.

Lemma Forall_remove_index {A} (P : A -> Prop) i l : Forall P l -> Forall P (remove_index i l).
Proof. intros H. revert i. induction H as [|x l Hx Hl IH]; intros [|i]; cbn [remove_index]; eauto. Qed.

(** A tier as the editor keeps it: every optional cost is there and is a number,
    and there are at most two conditions. *)
Definition tier_ok (t : VisualTier) : Prop :=
  map fst (vt_costs t) = NORMALIZED_FIELDS
  /\ Forall (fun c => isNaN c.2 = false) (vt_costs t)
  /\ length (vt_conditions t) <= 2.

Definition tiers_ok (ts : list VisualTier) : Prop := ts <> [] /\ Forall tier_ok ts.

Lemma num_or_not_nan x : isNaN (num_or x zero) = false.
Proof. by destruct x. Qed.

Lemma normalize_ok p :
  length (default [] (p_conditions p)) <= 2 -> tier_ok (normalizeVisualTier p).
Proof.
  intros H. split; [reflexivity|]. split; [|exact H].
  unfold normalizeVisualTier, NORMALIZED_FIELDS. cbn [vt_costs map].
  repeat (apply Forall_cons; split; [apply num_or_not_nan|]). apply Forall_nil. exact I.
Qed.

Lemma card_conditions e t :
  length (vt_conditions (card_edit e t)) <= length (vt_conditions t).
Proof.
  destruct e; cbn [card_edit]; try reflexivity.
  - unfold card_handleConditionChange. cbn [tier_with_conditions vt_conditions]. by rewrite length_insert.
  - unfold card_handleConditionRemove. cbn [tier_with_conditions vt_conditions]. rewrite remove_index_length.
    destruct (Nat.ltb i _); lia.
  - unfold price_field_change, card_handlePriceChange. by repeat case_match.
Qed.

Lemma bound_last_ok ts : Forall tier_ok ts -> Forall tier_ok (bound_last ts).
Proof.
  induction 1 as [|t ts Ht Hts IH]; [constructor|]. cbn [bound_last].
  destruct ts as [|t' ts]; [|by constructor].
  destruct (vt_conditions t); [|by constructor]. constructor; [|constructor].
  apply normalize_ok. cbn. lia.
Qed.

Lemma bound_last_length ts : length (bound_last ts) = length ts.
Proof.
  induction ts as [|t ts IH]; [done|]. cbn [bound_last]. destruct ts as [|t' ts].
  - by destruct (vt_conditions t).
  - cbn [length] in *. by rewrite IH.
Qed.

(** Whatever is done to the cards of the visual editor, there is a tier, no
    tier gets a third condition, and every optional unit cost of every tier is
    present and a number other than NaN. *)
Theorem visual_edits_ok e ts ts' :
  tiers_ok ts -> visual_edit e ts = Returns (Some ts') -> tiers_ok ts'.
Proof.
  intros [Hne Hts]. destruct e as [i c| |i|i]; cbn [visual_edit].
  - destruct (ts !! i) as [t|] eqn:Ht; [|done]. intros [= <-].
    unfold handleTierChange. split.
    + intros Hz. apply (f_equal length) in Hz. rewrite length_insert in Hz. by destruct ts.
    + apply Forall_insert; [done|]. apply normalize_ok. cbn [partial_tier p_conditions default from_option Datatypes.id].
      pose proof (Forall_lookup_1 _ _ _ _ Hts Ht) as (_ & _ & H2). pose proof (card_conditions c t). lia.
  - intros [= <-]. unfold handleAddTier. split.
    + by destruct (bound_last ts).
    + apply Forall_app. split; [by apply bound_last_ok|]. constructor; [|constructor]. apply normalize_ok. cbn. lia.
  - destruct (Nat.leb (length ts) 1); [done|]. intros [= <-].
    unfold handleRemoveTier. pose proof (Forall_remove_index tier_ok i ts Hts) as Hr.
    by destruct (remove_index i ts).
  - unfold handleAddCondition. destruct (ts !! i) as [t|] eqn:Ht; [|done].
    destruct (Nat.leb_spec 2 (length (vt_conditions t))); [done|].
    intros [= <-]. split.
    + intros Hz. apply (f_equal length) in Hz. rewrite length_insert in Hz. by destruct ts.
    + apply Forall_insert; [done|]. pose proof (Forall_lookup_1 _ _ _ _ Hts Ht) as (H1 & H2 & H3).
      split; [exact H1|]. split; [exact H2|]. cbn [tier_with_conditions vt_conditions]. rewrite length_app. cbn. lia.
Qed.

Definition two_tiers : list VisualTier := handleAddTier createDefaultVisualConfig.

Lemma tiers_ok_two : tiers_ok two_tiers.
Proof.
  split; [discriminate|]. repeat (apply Forall_cons; split; [|]); try apply Forall_nil; try exact I;
    (split; [reflexivity|]; split; [|cbn; lia]); repeat (apply Forall_cons; split; [reflexivity|]); apply Forall_nil; exact I.
Qed.

Lemma visual_edits_ok_witness :
  tiers_ok two_tiers
  /\ tiers_ok (handleTierChange 0 (card_edit (CardConditionRemove 0) (nth 0 two_tiers (mkVT [] [] nan nan [] []))) two_tiers).
Proof.
  split; [apply tiers_ok_two|].
  apply (visual_edits_ok (EditCard 0 (CardConditionRemove 0)) two_tiers); [apply tiers_ok_two|]. reflexivity.
Defined.

(** ** Fallback tiers *)

(** Only the last tier may be without a condition. *)
Fixpoint only_last_falls_back (ts : list VisualTier) : bool :=
  match ts with
  | [] | [_] => true
  | t :: rest => match vt_conditions t with [] => false | _ => only_last_falls_back rest end
  end.

Definition bounded (t : VisualTier) : bool := match vt_conditions t with [] => false | _ => true end.

Lemma bound_last_bounded ts : only_last_falls_back ts = true -> forallb bounded (bound_last ts) = true.
Proof.
  induction ts as [|t ts IH]; [done|]. destruct ts as [|t' ts].
  - intros _. unfold bounded. cbn [bound_last]. destruct (vt_conditions t) eqn:E; cbn [forallb]; [reflexivity|].
    by rewrite E.
  - cbn [only_last_falls_back]. destruct (vt_conditions t) as [|c cs] eqn:E; [done|].
    change (only_last_falls_back (t' :: ts) = true -> forallb bounded (t :: bound_last (t' :: ts)) = true).
    intros H. cbn [forallb]. rewrite IH by done. unfold bounded. by rewrite E.
Qed.

Lemma bounded_then ts t : forallb bounded ts = true -> only_last_falls_back (ts ++ [t]) = true.
Proof.
  induction ts as [|u ts IH]; [done|]. cbn [forallb app]. rewrite andb_true_iff. intros [Hu Hts].
  specialize (IH Hts). unfold bounded in Hu. destruct (ts ++ [t]) eqn:E; [done|]. cbn [only_last_falls_back].
  by destruct (vt_conditions u).
Qed.

(** Adding a tier keeps the fallback last: the tier that was the fallback gets an
    upper bound. *)
Theorem add_tier_keeps_fallback ts :
  only_last_falls_back ts = true -> only_last_falls_back (handleAddTier ts) = true.
Proof. intros H. unfold handleAddTier. by apply bounded_then, bound_last_bounded. Qed.

(** Taking the only condition away from a tier that is not the last leaves a
    colon without a question mark: two [tier] calls side by side. *)
Theorem removed_condition_breaks t1 t2 c :
  vt_conditions t1 = [c] ->
  exists ts, visual_edit (EditCard 0 (CardConditionRemove 0)) [t1; t2] = Returns (Some ts)
    /\ generateExprFromVisualConfig (Some ts)
       = tier_call (str_or (vt_label t1) (js "tier_1")) (buildTierBodyExpr (normalizeVisualTier (partial_tier t1)))
         ++ js " : " ++ tier_call (str_or (vt_label t2) (js "tier_2")) (buildTierBodyExpr t2).
Proof.
  intros Hc. eexists. split; [reflexivity|]. unfold handleTierChange, card_edit, card_handleConditionRemove.
  rewrite Hc. reflexivity.
Qed.

(** ** The effects come to rest *)

Lemma render_inv e d :
  te_render e = Returns d ->
  rd_name d = host_name (te_host e) /\ rd_expr d = host_expr (te_host e) /\ rd_rules d = host_rules (te_host e)
  /\ rd_mode d = te_mode (te_state e) /\ rd_groups_ref d = te_groups_ref (te_state e)
  /\ effectiveExpr (te_state e) = Returns (rd_effective d).
Proof.
  unfold te_render. destruct (canUseVisualRules _); [|done]. cbn [obind].
  destruct (effectiveExpr (te_state e)) as [eff|]; [|done]. cbn [obind]. by intros [= <-].
Qed.

Lemma changed_same {A} `{EqDecision A} (f : RenderDeps -> A) p d : f p = f d -> changed f (Some p) d = false.
Proof. intros H. unfold changed. by rewrite bool_decide_true. Qed.

Lemma changed_other {A} `{EqDecision A} (f : RenderDeps -> A) p d : f p <> f d -> changed f (Some p) d = true.
Proof. intros H. unfold changed. by rewrite bool_decide_false. Qed.

Lemma changed_false {A} `{EqDecision A} (f : RenderDeps -> A) p d : changed f (Some p) d = false -> f p = f d.
Proof. unfold changed. by intros ?%negb_false_iff%bool_decide_eq_true. Qed.

(** The dependencies of the four effects. *)
Abbreviation dep_init := (fun d => (rd_expr d, rd_rules d)).
Abbreviation dep_billing := (fun d => (rd_effective d, rd_expr d)).
Abbreviation dep_rule := (fun d => (rd_mode d, rd_groups_ref d, rd_rules d)).

(** The form after the last two effects. *)
Definition pushed (seen : option RenderDeps) (d : RenderDeps) (cur : TierEditor) : Host :=
  mkHost (host_name (te_host cur))
    (if changed dep_billing seen d then rd_effective d else host_expr (te_host cur))
    (if changed dep_rule seen d
     then match rd_mode d with
          | VisualMode => buildRequestRuleExpr (te_groups (te_state cur))
          | RawMode => host_rules (te_host cur)
          end
     else host_rules (te_host cur)).

Lemma billing_host d n :
  rd_expr d = host_expr (te_host n) ->
  te_host (billingEffect d n) = onBillingExprChange (rd_effective d) (te_host n).
Proof.
  intros H. unfold billingEffect. destruct (str_eqb _ _) eqn:E; [|done].
  apply str_eqb_eq in E. unfold onBillingExprChange. rewrite E, H. by destruct (te_host n).
Qed.

Lemma rule_host d cur n :
  rd_rules d = host_rules (te_host n) ->
  te_host (ruleEffect d cur n)
  = onRequestRuleExprChange (match rd_mode d with
                             | VisualMode => buildRequestRuleExpr (te_groups (te_state cur))
                             | RawMode => host_rules (te_host n)
                             end) (te_host n).
Proof.
  intros H. unfold ruleEffect, onRequestRuleExprChange. destruct (rd_mode d); [|by destruct (te_host n)].
  destruct (str_eqb _ _) eqn:E; [|done]. apply str_eqb_eq in E. rewrite E, H. by destruct (te_host n).
Qed.

Lemma billing_rest d n : te_state (billingEffect d n) = te_state n /\ te_initRef (billingEffect d n) = te_initRef n.
Proof. unfold billingEffect. by destruct (str_eqb _ _). Qed.

Lemma rule_rest d cur n : te_state (ruleEffect d cur n) = te_state n /\ te_initRef (ruleEffect d cur n) = te_initRef n.
Proof. unfold ruleEffect. destruct (rd_mode d); [|done]. by destruct (str_eqb _ _). Qed.

Lemma init_host cur n : initEffect cur cur = Returns n -> te_host n = te_host cur.
Proof.
  unfold initEffect. destruct (te_initRef cur); [by intros [= <-]|].
  intros (g & _ & <-%returns_inj)%obind_returns. done.
Qed.

(** One round of effects: the first two decide the state and the flag, the last
    two the form. *)
Lemma run_effects_spec seen d cur next :
  te_render cur = Returns d -> run_effects seen d cur = Returns next ->
  te_host next = pushed seen d cur
  /\ exists n1, (if changed dep_init seen d then initEffect cur cur else Returns cur) = Returns n1
     /\ te_state next = te_state n1
     /\ te_initRef next = (if changed rd_name seen d then false else te_initRef n1).
Proof.
  intros Hd. apply render_inv in Hd as (Hn & He & Hr & _).
  unfold run_effects. intros H. apply obind_returns in H as (n1 & Hi & H). injection H as <-.
  assert (te_host n1 = te_host cur) as Hh.
  { destruct (changed dep_init seen d); [by apply init_host|by injection Hi as <-]. }
  set (n2 := if changed rd_name seen d then resetEffect n1 else n1).
  assert (te_host n2 = te_host cur /\ te_state n2 = te_state n1
          /\ te_initRef n2 = if changed rd_name seen d then false else te_initRef n1) as (Hh2 & Hs2 & Hr2).
  { subst n2. by destruct (changed rd_name seen d). }
  clearbody n2. set (n3 := if changed dep_billing seen d then billingEffect d n2 else n2).
  assert (te_host n3 = mkHost (host_name (te_host cur))
            (if changed dep_billing seen d then rd_effective d else host_expr (te_host cur))
            (host_rules (te_host cur))
          /\ te_state n3 = te_state n2 /\ te_initRef n3 = te_initRef n2) as (Hh3 & Hs3 & Hr3).
  { subst n3. destruct (changed dep_billing seen d); [|by rewrite Hh2; destruct (te_host cur)].
    rewrite billing_host by congruence. rewrite Hh2. split; [done|apply billing_rest]. }
  clearbody n3. split; [|exists n1; split; [done|]].
  - unfold pushed. destruct (changed dep_rule seen d); [|by rewrite Hh3].
    rewrite rule_host by (rewrite Hh3; done). by rewrite Hh3.
  - destruct (changed dep_rule seen d); [|by split; congruence].
    destruct (rule_rest d cur n3) as [-> ->]. by split; congruence.
Qed.

Lemma pushed_name seen d cur : host_name (pushed seen d cur) = host_name (te_host cur).
Proof. reflexivity. Qed.

(** Once the flag is set, the state does not change any more. *)
Lemma frozen_next p d cur next :
  te_render cur = Returns d -> te_initRef cur = true -> rd_name p = rd_name d ->
  run_effects (Some p) d cur = Returns next ->
  next = mkTE (te_state cur) (pushed (Some p) d cur) true.
Proof.
  intros Hd Hf Hn Hr. apply (run_effects_spec _ _ _ _ Hd) in Hr as (Hh & n1 & Hi & Hs & Hr).
  rewrite (changed_same rd_name) in Hr by done.
  assert (n1 = cur) as ->.
  { destruct (changed dep_init (Some p) d); [|by injection Hi as <-].
    unfold initEffect in Hi. rewrite Hf in Hi. by injection Hi as <-. }
  destruct next as [s h r]. cbn in *. congruence.
Qed.

Lemma render_frozen s h h' d d' :
  te_render (mkTE s h true) = Returns d -> te_render (mkTE s h' true) = Returns d' ->
  rd_effective d' = rd_effective d /\ rd_mode d' = rd_mode d /\ rd_groups_ref d' = rd_groups_ref d.
Proof.
  intros (_ & _ & _ & Hm & Hg & He)%render_inv (_ & _ & _ & Hm' & Hg' & He')%render_inv.
  cbn [te_state] in *. split_and!; congruence.
Qed.

Lemma mk_frozen e : te_initRef e = true -> e = mkTE (te_state e) (te_host e) true.
Proof. destruct e. cbn. by intros ->. Qed.

(** The second of two rounds in a row pushes what is there already. *)
Lemma pushed_twice p d cur d2 :
  te_render cur = Returns d -> te_initRef cur = true -> rd_name p = rd_name d ->
  te_render (mkTE (te_state cur) (pushed (Some p) d cur) true) = Returns d2 ->
  pushed (Some d) d2 (mkTE (te_state cur) (pushed (Some p) d cur) true) = pushed (Some p) d cur.
Proof.
  intros Hd Hf Hn Hd2. rewrite (mk_frozen cur Hf) in Hd.
  pose proof (render_frozen _ _ _ _ _ Hd Hd2) as (Heff & Hm & Hg).
  pose proof (render_inv _ _ Hd) as (_ & Hex & Hru & _). pose proof (render_inv _ _ Hd2) as (_ & Hex2 & Hru2 & _).
  cbn [te_host te_state] in *. unfold pushed at 1. cbn [te_host te_state]. rewrite pushed_name.
  assert ((if changed dep_billing (Some d) d2 then rd_effective d2 else host_expr (pushed (Some p) d cur))
          = host_expr (pushed (Some p) d cur)) as ->.
  { destruct (changed dep_billing (Some d) d2) eqn:E; [|done]. unfold pushed in *. cbn [host_expr] in *.
    destruct (changed dep_billing (Some p) d); [done|]. exfalso.
    rewrite changed_same in E; [done|]. congruence. }
  assert ((if changed dep_rule (Some d) d2
           then match rd_mode d2 with
                | VisualMode => buildRequestRuleExpr (te_groups (te_state cur))
                | RawMode => host_rules (pushed (Some p) d cur)
                end
           else host_rules (pushed (Some p) d cur)) = host_rules (pushed (Some p) d cur)) as ->.
  { destruct (changed dep_rule (Some d) d2) eqn:E; [|done]. rewrite Hm.
    destruct (rd_mode d) eqn:Em; [|done]. unfold pushed in *. cbn [host_rules] in *.
    rewrite Em in *. destruct (changed dep_rule (Some p) d); [done|]. exfalso.
    rewrite changed_same in E; [done|]. congruence. }
  unfold pushed. reflexivity.
Qed.

Lemma settle_frozen k p cur :
  te_initRef cur = true -> rd_name p = host_name (te_host cur) ->
  te_settle (3 + k) (Some p) cur <> Returns None.
Proof.
  intros Hf Hn. cbn [te_settle plus]. destruct (te_render cur) as [d|] eqn:Hd; [|done]. cbn [obind].
  pose proof (render_inv _ _ Hd) as (Hnd & _).
  case_bool_decide; [done|]. destruct (run_effects (Some p) d cur) as [e2|] eqn:Hr; [|done]. cbn [obind].
  apply (frozen_next _ _ _ _ Hd Hf) in Hr as ->; [|congruence].
  destruct (te_render (mkTE _ _ true)) as [d2|] eqn:Hd2; [|done]. cbn [obind].
  pose proof (render_inv _ _ Hd2) as (Hnd2 & _). cbn [te_host] in Hnd2. rewrite pushed_name in Hnd2.
  case_bool_decide; [done|]. destruct (run_effects (Some d) d2 _) as [e3|] eqn:Hr; [|done]. cbn [obind].
  apply (frozen_next _ _ _ _ Hd2 eq_refl) in Hr as ->; [|congruence].
  cbn [te_state]. rewrite pushed_twice; [|done|done|congruence|done]. rewrite Hd2. cbn [obind].
  by rewrite bool_decide_true.
Qed.

Lemma init_flag cur n : initEffect cur cur = Returns n -> te_initRef n = true.
Proof.
  unfold initEffect. destruct (te_initRef cur) eqn:E; [by intros [= <-]|].
  by intros (g & _ & <-%returns_inj)%obind_returns.
Qed.

Lemma settle_again k p cur :
  te_initRef cur = false -> rd_name p = host_name (te_host cur) ->
  te_settle (5 + k) (Some p) cur <> Returns None.
Proof.
  intros Hf Hn. change (5 + k) with (S (S (3 + k))). cbn [te_settle].
  destruct (te_render cur) as [d|] eqn:Hd; [|done]. cbn [obind].
  pose proof (render_inv _ _ Hd) as (Hnd & Hed & Hrd & Hmd & Hgd & Hfd). case_bool_decide; [done|].
  destruct (run_effects (Some p) d cur) as [e2|] eqn:Hr; [|done]. cbn [obind].
  apply (run_effects_spec _ _ _ _ Hd) in Hr as (Hh & n1 & Hi & Hs & Hr).
  rewrite (changed_same rd_name) in Hr by congruence.
  destruct (changed dep_init (Some p) d) eqn:Ec.
  - apply init_flag in Hi. apply (settle_frozen (S k) d e2); [congruence|]. rewrite Hh. by rewrite pushed_name.
  - injection Hi as <-. destruct (te_render e2) as [d2|] eqn:Hd2; [|done]. cbn [obind].
    pose proof (render_inv _ _ Hd2) as (Hnd2 & Hed2 & Hrd2 & Hmd2 & Hgd2 & Hfd2).
    case_bool_decide as E2; [done|]. destruct (run_effects (Some d) d2 e2) as [e3|] eqn:Hr2; [|done]. cbn [obind].
    apply (run_effects_spec _ _ _ _ Hd2) in Hr2 as (Hh2 & n2 & Hi2 & Hs2 & Hr2).
    assert (rd_name d = rd_name d2) as Hnn by (rewrite Hnd2, Hh, pushed_name; congruence).
    rewrite (changed_same rd_name) in Hr2 by done. rewrite changed_other in Hi2.
    + apply init_flag in Hi2. apply (settle_frozen k d2 e3); [congruence|]. by rewrite Hh2, pushed_name.
    + intros [= H1 H2]. apply E2. f_equal. rewrite Hs in *.
      destruct d, d2. cbn in *. congruence.
Qed.

Lemma settle_enough seen cur : te_settle TE_RENDERS seen cur <> Returns None.
Proof.
  unfold TE_RENDERS. change 6 with (S (5 + 0)). cbn [te_settle].
  destruct (te_render cur) as [d|] eqn:Hd; [|done]. cbn [obind]. case_bool_decide; [done|].
  pose proof (render_inv _ _ Hd) as (Hnd & _).
  destruct (run_effects seen d cur) as [e2|] eqn:Hr; [|done]. cbn [obind].
  apply (run_effects_spec _ _ _ _ Hd) in Hr as (Hh & _).
  assert (rd_name d = host_name (te_host e2)) as Hn by (by rewrite Hh, pushed_name).
  destruct (te_initRef e2) eqn:Hf; [apply (settle_frozen 2)|apply (settle_again 0)]; done.
Qed.

(** C26: the effects of the editor come to rest: whatever the form holds when the
    editor is opened, and whatever is done to it afterwards, at most six renders
    later no effect runs any more (unless a parser throws). *)
Theorem editor_settles :
  (forall h, te_open h <> Returns None) /\ (forall ev r, te_step ev r <> Returns None).
Proof.
  split.
  - intros h H. unfold te_open in H. destruct (te_mount h); [|done]. cbn [obind] in H.
    by apply settle_enough in H.
  - intros ev r H. unfold te_step in H. destruct (te_handle ev r.2); [|done]. cbn [obind] in H.
    by apply settle_enough in H.
Qed.

(** ** At rest the form holds what the editor shows *)

Definition in_sync (r : RenderDeps * TierEditor) : Prop :=
  te_render r.2 = Returns r.1
  /\ effectiveExpr (te_state r.2) = Returns (host_expr (te_host r.2))
  /\ (te_mode (te_state r.2) = VisualMode ->
      host_rules (te_host r.2) = buildRequestRuleExpr (te_groups (te_state r.2))).

(** An effect that would not run has nothing left to push. *)
Definition nothing_left (seen : option RenderDeps) (cur : TierEditor) : Prop :=
  forall p d, seen = Some p -> te_render cur = Returns d ->
    (dep_billing p = dep_billing d -> rd_effective d = rd_expr d)
    /\ (dep_rule p = dep_rule d -> rd_mode d = VisualMode ->
        buildRequestRuleExpr (te_groups (te_state cur)) = rd_rules d).

Lemma n_Sn_eq n : S n <> n.
Proof. lia. Qed.

Lemma init_groups cur n :
  initEffect cur cur = Returns n ->
  te_groups_ref (te_state n) = te_groups_ref (te_state cur) -> te_groups (te_state n) = te_groups (te_state cur).
Proof.
  unfold initEffect. destruct (te_initRef cur); [by intros [= <-]|].
  intros (g & _ & <-%returns_inj)%obind_returns. cbn [te_state te_groups_ref te_set_groups te_set_raw].
  destruct (tryParseVisualConfig (Some (host_expr (te_host cur))));
    [|destruct (truthy (host_expr (te_host cur)))]; cbn [te_groups_ref te_set_mode te_set_config]; intros []%n_Sn_eq.
Qed.

Lemma nothing_left_next seen d cur next :
  te_render cur = Returns d -> nothing_left seen cur -> run_effects seen d cur = Returns next ->
  nothing_left (Some d) next.
Proof.
  intros Hd Hl Hr p d' [= <-] Hd'. pose proof (render_inv _ _ Hd) as (_ & He & Hu & Hm & Hg & _).
  pose proof (render_inv _ _ Hd') as (_ & He' & Hu' & Hm' & Hg' & _).
  apply (run_effects_spec _ _ _ _ Hd) in Hr as (Hh & n1 & Hi & Hs & _).
  rewrite Hh in He', Hu'. unfold pushed in He', Hu'. cbn [host_expr host_rules] in He', Hu'.
  split.
  - intros [= E1 E2]. destruct (changed dep_billing seen d) eqn:Ec; [congruence|].
    destruct seen as [p|]; [|done]. apply changed_false in Ec.
    destruct (Hl p d eq_refl Hd) as [H _]. specialize (H Ec). congruence.
  - intros [= E1 E2 E3] Hv.
    assert (te_groups (te_state next) = te_groups (te_state cur)) as ->.
    { rewrite Hs. destruct (changed dep_init seen d); [|by injection Hi as <-].
      apply (init_groups _ _ Hi). congruence. }
    rewrite E1, Hv in Hu'.
    destruct (changed dep_rule seen d) eqn:Ec; [congruence|].
    destruct seen as [p|]; [|done]. apply changed_false in Ec.
    destruct (Hl p d eq_refl Hd) as [_ H]. rewrite H by congruence. done.
Qed.

Lemma settle_sync fuel seen cur r :
  nothing_left seen cur -> te_settle fuel seen cur = Returns (Some r) -> in_sync r.
Proof.
  revert seen cur. induction fuel as [|fuel IH]; intros seen cur Hl; [done|]. cbn [te_settle].
  destruct (te_render cur) as [d|] eqn:Hd; [|done]. cbn [obind]. case_bool_decide as E.
  - intros [= <-]. subst seen. destruct (Hl d d eq_refl Hd) as [H1 H2].
    pose proof (render_inv _ _ Hd) as (_ & He & Hu & Hm & Hg & Hf).
    split; [done|]. cbn [fst snd]. split.
    + rewrite Hf. f_equal. rewrite H1 by done. done.
    + intros Hv. rewrite <- Hu. symmetry. apply H2; congruence.
  - destruct (run_effects seen d cur) as [next|] eqn:Hr; [|done]. cbn [obind].
    apply IH. by eapply nothing_left_next.
Qed.

Lemma handle_keeps ev e e' :
  te_handle ev e = Returns e' ->
  host_expr (te_host e') = host_expr (te_host e)
  /\ (te_groups_ref (te_state e') = te_groups_ref (te_state e) -> te_groups (te_state e') = te_groups (te_state e)).
Proof.
  destruct ev as [next|value|[]|preset|next|name]; cbn [te_handle te_handleModeChange].
  - by intros <-%returns_inj.
  - unfold handleRawChange. by intros (q & _ & <-%returns_inj)%obind_returns.
  - intros (q & _ & (g & _ & <-%returns_inj)%obind_returns)%obind_returns. split; [done|]. intros []%n_Sn_eq.
  - by intros <-%returns_inj.
  - intros <-%returns_inj. unfold applyPreset. cbn [te_host te_state]. split; [done|].
    destruct (tryParseVisualConfig (Some (preset_expr preset)));
      cbn [te_groups_ref te_set_groups te_set_mode te_set_config te_set_raw]; intros []%n_Sn_eq.
  - intros <-%returns_inj. split; [done|]. intros []%n_Sn_eq.
  - by intros <-%returns_inj.
Qed.

Lemma open_sync h r : te_open h = Returns (Some r) -> in_sync r.
Proof.
  intros (e & _ & Ho)%obind_returns. apply settle_sync in Ho; [done|]. intros p d [=].
Qed.

Lemma step_sync ev r r' : in_sync r -> te_step ev r = Returns (Some r') -> in_sync r'.
Proof.
  intros (Hd & Hsync & Hrules) (e & He & Hs)%obind_returns. apply settle_sync in Hs; [done|].
  pose proof (render_inv _ _ Hd) as (_ & He0 & Hu0 & Hm0 & Hg0 & Hf0).
  apply handle_keeps in He as [Hexpr Hgroups]. intros p d [= <-] Hd'.
  pose proof (render_inv _ _ Hd') as (_ & He1 & Hu1 & Hm1 & Hg1 & Hf1). split.
  - intros [= E1 E2]. congruence.
  - intros [= E1 E2 E3] Hv. rewrite Hgroups by congruence. rewrite <- E3, Hu0. symmetry. apply Hrules. congruence.
Qed.

(** The editors that can be on the screen, at rest. *)
Inductive te_reachable : RenderDeps * TierEditor -> Prop :=
| reach_open h r : te_open h = Returns (Some r) -> te_reachable r
| reach_step ev r r' : te_reachable r -> te_step ev r = Returns (Some r') -> te_reachable r'.

Lemma reachable_sync r : te_reachable r -> in_sync r.
Proof. induction 1; eauto using open_sync, step_sync. Qed.

(** C27: after any sequence of edits, at rest, the expression in the price form is
    the one the editor shows: the one generated from the tiers in visual mode,
    the price part of the text in raw mode; and in visual mode the rule
    expression of the form is the one built from the rule cards. *)
Theorem editor_in_sync r : te_reachable r -> in_sync r.
Proof. apply reachable_sync. Qed.

Definition flat_host : Host := mkHost (js "gpt") (tier_call (js "base") (js "p * 2 + c * 4")) [].

(** The editor of [flat_host] at rest. *)
Definition flat_open : RenderDeps * TierEditor :=
  match te_open flat_host with
  | Returns (Some r) => r
  | _ => (mkRD [] [] [] [] RawMode 0, mkTE (mkTES RawMode None [] [] 0) flat_host true)
  end.

Lemma flat_opens : te_open flat_host = Returns (Some flat_open).
Proof. vm_compute. reflexivity. Qed.

Lemma editor_in_sync_witness : te_reachable flat_open /\ in_sync flat_open.
Proof.
  assert (te_reachable flat_open) as H by (apply (reach_open flat_host), flat_opens).
  split; [exact H|exact (editor_in_sync flat_open H)].
Defined.

(** The estimator's fields are the token counts its evaluator reads. *)
Lemma estimator_keys :
  omap (fun v => stateKey <$> bv_field v) BILLING_EXTRA_VARS = map snd ESTIMATOR_VARS.
Proof. vm_compute. reflexivity. Qed.
