(* ===== verification/TierEditorOpen.v ===== *)
(** * The tiered pricing editor: opening it, the first edit, the presets

    What the effects of the mounted editor do to the price form: an expression
    the visual editor reads stays, one it cannot read is replaced, rules it
    cannot read are dropped; what the first edit after opening does, since the
    guard of the initial effect is taken back by the effect on the model name. *)

From S2P Require Import Prelude JsStr JsRegex JsNum JsJson BillingExpr BillingSplit BillingRoundTrip BillingRules BillingProps TierExpr TierProps TierEditor TierEditorProps.

Local Open Scope js_scope.

(** ** Running the effects *)

Lemma run_effects_eq seen d cur n1 :
  te_render cur = Returns d ->
  (if changed dep_init seen d then initEffect cur cur else Returns cur) = Returns n1 ->
  run_effects seen d cur
  = Returns (mkTE (te_state n1) (pushed seen d cur) (if changed rd_name seen d then false else te_initRef n1)).
Proof.
  intros Hd Hi. destruct (run_effects seen d cur) as [next|] eqn:Hr.
  - apply (run_effects_spec _ _ _ _ Hd) in Hr as (Hh & n & Hn & Hs & Hf).
    rewrite Hi in Hn. apply returns_inj in Hn as <-. f_equal. destruct next. cbn in *. congruence.
  - exfalso. unfold run_effects in Hr. rewrite Hi in Hr. done.
Qed.

Lemma run_frozen p d s h :
  te_render (mkTE s h true) = Returns d -> rd_name p = rd_name d ->
  run_effects (Some p) d (mkTE s h true) = Returns (mkTE s (pushed (Some p) d (mkTE s h true)) true).
Proof.
  intros Hd Hn. rewrite (run_effects_eq (Some p) d _ (mkTE s h true) Hd).
  - by rewrite (changed_same rd_name) by done.
  - by destruct (changed dep_init (Some p) d).
Qed.

Lemma settle_one f seen cur d next :
  te_render cur = Returns d -> seen <> Some d -> run_effects seen d cur = Returns next ->
  te_settle (S f) seen cur = te_settle f (Some d) next.
Proof. intros Hd Hs Hr. cbn [te_settle]. rewrite Hd. cbn [obind]. rewrite bool_decide_false by done. by rewrite Hr. Qed.

Lemma settle_stop f cur d : te_render cur = Returns d -> te_settle (S f) (Some d) cur = Returns (Some (d, cur)).
Proof. intros Hd. cbn [te_settle]. rewrite Hd. cbn [obind]. by rewrite bool_decide_true. Qed.

(** Nothing to push. *)
Lemma pushed_same seen d cur :
  rd_effective d = host_expr (te_host cur) ->
  (rd_mode d = VisualMode -> buildRequestRuleExpr (te_groups (te_state cur)) = host_rules (te_host cur)) ->
  pushed seen d cur = te_host cur.
Proof.
  intros He Hr. unfold pushed. destruct (te_host cur) as [n x r]. cbn [host_name host_expr host_rules] in *.
  f_equal; [by destruct (changed dep_billing seen d)|].
  destruct (changed dep_rule seen d); [|done]. destruct (rd_mode d); [by apply Hr|done].
Qed.

(** A rule expression whose parser does not throw. *)
Definition rules_readable (rules : jsstr) : Prop := exists g, tryParseRequestRuleExpr rules = Returns g.

Lemma readable_can rules : rules_readable rules -> exists b, canUseVisualRules rules = Returns b.
Proof.
  intros (g & Hg). unfold canUseVisualRules. destruct (negb (truthy rules)); [by eexists|]. rewrite Hg. by eexists.
Qed.

Lemma render_eq s h f eff :
  rules_readable (host_rules h) -> effectiveExpr s = Returns eff ->
  te_render (mkTE s h f) = Returns (mkRD (host_name h) (host_expr h) (host_rules h) eff (te_mode s) (te_groups_ref s)).
Proof. intros (b & Hb)%readable_can He. unfold te_render. cbn [te_host te_state]. by rewrite Hb, He. Qed.

Lemma readable_pushed seen d cur :
  rules_readable (host_rules (te_host cur)) ->
  (rd_mode d = VisualMode -> rules_readable (buildRequestRuleExpr (te_groups (te_state cur)))) ->
  rules_readable (host_rules (pushed seen d cur)).
Proof.
  intros H1 H2. unfold pushed. cbn [host_rules]. destruct (changed dep_rule seen d); [|done].
  destruct (rd_mode d); [by apply H2|done].
Qed.

(** With the flag set, the state stays and the form follows it. *)
Lemma settle_frozen_rest k p cur eff :
  te_initRef cur = true -> rd_name p = host_name (te_host cur) ->
  effectiveExpr (te_state cur) = Returns eff ->
  rules_readable (host_rules (te_host cur)) ->
  (te_mode (te_state cur) = VisualMode -> rules_readable (buildRequestRuleExpr (te_groups (te_state cur)))) ->
  exists d h, te_settle (3 + k) (Some p) cur = Returns (Some (d, mkTE (te_state cur) h true))
    /\ (te_mode (te_state cur) = RawMode -> host_rules h = host_rules (te_host cur)).
Proof.
  intros Hf Hn He Hr Hb. rewrite (mk_frozen cur Hf) in *. cbn [te_state te_host] in *.
  set (s := te_state cur) in *. set (h := te_host cur) in *. clearbody s h. clear Hf cur.
  assert (forall hh, rules_readable (host_rules hh) ->
    te_render (mkTE s hh true) = Returns (mkRD (host_name hh) (host_expr hh) (host_rules hh) eff (te_mode s) (te_groups_ref s)))
    as Hrender by (intros hh Hh; by apply render_eq).
  pose proof (Hrender h Hr) as Hd. set (d := mkRD (host_name h) _ _ _ _ _) in Hd.
  destruct (decide (p = d)) as [->|Hpd].
  { exists d, h. split; [|done]. by apply (settle_stop (2 + k)). }
  assert (run_effects (Some p) d (mkTE s h true) = Returns (mkTE s (pushed (Some p) d (mkTE s h true)) true)) as Hrun.
  { by apply run_frozen. }
  change (3 + k) with (S (S (S k))). rewrite (settle_one _ _ _ d _ Hd (fun E => Hpd (inj Some _ _ E)) Hrun).
  set (h1 := pushed (Some p) d (mkTE s h true)) in *.
  assert (te_mode s = RawMode -> host_rules h1 = host_rules h) as Hraw.
  { intros Hm. subst h1. unfold pushed. cbn [host_rules te_host]. destruct (changed dep_rule (Some p) d); [|done].
    cbn [d rd_mode]. by rewrite Hm. }
  assert (rules_readable (host_rules h1)) as Hr1 by (by apply readable_pushed).
  pose proof (Hrender h1 Hr1) as Hd1. set (d1 := mkRD (host_name h1) _ _ _ _ _) in Hd1.
  destruct (decide (d = d1)) as [Hdd|Hdd].
  { exists d, h1. split; [|done]. apply (settle_stop (1 + k)). congruence. }
  exists d1, h1. split; [|done].
  assert (run_effects (Some d) d1 (mkTE s h1 true) = Returns (mkTE s (pushed (Some d) d1 (mkTE s h1 true)) true)) as Hrun1.
  { by apply run_frozen. }
  rewrite (settle_one _ _ _ d1 _ Hd1 (fun E => Hdd (inj Some _ _ E)) Hrun1).
  pose proof (pushed_twice p d (mkTE s h true) d1 Hd eq_refl Hn Hd1) as Htwice. cbn [te_state] in Htwice.
  fold h1 in Htwice. rewrite Htwice. by apply settle_stop.
Qed.

(** The state the initial effect sets. *)
Definition init_state (s : TEState) (expr rules : jsstr) (g : option (list RequestRuleGroup)) : TEState :=
  te_set_groups (default [] g)
    (te_set_raw (combineBillingExpr expr rules)
       match tryParseVisualConfig (Some expr) with
       | Some parsed => te_set_mode VisualMode (te_set_config (Some parsed) s)
       | None => if truthy expr then te_set_mode RawMode (te_set_config None s)
                 else te_set_config (Some createDefaultVisualConfig) s
       end).

Lemma init_eq s h g :
  tryParseRequestRuleExpr (host_rules h) = Returns g ->
  initEffect (mkTE s h false) (mkTE s h false)
  = Returns (mkTE (init_state s (host_expr h) (host_rules h) g) h true).
Proof. intros Hg. unfold initEffect. cbn [te_initRef te_host te_state]. by rewrite Hg. Qed.

Definition mounted (h : Host) (g : option (list RequestRuleGroup)) : TEState :=
  mkTES VisualMode (tryParseVisualConfig (Some (host_expr h)))
        (combineBillingExpr (host_expr h) (host_rules h)) (default [] g) 0.

(** What the first render's effects do. *)
Lemma open_first h g :
  tryParseRequestRuleExpr (host_rules h) = Returns g ->
  te_open h
  = te_settle 5 (Some (mkRD (host_name h) (host_expr h) (host_rules h)
                            (generateExprFromVisualConfig (tryParseVisualConfig (Some (host_expr h)))) VisualMode 0))
      (mkTE (init_state (mounted h g) (host_expr h) (host_rules h) g)
            (mkHost (host_name h) (generateExprFromVisualConfig (tryParseVisualConfig (Some (host_expr h))))
                    (buildRequestRuleExpr (default [] g))) false).
Proof.
  intros Hg. unfold te_open, te_mount. rewrite Hg. cbn [obind]. fold (mounted h g).
  assert (te_render (mkTE (mounted h g) h false)
    = Returns (mkRD (host_name h) (host_expr h) (host_rules h)
                 (generateExprFromVisualConfig (tryParseVisualConfig (Some (host_expr h)))) VisualMode 0)) as Hd.
  { apply (render_eq (mounted h g) h); [by exists g|reflexivity]. }
  unfold TE_RENDERS. rewrite (settle_one 5 None _ _ _ Hd ltac:(discriminate) (run_effects_eq None _ _ _ Hd (init_eq _ _ _ Hg))).
  reflexivity.
Qed.

(** A change of the expressions while the flag is not set. *)
Lemma settle_reinit k p s h eff g eff' :
  rd_name p = host_name h -> dep_init p <> (host_expr h, host_rules h) ->
  effectiveExpr s = Returns eff -> tryParseRequestRuleExpr (host_rules h) = Returns g ->
  (te_mode s = VisualMode -> rules_readable (buildRequestRuleExpr (te_groups s))) ->
  rules_readable (buildRequestRuleExpr (default [] g)) ->
  effectiveExpr (init_state s (host_expr h) (host_rules h) g) = Returns eff' ->
  exists d h', te_settle (4 + k) (Some p) (mkTE s h false)
      = Returns (Some (d, mkTE (init_state s (host_expr h) (host_rules h) g) h' true))
    /\ (te_mode s = RawMode -> te_mode (init_state s (host_expr h) (host_rules h) g) = RawMode ->
        host_rules h' = host_rules h).
Proof.
  intros Hn Hp He Hg Hb Hb' He'. assert (rules_readable (host_rules h)) as Hr by (by exists g).
  pose proof (render_eq s h false eff Hr He) as Hd. set (d := mkRD _ _ _ _ _ _) in Hd.
  assert (run_effects (Some p) d (mkTE s h false)
    = Returns (mkTE (init_state s (host_expr h) (host_rules h) g) (pushed (Some p) d (mkTE s h false)) true)) as Hrun.
  { rewrite (run_effects_eq (Some p) d _ (mkTE (init_state s (host_expr h) (host_rules h) g) h true) Hd).
    - by rewrite (changed_same rd_name) by done.
    - rewrite changed_other by done. by apply init_eq. }
  change (4 + k) with (S (3 + k)). assert (Some p <> Some d) as Hpd by (intros E; apply (inj Some) in E; subst p; by apply Hp).
  rewrite (settle_one _ (Some p) _ d _ Hd Hpd Hrun).
  set (h1 := pushed (Some p) d (mkTE s h false)) in *.
  destruct (settle_frozen_rest k d (mkTE (init_state s (host_expr h) (host_rules h) g) h1 true) eff') as (d' & h' & Hs & Hraw);
    [done|done|done|by apply readable_pushed|done|].
  exists d', h'. split; [exact Hs|]. intros Hm Hm'. rewrite (Hraw Hm'). cbn [te_host]. subst h1.
  unfold pushed. cbn [host_rules te_host]. destruct (changed dep_rule (Some p) d); [|done].
  subst d. cbn [rd_mode]. by rewrite Hm.
Qed.

(** ** Opening the editor *)

Definition ZERO_EXPR : jsstr := js "p * 0 + c * 0".

Lemma zero_not_visual : tryParseVisualConfig (Some ZERO_EXPR) = None.
Proof. vm_compute. reflexivity. Qed.

Lemma split_zero gs :
  forallb wf_group gs = true ->
  splitBillingExprAndRequestRules (combineBillingExpr ZERO_EXPR (buildRequestRuleExpr gs))
  = Returns (ZERO_EXPR, buildRequestRuleExpr gs).
Proof.
  intros Hw. destruct gs as [|g gs]; [vm_compute; reflexivity|].
  rewrite combine_split_parts; [|reflexivity|reflexivity|vm_compute; reflexivity|discriminate|exact Hw].
  reflexivity.
Qed.

Lemma readable_built gs : forallb wf_group gs = true -> rules_readable (buildRequestRuleExpr gs).
Proof. intros H. exists (Some gs). by apply rules_reread. Qed.

Lemma open_erases name expr gs :
  tryParseVisualConfig (Some expr) = None -> truthy expr = true -> expr <> ZERO_EXPR ->
  forallb wf_group gs = true ->
  splitBillingExprAndRequestRules (combineBillingExpr expr (buildRequestRuleExpr gs))
  = Returns (expr, buildRequestRuleExpr gs) ->
  exists d e, te_open (mkHost name expr (buildRequestRuleExpr gs)) = Returns (Some (d, e))
    /\ host_expr (te_host e) = ZERO_EXPR /\ host_rules (te_host e) = buildRequestRuleExpr gs
    /\ te_mode (te_state e) = RawMode
    /\ te_raw (te_state e) = combineBillingExpr ZERO_EXPR (buildRequestRuleExpr gs).
Proof.
  intros Hp Ht Hz Hw Hs. pose proof (split_zero gs Hw) as Hs0. pose proof (rules_reread gs Hw) as Hg.
  pose proof (readable_built gs Hw) as Hb. set (Q := buildRequestRuleExpr gs) in *.
  set (h := mkHost name expr Q). pose proof (open_first h (Some gs) Hg) as Ho.
  cbn [h host_name host_expr host_rules] in Ho. rewrite Hp in Ho.
  change (generateExprFromVisualConfig None) with ZERO_EXPR in Ho.
  change (buildRequestRuleExpr (default [] (Some gs))) with Q in Ho.
  set (s1 := init_state (mounted h (Some gs)) expr Q (Some gs)) in Ho.
  assert (s1 = mkTES RawMode None (combineBillingExpr expr Q) gs 1) as E1.
  { subst s1. unfold init_state. rewrite Hp, Ht. reflexivity. }
  assert (init_state s1 ZERO_EXPR Q (Some gs) = mkTES RawMode None (combineBillingExpr ZERO_EXPR Q) gs 2) as E2.
  { unfold init_state. rewrite zero_not_visual, E1. reflexivity. }
  clearbody s1. subst s1.
  destruct (settle_reinit 1 (mkRD name expr Q ZERO_EXPR VisualMode 0)
              (mkTES RawMode None (combineBillingExpr expr Q) gs 1)
              (mkHost name ZERO_EXPR Q) expr (Some gs) ZERO_EXPR) as (d & h' & Hset & Hraw).
  - reflexivity.
  - cbn [rd_expr rd_rules host_expr host_rules]. by intros [= E].
  - unfold effectiveExpr. cbn [te_mode te_raw]. by rewrite Hs.
  - exact Hg.
  - done.
  - exact Hb.
  - cbn [host_expr host_rules]. rewrite E2. unfold effectiveExpr. cbn [te_mode te_raw]. by rewrite Hs0.
  - cbn [host_expr host_rules] in Hset, Hraw. rewrite E2 in Hset, Hraw. change (4 + 1) with 5 in Hset. rewrite <- Ho in Hset.
    exists d, (mkTE (mkTES RawMode None (combineBillingExpr ZERO_EXPR Q) gs 2) h' true).
    split; [exact Hset|]. apply open_sync in Hset as (_ & Hsync & _).
    cbn [te_host te_state snd] in *. unfold effectiveExpr in Hsync. cbn [te_mode te_raw] in Hsync.
    rewrite Hs0 in Hsync. apply returns_inj in Hsync. cbn [fst] in Hsync.
    split; [done|]. split; [by apply Hraw|done].
Qed.

(** An expression the visual editor cannot read does not survive opening the
    editor. The first render, still in visual mode, pushes the empty price
    [p * 0 + c * 0] to the form; the initial effect, whose guard the effect on
    the model name has taken back, then reads that price as the current one. At
    rest both the form and the text of the raw editor hold the zero price; only
    the request rules are kept. *)
Theorem open_erases_unread name expr gs :
  tryParseVisualConfig (Some expr) = None -> truthy expr = true -> expr <> ZERO_EXPR ->
  forallb wf_group gs = true ->
  splitBillingExprAndRequestRules (combineBillingExpr expr (buildRequestRuleExpr gs))
  = Returns (expr, buildRequestRuleExpr gs) ->
  exists d e, te_open (mkHost name expr (buildRequestRuleExpr gs)) = Returns (Some (d, e))
    /\ host_expr (te_host e) = ZERO_EXPR /\ host_rules (te_host e) = buildRequestRuleExpr gs
    /\ te_mode (te_state e) = RawMode
    /\ te_raw (te_state e) = combineBillingExpr ZERO_EXPR (buildRequestRuleExpr gs).
Proof. apply open_erases. Qed.

(** The three-tier example of the editor's own prompt helper, on one line. *)
Definition nested_expr : jsstr :=
  js "len <= 128000 ? " ++ tier_call (js "standard") (js "p * 1.1 + c * 4.4")
  ++ js " : (len <= 1000000 ? " ++ tier_call (js "medium") (js "p * 2.2 + c * 8.8")
  ++ js " : " ++ tier_call (js "long") (js "p * 4.4 + c * 17.6") ++ js ")".

Lemma open_erases_unread_witness :
  exists d e, te_open (mkHost (js "gpt") nested_expr (buildRequestRuleExpr sample_groups)) = Returns (Some (d, e))
    /\ host_expr (te_host e) = ZERO_EXPR.
Proof.
  destruct (open_erases_unread (js "gpt") nested_expr sample_groups) as (d & e & H1 & H2 & _).
  - vm_compute. reflexivity.
  - reflexivity.
  - apply str_eqb_neq. vm_compute. reflexivity.
  - vm_compute. reflexivity.
  - vm_compute. reflexivity.
  - exists d, e. split; [exact H1|exact H2].
Defined.

Definition single_expr (t : VisualTier) : jsstr := generateExprFromVisualConfig (Some [t]).

Lemma single_read t :
  wf_tier t = true -> tryParseVisualConfig (Some (single_expr t)) = Some [reread t]
  /\ generateExprFromVisualConfig (Some [reread t]) = single_expr t.
Proof. apply tier_reread. Qed.

(** C28: opening the editor on a price it wrote itself, one tier without
    conditions and well-formed request rules, changes neither expression: the
    editor rests in visual mode with the tier and the rules read back. *)
Theorem open_keeps_single name t gs :
  wf_tier t = true -> forallb wf_group gs = true ->
  exists d e, te_open (mkHost name (single_expr t) (buildRequestRuleExpr gs)) = Returns (Some (d, e))
    /\ te_host e = mkHost name (single_expr t) (buildRequestRuleExpr gs)
    /\ te_mode (te_state e) = VisualMode /\ te_config (te_state e) = Some [reread t]
    /\ te_groups (te_state e) = gs /\ te_initRef e = false.
Proof.
  intros Ht Hw. destruct (single_read t Ht) as [Hp Hgen]. pose proof (rules_reread gs Hw) as Hg.
  pose proof (readable_built gs Hw) as Hb. set (Q := buildRequestRuleExpr gs) in *. set (E := single_expr t) in *.
  clearbody E. pose proof (open_first (mkHost name E Q) (Some gs) Hg) as Ho.
  cbn [host_name host_expr host_rules] in Ho. rewrite Hp, Hgen in Ho.
  change (buildRequestRuleExpr (default [] (Some gs))) with Q in Ho.
  set (s1 := mkTES VisualMode (Some [reread t]) (combineBillingExpr E Q) gs 1).
  assert (init_state (mounted (mkHost name E Q) (Some gs)) E Q (Some gs) = s1) as E1.
  { unfold init_state. rewrite Hp. reflexivity. }
  rewrite E1 in Ho. clear E1.
  assert (effectiveExpr s1 = Returns E) as He by (unfold effectiveExpr; cbn [s1 te_mode te_config]; by rewrite Hgen).
  pose proof (render_eq s1 (mkHost name E Q) false E Hb He) as Hd.
  rewrite (settle_one _ _ _ _ (mkTE s1 (mkHost name E Q) false) Hd) in Ho.
  - rewrite (settle_stop _ _ _ Hd) in Ho. eexists _, _. split; [exact Ho|]. repeat (split; [reflexivity|]). reflexivity.
  - intros [=].
  - rewrite (run_effects_eq _ _ _ (mkTE s1 (mkHost name E Q) false) Hd); [|by rewrite changed_same].
    rewrite (changed_same rd_name) by done. cbn [te_initRef te_state]. f_equal. f_equal. by apply pushed_same.
Qed.

Lemma open_keeps_single_witness :
  exists d e, te_open (mkHost (js "claude") (single_expr sample_tier) (buildRequestRuleExpr sample_groups))
              = Returns (Some (d, e))
    /\ te_host e = mkHost (js "claude") (single_expr sample_tier) (buildRequestRuleExpr sample_groups).
Proof.
  destruct (open_keeps_single (js "claude") sample_tier sample_groups) as (d & e & H1 & H2 & _).
  - vm_compute. reflexivity.
  - vm_compute. reflexivity.
  - exists d, e. split; [exact H1|exact H2].
Defined.

(** Rules the rule parser does not read are dropped when the editor is opened:
    the cards stay empty, and the effect of the visual mode pushes the empty rule
    expression to the form. The alert that sends the user to the expression
    editor is only shown for the first render. *)
Theorem open_drops_unread_rules name t rules :
  wf_tier t = true -> tryParseRequestRuleExpr rules = Returns None ->
  exists d e, te_open (mkHost name (single_expr t) rules) = Returns (Some (d, e))
    /\ host_rules (te_host e) = [] /\ host_expr (te_host e) = single_expr t
    /\ te_groups (te_state e) = [] /\ te_mode (te_state e) = VisualMode.
Proof.
  intros Ht Hg. destruct (single_read t Ht) as [Hp Hgen]. set (E := single_expr t) in *. clearbody E.
  pose proof (open_first (mkHost name E rules) None Hg) as Ho.
  cbn [host_name host_expr host_rules] in Ho. rewrite Hp, Hgen in Ho.
  change (buildRequestRuleExpr (default [] None)) with ([] : jsstr) in Ho.
  assert (init_state (mounted (mkHost name E rules) None) E rules None
          = mkTES VisualMode (Some [reread t]) (combineBillingExpr E rules) [] 1) as E1.
  { unfold init_state. rewrite Hp. reflexivity. }
  rewrite E1 in Ho. clear E1.
  assert (rules <> []) as Hne by (by intros ->). assert (rules_readable []) as Hr by (by exists (Some [])).
  assert (forall s, effectiveExpr (init_state s E [] (Some [])) = Returns E) as He.
  { intros s. unfold init_state. rewrite Hp. unfold effectiveExpr.
    cbn [te_mode te_config te_set_groups te_set_raw te_set_mode te_set_config]. by rewrite Hgen. }
  destruct (settle_reinit 1 (mkRD name E rules E VisualMode 0)
              (mkTES VisualMode (Some [reread t]) (combineBillingExpr E rules) [] 1)
              (mkHost name E []) E (Some []) E) as (d & h' & Hset & _); [done| |unfold effectiveExpr; cbn [te_mode te_config]; by rewrite Hgen|done|done|done|by apply He|].
  - cbn. by intros [= Hz].
  - cbn [host_expr host_rules] in Hset. change (4 + 1) with 5 in Hset. rewrite <- Ho in Hset.
    eexists d, _. split; [exact Hset|]. apply open_sync in Hset as (_ & Hsync & Hrules).
    cbn [te_host te_state snd] in *. rewrite He in Hsync. apply returns_inj in Hsync.
    unfold init_state in *. rewrite Hp in *. split; [by rewrite Hrules|]. done.
Qed.

(** A rule the cards can build: a body parameter compared with a number. *)
Definition param_rule : RequestRuleGroup :=
  mkRRG [CParamHeader (mkPH SrcParam (js "max_tokens") MATCH_GT (js "1000"))] (js "2").

Lemma open_drops_unread_rules_witness :
  truthy (buildRequestRuleExpr [param_rule]) = true
  /\ exists d e, te_open (mkHost (js "claude") (single_expr sample_tier) (buildRequestRuleExpr [param_rule]))
                 = Returns (Some (d, e)) /\ host_rules (te_host e) = [].
Proof.
  split; [vm_compute; reflexivity|].
  destruct (open_drops_unread_rules (js "claude") sample_tier (buildRequestRuleExpr [param_rule])) as (d & e & H1 & H2 & _).
  - vm_compute. reflexivity.
  - vm_compute. reflexivity.
  - exists d, e. split; [exact H1|exact H2].
Defined.

(** ** Presets *)

Definition all_presets : list Preset := concat (map pg_presets PRESET_GROUPS).
Definition preset_groups (p : Preset) : list RequestRuleGroup := default [] (preset_requestRules p).

(** What the templates rely on, checked for each of them: the visual editor reads
    the expression, reads what it writes for it as the same tiers, and reads the
    rules back. *)
Definition preset_readable (p : Preset) (config : list VisualTier) : Prop :=
  tryParseVisualConfig (Some (preset_expr p)) = Some config
  /\ tryParseVisualConfig (Some (generateExprFromVisualConfig (Some config))) = Some config
  /\ tryParseRequestRuleExpr (buildRequestRuleExpr (preset_groups p)) = Returns (Some (preset_groups p)).

Lemma presets_readable : Forall (fun p => exists config, preset_readable p config) all_presets.
Proof.
  unfold all_presets. cbn [PRESET_GROUPS map pg_presets concat app].
  repeat (apply Forall_cons; split; [eexists; split; [vm_compute; reflexivity|];
    split; vm_compute; reflexivity|]). apply Forall_nil. exact I.
Qed.

(** The state a preset sets. *)
Definition preset_state (p : Preset) (config : list VisualTier) (s : TEState) : TEState :=
  mkTES VisualMode (Some config)
    (str_or (combineBillingExpr (preset_expr p) (buildRequestRuleExpr (preset_groups p))) (preset_expr p))
    (preset_groups p) (S (te_groups_ref s)).

Lemma apply_preset_eq p config s h f :
  tryParseVisualConfig (Some (preset_expr p)) = Some config ->
  applyPreset p (mkTE s h f)
  = mkTE (preset_state p config s) (mkHost (host_name h) (host_expr h) (buildRequestRuleExpr (preset_groups p))) f.
Proof. intros H. unfold applyPreset. cbv zeta. rewrite H. reflexivity. Qed.

Lemma preset_effective p config s : effectiveExpr (preset_state p config s) = Returns (generateExprFromVisualConfig (Some config)).
Proof. reflexivity. Qed.

(** The state the initial effect reads from the expression of a configuration
    that reads back. *)
Lemma init_visual s expr rules config gs :
  tryParseVisualConfig (Some expr) = Some config ->
  init_state s expr rules (Some gs)
  = mkTES VisualMode (Some config) (combineBillingExpr expr rules) gs (S (te_groups_ref s)).
Proof. intros H. unfold init_state. rewrite H. reflexivity. Qed.

(** A step that rests in visual mode: what it shows is in the form. *)
Lemma step_visual ev r d s h f config :
  in_sync r -> te_step ev r = Returns (Some (d, mkTE s h f)) ->
  te_mode s = VisualMode -> te_config s = Some config ->
  host_expr h = generateExprFromVisualConfig (Some config) /\ host_rules h = buildRequestRuleExpr (te_groups s).
Proof.
  intros Hr Hs Hm Hc. apply (step_sync _ _ _ Hr) in Hs as (_ & He & Hu). cbn [snd te_state te_host] in *.
  unfold effectiveExpr in He. rewrite Hm, Hc in He. apply returns_inj in He. split; [done|by apply Hu].
Qed.

Section Preset.
Variables (p : Preset) (config : list VisualTier) (d : RenderDeps) (s : TEState) (h : Host).
Hypothesis Hp : preset_readable p config.

Lemma readable_preset : rules_readable (buildRequestRuleExpr (preset_groups p)).
Proof. destruct Hp as (_ & _ & H). by exists (Some (preset_groups p)). Qed.

Lemma preset_frozen :
  in_sync (d, mkTE s h true) ->
  exists d' h', te_step (TEPreset p) (d, mkTE s h true) = Returns (Some (d', mkTE (preset_state p config s) h' true)).
Proof.
  intros (Hd & _). apply render_inv in Hd as (Hn & _). cbn [fst snd te_host] in Hn.
  pose proof readable_preset as Hr. destruct Hp as (H1 & _). unfold te_step. cbn [snd fst te_handle obind].
  rewrite (apply_preset_eq _ _ _ _ _ H1).
  destruct (settle_frozen_rest 3 d
    (mkTE (preset_state p config s) (mkHost (host_name h) (host_expr h) (buildRequestRuleExpr (preset_groups p))) true)
    (generateExprFromVisualConfig (Some config))) as (d' & h' & Hs & _); [done|done|done|exact Hr|intros _; exact Hr|].
  by exists d', h'.
Qed.

(** The flag is not set, and the rules are those of the form already. *)
Lemma preset_same_rules :
  in_sync (d, mkTE s h false) -> host_rules h = buildRequestRuleExpr (preset_groups p) ->
  exists d' s' h' f', te_step (TEPreset p) (d, mkTE s h false) = Returns (Some (d', mkTE s' h' f'))
    /\ te_mode s' = VisualMode /\ te_config s' = Some config /\ te_groups s' = preset_groups p.
Proof.
  intros (Hd & Hsync & _) Hq. pose proof (render_inv _ _ Hd) as (Hn & He & Hu & _ & _ & Hf).
  cbn [fst snd te_host te_state] in *. rewrite Hsync in Hf. apply returns_inj in Hf.
  pose proof readable_preset as Hr. destruct Hp as (H1 & H2 & H3). unfold te_step. cbn [snd fst te_handle obind].
  rewrite (apply_preset_eq _ _ _ _ _ H1). rewrite <- Hq in Hr, H3 |- *. destruct h as [n x q]. cbn [host_name host_expr host_rules] in *.
  set (E := generateExprFromVisualConfig (Some config)) in *. set (s1 := preset_state p config s).
  pose proof (render_eq s1 (mkHost n x q) false E Hr eq_refl) as Hd1. set (d1 := mkRD _ _ _ _ _ _) in Hd1.
  assert (run_effects (Some d) d1 (mkTE s1 (mkHost n x q) false) = Returns (mkTE s1 (mkHost n E q) false)) as Hrun.
  { rewrite (run_effects_eq _ _ _ (mkTE s1 (mkHost n x q) false) Hd1).
    - rewrite (changed_same rd_name) by done. f_equal. f_equal. unfold pushed. cbn [host_name host_expr host_rules te_host d1 rd_effective rd_mode s1 te_state te_groups preset_state].
      f_equal; [|by rewrite <- Hq; destruct (changed dep_rule (Some d) _)].
      destruct (changed dep_billing (Some d) _) eqn:Ec; [done|]. apply changed_false in Ec. apply (f_equal fst) in Ec. rewrite Hf. exact Ec.
    - rewrite changed_same; [done|]. cbn. congruence. }
  destruct (decide (d = d1)) as [Hdd|Hdd].
  { unfold TE_RENDERS. rewrite Hdd, (settle_stop 5 _ _ Hd1). by eexists d1, s1, _, false. }
  unfold TE_RENDERS. rewrite (settle_one 5 _ _ _ _ Hd1 (fun Z => Hdd (inj Some _ _ Z)) Hrun).
  destruct (decide (E = x)) as [Hx|Hx].
  { assert (te_render (mkTE s1 (mkHost n E q) false) = Returns d1) as Hd2 by (by rewrite Hx, Hd1).
    rewrite (settle_stop 4 _ _ Hd2). by eexists d1, s1, _, false. }
  destruct (settle_reinit 1 d1 s1 (mkHost n E q) E (Some (preset_groups p)) E) as (d' & h' & Hset & _);
    [done| |done|done|intros _; cbn [s1 te_groups preset_state]; by rewrite <- Hq|cbn [default from_option Datatypes.id]; by rewrite <- Hq| |].
  - cbn. intros [= Hz]. by apply Hx.
  - cbn [host_expr host_rules]. by rewrite (init_visual _ _ _ config).
  - cbn [host_expr host_rules] in Hset. rewrite (init_visual _ _ _ config) in Hset by done.
    eexists d', _, h', true. split; [exact Hset|done].
Qed.

(** The flag is not set, and the preset's rules are new: the initial effect runs
    on the old price. *)
Lemma preset_other_rules old :
  in_sync (d, mkTE s h false) -> host_rules h <> buildRequestRuleExpr (preset_groups p) ->
  tryParseVisualConfig (Some (host_expr h)) = Some old ->
  exists d' s' h', te_step (TEPreset p) (d, mkTE s h false) = Returns (Some (d', mkTE s' h' true))
    /\ te_mode s' = VisualMode /\ te_config s' = Some old /\ te_groups s' = preset_groups p.
Proof.
  intros (Hd & _) Hq Hold. pose proof (render_inv _ _ Hd) as (Hn & He & Hu & _).
  cbn [fst snd te_host te_state] in *. pose proof readable_preset as Hr. destruct Hp as (H1 & _ & H3).
  unfold te_step. cbn [snd fst te_handle obind]. rewrite (apply_preset_eq _ _ _ _ _ H1).
  destruct (settle_reinit 2 d (preset_state p config s) (mkHost (host_name h) (host_expr h) (buildRequestRuleExpr (preset_groups p)))
    (generateExprFromVisualConfig (Some config)) (Some (preset_groups p))
    (generateExprFromVisualConfig (Some old))) as (d' & h' & Hset & _); [done| |done|done|done|done| |].
  - cbn [host_expr host_rules]. rewrite Hu. intros [= _ Hz]. by apply Hq.
  - cbn [host_expr host_rules]. by rewrite (init_visual _ _ _ old).
  - cbn [host_expr host_rules] in Hset. rewrite (init_visual _ _ _ old) in Hset by done.
    eexists d', _, h'. split; [exact Hset|done].
Qed.
End Preset.

(** Every preset template does what its button says once the initial effect
    has run for good, or when the form has the preset's rules already: the editor
    rests in visual mode with the tiers the template's expression describes and
    its rules, and the form holds the expressions of both. *)
Theorem preset_applied p r :
  te_reachable r -> In p all_presets ->
  te_initRef r.2 = true \/ host_rules (te_host r.2) = buildRequestRuleExpr (preset_groups p) ->
  exists config d e, tryParseVisualConfig (Some (preset_expr p)) = Some config
    /\ te_step (TEPreset p) r = Returns (Some (d, e))
    /\ te_mode (te_state e) = VisualMode /\ te_config (te_state e) = Some config
    /\ te_groups (te_state e) = preset_groups p
    /\ host_expr (te_host e) = generateExprFromVisualConfig (Some config)
    /\ host_rules (te_host e) = buildRequestRuleExpr (preset_groups p).
Proof.
  intros Hr%reachable_sync Hin Hcase. pose proof (proj1 (List.Forall_forall _ _) presets_readable p Hin) as (config & Hp).
  destruct r as [d [s h f]]. cbn [snd te_initRef te_host] in Hcase.
  assert (exists d' s' h' f', te_step (TEPreset p) (d, mkTE s h f) = Returns (Some (d', mkTE s' h' f'))
    /\ te_mode s' = VisualMode /\ te_config s' = Some config /\ te_groups s' = preset_groups p)
    as (d' & s' & h' & f' & Hs & Hm & Hc & Hg).
  { destruct f.
    - destruct (preset_frozen p config d s h Hp Hr) as (d' & h' & Hs). by eexists d', _, h', true.
    - destruct Hcase as [|Hq]; [done|]. by apply preset_same_rules. }
  pose proof (step_visual _ _ _ _ _ _ _ Hr Hs Hm Hc) as [He Hu]. rewrite Hg in Hu.
  exists config, d', (mkTE s' h' f'). by destruct Hp as (H1 & _).
Qed.

Definition flat_preset : Preset := mkPreset (js "flat") (js "Flat") (tier_call (js "base") (js "p * 2 + c * 4")) None.

Lemma preset_applied_witness :
  exists d e, te_step (TEPreset flat_preset) flat_open = Returns (Some (d, e))
    /\ te_mode (te_state e) = VisualMode.
Proof.
  destruct (preset_applied flat_preset flat_open) as (config & d & e & _ & H1 & H2 & _).
  - apply (reach_open flat_host), flat_opens.
  - left. reflexivity.
  - right. vm_compute. reflexivity.
  - exists d, e. split; [exact H1|exact H2].
Defined.

(** A template with request rules, chosen as the first thing after opening a
    price the editor reads, loses its price: the rules it pushes to the form make
    the initial effect run again, on the price that was there before. At rest
    the editor and the form hold the old price with the template's rules. *)
Theorem first_preset_keeps_old_price p r old :
  te_reachable r -> In p all_presets -> te_initRef r.2 = false ->
  host_rules (te_host r.2) <> buildRequestRuleExpr (preset_groups p) ->
  tryParseVisualConfig (Some (host_expr (te_host r.2))) = Some old ->
  exists d e, te_step (TEPreset p) r = Returns (Some (d, e))
    /\ te_config (te_state e) = Some old /\ te_groups (te_state e) = preset_groups p
    /\ host_expr (te_host e) = generateExprFromVisualConfig (Some old)
    /\ host_rules (te_host e) = buildRequestRuleExpr (preset_groups p).
Proof.
  intros Hr%reachable_sync Hin Hf Hq Hold.
  pose proof (proj1 (List.Forall_forall _ _) presets_readable p Hin) as (config & Hp).
  destruct r as [d [s h f]]. cbn [snd te_initRef te_host] in *. subst f.
  destruct (preset_other_rules p config d s h Hp old Hr Hq Hold) as (d' & s' & h' & Hs & Hm & Hc & Hg).
  pose proof (step_visual _ _ _ _ _ _ _ Hr Hs Hm Hc) as [He Hu]. rewrite Hg in Hu.
  by exists d', (mkTE s' h' true).
Qed.

Definition night_preset : Preset := nth 0 (pg_presets (nth 4 PRESET_GROUPS (mkPresetGroup [] []))) flat_preset.

Lemma first_preset_keeps_old_price_witness :
  preset_key night_preset = js "night-discount"
  /\ exists d e, te_step (TEPreset night_preset) flat_open = Returns (Some (d, e))
       /\ host_expr (te_host e) = host_expr flat_host.
Proof.
  split; [reflexivity|].
  destruct (tryParseVisualConfig (Some (host_expr (te_host flat_open.2)))) as [old|] eqn:Hold; [|exfalso; revert Hold; vm_compute; discriminate].
  destruct (first_preset_keeps_old_price night_preset flat_open old) as (d & e & H1 & _ & _ & H2 & _).
  - apply (reach_open flat_host), flat_opens.
  - unfold all_presets. cbn [PRESET_GROUPS map pg_presets concat app]. do 13 right. left. reflexivity.
  - vm_compute. reflexivity.
  - apply str_eqb_neq. vm_compute. reflexivity.
  - exact Hold.
  - exists d, e. split; [exact H1|]. rewrite H2.
    assert ((fun c => generateExprFromVisualConfig (Some c)) <$> tryParseVisualConfig (Some (host_expr (te_host flat_open.2)))
            = Some (host_expr flat_host)) as Hgen by (vm_compute; reflexivity).
    rewrite Hold in Hgen. apply (inj Some) in Hgen. exact Hgen.
Defined.

(** ** The first edit of the text *)

(** The first edit of the expression's text throws the user out of the raw
    editor whenever the text still describes tiers: the price it pushes to the
    form makes the initial effect run again, which selects the visual mode. *)
Theorem first_raw_edit_leaves_raw r value expr gs config :
  te_reachable r -> te_initRef r.2 = false -> te_mode (te_state r.2) = RawMode ->
  forallb wf_group gs = true -> host_rules (te_host r.2) = buildRequestRuleExpr gs ->
  splitBillingExprAndRequestRules value = Returns (expr, buildRequestRuleExpr gs) ->
  expr <> host_expr (te_host r.2) -> tryParseVisualConfig (Some expr) = Some config ->
  exists d e, te_step (TERaw value) r = Returns (Some (d, e))
    /\ te_mode (te_state e) = VisualMode /\ te_config (te_state e) = Some config
    /\ host_expr (te_host e) = generateExprFromVisualConfig (Some config)
    /\ host_rules (te_host e) = buildRequestRuleExpr gs.
Proof.
  intros Hr%reachable_sync Hfl Hm Hw Hq Hv Hx Hc. pose proof (rules_reread gs Hw) as Hg.
  pose proof (readable_built gs Hw) as Hb. destruct r as [d [s [n x q] f]].
  cbn [snd te_initRef te_host te_state host_expr host_rules] in *. subst f q. set (q := buildRequestRuleExpr gs) in *.
  pose proof Hr as (Hd & Hsync & _). pose proof (render_inv _ _ Hd) as (Hn & He & Hu & _ & _ & Hf).
  cbn [fst snd te_host te_state host_name host_expr host_rules] in *. rewrite Hsync in Hf. apply returns_inj in Hf.
  set (s1 := te_set_raw value s).
  assert (effectiveExpr s1 = Returns expr) as He1 by (unfold effectiveExpr; cbn [s1 te_set_raw te_mode te_raw]; by rewrite Hm, Hv).
  pose proof (render_eq s1 (mkHost n x q) false expr Hb He1) as Hd1. set (d1 := mkRD _ _ _ _ _ _) in Hd1.
  assert (Some d <> Some d1) as Hdd by (intros Z; apply (inj Some) in Z; apply Hx; rewrite Hf, Z; reflexivity).
  assert (run_effects (Some d) d1 (mkTE s1 (mkHost n x q) false) = Returns (mkTE s1 (mkHost n expr q) false)) as Hrun.
  { rewrite (run_effects_eq _ _ _ (mkTE s1 (mkHost n x q) false) Hd1).
    - rewrite (changed_same rd_name) by done. unfold pushed. rewrite (changed_other dep_billing) by (intros [= Z]; apply Hx; by rewrite Hf).
      cbn [d1 rd_mode s1 te_set_raw te_mode]. rewrite Hm. by destruct (changed dep_rule _ _).
    - rewrite changed_same; [done|]. cbn. congruence. }
  destruct (settle_reinit 1 d1 s1 (mkHost n expr q) expr (Some gs) (generateExprFromVisualConfig (Some config)))
    as (d' & h' & Hset & _); [done| |done|done| |done| |].
  - cbn. intros [= Z]. by apply Hx.
  - cbn [s1 te_set_raw te_mode]. by rewrite Hm.
  - cbn [host_expr host_rules]. by rewrite (init_visual _ _ _ config).
  - cbn [host_expr host_rules] in Hset. rewrite (init_visual _ _ _ config) in Hset by done.
    assert (te_step (TERaw value) (d, mkTE s (mkHost n x q) false)
            = Returns (Some (d', mkTE (mkTES VisualMode (Some config) (combineBillingExpr expr q) gs (S (te_groups_ref s1))) h' true))) as Hstep.
    { unfold te_step. cbn [snd fst te_handle]. unfold handleRawChange. rewrite Hv. cbn [obind snd].
      unfold onRequestRuleExprChange. cbn [te_host te_state te_initRef host_name host_expr].
      exact (eq_trans (settle_one 5 _ _ _ _ Hd1 Hdd Hrun) Hset). }
    pose proof (step_visual _ _ _ _ _ _ _ Hr Hstep eq_refl eq_refl) as [H1 H2].
    eexists d', _. split; [exact Hstep|]. done.
Qed.

(** [flat_open] in the raw editor. *)
Definition flat_raw : RenderDeps * TierEditor :=
  match te_step (TEMode RawMode) flat_open with Returns (Some r) => r | _ => flat_open end.

Lemma flat_raw_reached : te_reachable flat_raw.
Proof.
  apply (reach_step (TEMode RawMode) flat_open); [apply (reach_open flat_host), flat_opens|].
  vm_compute. reflexivity.
Qed.

Definition edited_text : jsstr := tier_call (js "base") (js "p * 25 + c * 4").

Lemma first_raw_edit_leaves_raw_witness :
  te_mode (te_state flat_raw.2) = RawMode
  /\ exists d e, te_step (TERaw edited_text) flat_raw = Returns (Some (d, e)) /\ te_mode (te_state e) = VisualMode.
Proof.
  split; [vm_compute; reflexivity|].
  destruct (tryParseVisualConfig (Some edited_text)) as [config|] eqn:Hc; [|exfalso; revert Hc; vm_compute; discriminate].
  destruct (first_raw_edit_leaves_raw flat_raw edited_text edited_text [] config) as (d & e & H1 & H2 & _).
  - exact flat_raw_reached.
  - vm_compute. reflexivity.
  - vm_compute. reflexivity.
  - reflexivity.
  - vm_compute. reflexivity.
  - vm_compute. reflexivity.
  - apply str_eqb_neq. vm_compute. reflexivity.
  - exact Hc.
  - exists d, e. split; [exact H1|exact H2].
Defined.
