(* ===== verification/PricingSheet.v ===== *)
(** * The price form of one model

    Model of src/web/default/src/features/system-settings/models/model-pricing-sheet.tsx
    ([ModelPricingEditorPanel]) and of the lane tables of model-pricing-core.ts: the
    state of the panel, the effect that loads a model, the handlers of the price
    fields and switches, the checks and the data handed to the caller on save,
    and the tiered pricing editor mounted on its third tab. *)

From S2P Require Import Prelude JsStr JsRegex JsNum JsJson BillingExpr TierExpr TierEditor ModelPricing.

Local Open Scope js_scope.

(** ** Fields, lanes and drafts *)

Inductive FormField :=
| F_name | F_price | F_ratio | F_cacheRatio | F_createCacheRatio | F_completionRatio
| F_imageRatio | F_audioRatio | F_audioCompletionRatio.

#[export] Instance form_field_eq_dec : EqDecision FormField.
Proof. solve_decision. Defined.
#[export] Instance lane_key_eq_dec : EqDecision LaneKey.
Proof. solve_decision. Defined.

Definition ratioFieldByLane (lane : LaneKey) : FormField :=
  match lane with
  | L_completion => F_completionRatio
  | L_cache => F_cacheRatio
  | L_createCache => F_createCacheRatio
  | L_image => F_imageRatio
  | L_audioInput => F_audioRatio
  | L_audioOutput => F_audioCompletionRatio
  end.

Definition lane_keys : list LaneKey := [L_completion; L_cache; L_createCache; L_image; L_audioInput; L_audioOutput].

Definition numericDraftRegex : regex :=
  (RBol +> ROpt (RAlt (RDigits +> ROpt (RStr (js ".") +> RStar (RChar is_digit)))
                      (RStr (js ".") +> RStar (RChar is_digit))) +> REol)%re.

Definition numeric_draft (value : jsstr) : bool := rtest numericDraftRegex value.

(** [{ ...record, [k]: v }]. *)
Definition upd {K V} `{EqDecision K} (k : K) (v : V) (f : K -> V) : K -> V :=
  fun k' => if decide (k' = k) then v else f k'.

(** ** The panel *)

Record Sheet := mkSheet {
  sh_mode : PricingMode;
  sh_promptPrice : jsstr;
  sh_lanePrices : LaneKey -> jsstr;
  sh_laneEnabled : LaneKey -> bool;
  sh_form : FormField -> jsstr;
  sh_billingExpr : jsstr;
  sh_requestRuleExpr : jsstr;
  sh_reloadToken : nat
}.

Definition sheet_mount : Sheet :=
  mkSheet per_token [] (fun _ => []) (fun _ => false) (fun _ => []) [] [] 0.

(** The form's values for a model; [form.reset]. *)
Definition reset_values (data : ModelRatioData) (f : FormField) : jsstr :=
  match f with
  | F_name => d_name data
  | F_price => d_price data
  | F_ratio => d_ratio data
  | F_cacheRatio => d_cacheRatio data
  | F_createCacheRatio => d_createCacheRatio data
  | F_completionRatio => d_completionRatio data
  | F_imageRatio => d_imageRatio data
  | F_audioRatio => d_audioRatio data
  | F_audioCompletionRatio => d_audioCompletionRatio data
  end.

(** The effect on [editData]. *)
Definition sheet_load (editData : option ModelRatioData) (s : Sheet) : Sheet :=
  let next := createInitialLaneState editData in
  match editData with
  | Some data =>
      mkSheet (match d_billingMode data with
               | tiered_expr => tiered_expr
               | _ => if truthy (d_price data) then per_request else per_token
               end)
        (promptPrice next) (prices next) (enabled next) (reset_values data)
        (d_billingExpr data) (d_requestRuleExpr data) (S (sh_reloadToken s))
  | None =>
      mkSheet per_token (promptPrice next) (prices next) (enabled next) (fun _ => []) [] [] (S (sh_reloadToken s))
  end.

Definition set_form (f : FormField) (v : jsstr) (s : Sheet) : Sheet :=
  mkSheet (sh_mode s) (sh_promptPrice s) (sh_lanePrices s) (sh_laneEnabled s) (upd f v (sh_form s))
          (sh_billingExpr s) (sh_requestRuleExpr s) (sh_reloadToken s).
Definition set_prompt (v : jsstr) (s : Sheet) : Sheet :=
  mkSheet (sh_mode s) v (sh_lanePrices s) (sh_laneEnabled s) (sh_form s)
          (sh_billingExpr s) (sh_requestRuleExpr s) (sh_reloadToken s).
Definition set_lanes (p : LaneKey -> jsstr) (e : LaneKey -> bool) (s : Sheet) : Sheet :=
  mkSheet (sh_mode s) (sh_promptPrice s) p e (sh_form s)
          (sh_billingExpr s) (sh_requestRuleExpr s) (sh_reloadToken s).

Definition deriveLaneRatio (lane : LaneKey) (price nextPromptPrice : jsstr) (nextLanePrices : LaneKey -> jsstr) : jsstr :=
  match toNumberOrNull price with
  | None => []
  | Some priceNumber =>
      let base := match lane with
                  | L_audioOutput => nextLanePrices L_audioInput
                  | _ => nextPromptPrice
                  end in
      match toNumberOrNull base with
      | None => []
      | Some b => if neq b zero then [] else formatPricingNumber (ndiv priceNumber b)
      end
  end.

Definition input_ratio (nextPromptPrice : jsstr) : jsstr :=
  match toNumberOrNull nextPromptPrice with
  | Some p => formatPricingNumber (ndiv p (num_of_Z 2))
  | None => []
  end.

Definition syncLaneRatios (nextPromptPrice : jsstr) (nextLanePrices : LaneKey -> jsstr)
    (nextLaneEnabled : LaneKey -> bool) (s : Sheet) : Sheet :=
  foldl (fun s key =>
      set_form (ratioFieldByLane key)
        (if nextLaneEnabled key then deriveLaneRatio key (nextLanePrices key) nextPromptPrice nextLanePrices else []) s)
    (set_form F_ratio (input_ratio nextPromptPrice) s) lane_keys.

Definition handlePromptPriceChange (value : jsstr) (s : Sheet) : Sheet :=
  if negb (numeric_draft value) then s
  else syncLaneRatios value (sh_lanePrices s) (sh_laneEnabled s) (set_prompt value s).

Definition handleLanePriceChange (lane : LaneKey) (value : jsstr) (s : Sheet) : Sheet :=
  if negb (numeric_draft value) then s
  else
    let next := upd lane value (sh_lanePrices s) in
    let s1 := set_lanes next (sh_laneEnabled s) s in
    let s2 := if sh_laneEnabled s lane
              then set_form (ratioFieldByLane lane) (deriveLaneRatio lane value (sh_promptPrice s) next) s1 else s1 in
    if bool_decide (lane = L_audioInput) && sh_laneEnabled s L_audioOutput
    then set_form F_audioCompletionRatio
           (deriveLaneRatio L_audioOutput (next L_audioOutput) (sh_promptPrice s) next) s2
    else s2.

Definition handleLaneToggle (lane : LaneKey) (checked : bool) (s : Sheet) : Sheet :=
  let nextEnabled := upd lane checked (sh_laneEnabled s) in
  if checked
  then set_form (ratioFieldByLane lane)
         (deriveLaneRatio lane (sh_lanePrices s lane) (sh_promptPrice s) (sh_lanePrices s))
         (set_lanes (sh_lanePrices s) nextEnabled s)
  else
    let nextPrices := upd lane [] (sh_lanePrices s) in
    let s1 := set_form (ratioFieldByLane lane) [] s in
    match lane with
    | L_audioInput =>
        set_lanes (upd L_audioOutput [] nextPrices) (upd L_audioOutput false nextEnabled)
          (set_form F_audioCompletionRatio [] s1)
    | _ => set_lanes nextPrices nextEnabled s1
    end.

Definition sheet_handleModeChange (nextMode : PricingMode) (s : Sheet) : Sheet :=
  mkSheet nextMode (sh_promptPrice s) (sh_lanePrices s) (sh_laneEnabled s) (sh_form s)
    (match nextMode with
     | tiered_expr => if truthy (sh_billingExpr s) then sh_billingExpr s
                      else tier_call (js "base") (js "p * 0 + c * 0")
     | _ => sh_billingExpr s
     end)
    (sh_requestRuleExpr s) (sh_reloadToken s).

(** The name field, which is disabled when a model is edited, and the fixed
    price. *)
Definition handleNameChange (isEditMode : bool) (value : jsstr) (s : Sheet) : Sheet :=
  if isEditMode then s else set_form F_name value s.
Definition handleFixedPriceChange (value : jsstr) (s : Sheet) : Sheet :=
  if numeric_draft value then set_form F_price value s else s.

(** Whether a lane's switch is disabled, and its price field. *)
Definition lane_disabled (lane : LaneKey) (s : Sheet) : bool :=
  bool_decide (lane = L_audioOutput)
  && (negb (sh_laneEnabled s L_audioInput) || negb (hasValue (sh_lanePrices s L_audioInput))).
Definition lane_field_disabled (lane : LaneKey) (s : Sheet) : bool :=
  lane_disabled lane s || negb (sh_laneEnabled s lane).

(** ** Checks and save *)

Definition needs_input_price (s : Sheet) : bool :=
  match sh_mode s with
  | per_token =>
      match toNumberOrNull (sh_promptPrice s) with None => true | Some _ => false end
      && existsb (fun key => sh_laneEnabled s key && hasValue (sh_lanePrices s key)) lane_keys
  | _ => false
  end.

Definition needs_audio_input (s : Sheet) : bool :=
  match sh_mode s with
  | per_token => sh_laneEnabled s L_audioOutput && negb (hasValue (sh_lanePrices s L_audioInput))
  | _ => false
  end.

Definition CONFLICT_WARNING : jsstr :=
  js "This model has both fixed-price and token-price settings. Saving the current mode will rewrite the conflicting fields.".
Definition INPUT_WARNING : jsstr := js "Input price is required before saving dependent prices.".
Definition AUDIO_WARNING : jsstr := js "Audio output price requires an audio input price.".

Definition has_conflict (editData : option ModelRatioData) : bool :=
  match editData with
  | None => false
  | Some d =>
      truthy (d_price d)
      && existsb hasValue [d_ratio d; d_completionRatio d; d_cacheRatio d; d_createCacheRatio d; d_imageRatio d;
                           d_audioRatio d; d_audioCompletionRatio d]
  end.

Definition sheet_warnings (editData : option ModelRatioData) (s : Sheet) : list jsstr :=
  (if has_conflict editData then [CONFLICT_WARNING] else [])
  ++ (if needs_input_price s then [INPUT_WARNING] else [])
  ++ (if needs_audio_input s then [AUDIO_WARNING] else []).

(** The field and the message of the error that is set, or [None] when the
    values are valid. *)
Definition validatePricingValues (s : Sheet) : option (FormField * jsstr) :=
  if needs_input_price s then Some (F_ratio, INPUT_WARNING)
  else if needs_audio_input s then Some (F_audioRatio, AUDIO_WARNING)
  else None.

Definition buildSubmitData (s : Sheet) : ModelRatioData :=
  let v := sh_form s in
  mkRatioData (trim (v F_name)) (v F_price) (v F_ratio) (v F_cacheRatio) (v F_createCacheRatio)
    (v F_completionRatio) (v F_imageRatio) (v F_audioRatio) (v F_audioCompletionRatio) (sh_mode s)
    (match sh_mode s with tiered_expr => sh_billingExpr s | _ => [] end)
    (match sh_mode s with tiered_expr => sh_requestRuleExpr s | _ => [] end).

(** [createModelPricingSchema]: the name is required. *)
Definition schema_valid (s : Sheet) : bool := truthy (sh_form s F_name).

Definition commitDraft (s : Sheet) : option ModelRatioData :=
  if negb (schema_valid s) then None
  else match validatePricingValues s with
       | Some _ => None
       | None => Some (buildSubmitData s)
       end.

(** ** The third tab *)

(** The properties the panel passes to [TieredPricingEditor]; its setters are the
    panel's. *)
Definition sheet_host (s : Sheet) : Host := mkHost (sh_form s F_name) (sh_billingExpr s) (sh_requestRuleExpr s).

Definition with_host (h : Host) (s : Sheet) : Sheet :=
  mkSheet (sh_mode s) (sh_promptPrice s) (sh_lanePrices s) (sh_laneEnabled s) (sh_form s)
          (host_expr h) (host_rules h) (sh_reloadToken s).

(** The panel once the effects of the tab that is shown have come to rest. *)
Definition sheet_shown (s : Sheet) : outcome (option Sheet) :=
  match sh_mode s with
  | tiered_expr =>
      let! r := te_open (sheet_host s) in
      Returns ((fun r => with_host (te_host r.2) s) <$> r)
  | _ => Returns (Some s)
  end.

(** What the user does on the first two tabs. *)
Inductive SheetEdit :=
| SEPrompt (value : jsstr)
| SELanePrice (lane : LaneKey) (value : jsstr)
| SELaneToggle (lane : LaneKey) (checked : bool)
| SEMode (mode : PricingMode)
| SEName (isEditMode : bool) (value : jsstr)
| SEFixedPrice (value : jsstr).

Definition sheet_edit (e : SheetEdit) (s : Sheet) : Sheet :=
  match e with
  | SEPrompt value => handlePromptPriceChange value s
  | SELanePrice lane value => handleLanePriceChange lane value s
  | SELaneToggle lane checked => handleLaneToggle lane checked s
  | SEMode mode => sheet_handleModeChange mode s
  | SEName isEdit value => handleNameChange isEdit value s
  | SEFixedPrice value => handleFixedPriceChange value s
  end.
