(* ===== verification/PricingSheetProps.v ===== *)
(** * The price form of one model: the properties

    The hidden ratio fields follow the prices that are shown, an unedited model
    is handed back as it was loaded, and what saving stores after the fixed price
    is left behind or after the third tab was shown. *)

From S2P Require Import Prelude JsStr JsRegex JsNum JsJson BillingExpr BillingRoundTrip BillingProps TierExpr TierProps TierEditor TierEditorProps TierEditorOpen ModelPricing ModelPricingProps PricingSheet.

Local Open Scope js_scope.

(** ** Ratios follow prices *)

Lemma upd_same {K V} `{EqDecision K} (k : K) (v : V) f : upd k v f k = v.
Proof. unfold upd. by rewrite decide_True. Qed.

Lemma upd_other {K V} `{EqDecision K} (k k' : K) (v : V) f : k' <> k -> upd k v f k' = f k'.
Proof. intros H. unfold upd. by rewrite decide_False. Qed.

(** The ratio field of a lane, as the prices on the screen give it. *)
Definition shown_ratio (s : Sheet) (k : LaneKey) : jsstr :=
  if sh_laneEnabled s k then deriveLaneRatio k (sh_lanePrices s k) (sh_promptPrice s) (sh_lanePrices s) else [].

Definition ratios_follow (s : Sheet) : Prop :=
  sh_form s F_ratio = input_ratio (sh_promptPrice s)
  /\ forall k, sh_form s (ratioFieldByLane k) = shown_ratio s k.

Lemma lane_field_inj k k' : ratioFieldByLane k = ratioFieldByLane k' -> k = k'.
Proof. by destruct k, k'. Qed.

Lemma lane_field_not_ratio k : ratioFieldByLane k <> F_ratio.
Proof. by destruct k. Qed.

(** The base of a lane's ratio. *)
Lemma derive_ext lane price prompt f g :
  (lane = L_audioOutput -> f L_audioInput = g L_audioInput) ->
  deriveLaneRatio lane price prompt f = deriveLaneRatio lane price prompt g.
Proof. intros H. unfold deriveLaneRatio. destruct lane; try done. by rewrite H. Qed.

Lemma derive_empty lane prompt f : deriveLaneRatio lane [] prompt f = [].
Proof. reflexivity. Qed.

Lemma sync_follows value s :
  ratios_follow (syncLaneRatios value (sh_lanePrices s) (sh_laneEnabled s) (set_prompt value s)).
Proof. split; [reflexivity|]. by intros []. Qed.

Lemma prompt_follows value s : numeric_draft value = true -> ratios_follow (handlePromptPriceChange value s).
Proof. intros H. unfold handlePromptPriceChange. rewrite H. apply sync_follows. Qed.

Lemma lane_price_follows lane value s : ratios_follow s -> ratios_follow (handleLanePriceChange lane value s).
Proof.
  intros [Hr Hk]. unfold handleLanePriceChange. destruct (numeric_draft value); [|done]. cbn [negb]. cbv zeta.
  set (next := upd lane value (sh_lanePrices s)). set (en := sh_laneEnabled s) in *.
  set (s1 := set_lanes next en s).
  set (s2 := if en lane then set_form (ratioFieldByLane lane) (deriveLaneRatio lane value (sh_promptPrice s) next) s1 else s1).
  assert (forall f, f <> ratioFieldByLane lane -> sh_form s2 f = sh_form s f) as Hf2.
  { intros f Hf. subst s2. destruct (en lane); [|done]. cbn [set_form sh_form]. by rewrite upd_other. }
  assert (sh_form s2 (ratioFieldByLane lane)
          = if en lane then deriveLaneRatio lane (next lane) (sh_promptPrice s) next else []) as Hlane.
  { subst s2 next. rewrite upd_same. destruct (en lane) eqn:E; [cbn [set_form sh_form]; by rewrite upd_same|].
    change (sh_form s (ratioFieldByLane lane) = []). rewrite Hk. unfold shown_ratio. fold en. by rewrite E. }
  assert (sh_promptPrice s2 = sh_promptPrice s /\ sh_lanePrices s2 = next /\ sh_laneEnabled s2 = en) as (Hp & Hn & He)
    by (subst s2; by destruct (en lane)).
  clearbody s2. clear s1.
  assert (forall k, k <> lane -> (k = L_audioOutput -> lane <> L_audioInput) ->
    sh_form s2 (ratioFieldByLane k) = if en k then deriveLaneRatio k (next k) (sh_promptPrice s) next else []) as Hother.
  { intros k Hne Ha. rewrite Hf2 by (by intros Z%lane_field_inj). rewrite Hk. unfold shown_ratio. fold en. subst next.
    rewrite upd_other by done. destruct (en k); [|done]. apply derive_ext. intros Hout. symmetry. apply upd_other.
    intros Hin. by apply (Ha Hout). }
  destruct (bool_decide (lane = L_audioInput) && en L_audioOutput) eqn:Ea.
  - apply andb_true_iff in Ea as [->%bool_decide_eq_true Eout]. unfold ratios_follow, shown_ratio.
    cbn [set_form sh_form sh_promptPrice sh_lanePrices sh_laneEnabled]. rewrite Hp, Hn, He. split.
    + rewrite upd_other by done. by rewrite Hf2.
    + intros k. destruct (decide (k = L_audioOutput)) as [->|Ho].
      * rewrite Eout. exact (upd_same F_audioCompletionRatio _ _).
      * rewrite upd_other by (by intros Z%(lane_field_inj k L_audioOutput)).
        destruct (decide (k = L_audioInput)) as [->|Hi]; [exact Hlane|]. by apply Hother.
  - unfold ratios_follow, shown_ratio. rewrite Hp, Hn, He. split; [by rewrite Hf2 by apply not_eq_sym, lane_field_not_ratio|].
    intros k. destruct (decide (k = lane)) as [->|Hne]; [exact Hlane|].
    destruct (decide (k = L_audioOutput /\ lane = L_audioInput)) as [[-> ->]|Hc].
    + rewrite bool_decide_true in Ea by done. cbn [andb] in Ea. rewrite Ea.
      rewrite Hf2 by done. rewrite Hk. unfold shown_ratio. fold en. by rewrite Ea.
    + apply Hother; [done|]. intros -> ->. by apply Hc.
Qed.

Lemma toggle_on_follows lane s : ratios_follow s -> ratios_follow (handleLaneToggle lane true s).
Proof.
  intros [Hr Hk]. unfold handleLaneToggle, ratios_follow, shown_ratio.
  cbn [set_form set_lanes sh_form sh_promptPrice sh_lanePrices sh_laneEnabled]. split.
  - by rewrite upd_other by apply not_eq_sym, lane_field_not_ratio.
  - intros k. destruct (decide (k = lane)) as [->|Hne]; [by rewrite !upd_same|].
    rewrite !upd_other by (done || by intros Z%lane_field_inj). apply Hk.
Qed.

(** A lane that is switched off, with its price and its ratio cleared; nothing
    else is based on it. *)
Lemma off_follows lane s :
  (lane = L_audioInput -> sh_laneEnabled s L_audioOutput = false) -> ratios_follow s ->
  ratios_follow (set_lanes (upd lane [] (sh_lanePrices s)) (upd lane false (sh_laneEnabled s))
                   (set_form (ratioFieldByLane lane) [] s)).
Proof.
  intros Ha [Hr Hk]. unfold ratios_follow, shown_ratio.
  cbn [set_form set_lanes sh_form sh_promptPrice sh_lanePrices sh_laneEnabled]. split.
  - by rewrite upd_other by apply not_eq_sym, lane_field_not_ratio.
  - intros k. destruct (decide (k = lane)) as [->|Hne]; [by rewrite !upd_same|].
    rewrite !upd_other by (done || by intros Z%lane_field_inj). rewrite Hk. unfold shown_ratio.
    destruct (sh_laneEnabled s k) eqn:E; [|done]. apply derive_ext. intros ->. symmetry. apply upd_other.
    intros <-. specialize (Ha eq_refl). congruence.
Qed.

Lemma ratios_ext s s' :
  (forall f, sh_form s' f = sh_form s f) -> sh_promptPrice s' = sh_promptPrice s ->
  (forall k, sh_lanePrices s' k = sh_lanePrices s k) -> (forall k, sh_laneEnabled s' k = sh_laneEnabled s k) ->
  ratios_follow s -> ratios_follow s'.
Proof.
  intros Hf Hp Hl He [Hr Hk]. split; [by rewrite Hf, Hp|]. intros k. rewrite Hf, Hk. unfold shown_ratio.
  rewrite Hp, He, Hl. destruct (sh_laneEnabled s k); [|done]. by apply derive_ext.
Qed.

Lemma toggle_off_follows lane s : ratios_follow s -> ratios_follow (handleLaneToggle lane false s).
Proof.
  intros H. destruct (decide (lane = L_audioInput)) as [->|Hne].
  - pose proof (off_follows L_audioOutput s ltac:(done) H) as H1.
    pose proof (fun Ha => off_follows L_audioInput _ Ha H1) as H2. specialize (H2 ltac:(intros _; apply upd_same)).
    revert H2. apply ratios_ext; [by intros []|done|by intros []|by intros []].
  - assert (handleLaneToggle lane false s
            = set_lanes (upd lane [] (sh_lanePrices s)) (upd lane false (sh_laneEnabled s))
                (set_form (ratioFieldByLane lane) [] s)) as -> by (by destruct lane).
    by apply off_follows.
Qed.

Lemma edit_follows e s : ratios_follow s -> ratios_follow (sheet_edit e s).
Proof.
  intros H. destruct e as [value|lane value|lane []|mode|[] value|value]; cbn [sheet_edit].
  - unfold handlePromptPriceChange. destruct (numeric_draft value); [apply sync_follows|done].
  - by apply lane_price_follows.
  - by apply toggle_on_follows.
  - by apply toggle_off_follows.
  - exact H.
  - exact H.
  - destruct H as [Hr Hk]. split; [exact Hr|]. intros []; apply Hk.
  - unfold handleFixedPriceChange. destruct (numeric_draft value); [|done].
    destruct H as [Hr Hk]. split; [exact Hr|]. intros []; apply Hk.
Qed.

(** C30: from the first edit of the input price on, and for a new model from the
    start, the ratio fields that are saved are those the prices on the screen
    give: half the input price, a lane's price over the input price (the audio
    output's over the audio input's), and nothing for a lane that is off,
    whatever is typed and switched, in whatever order. *)
Theorem ratios_follow_prices s0 value es :
  numeric_draft value = true ->
  ratios_follow (foldl (fun s e => sheet_edit e s) (handlePromptPriceChange value s0) es)
  /\ ratios_follow (foldl (fun s e => sheet_edit e s) (sheet_load None s0) es).
Proof.
  intros Hv. assert (forall s, ratios_follow s -> ratios_follow (foldl (fun s e => sheet_edit e s) s es)) as Hall.
  { induction es as [|e es IH]; intros s Hs; [done|]. cbn [foldl]. by apply IH, edit_follows. }
  split; apply Hall; [by apply prompt_follows|]. split; [reflexivity|]. by intros [].
Qed.

Definition sample_edits : list SheetEdit :=
  [SELaneToggle L_audioInput true; SELanePrice L_audioInput (js "6"); SELaneToggle L_audioOutput true;
   SELanePrice L_audioOutput (js "12"); SELanePrice L_audioInput (js "4")].

Definition sample_sheet : Sheet :=
  foldl (fun s e => sheet_edit e s) (handlePromptPriceChange (js "3") sheet_mount) sample_edits.

Lemma ratios_follow_prices_witness :
  ratios_follow sample_sheet /\ sh_form sample_sheet F_audioCompletionRatio = js "3"
  /\ sh_form sample_sheet F_ratio = js "1.5".
Proof.
  split; [|split; vm_compute; reflexivity].
  assert (numeric_draft (js "3") = true) as H by (vm_compute; reflexivity).
  exact (proj1 (ratios_follow_prices sheet_mount (js "3") sample_edits H)).
Defined.

(** ** Loading and saving *)

(** A model as [edit_data] hands it over: the mode is the one its values say,
    and only a tiered price carries expressions. *)
Definition canonical (data : ModelRatioData) : bool :=
  truthy (d_name data) && str_eqb (trim (d_name data)) (d_name data)
  && match d_billingMode data with
     | tiered_expr => true
     | per_request => truthy (d_price data) && negb (truthy (d_billingExpr data)) && negb (truthy (d_requestRuleExpr data))
     | per_token => negb (truthy (d_price data)) && negb (truthy (d_billingExpr data))
                    && negb (truthy (d_requestRuleExpr data))
     end.

Lemma not_truthy s : negb (truthy s) = true -> s = [].
Proof. by destruct s. Qed.

Lemma submit_loaded data s : canonical data = true -> buildSubmitData (sheet_load (Some data) s) = data.
Proof.
  unfold canonical. rewrite !andb_true_iff. intros [[_ Ht%str_eqb_eq] Hm].
  destruct data as [n p r c cc co im au ac m be rr]. cbn [d_name d_billingMode d_price d_billingExpr d_requestRuleExpr] in *.
  unfold buildSubmitData, sheet_load. cbn [sh_form sh_mode reset_values d_name d_price d_ratio d_cacheRatio d_createCacheRatio
    d_completionRatio d_imageRatio d_audioRatio d_audioCompletionRatio d_billingMode d_billingExpr d_requestRuleExpr
    sh_billingExpr sh_requestRuleExpr]. rewrite Ht.
  destruct m; rewrite ?andb_true_iff in Hm; [destruct Hm as [[Hp%not_truthy ->%not_truthy] ->%not_truthy]; subst p|
    destruct Hm as [[Hp ->%not_truthy] ->%not_truthy]; rewrite Hp|]; reflexivity.
Qed.

(** A model that is loaded into the form and not edited is handed back as it
    was, when its values pass the form's checks. *)
Theorem load_save_identity data s :
  canonical data = true -> validatePricingValues (sheet_load (Some data) s) = None ->
  commitDraft (sheet_load (Some data) s) = Some data.
Proof.
  intros Hc Hv. unfold commitDraft. rewrite Hv, submit_loaded by done.
  assert (schema_valid (sheet_load (Some data) s) = true) as ->; [|done].
  unfold canonical in Hc. rewrite !andb_true_iff in Hc. by destruct Hc as [[H _] _].
Qed.

Definition token_priced : ModelRatioData :=
  mkRatioData (js "gpt-4o") [] (js "1.25") (js "0.5") [] (js "4") [] [] [] per_token [] [].

Lemma load_save_identity_witness :
  canonical token_priced = true /\ commitDraft (sheet_load (Some token_priced) sheet_mount) = Some token_priced.
Proof.
  split; [vm_compute; reflexivity|].
  apply (load_save_identity token_priced sheet_mount); vm_compute; reflexivity.
Defined.

(** ** A fixed price that is left behind *)

(** Edits that keep the mode out of the third tab and do not touch the fixed
    price, whose field is on the second tab only. *)
Definition keeps_fixed (e : SheetEdit) : bool :=
  match e with
  | SEFixedPrice _ => false
  | SEMode tiered_expr => false
  | _ => true
  end.

Lemma sync_price prompt lanes on s : sh_form (syncLaneRatios prompt lanes on s) F_price = sh_form s F_price
  /\ sh_mode (syncLaneRatios prompt lanes on s) = sh_mode s.
Proof. done. Qed.

Lemma edit_keeps_price e s :
  keeps_fixed e = true -> sh_mode s <> tiered_expr ->
  sh_form (sheet_edit e s) F_price = sh_form s F_price /\ sh_mode (sheet_edit e s) <> tiered_expr.
Proof.
  intros He Hm. destruct e as [value|lane value|lane []|[]|[] value|value]; try done; cbn [sheet_edit].
  - unfold handlePromptPriceChange. by destruct (numeric_draft value).
  - unfold handleLanePriceChange. destruct (numeric_draft value); [|done]. cbv zeta. cbn [negb].
    destruct (sh_laneEnabled s lane), (bool_decide (lane = L_audioInput) && sh_laneEnabled s L_audioOutput);
      by destruct lane.
  - by destruct lane.
  - by destruct lane.
Qed.

(** A fixed price outlives the switch to token prices: whatever is typed on
    the first tab afterwards, saving stores the old fixed price and no ratio,
    although the form is in per-token mode and its warning says that saving the
    current mode rewrites the conflicting fields. *)
Theorem fixed_price_outlives_mode s es data maps name :
  truthy (sh_form s F_price) = true -> forallb keeps_fixed es = true ->
  commitDraft (foldl (fun s e => sheet_edit e s) (sheet_handleModeChange per_token s) es) = Some data ->
  member name (persist_one data maps name ModelRatio) = None
  /\ member name (persist_one data maps name ModelPrice) = form_number (sh_form s F_price).
Proof.
  intros Hp Hes Hc.
  assert (forall s', sh_form s' F_price = sh_form s F_price -> sh_mode s' <> tiered_expr ->
    let s'' := foldl (fun s e => sheet_edit e s) s' es in
    sh_form s'' F_price = sh_form s F_price /\ sh_mode s'' <> tiered_expr) as Hall.
  { clear Hc. revert Hes. induction es as [|e es IH]; intros Hes s' H1 H2; [done|]. cbn [forallb foldl] in *.
    apply andb_true_iff in Hes as [He Hes]. destruct (edit_keeps_price e s' He H2) as [H3 H4].
    apply (IH Hes); [congruence|done]. }
  destruct (Hall (sheet_handleModeChange per_token s) eq_refl ltac:(discriminate)) as [H1 H2].
  set (s2 := foldl _ _ _) in *. clearbody s2. unfold commitDraft in Hc.
  destruct (schema_valid s2); [|done]. cbn [negb] in Hc. destruct (validatePricingValues s2); [done|].
  apply (inj Some) in Hc as <-. rewrite !persist_one_member, str_eqb_refl. unfold form_member, buildSubmitData.
  cbn [d_billingMode d_price data_text]. destruct (sh_mode s2) eqn:Em; [| |done]; rewrite H1, Hp; split; done.
Qed.

Definition fixed_priced : ModelRatioData :=
  mkRatioData (js "mj") (js "0.05") [] [] [] [] [] [] [] per_request [] [].

Definition to_token_price : Sheet :=
  foldl (fun s e => sheet_edit e s) (sheet_handleModeChange per_token (sheet_load (Some fixed_priced) sheet_mount))
    [SEPrompt (js "3")].

Lemma fixed_price_outlives_mode_witness :
  sh_mode to_token_price = per_token /\ sh_form to_token_price F_ratio = js "1.5"
  /\ member (js "mj") (persist_one (buildSubmitData to_token_price) (fun _ => []) (js "mj") ModelRatio) = None.
Proof.
  split; [vm_compute; reflexivity|]. split; [vm_compute; reflexivity|].
  apply (fixed_price_outlives_mode (sheet_load (Some fixed_priced) sheet_mount) [SEPrompt (js "3")]
           (buildSubmitData to_token_price) (fun _ => []) (js "mj")).
  - reflexivity.
  - reflexivity.
  - vm_compute. reflexivity.
Defined.

(** ** The third tab *)

Definition tiered_data (name expr rules : jsstr) : ModelRatioData :=
  mkRatioData name [] [] [] [] [] [] [] [] tiered_expr expr rules.

Lemma combine_zero rules : truthy (combineBillingExpr ZERO_EXPR rules) = true.
Proof. unfold combineBillingExpr. change (negb (truthy (trim ZERO_EXPR))) with false. cbn iota. by destruct (negb (truthy (trim rules))). Qed.

(** C29: looking at a tiered price is enough to lose it. A model whose stored
    expression the visual editor cannot read is loaded into the form, its tab is
    shown, nothing is edited, and it is saved: the price that is stored for it is
    zero, with the same request rules. *)
Theorem viewing_loses_price name expr gs s maps :
  truthy name = true -> trim name = name ->
  tryParseVisualConfig (Some expr) = None -> truthy expr = true -> expr <> ZERO_EXPR ->
  forallb wf_group gs = true ->
  splitBillingExprAndRequestRules (combineBillingExpr expr (buildRequestRuleExpr gs))
  = Returns (expr, buildRequestRuleExpr gs) ->
  exists s' data,
    sheet_shown (sheet_load (Some (tiered_data name expr (buildRequestRuleExpr gs))) s) = Returns (Some s')
    /\ commitDraft s' = Some data /\ d_name data = name
    /\ member name (persist_one data maps name BillingExprs)
       = Some (JStr (combineBillingExpr ZERO_EXPR (buildRequestRuleExpr gs))).
Proof.
  intros Hn Ht Hp He Hz Hw Hs.
  destruct (open_erases name expr gs Hp He Hz Hw Hs) as (d & e & Ho & Hx & Hr & _).
  set (s1 := sheet_load (Some (tiered_data name expr (buildRequestRuleExpr gs))) s).
  exists (with_host (te_host e) s1), (buildSubmitData (with_host (te_host e) s1)). split; [|split; [|split]].
  - unfold sheet_shown, sheet_host. subst s1. cbn [sheet_load sh_mode tiered_data d_billingMode sh_form reset_values d_name
      sh_billingExpr sh_requestRuleExpr d_billingExpr d_requestRuleExpr]. by rewrite Ho.
  - unfold commitDraft, schema_valid. subst s1.
    cbn [with_host sheet_load sh_form reset_values tiered_data d_name]. rewrite Hn. reflexivity.
  - exact Ht.
  - rewrite persist_one_member, str_eqb_refl. unfold form_member. subst s1.
    cbn [buildSubmitData with_host sheet_load tiered_data d_billingMode sh_mode d_billingExpr d_requestRuleExpr
         sh_billingExpr sh_requestRuleExpr]. rewrite Hx, Hr, combine_zero. done.
Qed.

Lemma viewing_loses_price_witness :
  exists s' data,
    sheet_shown (sheet_load (Some (tiered_data (js "gpt-5.4") nested_expr [])) sheet_mount) = Returns (Some s')
    /\ commitDraft s' = Some data
    /\ member (js "gpt-5.4") (persist_one data (fun _ => []) (js "gpt-5.4") BillingExprs) = Some (JStr ZERO_EXPR).
Proof.
  destruct (viewing_loses_price (js "gpt-5.4") nested_expr [] sheet_mount (fun _ => [])) as (s' & data & H1 & H2 & _ & H3).
  - reflexivity.
  - reflexivity.
  - vm_compute. reflexivity.
  - reflexivity.
  - apply str_eqb_neq. vm_compute. reflexivity.
  - reflexivity.
  - vm_compute. reflexivity.
  - exists s', data. split; [exact H1|]. split; [exact H2|]. exact H3.
Defined.
