(* ===== verification/JsUri.v ===== *)
(** * Percent encoding and decoding

    [decodeURIComponent] of the language: escapes of bytes that form UTF-8
    become code units, everything else stays; a malformed escape or sequence is
    an error. [encodeURIComponent] is its inverse. *)

From S2P Require Import Prelude JsStr JsNum JsJson.

(** The byte of an escape at the start of the text, and the rest. *)
Definition escaped_byte (s : jsstr) : option (N * jsstr) :=
  match s with
  | 37%N :: a :: b :: t =>
      match hex_val a, hex_val b with
      | Some x, Some y => Some (Z.to_N (16 * x + y), t)
      | _, _ => None
      end
  | _ => None
  end.

(** The number of continuation bytes a first byte announces, and its own bits. *)
Definition utf8_lead (b : N) : option (nat * N) :=
  (if (192 <=? b) && (b <? 224) then Some (1%nat, b - 192)
   else if (224 <=? b) && (b <? 240) then Some (2%nat, b - 224)
   else if (240 <=? b) && (b <? 248) then Some (3%nat, b - 240)
   else None)%N.

Fixpoint utf8_rest (n : nat) (v : N) (s : jsstr) : option (N * jsstr) :=
  match n with
  | O => Some (v, s)
  | S n =>
      match escaped_byte s with
      | Some (b, t) => if ((128 <=? b) && (b <? 192))%N then utf8_rest n (v * 64 + (b - 128))%N t else None
      | None => None
      end
  end.

(** A code point in its shortest form that is not a surrogate. *)
Definition utf8_valid (n : nat) (v : N) : bool :=
  (match n with
   | 1%nat => 128 <=? v
   | 2%nat => (2048 <=? v) && negb ((55296 <=? v) && (v <=? 57343))
   | _ => (65536 <=? v) && (v <=? 1114111)
   end)%N.

Definition code_units (v : N) : jsstr :=
  (if v <? 65536 then [v]
   else [55296 + (v - 65536) / 1024; 56320 + (v - 65536) mod 1024])%N.

(** One unit of fuel per code unit: every turn uses at least one. *)
Fixpoint decode_go (fuel : nat) (s : jsstr) : option jsstr :=
  match fuel, s with
  | O, _ => Some []
  | _, [] => Some []
  | S f, c :: t =>
      if negb (c =? 37)%N then cons c <$> decode_go f t
      else
        match escaped_byte s with
        | None => None
        | Some (b, r) =>
            if (b <? 128)%N then cons b <$> decode_go f r
            else match utf8_lead b with
                 | None => None
                 | Some (n, v) =>
                     match utf8_rest n v r with
                     | Some (v, r) => if utf8_valid n v then app (code_units v) <$> decode_go f r else None
                     | None => None
                     end
                 end
        end
  end.

Definition decodeURIComponent (s : jsstr) : option jsstr := decode_go (length s) s.

Lemma decode_plain s : forallb (fun c => negb (c =? 37)%N) s = true -> decodeURIComponent s = Some s.
Proof.
  unfold decodeURIComponent. induction s as [|c s IH]; [done|]. cbn [forallb length decode_go].
  rewrite andb_true_iff. intros [-> Hs]. by rewrite IH.
Qed.

Lemma escaped_byte_length x b r : escaped_byte x = Some (b, r) -> length r + 3 <= length x.
Proof.
  destruct x as [|p [|a [|b' t]]]; try done; cbn [escaped_byte];
    destruct p as [|p]; try done; do 6 (destruct p as [p|p|]; try done);
    destruct (hex_val a), (hex_val b'); intros [= <- <-]; cbn; lia.
Qed.

Lemma utf8_rest_length k v x w y : utf8_rest k v x = Some (w, y) -> length y <= length x.
Proof.
  revert v x. induction k as [|k IH]; intros v x; cbn [utf8_rest]; [by intros [= _ ->]|].
  destruct (escaped_byte x) as [[b t]|] eqn:E; [|done]. apply escaped_byte_length in E.
  destruct (_ && _); [|done]. intros Hu%IH. lia.
Qed.

(** The fuel is enough: more does not change the result. *)
Lemma decode_go_fuel f s : length s <= f -> decode_go f s = decodeURIComponent s.
Proof.
  unfold decodeURIComponent. remember (length s) as n eqn:Hn. assert (length s <= n) as Hle by lia. clear Hn.
  revert s f Hle. induction n as [|n IH]; intros s f Hs Hf.
  - destruct s as [|c s]; [|cbn in Hs; lia]. by destruct f.
  - destruct f as [|f]; [lia|]. destruct s as [|c s]; [done|]. cbn [decode_go length] in *.
    assert (forall r, length r <= n -> decode_go f r = decode_go n r) as Hr by (intros r Hr; apply IH; lia).
    destruct (negb (c =? 37)%N); [by rewrite Hr by lia|].
    destruct (escaped_byte (c :: s)) as [[b r]|] eqn:E; [|done]. apply escaped_byte_length in E. cbn [length] in E.
    destruct (b <? 128)%N; [by rewrite Hr by lia|].
    destruct (utf8_lead b) as [[k v]|]; [|done].
    destruct (utf8_rest k v r) as [[w y]|] eqn:E2; [|done]. apply utf8_rest_length in E2.
    destruct (utf8_valid k w); [|done]. by rewrite Hr by lia.
Qed.

(** ** Percent encoding

    [encodeURIComponent]; [None] is the URIError of a lone surrogate. *)
Definition unreserved (c : jschar) : bool :=
  is_word c || existsb (N.eqb c) (js "-.!~*'()").

Definition hex_upper (d : N) : jschar := (if d <? 10 then d + 48 else d + 55)%N.
Definition percent (b : N) : jsstr := [37%N; hex_upper (b / 16); hex_upper (b mod 16)].

Definition utf8_bytes (v : N) : list N :=
  (if v <? 128 then [v]
   else if v <? 2048 then [192 + v / 64; 128 + v mod 64]
   else if v <? 65536 then [224 + v / 4096; 128 + (v / 64) mod 64; 128 + v mod 64]
   else [240 + v / 262144; 128 + (v / 4096) mod 64; 128 + (v / 64) mod 64; 128 + v mod 64])%N.

Definition percent_all (v : N) : jsstr := concat (map percent (utf8_bytes v)).

Definition high_surrogate (c : jschar) : bool := ((55296 <=? c) && (c <=? 56319))%N.
Definition low_surrogate (c : jschar) : bool := ((56320 <=? c) && (c <=? 57343))%N.

Fixpoint encodeURIComponent (s : jsstr) : option jsstr :=
  match s with
  | [] => Some []
  | c :: t =>
      if unreserved c then cons c <$> encodeURIComponent t
      else if low_surrogate c then None
      else if high_surrogate c then
        match t with
        | d :: t' =>
            if low_surrogate d
            then app (percent_all (65536 + (c - 55296) * 1024 + (d - 56320))%N) <$> encodeURIComponent t'
            else None
        | [] => None
        end
      else app (percent_all c) <$> encodeURIComponent t
  end.

Lemma hex_upper_val d : (d < 16)%N -> hex_val (hex_upper d) = Some (Z.of_N d).
Proof.
  intros H. assert (In d (map N.of_nat (seq 0 16))) as Hin.
  { apply in_map_iff. exists (N.to_nat d). split; [lia|]. apply in_seq. lia. }
  cbn in Hin. repeat (destruct Hin as [<-|Hin]; [reflexivity|]). done.
Qed.

Lemma escaped_percent b r : (b < 256)%N -> escaped_byte (percent b ++ r) = Some (b, r).
Proof.
  intros H. unfold percent. cbn [app escaped_byte].
  rewrite hex_upper_val by (apply N.Div0.div_lt_upper_bound; lia).
  rewrite hex_upper_val by (apply N.mod_lt; lia). f_equal. f_equal.
  pose proof (N.div_mod b 16). lia.
Qed.

(** Decoding one escaped byte. *)
Lemma decode_percent b r : (b < 256)%N ->
  decodeURIComponent (percent b ++ r) =
    if (b <? 128)%N then cons b <$> decodeURIComponent r
    else match utf8_lead b with
         | None => None
         | Some (n, v) =>
             match utf8_rest n v r with
             | Some (v, y) => if utf8_valid n v then app (code_units v) <$> decodeURIComponent y else None
             | None => None
             end
         end.
Proof.
  intros H. unfold decodeURIComponent at 1.
  replace (length (percent b ++ r)) with (S (S (S (length r)))) by done. set (f := S (S (length r))).
  change (decode_go (S f) (percent b ++ r)) with
    (match escaped_byte (percent b ++ r) with
     | None => None
     | Some (b, r) =>
         if (b <? 128)%N then cons b <$> decode_go f r
         else match utf8_lead b with
              | None => None
              | Some (n, v) =>
                  match utf8_rest n v r with
                  | Some (v, r) => if utf8_valid n v then app (code_units v) <$> decode_go f r else None
                  | None => None
                  end
              end
     end).
  rewrite escaped_percent by done. rewrite decode_go_fuel by (unfold f; lia).
  destruct (b <? 128)%N; [done|]. destruct (utf8_lead b) as [[n v]|]; [|done].
  destruct (utf8_rest n v r) as [[w y]|] eqn:E; [|done]. apply utf8_rest_length in E.
  by rewrite decode_go_fuel by (unfold f; lia).
Qed.

Lemma utf8_rest_percent n v b r : (b < 64)%N -> utf8_rest (S n) v (percent (128 + b) ++ r) = utf8_rest n (v * 64 + b)%N r.
Proof.
  intros H. cbn [utf8_rest]. rewrite escaped_percent by lia.
  replace ((128 <=? 128 + b) && (128 + b <? 192))%N with true
    by (symmetry; apply andb_true_iff; split; [apply N.leb_le|apply N.ltb_lt]; lia).
  f_equal. lia.
Qed.

Definition is_surrogate (v : N) : bool := ((55296 <=? v) && (v <=? 57343))%N.

(** Arithmetic with quotients and remainders by constants. *)
Ltac divlia := zify; Z.to_euclidean_division_equations; lia.

Ltac solve_if := match goal with |- context [if ?b then _ else _] =>
  first [replace b with true by (symmetry; rewrite ?andb_true_iff, ?N.leb_le, ?N.ltb_lt; divlia)
        |replace b with false by (symmetry; rewrite ?andb_false_iff, ?N.leb_gt, ?N.ltb_ge; divlia)] end; cbv iota.

Lemma decode_code_point v r : (v < 1114112)%N -> is_surrogate v = false ->
  decodeURIComponent (percent_all v ++ r) = app (code_units v) <$> decodeURIComponent r.
Proof.
  intros Hv Hs. unfold is_surrogate in Hs. apply andb_false_iff in Hs. rewrite !N.leb_gt in Hs.
  unfold percent_all, utf8_bytes.
  destruct (v <? 128)%N eqn:E1; [|destruct (v <? 2048)%N eqn:E2; [|destruct (v <? 65536)%N eqn:E3]];
    rewrite ?N.ltb_lt, ?N.ltb_ge in *; cbn [map concat]; rewrite <- ?app_assoc, decode_percent by divlia.
  - solve_if. unfold code_units. solve_if. done.
  - solve_if. unfold utf8_lead. solve_if. rewrite utf8_rest_percent by divlia. cbn [utf8_rest].
    replace ((192 + v / 64 - 192) * 64 + v mod 64)%N with v by divlia. cbn [utf8_valid app]. by solve_if.
  - solve_if. unfold utf8_lead. do 2 solve_if. rewrite !utf8_rest_percent by divlia. cbn [utf8_rest].
    replace (((224 + v / 4096 - 224) * 64 + (v / 64) mod 64) * 64 + v mod 64)%N with v by divlia.
    replace (utf8_valid 2 v) with true; [done|]. symmetry. unfold utf8_valid.
    rewrite andb_true_iff, negb_true_iff, andb_false_iff, !N.leb_gt, N.leb_le. lia.
  - solve_if. unfold utf8_lead. do 3 solve_if. rewrite !utf8_rest_percent by divlia. cbn [utf8_rest].
    replace ((((240 + v / 262144 - 240) * 64 + (v / 4096) mod 64) * 64 + (v / 64) mod 64) * 64 + v mod 64)%N with v by divlia.
    cbn [app]. unfold utf8_valid. solve_if. done.
Qed.

Definition units_ok (s : jsstr) : Prop := Forall (fun c => (c < 65536)%N) s.

(** Decoding reads back what was encoded. *)
Lemma decode_encode s e : units_ok s -> encodeURIComponent s = Some e -> decodeURIComponent e = Some s.
Proof.
  unfold units_ok. remember (length s) as n eqn:Hn. assert (length s <= n) as Hle by lia. clear Hn.
  revert s e Hle. induction n as [|n IH]; intros [|c s] e Hle; cbn [length] in Hle; try (cbn; lia);
    try (by intros _ [= <-]). rewrite Forall_cons. intros [Hc Hs]. cbn [encodeURIComponent].
  destruct (unreserved c) eqn:Eu.
  { intros (e' & He & ->)%fmap_Some. apply IH in He; [|lia|done].
    unfold decodeURIComponent in *. cbn [length decode_go].
    replace (negb (c =? 37)%N) with true; [by rewrite He|].
    symmetry. apply negb_true_iff, N.eqb_neq. by intros ->. }
  destruct (low_surrogate c) eqn:El; [done|]. unfold low_surrogate in El. apply andb_false_iff in El. rewrite !N.leb_gt in El.
  destruct (high_surrogate c) eqn:Eh; unfold high_surrogate in Eh.
  - apply andb_true_iff in Eh. rewrite !N.leb_le in Eh. destruct s as [|d s]; [done|].
    destruct (low_surrogate d) eqn:Ed; [|done]. unfold low_surrogate in Ed. apply andb_true_iff in Ed. rewrite !N.leb_le in Ed.
    intros (e' & He & ->)%fmap_Some. cbn [length] in Hle. rewrite Forall_cons in Hs. apply IH in He; [|lia|tauto].
    set (v := (65536 + (c - 55296) * 1024 + (d - 56320))%N).
    rewrite decode_code_point, He; [|lia|unfold is_surrogate; apply andb_false_iff; rewrite !N.leb_gt; lia].
    cbn [fmap option_fmap option_map]. f_equal. unfold code_units.
    replace (v <? 65536)%N with false by (symmetry; apply N.ltb_ge; lia).
    cbn [app]. repeat f_equal; unfold v; divlia.
  - apply andb_false_iff in Eh. rewrite !N.leb_gt in Eh. intros (e' & He & ->)%fmap_Some. apply IH in He; [|lia|done].
    rewrite decode_code_point, He; [|lia|unfold is_surrogate; apply andb_false_iff; rewrite !N.leb_gt; lia].
    cbn [fmap option_fmap option_map]. f_equal. unfold code_units.
    by replace (c <? 65536)%N with true by (symmetry; apply N.ltb_lt; lia).
Qed.

(** The characters of an encoded text. *)
Definition encoded_char (c : jschar) : bool := unreserved c || (c =? 37)%N.

Lemma hex_upper_encoded d : (d < 16)%N -> encoded_char (hex_upper d) = true.
Proof.
  intros H. assert (In d (map N.of_nat (seq 0 16))) as Hin.
  { apply in_map_iff. exists (N.to_nat d). split; [lia|]. apply in_seq. lia. }
  cbn in Hin. repeat (destruct Hin as [<-|Hin]; [reflexivity|]). done.
Qed.

Lemma percent_all_encoded v : (v < 1114112)%N -> forallb encoded_char (percent_all v) = true.
Proof.
  intros Hv. assert (Forall (fun b => (b < 256)%N) (utf8_bytes v)) as H.
  { unfold utf8_bytes. destruct (v <? 128)%N eqn:E1; [|destruct (v <? 2048)%N eqn:E2; [|destruct (v <? 65536)%N eqn:E3]];
      rewrite ?N.ltb_lt, ?N.ltb_ge in *; repeat constructor; divlia. }
  unfold percent_all. induction H as [|b l Hb _ IH]; [done|]. cbn [map concat]. rewrite forallb_app, IH, andb_true_r.
  unfold percent. cbn [forallb]. rewrite !hex_upper_encoded by divlia. done.
Qed.

Lemma encode_chars s e : units_ok s -> encodeURIComponent s = Some e -> forallb encoded_char e = true.
Proof.
  unfold units_ok. remember (length s) as n eqn:Hn. assert (length s <= n) as Hle by lia. clear Hn.
  revert s e Hle. induction n as [|n IH]; intros [|c s] e Hle; cbn [length] in Hle; try (cbn; lia);
    try (by intros _ [= <-]). rewrite Forall_cons. intros [Hc Hs]. cbn [encodeURIComponent].
  destruct (unreserved c) eqn:Eu.
  { intros (e' & He & ->)%fmap_Some. cbn [forallb]. unfold encoded_char at 1. rewrite Eu. apply (IH s); [lia|done..]. }
  destruct (low_surrogate c); [done|]. destruct (high_surrogate c) eqn:Eh.
  - destruct s as [|d s]; [done|]. destruct (low_surrogate d) eqn:Ed; [|done]. cbn [length] in Hle. rewrite Forall_cons in Hs.
    unfold high_surrogate, low_surrogate in *. rewrite andb_true_iff, !N.leb_le in Eh, Ed.
    intros (e' & He & ->)%fmap_Some. rewrite forallb_app, percent_all_encoded by lia. apply (IH s); [lia|tauto|done].
  - intros (e' & He & ->)%fmap_Some. rewrite forallb_app, percent_all_encoded by lia. apply (IH s); [lia|done..].
Qed.
