(* ===== verification/SeoRoutes.v ===== *)
(** * Public routes of the customer site

    Model of src/web/customer/src/seo/metadata.ts (the manifest of public pages,
    its validation, the resolution of a path, localized links and the metadata of
    a page) and of [getPageKey] in src/web/customer/src/helpers/navigation.ts with
    the route table of src/web/customer/src/constants/navigation.ts.

    The manifest is the JSON value the module imports; the URL parser and the
    conversion to lower case of the platform are parameters. *)

From S2P Require Import Prelude JsStr JsNum JsJson JsUri.

(** ** Data *)

Inductive SeoLanguage := Lzh | Len.

#[export] Instance seo_language_eq_dec : EqDecision SeoLanguage.
Proof. solve_decision. Defined.

Record SeoLocalizedText := mkLT { lt_zh : jsstr; lt_en : jsstr }.
Record SeoManifestFaq := mkFaq { faq_question : SeoLocalizedText; faq_answer : SeoLocalizedText }.

Record SeoManifestPage := mkSeoPage {
  sp_key : jsstr;
  sp_path : jsstr;
  sp_aliases : list jsstr;
  sp_title : SeoLocalizedText;
  sp_description : SeoLocalizedText;
  sp_breadcrumb : SeoLocalizedText;
  sp_schemas : list jsstr;
  sp_faq : option (list SeoManifestFaq)
}.

Record SeoManifest := mkManifest {
  sm_pages : list SeoManifestPage;
  sm_noindexPaths : list jsstr;
  sm_noindexPrefixes : list jsstr
}.

Record SeoRouteResolution := mkResolution {
  sr_language : SeoLanguage;
  sr_pageKey : option jsstr;
  sr_page : option SeoManifestPage;
  sr_canonicalPath : option jsstr;
  sr_redirectPath : option jsstr;
  sr_noindex : bool;
  sr_notFound : bool
}.

Definition expectedPagePaths : list (jsstr * jsstr) :=
  [(js "home", js "/"); (js "pricing", js "/pricing"); (js "docs", js "/docs");
   (js "userAgreement", js "/user-agreement"); (js "privacyPolicy", js "/privacy-policy")].

Definition pageKeyMap : list (jsstr * jsstr) :=
  [(js "home", js "home"); (js "pricing", js "subscribe"); (js "docs", js "setup");
   (js "userAgreement", js "userAgreement"); (js "privacyPolicy", js "privacyPolicy")].

Definition customerSeoSiteUrl : jsstr := js "https://aitokensflux.com".
Definition customerSeoProductionHost : jsstr := js "aitokensflux.com".
Definition customerSeoShareImagePath : jsstr := js "/og/aitokensflux-social-card.png".
Definition brandTitle : jsstr := js "AI Tokens Flux".
Definition brandDescription : SeoLocalizedText :=
  mkLT (uni "AI Tokens Flux 提供 Claude Code、Codex、Grok 与 Gemini API 统一接入。")
       (js "AI Tokens Flux provides unified Claude Code, Codex, Grok and Gemini API access.").

(** A property of an object literal. *)
Fixpoint table_get {A} (k : jsstr) (l : list (jsstr * A)) : option A :=
  match l with
  | [] => None
  | (k', v) :: t => if str_eqb k k' then Some v else table_get k t
  end.

Definition has_str (l : list jsstr) (s : jsstr) : bool := existsb (str_eqb s) l.

(** ** Paths *)

(** [path.replace] of the slashes at the end by nothing. *)
Definition dropSlashes (s : jsstr) : jsstr := rev (dropb (N.eqb 47) (rev s)).

Definition normalizeDecodedSeoPath (value : jsstr) : jsstr :=
  if negb (truthy value) || str_eqb value (js "/") then js "/"
  else dropSlashes (if startsWith value (js "/") then value else js "/" ++ value).

Definition decodeSeoPath (value : jsstr) : option jsstr :=
  normalizeDecodedSeoPath <$> decodeURIComponent (trim value).

Definition normalizeManifestPath (value : jsstr) (preserveTrailingSlash : bool) : option jsstr :=
  let rawPath := trim value in
  if negb (startsWith rawPath (js "/")) || includes rawPath (js "?") || includes rawPath (js "#")
     || (negb (str_eqb rawPath (js "/")) && includes rawPath (js "//"))
  then None
  else
    match decodeSeoPath rawPath with
    | None | Some [] => None
    | Some normalized =>
        if existsb (fun segment => str_eqb segment (js ".") || str_eqb segment (js ".."))
             (split_char 47%N normalized)
        then None
        else
          let expected := if preserveTrailingSlash && endsWith rawPath (js "/") && negb (str_eqb normalized (js "/"))
                          then normalized ++ js "/" else normalized in
          if str_eqb rawPath expected then Some expected else None
    end.

(** ** The manifest *)

Definition parseLocalizedText (value : option json) : option SeoLocalizedText :=
  match value with
  | Some (JObj l) =>
      match jfield (js "zh") (JObj l), jfield (js "en") (JObj l) with
      | Some (JStr zh), Some (JStr en) =>
          if truthy (trim zh) && truthy (trim en) then Some (mkLT zh en) else None
      | _, _ => None
      end
  | _ => None
  end.

Definition parseFaq (value : json) : option SeoManifestFaq :=
  match value with
  | JObj _ =>
      match parseLocalizedText (jfield (js "question") value), parseLocalizedText (jfield (js "answer") value) with
      | Some q, Some a => Some (mkFaq q a)
      | _, _ => None
      end
  | _ => None
  end.

(** An array of strings. *)
Fixpoint strings_of (l : list json) : option (list jsstr) :=
  match l with
  | [] => Some []
  | JStr s :: t => cons s <$> strings_of t
  | _ :: _ => None
  end.

Definition string_array (v : option json) : option (list jsstr) :=
  match v with Some (JArr l) => strings_of l | _ => None end.

(** [xs.map(f)] followed by the test that no result is missing. *)
Fixpoint all_some {A B} (f : A -> option B) (l : list A) : option (list B) :=
  match l with
  | [] => Some []
  | a :: t => match f a, all_some f t with Some b, Some bs => Some (b :: bs) | _, _ => None end
  end.

(** [None] is a list of questions that is not valid, [Some None] a missing one. *)
Definition parse_faq_list (v : option json) : option (option (list SeoManifestFaq)) :=
  match v with
  | None => Some None
  | Some (JArr l) => Some <$> all_some parseFaq l
  | Some _ => None
  end.

Definition parsePage (value : json) : option SeoManifestPage :=
  match value with
  | JObj _ =>
      match jfield (js "key") value, jfield (js "path") value, string_array (jfield (js "aliases") value),
            string_array (jfield (js "schemas") value) with
      | Some (JStr key), Some (JStr path), Some aliases, Some schemas =>
          if negb (forallb (fun s => truthy (trim s)) schemas) then None
          else
            match parseLocalizedText (jfield (js "title") value),
                  parseLocalizedText (jfield (js "description") value),
                  parseLocalizedText (jfield (js "breadcrumb") value),
                  parse_faq_list (jfield (js "faq") value) with
            | Some title, Some description, Some breadcrumb, Some faq =>
                Some (mkSeoPage key path aliases title description breadcrumb schemas faq)
            | _, _, _, _ => None
            end
      | _, _, _, _ => None
      end
  | _ => None
  end.

(** The sets the validation fills, and the pages with their normalized paths. *)
Record Seen := mkSeen {
  seen_keys : list jsstr;
  seen_paths : list jsstr;
  seen_aliases : list jsstr
}.

(** The loop over the aliases of a page. *)
Fixpoint check_aliases (l seen : list jsstr) : option (list jsstr * list jsstr) :=
  match l with
  | [] => Some ([], seen)
  | a :: t =>
      match normalizeManifestPath a false with
      | None => None
      | Some alias =>
          if has_str seen alias then None
          else match check_aliases t (seen ++ [alias]) with
               | Some (rest, seen) => Some (alias :: rest, seen)
               | None => None
               end
      end
  end.

Definition with_paths (p : SeoManifestPage) (path : jsstr) (aliases : list jsstr) : SeoManifestPage :=
  mkSeoPage (sp_key p) path aliases (sp_title p) (sp_description p) (sp_breadcrumb p) (sp_schemas p) (sp_faq p).

Definition check_page (p : SeoManifestPage) (seen : Seen) : option (SeoManifestPage * Seen) :=
  match table_get (sp_key p) expectedPagePaths with
  | None => None
  | Some expectedPath =>
      if has_str (seen_keys seen) (sp_key p) then None
      else
        match normalizeManifestPath (sp_path p) false with
        | None => None
        | Some path =>
            if negb (str_eqb path expectedPath) || has_str (seen_paths seen) path then None
            else
              match check_aliases (sp_aliases p) (seen_aliases seen) with
              | None => None
              | Some (aliases, seenAliases) =>
                  if str_eqb (sp_key p) (js "home") && match sp_faq p with None | Some [] => true | _ => false end
                  then None
                  else Some (with_paths p path aliases,
                             mkSeen (seen_keys seen ++ [sp_key p]) (seen_paths seen ++ [path]) seenAliases)
              end
        end
  end.

Fixpoint check_pages (l : list SeoManifestPage) (seen : Seen) : option (list SeoManifestPage * Seen) :=
  match l with
  | [] => Some ([], seen)
  | p :: t =>
      match check_page p seen with
      | None => None
      | Some (p, seen) =>
          match check_pages t seen with
          | Some (rest, seen) => Some (p :: rest, seen)
          | None => None
          end
      end
  end.

(** The loop over [noindexPaths]; [taken] holds the canonical paths and aliases. *)
Fixpoint check_noindex (l acc taken : list jsstr) : option (list jsstr) :=
  match l with
  | [] => Some acc
  | v :: t =>
      match normalizeManifestPath v false with
      | None => None
      | Some path => if has_str acc path || has_str taken path then None else check_noindex t (acc ++ [path]) taken
      end
  end.

Fixpoint check_prefixes (l acc : list jsstr) : option (list jsstr) :=
  match l with
  | [] => Some acc
  | v :: t =>
      match normalizeManifestPath v true with
      | None => None
      | Some prefix =>
          if str_eqb prefix (js "/") || has_str acc prefix
             || existsb (fun existing => startsWith prefix existing || startsWith existing prefix) acc
          then None else check_prefixes t (acc ++ [prefix])
      end
  end.

Definition under_prefix (prefixes : list jsstr) (path : jsstr) : bool :=
  existsb (fun prefix => startsWith path prefix) prefixes.

Definition is_string (v : option json) (s : jsstr) : bool :=
  match v with Some (JStr t) => str_eqb t s | _ => false end.

Definition validateSeoManifest (data : json) : option SeoManifest :=
  match data with
  | JObj _ =>
      match jfield (js "pages") data, string_array (jfield (js "noindexPaths") data),
            string_array (jfield (js "noindexPrefixes") data) with
      | Some (JArr pages), Some noindexPaths, Some noindexPrefixes =>
          if negb (is_string (jfield (js "siteUrl") data) customerSeoSiteUrl)
             || negb (is_string (jfield (js "productionHost") data) customerSeoProductionHost)
             || negb (is_string (jfield (js "shareImagePath") data) customerSeoShareImagePath)
             || negb (Nat.eqb (length pages) (length expectedPagePaths))
          then None
          else
            match all_some parsePage pages with
            | None => None
            | Some pages =>
                match check_pages pages (mkSeen [] [] []) with
                | None => None
                | Some (pages, seen) =>
                    if existsb (has_str (seen_paths seen)) (seen_aliases seen) then None
                    else
                      match check_noindex noindexPaths [] (seen_paths seen ++ seen_aliases seen),
                            check_prefixes noindexPrefixes [] with
                      | Some paths, Some prefixes =>
                          if existsb (under_prefix prefixes) (seen_paths seen ++ seen_aliases seen)
                             || existsb (under_prefix prefixes) paths
                          then None else Some (mkManifest pages paths prefixes)
                      | _, _ => None
                      end
                end
            end
      | _, _, _ => None
      end
  | _ => None
  end.

(** ** Resolution *)

Definition fallbackLanguage (pathname : jsstr) : SeoLanguage :=
  let path := trim pathname in
  if str_eqb path (js "/en") || startsWith path (js "/en/") then Len else Lzh.

Definition localizedValue (value : SeoLocalizedText) (language : SeoLanguage) : jsstr :=
  match language with Len => lt_en value | Lzh => lt_zh value end.

Definition htmlLanguage (language : SeoLanguage) : jsstr :=
  match language with Len => js "en" | Lzh => js "zh-CN" end.

Definition splitSeoLanguage (pathname : jsstr) : option (SeoLanguage * jsstr) :=
  match decodeSeoPath pathname with
  | None | Some [] => None
  | Some path =>
      if str_eqb path (js "/en") then Some (Len, js "/")
      else if startsWith path (js "/en/") then Some (Len, normalizeDecodedSeoPath (drop 3 path))
      else Some (Lzh, path)
  end.

Definition canonicalPath (language : SeoLanguage) (basePath : jsstr) : jsstr :=
  let path := normalizeDecodedSeoPath basePath in
  match language with
  | Lzh => path
  | Len => if str_eqb path (js "/") then js "/en" else js "/en" ++ path
  end.

Definition absoluteUrl (path : jsstr) : jsstr := customerSeoSiteUrl ++ normalizeDecodedSeoPath path.

(** The resolution of a path that names a page. *)
Definition page_resolution (language : SeoLanguage) (page : SeoManifestPage) (redirect : bool) : SeoRouteResolution :=
  let path := canonicalPath language (sp_path page) in
  mkResolution language (table_get (sp_key page) pageKeyMap) (Some page) (Some path)
               (if redirect then Some path else None) false false.

Definition resolveSeoRoute (manifest : option SeoManifest) (pathname : jsstr) : SeoRouteResolution :=
  match manifest, splitSeoLanguage pathname with
  | Some m, Some (language, basePath) =>
      match find (fun p => str_eqb (sp_path p) basePath) (sm_pages m) with
      | Some page => page_resolution language page false
      | None =>
          match find (fun p => has_str (sp_aliases p) basePath) (sm_pages m) with
          | Some page => page_resolution language page true
          | None =>
              mkResolution language None None None None true
                (negb (has_str (sm_noindexPaths m) basePath) && negb (under_prefix (sm_noindexPrefixes m) basePath))
          end
      end
  | _, split =>
      mkResolution (match split with Some (l, _) => l | None => fallbackLanguage pathname end)
                   None None None None true true
  end.

(** ** Links *)

Record UrlParts := mkUrl { url_origin : jsstr; url_pathname : jsstr; url_search : jsstr; url_hash : jsstr }.

Section Platform.
(** [new URL(href, base)], [new URL(text).hostname] and [toLowerCase]. *)
Variable url_parse : jsstr -> jsstr -> option UrlParts.
Variable url_hostname : jsstr -> option jsstr.
Variable toLowerCase : jsstr -> jsstr.
Variable manifest : option SeoManifest.

Definition target_language (language : jsstr) : SeoLanguage := if str_eqb language (js "en") then Len else Lzh.

(** A scheme and a colon at the start. *)
Definition is_alpha (c : jschar) : bool := (((65 <=? c) && (c <=? 90)) || ((97 <=? c) && (c <=? 122)))%N.
Definition scheme_char (c : jschar) : bool :=
  is_alpha c || is_digit c || (c =? 43)%N || (c =? 46)%N || (c =? 45)%N.
Definition isAbsolute (href : jsstr) : bool :=
  match href with
  | c :: t => is_alpha c && match dropb scheme_char t with 58%N :: _ => true | _ => false end
  | [] => false
  end.

(** [originUrl.origin] is the origin of the URL [origin]. *)
Definition localizePublicHref (href language origin : jsstr) : jsstr :=
  match manifest with
  | None => href
  | Some _ =>
      if startsWith href (js "#") || startsWith href (js "?") then href
      else
        match url_parse origin origin, url_parse href origin with
        | Some originUrl, Some url =>
            if negb (str_eqb (url_origin url) (url_origin originUrl)) then href
            else
              match sr_page (resolveSeoRoute manifest (url_pathname url)) with
              | None => href
              | Some page =>
                  let localized := canonicalPath (target_language language) (sp_path page)
                                   ++ url_search url ++ url_hash url in
                  if isAbsolute href then url_origin url ++ localized else localized
              end
        | _, _ => href
        end
  end.

Definition getLanguageSwitchHref (pathname search hash language : jsstr) : jsstr :=
  match sr_page (resolveSeoRoute manifest pathname) with
  | None => pathname ++ search ++ hash
  | Some page => canonicalPath (target_language language) (sp_path page) ++ search ++ hash
  end.

Definition getRouteLanguage (pathname : jsstr) : option SeoLanguage :=
  let resolution := resolveSeoRoute manifest pathname in
  match sr_page resolution with Some _ => Some (sr_language resolution) | None => None end.

(** ** Metadata *)

Definition normalizeHost (host : jsstr) : jsstr :=
  let value := toLowerCase (trim host) in
  if negb (truthy value) || includes value (js "://") then []
  else match url_hostname (js "http://" ++ value) with
       | Some hostname => toLowerCase hostname
       | None => []
       end.

Record BrowserSeoMetadata := mkMeta {
  md_language : SeoLanguage;
  md_title : jsstr;
  md_description : jsstr;
  md_robots : jsstr;
  md_canonical : option jsstr;
  md_alternates : option (list (jsstr * jsstr));
  md_image : option jsstr;
  md_schema : option json
}.

Definition ref (id : jsstr) : json := JObj [(js "@id", JStr id)].

Definition webpage_node (canonical title description : jsstr) (language : SeoLanguage) : json :=
  JObj [(js "@type", JStr (js "WebPage")); (js "@id", JStr (canonical ++ js "#webpage")); (js "url", JStr canonical);
        (js "name", JStr title); (js "description", JStr description);
        (js "inLanguage", JStr (htmlLanguage language));
        (js "isPartOf", ref (absoluteUrl (js "/") ++ js "#website"))].

Definition faq_node (language : SeoLanguage) (faq : SeoManifestFaq) : json :=
  JObj [(js "@type", JStr (js "Question")); (js "name", JStr (localizedValue (faq_question faq) language));
        (js "acceptedAnswer", JObj [(js "@type", JStr (js "Answer"));
                                    (js "text", JStr (localizedValue (faq_answer faq) language))])].

Definition home_nodes (page : SeoManifestPage) (canonical description : jsstr) (language : SeoLanguage) : list json :=
  let rootUrl := absoluteUrl (js "/") in
  [JObj [(js "@type", JStr (js "Organization")); (js "@id", JStr (rootUrl ++ js "#organization"));
         (js "name", JStr brandTitle); (js "url", JStr rootUrl)];
   JObj [(js "@type", JStr (js "WebSite")); (js "@id", JStr (rootUrl ++ js "#website")); (js "url", JStr rootUrl);
         (js "name", JStr brandTitle); (js "inLanguage", JStr (htmlLanguage language));
         (js "publisher", ref (rootUrl ++ js "#organization"))];
   JObj [(js "@type", JStr (js "Service")); (js "@id", JStr (rootUrl ++ js "#service")); (js "name", JStr brandTitle);
         (js "description", JStr description); (js "url", JStr canonical);
         (js "provider", ref (rootUrl ++ js "#organization"))];
   JObj [(js "@type", JStr (js "FAQPage")); (js "@id", JStr (canonical ++ js "#faq"));
         (js "mainEntity", JArr (map (faq_node language) (default [] (sp_faq page))))]].

Definition breadcrumb_node (page : SeoManifestPage) (canonical : jsstr) (language : SeoLanguage) : json :=
  JObj [(js "@type", JStr (js "BreadcrumbList")); (js "@id", JStr (canonical ++ js "#breadcrumb"));
        (js "itemListElement",
         JArr [JObj [(js "@type", JStr (js "ListItem")); (js "position", JNum (num_of_Z 1));
                     (js "name", JStr (match language with Len => js "Home" | Lzh => uni "首页" end));
                     (js "item", JStr (absoluteUrl (canonicalPath language (js "/"))))];
               JObj [(js "@type", JStr (js "ListItem")); (js "position", JNum (num_of_Z 2));
                     (js "name", JStr (localizedValue (sp_breadcrumb page) language)); (js "item", JStr canonical)]])].

Definition buildSchema (page : SeoManifestPage) (language : SeoLanguage) (canonical title description : jsstr) : json :=
  JObj [(js "@context", JStr (js "https://schema.org"));
        (js "@graph", JArr (webpage_node canonical title description language
           :: if str_eqb (sp_key page) (js "home") then home_nodes page canonical description language
              else [breadcrumb_node page canonical language]))].

Definition buildSeoMetadata (pathname host : jsstr) : BrowserSeoMetadata :=
  let resolution := resolveSeoRoute manifest pathname in
  let language := sr_language resolution in
  match sr_page resolution, sr_canonicalPath resolution with
  | Some page, Some path =>
      let robots := if str_eqb (normalizeHost host) customerSeoProductionHost
                    then js "index, follow" else js "noindex, nofollow" in
      let canonical := absoluteUrl path in
      let zhUrl := absoluteUrl (canonicalPath Lzh (sp_path page)) in
      let enUrl := absoluteUrl (canonicalPath Len (sp_path page)) in
      let title := localizedValue (sp_title page) language in
      let description := localizedValue (sp_description page) language in
      mkMeta language title description robots (Some canonical)
        (Some [(js "zh-CN", zhUrl); (js "en", enUrl); (js "x-default", zhUrl)])
        (Some (absoluteUrl customerSeoShareImagePath))
        (Some (buildSchema page language canonical title description))
  | _, _ =>
      mkMeta language brandTitle (localizedValue brandDescription language) (js "noindex, nofollow") None None None None
  end.

End Platform.

(** ** helpers/navigation.ts *)

Definition customerRoutes : list (jsstr * jsstr) :=
  [(js "/", js "home"); (js "/dashboard", js "dashboard"); (js "/dashboard/billing", js "topup");
   (js "/dashboard/usage", js "usage"); (js "/dashboard/api-key", js "apikeys");
   (js "/dashboard/invite-record", js "invite"); (js "/dashboard/settings", js "settings");
   (js "/console/connect", js "atfSwitchConnect"); (js "/atf-switch/connect", js "atfSwitchConnect");
   (js "/topup", js "topup"); (js "/wallet", js "topup"); (js "/usage", js "usage"); (js "/usage-logs", js "usage");
   (js "/apikeys", js "apikeys"); (js "/keys", js "apikeys"); (js "/invite", js "invite");
   (js "/settings", js "settings"); (js "/pricing", js "subscribe"); (js "/subscribe", js "subscribe");
   (js "/fathers-day", js "fathersDay"); (js "/docs", js "setup"); (js "/setup", js "setup");
   (js "/sign-in", js "signin"); (js "/login", js "signin"); (js "/register", js "signup");
   (js "/sign-up", js "signup"); (js "/user/reset", js "resetPassword"); (js "/reset", js "resetPassword");
   (js "/user-agreement", js "userAgreement"); (js "/privacy-policy", js "privacyPolicy")].

Definition protectedPages : list jsstr :=
  [js "dashboard"; js "topup"; js "usage"; js "apikeys"; js "invite"; js "settings"; js "atfSwitchConnect"].

Definition scrollPreservedPaths : list jsstr :=
  [js "/sign-in"; js "/login"; js "/register"; js "/sign-up"; js "/setup"; js "/docs"].

Definition normalizePath (pathname : jsstr) : jsstr :=
  if Nat.ltb 1 (length pathname) then dropSlashes pathname else pathname.

Definition shouldPreserveScroll (pathname : jsstr) : bool := has_str scrollPreservedPaths (normalizePath pathname).

(** [customerRoutes[normalized]]: the table has only the paths above, and the
    names an object inherits do not start with a slash. *)
Definition getPageKey (manifest : option SeoManifest) (pathname : jsstr) : jsstr :=
  match sr_pageKey (resolveSeoRoute manifest pathname) with
  | Some key => key
  | None =>
      let normalized := normalizePath pathname in
      let normalized := if startsWith normalized (js "/en/") then normalizePath (drop 3 normalized) else normalized in
      if startsWith normalized (js "/oauth/") then js "oauthCallback"
      else default (js "notFound") (table_get normalized customerRoutes)
  end.

Definition getMarketingNavCurrent (manifest : option SeoManifest) (pathname hash : jsstr) : option jsstr :=
  let page := getPageKey manifest pathname in
  if str_eqb page (js "subscribe") then Some (js "pricing")
  else if str_eqb page (js "setup") then Some (js "docs")
  else if str_eqb page (js "home") && str_eqb hash (js "#features") then Some (js "features")
  else None.
