(* ===== verification/SeoRoutesProps.v ===== *)
(** * Public routes of the customer site: the properties

    What a manifest that passes the validation guarantees, that a redirect leads
    to a page that does not redirect, and that switching the language keeps the
    page. *)

From S2P Require Import Prelude JsStr JsNum JsJson JsUri SeoRoutes.

(** ** Sets of strings *)

Lemma has_str_In l s : has_str l s = true <-> In s l.
Proof.
  unfold has_str. rewrite existsb_exists. split.
  - intros (x & Hx & ->%str_eqb_eq). done.
  - intros H. exists s. split; [done|apply str_eqb_refl].
Qed.

Lemma has_str_false l s : has_str l s = false <-> ~ In s l.
Proof. rewrite <- has_str_In. by destruct (has_str l s). Qed.

Lemma NoDup_snoc {A} (l : list A) x : List.NoDup l -> ~ In x l -> List.NoDup (l ++ [x]).
Proof.
  intros Hl Hx. apply (Permutation_NoDup (l := x :: l)); [by rewrite Permutation_app_comm|by constructor].
Qed.

Lemma table_get_In {A} k (l : list (jsstr * A)) v : table_get k l = Some v -> In (k, v) l.
Proof.
  induction l as [|[k' w] l IH]; [done|]. cbn [table_get]. destruct (str_eqb k k') eqn:E.
  - apply str_eqb_eq in E as <-. intros [= <-]. by left.
  - intros H. right. auto.
Qed.

(** ** The validation *)

Lemma check_aliases_spec l seen rest seen' :
  check_aliases l seen = Some (rest, seen') -> List.NoDup seen ->
  seen' = seen ++ rest /\ List.NoDup (seen ++ rest).
Proof.
  revert seen rest seen'. induction l as [|a l IH]; intros seen rest seen'; cbn [check_aliases].
  - intros [= <- <-] H. by rewrite app_nil_r.
  - destruct (normalizeManifestPath a false) as [alias|]; [|done].
    destruct (has_str seen alias) eqn:E; [done|]. apply has_str_false in E.
    destruct (check_aliases l (seen ++ [alias])) as [[r s]|] eqn:Ec; [|done]. intros [= <- <-] Hs.
    destruct (IH _ _ _ Ec (NoDup_snoc _ _ Hs E)) as [-> Hn]. rewrite <- app_assoc in *. done.
Qed.

(** What holds of the pages that were checked, and of the sets that were filled. *)
Record pages_ok (pages : list SeoManifestPage) (seen : Seen) : Prop := {
  po_keys : seen_keys seen = map sp_key pages;
  po_paths : seen_paths seen = map sp_path pages;
  po_aliases : seen_aliases seen = concat (map sp_aliases pages);
  po_keys_nodup : List.NoDup (map sp_key pages);
  po_paths_nodup : List.NoDup (map sp_path pages);
  po_aliases_nodup : List.NoDup (concat (map sp_aliases pages));
  po_expected : Forall (fun p => table_get (sp_key p) expectedPagePaths = Some (sp_path p)) pages
}.

Lemma pages_ok_nil : pages_ok [] (mkSeen [] [] []).
Proof. split; try reflexivity; try apply List.NoDup_nil. apply Forall_nil. exact I. Qed.

Lemma pages_ok_snoc pages seen p q seen' :
  pages_ok pages seen -> check_page p seen = Some (q, seen') -> pages_ok (pages ++ [q]) seen'.
Proof.
  intros [Hk Hp Ha Nk Np Na He]. unfold check_page.
  destruct (table_get (sp_key p) expectedPagePaths) as [expected|] eqn:Et; [|done].
  destruct (has_str (seen_keys seen) (sp_key p)) eqn:Ek; [done|]. apply has_str_false in Ek.
  destruct (normalizeManifestPath (sp_path p) false) as [path|]; [|done].
  destruct (negb (str_eqb path expected) || has_str (seen_paths seen) path) eqn:Ep; [done|].
  apply orb_false_iff in Ep as [Ep1%negb_false_iff%str_eqb_eq Ep2%has_str_false]. subst expected.
  destruct (check_aliases (sp_aliases p) (seen_aliases seen)) as [[al sal]|] eqn:Ea; [|done].
  destruct (_ && _); [done|]. intros [= <- <-]. rewrite Ha in Ea.
  destruct (check_aliases_spec _ _ _ _ Ea Na) as [-> Nal].
  rewrite Hk in Ek. rewrite Hp in Ep2.
  split; cbn [seen_keys seen_paths seen_aliases]; rewrite ?map_app; cbn [map with_paths sp_key sp_path sp_aliases];
    rewrite ?concat_app; cbn [concat]; rewrite ?app_nil_r.
  - by rewrite Hk.
  - by rewrite Hp.
  - done.
  - by apply NoDup_snoc.
  - by apply NoDup_snoc.
  - done.
  - apply Forall_app. split; [done|]. by repeat constructor.
Qed.

Lemma check_pages_ok l done_ seen rest seen' :
  pages_ok done_ seen -> check_pages l seen = Some (rest, seen') ->
  pages_ok (done_ ++ rest) seen' /\ length rest = length l.
Proof.
  revert done_ seen rest seen'. induction l as [|p l IH]; intros done_ seen rest seen' Hok; cbn [check_pages].
  - intros [= <- <-]. by rewrite app_nil_r.
  - destruct (check_page p seen) as [[q s]|] eqn:Ep; [|done].
    destruct (check_pages l s) as [[r s']|] eqn:Er; [|done]. intros [= <- <-].
    destruct (IH _ _ _ _ (pages_ok_snoc _ _ _ _ _ Hok Ep) Er) as [H1 H2]. rewrite <- app_assoc in H1.
    split; [exact H1|]. cbn [length]. by rewrite H2.
Qed.

Lemma all_some_length {A B} (f : A -> option B) l r : all_some f l = Some r -> length r = length l.
Proof.
  revert r. induction l as [|a l IH]; intros r; cbn [all_some]; [by intros [= <-]|].
  destruct (f a); [|done]. destruct (all_some f l); [|done]. intros [= <-]. cbn [length]. by rewrite IH.
Qed.

Lemma check_noindex_ok l acc taken r :
  check_noindex l acc taken = Some r -> List.NoDup acc -> Forall (fun p => ~ In p taken) acc ->
  List.NoDup r /\ Forall (fun p => ~ In p taken) r.
Proof.
  revert acc. induction l as [|v l IH]; intros acc; cbn [check_noindex]; [by intros [= <-]|].
  destruct (normalizeManifestPath v false) as [path|]; [|done].
  destruct (has_str acc path || has_str taken path) eqn:E; [done|].
  apply orb_false_iff in E as [E1%has_str_false E2%has_str_false]. intros H Ha Ht.
  apply (IH _ H); [by apply NoDup_snoc|]. apply Forall_app. split; [done|]. by repeat constructor.
Qed.

(** A manifest that can be relied on. *)
Record manifest_ok (m : SeoManifest) : Prop := {
  mo_keys : Permutation (map sp_key (sm_pages m)) (map fst expectedPagePaths);
  mo_expected : Forall (fun p => table_get (sp_key p) expectedPagePaths = Some (sp_path p)) (sm_pages m);
  mo_paths_nodup : List.NoDup (map sp_path (sm_pages m));
  mo_aliases_nodup : List.NoDup (concat (map sp_aliases (sm_pages m)));
  mo_aliases_apart : forall a, In a (concat (map sp_aliases (sm_pages m))) -> ~ In a (map sp_path (sm_pages m));
  mo_noindex_nodup : List.NoDup (sm_noindexPaths m);
  mo_noindex_apart : Forall (fun p => ~ In p (map sp_path (sm_pages m) ++ concat (map sp_aliases (sm_pages m))))
                       (sm_noindexPaths m);
  mo_prefixes : forall path,
    In path (map sp_path (sm_pages m) ++ concat (map sp_aliases (sm_pages m)) ++ sm_noindexPaths m) ->
    under_prefix (sm_noindexPrefixes m) path = false
}.

Lemma existsb_none {A} (f : A -> bool) l x : existsb f l = false -> In x l -> f x = false.
Proof. intros H Hx. destruct (f x) eqn:E; [|done]. by rewrite (proj2 (existsb_exists f l) (ex_intro _ x (conj Hx E))) in H. Qed.

Lemma keys_permutation pages :
  List.NoDup (map sp_key pages) -> length pages = length expectedPagePaths ->
  Forall (fun p => table_get (sp_key p) expectedPagePaths = Some (sp_path p)) pages ->
  Permutation (map sp_key pages) (map fst expectedPagePaths).
Proof.
  intros Hn Hl He. apply NoDup_Permutation_bis; [done|by rewrite !length_map, Hl|].
  intros k (p & <- & Hp)%in_map_iff. pose proof (proj1 (List.Forall_forall _ _) He p Hp) as H.
  apply table_get_In in H. apply in_map_iff. by exists (sp_key p, sp_path p).
Qed.

Lemma validated_ok data m : validateSeoManifest data = Some m -> manifest_ok m.
Proof.
  unfold validateSeoManifest. destruct data as [| | | | |l]; try done.
  destruct (jfield (js "pages") (JObj l)) as [[| | | |pages|]|]; try done.
  destruct (string_array _) as [nip|]; [|done]. destruct (string_array _) as [nix|]; [|done].
  destruct (_ || _ || _ || _) eqn:Eg; [done|]. apply orb_false_iff in Eg as [_ El%negb_false_iff%Nat.eqb_eq].
  destruct (all_some parsePage pages) as [parsed|] eqn:Ep; [|done]. apply all_some_length in Ep.
  destruct (check_pages parsed (mkSeen [] [] [])) as [[checked seen]|] eqn:Ec; [|done].
  destruct (check_pages_ok parsed [] _ _ _ pages_ok_nil Ec) as [[Hk Hpa Ha Nk Np Na He] Hlen].
  cbn [app] in *. rewrite Hpa, Ha. destruct (existsb (has_str _) _) eqn:Eal; [done|].
  destruct (check_noindex nip [] _) as [paths|] eqn:En; [|done].
  destruct (check_prefixes nix []) as [prefixes|]; [|done].
  destruct (_ || _) eqn:Epre; [done|]. apply orb_false_iff in Epre as [Epre1 Epre2]. intros [= <-].
  destruct (check_noindex_ok _ _ _ _ En (List.NoDup_nil _) (proj2 (Forall_nil _) I)) as [Nn An].
  split; cbn [sm_pages sm_noindexPaths sm_noindexPrefixes]; try done.
  - apply keys_permutation; [done|congruence|done].
  - intros a Hin. apply has_str_false. by apply (existsb_none _ _ _ Eal).
  - intros path. rewrite app_assoc, in_app_iff. intros [H|H]; [by apply (existsb_none _ _ _ Epre1)|by apply (existsb_none _ _ _ Epre2)].
Qed.

(** C39: a manifest that passes the validation can be relied on: it has exactly the
    five expected pages, each once and at its path, no alias occurs twice or is
    the path of a page, no path is both public and hidden from search engines,
    and no public or hidden path lies under a hidden prefix. *)
Theorem validated_manifest_ok data m : validateSeoManifest data = Some m -> manifest_ok m.
Proof. apply validated_ok. Qed.

(** ** Resolution *)

Lemma split_canonical language path :
  In path (map snd expectedPagePaths) -> splitSeoLanguage (canonicalPath language path) = Some (language, path).
Proof.
  cbn [map snd expectedPagePaths In]. intros H. repeat (destruct H as [<-|H]; [by destruct language|]). done.
Qed.

Lemma find_unique {A} (f : A -> jsstr) l x :
  List.NoDup (map f l) -> In x l -> find (fun y => str_eqb (f y) (f x)) l = Some x.
Proof.
  induction l as [|y l IH]; [done|]. cbn [map find In]. intros [Hy Hn]%List.NoDup_cons_iff [->|Hx].
  - by rewrite str_eqb_refl.
  - destruct (str_eqb (f y) (f x)) eqn:E; [|by apply IH]. apply str_eqb_eq in E.
    exfalso. apply Hy. rewrite E. by apply in_map.
Qed.

Section Resolved.
Variable m : SeoManifest.
Hypothesis Hm : manifest_ok m.

Lemma known_path p : In p (sm_pages m) -> In (sp_path p) (map snd expectedPagePaths).
Proof.
  intros Hp. pose proof (proj1 (List.Forall_forall _ _) (mo_expected _ Hm) p Hp) as H.
  apply table_get_In in H. apply in_map_iff. by exists (sp_key p, sp_path p).
Qed.

Lemma resolve_canonical language p :
  In p (sm_pages m) -> resolveSeoRoute (Some m) (canonicalPath language (sp_path p)) = page_resolution language p false.
Proof.
  intros Hp. unfold resolveSeoRoute. rewrite split_canonical by (by apply known_path).
  by rewrite (find_unique sp_path) by (done || apply Hm).
Qed.

(** A resolution with a page is the one of its page, in the language of the path. *)
Lemma resolve_page pathname p :
  sr_page (resolveSeoRoute (Some m) pathname) = Some p ->
  In p (sm_pages m)
  /\ exists redirect, resolveSeoRoute (Some m) pathname
                      = page_resolution (sr_language (resolveSeoRoute (Some m) pathname)) p redirect.
Proof.
  unfold resolveSeoRoute. destruct (splitSeoLanguage pathname) as [[language base]|]; [|done].
  destruct (find (fun p => str_eqb (sp_path p) base) (sm_pages m)) as [q|] eqn:E1.
  - intros [= <-]. apply find_some in E1 as [Hin _]. split; [done|]. by exists false.
  - destruct (find (fun p => has_str (sp_aliases p) base) (sm_pages m)) as [q|] eqn:E2; [|done]. intros [= <-].
    apply find_some in E2 as [Hin _]. split; [done|]. by exists true.
Qed.
End Resolved.

(** C40: a redirect is followed once: the path an address is redirected to is the
    canonical path of the same page in the same language, and resolving that path
    redirects nowhere. *)
Theorem redirect_leads_to_page data m pathname path :
  validateSeoManifest data = Some m ->
  sr_redirectPath (resolveSeoRoute (Some m) pathname) = Some path ->
  let r := resolveSeoRoute (Some m) pathname in
  let r' := resolveSeoRoute (Some m) path in
  sr_redirectPath r' = None /\ sr_page r' = sr_page r /\ sr_page r <> None
  /\ sr_language r' = sr_language r /\ sr_canonicalPath r' = Some path.
Proof.
  intros Hm%validated_ok Hr. cbv zeta.
  destruct (sr_page (resolveSeoRoute (Some m) pathname)) as [p|] eqn:Ep.
  - destruct (resolve_page m pathname p Ep) as [Hin [redirect Eq]]. rewrite Eq in Hr. unfold page_resolution in Hr.
    cbn [sr_redirectPath] in Hr. destruct redirect; [|done]. injection Hr as <-.
    rewrite (resolve_canonical m Hm) by done. done.
  - exfalso. revert Hr Ep. unfold resolveSeoRoute. destruct (splitSeoLanguage pathname) as [[l b]|]; [|done].
    by repeat case_match.
Qed.

(** Switching the language keeps the page: the link leads to an address that
    resolves to the same page in the language asked for, and switching back and
    forth ends at the canonical address. *)
Theorem language_switch_keeps_page data m pathname language p :
  validateSeoManifest data = Some m ->
  sr_page (resolveSeoRoute (Some m) pathname) = Some p ->
  let href := getLanguageSwitchHref (Some m) pathname [] [] language in
  getRouteLanguage (Some m) href = Some (target_language language)
  /\ sr_page (resolveSeoRoute (Some m) href) = Some p
  /\ getLanguageSwitchHref (Some m) href [] [] language = href.
Proof.
  intros Hm%validated_ok Ep href. destruct (resolve_page m pathname p Ep) as [Hin _].
  assert (href = canonicalPath (target_language language) (sp_path p)) as ->.
  { subst href. unfold getLanguageSwitchHref. by rewrite Ep, !app_nil_r. }
  unfold getRouteLanguage, getLanguageSwitchHref. rewrite (resolve_canonical m Hm) by done.
  cbn [sr_page sr_language page_resolution]. by rewrite !app_nil_r.
Qed.

(** Only pages of the manifest on the production host are offered to search
    engines, with their canonical address and both languages; every other
    address is marked not to be indexed. *)
Theorem only_public_pages_indexed url_hostname toLowerCase data m pathname host :
  validateSeoManifest data = Some m ->
  md_robots (buildSeoMetadata url_hostname toLowerCase (Some m) pathname host) = js "index, follow" <->
  normalizeHost url_hostname toLowerCase host = customerSeoProductionHost
  /\ exists p, In p (sm_pages m) /\ sr_page (resolveSeoRoute (Some m) pathname) = Some p
       /\ md_canonical (buildSeoMetadata url_hostname toLowerCase (Some m) pathname host)
          = Some (absoluteUrl (canonicalPath (sr_language (resolveSeoRoute (Some m) pathname)) (sp_path p))).
Proof.
  intros Hm%validated_ok. unfold buildSeoMetadata.
  destruct (sr_page (resolveSeoRoute (Some m) pathname)) as [p|] eqn:Ep.
  - destruct (resolve_page m pathname p Ep) as [Hin [redirect Eq]].
    assert (sr_canonicalPath (resolveSeoRoute (Some m) pathname)
            = Some (canonicalPath (sr_language (resolveSeoRoute (Some m) pathname)) (sp_path p))) as Hc by (by rewrite Eq at 1).
    rewrite Hc. cbn [md_robots md_canonical]. destruct (str_eqb _ customerSeoProductionHost) eqn:E.
    + apply str_eqb_eq in E. split; [|done]. intros _. split; [done|]. by exists p.
    + apply str_eqb_neq in E. split; [|by intros [? _]]. intros H. exfalso. revert H. apply str_eqb_neq. reflexivity.
  - split; [|intros (_ & q & _ & ? & _); done]. cbn [md_robots]. intros H. exfalso. revert H. apply str_eqb_neq. reflexivity.
Qed.

(** ** The addresses of seo/pages.json *)

Definition text_of (s : jsstr) : json := JObj [(js "zh", JStr s); (js "en", JStr s)].

Definition page_of (key path : jsstr) (aliases : list jsstr) (faq : list (jsstr * json)) : json :=
  JObj ([(js "key", JStr key); (js "path", JStr path); (js "aliases", JArr (map JStr aliases));
         (js "title", text_of key); (js "description", text_of key); (js "breadcrumb", text_of key);
         (js "schemas", JArr [JStr (js "WebPage")])] ++ faq).

Definition shipped_routes : json :=
  JObj [(js "siteUrl", JStr customerSeoSiteUrl); (js "productionHost", JStr customerSeoProductionHost);
        (js "shareImagePath", JStr customerSeoShareImagePath);
        (js "pages", JArr
          [page_of (js "home") (js "/") []
             [(js "faq", JArr [JObj [(js "question", text_of (js "Q")); (js "answer", text_of (js "A"))]])];
           page_of (js "pricing") (js "/pricing") [js "/subscribe"] [];
           page_of (js "docs") (js "/docs") [js "/setup"] [];
           page_of (js "userAgreement") (js "/user-agreement") [] [];
           page_of (js "privacyPolicy") (js "/privacy-policy") [] []]);
        (js "noindexPaths", JArr (map JStr
          [js "/dashboard"; js "/dashboard/billing"; js "/dashboard/usage"; js "/dashboard/api-key";
           js "/dashboard/invite-record"; js "/dashboard/settings"; js "/console/connect"; js "/atf-switch/connect";
           js "/topup"; js "/wallet"; js "/usage"; js "/usage-logs"; js "/apikeys"; js "/keys"; js "/invite";
           js "/settings"; js "/fathers-day"; js "/sign-in"; js "/login"; js "/register"; js "/sign-up";
           js "/user/reset"; js "/reset"]));
        (js "noindexPrefixes", JArr [JStr (js "/oauth/")])].

Definition shipped_manifest : SeoManifest := default (mkManifest [] [] []) (validateSeoManifest shipped_routes).

Lemma shipped_valid : validateSeoManifest shipped_routes = Some shipped_manifest.
Proof. vm_compute. reflexivity. Qed.

(** The manifest and the route table agree on every route, with and without the
    English prefix. *)
Lemma routes_agree :
  forallb (fun r => str_eqb (getPageKey (Some shipped_manifest) r.1) r.2
                    && str_eqb (getPageKey (Some shipped_manifest) (canonicalPath Len r.1)) r.2) customerRoutes = true.
Proof. vm_compute. reflexivity. Qed.

Lemma validated_manifest_ok_witness : manifest_ok shipped_manifest.
Proof. exact (validated_manifest_ok shipped_routes shipped_manifest shipped_valid). Defined.

Lemma redirect_leads_to_page_witness :
  sr_redirectPath (resolveSeoRoute (Some shipped_manifest) (js "/en/subscribe/")) = Some (js "/en/pricing")
  /\ sr_redirectPath (resolveSeoRoute (Some shipped_manifest) (js "/en/pricing")) = None.
Proof.
  assert (sr_redirectPath (resolveSeoRoute (Some shipped_manifest) (js "/en/subscribe/")) = Some (js "/en/pricing")) as H
    by (vm_compute; reflexivity).
  split; [exact H|].
  exact (proj1 (redirect_leads_to_page shipped_routes shipped_manifest (js "/en/subscribe/") (js "/en/pricing") shipped_valid H)).
Defined.

Lemma language_switch_keeps_page_witness :
  exists p, sr_page (resolveSeoRoute (Some shipped_manifest) (js "/setup")) = Some p /\ sp_key p = js "docs"
    /\ getRouteLanguage (Some shipped_manifest) (getLanguageSwitchHref (Some shipped_manifest) (js "/setup") [] [] (js "en"))
       = Some Len.
Proof.
  destruct (sr_page (resolveSeoRoute (Some shipped_manifest) (js "/setup"))) as [p|] eqn:E;
    [|exfalso; revert E; vm_compute; discriminate].
  exists p. split; [reflexivity|]. split.
  - assert (sp_key <$> sr_page (resolveSeoRoute (Some shipped_manifest) (js "/setup")) = Some (js "docs")) as H
      by (vm_compute; reflexivity).
    rewrite E in H. apply (inj Some) in H. exact H.
  - exact (proj1 (language_switch_keeps_page shipped_routes shipped_manifest (js "/setup") (js "en") p shipped_valid E)).
Defined.

Lemma only_public_pages_indexed_witness :
  md_robots (buildSeoMetadata (fun _ => Some (js "aitokensflux.com")) (fun s => s) (Some shipped_manifest)
               (js "/sign-in") (js "aitokensflux.com")) <> js "index, follow".
Proof.
  intros H. apply (only_public_pages_indexed _ _ shipped_routes shipped_manifest (js "/sign-in") (js "aitokensflux.com") shipped_valid) in H.
  destruct H as (_ & p & _ & E & _). revert E. vm_compute. discriminate.
Defined.
