(* ===== verification/Passkeys.v ===== *)
(** * Passkeys: lib/passkey.ts and helpers/passkeys.ts

    The conversions between buffers and base64url, with [atob] and [btoa] of the
    platform, the options of a credential request as the server sends them made
    into what the browser takes, and the payloads sent back. A buffer is the list
    of its bytes. *)

From S2P Require Import Prelude JsStr JsNum JsJson JsUri.
Local Open Scope js_scope.

(** ** atob and btoa *)

Definition b64_char (v : N) : jschar :=
  (if v <? 26 then 65 + v else if v <? 52 then 71 + v else if v <? 62 then v - 4
   else if v =? 62 then 43 else 47)%N.

Definition b64_val (c : jschar) : option N :=
  (if (65 <=? c) && (c <=? 90) then Some (c - 65)
   else if (97 <=? c) && (c <=? 122) then Some (c - 71)
   else if (48 <=? c) && (c <=? 57) then Some (c + 4)
   else if c =? 43 then Some 62
   else if c =? 47 then Some 63
   else None)%N.

(** The six-bit values of bytes, three bytes at a time. *)
Fixpoint sextets (bytes : list N) : list N :=
  match bytes with
  | [] => []
  | [a] => [a / 4; (a mod 4) * 16]
  | [a; b] => [a / 4; (a mod 4) * 16 + b / 16; (b mod 16) * 4]
  | a :: b :: c :: t => a / 4 :: (a mod 4) * 16 + b / 16 :: (b mod 16) * 4 + c / 64 :: c mod 64 :: sextets t
  end%N.

(** The bytes of six-bit values; bits that do not fill a byte are dropped. *)
Fixpoint octets (vs : list N) : list N :=
  match vs with
  | p :: q :: r :: s :: t => p * 4 + q / 16 :: (q mod 16) * 16 + r / 4 :: (r mod 4) * 64 + s :: octets t
  | [p; q; r] => [p * 4 + q / 16; (q mod 16) * 16 + r / 4]
  | [p; q] => [p * 4 + q / 16]
  | _ => []
  end%N.

(** The characters of padding after [n] characters. *)
Definition pad_length (n : nat) : nat := ((4 - n mod 4) mod 4)%nat.
Definition eq_char : jschar := 61%N.

(** [None] is the InvalidCharacterError of a character above 255. *)
Definition btoa (binary : jsstr) : option jsstr :=
  if forallb (fun c => (c <? 256)%N) binary
  then Some (map b64_char (sextets binary) ++ replicate (pad_length (length (sextets binary))) eq_char)
  else None.

Definition ascii_space (c : jschar) : bool := ((c =? 9) || (c =? 10) || (c =? 12) || (c =? 13) || (c =? 32))%N.

(** At most two equals signs are removed, and only from a multiple of four. *)
Definition strip_padding (s : jsstr) : jsstr :=
  if Nat.eqb (length s mod 4) 0 then
    match rev s with
    | 61%N :: 61%N :: t => rev t
    | 61%N :: t => rev t
    | _ => s
    end
  else s.

Fixpoint b64_vals (s : jsstr) : option (list N) :=
  match s with
  | [] => Some []
  | c :: t => match b64_val c, b64_vals t with Some v, Some vs => Some (v :: vs) | _, _ => None end
  end.

Definition atob (input : jsstr) : option jsstr :=
  let s := strip_padding (List.filter (fun c => negb (ascii_space c)) input) in
  if Nat.eqb (length s mod 4) 1 then None else octets <$> b64_vals s.

(** ** Buffers *)

(** [value.length] as the padding sees it, and [value + padding]: the length of
    a value that is neither a text nor an array is undefined, which pads nothing. *)
Definition padded_text (value : json) : jsstr :=
  match value with
  | JStr s => s ++ replicate (pad_length (length s)) eq_char
  | JArr l => json_to_str value ++ replicate (pad_length (length l)) eq_char
  | _ => json_to_str value
  end.

Definition from_url (c : jschar) : jschar := (if c =? 45 then 43 else if c =? 95 then 47 else c)%N.
Definition to_url (c : jschar) : jschar := (if c =? 43 then 45 else if c =? 47 then 95 else c)%N.

Definition base64UrlToArrayBuffer (value : option json) : outcome (list N) :=
  match value with
  | Some v =>
      if json_truthy v then
        match atob (map from_url (padded_text v)) with
        | Some binary => Returns binary
        | None => Throws (js "InvalidCharacterError")
        end
      else Returns []
  | None => Returns []
  end.

(** Every code unit of [binary] is a byte, so [btoa] does not throw. *)
Definition arrayBufferToBase64Url (buffer : option (list N)) : jsstr :=
  match buffer with
  | None => []
  | Some bytes =>
      match btoa (map (fun b => (b mod 256)%N) bytes) with
      | Some encoded => rev (dropb (N.eqb eq_char) (rev (map to_url encoded)))
      | None => []
      end
  end.

(** ** Options of a request *)

(** A value made of parsed JSON and buffers. *)
Inductive wval :=
| WJson (j : json)
| WBuffer (bytes : list N)
| WObj (members : list (jsstr * wval))
| WArr (items : list wval).

Fixpoint wset (k : jsstr) (v : wval) (l : list (jsstr * wval)) : list (jsstr * wval) :=
  match l with
  | [] => [(k, v)]
  | (k', v') :: t => if str_eqb k k' then (k, v) :: t else (k', v') :: wset k v t
  end.

Definition wget (k : jsstr) (v : wval) : option wval :=
  match v with WObj l => snd <$> find (fun p => str_eqb p.1 k) l | _ => None end.

(** [...v]: the own properties of an object, the elements of an array or text. *)
Definition spread_json (v : json) : list (jsstr * wval) :=
  let indexed (l : list json) := imap (fun i x => (num_to_str (num_of_nat i), WJson x)) l in
  match v with
  | JObj l => map (fun p => (p.1, WJson p.2)) l
  | JArr l => indexed l
  | JStr s => indexed (map (fun c => JStr [c]) s)
  | _ => []
  end.

(** [a ?? b] of properties. *)
Definition is_nullish (v : option json) : bool := match v with None | Some JNull => true | _ => false end.
Definition first_member (keys : list jsstr) (v : json) : option json :=
  match find (fun k => negb (is_nullish (jfield k v))) keys with
  | Some k => jfield k v
  | None => None
  end.

Definition option_source (payload : json) : option json :=
  first_member [js "publicKey"; js "PublicKey"; js "response"; js "Response"] payload.

Definition member_or_throw (k : jsstr) (item : json) : outcome (option json) :=
  match item with JNull => Throws (js "TypeError") | _ => Returns (jfield k item) end.

(** An entry of [allowCredentials] or [excludeCredentials] with its id decoded. *)
Definition decode_item (item : json) : outcome wval :=
  let! id := member_or_throw (js "id") item in
  let! buffer := base64UrlToArrayBuffer id in
  Returns (WObj (wset (js "id") (WBuffer buffer) (spread_json item))).

Fixpoint wmap (f : json -> outcome wval) (l : list json) : outcome (list wval) :=
  match l with
  | [] => Returns []
  | x :: t => let! y := f x in let! r := wmap f t in Returns (y :: r)
  end.

Definition decode_list (k : jsstr) (options : json) (publicKey : list (jsstr * wval)) : outcome (list (jsstr * wval)) :=
  match jfield k options with
  | Some (JArr items) => let! decoded := wmap decode_item items in Returns (wset k (WArr decoded) publicKey)
  | _ => Returns publicKey
  end.

Definition wdelete (k : jsstr) (l : list (jsstr * wval)) : list (jsstr * wval) :=
  List.filter (fun p => negb (str_eqb p.1 k)) l.

(** [...options.user] with the id of the user decoded. *)
Definition decode_user (options : json) : outcome wval :=
  let user := default JNull (jfield (js "user") options) in
  let! id := base64UrlToArrayBuffer (jfield (js "id") user) in
  Returns (WObj (wset (js "id") (WBuffer id) (spread_json user))).

Definition prepareCredentialCreationOptions (payload : json) : outcome wval :=
  match option_source payload with
  | Some options =>
      if json_truthy options then
        let! challenge := base64UrlToArrayBuffer (jfield (js "challenge") options) in
        let! user := decode_user options in
        let publicKey := wset (js "user") user (wset (js "challenge") (WBuffer challenge) (spread_json options)) in
        let! publicKey := decode_list (js "excludeCredentials") options publicKey in
        Returns (WObj (match jfield (js "attestationFormats") options with
                       | Some (JArr []) => wdelete (js "attestationFormats") publicKey
                       | _ => publicKey
                       end))
      else Throws (js "Unable to parse Passkey registration options from response")
  | None => Throws (js "Unable to parse Passkey registration options from response")
  end.

Definition prepareCredentialRequestOptions (payload : json) : outcome wval :=
  match option_source payload with
  | Some options =>
      if json_truthy options then
        let! challenge := base64UrlToArrayBuffer (jfield (js "challenge") options) in
        let! publicKey := decode_list (js "allowCredentials") options
                            (wset (js "challenge") (WBuffer challenge) (spread_json options)) in
        Returns (WObj publicKey)
      else Throws (js "Unable to parse Passkey login options from response")
  | None => Throws (js "Unable to parse Passkey login options from response")
  end.

(** ** Payloads *)

(** The answer of an authenticator; [userHandle] may be null. *)
Record AssertionResponse := mkAssertion {
  ar_authenticatorData : list N;
  ar_clientDataJSON : list N;
  ar_signature : list N;
  ar_userHandle : option (list N)
}.

Record AttestationResponse := mkAttestation {
  at_attestationObject : list N;
  at_clientDataJSON : list N;
  at_transports : option (list jsstr)
}.

Record PublicKeyCredential (R : Type) := mkCredential {
  pk_id : jsstr;
  pk_rawId : list N;
  pk_type : jsstr;
  pk_attachment : json;
  pk_response : R;
  pk_extensions : option json
}.
Arguments mkCredential {R} _ _ _ _ _ _. Arguments pk_id {R} _. Arguments pk_rawId {R} _. Arguments pk_type {R} _.
Arguments pk_attachment {R} _. Arguments pk_response {R} _. Arguments pk_extensions {R} _.

Definition credential_payload {R} (c : PublicKeyCredential R) (response : list (jsstr * json)) : json :=
  JObj [(js "id", JStr (pk_id c)); (js "rawId", JStr (arrayBufferToBase64Url (Some (pk_rawId c))));
        (js "type", JStr (pk_type c)); (js "authenticatorAttachment", pk_attachment c);
        (js "response", JObj response);
        (js "clientExtensionResults", default (JObj []) (pk_extensions c))].

Definition buffer_text (b : list N) : json := JStr (arrayBufferToBase64Url (Some b)).

Definition buildAssertionResult (credential : option (PublicKeyCredential AssertionResponse)) : option json :=
  match credential with
  | None => None
  | Some c =>
      let r := pk_response c in
      Some (credential_payload c
        [(js "authenticatorData", buffer_text (ar_authenticatorData r));
         (js "clientDataJSON", buffer_text (ar_clientDataJSON r));
         (js "signature", buffer_text (ar_signature r));
         (js "userHandle", match ar_userHandle r with Some h => buffer_text h | None => JNull end)])
  end.

(** Transports the browser cannot tell are undefined, which the JSON of the payload omits. *)
Definition buildRegistrationResult (credential : option (PublicKeyCredential AttestationResponse)) : option json :=
  match credential with
  | None => None
  | Some c =>
      let r := pk_response c in
      Some (credential_payload c
        ([(js "attestationObject", buffer_text (at_attestationObject r));
          (js "clientDataJSON", buffer_text (at_clientDataJSON r))]
         ++ match at_transports r with Some l => [(js "transports", JArr (map JStr l))] | None => [] end))
  end.

(** ** Support

    A browser has the interface or not; each of its two questions is absent,
    answers, or is rejected. *)
Inductive Probe := NoFunction | Resolves (b : bool) | Rejects.

Definition isPasskeySupported (has_interface : bool) (conditional platform : Probe) : bool :=
  if negb has_interface then false
  else match conditional with
       | Resolves true => true
       | _ => match platform with NoFunction => true | Resolves b => b | Rejects => false end
       end.

(** ** The customer site

    Its request options keep only the id, type and transports of a credential. *)

Definition decode_credential (item : json) : outcome wval :=
  let! id := member_or_throw (js "id") item in
  let! buffer := base64UrlToArrayBuffer id in
  let type := match jfield (js "type") item with
              | None | Some JNull => JStr (js "public-key")
              | Some v => v
              end in
  Returns (WObj ([(js "id", WBuffer buffer); (js "type", WJson type)]
                 ++ match jfield (js "transports") item with Some v => [(js "transports", WJson v)] | None => [] end)).

Definition prepareCustomerRequestOptions (payload : json) : outcome wval :=
  match option_source payload with
  | Some options =>
      if json_truthy options then
        let rest := wdelete (js "challenge") (wdelete (js "allowCredentials") (spread_json options)) in
        let! challenge := base64UrlToArrayBuffer (jfield (js "challenge") options) in
        let publicKey := wset (js "challenge") (WBuffer challenge) rest in
        match jfield (js "allowCredentials") options with
        | Some (JArr items) =>
            let! decoded := wmap decode_credential items in
            Returns (WObj (wset (js "allowCredentials") (WArr decoded) publicKey))
        | _ => Returns (WObj publicKey)
        end
      else Throws (js "Unable to parse Passkey login options")
  | None => Throws (js "Unable to parse Passkey login options")
  end.
