(* ===== verification/PasskeysProps.v ===== *)
(** * Passkeys: buffers survive the transport

    The text of a buffer is safe in a URL and is read back as the same bytes, by
    the options of a request on both sites. *)

From S2P Require Import Prelude JsStr JsNum JsJson JsUri Passkeys.
Local Open Scope js_scope.

Definition bytes_ok (l : list N) : Prop := Forall (fun b => (b < 256)%N) l.

(** ** Groups of three bytes *)

Lemma list_ind3 {A} (P : list A -> Prop) :
  P [] -> (forall a, P [a]) -> (forall a b, P [a; b]) -> (forall a b c t, P t -> P (a :: b :: c :: t)) -> forall l, P l.
Proof.
  intros H0 H1 H2 H3 l. enough (P l /\ (forall a, P (a :: l)) /\ forall a b, P (a :: b :: l)) by tauto.
  induction l as [|x l (IH & IH1 & IH2)]; [tauto|]. auto.
Qed.


Lemma sextets_small l : bytes_ok l -> Forall (fun v => (v < 64)%N) (sextets l).
Proof.
  unfold bytes_ok. induction l as [| | |a b c t IH] using list_ind3; cbn [sextets]; rewrite ?Forall_cons.
  - done.
  - intros [? _]. repeat split; [divlia..|done].
  - intros (? & ? & _). repeat split; [divlia..|done].
  - intros (? & ? & ? & ?). repeat split; [divlia..|auto].
Qed.

Lemma octets_sextets l : bytes_ok l -> octets (sextets l) = l.
Proof.
  unfold bytes_ok. induction l as [| | |a b c t IH] using list_ind3; cbn [sextets octets]; rewrite ?Forall_cons.
  - done.
  - intros [? _]. f_equal. divlia.
  - intros (? & ? & _). repeat f_equal; divlia.
  - intros (? & ? & ? & ?). rewrite IH by done. repeat f_equal; divlia.
Qed.

Lemma sextets_length l : (length (sextets l) mod 4 <> 1)%nat.
Proof.
  induction l as [| | |a b c t IH] using list_ind3; cbn [sextets length]; [done..|].
  replace (S (S (S (S (length (sextets t)))))) with (length (sextets t) + 1 * 4)%nat by lia.
  by rewrite Nat.Div0.mod_add.
Qed.

(** ** Characters *)

Lemma small_cases (P : N -> bool) n : forallb P (map N.of_nat (seq 0 (N.to_nat n))) = true -> forall v, (v < n)%N -> P v = true.
Proof.
  rewrite forallb_forall. intros H v Hv. apply H, in_map_iff. exists (N.to_nat v).
  split; [lia|]. apply in_seq. lia.
Qed.

Definition url_safe (c : jschar) : bool := is_word c || (c =? 45)%N.

Lemma url_char v : (v < 64)%N ->
  b64_val (b64_char v) = Some v /\ from_url (to_url (b64_char v)) = b64_char v /\ url_safe (to_url (b64_char v)) = true
  /\ ascii_space (b64_char v) = false /\ b64_char v <> eq_char.
Proof.
  intros Hv. unfold eq_char.
  set (P := fun v => bool_decide (b64_val (b64_char v) = Some v)
    && (from_url (to_url (b64_char v)) =? b64_char v)%N && url_safe (to_url (b64_char v))
    && negb (ascii_space (b64_char v)) && negb (b64_char v =? 61)%N).
  assert (P v = true) as H by (apply (small_cases P 64); [vm_compute; reflexivity|done]). unfold P in H.
  rewrite !andb_true_iff, bool_decide_eq_true, N.eqb_eq, !negb_true_iff, N.eqb_neq in H. tauto.
Qed.

Lemma b64_vals_chars vs : Forall (fun v => (v < 64)%N) vs -> b64_vals (map b64_char vs) = Some vs.
Proof. induction 1 as [|v vs Hv _ IH]; [done|]. cbn [map b64_vals]. by rewrite (proj1 (url_char v Hv)), IH. Qed.

(** ** The padding *)

Lemma padding_cases n : (n mod 4 <> 1)%nat -> ((n + pad_length n) mod 4 = 0)%nat /\ (pad_length n <= 2)%nat.
Proof.
  intros H. rewrite Nat.Div0.add_mod. unfold pad_length. assert (n mod 4 < 4)%nat as Hr by (apply Nat.mod_upper_bound; lia).
  destruct (n mod 4) as [|[|[|[|r]]]]; [by split; cbn; lia..|lia].
Qed.

Lemma rev_not_eq s : Forall (fun c => c <> eq_char) s ->
  match rev s with c :: _ => (c =? 61)%N = false | [] => True end.
Proof.
  intros Hs. apply Forall_rev in Hs. destruct (rev s) as [|c t]; [done|]. rewrite Forall_cons in Hs. apply N.eqb_neq, Hs.
Qed.

Lemma strip_padding_eq s : strip_padding s =
  if Nat.eqb (length s mod 4) 0 then
    match rev s with
    | a :: b :: t => if (a =? 61)%N then if (b =? 61)%N then rev t else rev (b :: t) else s
    | [a] => if (a =? 61)%N then [] else s
    | [] => s
    end
  else s.
Proof.
  unfold strip_padding. destruct (Nat.eqb _ _); [|done]. destruct (rev s) as [|a [|b t]]; [done|..];
    (destruct (a =? 61)%N eqn:E; [apply N.eqb_eq in E as ->|]).
  - done.
  - destruct a as [|a]; [done|]. by do 6 (destruct a as [a|a|]; try done).
  - destruct (b =? 61)%N eqn:E; [by apply N.eqb_eq in E as ->|].
    destruct b as [|b]; [done|]. by do 6 (destruct b as [b|b|]; try done).
  - destruct a as [|a]; [done|]. by do 6 (destruct a as [a|a|]; try done).
Qed.

Lemma strip_padded s : Forall (fun c => c <> eq_char) s -> (length s mod 4 <> 1)%nat ->
  strip_padding (s ++ replicate (pad_length (length s)) eq_char) = s.
Proof.
  intros Hs Hn. pose proof (padding_cases _ Hn) as [Hm Hp]. apply rev_not_eq in Hs. rewrite strip_padding_eq.
  rewrite length_app, length_replicate, Hm, rev_app_distr. cbn [Nat.eqb].
  destruct (pad_length (length s)) as [|[|[|k]]]; [| | |lia];
    cbn [replicate rev app]; rewrite ?app_nil_r, ?rev_involutive.
  - destruct (rev s) as [|a [|b t]]; [done|by rewrite Hs..].
  - assert (s = rev (rev s)) as E by (by rewrite rev_involutive). change (eq_char =? 61)%N with true.
    by destruct (rev s) as [|a t]; [|rewrite Hs].
  - done.
Qed.

(** ** The text of a buffer *)

Lemma btoa_bytes l : bytes_ok l ->
  btoa l = Some (map b64_char (sextets l) ++ replicate (pad_length (length (sextets l))) eq_char).
Proof.
  intros H. unfold btoa. replace (forallb _ l) with true; [done|]. symmetry. apply forallb_forall. intros b Hb.
  apply N.ltb_lt. unfold bytes_ok in H. rewrite List.Forall_forall in H. by apply H.
Qed.

Lemma bytes_mod l : bytes_ok l -> map (fun b => (b mod 256)%N) l = l.
Proof. induction 1 as [|b l Hb _ IH]; [done|]. cbn [map]. by rewrite IH, N.mod_small. Qed.

Lemma drop_padding s k : Forall (fun c => c <> eq_char) s ->
  rev (dropb (N.eqb eq_char) (rev (s ++ replicate k eq_char))) = s.
Proof.
  intros Hs. assert (rev (replicate k eq_char) = replicate k eq_char) as Hk.
  { induction k as [|k IH]; [done|]. cbn [replicate rev]. by rewrite IH, <- replicate_cons_app. }
  rewrite rev_app_distr, Hk. clear Hk.
  assert (dropb (N.eqb eq_char) (replicate k eq_char ++ rev s) = dropb (N.eqb eq_char) (rev s)) as -> by
    (induction k; [done|cbn [replicate app dropb]; by rewrite N.eqb_refl]).
  pose proof (rev_not_eq s Hs) as Hr. assert (s = rev (rev s)) as E by (by rewrite rev_involutive).
  destruct (rev s) as [|c t]; [done|]. cbn [dropb]. rewrite N.eqb_sym. unfold eq_char. by rewrite Hr.
Qed.

Lemma chars_not_eq l : Forall (fun v => (v < 64)%N) l -> Forall (fun c => c <> eq_char) (map (fun v => to_url (b64_char v)) l).
Proof.
  intros H. rewrite Forall_map. eapply Forall_impl; [exact H|]. cbn. intros v Hv E.
  destruct (url_char v Hv) as (_ & Hf & _ & _ & Hn). rewrite E in Hf. by apply Hn.
Qed.

Lemma url_text l : bytes_ok l -> arrayBufferToBase64Url (Some l) = map (fun v => to_url (b64_char v)) (sextets l).
Proof.
  intros H. unfold arrayBufferToBase64Url. rewrite bytes_mod, btoa_bytes by done.
  rewrite map_app, map_map, (fmap_replicate to_url _ eq_char : map to_url _ = _). apply (drop_padding _ _ (chars_not_eq _ (sextets_small l H))).
Qed.

Lemma read_back l : bytes_ok l -> base64UrlToArrayBuffer (Some (buffer_text l)) = Returns l.
Proof.
  intros H. unfold buffer_text, base64UrlToArrayBuffer. rewrite url_text by done.
  pose proof (sextets_small l H) as Hs. set (t := map _ (sextets l)).
  destruct (json_truthy (JStr t)) eqn:Et.
  2: { assert (sextets l = []) as E by (destruct (sextets l); [done|by vm_compute in Et]).
       rewrite <- (octets_sextets l H), E. done. }
  cbn [padded_text]. rewrite map_app, (fmap_replicate from_url _ eq_char : map from_url _ = _).
  replace (map from_url t) with (map b64_char (sextets l)).
  2: { unfold t. rewrite map_map. apply List.map_ext_in. intros v Hv. rewrite List.Forall_forall in Hs.
       symmetry. exact (proj1 (proj2 (url_char v (Hs v Hv)))). }
  unfold t. rewrite length_map. unfold atob.
  assert (Forall (fun c => c <> eq_char) (map b64_char (sextets l))) as Hc.
  { rewrite Forall_map. eapply Forall_impl; [exact Hs|]. intros v Hv. exact (proj2 (proj2 (proj2 (proj2 (url_char v Hv))))). }
  replace (List.filter _ _) with (map b64_char (sextets l) ++ replicate (pad_length (length (map b64_char (sextets l)))) eq_char).
  - rewrite strip_padded by (rewrite ?length_map; auto using sextets_length). rewrite length_map.
    rewrite (proj2 (Nat.eqb_neq _ _) (sextets_length l)). rewrite b64_vals_chars by done. cbn [fmap option_fmap option_map].
    by rewrite octets_sextets.
  - rewrite length_map. symmetry. apply forallb_filter_id. rewrite forallb_app, andb_true_iff. split.
    + apply forallb_forall. intros c (v & <- & Hv)%in_map_iff. rewrite List.Forall_forall in Hs.
      by rewrite (proj1 (proj2 (proj2 (proj2 (url_char v (Hs v Hv)))))).
    + apply forallb_forall. intros c Hc'. apply list_elem_of_In, elem_of_replicate_inv in Hc'. by subst.
Qed.

(** ** Requests and payloads *)

(** The options the server sends for a challenge and the ids of the credentials. *)
Definition server_credential (id : list N) : json := JObj [(js "type", JStr (js "public-key")); (js "id", buffer_text id)].
Definition server_options (challenge : list N) (ids : list (list N)) : json :=
  JObj [(js "publicKey", JObj [(js "challenge", buffer_text challenge); (js "timeout", JNum (num_of_Z 60000));
                               (js "allowCredentials", JArr (map server_credential ids))])].

Lemma wmap_items (f : json -> outcome wval) g ids :
  Forall bytes_ok ids -> (forall id, bytes_ok id -> f (server_credential id) = Returns (g id)) ->
  wmap f (map server_credential ids) = Returns (map g ids).
Proof.
  intros H Hf. induction H as [|id ids Hid _ IH]; [done|]. cbn [map wmap]. by rewrite Hf, IH.
Qed.

Lemma decode_item_exact id : bytes_ok id ->
  decode_item (server_credential id) = Returns (WObj [(js "type", WJson (JStr (js "public-key"))); (js "id", WBuffer id)]).
Proof. intros H. unfold decode_item. change (member_or_throw _ _) with (Returns (Some (buffer_text id))). cbn [obind]. by rewrite read_back. Qed.

Lemma decode_credential_exact id : bytes_ok id ->
  decode_credential (server_credential id) = Returns (WObj [(js "id", WBuffer id); (js "type", WJson (JStr (js "public-key")))]).
Proof. intros H. unfold decode_credential. change (member_or_throw _ _) with (Returns (Some (buffer_text id))). cbn [obind]. by rewrite read_back. Qed.

(** C37: the challenge and the ids of a passkey request reach the browser of
    either site as the bytes the server encoded, and the payload built from the
    browser's answer carries raw id, authenticator data, client data and
    signature as texts that decode to the same bytes. *)
Theorem passkey_bytes_kept challenge ids (c : PublicKeyCredential AssertionResponse) payload :
  bytes_ok challenge -> Forall bytes_ok ids ->
  bytes_ok (pk_rawId c) -> bytes_ok (ar_authenticatorData (pk_response c)) ->
  bytes_ok (ar_clientDataJSON (pk_response c)) -> bytes_ok (ar_signature (pk_response c)) ->
  buildAssertionResult (Some c) = Some payload ->
  (exists o, prepareCredentialRequestOptions (server_options challenge ids) = Returns o
     /\ wget (js "challenge") o = Some (WBuffer challenge)
     /\ wget (js "allowCredentials") o
        = Some (WArr (map (fun id => WObj [(js "type", WJson (JStr (js "public-key"))); (js "id", WBuffer id)]) ids)))
  /\ (exists o, prepareCustomerRequestOptions (server_options challenge ids) = Returns o
     /\ wget (js "challenge") o = Some (WBuffer challenge)
     /\ wget (js "allowCredentials") o
        = Some (WArr (map (fun id => WObj [(js "id", WBuffer id); (js "type", WJson (JStr (js "public-key")))]) ids)))
  /\ base64UrlToArrayBuffer (jfield (js "rawId") payload) = Returns (pk_rawId c)
  /\ forall r, jfield (js "response") payload = Some r ->
     base64UrlToArrayBuffer (jfield (js "authenticatorData") r) = Returns (ar_authenticatorData (pk_response c))
     /\ base64UrlToArrayBuffer (jfield (js "clientDataJSON") r) = Returns (ar_clientDataJSON (pk_response c))
     /\ base64UrlToArrayBuffer (jfield (js "signature") r) = Returns (ar_signature (pk_response c)).
Proof.
  intros Hch Hids Hraw Ha Hd Hs Hp. cbn [buildAssertionResult] in Hp. apply (inj Some) in Hp as <-. repeat split.
  - unfold prepareCredentialRequestOptions. change (option_source _) with
      (Some (JObj [(js "challenge", buffer_text challenge); (js "timeout", JNum (num_of_Z 60000));
                   (js "allowCredentials", JArr (map server_credential ids))])). cbn [json_truthy].
    change (jfield (js "challenge") _) with (Some (buffer_text challenge)). rewrite read_back by done. cbn [obind].
    unfold decode_list. change (jfield (js "allowCredentials") _) with (Some (JArr (map server_credential ids))).
    cbv iota. rewrite (wmap_items _ _ _ Hids decode_item_exact). cbn [obind]. eexists. split; [reflexivity|]. by split.
  - unfold prepareCustomerRequestOptions. change (option_source _) with
      (Some (JObj [(js "challenge", buffer_text challenge); (js "timeout", JNum (num_of_Z 60000));
                   (js "allowCredentials", JArr (map server_credential ids))])). cbn [json_truthy].
    change (jfield (js "challenge") _) with (Some (buffer_text challenge)). rewrite read_back by done. cbn [obind].
    change (jfield (js "allowCredentials") _) with (Some (JArr (map server_credential ids))).
    cbv iota. rewrite (wmap_items _ _ _ Hids decode_credential_exact). cbn [obind]. eexists. split; [reflexivity|]. by split.
  - by apply read_back.
  - apply (inj Some) in H as <-. by apply read_back.
  - apply (inj Some) in H as <-. by apply read_back.
  - apply (inj Some) in H as <-. by apply read_back.
Qed.

(** The text of a buffer needs no escapes in a URL and has no padding. *)
Lemma text_url_safe l : bytes_ok l -> forallb url_safe (arrayBufferToBase64Url (Some l)) = true.
Proof.
  intros H. rewrite url_text by done. apply forallb_forall. intros c (v & <- & Hv)%in_map_iff.
  pose proof (sextets_small l H) as Hs. rewrite List.Forall_forall in Hs. by destruct (url_char v (Hs v Hv)) as (_ & _ & ? & _).
Qed.

Definition sample_credential : PublicKeyCredential AssertionResponse :=
  mkCredential (js "-_8") [251; 255]%N (js "public-key") JNull
    (mkAssertion [0; 16; 131]%N [123; 125]%N [255; 254; 253; 252]%N None) None.

Lemma passkey_bytes_kept_witness :
  (exists o, prepareCredentialRequestOptions (server_options [251; 255; 0]%N [[1]; []; [2; 3; 4; 5]]%N) = Returns o
     /\ wget (js "challenge") o = Some (WBuffer [251; 255; 0]%N))
  /\ base64UrlToArrayBuffer (jfield (js "rawId") (credential_payload sample_credential [])) = Returns [251; 255]%N.
Proof.
  destruct (buildAssertionResult (Some sample_credential)) as [payload|] eqn:E; [|discriminate].
  destruct (passkey_bytes_kept [251; 255; 0]%N [[1]; []; [2; 3; 4; 5]]%N sample_credential payload)
    as ((o & Ho & Hc & _) & _ & Hraw & _);
    [unfold bytes_ok; repeat constructor; done..|exact E|]. split; [by exists o|].
  injection E as <-. exact Hraw.
Defined.
