(* ===== verification/SiteHelpers.v ===== *)
(** * Helpers of the customer site behind sign-in

    services/api.ts, i18n/languages.ts, helpers/account.ts, helpers/auth-form.ts,
    helpers/auth-redirect.ts, helpers/auth-copy.ts and helpers/oauth.ts. What the
    browser does with URLs and query strings, and the tables of translations, are
    the operations of the class [Web]. *)

From S2P Require Import Prelude JsStr JsNum JsJson JsPrint JsUri SeoRoutes.
Local Open Scope js_scope.

(** ** Languages *)

Inductive Language := zhTW | zh | en | ru.

#[export] Instance language_eq_dec : EqDecision Language.
Proof. solve_decision. Defined.

(** [url_parse text base] is [new URL(text, base)], [search_get search name] is
    [new URLSearchParams(search).get(name)], [query_text] is the text of a
    [URLSearchParams] with these members, [with_search_params] sets members of
    the query of a URL, [translateLocale] looks
    texts up, and [exception_text] is the message of an exception it throws. *)
Class Web := {
  url_parse : jsstr -> jsstr -> option UrlParts;
  search_get : jsstr -> jsstr -> option jsstr;
  query_text : list (jsstr * jsstr) -> jsstr;
  with_search_params : jsstr -> list (jsstr * jsstr) -> option jsstr;
  toLowerCase : jsstr -> jsstr;
  translateLocale : Language -> jsstr -> jsstr;
  normalizeNFKD : jsstr -> jsstr;
  dash_other_characters : jsstr -> jsstr;
  exception_text : jsstr;
  origin : jsstr
}.

(** A path of letters, digits, dashes and single slashes. *)
Definition plain_path (p : jsstr) : bool :=
  startsWith p (js "/") && forallb (fun c => is_word c || (c =? 45)%N || (c =? 47)%N) p && negb (includes p (js "//")).

(** What the proofs use of the browser: a plain path is the path of a URL of the
    site; path, query and fragment of a URL of the site are read back as they
    are, unless the path starts like a host; and the query of a sign-in link
    gives its redirect back. *)
Class WebLaws (W : Web) := {
  parse_plain p : plain_path p = true -> url_parse p origin = Some (mkUrl origin p [] []);
  parse_serialized v u :
    url_parse v origin = Some u -> url_origin u = origin -> startsWith (url_pathname u) (js "//") = false ->
    url_parse (url_pathname u ++ url_search u ++ url_hash u) origin = Some u;
  parse_sign_in t e :
    units_ok t -> encodeURIComponent t = Some e ->
    exists search, url_parse (js "/sign-in?redirect=" ++ e) origin = Some (mkUrl origin (js "/sign-in") search [])
                   /\ search_get search (js "redirect") = Some t
}.

(** ** services/api.ts *)

(** What [fetch] and the body of its answer give. *)
Inductive Fetched :=
| Aborted
| NetworkFailed
| Answered (status : Z) (statusText : jsstr) (authVersion : bool) (body : option json).

Record ApiResponse := mkResponse {
  rp_success : bool;
  rp_message : option json;
  rp_data : option json;
  rp_status : option Z;
  rp_authenticated : option bool
}.

(** [response.data] if it is truthy. *)
Definition truthy_data (r : ApiResponse) : option json :=
  match rp_data r with Some v => if json_truthy v then Some v else None | None => None end.

(** [response.success && response.data]. *)
Definition success_data (r : ApiResponse) : option json := if rp_success r then truthy_data r else None.

(** [response.message || d]. *)
Definition message_or (r : ApiResponse) (d : jsstr) : jsstr :=
  match rp_message r with Some v => if json_truthy v then json_to_str v else d | None => d end.

Definition member_truthy (k : jsstr) (v : json) : bool :=
  match jfield k v with Some x => json_truthy x | None => false end.

Section Helpers.
Context {W : Web}.

Definition getNetworkErrorMessage (language : Language) (aborted : bool) : jsstr :=
  translateLocale language (if aborted then js "Request timed out. Please try again."
                            else js "Network request failed. Please check the backend service.").

Definition failed_response (message : jsstr) : ApiResponse := mkResponse false (Some (JStr message)) None None None.

(** The answer as the callers of [apiRequest] see it; [language] is the detected
    language. A body that is not JSON is an empty object; the message of a body
    that is null cannot be read, which ends in the handler of network errors. *)
Definition apiRequest (language : Language) (r : Fetched) : ApiResponse :=
  match r with
  | Aborted => failed_response (getNetworkErrorMessage language true)
  | NetworkFailed => failed_response (getNetworkErrorMessage language false)
  | Answered status statusText authVersion body =>
      let data := default (JObj []) body in
      if negb ((200 <=? status) && (status <=? 299))%Z then
        match data with
        | JNull => failed_response (getNetworkErrorMessage language false)
        | _ =>
            let message := match jfield (js "message") data with
                           | Some v => if json_truthy v then v
                                       else JStr (str_or statusText (translateLocale language (js "Request failed")))
                           | None => JStr (str_or statusText (translateLocale language (js "Request failed")))
                           end in
            mkResponse false (Some message) None (Some status) (Some authVersion)
        end
      else mkResponse (member_truthy (js "success") data) (jfield (js "message") data) (jfield (js "data") data)
                      (Some status) (Some authVersion)
  end.

Definition shouldClearStoredUser (r : ApiResponse) : bool :=
  bool_decide (rp_status r = Some 401%Z)
  || (bool_decide (rp_status r = Some 200%Z) && bool_decide (rp_authenticated r = Some false)).

(** [search.set] of the members with a text; the keys of the calls are distinct. *)
Definition buildQuery (params : list (jsstr * option jsstr)) : jsstr :=
  let members := omap (fun p => match p.2 with Some v => if truthy v then Some (p.1, v) else None | None => None end) params in
  let value := query_text members in
  if truthy value then js "?" ++ value else [].

(** ** i18n/languages.ts *)

Definition dash_of_underscore (s : jsstr) : jsstr := map (fun c => if (c =? 95)%N then 45%N else c) s.

Definition is_tag (normalized tag : jsstr) : bool := str_eqb normalized tag || startsWith normalized (tag ++ js "-").

Definition normalizeCustomerLanguage (value : option jsstr) : option Language :=
  match value with
  | None | Some [] => None
  | Some value =>
      let normalized := toLowerCase (dash_of_underscore (trim value)) in
      if str_eqb normalized (js "zh-tw") || startsWith normalized (js "zh-hant") then Some zhTW
      else if is_tag normalized (js "zh") then Some zh
      else if is_tag normalized (js "ru") then Some ru
      else if is_tag normalized (js "en") then Some en
      else if is_tag normalized (js "fr") || is_tag normalized (js "ja") || is_tag normalized (js "vi") then Some en
      else None
  end.

Definition normalizeAutoCustomerLanguage (value : option jsstr) : option Language :=
  match normalizeCustomerLanguage value with Some zh => Some zhTW | l => l end.

(** The cookies of the document; decoding a malformed value throws. *)
Fixpoint find_cookie (name : jsstr) (cookies : list jsstr) : outcome (option jsstr) :=
  match cookies with
  | [] => Returns None
  | cookie :: rest =>
      match split_char 61%N cookie with
      | rawName :: parts =>
          if str_eqb (trim rawName) name then
            match decodeURIComponent (trim (join [61%N] parts)) with
            | Some v => Returns (Some v)
            | None => Throws (js "URIError")
            end
          else find_cookie name rest
      | [] => find_cookie name rest
      end
  end.

Definition readCookie (cookie : jsstr) (name : jsstr) : outcome (option jsstr) :=
  find_cookie name (if truthy cookie then split_char 59%N cookie else []).

Section Manifest.
Variable manifest : option SeoManifest.

Definition selectCustomerLanguageForPath (pathname : jsstr) (preferredLanguage : option Language) (isManualLanguage : bool) : Language :=
  match getRouteLanguage manifest pathname with
  | Some Len => en
  | Some Lzh =>
      match preferredLanguage with
      | Some zhTW => if isManualLanguage then zhTW else zh
      | Some ru => if isManualLanguage then ru else zh
      | _ => zh
      end
  | None => default zhTW preferredLanguage
  end.

(** [langItem] and [sourceItem] are the stored language and its source. *)
Definition manual_source (sourceItem : option jsstr) : bool := bool_decide (sourceItem = Some (js "manual")).

Definition detectCustomerLanguage (pathname : jsstr) (langItem sourceItem : option jsstr) (cookie navigatorLanguage : jsstr)
    : outcome Language :=
  let storedLanguage := normalizeCustomerLanguage langItem in
  let isManualLanguage := manual_source sourceItem in
  match getRouteLanguage manifest pathname with
  | Some _ => Returns (selectCustomerLanguageForPath pathname storedLanguage isManualLanguage)
  | None =>
      match storedLanguage, isManualLanguage with
      | Some l, true => Returns l
      | _, _ =>
          let! edge := readCookie cookie (js "i18next") in
          match normalizeAutoCustomerLanguage edge with
          | Some l => Returns l
          | None =>
              Returns (match storedLanguage with
                       | Some zh => zhTW
                       | Some l => l
                       | None => default zhTW (normalizeAutoCustomerLanguage (Some navigatorLanguage))
                       end)
          end
      end
  end.

(** ** helpers/auth-redirect.ts *)

Definition auth_pages : list jsstr := [js "signin"; js "signup"; js "oauthCallback"].

Definition normalizeAuthRedirect (value : option jsstr) : jsstr :=
  match value with
  | None | Some [] => []
  | Some value =>
      match url_parse value origin with
      | None => []
      | Some url =>
          if negb (str_eqb (url_origin url) origin) then []
          else if has_str auth_pages (getPageKey manifest (url_pathname url)) then []
          else url_pathname url ++ url_search url ++ url_hash url
      end
  end.

Definition getAuthRedirectFromSearch (search : jsstr) : jsstr := normalizeAuthRedirect (search_get search (js "redirect")).

(** The entry of the session storage; [disabled] when the storage throws. *)
Record Session := mkSession { ss_disabled : bool; ss_redirect : option jsstr }.

Definition storeAuthRedirect (value : option jsstr) (s : Session) : jsstr * Session :=
  let target := normalizeAuthRedirect value in
  if negb (truthy target) then ([], s)
  else (target, if ss_disabled s then s else mkSession false (Some target)).

Definition consumeStoredAuthRedirect (s : Session) : jsstr * Session :=
  if ss_disabled s then ([], s)
  else (normalizeAuthRedirect (ss_redirect s), mkSession false None).

(** [None] is the URIError of a target with a lone surrogate. *)
Definition buildSignInPathWithRedirect (value : jsstr) (s : Session) : option jsstr * Session :=
  let '(target, s) := storeAuthRedirect (Some value) s in
  if negb (truthy target) then (Some (js "/sign-in"), s)
  else (app (js "/sign-in?redirect=") <$> encodeURIComponent target, s).

End Manifest.

(** ** helpers/account.ts *)

Definition email_char (c : jschar) : bool := negb (is_space c || (c =? 64)%N).

(** [[^\s@]+\.[^\s@]+]: a dot with a character before and after it. *)
Definition has_inner_dot (s : jsstr) : bool :=
  match s with
  | [] => false
  | _ :: t => existsb (N.eqb 46) (removelast t)
  end.

(** [/^[^\s@]+@[^\s@]+\.[^\s@]+$/]. *)
Definition EMAIL_PATTERN (email : jsstr) : bool :=
  match split_char 64%N email with
  | [local; domain] => truthy local && forallb email_char local && forallb email_char domain && has_inner_dot domain
  | _ => false
  end.

Definition isValidEmail (value : jsstr) : bool :=
  let email := trim value in Nat.ltb 0 (length email) && Nat.leb (length email) 50 && EMAIL_PATTERN email.

Definition user_text (k : jsstr) (v : json) : option jsstr :=
  match jfield k v with Some (JStr s) => Some s | _ => None end.

Definition isEmailAddress (value : option jsstr) : bool :=
  let email := default [] (trim <$> value) in
  Nat.ltb 0 (length email) && Nat.leb (length email) 50 && EMAIL_PATTERN email.

Definition getBoundEmail (user : option json) : jsstr :=
  let email := default [] (trim <$> (user ≫= user_text (js "email"))) in
  if isEmailAddress (Some email) then email else [].

Definition getUserLabel (user : option json) : jsstr :=
  str_or (getBoundEmail user)
    (str_or (default [] (user ≫= user_text (js "display_name")))
       (str_or (default [] (user ≫= user_text (js "username"))) (js "Account"))).

Definition getAccountIdentifier (user : option json) : jsstr := str_or (getBoundEmail user) (getUserLabel user).

(** The entries of the local storage the site uses. *)
Record Store := mkStore {
  st_user : option jsstr;
  st_uid : option jsstr;
  st_lang : option jsstr;
  st_lang_source : option jsstr;
  st_aff : option jsstr
}.

Definition store_user (user uid : option jsstr) (s : Store) : Store :=
  mkStore user uid (st_lang s) (st_lang_source s) (st_aff s).

Definition user_id (user : json) : option json :=
  match jfield (js "id") user with Some v => if json_truthy v then Some v else None | None => None end.

(** [String(user.id)]. *)
Definition id_text (user : json) : jsstr :=
  match jfield (js "id") user with Some v => json_to_str v | None => js "undefined" end.

(** A stored text that is not JSON is removed; the JSON null is no user. *)
Definition readStoredUser (s : Store) : option json * Store :=
  match st_user s with
  | None | Some [] => (None, s)
  | Some raw =>
      match parse raw with
      | None => (None, store_user None None s)
      | Some JNull => (None, s)
      | Some user =>
          (Some user, match user_id user with
                      | Some _ => store_user (st_user s) (Some (id_text user)) s
                      | None => s
                      end)
      end
  end.

Definition persistUser (user : option json) (s : Store) : Store :=
  match user with
  | Some u => store_user (Some (stringify 0 0 u)) (Some (id_text u)) s
  | None => store_user None None s
  end.

(** ** helpers/auth-form.ts *)

Definition trim_dashes (s : jsstr) : jsstr := rev (dropb (N.eqb 45) (rev (dropb (N.eqb 45) s))).

(** [random] is the text of [Math.random()] in base 36. *)
Definition generateUsernameFromEmail (random email : jsstr) : jsstr :=
  let localPart := match split_char 64%N email with p :: _ => p | [] => [] end in
  let stem := take 13 (trim_dashes (dash_other_characters (normalizeNFKD localPart))) in
  let suffix := slice random 2 8 in
  take 20 (str_or stem (js "user") ++ js "-" ++ suffix).

(** ** helpers/oauth.ts *)

Definition getSearchParam (search name : jsstr) : jsstr := default [] (search_get search name).

Definition getStoredAffCode (search : jsstr) (aff : option jsstr) : jsstr :=
  trim (str_or (getSearchParam search (js "aff"))
          (str_or (getSearchParam search (js "aff_code"))
             (str_or (getSearchParam search (js "invite_code")) (default [] aff)))).

Record CustomOAuthProvider := mkProvider {
  pv_slug : jsstr;
  pv_client_id : jsstr;
  pv_authorization_endpoint : jsstr;
  pv_scopes : jsstr
}.

(** [None] is the exception of [encodeURIComponent] or of [new URL]. *)
Definition buildGitHubOAuthUrl (clientId state : jsstr) : option jsstr :=
  match encodeURIComponent clientId, encodeURIComponent state with
  | Some id, Some st => Some (js "https://github.com/login/oauth/authorize?client_id=" ++ id ++ js "&state=" ++ st
                              ++ js "&scope=user:email")
  | _, _ => None
  end.

Definition oauth_params (clientId redirect scope state : jsstr) : list (jsstr * jsstr) :=
  [(js "client_id", clientId); (js "redirect_uri", origin ++ redirect); (js "response_type", js "code");
   (js "scope", scope); (js "state", state)].

Definition buildDiscordOAuthUrl (clientId state : jsstr) : option jsstr :=
  with_search_params (js "https://discord.com/oauth2/authorize")
    (oauth_params clientId (js "/oauth/discord") (js "identify+openid") state).

Definition buildOIDCOAuthUrl (authUrl clientId state : jsstr) : option jsstr :=
  with_search_params authUrl (oauth_params clientId (js "/oauth/oidc") (js "openid profile email") state).

Definition buildLinuxDOOAuthUrl (clientId state : jsstr) : option jsstr :=
  match encodeURIComponent clientId, encodeURIComponent state with
  | Some id, Some st =>
      Some (js "https://connect.linux.do/oauth2/authorize?response_type=code&client_id=" ++ id ++ js "&state=" ++ st)
  | _, _ => None
  end.

Definition buildCustomOAuthUrl (provider : CustomOAuthProvider) (state : jsstr) : option jsstr :=
  with_search_params (pv_authorization_endpoint provider)
    (oauth_params (pv_client_id provider) (js "/oauth/" ++ pv_slug provider)
       (str_or (pv_scopes provider) (js "openid profile email")) state).

End Helpers.
