(* ===== verification/AuthPage.v ===== *)
(** * The sign-in page: pages/Auth/index.tsx

    The state of the component, the texts of helpers/auth-copy.ts, and every
    handler of the page and of the forms under components/auth. A handler gives
    the new state and the effects the code performs on the way, in order: requests
    (with the closure their continuation runs in), the user of the site, and
    navigation. [apiRequest] does not reject, so each request has one answer. *)

From S2P Require Import Prelude JsStr JsNum JsJson JsPrint JsUri SeoRoutes SiteHelpers Passkeys.
Local Open Scope js_scope.

(** ** State *)

Inductive AuthMode := login_mode | register_mode.
Inductive AuthLoginMethod := password_method | emailCode_method.
Inductive ModeTransition := tr_idle | tr_out | tr_in.
Inductive AuthFieldName := AF_email | AF_password | AF_verificationCode | AF_twoFaCode | AF_wechatCode.
Inductive AuthValue := AV_email | AV_password | AV_verificationCode | AV_inviteCode.
Inductive MessageKind := M_info | M_error | M_success.

#[export] Instance auth_mode_eq_dec : EqDecision AuthMode. Proof. solve_decision. Defined.
#[export] Instance auth_method_eq_dec : EqDecision AuthLoginMethod. Proof. solve_decision. Defined.
#[export] Instance mode_transition_eq_dec : EqDecision ModeTransition. Proof. solve_decision. Defined.
#[export] Instance auth_field_eq_dec : EqDecision AuthFieldName. Proof. solve_decision. Defined.

Record AuthFormValues := mkValues {
  v_email : jsstr;
  v_password : jsstr;
  v_verificationCode : jsstr;
  v_inviteCode : jsstr
}.

(** The mode with its two timers: the mode [commitMode] will set, and the end of
    the transition. *)
Record ModeState := mkModeState {
  ms_activeMode : AuthMode;
  ms_loginMethod : AuthLoginMethod;
  ms_transition : ModeTransition;
  ms_exitTimer : option AuthMode;
  ms_enterTimer : bool
}.

Record Busy := mkBusy {
  bz_loading : bool;
  bz_codeLoading : bool;
  bz_oauthLoading : jsstr;
  bz_cooldown : Z
}.

Record TwoFa := mkTwoFa { tf_required : bool; tf_code : jsstr; tf_useBackupCode : bool }.
Record WeChat := mkWeChat { wc_open : bool; wc_code : jsstr }.
(** The timer of the closing dialog holds the path [onClose] navigates to. *)
Record Closing := mkClosing { cl_isClosing : bool; cl_timer : option jsstr }.

Definition FieldErrors := AuthFieldName -> option jsstr.
Definition no_errors : FieldErrors := fun _ => None.

Record AuthState := mkAuth {
  a_mode : ModeState;
  a_values : AuthFormValues;
  a_status : option json;
  a_agreed : bool;
  a_showPassword : bool;
  a_message : option (MessageKind * jsstr);
  a_fieldErrors : FieldErrors;
  a_busy : Busy;
  a_passkeySupported : bool;
  a_turnstileToken : jsstr;
  a_wechat : WeChat;
  a_twoFa : TwoFa;
  a_closing : Closing
}.

Definition set_mode_state (m : ModeState) (s : AuthState) : AuthState :=
  mkAuth m (a_values s) (a_status s) (a_agreed s) (a_showPassword s) (a_message s) (a_fieldErrors s) (a_busy s)
    (a_passkeySupported s) (a_turnstileToken s) (a_wechat s) (a_twoFa s) (a_closing s).
Definition setValues (v : AuthFormValues) (s : AuthState) : AuthState :=
  mkAuth (a_mode s) v (a_status s) (a_agreed s) (a_showPassword s) (a_message s) (a_fieldErrors s) (a_busy s)
    (a_passkeySupported s) (a_turnstileToken s) (a_wechat s) (a_twoFa s) (a_closing s).
Definition setStatus (v : option json) (s : AuthState) : AuthState :=
  mkAuth (a_mode s) (a_values s) v (a_agreed s) (a_showPassword s) (a_message s) (a_fieldErrors s) (a_busy s)
    (a_passkeySupported s) (a_turnstileToken s) (a_wechat s) (a_twoFa s) (a_closing s).
Definition setAgreed (v : bool) (s : AuthState) : AuthState :=
  mkAuth (a_mode s) (a_values s) (a_status s) v (a_showPassword s) (a_message s) (a_fieldErrors s) (a_busy s)
    (a_passkeySupported s) (a_turnstileToken s) (a_wechat s) (a_twoFa s) (a_closing s).
Definition setShowPassword (v : bool) (s : AuthState) : AuthState :=
  mkAuth (a_mode s) (a_values s) (a_status s) (a_agreed s) v (a_message s) (a_fieldErrors s) (a_busy s)
    (a_passkeySupported s) (a_turnstileToken s) (a_wechat s) (a_twoFa s) (a_closing s).
Definition set_note (m : option (MessageKind * jsstr)) (s : AuthState) : AuthState :=
  mkAuth (a_mode s) (a_values s) (a_status s) (a_agreed s) (a_showPassword s) m (a_fieldErrors s) (a_busy s)
    (a_passkeySupported s) (a_turnstileToken s) (a_wechat s) (a_twoFa s) (a_closing s).
Definition setFieldErrors (e : FieldErrors) (s : AuthState) : AuthState :=
  mkAuth (a_mode s) (a_values s) (a_status s) (a_agreed s) (a_showPassword s) (a_message s) e (a_busy s)
    (a_passkeySupported s) (a_turnstileToken s) (a_wechat s) (a_twoFa s) (a_closing s).
Definition set_busy (b : Busy) (s : AuthState) : AuthState :=
  mkAuth (a_mode s) (a_values s) (a_status s) (a_agreed s) (a_showPassword s) (a_message s) (a_fieldErrors s) b
    (a_passkeySupported s) (a_turnstileToken s) (a_wechat s) (a_twoFa s) (a_closing s).
Definition setPasskeySupported (v : bool) (s : AuthState) : AuthState :=
  mkAuth (a_mode s) (a_values s) (a_status s) (a_agreed s) (a_showPassword s) (a_message s) (a_fieldErrors s) (a_busy s)
    v (a_turnstileToken s) (a_wechat s) (a_twoFa s) (a_closing s).
Definition setTurnstileToken (v : jsstr) (s : AuthState) : AuthState :=
  mkAuth (a_mode s) (a_values s) (a_status s) (a_agreed s) (a_showPassword s) (a_message s) (a_fieldErrors s) (a_busy s)
    (a_passkeySupported s) v (a_wechat s) (a_twoFa s) (a_closing s).
Definition set_wechat (v : WeChat) (s : AuthState) : AuthState :=
  mkAuth (a_mode s) (a_values s) (a_status s) (a_agreed s) (a_showPassword s) (a_message s) (a_fieldErrors s) (a_busy s)
    (a_passkeySupported s) (a_turnstileToken s) v (a_twoFa s) (a_closing s).
Definition set_twoFa (v : TwoFa) (s : AuthState) : AuthState :=
  mkAuth (a_mode s) (a_values s) (a_status s) (a_agreed s) (a_showPassword s) (a_message s) (a_fieldErrors s) (a_busy s)
    (a_passkeySupported s) (a_turnstileToken s) (a_wechat s) v (a_closing s).
Definition set_closing (v : Closing) (s : AuthState) : AuthState :=
  mkAuth (a_mode s) (a_values s) (a_status s) (a_agreed s) (a_showPassword s) (a_message s) (a_fieldErrors s) (a_busy s)
    (a_passkeySupported s) (a_turnstileToken s) (a_wechat s) (a_twoFa s) v.

Definition setLoading (v : bool) (s : AuthState) : AuthState :=
  let b := a_busy s in set_busy (mkBusy v (bz_codeLoading b) (bz_oauthLoading b) (bz_cooldown b)) s.
Definition setCodeLoading (v : bool) (s : AuthState) : AuthState :=
  let b := a_busy s in set_busy (mkBusy (bz_loading b) v (bz_oauthLoading b) (bz_cooldown b)) s.
Definition setOAuthLoading (v : jsstr) (s : AuthState) : AuthState :=
  let b := a_busy s in set_busy (mkBusy (bz_loading b) (bz_codeLoading b) v (bz_cooldown b)) s.
Definition setCooldown (v : Z) (s : AuthState) : AuthState :=
  let b := a_busy s in set_busy (mkBusy (bz_loading b) (bz_codeLoading b) (bz_oauthLoading b) v) s.

Definition setMessage (k : MessageKind) (text : jsstr) (s : AuthState) : AuthState := set_note (Some (k, text)) s.
Definition clearMessage (s : AuthState) : AuthState := set_note None s.

(** [{ ...current, [key]: undefined }]. *)
Definition without_error (f : AuthFieldName) (e : FieldErrors) : FieldErrors :=
  fun g => if bool_decide (g = f) then None else e g.

(** ** What a render derives from the state *)

Definition isRegister (s : AuthState) : bool := bool_decide (ms_activeMode (a_mode s) = register_mode).
Definition isEmailCodeLogin (s : AuthState) : bool :=
  negb (isRegister s) && bool_decide (ms_loginMethod (a_mode s) = emailCode_method).

Definition status_flag (k : jsstr) (s : AuthState) : bool :=
  match a_status s with Some st => member_truthy k st | None => false end.
Definition status_not_false (k : jsstr) (s : AuthState) : bool :=
  negb (match a_status s with Some st => match jfield k st with Some (JBool false) => true | _ => false end | None => false end).
Definition status_text (k : jsstr) (s : AuthState) : jsstr :=
  match a_status s with Some st => default [] (user_text k st) | None => [] end.

Definition emailVerificationRequired (s : AuthState) : bool := status_flag (js "email_verification") s.
Definition turnstileEnabled (s : AuthState) : bool := status_flag (js "turnstile_check") s.
Definition turnstileReady (s : AuthState) : bool := negb (turnstileEnabled s) || truthy (a_turnstileToken s).
Definition passwordAuthEnabled (s : AuthState) : bool :=
  if isRegister s
  then status_not_false (js "register_enabled") s && status_not_false (js "password_register_enabled") s
  else status_not_false (js "password_login_enabled") s.
Definition canShowRegisterLink (s : AuthState) : bool :=
  negb (status_flag (js "self_use_mode_enabled") s) && status_not_false (js "register_enabled") s.

Definition wechatQrCode (s : AuthState) : jsstr :=
  fold_right str_or [] (map (fun k => status_text k s)
    [js "wechat_qrcode"; js "wechat_qr_code"; js "wechat_qrcode_image_url"; js "wechat_qr_code_image_url";
     js "wechat_account_qrcode_image_url"; js "WeChatAccountQRCodeImageURL"]).

Definition customOAuthProviders (s : AuthState) : list json :=
  match a_status s with
  | Some st => match jfield (js "custom_oauth_providers") st with Some (JArr l) => l | _ => [] end
  | None => []
  end.

Definition hasOAuthOptions (s : AuthState) : bool :=
  status_flag (js "wechat_login") s || status_flag (js "github_oauth") s || status_flag (js "discord_oauth") s
  || status_flag (js "oidc_enabled") s || status_flag (js "linuxdo_oauth") s || status_flag (js "telegram_oauth") s
  || negb (match customOAuthProviders s with [] => true | _ => false end)
  || (negb (isRegister s) && status_flag (js "passkey_login") s && a_passkeySupported s).

(** ** helpers/auth-copy.ts *)

Record CopyFlags := mkFlags {
  cf_isRegister : bool;
  cf_isEmailCodeLogin : bool;
  cf_emailVerificationRequired : bool;
  cf_cooldown : Z;
  cf_useBackupCode : bool
}.

Definition copy_texts (f : CopyFlags) : list (jsstr * jsstr) :=
  let by_email := cf_isRegister f || cf_isEmailCodeLogin f in
  [(js "title", if cf_isRegister f then js "Register"
                else if cf_isEmailCodeLogin f then js "Email code sign in" else js "Account password sign in");
   (js "email", if by_email then js "Email" else js "Email / username");
   (js "emailPlaceholder", if by_email then js "Enter your email" else js "Enter your email or username");
   (js "password", js "Password"); (js "passwordPlaceholder", js "Enter your password");
   (js "verificationCode", js "Email verification code");
   (js "verificationPlaceholder", if cf_isEmailCodeLogin f || cf_emailVerificationRequired f
                                  then js "Enter code" else js "No code required");
   (js "inviteCode", js "Invite code"); (js "invitePlaceholder", js "Invite code (optional)");
   (js "getCode", js "Get code"); (js "submit", if cf_isRegister f then js "Register" else js "Sign in");
   (js "codeLogin", js "Sign in with email code"); (js "passwordLogin", js "Sign in with password");
   (js "forgot", js "Forgot password?"); (js "agreement", js "I have read and agree to");
   (js "userAgreement", js "User Agreement and Terms of Service"); (js "privacyPolicy", js "Privacy Policy");
   (js "and", js "and");
   (js "switchText", if cf_isRegister f then js "Already have an account? Sign in" else js "No account? Register");
   (js "invalidEmail", js "Enter a valid email");
   (js "emailRule", js "Enter a valid email, up to 50 characters");
   (js "accountRule", js "Enter your email or username, up to 50 characters");
   (js "passwordRule", js "Password must be 8-20 characters"); (js "loginPasswordRule", js "Enter your password");
   (js "agreementRequired", js "Please agree to the legal terms first");
   (js "codeRequired", js "Enter the email verification code"); (js "loginDisabled", js "Password login is disabled");
   (js "registerDisabled", js "Password registration is disabled");
   (js "turnstileRequired", js "Complete the human verification first");
   (js "codeNotRequired", js "Email verification code is not required");
   (js "unsupported", js "This sign-in method is not available yet");
   (js "passkeyUnsupported", js "Passkey is not available in this environment");
   (js "passkeyLogin", js "Sign in with Passkey"); (js "wechatLogin", js "Continue with WeChat");
   (js "githubLogin", js "Continue with GitHub"); (js "discordLogin", js "Continue with Discord");
   (js "oidcLogin", js "Continue with OIDC"); (js "linuxdoLogin", js "Continue with LinuxDO");
   (js "telegramLogin", js "Continue with Telegram"); (js "customLogin", js "Continue with {{name}}");
   (js "oauthInitFailed", js "Failed to initialize OAuth");
   (js "resetSent", js "Reset email sent. Check your inbox."); (js "resetNeedEmail", js "Enter your account email first");
   (js "twoFaTitle", js "Two-factor verification");
   (js "twoFaText", js "Enter an authenticator code or backup code to finish signing in.");
   (js "twoFaCode", if cf_useBackupCode f then js "Backup code" else js "Verification code");
   (js "twoFaPlaceholder", if cf_useBackupCode f then js "Enter 8-character backup code" else js "Enter 6-digit code");
   (js "twoFaSubmit", js "Verify and sign in");
   (js "useBackupCode", if cf_useBackupCode f then js "Use verification code" else js "Use backup code");
   (js "backToLogin", js "Back to password sign in"); (js "wechatTitle", js "WeChat sign in");
   (js "wechatHelp", js "Scan the QR code, follow the account, and enter the verification code.");
   (js "wechatPlaceholder", js "Enter WeChat verification code"); (js "submitWechat", js "Sign in");
   (js "noWechatQr", js "WeChat QR code is not configured"); (js "otherOptions", js "Other sign-in options");
   (js "success", if cf_isRegister f then js "Registered. Signing in..." else js "Signed in")].

(** ** Requests, closures and effects *)

Inductive Request :=
| R_status
| R_login (token : jsstr) (username password : jsstr)
| R_emailCode (token email code : jsstr)
| R_register (token username email password : jsstr) (code aff : option jsstr)
| R_registeredLogin (username password : jsstr)
| R_verification (token email : jsstr) (purpose : option jsstr)
| R_resetPassword (token email : jsstr)
| R_logout
| R_oauthState (token aff : jsstr)
| R_passkeyBegin (token : jsstr)
| R_passkeyFinish (payload : json)
| R_wechat (token code : jsstr)
| R_telegram (token : jsstr) (params : list (jsstr * jsstr))
| R_twoFa (code : jsstr)
| R_self
| R_oauth (provider code state : jsstr).

Inductive OAuthProvider :=
| P_github (clientId : jsstr)
| P_discord (clientId : jsstr)
| P_oidc (endpoint clientId : jsstr)
| P_linuxdo (clientId : jsstr)
| P_custom (provider : CustomOAuthProvider).

(** The request a continuation of the page waits for. *)
Inductive Waits :=
| W_status | W_login | W_emailCode | W_register | W_registeredLogin | W_sendCode | W_forgot
| W_logout (p : OAuthProvider) | W_oauthState (p : OAuthProvider)
| W_passkeyBegin | W_credential | W_passkeyFinish | W_wechat | W_telegram | W_twoFa.

(** What a handler captured when it was called. *)
Record Closure := mkClosure {
  c_language : Language;
  c_flags : CopyFlags;
  c_values : AuthFormValues;
  c_token : jsstr;
  c_successPath : jsstr
}.

Inductive Effect :=
| Send (r : Request) (w : Waits) (c : Closure)
| AskCredential (options : wval) (c : Closure)
| SetUser (user : option json)
| NavigateTo (path : jsstr) (on_throw : AuthState -> AuthState)
| StoreRedirect (path : jsstr)
| ReplaceUrl (path : jsstr)
| Leave (url : jsstr).

(** What the page reads of the site around it when it renders. *)
Record PageCtx := mkCtx {
  px_language : Language;
  px_redirect : jsstr;
  px_successPath : jsstr;
  px_aff : jsstr;
  px_reducedMotion : bool
}.

Section Page.
Context {W : Web}.

Definition localizeKey (language : Language) (key : jsstr) : jsstr := translateLocale language key.

(** [text.replaceAll("{{seconds}}", n)]. *)
Fixpoint replaceAll_go (fuel : nat) (s pat by_ : jsstr) : jsstr :=
  match fuel, s with
  | O, _ => s
  | _, [] => []
  | S f, c :: t =>
      match strip_prefix pat s with
      | Some r => by_ ++ replaceAll_go f r pat by_
      | None => c :: replaceAll_go f t pat by_
      end
  end.

Definition getCodeSendLabel (language : Language) (cooldown : Z) : jsstr :=
  if (0 <? cooldown)%Z
  then let text := translateLocale language (js "{{seconds}}s") in
       replaceAll_go (length text) text (js "{{seconds}}") (num_to_str (num_of_Z cooldown))
  else localizeKey language (js "Get code").

Definition buildAuthCopy (language : Language) (f : CopyFlags) (key : jsstr) : jsstr :=
  if str_eqb key (js "getCode") then getCodeSendLabel language (cf_cooldown f)
  else translateLocale language (default [] (table_get key (copy_texts f))).

Definition flags_of (s : AuthState) : CopyFlags :=
  mkFlags (isRegister s) (isEmailCodeLogin s) (emailVerificationRequired s) (bz_cooldown (a_busy s))
    (tf_useBackupCode (a_twoFa s)).

Definition copy (px : PageCtx) (s : AuthState) (key : jsstr) : jsstr := buildAuthCopy (px_language px) (flags_of s) key.
Definition copied (c : Closure) (key : jsstr) : jsstr := buildAuthCopy (c_language c) (c_flags c) key.

Definition authSuccessPath (px : PageCtx) : jsstr := str_or (px_redirect px) (str_or (px_successPath px) (js "/dashboard")).

Definition capture (px : PageCtx) (s : AuthState) : Closure :=
  mkClosure (px_language px) (flags_of s) (a_values s) (a_turnstileToken s) (authSuccessPath px).

Definition navigateAfterAuth (c : Closure) (on_throw : AuthState -> AuthState) : Effect :=
  NavigateTo (c_successPath c) on_throw.

(** ** Mounting *)

Definition auth_mount (pathname aff : jsstr) : AuthState :=
  mkAuth (mkModeState (if has_str [js "/register"; js "/sign-up"] pathname then register_mode else login_mode)
            password_method tr_idle None false)
    (mkValues [] [] [] aff) None true false None no_errors (mkBusy false false [] 0) false [] (mkWeChat false [])
    (mkTwoFa false [] false) (mkClosing false None).

(** The first effect on the invite code; the code also goes to the local storage. *)
Definition aff_effect (aff : jsstr) (s : AuthState) : AuthState :=
  if truthy aff then
    let v := a_values s in
    setValues (mkValues (v_email v) (v_password v) (v_verificationCode v) (str_or (v_inviteCode v) aff)) s
  else s.

(** ** Fields *)

Definition set_value (k : AuthValue) (value : jsstr) (v : AuthFormValues) : AuthFormValues :=
  match k with
  | AV_email => mkValues value (v_password v) (v_verificationCode v) (v_inviteCode v)
  | AV_password => mkValues (v_email v) value (v_verificationCode v) (v_inviteCode v)
  | AV_verificationCode => mkValues (v_email v) (v_password v) value (v_inviteCode v)
  | AV_inviteCode => mkValues (v_email v) (v_password v) (v_verificationCode v) value
  end.

(** The error of the field with the same name; the invite code has none. *)
Definition clear_error (k : AuthValue) (e : FieldErrors) : FieldErrors :=
  match k with
  | AV_email => without_error AF_email e
  | AV_password => without_error AF_password e
  | AV_verificationCode => without_error AF_verificationCode e
  | AV_inviteCode => e
  end.

Definition updateValue (k : AuthValue) (value : jsstr) (s : AuthState) : AuthState :=
  clearMessage (setFieldErrors (clear_error k (a_fieldErrors s)) (setValues (set_value k value (a_values s)) s)).

Definition showFieldError (f : AuthFieldName) (text : jsstr) (s : AuthState) : AuthState :=
  clearMessage (setFieldErrors (fun g => if bool_decide (g = f) then Some text else None) s).

(** ** Validation: the state with the error shown, or nothing *)

Definition consent_and_turnstile (px : PageCtx) (s : AuthState) : option AuthState :=
  if negb (a_agreed s) then Some (setMessage M_error (copy px s (js "agreementRequired")) s)
  else if negb (turnstileReady s) then Some (setMessage M_error (copy px s (js "turnstileRequired")) s)
  else None.

Definition validateBase (px : PageCtx) (s : AuthState) : option AuthState :=
  let account := trim (v_email (a_values s)) in
  let len := length (v_password (a_values s)) in
  if isRegister s && negb (isValidEmail account) then Some (showFieldError AF_email (copy px s (js "emailRule")) s)
  else if negb (isRegister s) && (Nat.eqb (length account) 0 || Nat.ltb 50 (length account))
  then Some (showFieldError AF_email (copy px s (js "accountRule")) s)
  else if isRegister s && (Nat.ltb len 8 || Nat.ltb 20 len)
  then Some (showFieldError AF_password (copy px s (js "passwordRule")) s)
  else if negb (isRegister s) && Nat.eqb len 0
  then Some (showFieldError AF_password (copy px s (js "loginPasswordRule")) s)
  else consent_and_turnstile px s.

Definition validateEmailCodeLogin (px : PageCtx) (s : AuthState) : option AuthState :=
  if negb (isValidEmail (v_email (a_values s))) then Some (showFieldError AF_email (copy px s (js "emailRule")) s)
  else if negb (truthy (trim (v_verificationCode (a_values s))))
  then Some (showFieldError AF_verificationCode (copy px s (js "codeRequired")) s)
  else consent_and_turnstile px s.

(** ** Handlers *)

Definition Handler : Type := AuthState -> (AuthState * list Effect)%type.
Definition just (s : AuthState) : AuthState * list Effect := (s, []).
Definition send (r : Request) (w : Waits) (px : PageCtx) (before after : AuthState) : AuthState * list Effect :=
  (after, [Send r w (capture px before)]).

Definition handleLogin (px : PageCtx) : Handler := fun s =>
  if negb (passwordAuthEnabled s) then just (setMessage M_error (copy px s (js "loginDisabled")) s)
  else match validateBase px s with
       | Some s => just s
       | None =>
           send (R_login (a_turnstileToken s) (trim (v_email (a_values s))) (v_password (a_values s))) W_login px s
             (setLoading true (setFieldErrors no_errors s))
       end.

Definition handleEmailCodeLogin (px : PageCtx) : Handler := fun s =>
  match validateEmailCodeLogin px s with
  | Some s => just s
  | None =>
      send (R_emailCode (a_turnstileToken s) (trim (v_email (a_values s))) (trim (v_verificationCode (a_values s))))
        W_emailCode px s (setLoading true (setFieldErrors no_errors s))
  end.

(** [text || undefined]. *)
Definition or_undefined (s : jsstr) : option jsstr := if truthy s then Some s else None.

Definition handleRegister (px : PageCtx) (random : jsstr) : Handler := fun s =>
  if negb (passwordAuthEnabled s) then just (setMessage M_error (copy px s (js "registerDisabled")) s)
  else match validateBase px s with
       | Some s => just s
       | None =>
           let code := trim (v_verificationCode (a_values s)) in
           if emailVerificationRequired s && negb (truthy code)
           then just (showFieldError AF_verificationCode (copy px s (js "codeRequired")) s)
           else
             let email := trim (v_email (a_values s)) in
             send (R_register (a_turnstileToken s) (generateUsernameFromEmail random email) email
                     (v_password (a_values s)) (or_undefined code)
                     (or_undefined (str_or (trim (v_inviteCode (a_values s))) (px_aff px))))
               W_register px s (setLoading true (setFieldErrors no_errors s))
       end.

Definition handleSubmit (px : PageCtx) (random : jsstr) : Handler := fun s =>
  if isRegister s then handleRegister px random s
  else if isEmailCodeLogin s then handleEmailCodeLogin px s
  else handleLogin px s.

Definition handleSendCode (px : PageCtx) : Handler := fun s =>
  if negb (isValidEmail (v_email (a_values s))) then just (showFieldError AF_email (copy px s (js "emailRule")) s)
  else if negb (isEmailCodeLogin s) && negb (emailVerificationRequired s)
  then just (setMessage M_info (copy px s (js "codeNotRequired")) s)
  else if negb (turnstileReady s) then just (setMessage M_error (copy px s (js "turnstileRequired")) s)
  else
    send (R_verification (a_turnstileToken s) (trim (v_email (a_values s)))
            (if isEmailCodeLogin s then Some (js "l") else None)) W_sendCode px s
      (setCodeLoading true (setFieldErrors (without_error AF_email (a_fieldErrors s)) s)).

Definition handleForgotPassword (px : PageCtx) : Handler := fun s =>
  if negb (isValidEmail (v_email (a_values s)))
  then just (showFieldError AF_email
               (if truthy (trim (v_email (a_values s))) then copy px s (js "emailRule") else copy px s (js "resetNeedEmail")) s)
  else if negb (turnstileReady s) then just (setMessage M_error (copy px s (js "turnstileRequired")) s)
  else send (R_resetPassword (a_turnstileToken s) (trim (v_email (a_values s)))) W_forgot px s (setLoading true s).

(** [requireTurnstile]. *)
Definition requireTurnstile (px : PageCtx) (s : AuthState) : option AuthState :=
  if negb (turnstileReady s) then Some (setMessage M_error (copy px s (js "turnstileRequired")) s) else None.

Definition provider_key (p : OAuthProvider) : jsstr :=
  match p with
  | P_github _ => js "github" | P_discord _ => js "discord" | P_oidc _ _ => js "oidc" | P_linuxdo _ => js "linuxdo"
  | P_custom p => js "custom-" ++ pv_slug p
  end.

Definition buildUrl (p : OAuthProvider) (state : jsstr) : option jsstr :=
  match p with
  | P_github id => buildGitHubOAuthUrl id state
  | P_discord id => buildDiscordOAuthUrl id state
  | P_oidc endpoint id => buildOIDCOAuthUrl endpoint id state
  | P_linuxdo id => buildLinuxDOOAuthUrl id state
  | P_custom p => buildCustomOAuthUrl p state
  end.

(** [resetSessionBeforeOAuth] clears the user before it asks for the logout. *)
Definition beginOAuth (px : PageCtx) (p : OAuthProvider) : Handler := fun s =>
  match consent_and_turnstile px s with
  | Some s => just s
  | None => (setOAuthLoading (provider_key p) s, [SetUser None; Send R_logout (W_logout p) (capture px s)])
  end.

Definition handlePasskeyLogin (px : PageCtx) : Handler := fun s =>
  if negb (a_agreed s) then just (setMessage M_error (copy px s (js "agreementRequired")) s)
  else if negb (a_passkeySupported s) then just (setMessage M_error (copy px s (js "passkeyUnsupported")) s)
  else match requireTurnstile px s with
       | Some s => just s
       | None => send (R_passkeyBegin (a_turnstileToken s)) W_passkeyBegin px s (setOAuthLoading (js "passkey") s)
       end.

Definition handleWeChatSubmit (px : PageCtx) : Handler := fun s =>
  if negb (a_agreed s) then just (setMessage M_error (copy px s (js "agreementRequired")) s)
  else if negb (truthy (trim (wc_code (a_wechat s)))) then just (showFieldError AF_wechatCode (copy px s (js "codeRequired")) s)
  else if negb (turnstileReady s) then just (setMessage M_error (copy px s (js "turnstileRequired")) s)
  else send (R_wechat (a_turnstileToken s) (trim (wc_code (a_wechat s)))) W_wechat px s (setOAuthLoading (js "wechat") s).

Definition telegram_fields : list jsstr :=
  [js "id"; js "first_name"; js "last_name"; js "username"; js "photo_url"; js "auth_date"; js "hash"; js "lang"].

Definition telegram_params (payload : json) : list (jsstr * jsstr) :=
  omap (fun k => match jfield k payload with
                 | None | Some JNull | Some (JStr []) => None
                 | Some v => Some (k, json_to_str v)
                 end) telegram_fields.

Definition handleTelegramAuth (px : PageCtx) (payload : json) : Handler := fun s =>
  match consent_and_turnstile px s with
  | Some s => just s
  | None => send (R_telegram (a_turnstileToken s) (telegram_params payload)) W_telegram px s (setOAuthLoading (js "telegram") s)
  end.

(** Eight characters of a backup code, or six digits. *)
Definition two_fa_code_ok (backup : bool) (code : jsstr) : bool :=
  if backup then Nat.eqb (length code) 8 else Nat.eqb (length code) 6 && forallb is_digit code.

Definition handleTwoFaSubmit (px : PageCtx) : Handler := fun s =>
  let code := trim (tf_code (a_twoFa s)) in
  if negb (two_fa_code_ok (tf_useBackupCode (a_twoFa s)) code)
  then just (showFieldError AF_twoFaCode (copy px s (js "codeRequired")) s)
  else send (R_twoFa code) W_twoFa px s (setLoading true s).

(** The handler of the WeChat button, of an unavailable method, and of the button
    that changes between password and code. *)
Definition onWeChat (px : PageCtx) : Handler := fun s =>
  match requireTurnstile px s with
  | Some s => just s
  | None => just (set_wechat (mkWeChat true (wc_code (a_wechat s))) s)
  end.

Definition onUnsupported (px : PageCtx) : Handler := fun s => just (setMessage M_info (copy px s (js "unsupported")) s).

Definition toggleLoginMethod (s : AuthState) : AuthState :=
  let m := a_mode s in let v := a_values s in
  clearMessage (setValues (mkValues (v_email v) [] [] (v_inviteCode v))
    (set_mode_state (mkModeState (ms_activeMode m)
       (match ms_loginMethod m with password_method => emailCode_method | emailCode_method => password_method end)
       (ms_transition m) (ms_exitTimer m) (ms_enterTimer m)) s)).

(** ** Two-factor form and WeChat dialog *)

Definition onChangeTwoFaCode (value : jsstr) (s : AuthState) : AuthState :=
  setFieldErrors (without_error AF_twoFaCode (a_fieldErrors s))
    (set_twoFa (mkTwoFa (tf_required (a_twoFa s)) value (tf_useBackupCode (a_twoFa s))) s).
Definition onBack (s : AuthState) : AuthState :=
  clearMessage (set_twoFa (mkTwoFa false [] (tf_useBackupCode (a_twoFa s))) s).
Definition onToggleBackup (s : AuthState) : AuthState :=
  clearMessage (set_twoFa (mkTwoFa (tf_required (a_twoFa s)) [] (negb (tf_useBackupCode (a_twoFa s)))) s).
Definition onChangeWeChatCode (value : jsstr) (s : AuthState) : AuthState :=
  setFieldErrors (without_error AF_wechatCode (a_fieldErrors s)) (set_wechat (mkWeChat (wc_open (a_wechat s)) value) s).
Definition onCloseWeChat (s : AuthState) : AuthState := set_wechat (mkWeChat false (wc_code (a_wechat s))) s.

(** ** Changing between sign-in and registration *)

Definition commitMode (px : PageCtx) (nextMode : AuthMode) : Handler := fun s =>
  let v := a_values s in
  let s := setValues (mkValues (v_email v) (v_password v) [] (v_inviteCode v))
             (set_twoFa (mkTwoFa (tf_required (a_twoFa s)) [] false) (setFieldErrors no_errors (clearMessage s))) in
  let transition := if px_reducedMotion px then tr_idle else tr_in in
  (set_mode_state (mkModeState nextMode password_method transition None (negb (px_reducedMotion px))) s,
   [ReplaceUrl (match nextMode with register_mode => js "/register" | login_mode => js "/sign-in" end)]).

Definition switchMode (px : PageCtx) (nextMode : AuthMode) : Handler := fun s =>
  let m := a_mode s in
  if bool_decide (nextMode = ms_activeMode m) || bz_loading (a_busy s) || negb (bool_decide (ms_transition m = tr_idle))
  then just s
  else if px_reducedMotion px then commitMode px nextMode s
  else just (set_mode_state (mkModeState (ms_activeMode m) (ms_loginMethod m) tr_out (Some nextMode) (ms_enterTimer m)) s).

Definition enter_done (s : AuthState) : AuthState :=
  let m := a_mode s in
  set_mode_state (mkModeState (ms_activeMode m) (ms_loginMethod m) tr_idle (ms_exitTimer m) false) s.

(** The page is shown as a dialog: closing starts a timer once. The [onClose] of
    the site navigates to the path that is also its [successPath]. *)
Definition requestClose (px : PageCtx) (s : AuthState) : AuthState :=
  if cl_isClosing (a_closing s) then s else set_closing (mkClosing true (Some (px_successPath px))) s.

(** ** Answers

    The update of the state, for the instance that asked if it is still mounted,
    and the effects, which happen in any case. *)

Definition Continuation : Type := ((AuthState -> AuthState) * list Effect)%type.

(** [setUser(data); navigateAfterAuth()]. *)
Definition signed_in (c : Closure) (data : json) (on_throw : AuthState -> AuthState) : list Effect :=
  [SetUser (Some data); navigateAfterAuth c on_throw].

Definition loginAnswered (c : Closure) (fallback : jsstr) (r : ApiResponse) : Continuation :=
  match success_data r with
  | None => (fun s => setLoading false (setMessage M_error (message_or r (copied c fallback)) s), [])
  | Some data =>
      if member_truthy (js "require_2fa") data
      then (fun s => setLoading false (clearMessage
              (set_twoFa (mkTwoFa true (tf_code (a_twoFa s)) (tf_useBackupCode (a_twoFa s))) s)), [])
      else (fun s => setLoading false (setMessage M_success (copied c (js "success")) s), signed_in c data id)
  end.

Definition registerAnswered (c : Closure) (r : ApiResponse) : Continuation :=
  if negb (rp_success r)
  then (fun s => setLoading false (setMessage M_error (message_or r (copied c (js "registerDisabled"))) s), [])
  else (setMessage M_success (copied c (js "success")),
        [Send (R_registeredLogin (trim (v_email (c_values c))) (v_password (c_values c))) W_registeredLogin c]).

Definition registeredLoginAnswered (c : Closure) (r : ApiResponse) : Continuation :=
  match success_data r with
  | Some data => (setLoading false, signed_in c data id)
  | None => (setLoading false, [NavigateTo (js "/sign-in") id])
  end.

Definition sendCodeAnswered (c : Closure) (r : ApiResponse) : Continuation :=
  if rp_success r
  then (fun s => setMessage M_success (localizeKey (c_language c) (js "Verification code sent. Check your inbox."))
                   (setCooldown 60 (setCodeLoading false s)), [])
  else (fun s => setMessage M_error (message_or r (copied c (js "codeRequired"))) (setCodeLoading false s), []).

Definition forgotAnswered (c : Closure) (r : ApiResponse) : Continuation :=
  (fun s => setMessage (if rp_success r then M_success else M_error)
              (if rp_success r then copied c (js "resetSent") else message_or r (copied c (js "resetNeedEmail")))
              (setLoading false s), []).

(** The answer to the logout is not looked at. *)
Definition logoutAnswered (c : Closure) (p : OAuthProvider) (aff : jsstr) : Continuation :=
  (id, [StoreRedirect (c_successPath c); Send (R_oauthState (c_token c) aff) (W_oauthState p) c]).

Definition oauth_failed (text : jsstr) : Continuation := (fun s => setOAuthLoading [] (setMessage M_error text s), []).

Definition oauthStateAnswered (c : Closure) (p : OAuthProvider) (r : ApiResponse) : Continuation :=
  match success_data r with
  | None => oauth_failed (copied c (js "oauthInitFailed"))
  | Some state =>
      match buildUrl p (json_to_str state) with
      | Some url => (id, [Leave url])
      | None => oauth_failed exception_text
      end
  end.

Definition passkeyBeginAnswered (c : Closure) (r : ApiResponse) : Continuation :=
  match success_data r with
  | None => oauth_failed (message_or r (copied c (js "passkeyUnsupported")))
  | Some data =>
      match prepareCustomerRequestOptions data with
      | Throws _ => oauth_failed (copied c (js "passkeyUnsupported"))
      | Returns options => (id, [AskCredential options c])
      end
  end.

(** What [navigator.credentials.get] gives. *)
Inductive CredentialResult :=
| Credential (c : option (PublicKeyCredential AssertionResponse))
| CredentialRejected (abort : bool).

Definition credentialAnswered (c : Closure) (r : CredentialResult) : Continuation :=
  match r with
  | CredentialRejected true => oauth_failed (copied c (js "unsupported"))
  | CredentialRejected false => oauth_failed (copied c (js "passkeyUnsupported"))
  | Credential credential =>
      match buildAssertionResult credential with
      | None => oauth_failed (copied c (js "passkeyUnsupported"))
      | Some payload => (id, [Send (R_passkeyFinish payload) W_passkeyFinish c])
      end
  end.

Definition passkeyFinishAnswered (c : Closure) (r : ApiResponse) : Continuation :=
  match success_data r with
  | Some data => (setOAuthLoading [], signed_in c data (setMessage M_error (copied c (js "passkeyUnsupported"))))
  | None => oauth_failed (message_or r (copied c (js "passkeyUnsupported")))
  end.

(** [handleWeChatSubmit] and [handleTelegramAuth] after their request. *)
Definition providerAnswered (c : Closure) (r : ApiResponse) : Continuation :=
  match success_data r with
  | Some data => (setOAuthLoading [], signed_in c data id)
  | None => oauth_failed (message_or r (copied c (js "unsupported")))
  end.

Definition twoFaAnswered (c : Closure) (r : ApiResponse) : Continuation :=
  match success_data r with
  | Some data => (setLoading false, signed_in c data id)
  | None => (fun s => setMessage M_error (message_or r (copied c (js "codeRequired"))) (setLoading false s), [])
  end.

Definition statusAnswered (r : ApiResponse) : Continuation :=
  match success_data r with
  | Some data => (setStatus (Some data), [])
  | None => (id, [])
  end.

Definition auth_answered (c : Closure) (w : Waits) (aff : jsstr) (r : ApiResponse) : Continuation :=
  match w with
  | W_status => statusAnswered r
  | W_login => loginAnswered c (js "loginDisabled") r
  | W_emailCode => loginAnswered c (js "codeRequired") r
  | W_register => registerAnswered c r
  | W_registeredLogin => registeredLoginAnswered c r
  | W_sendCode => sendCodeAnswered c r
  | W_forgot => forgotAnswered c r
  | W_logout p => logoutAnswered c p aff
  | W_oauthState p => oauthStateAnswered c p r
  | W_passkeyBegin => passkeyBeginAnswered c r
  | W_credential => (id, [])
  | W_passkeyFinish => passkeyFinishAnswered c r
  | W_wechat => providerAnswered c r
  | W_telegram => providerAnswered c r
  | W_twoFa => twoFaAnswered c r
  end.

(** ** What the user can do *)

Definition provider_of (p : json) : CustomOAuthProvider :=
  let text k := default [] (user_text k p) in
  mkProvider (text (js "slug")) (text (js "client_id")) (text (js "authorization_endpoint")) (text (js "scopes")).

(** The buttons of AuthOAuthOptions.tsx that start an OAuth sign-in. *)
Definition shown_providers (s : AuthState) : list OAuthProvider :=
  let id k := status_text k s in
  (if status_flag (js "github_oauth") s && truthy (id (js "github_client_id")) then [P_github (id (js "github_client_id"))] else [])
  ++ (if status_flag (js "discord_oauth") s && truthy (id (js "discord_client_id")) then [P_discord (id (js "discord_client_id"))] else [])
  ++ (if status_flag (js "oidc_enabled") s && truthy (id (js "oidc_authorization_endpoint")) && truthy (id (js "oidc_client_id"))
      then [P_oidc (id (js "oidc_authorization_endpoint")) (id (js "oidc_client_id"))] else [])
  ++ (if status_flag (js "linuxdo_oauth") s && truthy (id (js "linuxdo_client_id")) then [P_linuxdo (id (js "linuxdo_client_id"))] else [])
  ++ map (fun p => P_custom (provider_of p)) (customOAuthProviders s).

Inductive AuthEvent :=
| E_update (k : AuthValue) (value : jsstr)
| E_showPassword
| E_agree (b : bool)
| E_turnstile (token : jsstr)
| E_submit (random : jsstr)
| E_sendCode
| E_forgot
| E_toggleMethod
| E_switchMode
| E_provider (i : nat)
| E_passkey
| E_weChat
| E_weChatCode (value : jsstr)
| E_weChatClose
| E_weChatSubmit
| E_telegram (payload : json)
| E_unsupported
| E_twoFaCode (value : jsstr)
| E_twoFaBack
| E_twoFaToggle
| E_twoFaSubmit
| E_close
| E_closeTimer
| E_exitTimer
| E_enterTimer
| E_cooldownTick
| E_passkeyProbe (supported : bool).

(** [when b h s]: the control is shown and enabled. *)
Definition guard_ (b : bool) (h : Handler) : Handler := fun s => if b then h s else just s.

(** The form behind the two-factor step, and the step itself. *)
Definition on_form (h : Handler) : Handler := fun s => guard_ (negb (tf_required (a_twoFa s))) h s.
Definition on_step (h : Handler) : Handler := fun s => guard_ (tf_required (a_twoFa s)) h s.
Definition pure_ (f : AuthState -> AuthState) : Handler := fun s => just (f s).

(** Whether the button that asks for a code is there: when registering with
    verification, or when signing in by code. *)
Definition code_button (s : AuthState) : bool :=
  (isRegister s && emailVerificationRequired s || isEmailCodeLogin s)
  && negb (bz_codeLoading (a_busy s)) && negb (0 <? bz_cooldown (a_busy s))%Z.

Definition auth_event (px : PageCtx) (e : AuthEvent) : Handler := fun s =>
  match e with
  | E_update k value =>
      (* the invite code is shown when registering, the password unless signing in by code *)
      on_form (guard_ (match k with
                       | AV_email => true
                       | AV_password => negb (isEmailCodeLogin s)
                       | AV_verificationCode => isRegister s && emailVerificationRequired s || isEmailCodeLogin s
                       | AV_inviteCode => isRegister s
                       end) (pure_ (updateValue k value))) s
  | E_showPassword => on_form (guard_ (negb (isEmailCodeLogin s)) (pure_ (setShowPassword (negb (a_showPassword s))))) s
  | E_agree b => on_form (pure_ (setAgreed b)) s
  | E_turnstile token =>
      on_form (guard_ (turnstileEnabled s && truthy (status_text (js "turnstile_site_key") s)) (pure_ (setTurnstileToken token))) s
  | E_submit random => on_form (guard_ (negb (bz_loading (a_busy s))) (handleSubmit px random)) s
  | E_sendCode => on_form (guard_ (code_button s) (handleSendCode px)) s
  | E_forgot => on_form (guard_ (negb (isRegister s) && negb (isEmailCodeLogin s)) (handleForgotPassword px)) s
  | E_toggleMethod =>
      on_form (guard_ (negb (isRegister s) && negb (bz_loading (a_busy s))) (pure_ toggleLoginMethod)) s
  | E_switchMode =>
      on_form (guard_ (canShowRegisterLink s || isRegister s)
        (switchMode px (if isRegister s then login_mode else register_mode))) s
  | E_provider i =>
      match shown_providers s !! i with
      | Some p => on_form (guard_ (hasOAuthOptions s && negb (truthy (bz_oauthLoading (a_busy s)))) (beginOAuth px p)) s
      | None => just s
      end
  | E_passkey =>
      on_form (guard_ (hasOAuthOptions s && negb (isRegister s) && status_flag (js "passkey_login") s
                       && negb (truthy (bz_oauthLoading (a_busy s))) && a_passkeySupported s) (handlePasskeyLogin px)) s
  | E_weChat =>
      on_form (guard_ (status_flag (js "wechat_login") s && negb (str_eqb (bz_oauthLoading (a_busy s)) (js "wechat")))
        (onWeChat px)) s
  | E_weChatCode value => on_form (guard_ (wc_open (a_wechat s)) (pure_ (onChangeWeChatCode value))) s
  | E_weChatClose => on_form (guard_ (wc_open (a_wechat s)) (pure_ onCloseWeChat)) s
  | E_weChatSubmit =>
      on_form (guard_ (wc_open (a_wechat s) && negb (str_eqb (bz_oauthLoading (a_busy s)) (js "wechat")))
        (handleWeChatSubmit px)) s
  | E_telegram payload =>
      on_form (guard_ (status_flag (js "telegram_oauth") s && truthy (status_text (js "telegram_bot_name") s))
        (handleTelegramAuth px payload)) s
  | E_unsupported =>
      on_form (guard_ (status_flag (js "telegram_oauth") s && negb (truthy (status_text (js "telegram_bot_name") s)))
        (onUnsupported px)) s
  | E_twoFaCode value => on_step (pure_ (onChangeTwoFaCode value)) s
  | E_twoFaBack => on_step (pure_ onBack) s
  | E_twoFaToggle => on_step (pure_ onToggleBackup) s
  | E_twoFaSubmit => on_step (guard_ (negb (bz_loading (a_busy s))) (handleTwoFaSubmit px)) s
  | E_close => just (requestClose px s)
  | E_closeTimer =>
      match cl_timer (a_closing s) with
      | Some path => (set_closing (mkClosing (cl_isClosing (a_closing s)) None) s, [NavigateTo path id])
      | None => just s
      end
  | E_exitTimer =>
      match ms_exitTimer (a_mode s) with Some nextMode => commitMode px nextMode s | None => just s end
  | E_enterTimer => if ms_enterTimer (a_mode s) then just (enter_done s) else just s
  | E_cooldownTick =>
      if (0 <? bz_cooldown (a_busy s))%Z then just (setCooldown (bz_cooldown (a_busy s) - 1) s) else just s
  | E_passkeyProbe supported => just (setPasskeySupported supported s)
  end.

End Page.
