(* ===== verification/SiteWeb.v ===== *)
(** * A browser for the examples

    An instance of the class of browsers: addresses of one site, given by their
    path, and query strings in the form the site writes them. It satisfies the
    laws the proofs about the site use. *)

From S2P Require Import Prelude JsStr JsNum JsJson JsUri SeoRoutes SiteHelpers.
Local Open Scope js_scope.

Definition the_site : jsstr := js "https://aitokensflux.com".

Definition until (c : jschar) (s : jsstr) : jsstr := takeb (fun x => negb (x =? c)%N) s.
Definition from (c : jschar) (s : jsstr) : jsstr := dropb (fun x => negb (x =? c)%N) s.

(** A query or a fragment without a text is empty. *)
Definition part (s : jsstr) : jsstr := match s with [_] => [] | _ => s end.

Definition site_parse (text base : jsstr) : option UrlParts :=
  if startsWith text (js "//") then
    let host := until 47%N (drop 2 text) in
    if truthy host then Some (mkUrl (js "https://" ++ host) (js "/") [] []) else None
  else if startsWith text (js "/") then
    let body := until 35%N text in
    Some (mkUrl the_site (until 63%N body) (part (from 63%N body)) (part (from 35%N text)))
  else if str_eqb text the_site then Some (mkUrl the_site (js "/") [] [])
  else None.

Definition site_search (search name : jsstr) : option jsstr :=
  match find (fun p => startsWith p (name ++ js "=")) (split_char 38%N (drop 1 search)) with
  | Some p => decodeURIComponent (drop (length name + 1) p)
  | None => None
  end.

#[export] Instance site_web : Web := {|
  url_parse := site_parse;
  search_get := site_search;
  query_text := fun l => join (js "&") (map (fun p => p.1 ++ js "=" ++ p.2) l);
  with_search_params := fun url l => Some (url ++ js "?" ++ join (js "&") (map (fun p => p.1 ++ js "=" ++ p.2) l));
  toLowerCase := fun s => s;
  translateLocale := fun _ key => key;
  normalizeNFKD := fun s => s;
  dash_other_characters := fun s => s;
  exception_text := js "Invalid URL";
  origin := the_site
|}.

(** ** Texts without a character *)

Definition lacks (c : jschar) (s : jsstr) : Prop := forallb (fun x => negb (x =? c)%N) s = true.

Lemma until_from c s : until c s ++ from c s = s.
Proof. apply takeb_dropb. Qed.

Lemma until_lacks c s : lacks c (until c s).
Proof.
  unfold lacks, until. induction s as [|x s IH]; [done|]. cbn [takeb]. destruct (negb (x =? c)%N) eqn:E; [|done].
  cbn [forallb]. by rewrite E.
Qed.

Lemma until_app c s t : lacks c s -> match t with x :: _ => x = c | [] => True end -> until c (s ++ t) = s /\ from c (s ++ t) = t.
Proof.
  unfold lacks, until, from. intros Hs Ht. induction s as [|x s IH]; cbn [app takeb dropb].
  - destruct t as [|x t]; [done|]. subst. cbn [takeb dropb]. by rewrite N.eqb_refl.
  - cbn [forallb] in Hs. apply andb_true_iff in Hs as [-> Hs]. destruct (IH Hs) as [-> ->]. done.
Qed.

Lemma from_head c s : match from c s with x :: _ => x = c | [] => True end.
Proof.
  unfold from. induction s as [|x s IH]; [done|]. cbn [dropb]. destruct (negb (x =? c)%N) eqn:E; [done|].
  by apply negb_false_iff, N.eqb_eq in E.
Qed.

Lemma lacks_part c s : lacks c s -> lacks c (part s).
Proof. by destruct s as [|x [|y s]]. Qed.

Lemma lacks_from c d s : lacks c s -> lacks c (from d s).
Proof.
  unfold lacks, from. induction s as [|x s IH]; [done|]. cbn [forallb dropb]. rewrite andb_true_iff. intros [Hx Hs].
  destruct (negb (x =? d)%N); [auto|]. cbn [forallb]. by rewrite Hx.
Qed.

Lemma lacks_until c d s : lacks c s -> lacks c (until d s).
Proof.
  unfold lacks, until. induction s as [|x s IH]; [done|]. cbn [forallb takeb]. rewrite andb_true_iff. intros [Hx Hs].
  destruct (negb (x =? d)%N); [|done]. cbn [forallb]. rewrite Hx. auto.
Qed.

Lemma part_head c s : match s with x :: _ => x = c | [] => True end -> match part s with x :: _ => x = c | [] => True end.
Proof. by destruct s as [|x [|y s]]. Qed.

Lemma part_part s : part (part s) = part s.
Proof. by destruct s as [|x [|y s]]. Qed.

(** ** The laws *)

Lemma starts_slash s : startsWith s (js "/") = match s with a :: _ => (a =? 47)%N | [] => false end.
Proof.
  destruct s as [|a s]; [done|]. unfold startsWith. change (js "/") with [47%N]. cbn [strip_prefix].
  rewrite N.eqb_sym. by destruct (a =? 47)%N.
Qed.

Lemma starts_slashes s : startsWith s (js "//") = match s with a :: b :: _ => ((a =? 47) && (b =? 47))%N | _ => false end.
Proof.
  unfold startsWith. change (js "//") with [47%N; 47%N]. destruct s as [|a [|b s]]; cbn [strip_prefix]; [done| |];
    rewrite !(N.eqb_sym 47); destruct (a =? 47)%N; try done. by destruct (b =? 47)%N.
Qed.

(** An address of the site from its parts. *)
Lemma site_parse_parts p q h :
  startsWith p (js "/") = true -> startsWith p (js "//") = false ->
  lacks 63%N p -> lacks 35%N p -> lacks 35%N q ->
  match q with x :: _ => x = 63%N | [] => True end -> match h with x :: _ => x = 35%N | [] => True end ->
  site_parse (p ++ q ++ h) the_site = Some (mkUrl the_site p (part q) (part h)).
Proof.
  rewrite starts_slash, starts_slashes. intros Hp Hpp H63 H35 Hq Hqh Hhh. unfold site_parse.
  destruct p as [|a p]; [done|]. rewrite starts_slash, starts_slashes.
  replace (match (a :: p) ++ q ++ h with a :: b :: _ => ((a =? 47) && (b =? 47))%N | _ => false end) with false.
  2: { cbn [app]. destruct p as [|b p]; [|cbn [app]; by rewrite Hpp]. cbn [app].
       destruct q as [|c q]; [destruct h as [|c h]; [done|]|]; subst c; cbn [app]; by destruct (a =? 47)%N. }
  cbn [app]. rewrite Hp. rewrite (app_comm_cons p), (app_assoc (a :: p) q h).
  destruct (until_app 35%N ((a :: p) ++ q) h) as [-> ->]; [|done|].
  { unfold lacks in *. by rewrite forallb_app, H35, Hq. }
  by destruct (until_app 63%N (a :: p) q H63 Hqh) as [-> ->].
Qed.

Lemma site_parse_inv v u : site_parse v the_site = Some u -> url_origin u = the_site -> startsWith (url_pathname u) (js "//") = false ->
  (exists q h, u = mkUrl the_site (url_pathname u) (part q) (part h) /\ startsWith (url_pathname u) (js "/") = true
     /\ lacks 63%N (url_pathname u) /\ lacks 35%N (url_pathname u) /\ lacks 35%N q
     /\ match q with x :: _ => x = 63%N | [] => True end /\ match h with x :: _ => x = 35%N | [] => True end).
Proof.
  unfold site_parse. destruct (startsWith v (js "//")).
  { destruct (truthy _); [|done]. intros <-%(inj Some) E _. exists [], []. cbn [url_pathname url_origin] in *. by rewrite E. }
  destruct (startsWith v (js "/")) eqn:E1; [|destruct (str_eqb v the_site)]; [| |done]; intros <-%(inj Some) _ _; cbn [url_pathname].
  2: { by exists [], []. }
  exists (from 63%N (until 35%N v)), (from 35%N v). split; [done|]. split.
  { destruct v as [|a v]; [done|]. rewrite starts_slash in E1 |- *. apply N.eqb_eq in E1 as ->. done. }
  split_and!; [apply until_lacks|apply lacks_until, until_lacks|apply lacks_from, until_lacks|apply from_head..].
Qed.

Lemma encoded_lacks c e : encoded_char c = false -> forallb encoded_char e = true -> lacks c e.
Proof.
  intros Hc He. unfold lacks. apply forallb_forall. intros x Hx. rewrite forallb_forall in He. apply He in Hx.
  apply negb_true_iff, N.eqb_neq. intros ->. congruence.
Qed.

Lemma split_lacks c s : lacks c s -> split_char c s = [s].
Proof.
  unfold lacks. induction s as [|x s IH]; [done|]. cbn [forallb split_char]. rewrite andb_true_iff, negb_true_iff.
  intros [Hx Hs]. by rewrite Hx, IH.
Qed.

Lemma plain_parse p : plain_path p = true -> site_parse p the_site = Some (mkUrl the_site p [] []).
Proof.
  unfold plain_path. rewrite !andb_true_iff, negb_true_iff. intros [[Hs Hc] Hi].
  assert (forall c, (is_word c || (c =? 45) || (c =? 47))%N = false -> lacks c p) as Hl.
  { intros c E. unfold lacks. apply forallb_forall. intros x Hx. rewrite forallb_forall in Hc. apply Hc in Hx.
    apply negb_true_iff, N.eqb_neq. intros ->. congruence. }
  rewrite <- (app_nil_r p) at 1. change (p ++ []) with (p ++ [] ++ []).
  apply site_parse_parts; [done| |by apply Hl..|done|done|done].
  rewrite starts_slashes. destruct p as [|a [|b p]]; [done..|]. destruct ((a =? 47) && (b =? 47))%N eqn:E; [|done].
  apply andb_true_iff in E as [->%N.eqb_eq ->%N.eqb_eq]. done.
Qed.

#[export] Instance site_laws : WebLaws site_web.
Proof.
  split.
  - exact plain_parse.
  - intros v u Hv Ho Hp. destruct (site_parse_inv v u Hv Ho Hp) as (q & h & Hu & H1 & H2 & H3 & H4 & H5 & H6).
    destruct u as [o p sq sh]. cbn [url_origin url_pathname url_search url_hash] in *. injection Hu as -> -> ->.
    change (site_parse (p ++ part q ++ part h) the_site = Some (mkUrl the_site p (part q) (part h))).
    rewrite (site_parse_parts p (part q) (part h) H1 Hp H2 H3 (lacks_part _ _ H4) (part_head _ _ H5) (part_head _ _ H6)).
    by rewrite !part_part.
  - intros t e Ht He. pose proof (encode_chars t e Ht He) as Hc. exists (js "?redirect=" ++ e). split.
    + change (js "/sign-in?redirect=" ++ e) with (js "/sign-in" ++ (js "?redirect=" ++ e)).
      rewrite <- (app_nil_r (js "?redirect=" ++ e)) at 1.
      change (site_parse (js "/sign-in" ++ (js "?redirect=" ++ e) ++ []) the_site
              = Some (mkUrl the_site (js "/sign-in") (js "?redirect=" ++ e) [])).
      rewrite site_parse_parts; [done..| |done|done].
      unfold lacks. rewrite forallb_app. apply (encoded_lacks 35%N e eq_refl Hc).
    + change (search_get _ _) with (site_search (js "?redirect=" ++ e) (js "redirect")). unfold site_search.
      replace (split_char 38%N (drop 1 (js "?redirect=" ++ e))) with [js "redirect=" ++ e].
      2: { symmetry. apply split_lacks. unfold lacks. change (drop 1 (js "?redirect=" ++ e)) with (js "redirect=" ++ e).
           rewrite forallb_app. apply (encoded_lacks 38%N e eq_refl Hc). }
      change (decodeURIComponent e = Some t). by apply decode_encode.
Qed.
