(* ===== verification/AuthProps.v ===== *)
(** * The sign-in page: what it sends, when, and what an answer does

    Requests only leave the page when the rules of their form hold, or go on
    with one for which they held; one request of the form and one verification
    code at a time, and codes at least a minute apart. *)

From S2P Require Import Prelude JsStr JsNum JsJson JsPrint JsUri SeoRoutes SiteHelpers Passkeys AuthPage SiteWeb.
Local Open Scope js_scope.

Section Page.
Context {W : Web}.

(** ** What is sent *)

Definition consent (s : AuthState) : Prop := a_agreed s = true.
Definition token_ok (s : AuthState) (t : jsstr) : Prop :=
  t = a_turnstileToken s /\ (turnstileEnabled s = true -> t <> []).

(** The rules of each form, for a request sent by the user in state [s].  The
    legal terms are not asked for by the requests of a code, of a reset and of
    the second factor. *)
Definition request_ok (s : AuthState) (r : Request) : Prop :=
  match r with
  | R_login t u p =>
      consent s /\ token_ok s t /\ isRegister s = false /\ passwordAuthEnabled s = true
      /\ u = trim (v_email (a_values s)) /\ 1 <= length u <= 50 /\ p <> []
  | R_emailCode t e c =>
      consent s /\ token_ok s t /\ isEmailCodeLogin s = true /\ e = trim (v_email (a_values s)) /\ isValidEmail e = true /\ c <> []
  | R_register t u e p c _ =>
      consent s /\ token_ok s t /\ isRegister s = true /\ passwordAuthEnabled s = true
      /\ e = trim (v_email (a_values s)) /\ isValidEmail e = true /\ p = v_password (a_values s)
      /\ length u <= 20 /\ 8 <= length p <= 20 /\ (emailVerificationRequired s = true -> c <> None)
  | R_verification t e purpose =>
      token_ok s t /\ isValidEmail e = true /\ (bz_cooldown (a_busy s) <= 0)%Z /\ bz_codeLoading (a_busy s) = false
      /\ (purpose = None -> emailVerificationRequired s = true)
  | R_resetPassword t e => token_ok s t /\ isValidEmail e = true
  | R_logout => consent s /\ token_ok s (a_turnstileToken s)
  | R_passkeyBegin t => consent s /\ token_ok s t /\ a_passkeySupported s = true
  | R_wechat t c => consent s /\ token_ok s t /\ c <> []
  | R_telegram t _ => consent s /\ token_ok s t
  | R_twoFa c => tf_required (a_twoFa s) = true /\ two_fa_code_ok (tf_useBackupCode (a_twoFa s)) c = true
  | _ => False
  end.

(** The state in which the user started what a pending request goes on with:
    the closure holds its form and its token, and the rules of the first request
    held in it. *)
Definition started (w : Waits) (c : Closure) (s : AuthState) : Prop :=
  c_values c = a_values s /\ c_token c = a_turnstileToken s
  /\ match w with
     | W_register | W_registeredLogin =>
         consent s /\ token_ok s (a_turnstileToken s) /\ isRegister s = true /\ passwordAuthEnabled s = true
         /\ isValidEmail (trim (v_email (a_values s))) = true /\ 8 <= length (v_password (a_values s)) <= 20
     | W_logout _ | W_oauthState _ => consent s /\ token_ok s (a_turnstileToken s)
     | W_passkeyBegin | W_credential | W_passkeyFinish =>
         consent s /\ token_ok s (a_turnstileToken s) /\ a_passkeySupported s = true
     | _ => True
     end.

(** The requests sent from an answer, by the state [s] the user started them in. *)
Definition follows (s : AuthState) (r : Request) : Prop :=
  match r with
  | R_registeredLogin u p =>
      consent s /\ token_ok s (a_turnstileToken s) /\ isRegister s = true /\ passwordAuthEnabled s = true
      /\ u = trim (v_email (a_values s)) /\ isValidEmail u = true /\ p = v_password (a_values s) /\ 8 <= length p <= 20
  | R_oauthState t _ => consent s /\ token_ok s t
  | R_passkeyFinish _ => consent s /\ token_ok s (a_turnstileToken s) /\ a_passkeySupported s = true
  | _ => False
  end.

(** The continuation of each request the user sends. *)
Definition awaits (r : Request) (w : Waits) : Prop :=
  match r, w with
  | R_login _ _ _, W_login | R_emailCode _ _ _, W_emailCode | R_register _ _ _ _ _ _, W_register
  | R_verification _ _ _, W_sendCode | R_resetPassword _ _, W_forgot | R_logout, W_logout _
  | R_passkeyBegin _, W_passkeyBegin | R_wechat _ _, W_wechat | R_telegram _ _, W_telegram | R_twoFa _, W_twoFa => True
  | _, _ => False
  end.

Definition effect_ok (s : AuthState) (e : Effect) : Prop :=
  match e with
  | Send r w c => request_ok s r /\ started w c s
  | SetUser u => u = None
  | AskCredential _ _ | StoreRedirect _ | Leave _ => False
  | NavigateTo _ _ | ReplaceUrl _ => True
  end.

Lemma turnstile_token s : turnstileReady s = true -> token_ok s (a_turnstileToken s).
Proof.
  unfold turnstileReady, token_ok. intros H. split; [done|]. intros E. rewrite E in H. by destruct (a_turnstileToken s).
Qed.

Lemma consent_spec px s : consent_and_turnstile px s = None -> consent s /\ token_ok s (a_turnstileToken s).
Proof.
  unfold consent_and_turnstile, consent. destruct (a_agreed s); [|done]. cbn [negb].
  destruct (turnstileReady s) eqn:E; [|done]. intros _. split; [done|]. by apply turnstile_token.
Qed.

Lemma valid_email_trim v : isValidEmail (trim v) = isValidEmail v.
Proof. unfold isValidEmail. by rewrite (trim_id _ (trim_trimmed v)). Qed.

Lemma validateBase_spec px s : validateBase px s = None ->
  consent s /\ token_ok s (a_turnstileToken s)
  /\ if isRegister s then isValidEmail (v_email (a_values s)) = true /\ 8 <= length (v_password (a_values s)) <= 20
     else 1 <= length (trim (v_email (a_values s))) <= 50 /\ v_password (a_values s) <> [].
Proof.
  unfold validateBase. cbv zeta. rewrite valid_email_trim. destruct (isRegister s); cbn [negb andb].
  - destruct (isValidEmail _); [|done]. cbn [negb]. destruct (_ || _) eqn:E; [done|].
    apply orb_false_iff in E as [?%Nat.ltb_ge ?%Nat.ltb_ge]. intros [? ?]%consent_spec. split_and!; auto; lia.
  - destruct (_ || _) eqn:E; [done|]. apply orb_false_iff in E as [?%Nat.eqb_neq ?%Nat.ltb_ge].
    destruct (Nat.eqb (length (v_password _)) 0) eqn:E; [done|]. apply Nat.eqb_neq in E.
    intros [? ?]%consent_spec. split_and!; auto; [lia..|]. intros E0. by rewrite E0 in E.
Qed.

Lemma username_length r e : length (generateUsernameFromEmail r e) <= 20.
Proof. unfold generateUsernameFromEmail. rewrite length_take. lia. Qed.

(** ** The handlers *)

Definition sends_ok (h : Handler) (s : AuthState) : Prop := Forall (effect_ok s) (h s).2.

Lemma started_of r w px s : request_ok s r -> awaits r w -> started w (capture px s) s.
Proof.
  intros Hr Ha. unfold started. split; [done|]. split; [done|]. destruct r, w; try done; cbn [request_ok] in Hr.
  - destruct Hr as (? & [? ?] & ? & ? & He & ? & Hp & ? & ? & ?). rewrite <- He, <- Hp. unfold token_ok. subst token. split_and!; auto; lia.
  - destruct Hr as (? & [? ?] & ?). subst token. done.
Qed.

Lemma sends_one (s s' : AuthState) r w px : request_ok s r -> awaits r w -> Forall (effect_ok s) (send r w px s s').2.
Proof. intros H Ha. constructor; [|constructor]. split; [done|by eapply started_of]. Qed.

Lemma sends_nothing (s s' : AuthState) : Forall (effect_ok s) (just s').2.
Proof. constructor. Qed.

Lemma truthy_neq s : truthy s = true -> s <> [].
Proof. by destruct s. Qed.

Lemma login_ok px s : isRegister s = false -> sends_ok (handleLogin px) s.
Proof.
  intros Hr. unfold sends_ok, handleLogin. destruct (passwordAuthEnabled s) eqn:Ep; cbn [negb]; [|apply sends_nothing].
  destruct (validateBase px s) as [s'|] eqn:E; [apply sends_nothing|]. apply sends_one; [|done].
  apply validateBase_spec in E as (? & ? & H). rewrite Hr in H. cbn [request_ok]. tauto.
Qed.

Lemma email_code_ok px s : isEmailCodeLogin s = true -> sends_ok (handleEmailCodeLogin px) s.
Proof.
  intros Hr. unfold sends_ok, handleEmailCodeLogin. destruct (validateEmailCodeLogin px s) as [s'|] eqn:E; [apply sends_nothing|].
  apply sends_one; [|done]. unfold validateEmailCodeLogin in E. destruct (isValidEmail (v_email _)) eqn:Ev; [|done]. cbn [negb] in E.
  destruct (truthy (trim (v_verificationCode _))) eqn:Ec; [|done]. apply consent_spec in E as [? ?].
  cbn [request_ok]. rewrite valid_email_trim. split_and!; auto. by apply truthy_neq.
Qed.

Lemma register_ok px r s : isRegister s = true -> sends_ok (handleRegister px r) s.
Proof.
  intros Hr. unfold sends_ok, handleRegister. destruct (passwordAuthEnabled s) eqn:Ep; cbn [negb]; [|apply sends_nothing].
  destruct (validateBase px s) as [s'|] eqn:E; [apply sends_nothing|].
  destruct (_ && _) eqn:Ec; [apply sends_nothing|]. apply sends_one; [|done].
  apply validateBase_spec in E as (? & ? & H). rewrite Hr in H. cbn [request_ok]. rewrite valid_email_trim.
  split_and!; try tauto; [apply username_length|]. intros Hv. rewrite Hv in Ec. cbn [andb] in Ec.
  apply negb_false_iff in Ec. unfold or_undefined. by rewrite Ec.
Qed.

Lemma send_code_ok px s : code_button s = true -> sends_ok (handleSendCode px) s.
Proof.
  unfold code_button. rewrite !andb_true_iff, !negb_true_iff. intros [[_ Hl] Hc%Z.ltb_ge]. unfold sends_ok, handleSendCode.
  destruct (isValidEmail (v_email _)) eqn:Ev; cbn [negb]; [|apply sends_nothing].
  destruct (isEmailCodeLogin s) eqn:Ee, (emailVerificationRequired s) eqn:Er; cbn [negb andb]; try apply sends_nothing;
    (destruct (turnstileReady s) eqn:Et; cbn [negb]; [|apply sends_nothing]); (apply sends_one; [|done]);
    apply turnstile_token in Et; cbn [request_ok]; rewrite valid_email_trim; split_and!; done.
Qed.

Lemma forgot_ok px s : sends_ok (handleForgotPassword px) s.
Proof.
  unfold sends_ok, handleForgotPassword. destruct (isValidEmail (v_email _)) eqn:Ev; cbn [negb]; [|apply sends_nothing].
  destruct (turnstileReady s) eqn:Et; cbn [negb]; [|apply sends_nothing]. apply sends_one; [|done]. apply turnstile_token in Et.
  cbn [request_ok]. by rewrite valid_email_trim.
Qed.

Lemma oauth_ok px p s : sends_ok (beginOAuth px p) s.
Proof.
  unfold sends_ok, beginOAuth. destruct (consent_and_turnstile px s) as [s'|] eqn:E; [apply sends_nothing|].
  apply consent_spec in E as [? ?]. constructor; [done|]. constructor; [|constructor]. by split.
Qed.

Lemma passkey_ok px s : sends_ok (handlePasskeyLogin px) s.
Proof.
  unfold sends_ok, handlePasskeyLogin, requireTurnstile. destruct (a_agreed s) eqn:Ea; cbn [negb]; [|apply sends_nothing].
  destruct (a_passkeySupported s) eqn:Es; cbn [negb]; [|apply sends_nothing].
  destruct (turnstileReady s) eqn:Et; cbn [negb]; [|apply sends_nothing]. apply sends_one; [|done].
  apply turnstile_token in Et. by cbn [request_ok].
Qed.

Lemma wechat_ok px s : sends_ok (handleWeChatSubmit px) s.
Proof.
  unfold sends_ok, handleWeChatSubmit. destruct (a_agreed s) eqn:Ea; cbn [negb]; [|apply sends_nothing].
  destruct (truthy (trim (wc_code _))) eqn:Es; cbn [negb]; [|apply sends_nothing].
  destruct (turnstileReady s) eqn:Et; cbn [negb]; [|apply sends_nothing]. apply sends_one; [|done].
  apply turnstile_token in Et. cbn [request_ok]. split_and!; auto. by apply truthy_neq.
Qed.

Lemma telegram_ok px v s : sends_ok (handleTelegramAuth px v) s.
Proof.
  unfold sends_ok, handleTelegramAuth. destruct (consent_and_turnstile px s) as [s'|] eqn:E; [apply sends_nothing|].
  apply sends_one; [|done]. by apply consent_spec in E.
Qed.

Lemma two_fa_ok px s : tf_required (a_twoFa s) = true -> sends_ok (handleTwoFaSubmit px) s.
Proof.
  intros Hr. unfold sends_ok, handleTwoFaSubmit. destruct (two_fa_code_ok _ _) eqn:E; cbn [negb]; [|apply sends_nothing].
  by apply sends_one.
Qed.

Lemma form_ok h s : (tf_required (a_twoFa s) = false -> sends_ok h s) -> sends_ok (on_form h) s.
Proof. unfold sends_ok, on_form, guard_. destruct (tf_required _); cbn [negb]; [intros _; apply sends_nothing|auto]. Qed.

Lemma step_ok h s : (tf_required (a_twoFa s) = true -> sends_ok h s) -> sends_ok (on_step h) s.
Proof. unfold sends_ok, on_step, guard_. destruct (tf_required _); [auto|intros _; apply sends_nothing]. Qed.

Lemma guard_ok b h s : (b = true -> sends_ok h s) -> sends_ok (guard_ b h) s.
Proof. unfold sends_ok, guard_. destruct b; [auto|intros _; apply sends_nothing]. Qed.

Lemma commit_mode_ok px m s : sends_ok (commitMode px m) s.
Proof. by constructor. Qed.

Lemma switch_ok px m s : sends_ok (switchMode px m) s.
Proof.
  unfold sends_ok, switchMode. case_match; [apply sends_nothing|]. case_match; [apply commit_mode_ok|apply sends_nothing].
Qed.

Lemma events_ok px e s : Forall (effect_ok s) (auth_event px e s).2.
Proof.
  destruct e; cbn [auth_event]; try (apply form_ok; intros _); try (apply step_ok; intros ?); try (apply guard_ok; intros ?);
    try apply sends_nothing; auto using send_code_ok, forgot_ok, passkey_ok, wechat_ok, telegram_ok, two_fa_ok, switch_ok.
  - unfold sends_ok, handleSubmit. destruct (isRegister s) eqn:Er; [by apply register_ok|].
    destruct (isEmailCodeLogin s) eqn:Ee; [by apply email_code_ok|by apply login_ok].
  - destruct (shown_providers s !! i) as [p|]; [|apply sends_nothing]. apply form_ok; intros _. apply guard_ok; intros _. apply oauth_ok.
  - unfold sends_ok, onWeChat. destruct (requireTurnstile px s); apply sends_nothing.
  - destruct (cl_timer _); [by constructor|apply sends_nothing].
  - destruct (ms_exitTimer _); [apply commit_mode_ok|apply sends_nothing].
  - destruct (ms_enterTimer _); apply sends_nothing.
  - destruct (_ <? _)%Z; apply sends_nothing.
Qed.

(** ** Pending requests *)

(** A mounted page with the requests its handlers wait for. *)
Record PageSys := mkPage { pg_state : AuthState; pg_pending : list (Waits * Closure) }.

Inductive PageStep :=
| PS_event (px : PageCtx) (e : AuthEvent)
| PS_answer (i : nat) (aff : jsstr) (r : ApiResponse)
| PS_credential (i : nat) (r : CredentialResult).

Definition awaited (es : list Effect) : list (Waits * Closure) :=
  omap (fun e => match e with
                 | Send _ w c => Some (w, c)
                 | AskCredential _ c => Some (W_credential, c)
                 | _ => None
                 end) es.

Definition is_credential (w : Waits) : bool := match w with W_credential => true | _ => false end.

(** The continuation an answer runs. *)
Definition continuation (st : PageStep) (p : PageSys) : option (nat * Continuation) :=
  match st with
  | PS_event _ _ => None
  | PS_answer i aff r =>
      match pg_pending p !! i with
      | Some (w, c) => if is_credential w then None else Some (i, auth_answered c w aff r)
      | None => None
      end
  | PS_credential i r =>
      match pg_pending p !! i with
      | Some (w, c) => if is_credential w then Some (i, credentialAnswered c r) else None
      | None => None
      end
  end.

Definition page_step (st : PageStep) (p : PageSys) : PageSys * list Effect :=
  match st with
  | PS_event px e =>
      let '(s, es) := auth_event px e (pg_state p) in (mkPage s (pg_pending p ++ awaited es), es)
  | _ =>
      match continuation st p with
      | Some (i, (f, es)) => (mkPage (f (pg_state p)) (delete i (pg_pending p) ++ awaited es), es)
      | None => (p, [])
      end
  end.

(** The steps of a run, and all effects on the way. *)
Fixpoint page_run (l : list PageStep) (p : PageSys) : PageSys * list Effect :=
  match l with
  | [] => (p, [])
  | st :: l => let '(p, es) := page_step st p in let '(q, es') := page_run l p in (q, es ++ es')
  end.

Definition is_main (w : Waits) : bool :=
  match w with W_login | W_emailCode | W_register | W_registeredLogin | W_twoFa => true | _ => false end.
Definition is_code (w : Waits) : bool := match w with W_sendCode => true | _ => false end.
Definition count (f : Waits -> bool) (l : list (Waits * Closure)) : nat := length (List.filter (fun p => f p.1) l).

Lemma waits_app f l r : count f (l ++ r) = count f l + count f r.
Proof. unfold count. by rewrite List.filter_app, length_app. Qed.

Lemma waits_delete f i l w c : l !! i = Some (w, c) -> count f l = (if f w then 1 else 0) + count f (delete i l).
Proof.
  unfold count. revert i. induction l as [|[w' c'] l IH]; intros i; [done|]. destruct i as [|i].
  - intros [= -> ->]. cbn [List.filter fst delete list_delete]. by destruct (f w).
  - intros H. change (delete (S i) ((w', c') :: l)) with ((w', c') :: delete i l). specialize (IH i H).
    cbn [List.filter fst]. destruct (f w'); cbn [length]; rewrite IH; lia.
Qed.

(** ** The flags of the page *)

Definition loading (s : AuthState) : bool := bz_loading (a_busy s).
Definition codeLoading (s : AuthState) : bool := bz_codeLoading (a_busy s).

Record quiet (s s' : AuthState) (es : list Effect) : Prop := {
  q_loading : loading s' = loading s;
  q_code : codeLoading s' = codeLoading s;
  q_main : count is_main (awaited es) = 0;
  q_codes : count is_code (awaited es) = 0
}.

(** Either nothing of a sign-in or code starts, or exactly one, by a control
    that is enabled, with its flag set. *)
Inductive flags_change (s s' : AuthState) (es : list Effect) : Prop :=
| fl_quiet : quiet s s' es -> flags_change s s' es
| fl_main : loading s = false -> loading s' = true -> codeLoading s' = codeLoading s ->
    count is_main (awaited es) = 1 -> count is_code (awaited es) = 0 -> flags_change s s' es
| fl_code : codeLoading s = false -> codeLoading s' = true -> loading s' = loading s ->
    count is_main (awaited es) = 0 -> count is_code (awaited es) = 1 -> flags_change s s' es.

Definition changes (h : Handler) (s : AuthState) : Prop := flags_change s (h s).1 (h s).2.

Lemma changes_just s s' : loading s' = loading s -> codeLoading s' = codeLoading s -> flags_change s (just s').1 (just s').2.
Proof. intros. apply fl_quiet. by split. Qed.

Lemma changes_guard b h s : (b = true -> changes h s) -> changes (guard_ b h) s.
Proof. unfold changes, guard_. destruct b; [auto|intros _; by apply changes_just]. Qed.
Lemma changes_form h s : changes h s -> changes (on_form h) s.
Proof. intros H. unfold on_form. by apply changes_guard. Qed.
Lemma changes_step h s : changes h s -> changes (on_step h) s.
Proof. intros H. unfold on_step. by apply changes_guard. Qed.

(** The two outcomes of most handlers: nothing sent, or one request. *)
Ltac quiet_case := first [by apply changes_just | apply fl_quiet; by split].

Lemma consent_flags px s s' : consent_and_turnstile px s = Some s' -> loading s' = loading s /\ codeLoading s' = codeLoading s.
Proof. unfold consent_and_turnstile. repeat case_match; intros [= <-]; done. Qed.

Lemma validateBase_flags px s s' : validateBase px s = Some s' -> loading s' = loading s /\ codeLoading s' = codeLoading s.
Proof. unfold validateBase. repeat case_match; try (intros <-%(inj Some); done). apply consent_flags. Qed.

Lemma submit_changes px r s : loading s = false -> changes (handleSubmit px r) s.
Proof.
  intros Hl. unfold changes, handleSubmit, handleRegister, handleEmailCodeLogin, handleLogin.
  destruct (isRegister s); [|destruct (isEmailCodeLogin s)].
  - destruct (passwordAuthEnabled s); cbn [negb]; [|quiet_case].
    destruct (validateBase px s) as [s'|] eqn:E; [apply validateBase_flags in E as [? ?]; quiet_case|].
    cbv zeta. destruct (_ && _); [quiet_case|]. by apply fl_main.
  - destruct (validateEmailCodeLogin px s) as [s'|] eqn:E; [|by apply fl_main].
    unfold validateEmailCodeLogin in E. destruct (negb (isValidEmail _)); [apply (inj Some) in E as <-; quiet_case|].
    destruct (negb (truthy _)); [apply (inj Some) in E as <-; quiet_case|]. apply consent_flags in E as [? ?]. quiet_case.
  - destruct (passwordAuthEnabled s); cbn [negb]; [|quiet_case].
    destruct (validateBase px s) as [s'|] eqn:E; [apply validateBase_flags in E as [? ?]; quiet_case|]. by apply fl_main.
Qed.

Lemma send_code_changes px s : codeLoading s = false -> changes (handleSendCode px) s.
Proof.
  intros Hl. unfold changes, handleSendCode. destruct (negb (isValidEmail _)); [quiet_case|].
  destruct (negb (isEmailCodeLogin s) && _); [quiet_case|]. destruct (negb (turnstileReady s)); [quiet_case|]. by apply fl_code.
Qed.

Lemma two_fa_changes px s : loading s = false -> changes (handleTwoFaSubmit px) s.
Proof. intros Hl. unfold changes, handleTwoFaSubmit. cbv zeta. destruct (negb _); [quiet_case|by apply fl_main]. Qed.

Lemma provider_changes px s :
  (forall p, changes (beginOAuth px p) s) /\ changes (handlePasskeyLogin px) s /\ changes (handleWeChatSubmit px) s
  /\ (forall v, changes (handleTelegramAuth px v) s) /\ changes (onWeChat px) s.
Proof.
  unfold changes, beginOAuth, handlePasskeyLogin, handleWeChatSubmit, handleTelegramAuth, onWeChat, requireTurnstile.
  split_and!.
  - intros p. destruct (consent_and_turnstile px s) eqn:E; [apply consent_flags in E as [? ?]|]; quiet_case.
  - destruct (negb (a_agreed s)); [quiet_case|]. destruct (negb (a_passkeySupported s)); [quiet_case|].
    destruct (negb (turnstileReady s)); quiet_case.
  - destruct (negb (a_agreed s)); [quiet_case|]. destruct (negb (truthy _)); [quiet_case|].
    destruct (negb (turnstileReady s)); quiet_case.
  - intros p. destruct (consent_and_turnstile px s) eqn:E; [apply consent_flags in E as [? ?]|]; quiet_case.
  - destruct (negb (turnstileReady s)); quiet_case.
Qed.

Lemma switch_changes px m s : changes (switchMode px m) s.
Proof. unfold changes, switchMode. case_match; [quiet_case|]. case_match; quiet_case. Qed.

Definition is_forgot (e : AuthEvent) : bool := match e with E_forgot => true | _ => false end.

Lemma event_changes px e s : is_forgot e = false -> changes (auth_event px e) s.
Proof.
  pose proof (provider_changes px s) as (Hp & Hk & Hw & Ht & Ho). unfold changes.
  destruct e; cbn [auth_event is_forgot]; intros Hf; try discriminate;
    try (apply changes_form, changes_guard; intros Hg); try (apply changes_form); try (apply changes_step, changes_guard; intros Hg);
    try apply changes_step; try quiet_case; auto.
  - apply submit_changes. by apply negb_true_iff in Hg.
  - apply send_code_changes. unfold code_button in Hg. rewrite !andb_true_iff, !negb_true_iff in Hg. tauto.
  - apply switch_changes.
  - destruct (shown_providers s !! i) as [p|]; [|quiet_case]. apply changes_form, changes_guard. auto.
  - apply two_fa_changes. by apply negb_true_iff in Hg.
  - unfold requestClose. destruct (cl_isClosing _); quiet_case.
  - destruct (cl_timer _); quiet_case.
  - destruct (ms_exitTimer _); quiet_case.
  - destruct (ms_enterTimer _); quiet_case.
  - destruct (_ <? _)%Z; quiet_case.
Qed.

(** An answer to a sign-in request ends it or goes on to the next request of the
    same sign-in; an answer to a code request ends it; no other changes a flag. *)
Lemma answer_flags c w aff r s : w <> W_forgot ->
  let '(f, es) := auth_answered c w aff r in
  (if is_main w
   then (loading (f s) = false /\ count is_main (awaited es) = 0) \/ (loading (f s) = loading s /\ count is_main (awaited es) = 1)
   else loading (f s) = loading s /\ count is_main (awaited es) = 0)
  /\ codeLoading (f s) = (if is_code w then false else codeLoading s) /\ count is_code (awaited es) = 0.
Proof.
  intros Hw. destruct w; try done; cbn [auth_answered is_main is_code];
    unfold statusAnswered, loginAnswered, registerAnswered, registeredLoginAnswered, sendCodeAnswered, logoutAnswered,
      oauthStateAnswered, passkeyBeginAnswered, passkeyFinishAnswered, providerAnswered, twoFaAnswered, oauth_failed;
    repeat case_match; simplify_eq; split_and!; auto.
Qed.

Lemma credential_flags c r s :
  let '(f, es) := credentialAnswered c r in
  loading (f s) = loading s /\ codeLoading (f s) = codeLoading s
  /\ count is_main (awaited es) = 0 /\ count is_code (awaited es) = 0.
Proof. unfold credentialAnswered, oauth_failed. repeat case_match; simplify_eq; done. Qed.

(** ** One at a time *)

Definition no_forgot (st : PageStep) : Prop := match st with PS_event _ e => is_forgot e = false | _ => True end.

Record exclusive (p : PageSys) : Prop := {
  ex_main : count is_main (pg_pending p) = (if loading (pg_state p) then 1 else 0);
  ex_code : count is_code (pg_pending p) = (if codeLoading (pg_state p) then 1 else 0);
  ex_forgot : Forall (fun q => q.1 <> W_forgot) (pg_pending p)
}.

Lemma no_forgot_sent px e s : is_forgot e = false -> Forall (fun q => q.1 <> W_forgot) (awaited (auth_event px e s).2).
Proof.
  assert (forall h, Forall (fun q => q.1 <> W_forgot) (awaited (h s).2) ->
          forall b, Forall (fun q : Waits * Closure => q.1 <> W_forgot) (awaited (guard_ b h s).2)) as Hg
    by (intros h Hh b; unfold guard_; destruct b; [done|constructor]).
  destruct e; cbn [auth_event is_forgot]; intros Hf; try discriminate; unfold on_form, on_step; repeat apply Hg; try constructor;
    unfold handleSubmit, handleRegister, handleEmailCodeLogin, handleLogin, handleSendCode, beginOAuth, handlePasskeyLogin,
      handleWeChatSubmit, handleTelegramAuth, handleTwoFaSubmit, onWeChat, switchMode, commitMode; repeat case_match;
    simplify_eq; repeat constructor; try done.
  unfold on_form. apply Hg, Hg. case_match; repeat constructor; done.
Qed.

Lemma no_forgot_answered c w aff r : Forall (fun q : Waits * Closure => q.1 <> W_forgot) (awaited (auth_answered c w aff r).2).
Proof.
  destruct w; cbn [auth_answered];
    unfold statusAnswered, loginAnswered, registerAnswered, registeredLoginAnswered, sendCodeAnswered, forgotAnswered,
      logoutAnswered, oauthStateAnswered, passkeyBeginAnswered, passkeyFinishAnswered, providerAnswered, twoFaAnswered, oauth_failed;
    repeat case_match; simplify_eq; repeat constructor; done.
Qed.

Lemma Forall_delete_at {A} (P : A -> Prop) i l : Forall P l -> Forall P (delete i l).
Proof. intros H. revert i. induction H as [|x l Hx H IH]; intros [|i]; cbn; try constructor; auto. Qed.

Lemma event_exclusive px e p : is_forgot e = false -> exclusive p -> exclusive (page_step (PS_event px e) p).1.
Proof.
  intros Hf [Hm Hc Hn]. pose proof (event_changes px e (pg_state p) Hf) as H. pose proof (no_forgot_sent px e (pg_state p) Hf) as Hs.
  unfold changes in H. cbn [page_step]. destruct (auth_event px e (pg_state p)) as [s es]. cbn [fst snd] in *.
  split; cbn [pg_state pg_pending].
  - rewrite waits_app, Hm. destruct H as [ [-> _ -> _] | -> -> _ -> _ | _ _ -> -> _ ]; lia.
  - rewrite waits_app, Hc. destruct H as [ [_ -> _ ->] | _ _ -> _ -> | -> -> _ _ -> ]; lia.
  - by apply Forall_app.
Qed.

Lemma answer_exclusive i aff r p : exclusive p -> exclusive (page_step (PS_answer i aff r) p).1.
Proof.
  intros [Hm Hc Hn]. cbn [page_step continuation].
  destruct (pg_pending p !! i) as [[w c]|] eqn:Ei; [|by split]. destruct (is_credential w) eqn:Ew; [by split|].
  assert (w <> W_forgot) as Hw by exact (proj1 (Forall_lookup _ _) Hn i (w, c) Ei).
  pose proof (answer_flags c w aff r (pg_state p) Hw) as H. pose proof (no_forgot_answered c w aff r) as Hs.
  destruct (auth_answered c w aff r) as [f es]. destruct H as (H1 & H2 & H3). cbn [fst snd] in *.
  pose proof (waits_delete is_main i _ w c Ei) as Dm. pose proof (waits_delete is_code i _ w c Ei) as Dc.
  split; cbn [pg_state pg_pending].
  - rewrite waits_app. destruct (is_main w); [|destruct H1 as [-> ->]; lia].
    destruct (loading (pg_state p)); [|lia]. destruct H1 as [[-> ->]|[-> ->]]; lia.
  - rewrite waits_app, H2, H3. destruct (is_code w); [|lia]. destruct (codeLoading (pg_state p)); lia.
  - apply Forall_app. split; [by apply Forall_delete_at|done].
Qed.

Lemma credential_exclusive i r p : exclusive p -> exclusive (page_step (PS_credential i r) p).1.
Proof.
  intros [Hm Hc Hn]. cbn [page_step continuation].
  destruct (pg_pending p !! i) as [[w c]|] eqn:Ei; [|by split]. destruct (is_credential w) eqn:Ew; [|by split].
  pose proof (credential_flags c r (pg_state p)) as H.
  assert (Forall (fun q : Waits * Closure => q.1 <> W_forgot) (awaited (credentialAnswered c r).2)) as Hs
    by (unfold credentialAnswered, oauth_failed; repeat case_match; repeat constructor; done).
  destruct (credentialAnswered c r) as [f es]. destruct H as (H1 & H2 & H3 & H4). cbn [fst snd] in *.
  pose proof (waits_delete is_main i _ w c Ei) as Dm. pose proof (waits_delete is_code i _ w c Ei) as Dc.
  assert (w = W_credential) as -> by (by destruct w). cbn [is_main is_code] in *.
  split; cbn [pg_state pg_pending]; rewrite ?waits_app, ?H1, ?H2, ?H3, ?H4; [lia..|].
  apply Forall_app. split; [by apply Forall_delete_at|done].
Qed.

Lemma run_exclusive l p : Forall no_forgot l -> exclusive p -> exclusive (page_run l p).1.
Proof.
  intros Hl. revert p. induction Hl as [|st l Hst _ IH]; intros p Hp; [done|]. cbn [page_run].
  assert (exclusive (page_step st p).1) as Hq
    by (destruct st; [by apply event_exclusive|by apply answer_exclusive|by apply credential_exclusive]).
  destruct (page_step st p) as [q es]. specialize (IH q Hq). by destruct (page_run l q).
Qed.

(** ** Codes a minute apart *)

Definition is_tick (st : PageStep) : Z := match st with PS_event _ E_cooldownTick => 1 | _ => 0 end.
Definition ticks (l : list PageStep) : Z := fold_right (fun st n => is_tick st + n)%Z 0%Z l.
Definition cooldown (s : AuthState) : Z := bz_cooldown (a_busy s).
Definition asks_code (es : list Effect) : Prop := Exists (fun e => match e with Send (R_verification _ _ _) _ _ => True | _ => False end) es.

Lemma tick_nonneg st : (0 <= is_tick st)%Z.
Proof. by destruct st as [? []| |]. Qed.

Lemma ticks_nonneg l : (0 <= ticks l)%Z.
Proof. induction l as [|st l IH]; [done|]. pose proof (tick_nonneg st). cbn [ticks fold_right]. fold (ticks l). lia. Qed.

Lemma guard_cooldown b h s : cooldown (h s).1 = cooldown s -> cooldown (guard_ b h s).1 = cooldown s.
Proof. unfold guard_. by destruct b. Qed.

Lemma consent_cooldown px s s' : consent_and_turnstile px s = Some s' -> cooldown s' = cooldown s.
Proof. unfold consent_and_turnstile. repeat case_match; intros <-%(inj Some) || intros [=]; done. Qed.

Lemma validateBase_cooldown px s s' : validateBase px s = Some s' -> cooldown s' = cooldown s.
Proof. unfold validateBase. repeat case_match; try (intros <-%(inj Some); done). apply consent_cooldown. Qed.

Lemma submit_cooldown px r s : cooldown (handleSubmit px r s).1 = cooldown s.
Proof.
  unfold handleSubmit, handleRegister, handleEmailCodeLogin, handleLogin.
  destruct (isRegister s); [|destruct (isEmailCodeLogin s)].
  - destruct (negb _); [done|]. destruct (validateBase px s) as [s'|] eqn:E; [by apply validateBase_cooldown in E|]. cbv zeta. by case_match.
  - destruct (validateEmailCodeLogin px s) as [s'|] eqn:E; [|done]. unfold validateEmailCodeLogin in E.
    destruct (negb (isValidEmail _)); [by apply (inj Some) in E as <-|].
    destruct (negb (truthy _)); [by apply (inj Some) in E as <-|]. by apply consent_cooldown in E.
  - destruct (negb _); [done|]. destruct (validateBase px s) as [s'|] eqn:E; [by apply validateBase_cooldown in E|done].
Qed.

Lemma event_cooldown px e s :
  let s' := (auth_event px e s).1 in
  cooldown s' = cooldown s \/ (is_tick (PS_event px e) = 1%Z /\ cooldown s' = (cooldown s - 1)%Z).
Proof.
  cbv zeta. destruct e; lazymatch goal with |- context [is_tick (PS_event px E_cooldownTick)] => idtac | _ => left end;
    cbn [auth_event is_tick]; unfold on_form, on_step; repeat apply guard_cooldown; try done; try apply submit_cooldown.
  - unfold handleSendCode. by repeat case_match.
  - unfold handleForgotPassword. by repeat case_match.
  - unfold switchMode, commitMode. by repeat case_match.
  - destruct (shown_providers s !! i) as [p|]; [|done]. unfold on_form. repeat apply guard_cooldown. unfold beginOAuth.
    destruct (consent_and_turnstile px s) eqn:E; [by apply consent_cooldown in E|done].
  - unfold handlePasskeyLogin, requireTurnstile. by repeat case_match; simplify_eq.
  - unfold onWeChat, requireTurnstile. by repeat case_match; simplify_eq.
  - unfold handleWeChatSubmit. by repeat case_match.
  - unfold handleTelegramAuth. destruct (consent_and_turnstile px s) eqn:E; [by apply consent_cooldown in E|done].
  - unfold handleTwoFaSubmit. by repeat case_match.
  - unfold requestClose. by case_match.
  - by case_match.
  - by case_match.
  - by case_match.
  - case_match; auto.
Qed.

Lemma answer_cooldown c w aff r s :
  let s' := (auth_answered c w aff r).1 s in cooldown s' = 60%Z \/ cooldown s' = cooldown s.
Proof.
  cbv zeta. destruct w; cbn [auth_answered];
    unfold statusAnswered, loginAnswered, registerAnswered, registeredLoginAnswered, sendCodeAnswered, forgotAnswered,
      logoutAnswered, oauthStateAnswered, passkeyBeginAnswered, passkeyFinishAnswered, providerAnswered, twoFaAnswered, oauth_failed;
    repeat case_match; simplify_eq; cbn; auto.
Qed.

Lemma answer_no_code c w aff r : ~ asks_code (auth_answered c w aff r).2.
Proof.
  unfold asks_code. destruct w; cbn [auth_answered];
    unfold statusAnswered, loginAnswered, registerAnswered, registeredLoginAnswered, sendCodeAnswered, forgotAnswered,
      logoutAnswered, oauthStateAnswered, passkeyBeginAnswered, passkeyFinishAnswered, providerAnswered, twoFaAnswered, oauth_failed;
    repeat case_match; simplify_eq; unfold signed_in; cbn [snd]; rewrite ?Exists_cons, ?Exists_nil; tauto.
Qed.

Lemma credential_cooldown c r s : cooldown ((credentialAnswered c r).1 s) = cooldown s /\ ~ asks_code (credentialAnswered c r).2.
Proof.
  unfold credentialAnswered, oauth_failed, asks_code. repeat case_match; (split; [done|]); unfold signed_in; cbn [snd]; rewrite ?Exists_cons, ?Exists_nil; tauto.
Qed.

Lemma event_code px e s : asks_code (auth_event px e s).2 -> (cooldown s <= 0)%Z.
Proof.
  pose proof (events_ok px e s) as H. intros He. apply Exists_exists in He as (ef & Hin & Hef).
  rewrite Forall_forall in H. specialize (H ef Hin). destruct ef as [[]| | | | | |]; try done. cbn in H. apply H.
Qed.

Lemma step_cooldown st p : (cooldown (pg_state p) <= 60 ->
  cooldown (pg_state p) - is_tick st <= cooldown (pg_state (page_step st p).1) <= 60
  /\ (asks_code (page_step st p).2 -> cooldown (pg_state p) <= 0))%Z.
Proof.
  intros H60. destruct st as [px e|i aff r|i r]; cbn [page_step continuation].
  - pose proof (event_cooldown px e (pg_state p)) as H. pose proof (event_code px e (pg_state p)) as Hc. cbv zeta in H.
    pose proof (tick_nonneg (PS_event px e)).
    destruct (auth_event px e (pg_state p)) as [s es]. cbn [fst snd pg_state] in *. split; [lia|done].
  - assert (forall l, asks_code l -> l = [] -> False) as Hnil by (intros l Hl ->; inversion Hl).
    destruct (pg_pending p !! i) as [[w c]|]; [|by split; [cbn; lia|intros H; destruct (Hnil _ H)]].
    destruct (is_credential w); [by split; [cbn; lia|intros H; destruct (Hnil _ H)]|].
    pose proof (answer_cooldown c w aff r (pg_state p)) as H. pose proof (answer_no_code c w aff r) as Hc. cbv zeta in H.
    destruct (auth_answered c w aff r) as [f es]. cbn [fst snd pg_state is_tick] in *. split; [lia|by intros ?%Hc].
  - assert (forall l, asks_code l -> l = [] -> False) as Hnil by (intros l Hl ->; inversion Hl).
    destruct (pg_pending p !! i) as [[w c]|]; [|by split; [cbn; lia|intros H; destruct (Hnil _ H)]].
    destruct (is_credential w); [|by split; [cbn; lia|intros H; destruct (Hnil _ H)]].
    pose proof (credential_cooldown c r (pg_state p)) as [H Hc].
    destruct (credentialAnswered c r) as [f es]. cbn [fst snd pg_state is_tick] in *. split; [lia|by intros ?%Hc].
Qed.

Lemma run_cooldown l p : (cooldown (pg_state p) <= 60)%Z -> asks_code (page_run l p).2 -> (cooldown (pg_state p) <= ticks l)%Z.
Proof.
  revert p. induction l as [|st l IH]; intros p H60; cbn [page_run]; [intros H; inversion H|].
  pose proof (step_cooldown st p H60) as [Hc Ha]. destruct (page_step st p) as [q es]. cbn [fst snd] in *.
  specialize (IH q (proj2 Hc)). destruct (page_run l q) as [q' es']. cbn [fst snd ticks fold_right] in *. fold (ticks l).
  pose proof (tick_nonneg st). pose proof (ticks_nonneg l). intros [?%Ha|?%IH]%Exists_app; lia.
Qed.

(** ** Claims *)

(** A page of the run, some steps after it was mounted. *)
Definition page_after (pathname aff : jsstr) (l : list PageStep) : PageSys := (page_run l (mkPage (auth_mount pathname aff) [])).1.

Lemma page_run_snoc l st p : (page_run (l ++ [st]) p).1 = (page_step st (page_run l p).1).1.
Proof.
  revert p. induction l as [|x l IH]; intros p; cbn [app page_run].
  - cbn [fst]. destruct (page_step st p) as [q es]. reflexivity.
  - destruct (page_step x p) as [q es]. specialize (IH q). destruct (page_run (l ++ [st]) q), (page_run l q). exact IH.
Qed.

Definition origin_known (pathname aff : jsstr) (l : list PageStep) (q : Waits * Closure) : Prop :=
  exists k, k <= length l /\ started q.1 q.2 (pg_state (page_after pathname aff (take k l))).

Lemma origin_later pathname aff l st q : origin_known pathname aff l q -> origin_known pathname aff (l ++ [st]) q.
Proof.
  intros (k & Hk & H). exists k. split; [rewrite length_app; lia|]. by rewrite take_app_le.
Qed.

(** What an answer goes on to was started where the answered request was. *)
Lemma answer_started c w aff r s : started w c s ->
  Forall (fun q => started q.1 q.2 s) (awaited (auth_answered c w aff r).2)
  /\ Forall (fun e => match e with Send r _ _ => follows s r | _ => True end) (auth_answered c w aff r).2.
Proof.
  intros (Hv & Ht & Hs). destruct w; cbn [auth_answered] in *;
    unfold statusAnswered, loginAnswered, registerAnswered, registeredLoginAnswered, sendCodeAnswered, forgotAnswered,
      logoutAnswered, oauthStateAnswered, passkeyBeginAnswered, passkeyFinishAnswered, providerAnswered, twoFaAnswered, oauth_failed;
    repeat case_match; simplify_eq; unfold signed_in; cbn [snd awaited omap list_omap]; split;
    repeat (apply List.Forall_cons || apply List.Forall_nil); try done.
  - rewrite Hv. cbn [follows]. tauto.
  - rewrite Ht. exact Hs.
Qed.

Lemma credential_started c r s : started W_credential c s ->
  Forall (fun q => started q.1 q.2 s) (awaited (credentialAnswered c r).2)
  /\ Forall (fun e => match e with Send r _ _ => follows s r | _ => True end) (credentialAnswered c r).2.
Proof.
  intros (Hv & Ht & Hs). unfold credentialAnswered, oauth_failed.
  repeat case_match; simplify_eq; cbn [snd awaited omap list_omap]; split; repeat (apply List.Forall_cons || apply List.Forall_nil); done.
Qed.

Lemma event_started px e s : Forall (fun q => started q.1 q.2 s) (awaited (auth_event px e s).2).
Proof.
  pose proof (events_ok px e s) as H. induction H as [|ef es He Hes IH]; [constructor|].
  destruct ef; cbn [awaited omap list_omap] in *; try exact IH; [|done]. constructor; [apply He|exact IH].
Qed.

(** The effects of one step, and where what then waits was started. *)
Lemma step_checked pathname aff l st :
  let p := page_after pathname aff l in
  Forall (origin_known pathname aff l) (pg_pending p) ->
  Forall (origin_known pathname aff l) (pg_pending (page_step st p).1)
  /\ Forall (fun e => match e with
       | Send r _ _ => request_ok (pg_state p) r
           \/ exists k, k <= length l /\ follows (pg_state (page_after pathname aff (take k l))) r
       | _ => True end) (page_step st p).2.
Proof.
  intros p Hp. destruct st as [px e|i a r|i r]; cbn [page_step continuation].
  - pose proof (event_started px e (pg_state p)) as Hs. pose proof (events_ok px e (pg_state p)) as Ho.
    destruct (auth_event px e (pg_state p)) as [s es]. cbn [fst snd pg_pending] in *. split.
    + apply Forall_app. split; [done|]. eapply Forall_impl; [exact Hs|]. intros q Hq. exists (length l). split; [lia|].
      by rewrite take_ge by lia.
    + eapply Forall_impl; [exact Ho|]. intros [] He; try done. left. apply He.
  - destruct (pg_pending p !! i) as [[w c]|] eqn:Ei; [|by split; [|constructor]].
    destruct (is_credential w); [by split; [|constructor]|].
    destruct (proj1 (Forall_lookup _ _) Hp i (w, c) Ei) as (k & Hk & Hs). cbn [fst snd] in Hs.
    destruct (answer_started c w a r _ Hs) as [H1 H2]. destruct (auth_answered c w a r) as [f es]. cbn [fst snd pg_pending] in *.
    split.
    + apply Forall_app. split; [by apply Forall_delete_at|]. eapply Forall_impl; [exact H1|]. intros q Hq. by exists k.
    + eapply Forall_impl; [exact H2|]. intros [] He; try done. right. by exists k.
  - destruct (pg_pending p !! i) as [[w c]|] eqn:Ei; [|by split; [|constructor]].
    destruct (is_credential w) eqn:Ew; [|by split; [|constructor]]. assert (w = W_credential) as -> by (by destruct w).
    destruct (proj1 (Forall_lookup _ _) Hp i (_, c) Ei) as (k & Hk & Hs). cbn [fst snd] in Hs.
    destruct (credential_started c r _ Hs) as [H1 H2]. destruct (credentialAnswered c r) as [f es]. cbn [fst snd pg_pending] in *.
    split.
    + apply Forall_app. split; [by apply Forall_delete_at|]. eapply Forall_impl; [exact H1|]. intros q Hq. by exists k.
    + eapply Forall_impl; [exact H2|]. intros [] He; try done. right. by exists k.
Qed.

Lemma origins_known pathname aff l : Forall (origin_known pathname aff l) (pg_pending (page_after pathname aff l)).
Proof.
  induction l as [|st l IH] using rev_ind; [constructor|]. unfold page_after at 1. rewrite page_run_snoc.
  fold (page_after pathname aff l). eapply Forall_impl; [apply (step_checked pathname aff l st IH)|].
  intros q. apply origin_later.
Qed.



(** C34: after a verification code was sent, the page asks for the next one only
    when sixty seconds of its countdown have passed, whatever the user does and
    whichever answers arrive in between. *)
Theorem code_requests_spaced c aff r p i l :
  rp_success r = true -> pg_pending p !! i = Some (W_sendCode, c) ->
  asks_code (page_run l (page_step (PS_answer i aff r) p).1).2 -> (60 <= ticks l)%Z.
Proof.
  intros Hr Hi. cbn [page_step continuation]. rewrite Hi. cbn [is_credential auth_answered]. unfold sendCodeAnswered. rewrite Hr.
  cbn [fst]. intros H. apply run_cooldown in H; [exact H|]. cbn. lia.
Qed.
End Page.

(** ** Examples *)

Definition demo_ctx : PageCtx := mkCtx en [] (js "/") [] true.
Definition fill_in : list PageStep :=
  [PS_event demo_ctx (E_update AV_email (js "ann@example.org")); PS_event demo_ctx (E_update AV_password (js "secret"))].
Definition submit_step : PageStep := PS_event demo_ctx (E_submit (js "0.4fzyo82mvyr")).
Definition ok_answer (data : json) : ApiResponse := mkResponse true None (Some data) (Some 200%Z) (Some true).
Definition fresh_page : PageSys := mkPage (auth_mount (js "/sign-in") []) [].


(** The status of a site that offers passkeys. *)
Definition passkey_status : json := JObj [(js "passkey_login", JBool true)].

(** The passkey button does not look at the flag of the form: a sign-in by
    password and one by passkey wait at the same time. *)
Theorem passkey_beside_password :
  let p := (page_run (fill_in ++ [PS_event demo_ctx (E_passkeyProbe true); submit_step; PS_event demo_ctx E_passkey])
    (mkPage (setStatus (Some passkey_status) (auth_mount (js "/sign-in") [])) [])).1 in
  map fst (pg_pending p) = [W_login; W_passkeyBegin].
Proof. vm_compute. reflexivity. Qed.

(** By code: an address, and the button that asks for a code. *)
Definition ask_code : list PageStep :=
  [PS_event demo_ctx E_toggleMethod; PS_event demo_ctx (E_update AV_email (js "ann@example.org")); PS_event demo_ctx E_sendCode].
Definition asked_page : PageSys := (page_run ask_code fresh_page).1.
Definition sixty_seconds : list PageStep := repeat (PS_event demo_ctx E_cooldownTick) 60.

Lemma code_requests_spaced_witness : (60 <= ticks (sixty_seconds ++ [PS_event demo_ctx E_sendCode]))%Z.
Proof.
  destruct (pg_pending asked_page !! 0) as [[w c]|] eqn:E; [|vm_compute in E; discriminate].
  assert (w = W_sendCode) as -> by (vm_compute in E; congruence).
  apply (code_requests_spaced c [] (ok_answer JNull) asked_page 0); [reflexivity|exact E|].
  vm_compute. by left.
Defined.

(** Asking for a reset of the password shares the flag of the sign-in: while
    a sign-in waits for its answer, the answer to the reset enables the form
    again, and a second sign-in is sent beside the first. *)
Theorem reset_unlocks_sign_in :
  let p := (page_run (fill_in ++ [submit_step; PS_event demo_ctx E_forgot; PS_answer 1 [] (ok_answer JNull); submit_step]) fresh_page).1 in
  count is_main (pg_pending p) = 2 /\ Forall (fun q => q.1 = W_login) (pg_pending p).
Proof. vm_compute. repeat constructor. Qed.
