(* ===== verification/SiteShell.v ===== *)
(** * The customer site around its pages: App.tsx

    The location, the user and the language of the site, which page is shown and
    which dialog lies over it, with the sign-in dialog (AuthPage.v) and the page
    of the OAuth callback (pages/OAuth/index.tsx) mounted in it. Events are
    clicks, timers, answers to requests in any order, and navigation; each is
    followed by a commit, in which React renders and runs effects. *)

From S2P Require Import Prelude JsStr JsNum JsJson JsPrint JsUri SeoRoutes SiteHelpers Passkeys AuthPage.
Local Open Scope js_scope.

Record Location := mkLoc { l_pathname : jsstr; l_search : jsstr; l_hash : jsstr }.

Definition getCurrentPath (l : Location) : jsstr := l_pathname l ++ l_search l ++ l_hash l.

Definition isAuthRoute (page : jsstr) : bool := str_eqb page (js "signin") || str_eqb page (js "signup").
Definition isSetupRoute (page : jsstr) : bool := str_eqb page (js "setup").
Definition isConnectRoute (page : jsstr) : bool := str_eqb page (js "atfSwitchConnect").
Definition isProtected (page : jsstr) : bool := has_str protectedPages page.

(** The state of the component; [ap_user_rev] tells the objects of [user] apart,
    [ap_confirm] is the dialog that asks before signing out and whether it is
    submitting. *)
Record App := mkApp {
  ap_pathname : jsstr;
  ap_page : jsstr;
  ap_user : option json;
  ap_user_rev : nat;
  ap_authReturnPath : jsstr;
  ap_authChecking : bool;
  ap_language : Language;
  ap_confirm : option bool
}.

Definition set_route (pathname page : jsstr) (language : Language) (a : App) : App :=
  mkApp pathname page (ap_user a) (ap_user_rev a) (ap_authReturnPath a) (ap_authChecking a) language (ap_confirm a).
Definition setAuthReturnPath (p : jsstr) (a : App) : App :=
  mkApp (ap_pathname a) (ap_page a) (ap_user a) (ap_user_rev a) p (ap_authChecking a) (ap_language a) (ap_confirm a).
Definition setAuthChecking (b : bool) (a : App) : App :=
  mkApp (ap_pathname a) (ap_page a) (ap_user a) (ap_user_rev a) (ap_authReturnPath a) b (ap_language a) (ap_confirm a).
Definition setLanguageState (l : Language) (a : App) : App :=
  mkApp (ap_pathname a) (ap_page a) (ap_user a) (ap_user_rev a) (ap_authReturnPath a) (ap_authChecking a) l (ap_confirm a).
Definition setConfirmAction (c : option bool) (a : App) : App :=
  mkApp (ap_pathname a) (ap_page a) (ap_user a) (ap_user_rev a) (ap_authReturnPath a) (ap_authChecking a) (ap_language a) c.

(** A new object is a change; null after null is not. *)
Definition setCurrentUser (u : option json) (a : App) : App :=
  let rev := match u, ap_user a with None, None => ap_user_rev a | _, _ => S (ap_user_rev a) end in
  mkApp (ap_pathname a) (ap_page a) u rev (ap_authReturnPath a) (ap_authChecking a) (ap_language a) (ap_confirm a).

(** [Boolean(user)] and [Boolean(user?.id)]. *)
Definition hasUser (a : App) : bool := match ap_user a with Some u => json_truthy u | None => false end.
Definition has_id (u : option json) : bool :=
  match u with Some u => match user_id u with Some _ => true | None => false end | None => false end.

(** [user?.id] as the effects compare it. *)
Definition raw_id (u : option json) : option json := u ≫= jfield (js "id").
Definition same_id (x y : option json) : bool :=
  match x, y with
  | None, None => true
  | Some (JNum a), Some (JNum b) => neq a b
  | Some (JStr a), Some (JStr b) => str_eqb a b
  | Some (JBool a), Some (JBool b) => Bool.eqb a b
  | Some JNull, Some JNull => true
  | _, _ => false
  end.

(** The page of the OAuth callback: its effect runs again when the language or
    the object [authContextValue] changes, and forgets the former run. *)
Record OAuthState := mkOAuth {
  oa_run : nat;
  oa_failed : bool;
  oa_message : jsstr;
  oa_deps : Language * nat * bool
}.

Inductive Task :=
| T_auth (instance : nat) (w : Waits) (c : Closure)
| T_self (run : nat)
| T_signOut (language : Language)
| T_oauth (run : nat) (language : Language)
| T_oauthSelf (run : nat) (language : Language) (first : ApiResponse).

(** [sl_seen] is what the listener and the effects of the last commit captured:
    the user's id and the language; [sl_self] is the run of the effect that
    checks the session. [sl_left] is the address the browser was sent to. *)
Record Shell := mkShell {
  sl_loc : Location;
  sl_app : App;
  sl_seen : option (option json * Language);
  sl_auth : option (nat * AuthState);
  sl_oauth : option OAuthState;
  sl_store : Store;
  sl_session : Session;
  sl_tasks : list (nat * Task);
  sl_next : nat;
  sl_self : nat;
  sl_sent : list Request;
  sl_left : option jsstr;
  sl_crashed : bool
}.

Definition on_app (f : App -> App) (s : Shell) : Shell :=
  mkShell (sl_loc s) (f (sl_app s)) (sl_seen s) (sl_auth s) (sl_oauth s) (sl_store s) (sl_session s) (sl_tasks s)
    (sl_next s) (sl_self s) (sl_sent s) (sl_left s) (sl_crashed s).
Definition set_loc (l : Location) (s : Shell) : Shell :=
  mkShell l (sl_app s) (sl_seen s) (sl_auth s) (sl_oauth s) (sl_store s) (sl_session s) (sl_tasks s)
    (sl_next s) (sl_self s) (sl_sent s) (sl_left s) (sl_crashed s).
Definition set_seen (x : option json * Language) (s : Shell) : Shell :=
  mkShell (sl_loc s) (sl_app s) (Some x) (sl_auth s) (sl_oauth s) (sl_store s) (sl_session s) (sl_tasks s)
    (sl_next s) (sl_self s) (sl_sent s) (sl_left s) (sl_crashed s).
Definition set_auth (a : option (nat * AuthState)) (s : Shell) : Shell :=
  mkShell (sl_loc s) (sl_app s) (sl_seen s) a (sl_oauth s) (sl_store s) (sl_session s) (sl_tasks s)
    (sl_next s) (sl_self s) (sl_sent s) (sl_left s) (sl_crashed s).
Definition set_oauth (o : option OAuthState) (s : Shell) : Shell :=
  mkShell (sl_loc s) (sl_app s) (sl_seen s) (sl_auth s) o (sl_store s) (sl_session s) (sl_tasks s)
    (sl_next s) (sl_self s) (sl_sent s) (sl_left s) (sl_crashed s).
Definition on_store (f : Store -> Store) (s : Shell) : Shell :=
  mkShell (sl_loc s) (sl_app s) (sl_seen s) (sl_auth s) (sl_oauth s) (f (sl_store s)) (sl_session s) (sl_tasks s)
    (sl_next s) (sl_self s) (sl_sent s) (sl_left s) (sl_crashed s).
Definition set_session (x : Session) (s : Shell) : Shell :=
  mkShell (sl_loc s) (sl_app s) (sl_seen s) (sl_auth s) (sl_oauth s) (sl_store s) x (sl_tasks s)
    (sl_next s) (sl_self s) (sl_sent s) (sl_left s) (sl_crashed s).
Definition set_shell_tasks (l : list (nat * Task)) (s : Shell) : Shell :=
  mkShell (sl_loc s) (sl_app s) (sl_seen s) (sl_auth s) (sl_oauth s) (sl_store s) (sl_session s) l
    (sl_next s) (sl_self s) (sl_sent s) (sl_left s) (sl_crashed s).
Definition set_self (n : nat) (s : Shell) : Shell :=
  mkShell (sl_loc s) (sl_app s) (sl_seen s) (sl_auth s) (sl_oauth s) (sl_store s) (sl_session s) (sl_tasks s)
    (sl_next s) n (sl_sent s) (sl_left s) (sl_crashed s).
Definition leave (url : jsstr) (s : Shell) : Shell :=
  mkShell (sl_loc s) (sl_app s) (sl_seen s) (sl_auth s) (sl_oauth s) (sl_store s) (sl_session s) (sl_tasks s)
    (sl_next s) (sl_self s) (sl_sent s) (Some url) (sl_crashed s).
Definition crash (s : Shell) : Shell :=
  mkShell (sl_loc s) (sl_app s) (sl_seen s) None None (sl_store s) (sl_session s) (sl_tasks s)
    (sl_next s) (sl_self s) (sl_sent s) (sl_left s) true.

(** A number no task, instance or run has yet. *)
Definition fresh_id (s : Shell) : nat * Shell :=
  (sl_next s, mkShell (sl_loc s) (sl_app s) (sl_seen s) (sl_auth s) (sl_oauth s) (sl_store s) (sl_session s) (sl_tasks s)
    (S (sl_next s)) (sl_self s) (sl_sent s) (sl_left s) (sl_crashed s)).
Definition add_task (t : Task) (s : Shell) : Shell :=
  let '(n, s) := fresh_id s in set_shell_tasks (sl_tasks s ++ [(n, t)]) s.
Definition send_request (r : Request) (t : Task) (s : Shell) : Shell :=
  let s := add_task t s in
  mkShell (sl_loc s) (sl_app s) (sl_seen s) (sl_auth s) (sl_oauth s) (sl_store s) (sl_session s) (sl_tasks s)
    (sl_next s) (sl_self s) (sl_sent s ++ [r]) (sl_left s) (sl_crashed s).

(** A state update of an instance that is no longer mounted does nothing. *)
Definition on_auth (instance : nat) (f : AuthState -> AuthState) (s : Shell) : Shell :=
  match sl_auth s with
  | Some (n, a) => if Nat.eqb n instance then set_auth (Some (n, f a)) s else s
  | None => s
  end.

Definition lang_item (l : Language) : jsstr :=
  match l with en => js "en" | zh => js "zh" | zhTW => js "zh-TW" | ru => js "ru" end.

Section Site.
Context {W : Web}.
Variable manifest : option SeoManifest.
(** [document.cookie], [navigator.language], and whether motion is reduced. *)
Variables cookie navigatorLanguage : jsstr.
Variable reducedMotion : bool.

Definition page_of_path (pathname : jsstr) : jsstr := getPageKey manifest pathname.
Definition redirects (pathname : jsstr) : bool :=
  match sr_redirectPath (resolveSeoRoute manifest pathname) with Some p => truthy p | None => false end.

(** ** What is shown *)

(** The page of a path; [None] when [new URL] throws. *)
Definition target_page (path : jsstr) : option jsstr :=
  match url_parse path origin with Some u => Some (page_of_path (url_pathname u)) | None => None end.

Definition return_path (a : App) : jsstr := str_or (ap_authReturnPath a) (js "/").

Definition getAuthReturnTarget (a : App) : option jsstr :=
  match target_page (return_path a) with
  | None => None
  | Some targetPage =>
      Some (if isAuthRoute targetPage then js "/"
            else if negb (hasUser a) && isProtected targetPage && negb (isConnectRoute targetPage) then js "/"
            else return_path a)
  end.

Definition authOverlayOpen (a : App) : bool := isAuthRoute (ap_page a) || (negb (hasUser a) && isProtected (ap_page a)).
Definition setupOverlayOpen (a : App) : bool := isSetupRoute (ap_page a) && redirects (ap_pathname a).

Definition authBackgroundPage (a : App) : option jsstr :=
  if negb (isAuthRoute (ap_page a)) then Some (js "home")
  else match target_page (return_path a) with
       | None => None
       | Some t =>
           Some (if isAuthRoute t || isConnectRoute t || (negb (hasUser a) && isProtected t)
                    || str_eqb t (js "oauthCallback") then js "home" else t)
       end.

Definition setupBackgroundPage (a : App) : option jsstr :=
  match target_page (return_path a) with
  | None => None
  | Some t =>
      Some (if isAuthRoute t || isSetupRoute t || (negb (hasUser a) && isProtected t)
               || str_eqb t (js "oauthCallback") then js "home" else t)
  end.

Definition renderedPage (a : App) : option jsstr :=
  match authBackgroundPage a, setupBackgroundPage a with
  | Some ab, Some sb => Some (if authOverlayOpen a then ab else if setupOverlayOpen a then sb else ap_page a)
  | _, _ => None
  end.

(** The page whose component [renderPage] gives. *)
Definition renderPage (a : App) (currentPage : jsstr) : jsstr :=
  if negb (hasUser a) && isProtected currentPage then js "home"
  else if isAuthRoute currentPage then js "home"
  else currentPage.

(** ** Navigation *)

(** The listener of the last commit; [seen] holds its user id and language. *)
Definition onPopState (s : Shell) : Shell :=
  let nextPathname := l_pathname (sl_loc s) in
  let nextPage := page_of_path nextPathname in
  let nextSetupOverlay := isSetupRoute nextPage && redirects nextPathname in
  let '(seenId, seenLanguage) := default (None, zhTW) (sl_seen s) in
  let storedLanguage := normalizeCustomerLanguage (st_lang (sl_store s)) in
  let isManualLanguage := manual_source (st_lang_source (sl_store s)) in
  let language := selectCustomerLanguageForPath manifest nextPathname
                    (if isManualLanguage then storedLanguage else Some seenLanguage) isManualLanguage in
  let s := on_app (set_route nextPathname nextPage language) s in
  if isAuthRoute nextPage then
    let redirectTarget := getAuthRedirectFromSearch manifest (l_search (sl_loc s)) in
    if truthy redirectTarget then on_app (setAuthReturnPath redirectTarget) s else s
  else if isConnectRoute nextPage
          || (negb nextSetupOverlay
              && (negb (isProtected nextPage) || match seenId with Some v => json_truthy v | None => false end))
  then on_app (setAuthReturnPath (getCurrentPath (sl_loc s))) s
  else s.

(** [pushState] throws for an address of another origin. The paths the site
    navigates to start with a slash, so the base does not matter. *)
Definition navigateTo (path : jsstr) (s : Shell) : option Shell :=
  match url_parse path origin with
  | Some u =>
      if str_eqb (url_origin u) origin
      then Some (onPopState (set_loc (mkLoc (url_pathname u) (url_search u) (url_hash u)) s))
      else None
  | None => None
  end.

(** [setUser] of the context. *)
Definition setUser (u : option json) (s : Shell) : Shell :=
  on_app (fun a => setAuthChecking false (setCurrentUser u a)) (on_store (persistUser u) s).

(** ** Effects of the sign-in page *)

Definition aff_code (s : Shell) : jsstr := getStoredAffCode (l_search (sl_loc s)) (st_aff (sl_store s)).

Definition page_ctx (s : Shell) : PageCtx :=
  mkCtx (ap_language (sl_app s)) (getAuthRedirectFromSearch manifest (l_search (sl_loc s)))
    (default [] (getAuthReturnTarget (sl_app s))) (aff_code s) reducedMotion.

(** After an exception of [navigateTo] nothing more of the handler runs. *)
Fixpoint perform (instance : nat) (es : list Effect) (s : Shell) : Shell :=
  match es with
  | [] => s
  | Send r w c :: es => perform instance es (send_request r (T_auth instance w c) s)
  | AskCredential _ c :: es => perform instance es (add_task (T_auth instance W_credential c) s)
  | SetUser u :: es => perform instance es (setUser u s)
  | NavigateTo path on_throw :: es =>
      match navigateTo path s with
      | Some s => perform instance es s
      | None => on_auth instance on_throw s
      end
  | StoreRedirect path :: es =>
      perform instance es (set_session (storeAuthRedirect manifest (Some path) (sl_session s)).2 s)
  | ReplaceUrl path :: es => perform instance es (set_loc (mkLoc path [] []) s)
  | Leave url :: es => perform instance es (leave url s)
  end.

Definition run_handler (h : PageCtx -> Handler) (s : Shell) : Shell :=
  match sl_auth s with
  | Some (n, a) => let '(a, es) := h (page_ctx s) a in perform n es (set_auth (Some (n, a)) s)
  | None => s
  end.

(** ** Answers *)

(** The language [apiRequest] words its own failures in. *)
Definition detected (s : Shell) : Language :=
  match detectCustomerLanguage manifest (l_pathname (sl_loc s)) (st_lang (sl_store s)) (st_lang_source (sl_store s))
          cookie navigatorLanguage with
  | Returns l => l
  | Throws _ => zhTW
  end.

(** The session check of App.tsx: only the last run of the effect is listened to. *)
Definition selfAnswered (run : nat) (r : ApiResponse) (s : Shell) : Shell :=
  if negb (Nat.eqb run (sl_self s)) then s
  else
    let s := match success_data r with
             | Some data => on_app (setCurrentUser (Some data)) (on_store (persistUser (Some data)) s)
             | None => if shouldClearStoredUser r then on_app (setCurrentUser None) (on_store (persistUser None) s) else s
             end in
    on_app (setAuthChecking false) s.

(** [performSignOut] after its request; then the dialog closes. *)
Definition signOutAnswered (language : Language) (s : Shell) : Shell :=
  let s := on_app (fun a => setAuthChecking false (setCurrentUser None a)) (on_store (persistUser None) s) in
  match navigateTo (localizePublicHref url_parse manifest (js "/") (lang_item language) origin) s with
  | Some s => on_app (setConfirmAction None) s
  | None => on_app (fun a => setConfirmAction (match ap_confirm a with Some _ => Some false | None => None end) a) s
  end.

Definition oauth_mounted (run : nat) (s : Shell) : bool :=
  match sl_oauth s with Some o => Nat.eqb (oa_run o) run | None => false end.

(** [setUser(data); navigateTo(consumeStoredAuthRedirect() || "/dashboard")]. *)
Definition oauth_signed_in (data : json) (s : Shell) : Shell :=
  let s := setUser (Some data) s in
  let '(target, session) := consumeStoredAuthRedirect manifest (sl_session s) in
  let s := set_session session s in
  default s (navigateTo (str_or target (js "/dashboard")) s).

Definition oauth_fail (message : jsstr) (s : Shell) : Shell :=
  match sl_oauth s with
  | Some o => set_oauth (Some (mkOAuth (oa_run o) true message (oa_deps o))) s
  | None => s
  end.

Definition oauthAnswered (run : nat) (language : Language) (r : ApiResponse) (s : Shell) : Shell :=
  if negb (oauth_mounted run s) then s
  else match success_data r with
       | Some data => oauth_signed_in data s
       | None => send_request R_self (T_oauthSelf run language r) s
       end.

Definition oauthSelfAnswered (run : nat) (language : Language) (first r : ApiResponse) (s : Shell) : Shell :=
  if negb (oauth_mounted run s) then s
  else match success_data r with
       | Some data => oauth_signed_in data s
       | None => oauth_fail (message_or first (localizeKey language (js "OAuth sign in failed"))) s
       end.

Definition task_at (id : nat) (s : Shell) : option Task := snd <$> find (fun p => Nat.eqb p.1 id) (sl_tasks s).
Definition drop_task (id : nat) (s : Shell) : Shell :=
  set_shell_tasks (List.filter (fun p => negb (Nat.eqb p.1 id)) (sl_tasks s)) s.

Definition continue_auth (instance : nat) (k : Continuation) (s : Shell) : Shell :=
  perform instance k.2 (on_auth instance k.1 s).

Definition answer (id : nat) (f : Fetched) (s : Shell) : Shell :=
  let r := apiRequest (detected s) f in
  match task_at id s with
  | None | Some (T_auth _ W_credential _) => s
  | Some t =>
      let s := drop_task id s in
      match t with
      | T_auth instance w c => continue_auth instance (auth_answered c w (aff_code s) r) s
      | T_self run => selfAnswered run r s
      | T_signOut language => signOutAnswered language s
      | T_oauth run language => oauthAnswered run language r s
      | T_oauthSelf run language first => oauthSelfAnswered run language first r s
      end
  end.

Definition answer_credential (id : nat) (r : CredentialResult) (s : Shell) : Shell :=
  match task_at id s with
  | Some (T_auth instance W_credential c) => continue_auth instance (credentialAnswered c r) (drop_task id s)
  | _ => s
  end.

(** ** Commit: mounting and effects *)

(** The effect on [user?.id]. *)
Definition self_effect (s : Shell) : Shell :=
  let changed := match sl_seen s with
                 | Some (seenId, _) => negb (same_id seenId (raw_id (ap_user (sl_app s))))
                 | None => true
                 end in
  if negb changed then s
  else
    let '(run, s) := fresh_id s in
    let s := set_self run s in
    if has_id (ap_user (sl_app s))
    then send_request R_self (T_self run) (on_app (setAuthChecking true) s)
    else on_app (setAuthChecking false) s.

(** The sign-in dialog is mounted and unmounted with the overlay. *)
Definition auth_effect (s : Shell) : Shell :=
  if authOverlayOpen (sl_app s) then
    match sl_auth s with
    | Some _ => s
    | None =>
        let aff := aff_code s in
        let '(n, s) := fresh_id s in
        let a := aff_effect aff (auth_mount (l_pathname (sl_loc s)) aff) in
        let s := if truthy aff
                 then on_store (fun st => mkStore (st_user st) (st_uid st) (st_lang st) (st_lang_source st) (Some aff)) s
                 else s in
        send_request R_status (T_auth n W_status (capture (page_ctx s) a)) (set_auth (Some (n, a)) s)
    end
  else set_auth None s.

Definition oauth_deps (a : App) : Language * nat * bool := (ap_language a, ap_user_rev a, ap_authChecking a).

(** [window.location.pathname.split("/").filter(Boolean)[1] ?? ""]. *)
Definition callback_provider (pathname : jsstr) : jsstr :=
  default [] (List.filter truthy (split_char 47%N pathname) !! 1).

Definition oauth_run (run : nat) (message : jsstr) (failed : bool) (s : Shell) : Shell :=
  let search := l_search (sl_loc s) in
  let language := ap_language (sl_app s) in
  let provider := callback_provider (l_pathname (sl_loc s)) in
  let code := getSearchParam search (js "code") in
  let state := getSearchParam search (js "state") in
  let error := str_or (getSearchParam search (js "error_description")) (getSearchParam search (js "error")) in
  let deps := oauth_deps (sl_app s) in
  if truthy error then set_oauth (Some (mkOAuth run true error deps)) s
  else if negb (truthy provider) || negb (truthy code)
  then set_oauth (Some (mkOAuth run true (localizeKey language (js "Missing OAuth callback parameters")) deps)) s
  else send_request (R_oauth provider code state) (T_oauth run language)
         (set_oauth (Some (mkOAuth run failed message deps)) s).

Definition oauth_effect (s : Shell) : Shell :=
  match renderedPage (sl_app s) with
  | Some page =>
      if str_eqb (renderPage (sl_app s) page) (js "oauthCallback") then
        match sl_oauth s with
        | None =>
            let '(run, s) := fresh_id s in
            oauth_run run (localizeKey (ap_language (sl_app s)) (js "Completing sign in...")) false s
        | Some o =>
            if bool_decide (oa_deps o = oauth_deps (sl_app s)) then s
            else let '(run, s) := fresh_id s in oauth_run run (oa_message o) (oa_failed o) s
        end
      else set_oauth None s
  | None => s
  end.

(** The effects of the pages run before those of the site, whose change of
    [authChecking] renders the callback page again. *)
Definition commit (s : Shell) : Shell :=
  match renderedPage (sl_app s) with
  | None => crash s
  | Some _ =>
      let s := self_effect (oauth_effect (auth_effect s)) in
      let s := oauth_effect s in
      set_seen (raw_id (ap_user (sl_app s)), ap_language (sl_app s)) s
  end.

(** ** The site starts *)

Definition initial_return_path (l : Location) (user : option json) : jsstr :=
  let initialPage := page_of_path (l_pathname l) in
  if isAuthRoute initialPage then str_or (getAuthRedirectFromSearch manifest (l_search l)) (js "/")
  else if isSetupRoute initialPage && redirects (l_pathname l) then js "/"
  else if isConnectRoute initialPage then getCurrentPath l
  else if isProtected initialPage && negb (has_id user) then js "/"
  else getCurrentPath l.

(** [None] when detecting the language throws. *)
Definition start (l : Location) (store : Store) (session : Session) : option Shell :=
  match detectCustomerLanguage manifest (l_pathname l) (st_lang store) (st_lang_source store) cookie navigatorLanguage with
  | Throws _ => None
  | Returns language =>
      let '(user, store) := readStoredUser store in
      let app := mkApp (l_pathname l) (page_of_path (l_pathname l)) user 0 (initial_return_path l user)
                   (has_id user) language None in
      Some (commit (mkShell l app None None None store session [] 0 0 [] None false))
  end.

(** ** Events *)

Inductive ShellEvent :=
| S_auth (e : AuthEvent)
| S_answer (id : nat) (f : Fetched)
| S_credential (id : nat) (r : CredentialResult)
| S_navigate (path : jsstr)
| S_history (l : Location)
| S_language (l : Language)
| S_signOut
| S_cancelSignOut
| S_confirmSignOut.

Definition shell_handle (e : ShellEvent) (s : Shell) : Shell :=
  match e with
  | S_auth e => run_handler (fun px => auth_event px e) s
  | S_answer id f => answer id f s
  | S_credential id r => answer_credential id r s
  | S_navigate path => default s (navigateTo path s)
  | S_history l => onPopState (set_loc l s)
  | S_language l =>
      on_app (setLanguageState l)
        (on_store (fun st => mkStore (st_user st) (st_uid st) (Some (lang_item l)) (Some (js "manual")) (st_aff st)) s)
  | S_signOut => on_app (setConfirmAction (Some false)) s
  | S_cancelSignOut =>
      match ap_confirm (sl_app s) with Some false => on_app (setConfirmAction None) s | _ => s end
  | S_confirmSignOut =>
      match ap_confirm (sl_app s) with
      | Some false => send_request R_logout (T_signOut (ap_language (sl_app s))) (on_app (setConfirmAction (Some true)) s)
      | _ => s
      end
  end.

(** A page that crashed or was left takes no more events. *)
Definition shell_step (e : ShellEvent) (s : Shell) : Shell :=
  if sl_crashed s || match sl_left s with Some _ => true | None => false end then s
  else commit (shell_handle e s).

Definition shell_run (es : list ShellEvent) (s : Shell) : Shell := fold_left (fun s e => shell_step e s) es s.

(** A location is the address of a page of the site. *)
Definition real_location (l : Location) : Prop :=
  startsWith (l_pathname l) (js "//") = true
  \/ url_parse (getCurrentPath l) origin = Some (mkUrl origin (l_pathname l) (l_search l) (l_hash l)).

Definition event_real (e : ShellEvent) : Prop := match e with S_history l => real_location l | _ => True end.

Inductive site_reachable : Shell -> Prop :=
| site_start l store session s : real_location l -> start l store session = Some s -> site_reachable s
| site_step e s : site_reachable s -> event_real e -> site_reachable (shell_step e s).

End Site.
