(* ===== verification/SiteProps.v ===== *)
(** * The customer site: who is signed in and where a sign-in leads

    No page for signed-in users is shown without a user; which answers bring a
    user; where a sign-in and the closing of the dialog lead; the link of a page
    that asks for a sign-in leads back. SiteSession.v builds on it. *)

From S2P Require Import Prelude JsStr JsNum JsJson JsPrint JsUri SeoRoutes SeoRoutesProps SiteHelpers Passkeys AuthPage SiteWeb AuthProps SiteShell.
Local Open Scope js_scope.

Section Site.
Context {W : Web}.
Variable manifest : option SeoManifest.
Variables cookie navigatorLanguage : jsstr.
Variable reducedMotion : bool.

Local Abbreviation page_of_path := (page_of_path manifest).
Local Abbreviation target_page := (target_page manifest).
Local Abbreviation renderedPage := (renderedPage manifest).
Local Abbreviation onPopState := (onPopState manifest).
Local Abbreviation navigateTo := (navigateTo manifest).
Local Abbreviation perform := (perform manifest).
Local Abbreviation commit := (commit manifest reducedMotion).
Local Abbreviation page_ctx := (page_ctx manifest reducedMotion).
Local Abbreviation shell_handle := (shell_handle manifest cookie navigatorLanguage reducedMotion).
Local Abbreviation shell_step := (shell_step manifest cookie navigatorLanguage reducedMotion).
Local Abbreviation site_reachable := (site_reachable manifest cookie navigatorLanguage reducedMotion).
Local Abbreviation detected := (detected manifest cookie navigatorLanguage).

(** ** Pages *)

(** Whatever the state of the site, a page for signed-in users is behind a
    sign-in dialog or a setup dialog, or shown itself, only when there is a user. *)
Theorem protected_page_needs_user a page :
  renderedPage a = Some page -> isProtected page = true -> hasUser a = true /\ renderPage a page = page.
Proof.
  intros Hr Hp. assert (hasUser a = true) as Hu.
  { apply not_false_iff_true. intros Hu. revert Hr. unfold SiteShell.renderedPage, authBackgroundPage, setupBackgroundPage, authOverlayOpen.
    rewrite Hu. cbn [negb andb].
    destruct (isAuthRoute (ap_page a)) eqn:Ea; cbn [negb orb].
    - destruct (target_page (return_path a)) as [t|]; [|done]. intros <-%(inj Some). revert Hp.
      destruct (isProtected t) eqn:Et; [rewrite !orb_true_r; cbn [orb]; by rewrite ?orb_true_r; vm_compute|].
      case_match; [by vm_compute|congruence].
    - destruct (target_page (return_path a)) as [t|]; [|done]. intros <-%(inj Some). revert Hp.
      destruct (isProtected (ap_page a)) eqn:Ep; [by vm_compute|].
      destruct (setupOverlayOpen _ a); [|congruence].
      destruct (isProtected t) eqn:Et; [rewrite !orb_true_r; cbn [orb]; by vm_compute|].
      case_match; [by vm_compute|congruence]. }
  split; [done|]. unfold renderPage. rewrite Hu. cbn [negb andb]. destruct (isAuthRoute page) eqn:E; [|done].
  unfold isAuthRoute in E. apply orb_true_iff in E as [ ->%str_eqb_eq | ->%str_eqb_eq ]; by vm_compute in Hp.
Qed.

(** ** What a commit keeps *)

Record same_site (s s' : Shell) : Prop := {
  ss_loc : sl_loc s' = sl_loc s;
  ss_pathname : ap_pathname (sl_app s') = ap_pathname (sl_app s);
  ss_page : ap_page (sl_app s') = ap_page (sl_app s);
  ss_user : ap_user (sl_app s') = ap_user (sl_app s);
  ss_return : ap_authReturnPath (sl_app s') = ap_authReturnPath (sl_app s);
  ss_stored : st_user (sl_store s') = st_user (sl_store s);
  ss_crashed : sl_crashed s' = sl_crashed s;
  ss_left : sl_left s' = sl_left s
}.

#[local] Instance same_site_preorder : PreOrder same_site.
Proof.
  split; [by split|]. intros x y z [] []. split; congruence.
Qed.

Lemma self_effect_same s : same_site s (self_effect s).
Proof. unfold self_effect, fresh_id. cbv zeta. repeat case_match; simplify_eq; by split. Qed.

Lemma oauth_run_same run m b s : same_site s (oauth_run run m b s).
Proof. unfold oauth_run. cbv zeta. repeat case_match; by split. Qed.

Lemma oauth_effect_same s : same_site s (oauth_effect manifest s).
Proof.
  unfold oauth_effect. destruct (renderedPage (sl_app s)); [|done]. case_match; [|by split].
  destruct (sl_oauth s); [case_match; [done|]|]; unfold fresh_id; (etransitivity; [|apply oauth_run_same]); by split.
Qed.

Lemma auth_effect_same s : same_site s (auth_effect manifest reducedMotion s).
Proof. unfold auth_effect, fresh_id. cbv zeta. repeat case_match; simplify_eq; by split. Qed.

Lemma set_seen_same p s : same_site s (set_seen p s).
Proof. by split. Qed.

Lemma oauth_effect_auth s : sl_auth (oauth_effect manifest s) = sl_auth s.
Proof. unfold oauth_effect, oauth_run, fresh_id. cbv zeta. repeat case_match; simplify_eq; done. Qed.

Lemma self_effect_auth s : sl_auth (self_effect s) = sl_auth s.
Proof. unfold self_effect, fresh_id. cbv zeta. repeat case_match; simplify_eq; done. Qed.

Lemma set_seen_auth p s : sl_auth (set_seen p s) = sl_auth s.
Proof. done. Qed.

Lemma commit_eq s page : renderedPage (sl_app s) = Some page ->
  exists p, commit s = set_seen p (oauth_effect manifest (self_effect (oauth_effect manifest (auth_effect manifest reducedMotion s)))).
Proof. intros Hr. unfold SiteShell.commit. rewrite Hr. eexists. reflexivity. Qed.

Lemma commit_auth s page : renderedPage (sl_app s) = Some page ->
  sl_auth (commit s) = sl_auth (auth_effect manifest reducedMotion s).
Proof.
  intros [p ->]%commit_eq. by rewrite set_seen_auth, oauth_effect_auth, self_effect_auth, oauth_effect_auth.
Qed.

Lemma auth_effect_closed s : authOverlayOpen (sl_app s) = false -> sl_auth (auth_effect manifest reducedMotion s) = None.
Proof. intros Ho. unfold auth_effect. by rewrite Ho. Qed.

Lemma commit_same s page : renderedPage (sl_app s) = Some page ->
  same_site s (commit s) /\ (authOverlayOpen (sl_app s) = false -> sl_auth (commit s) = None).
Proof.
  intros Hr. split; [|intros Ho; rewrite (commit_auth s page Hr); by apply auth_effect_closed].
  destruct (commit_eq s page Hr) as [p ->]. etransitivity; [apply auth_effect_same|].
  etransitivity; [apply oauth_effect_same|]. etransitivity; [apply self_effect_same|].
  etransitivity; [apply oauth_effect_same|apply set_seen_same].
Qed.

Lemma commit_user s : ap_user (sl_app (commit s)) = ap_user (sl_app s).
Proof.
  destruct (renderedPage (sl_app s)) as [page|] eqn:E; [by apply (commit_same s page) in E as [[] _]|].
  unfold SiteShell.commit. by rewrite E.
Qed.

(** ** Where the user comes from *)

Lemma pop_user s : ap_user (sl_app (onPopState s)) = ap_user (sl_app s).
Proof. unfold SiteShell.onPopState. cbv zeta. repeat case_match; simplify_eq; done. Qed.

Lemma navigate_user path s s' : navigateTo path s = Some s' -> ap_user (sl_app s') = ap_user (sl_app s).
Proof.
  unfold SiteShell.navigateTo. destruct (url_parse path origin); [|done]. case_match; [|done]. intros <-%(inj Some).
  by rewrite pop_user.
Qed.

Lemma on_auth_app n f s : sl_app (on_auth n f s) = sl_app s.
Proof. unfold on_auth. repeat case_match; done. Qed.

Lemma perform_user n es s u : ap_user (sl_app (perform n es s)) = Some u ->
  ap_user (sl_app s) = Some u \/ In (SetUser (Some u)) es.
Proof.
  revert s. induction es as [|e es IH]; intros s; [by left|].
  destruct e; cbn [SiteShell.perform]; try (intros [H|H]%IH; [by left|by right; right]).
  - intros [H|H]%IH; [|by right; right]. cbn in H. right. left. by rewrite H.
  - destruct (navigateTo path s) as [s'|] eqn:E.
    + apply navigate_user in E. intros [H|H]%IH; [left; congruence|by right; right].
    + rewrite on_auth_app. by left.
Qed.

(** The answers of the sign-in page that sign in: data that names the user; a
    password or a code is not enough when the data asks for the second factor. *)
Definition accepted (w : Waits) (d : json) : Prop :=
  match w with
  | W_login | W_emailCode => member_truthy (js "require_2fa") d = false
  | W_registeredLogin | W_passkeyFinish | W_wechat | W_telegram | W_twoFa => True
  | _ => False
  end.

(** The requests whose answer may sign in: those of the sign-in page, and those
    of the callback page while it is mounted. *)
Definition may_sign_in (s : Shell) (t : Task) (d : json) : Prop :=
  match t with
  | T_auth _ w _ => accepted w d
  | T_oauth run _ | T_oauthSelf run _ _ => oauth_mounted run s = true
  | T_self _ | T_signOut _ => False
  end.

(** The session check whose answer is still listened to. *)
Definition current_check (s : Shell) (t : Task) : Prop := match t with T_self run => run = sl_self s | _ => False end.

Lemma answer_sets c w aff r u : In (SetUser (Some u)) (auth_answered c w aff r).2 ->
  success_data r = Some u /\ accepted w u.
Proof.
  destruct w; cbn [auth_answered accepted];
    unfold statusAnswered, loginAnswered, registerAnswered, registeredLoginAnswered, sendCodeAnswered, forgotAnswered,
      logoutAnswered, oauthStateAnswered, passkeyBeginAnswered, passkeyFinishAnswered, providerAnswered, twoFaAnswered,
      oauth_failed, signed_in, navigateAfterAuth;
    repeat case_match; simplify_eq; cbn [snd In]; intuition congruence.
Qed.

Lemma credential_sets c r u : ~ In (SetUser (Some u)) (credentialAnswered c r).2.
Proof. unfold credentialAnswered, oauth_failed. repeat case_match; cbn [snd In]; intuition congruence. Qed.

Lemma oauth_signed_user data s : ap_user (sl_app (oauth_signed_in manifest data s)) = Some data.
Proof.
  unfold oauth_signed_in. cbv zeta. destruct (consumeStoredAuthRedirect _ _) as [t se].
  destruct (navigateTo _ _) as [s'|] eqn:E; [|done]. cbn [default from_option Datatypes.id]. by rewrite (navigate_user _ _ _ E).
Qed.

Lemma run_handler_user e s u :
  ap_user (sl_app (run_handler manifest reducedMotion (fun px => auth_event px e) s)) = Some u -> ap_user (sl_app s) = Some u.
Proof.
  unfold run_handler. destruct (sl_auth s) as [[n a]|]; [|done].
  pose proof (events_ok (page_ctx s) e a) as Hok. destruct (auth_event (page_ctx s) e a) as [a' es].
  intros [H|H]%perform_user; [done|]. cbn [snd] in Hok. rewrite List.Forall_forall in Hok. by apply Hok in H.
Qed.

(** An answer that changes the user signs the user in. *)
Lemma answer_user id f s u : ap_user (sl_app (answer manifest cookie navigatorLanguage id f s)) = Some u ->
  ap_user (sl_app s) = Some u
  \/ (success_data (apiRequest (detected s) f) = Some u
      /\ exists t, task_at id s = Some t /\ (may_sign_in s t u \/ current_check s t)).
Proof.
  unfold answer. cbv zeta. destruct (task_at id s) as [t|] eqn:Et; [|by left].
  destruct t as [n w c|run|l|run l|run l first].
  - destruct (is_credential w) eqn:Hw; [by left; destruct w|].
    replace (match w with W_credential => _ | _ => _ end) with
      (continue_auth manifest n (auth_answered c w (aff_code (drop_task id s)) (apiRequest (detected s) f)) (drop_task id s)) by (by destruct w).
    unfold continue_auth. intros [H|H]%perform_user; [by left; rewrite on_auth_app in H|].
    apply answer_sets in H as [? ?]. right. split; [done|]. eexists. split; [done|by left].
  - unfold selfAnswered. destruct (Nat.eqb run _) eqn:Er; cbn [negb]; [|by left]. apply Nat.eqb_eq in Er.
    destruct (success_data _) as [d|] eqn:Ed.
    + intros [= ->]. right. split; [done|]. exists (T_self run). split; [done|by right].
    + destruct (shouldClearStoredUser _); [done|by left].
  - unfold signOutAnswered. cbv zeta. destruct (navigateTo _ _) as [s'|] eqn:E; [|done]. apply navigate_user in E.
    cbn. intros H. rewrite H in E. done.
  - unfold oauthAnswered. destruct (oauth_mounted run _) eqn:Em; cbn [negb]; [|by left].
    destruct (success_data _) as [d|] eqn:Ed; [|by left].
    rewrite oauth_signed_user. intros [= ->]. right. split; [done|]. exists (T_oauth run l). split; [done|by left].
  - unfold oauthSelfAnswered. destruct (oauth_mounted run _) eqn:Em; cbn [negb]; [|by left].
    destruct (success_data _) as [d|] eqn:Ed.
    + rewrite oauth_signed_user. intros [= ->]. right. split; [done|]. exists (T_oauthSelf run l first). split; [done|by left].
    + unfold oauth_fail. case_match; by left.
Qed.

(** Only an answer changes the user. *)
Lemma new_user_task e s u :
  ap_user (sl_app (shell_step e s)) = Some u -> ap_user (sl_app s) <> Some u ->
  exists id f t, e = S_answer id f /\ task_at id s = Some t /\ (may_sign_in s t u \/ current_check s t)
    /\ success_data (apiRequest (detected s) f) = Some u.
Proof.
  unfold SiteShell.shell_step. case_match; [done|]. rewrite commit_user. intros Hu Hn. destruct e; cbn [SiteShell.shell_handle] in Hu.
  - by apply run_handler_user in Hu.
  - apply answer_user in Hu as [Hu|(Hd & t & Ht & Hm)]; [done|]. by exists id, f, t.
  - destruct Hn. revert Hu. unfold answer_credential. repeat case_match; try done.
    all: unfold continue_auth; intros [Hu|Hu]%perform_user; [by rewrite on_auth_app in Hu|by apply credential_sets in Hu].
  - destruct (navigateTo path s) as [s'|] eqn:E; cbn in Hu; [|done]. apply navigate_user in E. congruence.
  - by rewrite pop_user in Hu.
  - done.
  - done.
  - by repeat case_match.
  - by repeat case_match.
Qed.

(** ** Paths of the site *)

Context {L : WebLaws W}.

(** A path that is read back as it is; or one that starts like a host. *)
Definition parsed (p : jsstr) (u : UrlParts) : Prop :=
  url_parse p origin = Some u /\ url_origin u = origin /\ p = url_pathname u ++ url_search u ++ url_hash u.
Definition host_like (p : jsstr) : Prop := startsWith p (js "//") = true.
Definition site_path (p : jsstr) : Prop := host_like p \/ exists u, parsed p u.
Definition landing (p : jsstr) : Prop :=
  host_like p \/ exists u, parsed p u /\ isAuthRoute (page_of_path (url_pathname u)) = false.

Lemma starts_app p r x : startsWith p x = true -> startsWith (p ++ r) x = true.
Proof.
  unfold startsWith. revert p. induction x as [|c x IH]; intros p; [done|]. destruct p as [|d p]; [done|]. cbn [app strip_prefix].
  destruct (c =? d)%N; [apply IH|done].
Qed.

Lemma serialized v u : url_parse v origin = Some u -> url_origin u = origin ->
  host_like (url_pathname u ++ url_search u ++ url_hash u) \/ parsed (url_pathname u ++ url_search u ++ url_hash u) u.
Proof.
  intros Hv Ho. destruct (startsWith (url_pathname u) (js "//")) eqn:E; [left; by apply starts_app|right].
  split; [by apply (parse_serialized v u)|done].
Qed.

Lemma parsed_plain p : plain_path p = true -> parsed p (mkUrl origin p [] []).
Proof. intros H. split; [by apply parse_plain|]. cbn. by rewrite app_nil_r. Qed.

(** The keys of the public pages are not those of the sign-in pages. *)
Lemma public_not_auth pathname k : sr_pageKey (resolveSeoRoute manifest pathname) = Some k -> isAuthRoute k = false.
Proof.
  unfold resolveSeoRoute, page_resolution. repeat case_match; cbn [sr_pageKey]; try done; intros Hk%table_get_In;
    cbn [In pageKeyMap] in Hk; repeat (destruct Hk as [[= _ <-]|Hk]; [by vm_compute|]); done.
Qed.

Lemma plain_page p k : page_of_path p = k ->
  isAuthRoute (default (js "notFound") (table_get (let n := normalizePath p in if startsWith n (js "/en/") then normalizePath (drop 3 n) else n) customerRoutes)) = false ->
  isAuthRoute k = false.
Proof.
  intros <-. unfold SiteShell.page_of_path, getPageKey. destruct (sr_pageKey _) as [k|] eqn:E; [by apply public_not_auth in E|].
  cbv zeta. intros H. destruct (startsWith _ (js "/oauth/")); [by vm_compute|done].
Qed.

Lemma landing_plain p : plain_path p = true ->
  isAuthRoute (default (js "notFound") (table_get (let n := normalizePath p in if startsWith n (js "/en/") then normalizePath (drop 3 n) else n) customerRoutes)) = false ->
  landing p.
Proof. intros Hp Hk. right. exists (mkUrl origin p [] []). split; [by apply parsed_plain|]. by eapply plain_page. Qed.

Lemma landing_root : landing (js "/").
Proof. by apply landing_plain; vm_compute. Qed.
Lemma landing_dashboard : landing (js "/dashboard").
Proof. by apply landing_plain; vm_compute. Qed.

Lemma landing_site p : landing p -> site_path p.
Proof. intros [H|(u & H & _)]; [by left|right; eauto]. Qed.

Lemma normalize_landing v : normalizeAuthRedirect manifest v = [] \/ landing (normalizeAuthRedirect manifest v).
Proof.
  unfold normalizeAuthRedirect. destruct v as [[|c v]|]; [by left| |by left]. destruct (url_parse (c :: v) origin) as [u|] eqn:E; [|by left].
  destruct (str_eqb (url_origin u) origin) eqn:Eo; cbn [negb]; [|by left]. apply str_eqb_eq in Eo.
  destruct (has_str auth_pages _) eqn:Ep; [by left|right]. destruct (serialized _ _ E Eo) as [H|H]; [by left|right].
  exists u. split; [done|]. unfold auth_pages in Ep. cbn [has_str existsb] in Ep. rewrite !orb_false_iff in Ep.
  unfold isAuthRoute, SiteShell.page_of_path. destruct Ep as (-> & -> & _). done.
Qed.

Lemma location_path l : real_location l -> site_path (getCurrentPath l).
Proof.
  intros [H|H]; [left; by apply starts_app|right]. eexists. by split.
Qed.

(** Where a sign-in of the page leads. *)
Definition return_ok (a : App) : Prop := ap_authReturnPath a = [] \/ site_path (ap_authReturnPath a).

Lemma return_target_landing a t : return_ok a -> getAuthReturnTarget manifest a = Some t -> landing t.
Proof.
  intros Hr. unfold getAuthReturnTarget. destruct (target_page (return_path a)) as [page|] eqn:E; [|done]. intros <-%(inj Some).
  destruct (isAuthRoute page) eqn:Ea; [apply landing_root|]. case_match; [apply landing_root|].
  unfold return_path in *. destruct Hr as [Hr|Hr]; [rewrite Hr; apply landing_root|].
  destruct (ap_authReturnPath a) as [|c p] eqn:Ep; [apply landing_root|]. cbn [str_or truthy] in *.
  destruct Hr as [Hr|(u & Hu)]; [by left|right]. exists u. split; [done|]. unfold SiteShell.target_page in E.
  rewrite (proj1 Hu) in E. apply (inj Some) in E. by rewrite E.
Qed.

Lemma success_landing s : return_ok (sl_app s) -> landing (authSuccessPath (page_ctx s)).
Proof.
  intros Hr. unfold authSuccessPath, SiteShell.page_ctx. cbn [px_redirect px_successPath].
  assert (landing (str_or (default [] (getAuthReturnTarget manifest (sl_app s))) (js "/dashboard"))) as Ht.
  { destruct (getAuthReturnTarget manifest (sl_app s)) as [t|] eqn:Et; [|apply landing_dashboard].
    cbn [default from_option Datatypes.id]. apply return_target_landing in Et; [|done]. unfold str_or.
    destruct (truthy t); [done|apply landing_dashboard]. }
  unfold getAuthRedirectFromSearch. destruct (normalize_landing (search_get (l_search (sl_loc s)) (js "redirect"))) as [->|H]; [done|].
  unfold str_or at 1. by case_match.
Qed.

(** ** The paths of a reachable site *)

Definition task_landing (t : Task) : Prop := match t with T_auth _ _ c => landing (c_successPath c) | _ => True end.
(** The closures of effects, and the addresses they replace. *)
Definition effect_to (P : jsstr -> Prop) (e : Effect) : Prop :=
  match e with
  | Send _ _ c | AskCredential _ c => P (c_successPath c)
  | ReplaceUrl p => plain_path p = true
  | _ => True
  end.

Record paths_ok (s : Shell) : Prop := {
  po_loc : real_location (sl_loc s);
  po_return : return_ok (sl_app s);
  po_tasks : Forall (fun p => task_landing p.2) (sl_tasks s)
}.

(** Only the location, the path to return to and the tasks matter. *)
Lemma paths_same s s' : sl_loc s' = sl_loc s -> ap_authReturnPath (sl_app s') = ap_authReturnPath (sl_app s) ->
  (exists t, Forall (fun p => task_landing p.2) t /\ sl_tasks s' = sl_tasks s ++ t) -> paths_ok s -> paths_ok s'.
Proof.
  intros Hl Hr (t & Ht & Hs) [H1 H2 H3]. split; [by rewrite Hl|unfold return_ok; by rewrite Hr|]. rewrite Hs. by apply Forall_app.
Qed.

Lemma paths_keep s s' : sl_loc s' = sl_loc s -> ap_authReturnPath (sl_app s') = ap_authReturnPath (sl_app s) ->
  sl_tasks s' = sl_tasks s -> paths_ok s -> paths_ok s'.
Proof. intros Hl Hr Ht. apply paths_same; [done..|]. exists []. by rewrite app_nil_r. Qed.

Lemma send_paths r t s : task_landing t -> paths_ok s -> paths_ok (send_request r t s).
Proof. intros Ht. apply paths_same; [done..|]. eexists. split; [|done]. by repeat constructor. Qed.

Lemma add_paths t s : task_landing t -> paths_ok s -> paths_ok (add_task t s).
Proof. intros Ht. apply paths_same; [done..|]. eexists. split; [|done]. by repeat constructor. Qed.

Lemma on_auth_paths n f s : paths_ok s -> paths_ok (on_auth n f s).
Proof. unfold on_auth. repeat case_match; try done; by apply paths_keep. Qed.

Lemma pop_paths s : paths_ok s -> paths_ok (onPopState s).
Proof.
  intros [Hl Hr Ht]. unfold SiteShell.onPopState. cbv zeta. destruct (default _ (sl_seen s)) as [seenId seenLanguage].
  destruct (isAuthRoute _); [case_match|destruct (_ || _)]; split; try done.
  - right. cbn. unfold getAuthRedirectFromSearch. cbn [sl_loc on_app] in *.
    destruct (normalize_landing (search_get (l_search (sl_loc s)) (js "redirect"))) as [E|H2]; [|by apply landing_site].
    unfold getAuthRedirectFromSearch in H. by rewrite E in H.
  - right. by apply location_path.
Qed.

Lemma navigate_paths p s s' : navigateTo p s = Some s' -> paths_ok s -> paths_ok s'.
Proof.
  unfold SiteShell.navigateTo. destruct (url_parse p origin) as [u|] eqn:E; [|done]. destruct (str_eqb _ _) eqn:Eo; [|done].
  apply str_eqb_eq in Eo. intros <-%(inj Some) [_ Hr Ht]. apply pop_paths. split; [|done..]. cbn [sl_loc set_loc].
  destruct (startsWith (url_pathname u) (js "//")) eqn:Eh; [by left|right]. cbn [l_pathname l_search l_hash getCurrentPath].
  unfold getCurrentPath. cbn [l_pathname l_search l_hash]. rewrite (parse_serialized p u E Eo Eh). destruct u. cbn in *. congruence.
Qed.

Lemma perform_paths n es s : Forall (effect_to landing) es -> paths_ok s -> paths_ok (perform n es s).
Proof.
  intros He. revert s. induction He as [|e es He _ IH]; intros s Hs; [done|]. destruct e; cbn [SiteShell.perform effect_to] in *.
  - apply IH. by apply send_paths.
  - apply IH. by apply add_paths.
  - apply IH. by apply (paths_keep s).
  - destruct (navigateTo path s) as [s'|] eqn:E; [|by apply on_auth_paths]. apply IH. by eapply navigate_paths.
  - apply IH. by apply (paths_keep s).
  - apply IH. destruct Hs as [_ Hr Ht]. split; [|done..]. right. cbn. unfold getCurrentPath. cbn. rewrite app_nil_r. by apply parse_plain.
  - apply IH. by apply (paths_keep s).
Qed.

(** ** Closures of the sign-in page *)

Lemma guard_to P b h a : Forall (effect_to P) (h a).2 -> Forall (effect_to P) (guard_ b h a).2.
Proof. intros H. unfold guard_. destruct b; [done|constructor]. Qed.

Lemma commit_mode_to P px m a : Forall (effect_to P) (commitMode px m a).2.
Proof. destruct m; by repeat constructor. Qed.

(** Nothing is sent, or with the closure of this render. *)
Ltac landing_case :=
  unfold just, send; cbn [snd];
  repeat first [apply List.Forall_nil | apply List.Forall_cons; [first [exact I|assumption]|]].

Lemma event_to (P : jsstr -> Prop) px e a : P (authSuccessPath px) -> Forall (effect_to P) (auth_event px e a).2.
Proof.
  intros Hp. destruct e; cbn [auth_event]; unfold on_form, on_step; repeat apply guard_to; try constructor.
  - unfold handleSubmit, handleRegister, handleEmailCodeLogin, handleLogin. cbv zeta. repeat case_match; landing_case.
  - unfold handleSendCode. repeat case_match; landing_case.
  - unfold handleForgotPassword. repeat case_match; landing_case.
  - unfold switchMode. repeat case_match; try apply commit_mode_to; constructor.
  - destruct (shown_providers a !! i) as [p|]; [|constructor]. unfold on_form. repeat apply guard_to. unfold beginOAuth.
    case_match; landing_case.
  - unfold handlePasskeyLogin. repeat case_match; landing_case.
  - unfold onWeChat. case_match; landing_case.
  - unfold handleWeChatSubmit. repeat case_match; landing_case.
  - unfold handleTelegramAuth. case_match; landing_case.
  - unfold handleTwoFaSubmit. cbv zeta. case_match; landing_case.
  - case_match; landing_case.
  - case_match; [apply commit_mode_to|constructor].
  - case_match; landing_case.
  - case_match; landing_case.
Qed.

Lemma answer_to (P : jsstr -> Prop) c w aff r : P (c_successPath c) -> Forall (effect_to P) (auth_answered c w aff r).2.
Proof.
  intros Hc. destruct w; cbn [auth_answered];
    unfold statusAnswered, loginAnswered, registerAnswered, registeredLoginAnswered, sendCodeAnswered, forgotAnswered,
      logoutAnswered, oauthStateAnswered, passkeyBeginAnswered, passkeyFinishAnswered, providerAnswered, twoFaAnswered,
      oauth_failed, signed_in, navigateAfterAuth;
    repeat case_match; landing_case.
Qed.

Lemma credential_to (P : jsstr -> Prop) c r : P (c_successPath c) -> Forall (effect_to P) (credentialAnswered c r).2.
Proof. intros Hc. unfold credentialAnswered, oauth_failed. repeat case_match; landing_case. Qed.

(** ** Every event keeps them *)

Lemma drop_paths id s : paths_ok s -> paths_ok (drop_task id s).
Proof.
  intros [H1 H2 H3]. split; [done..|]. cbn. rewrite List.Forall_forall in *. intros x Hx%filter_In. exact (H3 x (proj1 Hx)).
Qed.

Lemma task_at_landing id s t : paths_ok s -> task_at id s = Some t -> task_landing t.
Proof.
  intros [_ _ H]. unfold task_at. destruct (find _ _) as [[n t']|] eqn:E; [|done]. intros [= <-].
  apply find_some in E as [E _]. rewrite List.Forall_forall in H. exact (H _ E).
Qed.

Lemma oauth_signed_paths data s : paths_ok s -> paths_ok (oauth_signed_in manifest data s).
Proof.
  intros Hs. unfold oauth_signed_in. cbv zeta. destruct (consumeStoredAuthRedirect _ _) as [t se].
  set (s1 := set_session se (setUser (Some data) s)). assert (paths_ok s1) as H1 by (by apply (paths_keep s)).
  destruct (navigateTo _ s1) as [s'|] eqn:E; [|done]. by eapply navigate_paths.
Qed.

Lemma continue_paths n k s : Forall (effect_to landing) k.2 -> paths_ok s -> paths_ok (continue_auth manifest n k s).
Proof. intros Hk Hs. unfold continue_auth. apply perform_paths; [done|]. by apply on_auth_paths. Qed.

Lemma answer_paths id f s : paths_ok s -> paths_ok (answer manifest cookie navigatorLanguage id f s).
Proof.
  intros Hs. unfold answer. cbv zeta. destruct (task_at id s) as [t|] eqn:Et; [|done].
  pose proof (task_at_landing id s t Hs Et) as Ht. pose proof (drop_paths id s Hs) as Hd. set (r := apiRequest _ f).
  destruct t as [n w c|run|l|run l|run l first].
  - destruct (is_credential w) eqn:Hw; [by destruct w|].
    replace (match w with W_credential => _ | _ => _ end) with
      (continue_auth manifest n (auth_answered c w (aff_code (drop_task id s)) r) (drop_task id s)) by (by destruct w).
    apply continue_paths; [by apply answer_to|done].
  - unfold selfAnswered. destruct (negb _); [done|]. repeat case_match; by apply (paths_keep (drop_task id s)).
  - unfold signOutAnswered. cbv zeta.
    set (s1 := on_app _ (on_store _ (drop_task id s))). assert (paths_ok s1) as H1 by (by apply (paths_keep (drop_task id s))).
    destruct (navigateTo _ s1) as [s'|] eqn:E; [|by apply (paths_keep s1)].
    apply (paths_keep s'); [done..|]. by eapply navigate_paths.
  - unfold oauthAnswered. destruct (negb _); [done|]. case_match; [by apply oauth_signed_paths|by apply send_paths].
  - unfold oauthSelfAnswered. destruct (negb _); [done|]. case_match; [by apply oauth_signed_paths|].
    unfold oauth_fail. case_match; [by apply (paths_keep (drop_task id s))|done].
Qed.

Lemma handle_paths e s : event_real e -> paths_ok s -> paths_ok (shell_handle e s).
Proof.
  intros He Hs. destruct e as [e|id f|id r|path|l|l| | |]; cbn [SiteShell.shell_handle].
  - unfold run_handler. destruct (sl_auth s) as [[n a]|]; [|done].
    pose proof (event_to landing (page_ctx s) e a (success_landing s (po_return s Hs))) as H.
    destruct (auth_event (page_ctx s) e a) as [a' es]. apply perform_paths; [done|]. by apply (paths_keep s).
  - by apply answer_paths.
  - unfold answer_credential. destruct (task_at id s) as [t|] eqn:Et; [|done].
    pose proof (task_at_landing id s t Hs Et) as Ht. destruct t as [n w c| | | |]; try done. destruct w; try done.
    apply continue_paths; [by apply credential_to|by apply drop_paths].
  - destruct (navigateTo path s) as [s'|] eqn:E; [|done]. by eapply navigate_paths.
  - apply pop_paths. by destruct Hs.
  - by apply (paths_keep s).
  - by apply (paths_keep s).
  - repeat case_match; try done; by apply (paths_keep s).
  - repeat case_match; try done. apply send_paths; [done|]. by apply (paths_keep s).
Qed.

Lemma oauth_effect_paths s : paths_ok s -> paths_ok (oauth_effect manifest s).
Proof.
  intros Hs. assert (forall run m b x, paths_ok x -> paths_ok (oauth_run run m b x)) as Hr.
  { intros run m b x Hx. unfold oauth_run. cbv zeta. repeat case_match; try by apply (paths_keep x).
    apply send_paths; [done|]. by apply (paths_keep x). }
  unfold oauth_effect, fresh_id. destruct (renderedPage (sl_app s)); [|done]. case_match; [|by apply (paths_keep s)].
  destruct (sl_oauth s); [case_match; [done|]|]; apply Hr; by apply (paths_keep s).
Qed.

Lemma self_effect_paths s : paths_ok s -> paths_ok (self_effect s).
Proof.
  intros Hs. unfold self_effect, fresh_id. cbv zeta. set (changed := match sl_seen s with Some _ => _ | None => _ end).
  destruct (negb changed); [done|]. destruct (has_id _); [apply send_paths; [done|]|]; by apply (paths_keep s).
Qed.

Lemma auth_effect_paths s : paths_ok s -> paths_ok (auth_effect manifest reducedMotion s).
Proof.
  intros Hs. unfold auth_effect, fresh_id. cbv zeta. destruct (authOverlayOpen _); [|by apply (paths_keep s)].
  destruct (sl_auth s); [done|]. set (s1 := if truthy (aff_code s) then _ else _).
  assert (paths_ok s1) as H1 by (unfold s1; case_match; by apply (paths_keep s)).
  apply send_paths; [|by apply (paths_keep s1)]. apply (success_landing s1 (po_return s1 H1)).
Qed.

Lemma commit_paths s : paths_ok s -> paths_ok (commit s).
Proof.
  intros Hs. unfold SiteShell.commit. destruct (renderedPage (sl_app s)); [|by apply (paths_keep s)]. cbv zeta.
  set (s1 := oauth_effect manifest (self_effect _)). apply (paths_keep s1); [done..|]. unfold s1.
  apply oauth_effect_paths, self_effect_paths, oauth_effect_paths, auth_effect_paths, Hs.
Qed.

Lemma rendered_eq a b : ap_pathname a = ap_pathname b -> ap_page a = ap_page b -> ap_user a = ap_user b ->
  ap_authReturnPath a = ap_authReturnPath b -> renderedPage a = renderedPage b.
Proof. intros E1 E2 E3 E4. destruct a, b. cbn in *. by subst. Qed.

Lemma commit_rendered s : sl_crashed (commit s) = false -> exists page, renderedPage (sl_app (commit s)) = Some page.
Proof.
  destruct (renderedPage (sl_app s)) as [page|] eqn:E.
  - intros _. exists page. destruct (commit_same s page E) as [[] _]. rewrite <- E. by apply rendered_eq.
  - unfold SiteShell.commit. rewrite E. done.
Qed.

Lemma initial_return l user : real_location l -> return_ok (mkApp (l_pathname l) (page_of_path (l_pathname l)) user 0
  (initial_return_path manifest l user) (has_id user) zh None).
Proof.
  intros Hl. unfold return_ok. cbn [ap_authReturnPath]. right. unfold initial_return_path. cbv zeta.
  pose proof (location_path l Hl). pose proof (landing_site _ landing_root) as Hroot. repeat case_match; try done.
  unfold getAuthRedirectFromSearch. destruct (normalize_landing (search_get (l_search l) (js "redirect"))) as [->|Hn]; [done|].
  unfold str_or. case_match; [by apply landing_site|done].
Qed.

Lemma reach_paths s : site_reachable s ->
  paths_ok s /\ (sl_crashed s = false -> exists page, renderedPage (sl_app s) = Some page).
Proof.
  induction 1 as [l store session s Hl Hs|e s H [IH1 IH2] He].
  - unfold start in Hs. destruct (detectCustomerLanguage _ _ _ _ _ _) as [language|]; [|done].
    destruct (readStoredUser store) as [user store']. apply (inj Some) in Hs as <-.
    split; [|apply commit_rendered]. apply commit_paths. split; [done| |constructor]. exact (initial_return l user Hl).
  - unfold SiteShell.shell_step. case_match; [done|]. split; [|apply commit_rendered]. by apply commit_paths, handle_paths.
Qed.

(** ** A sign-in lands *)

Definition signs_in (w : Waits) : bool :=
  match w with
  | W_login | W_emailCode | W_registeredLogin | W_passkeyFinish | W_wechat | W_telegram | W_twoFa => true
  | _ => false
  end.

Lemma sign_in_effects c w aff r d : signs_in w = true -> success_data r = Some d -> accepted w d ->
  exists f g, auth_answered c w aff r = (f, signed_in c d g).
Proof.
  intros Hw Hd Hm. destruct w; try done; cbn [auth_answered accepted] in *;
    unfold loginAnswered, registeredLoginAnswered, passkeyFinishAnswered, providerAnswered, twoFaAnswered; rewrite Hd; try rewrite Hm; eauto.
Qed.

Lemma pop_fields s u : sl_loc s = mkLoc (url_pathname u) (url_search u) (url_hash u) ->
  let s' := onPopState s in
  sl_loc s' = sl_loc s /\ ap_page (sl_app s') = page_of_path (url_pathname u) /\ ap_pathname (sl_app s') = url_pathname u
  /\ sl_store s' = sl_store s /\ sl_crashed s' = sl_crashed s
  /\ (isAuthRoute (page_of_path (url_pathname u)) = false ->
      ap_authReturnPath (sl_app s') = ap_authReturnPath (sl_app s) \/ ap_authReturnPath (sl_app s') = getCurrentPath (sl_loc s)).
Proof.
  intros Hl. unfold SiteShell.onPopState. cbv zeta. destruct (default _ (sl_seen s)) as [seenId seenLanguage].
  rewrite Hl. cbn [l_pathname]. destruct (isAuthRoute _) eqn:Ea; [case_match|destruct (_ || _)]; cbn; rewrite ?Hl; split_and!; auto; done.
Qed.

Lemma navigate_parsed p u s : parsed p u ->
  navigateTo p s = Some (onPopState (set_loc (mkLoc (url_pathname u) (url_search u) (url_hash u)) s)).
Proof. intros (Hp & Ho & _). unfold SiteShell.navigateTo. rewrite Hp, Ho. by rewrite str_eqb_refl. Qed.

Lemma target_rendered a : (exists t, target_page (return_path a) = Some t) -> exists page, renderedPage a = Some page.
Proof.
  intros [t Ht]. unfold SiteShell.renderedPage, authBackgroundPage, setupBackgroundPage. rewrite Ht. destruct (negb _); eauto.
Qed.

Lemma rendered_target a page : renderedPage a = Some page -> exists t, target_page (return_path a) = Some t.
Proof.
  unfold SiteShell.renderedPage, setupBackgroundPage. destruct (target_page _); [eauto|]. by destruct (authBackgroundPage _ _).
Qed.

(** Navigating to a page of the site from a state that rendered. *)
Lemma navigate_lands s p u t :
  parsed p u -> isAuthRoute (page_of_path (url_pathname u)) = false -> target_page (return_path (sl_app s)) = Some t ->
  sl_crashed s = false -> sl_left s = None ->
  (hasUser (sl_app s) = true \/ isProtected (page_of_path (url_pathname u)) = false) ->
  exists s1, navigateTo p s = Some s1 /\
    let s' := commit s1 in
    sl_loc s' = mkLoc (url_pathname u) (url_search u) (url_hash u) /\ ap_page (sl_app s') = page_of_path (url_pathname u)
    /\ ap_user (sl_app s') = ap_user (sl_app s) /\ st_user (sl_store s') = st_user (sl_store s)
    /\ authOverlayOpen (sl_app s') = false /\ sl_auth s' = None /\ sl_crashed s' = false.
Proof.
  intros Hp Ha Ht Hc Hl Hu. eexists. split; [by apply navigate_parsed|]. cbv zeta. set (s0 := set_loc _ s).
  destruct (pop_fields s0 u eq_refl) as (F1 & F2 & F3 & F4 & F5 & F6). set (s1 := onPopState s0) in *.
  assert (ap_user (sl_app s1) = ap_user (sl_app s)) as Fu by (unfold s1; by rewrite pop_user).
  assert (exists t, target_page (return_path (sl_app s1)) = Some t) as Hr.
  { destruct (F6 Ha) as [E|E]; unfold return_path; rewrite E; [by exists t|].
    cbn [s0 set_loc sl_loc]. unfold getCurrentPath. cbn [l_pathname l_search l_hash]. destruct Hp as (Hp & _ & <-).
    destruct p; [|cbn [str_or truthy]; unfold SiteShell.target_page; rewrite Hp; eauto].
    destruct (parsed_plain (js "/") eq_refl) as [Hroot _]. cbn [str_or truthy]. unfold SiteShell.target_page. rewrite Hroot. eauto. }
  destruct (target_rendered _ Hr) as [page Hpage].
  assert (authOverlayOpen (sl_app s1) = false) as Ho.
  { unfold authOverlayOpen. rewrite F2, Ha. cbn [orb]. unfold hasUser. rewrite Fu. fold (hasUser (sl_app s)).
    destruct Hu as [->| ->]; [done|apply andb_false_r]. }
  destruct (commit_same s1 page Hpage) as [[] Hauth].
  assert (authOverlayOpen (sl_app (commit s1)) = authOverlayOpen (sl_app s1)) as Ho'.
  { unfold authOverlayOpen, hasUser. by rewrite ss_page0, ss_user0. }
  split_and!; [by rewrite ss_loc0, F1|by rewrite ss_page0, F2|by rewrite ss_user0, Fu|by rewrite ss_stored0, F4|by rewrite Ho'|auto|by rewrite ss_crashed0, F5].
Qed.

(** A sign-in that succeeds takes the site to the path of its closure. *)
Lemma sign_in_reaches s id n w c f d :
  site_reachable s -> sl_crashed s = false -> sl_left s = None ->
  task_at id s = Some (T_auth n w c) -> signs_in w = true ->
  success_data (apiRequest (detected s) f) = Some d -> accepted w d ->
  startsWith (c_successPath c) (js "//") = false ->
  exists u, url_parse (c_successPath c) origin = Some u /\ isAuthRoute (page_of_path (url_pathname u)) = false
    /\ let s' := shell_step (S_answer id f) s in
       sl_loc s' = mkLoc (url_pathname u) (url_search u) (url_hash u) /\ getCurrentPath (sl_loc s') = c_successPath c
       /\ ap_page (sl_app s') = page_of_path (url_pathname u)
       /\ ap_user (sl_app s') = Some d /\ st_user (sl_store s') = Some (stringify 0 0 d)
       /\ authOverlayOpen (sl_app s') = false /\ sl_auth s' = None /\ sl_crashed s' = false.
Proof.
  intros Hs Hc Hl Ht Hw Hd Hm Hh. destruct (reach_paths s Hs) as [Hpo Hrend]. destruct (Hrend Hc) as [page Hpage].
  pose proof (task_at_landing id s _ Hpo Ht) as [Hhost|(u & Hu & Ha)]; [unfold host_like in Hhost; congruence|].
  exists u. split; [apply Hu|]. split; [done|]. cbv zeta. unfold SiteShell.shell_step. rewrite Hc, Hl. cbn [orb SiteShell.shell_handle].
  unfold answer. cbv zeta. rewrite Ht. set (s0 := drop_task id s).
  destruct (sign_in_effects c w (aff_code s0) (apiRequest (detected s) f) d Hw Hd Hm) as (k & g & Ek).
  assert (json_truthy d = true) as Htd.
  { revert Hd. unfold success_data, truthy_data. repeat case_match; try done. by intros [= <-]. }
  replace (match w with W_credential => _ | _ => _ end) with
    (continue_auth manifest n (auth_answered c w (aff_code s0) (apiRequest (detected s) f)) s0) by (by destruct w).
  unfold continue_auth. rewrite Ek. unfold signed_in. cbn [fst snd SiteShell.perform navigateAfterAuth].
  set (s1 := setUser (Some d) (on_auth n k s0)).
  assert (sl_app (on_auth n k s0) = sl_app s) as Happ by (by rewrite on_auth_app).
  destruct (rendered_target _ _ Hpage) as [t Htgt].
  destruct (navigate_lands s1 (c_successPath c) u t Hu Ha) as (s2 & -> & R).
  - cbn. by rewrite Happ.
  - cbn. unfold on_auth. repeat case_match; done.
  - cbn. unfold on_auth. repeat case_match; done.
  - left. done.
  - cbv zeta in R. destruct R as (R1 & R2 & R3 & R4 & R5 & R6 & R7). rewrite R1. split_and!; try done.
    unfold getCurrentPath. cbn [l_pathname l_search l_hash]. symmetry. apply Hu.
Qed.

(** ** Closing the dialog *)

Lemma root_page : isAuthRoute (page_of_path (js "/")) = false /\ isProtected (page_of_path (js "/")) = false.
Proof.
  split; [by eapply plain_page; [done|vm_compute]|]. unfold SiteShell.page_of_path, getPageKey.
  destruct (sr_pageKey _) as [k|] eqn:E; [|by vm_compute]. revert E. unfold resolveSeoRoute, page_resolution.
  repeat case_match; cbn [sr_pageKey]; try done; intros Hk%table_get_In;
    cbn [In pageKeyMap] in Hk; repeat (destruct Hk as [[= _ <-]|Hk]; [by vm_compute|]); done.
Qed.

Lemma overlay_same s s' : same_site s s' -> authOverlayOpen (sl_app s') = authOverlayOpen (sl_app s).
Proof. intros []. unfold authOverlayOpen, hasUser. by rewrite ss_page0, ss_user0. Qed.

(** The dialog is mounted only while it is open. *)
Lemma commit_overlay s : sl_crashed (commit s) = false -> sl_auth (commit s) <> None -> authOverlayOpen (sl_app (commit s)) = true.
Proof.
  destruct (renderedPage (sl_app s)) as [page|] eqn:E; [|unfold SiteShell.commit; by rewrite E].
  intros _. destruct (commit_same s page E) as [Hs Hn]. rewrite (overlay_same _ _ Hs).
  destruct (authOverlayOpen (sl_app s)); [done|]. by rewrite Hn.
Qed.

Lemma reach_overlay s : site_reachable s -> sl_crashed s = false -> sl_auth s <> None -> authOverlayOpen (sl_app s) = true.
Proof.
  induction 1 as [l store session s Hl Hs|e s H IH He].
  - unfold start in Hs. destruct (detectCustomerLanguage _ _ _ _ _ _) as [language|]; [|done].
    destruct (readStoredUser store) as [user store']. apply (inj Some) in Hs as <-. apply commit_overlay.
  - unfold SiteShell.shell_step. case_match; [done|]. apply commit_overlay.
Qed.

(** The step that starts to close. *)
Lemma close_step s n a page : renderedPage (sl_app s) = Some page -> sl_crashed s = false -> sl_left s = None ->
  sl_auth s = Some (n, a) -> authOverlayOpen (sl_app s) = true -> cl_isClosing (a_closing a) = false ->
  let s1 := shell_step (S_auth E_close) s in
  same_site s s1 /\ sl_auth s1 = Some (n, set_closing (mkClosing true (Some (px_successPath (page_ctx s)))) a).
Proof.
  intros Hp Hc Hl Ha Ho Hcl. cbv zeta. unfold SiteShell.shell_step. rewrite Hc, Hl. cbn [orb SiteShell.shell_handle].
  unfold run_handler. rewrite Ha. cbn [auth_event]. unfold requestClose. rewrite Hcl. cbn [just SiteShell.perform fst snd].
  set (s0 := set_auth _ s). assert (same_site s s0) as H0 by (by split).
  assert (renderedPage (sl_app s0) = Some page) as Hp0 by done. split.
  - etransitivity; [exact H0|]. exact (proj1 (commit_same s0 page Hp0)).
  - rewrite (commit_auth s0 page Hp0). unfold auth_effect. by replace (authOverlayOpen (sl_app s0)) with true.
Qed.

(** Without a user, the page to return to needs none, or connects ATF Switch. *)
Lemma return_target_open a path t : hasUser a = false -> getAuthReturnTarget manifest a = Some path ->
  target_page path = Some t -> isConnectRoute t = false -> isProtected t = false.
Proof.
  intros Hu Hp Ht Hc. assert (target_page (js "/") = Some (page_of_path (js "/"))) as Hroot.
  { unfold SiteShell.target_page. by rewrite (proj1 (parsed_plain (js "/") eq_refl)). }
  revert Hp. unfold getAuthReturnTarget. destruct (target_page (return_path a)) as [q|] eqn:Eq; [|done]. rewrite Hu. cbn [negb andb].
  destruct (isAuthRoute q); [|destruct (isProtected q && _) eqn:Epq]; intros <-%(inj Some).
  - rewrite Hroot in Ht. apply (inj Some) in Ht as <-. apply root_page.
  - rewrite Hroot in Ht. apply (inj Some) in Ht as <-. apply root_page.
  - rewrite Eq in Ht. apply (inj Some) in Ht as ->. rewrite Hc in Epq. by rewrite andb_true_r in Epq.
Qed.

(** Closing the sign-in dialog takes the site back to the page it was opened
    from, or to the home page when that page needs a user, and the dialog is
    gone, unless the page is the one that connects ATF Switch. *)
Theorem closing_returns s n a path t :
  site_reachable s -> sl_crashed s = false -> sl_left s = None ->
  sl_auth s = Some (n, a) -> cl_isClosing (a_closing a) = false ->
  getAuthReturnTarget manifest (sl_app s) = Some path -> startsWith path (js "//") = false ->
  target_page path = Some t -> hasUser (sl_app s) = true \/ isConnectRoute t = false ->
  let s' := shell_step (S_auth E_closeTimer) (shell_step (S_auth E_close) s) in
  getCurrentPath (sl_loc s') = path /\ ap_page (sl_app s') = t /\ ap_user (sl_app s') = ap_user (sl_app s)
  /\ authOverlayOpen (sl_app s') = false /\ sl_auth s' = None.
Proof.
  intros Hs Hc Hl Ha Hcl Hpath Hh Ht Hu. destruct (reach_paths s Hs) as [Hpo Hrend]. destruct (Hrend Hc) as [page Hpage].
  assert (authOverlayOpen (sl_app s) = true) as Ho by (apply reach_overlay; [done..|congruence]).
  pose proof (return_target_landing _ _ (po_return s Hpo) Hpath) as [Hhost|(u & Hpu & Hna)]; [unfold host_like in Hhost; congruence|].
  destruct (close_step s n a page Hpage Hc Hl Ha Ho Hcl) as [H1 A1]. cbv zeta. set (s1 := shell_step (S_auth E_close) s) in *.
  assert (page_of_path (url_pathname u) = t) as Ht'.
  { unfold SiteShell.target_page in Ht. destruct Hpu as (Hpu & _). rewrite Hpu in Ht. by apply (inj Some) in Ht. }
  assert (px_successPath (page_ctx s) = path) as Hpx by (cbn; by rewrite Hpath).
  rewrite Hpx in A1. clear Hpx. destruct (rendered_target _ _ Hpage) as [t0 Ht0].
  assert (hasUser (sl_app s1) = hasUser (sl_app s)) as Eu by (unfold hasUser; by rewrite (ss_user _ _ H1)).
  unfold SiteShell.shell_step at 1 2 3 4 5. rewrite (ss_crashed _ _ H1), Hc, (ss_left _ _ H1), Hl. cbn [orb SiteShell.shell_handle].
  unfold run_handler. rewrite A1. cbn [auth_event set_closing a_closing cl_timer cl_isClosing SiteShell.perform fst snd].
  set (s2 := set_auth _ s1).
  destruct (navigate_lands s2 path u t0 Hpu Hna) as (s3 & -> & R).
  - cbn. unfold return_path. by rewrite (ss_return _ _ H1).
  - cbn. by rewrite (ss_crashed _ _ H1).
  - cbn. by rewrite (ss_left _ _ H1).
  - change (sl_app s2) with (sl_app s1). rewrite Eu, Ht'. destruct (hasUser (sl_app s)) eqn:E; [by left|right].
    destruct Hu as [|Hcn]; [done|]. by apply (return_target_open (sl_app s) path).
  - cbv zeta in R. destruct R as (R1 & R2 & R3 & R4 & R5 & R6 & R7). rewrite R1. split_and!; try done.
    + unfold getCurrentPath. cbn [l_pathname l_search l_hash]. symmetry. apply Hpu.
    + by rewrite R2.
    + rewrite R3. cbn. apply (ss_user _ _ H1).
Qed.

(** ** The link of a page that asks for a sign-in *)

(** C36: the sign-in link a page builds from its own address leads to the sign-in
    page, where the target read from the query is that address again; and the
    copy in the session storage, which an OAuth sign-in reads after it comes
    back, is the same address, read once. *)
Theorem sign_in_link_returns l session e :
  real_location l -> startsWith (l_pathname l) (js "//") = false -> getCurrentPath l <> [] ->
  has_str auth_pages (page_of_path (l_pathname l)) = false ->
  units_ok (getCurrentPath l) -> encodeURIComponent (getCurrentPath l) = Some e ->
  exists link search session',
    buildSignInPathWithRedirect manifest (getCurrentPath l) session = (Some link, session')
    /\ url_parse link origin = Some (mkUrl origin (js "/sign-in") search [])
    /\ getAuthRedirectFromSearch manifest search = getCurrentPath l
    /\ (ss_disabled session = false -> consumeStoredAuthRedirect manifest session' = (getCurrentPath l, mkSession false None)).
Proof.
  intros [Hr|Hr] Hh Hne Hp Hu He; [congruence|].
  assert (normalizeAuthRedirect manifest (Some (getCurrentPath l)) = getCurrentPath l) as Hn.
  { unfold normalizeAuthRedirect. destruct (getCurrentPath l) as [|c p] eqn:E; [done|]. rewrite Hr.
    cbn [url_origin url_pathname url_search url_hash]. rewrite str_eqb_refl. unfold SiteShell.page_of_path in Hp.
    cbn [negb]. rewrite Hp. exact E. }
  destruct (parse_sign_in (getCurrentPath l) e Hu He) as (search & Hs & Hg).
  exists (js "/sign-in?redirect=" ++ e), search. eexists. unfold buildSignInPathWithRedirect, storeAuthRedirect. rewrite Hn.
  assert (truthy (getCurrentPath l) = true) as Ht by (by destruct (getCurrentPath l)). rewrite Ht. cbn [negb]. rewrite Ht, He. cbn [negb].
  split; [done|]. split; [done|]. split; [unfold getAuthRedirectFromSearch; by rewrite Hg|].
  intros Hd. rewrite Hd. unfold consumeStoredAuthRedirect. cbn [ss_disabled ss_redirect]. by rewrite Hn.
Qed.
End Site.

(** ** Examples

    The shipped pages, nothing stored, reduced motion. *)

Local Abbreviation pages := (Some shipped_manifest).
Definition empty_store : Store := mkStore None None None None None.
Definition visit (l : Location) : Shell :=
  default (crash (mkShell l (mkApp [] [] None 0 [] false en None) None None None empty_store (mkSession false None) [] 0 0 [] None false))
    (start pages [] (js "en") true l empty_store (mkSession false None)).
Definition do_all (es : list ShellEvent) (s : Shell) : Shell := shell_run pages [] (js "en") true es s.

Definition sign_in_location : Location := mkLoc (js "/sign-in") (js "?redirect=%2Fdashboard%2Fusage") [].
Definition type_password : list ShellEvent :=
  [S_auth (E_update AV_email (js "ann@example.org")); S_auth (E_update AV_password (js "secret"))].
Definition ann : json := JObj [(js "id", JNum (num_of_Z 7)); (js "username", JStr (js "ann"))].
Definition ok_body (data : json) : Fetched :=
  Answered 200 [] true (Some (JObj [(js "success", JBool true); (js "data", data)])).

Lemma visit_reachable l es : real_location l -> Forall event_real es ->
  is_Some (start pages [] (js "en") true l empty_store (mkSession false None)) ->
  site_reachable pages [] (js "en") true (do_all es (visit l)).
Proof.
  intros Hl He [s Hs]. assert (site_reachable pages [] (js "en") true (visit l)) as H0.
  { unfold visit. rewrite Hs. by apply (site_start _ _ _ _ l empty_store (mkSession false None)). }
  revert H0. generalize (visit l). induction He as [|e es He _ IH]; intros x Hx; [done|]. apply IH. by constructor.
Qed.

Definition waiting : Shell := do_all (type_password ++ [S_auth (E_submit (js "0.4fzyo82mvyr"))]) (visit sign_in_location).

Lemma real_sign_in : real_location sign_in_location.
Proof. by right; vm_compute. Qed.

Lemma waiting_reachable : site_reachable pages [] (js "en") true waiting.
Proof. apply visit_reachable; [apply real_sign_in|by repeat constructor|]. eexists. vm_compute. reflexivity. Qed.

Definition first_login : nat := 3.
Definition login_closure : Closure :=
  match task_at first_login waiting with Some (T_auth _ _ c) => c | _ => mkClosure en (mkFlags false false false 0 false) (mkValues [] [] [] []) [] [] end.

Lemma waiting_task : task_at first_login waiting = Some (T_auth 0 W_login login_closure).
Proof. vm_compute. reflexivity. Qed.

Definition app_with_user : App := mkApp (js "/dashboard/usage") (js "usage") (Some ann) 1 (js "/dashboard/usage") false en None.

Lemma protected_page_needs_user_witness : hasUser app_with_user = true.
Proof.
  refine (proj1 (protected_page_needs_user (W := site_web) pages app_with_user (js "usage") _ _)); vm_compute; reflexivity.
Defined.

(** The dialog opened over the pricing page. *)
Definition from_pricing : Shell := do_all [S_navigate (js "/sign-in")] (visit (mkLoc (js "/pricing") [] [])).
Definition dialog_state : AuthState := match sl_auth from_pricing with Some (_, a) => a | None => auth_mount [] [] end.

Lemma closing_returns_witness :
  let s' := shell_step pages [] (js "en") true (S_auth E_closeTimer) (shell_step pages [] (js "en") true (S_auth E_close) from_pricing) in
  getCurrentPath (sl_loc s') = js "/pricing" /\ sl_auth s' = None.
Proof.
  assert (site_reachable pages [] (js "en") true from_pricing) as H.
  { apply visit_reachable; [right; vm_compute; reflexivity|repeat constructor|eexists; vm_compute; reflexivity]. }
  destruct (closing_returns pages [] (js "en") true from_pricing 1 dialog_state (js "/pricing") (js "subscribe") H)
    as (Hp & _ & _ & _ & Ha); [vm_compute; reflexivity..|right; vm_compute; reflexivity|]. by split.
Defined.

Lemma units_checked t : forallb (fun c => (c <? 65536)%N) t = true -> units_ok t.
Proof. intros H. apply List.Forall_forall. intros c Hc. apply N.ltb_lt. by apply (proj1 (forallb_forall _ t) H). Qed.

Lemma sign_in_link_returns_witness :
  exists search, getAuthRedirectFromSearch pages search = js "/console/connect?app=codex".
Proof.
  destruct (sign_in_link_returns pages (mkLoc (js "/console/connect") (js "?app=codex") []) (mkSession false None)
    (js "%2Fconsole%2Fconnect%3Fapp%3Dcodex")) as (link & search & session & _ & _ & H & _);
    [right; vm_compute; reflexivity|reflexivity|discriminate|vm_compute; reflexivity| |vm_compute; reflexivity|].
  - apply units_checked. vm_compute. reflexivity.
  - exists search. exact H.
Defined.

(** ** What goes wrong *)

Lemma repeat_fixed e s k : shell_step pages [] (js "en") true e s = s -> do_all (repeat e k) s = s.
Proof. intros H. induction k as [|k IH]; [done|]. unfold do_all, shell_run in *. cbn [repeat fold_left]. by rewrite H. Qed.

Definition at_connect : Shell := visit (mkLoc (js "/console/connect") (js "?app=codex") []).
Definition close_tried : Shell := do_all [S_auth E_close; S_auth E_closeTimer] at_connect.

Lemma close_tried_fixed : shell_step pages [] (js "en") true (S_auth E_close) close_tried = close_tried.
Proof. vm_compute. reflexivity. Qed.

(** Closing the sign-in dialog of the page that connects ATF Switch does not
    close it: the site navigates to that page again, which opens the dialog, and
    the dialog, still marked as closing, refuses to be closed from then on. *)
Theorem connect_dialog_stays :
  (match sl_auth close_tried with Some (_, a) => a_closing a = mkClosing true None | None => False end)
  /\ forall k, authOverlayOpen (sl_app (do_all (repeat (S_auth E_close) k) close_tried)) = true.
Proof.
  split; [vm_compute; reflexivity|]. intros k. rewrite (repeat_fixed _ _ k close_tried_fixed). vm_compute. reflexivity.
Qed.

(** Changing between sign-in and registration replaces the address by one
    without its query: the page a link asked for is lost, and after registering
    the site shows the home page. *)
Theorem switch_loses_redirect :
  let s := visit sign_in_location in
  authSuccessPath (page_ctx pages true s) = js "/dashboard/usage"
  /\ authSuccessPath (page_ctx pages true (do_all [S_auth E_switchMode] s)) = js "/".
Proof. by split; vm_compute. Qed.

(** An address whose path is two slashes crashes the site: the path to return
    to is that address, and rendering reads it as a URL without a host. *)
Theorem double_slash_crashes : sl_crashed (visit (mkLoc (js "//") [] [])) = true.
Proof. vm_compute. reflexivity. Qed.
