(* ===== verification/SiteSession.v ===== *)
(** * The customer site over a whole visit

    What holds along every run of the site (SiteShell.v): a user who was signed
    out is not brought back by a session check that answers late; a sign-in lands
    where the link, or else the page visited before, says; and the path to return
    to is the last open page. *)

From S2P Require Import Prelude JsStr JsNum JsJson JsPrint JsUri SeoRoutes SeoRoutesProps SiteHelpers Passkeys AuthPage SiteWeb AuthProps SiteShell SiteProps.
Local Open Scope js_scope.

Section Visit.
Context {W : Web}.
Variable manifest : option SeoManifest.
Variables cookie navigatorLanguage : jsstr.
Variable reducedMotion : bool.

Local Abbreviation page_of_path := (page_of_path manifest).
Local Abbreviation target_page := (target_page manifest).
Local Abbreviation renderedPage := (renderedPage manifest).
Local Abbreviation onPopState := (onPopState manifest).
Local Abbreviation navigateTo := (navigateTo manifest).
Local Abbreviation perform := (perform manifest).
Local Abbreviation commit := (commit manifest reducedMotion).
Local Abbreviation page_ctx := (page_ctx manifest reducedMotion).
Local Abbreviation answer := (answer manifest cookie navigatorLanguage).
Local Abbreviation shell_handle := (shell_handle manifest cookie navigatorLanguage reducedMotion).
Local Abbreviation shell_step := (shell_step manifest cookie navigatorLanguage reducedMotion).
Local Abbreviation site_reachable := (site_reachable manifest cookie navigatorLanguage reducedMotion).
Local Abbreviation detected := (detected manifest cookie navigatorLanguage).

(** ** What every update of the site keeps *)

(** Requests may be added, all of which are as [Q] says; numbers only grow; what
    the last commit captured, and the run of the session check, stay. *)
Record grows (Q : Task -> Prop) (s s' : Shell) : Prop := {
  gr_seen : sl_seen s' = sl_seen s;
  gr_self : sl_self s' = sl_self s;
  gr_next : sl_next s <= sl_next s';
  gr_tasks : forall p, In p (sl_tasks s') -> In p (sl_tasks s) \/ Q p.2
}.

#[local] Instance grows_preorder Q : PreOrder (grows Q).
Proof.
  split; [by split; auto|]. intros x y z [] []. split; [congruence..|lia|]. intros p Hp.
  destruct (gr_tasks1 p Hp) as [H|H]; [auto|by right].
Qed.

Lemma grows_keep Q s s' : sl_seen s' = sl_seen s -> sl_self s' = sl_self s -> sl_next s' = sl_next s ->
  sl_tasks s' = sl_tasks s -> grows Q s s'.
Proof. intros H1 H2 H3 H4. split; [done..|lia|]. rewrite H4. auto. Qed.

Lemma add_grows (Q : Task -> Prop) t s : Q t -> grows Q s (add_task t s).
Proof. intros Ht. split; [done..|cbn; lia|]. cbn. intros p [Hp|[<-|[]]]%in_app_iff; auto. Qed.

Lemma send_grows (Q : Task -> Prop) r t s : Q t -> grows Q s (send_request r t s).
Proof. intros Ht. transitivity (add_task t s); [by apply add_grows|by apply grows_keep]. Qed.

Lemma drop_grows Q id s : grows Q s (drop_task id s).
Proof. split; [done..|]. cbn. intros p [Hp _]%filter_In. auto. Qed.

Lemma on_auth_grows Q n f s : grows Q s (on_auth n f s).
Proof. unfold on_auth. repeat case_match; by apply grows_keep. Qed.

Lemma pop_grows Q s : grows Q s (onPopState s).
Proof. unfold SiteShell.onPopState. cbv zeta. repeat case_match; by apply grows_keep. Qed.

Lemma navigate_grows Q path s s' : navigateTo path s = Some s' -> grows Q s s'.
Proof.
  unfold SiteShell.navigateTo. destruct (url_parse path origin); [|done]. case_match; [|done]. intros <-%(inj Some).
  etransitivity; [|apply pop_grows]. by apply grows_keep.
Qed.

(** The requests of a list of effects. *)
Definition asks (Q : Task -> Prop) (n : nat) (es : list Effect) : Prop :=
  forall w c, In (w, c) (awaited es) -> Q (T_auth n w c).

Lemma perform_grows Q n es s : asks Q n es -> grows Q s (perform n es s).
Proof.
  revert s. induction es as [|e es IH]; intros s Hq; [done|].
  assert (asks Q n es) as Hq' by (intros w c Hw; apply Hq; destruct e; cbn; auto).
  destruct e; cbn [SiteShell.perform].
  - etransitivity; [apply send_grows, Hq; by left|by apply IH].
  - etransitivity; [apply add_grows, Hq; by left|by apply IH].
  - etransitivity; [|by apply IH]. by apply grows_keep.
  - destruct (navigateTo path s) as [s'|] eqn:E; [|apply on_auth_grows]. etransitivity; [by eapply navigate_grows|by apply IH].
  - etransitivity; [|by apply IH]. by apply grows_keep.
  - etransitivity; [|by apply IH]. by apply grows_keep.
  - etransitivity; [|by apply IH]. by apply grows_keep.
Qed.

Lemma continue_grows Q n k s : asks Q n k.2 -> grows Q s (continue_auth manifest n k s).
Proof. intros Hk. unfold continue_auth. etransitivity; [apply on_auth_grows|by apply perform_grows]. Qed.

Lemma oauth_signed_grows Q data s : grows Q s (oauth_signed_in manifest data s).
Proof.
  unfold oauth_signed_in. cbv zeta. destruct (consumeStoredAuthRedirect _ _) as [t se].
  transitivity (set_session se (setUser (Some data) s)); [by apply grows_keep|].
  destruct (navigateTo _ _) as [s'|] eqn:E; [by eapply navigate_grows|done].
Qed.

Lemma task_at_In id s t : task_at id s = Some t -> exists n, In (n, t) (sl_tasks s).
Proof.
  unfold task_at. destruct (find _ _) as [[n t']|] eqn:E; [|done]. intros [= <-]. exists n. by apply find_some in E as [? _].
Qed.

(** ** The requests a step adds *)

Section Requests.
Variable Q : Task -> Prop.
Variable s : Shell.
Variable e : ShellEvent.
(** Those of the other parts of the site, those of the events of the dialog, and
    those that follow an answer to one of the pending requests. *)
Hypothesis other_parts : forall t, match t with T_auth _ w _ => w = W_status | T_self _ => False | _ => True end -> Q t.
Hypothesis dialog_events : forall n a ae, e = S_auth ae -> sl_auth s = Some (n, a) -> asks Q n (auth_event (page_ctx s) ae a).2.
Hypothesis dialog_answers : forall m n w c aff r, In (m, T_auth n w c) (sl_tasks s) -> asks Q n (auth_answered c w aff r).2.
Hypothesis dialog_credentials : forall m n c r, In (m, T_auth n W_credential c) (sl_tasks s) -> asks Q n (credentialAnswered c r).2.

Lemma answer_grows id f : grows Q s (answer id f s).
Proof.
  unfold SiteShell.answer. cbv zeta. destruct (task_at id s) as [t|] eqn:Et; [|done]. apply task_at_In in Et as [m Ht].
  assert (grows Q s (drop_task id s)) as Hd by apply drop_grows. set (r := apiRequest _ f).
  destruct t as [n w c|run|l|run l|run l first].
  - destruct (is_credential w) eqn:Hw; [by destruct w|].
    replace (match w with W_credential => _ | _ => _ end) with
      (continue_auth manifest n (auth_answered c w (aff_code (drop_task id s)) r) (drop_task id s)) by (by destruct w).
    etransitivity; [exact Hd|]. apply continue_grows. by eapply dialog_answers.
  - etransitivity; [exact Hd|]. unfold selfAnswered. destruct (negb _); [done|]. repeat case_match; by apply grows_keep.
  - etransitivity; [exact Hd|]. unfold signOutAnswered. cbv zeta. set (s1 := on_app _ (on_store _ (drop_task id s))).
    transitivity s1; [by apply grows_keep|]. destruct (navigateTo _ s1) as [s'|] eqn:E; [|by apply grows_keep].
    etransitivity; [by eapply navigate_grows|by apply grows_keep].
  - etransitivity; [exact Hd|]. unfold oauthAnswered. destruct (negb _); [done|].
    case_match; [apply oauth_signed_grows|apply send_grows; by apply other_parts].
  - etransitivity; [exact Hd|]. unfold oauthSelfAnswered. destruct (negb _); [done|].
    case_match; [apply oauth_signed_grows|]. unfold oauth_fail. case_match; by apply grows_keep.
Qed.

Lemma handle_grows : grows Q s (shell_handle e s).
Proof.
  destruct e as [ae|id f|id r|path|l|l| | |]; cbn [SiteShell.shell_handle].
  - unfold run_handler. destruct (sl_auth s) as [[n a]|] eqn:Ea; [|done].
    pose proof (dialog_events n a ae eq_refl eq_refl) as H. destruct (auth_event (page_ctx s) ae a) as [a' es].
    transitivity (set_auth (Some (n, a')) s); [by apply grows_keep|by apply perform_grows].
  - apply answer_grows.
  - unfold answer_credential. destruct (task_at id s) as [t|] eqn:Et; [|done]. apply task_at_In in Et as [m Ht].
    destruct t as [n w c| | | |]; try done. destruct w; try done.
    etransitivity; [apply drop_grows|]. apply continue_grows. by eapply dialog_credentials.
  - destruct (navigateTo path s) as [s'|] eqn:E; [|done]. by eapply navigate_grows.
  - etransitivity; [|apply pop_grows]. by apply grows_keep.
  - by apply grows_keep.
  - by apply grows_keep.
  - repeat case_match; by apply grows_keep.
  - repeat case_match; try done. etransitivity; [|apply send_grows; by apply other_parts]. by apply grows_keep.
Qed.

Lemma oauth_effect_grows x : grows Q x (oauth_effect manifest x).
Proof.
  assert (forall run m b y, grows Q y (oauth_run run m b y)) as Hr.
  { intros run m b y. unfold oauth_run. cbv zeta. repeat case_match; try by apply grows_keep.
    etransitivity; [|apply send_grows; by apply other_parts]. by apply grows_keep. }
  assert (grows Q x (fresh_id x).2) as Hf by (split; [done..|cbn; lia|cbn; auto]).
  unfold oauth_effect. destruct (renderedPage (sl_app x)); [|done]. case_match; [|by apply grows_keep].
  destruct (sl_oauth x); [case_match; [done|]|]; (etransitivity; [exact Hf|]); apply Hr.
Qed.

Lemma auth_effect_grows x : grows Q x (auth_effect manifest reducedMotion x).
Proof.
  unfold auth_effect. cbv zeta. destruct (authOverlayOpen _); [|by apply grows_keep]. destruct (sl_auth x); [done|].
  transitivity (fresh_id x).2; [split; [done..|cbn; lia|cbn; auto]|]. cbn [fresh_id snd].
  etransitivity; [|apply send_grows; by apply other_parts]. case_match; by apply grows_keep.
Qed.

(** Everything of a step before the session check. *)
Definition before_check : Shell :=
  oauth_effect manifest (auth_effect manifest reducedMotion (shell_handle e s)).

Lemma before_check_grows : grows Q s before_check.
Proof.
  unfold before_check. etransitivity; [apply handle_grows|]. etransitivity; [apply auth_effect_grows|apply oauth_effect_grows].
Qed.
End Requests.

(** ** The session check *)

(** The last commit captured the id of the user; a check that is still listened
    to was sent for a user who has one. *)
Record session_ok (s : Shell) : Prop := {
  se_seen : exists language, sl_seen s = Some (raw_id (ap_user (sl_app s)), language);
  se_self : sl_self s < sl_next s;
  se_runs : forall m run, In (m, T_self run) (sl_tasks s) -> run < sl_next s;
  se_current : forall m, In (m, T_self (sl_self s)) (sl_tasks s) -> has_id (ap_user (sl_app s)) = true
}.

Definition id_truthy (v : option json) : bool := match v with Some v => json_truthy v | None => false end.

Lemma has_id_raw u : has_id u = id_truthy (raw_id u).
Proof.
  destruct u as [u|]; [|done]. unfold has_id, raw_id, user_id. cbn [mbind option_bind]. destruct (jfield _ u) as [v|]; [|done].
  cbn. by destruct (json_truthy v).
Qed.

Lemma neq_truthy a b : neq a b = true -> ntruthy a = ntruthy b.
Proof. destruct a as [[]|[]| |[]], b as [[]|[]| |[]]; done. Qed.

Lemma same_id_truthy x y : same_id x y = true -> id_truthy x = id_truthy y.
Proof.
  destruct x as [[]|], y as [[]|]; cbn [same_id id_truthy json_truthy]; try done.
  - by intros ->%Bool.eqb_prop.
  - apply neq_truthy.
  - by intros ->%str_eqb_eq.
Qed.

(** No other part of the site sends the check. *)
Definition not_check (t : Task) : Prop := match t with T_self _ => False | _ => True end.

Lemma not_check_parts t : match t with T_auth _ w _ => w = W_status | T_self _ => False | _ => True end -> not_check t.
Proof. by destruct t. Qed.

Lemma before_check_quiet e s : grows not_check s (before_check s e).
Proof. apply before_check_grows; [apply not_check_parts|done..]. Qed.

Lemma oauth_quiet s : grows not_check s (oauth_effect manifest s).
Proof. apply oauth_effect_grows, not_check_parts. Qed.

(** Before the check only the user may have changed since the last commit. *)
Record unchecked (s : Shell) : Prop := {
  un_self : sl_self s < sl_next s \/ sl_seen s = None;
  un_runs : forall m run, In (m, T_self run) (sl_tasks s) -> run < sl_next s;
  un_current : forall m, In (m, T_self (sl_self s)) (sl_tasks s) -> exists v language, sl_seen s = Some (v, language) /\ id_truthy v = true
}.

Lemma session_unchecked s x : session_ok s -> grows not_check s x -> unchecked x.
Proof.
  intros [[language H1] H2 H3 H4] [G1 G2 G3 G4]. split.
  - left. lia.
  - intros m run Hm. destruct (G4 _ Hm) as [Hs|[]]. apply H3 in Hs. lia.
  - intros m Hm. destruct (G4 _ Hm) as [Hs|[]]. rewrite G2 in Hs. apply H4 in Hs. rewrite G1, H1, has_id_raw in *. eauto.
Qed.

Lemma self_effect_session x :
  unchecked x -> session_ok (set_seen (raw_id (ap_user (sl_app x)), ap_language (sl_app x)) (self_effect x)).
Proof.
  intros [H1 H2 H3]. unfold self_effect.
  set (changed := match sl_seen x with Some _ => _ | None => _ end). destruct changed eqn:Ec; unfold changed in Ec; cbn [negb].
  - cbn [fresh_id]. destruct (has_id _) eqn:Ei; cbn [sl_app set_self] in Ei; split; cbn; try eauto; try lia.
    + intros m run [Hm|[[= _ <-]|[]]]%in_app_iff; [|lia]. apply H2 in Hm. lia.
    + intros m run Hm. apply H2 in Hm. lia.
    + intros m Hm. apply H2 in Hm. lia.
  - destruct (sl_seen x) as [[v language]|] eqn:Es; [|done]. apply negb_false_iff in Ec. split; cbn.
    + eauto.
    + by destruct H1.
    + done.
    + intros m Hm. destruct (H3 m Hm) as (v' & l' & [= <- <-] & Hv). by rewrite has_id_raw, <- (same_id_truthy _ _ Ec).
Qed.

Lemma session_grows s x p : ap_user (sl_app x) = ap_user (sl_app s) -> grows not_check s x ->
  p.1 = raw_id (ap_user (sl_app x)) -> session_ok (set_seen p s) -> session_ok (set_seen p x).
Proof.
  intros Hu [G1 G2 G3 G4] Hp [H1 H2 H3 H4]. destruct p as [v language]. cbn in *. split; cbn.
  - exists language. by rewrite <- Hp.
  - lia.
  - intros m run Hm. destruct (G4 _ Hm) as [Hs|[]]. apply H3 in Hs. lia.
  - intros m Hm. destruct (G4 _ Hm) as [Hs|[]]. rewrite G2 in Hs. rewrite Hu. by eapply H4.
Qed.

Lemma session_seen p q s : p.1 = q.1 -> session_ok (set_seen p s) -> session_ok (set_seen q s).
Proof. intros E [[l H1] H2 H3 H4]. split; [|done..]. destruct p, q. cbn in *. subst. simplify_eq. eauto. Qed.

Lemma commit_session s : unchecked (oauth_effect manifest (auth_effect manifest reducedMotion s)) -> sl_crashed (commit s) = false ->
  session_ok (commit s).
Proof.
  intros Hx. unfold SiteShell.commit. destruct (renderedPage (sl_app s)); [|done]. intros _. cbv zeta.
  set (x := oauth_effect manifest (auth_effect _ _ s)) in *. pose proof (self_effect_session x Hx) as Hs.
  set (y := self_effect x) in *. assert (ap_user (sl_app y) = ap_user (sl_app x)) as Hy by apply self_effect_same.
  assert (ap_user (sl_app (oauth_effect manifest y)) = ap_user (sl_app y)) as Hz by apply (oauth_effect_same manifest).
  apply (session_grows y); [done|apply oauth_quiet|done|]. eapply session_seen, Hs. cbn. by rewrite Hz, Hy.
Qed.

Lemma start_unchecked l app store session :
  unchecked (oauth_effect manifest (auth_effect manifest reducedMotion (mkShell l app None None None store session [] 0 0 [] None false))).
Proof.
  set (s := mkShell _ _ _ _ _ _ _ _ _ _ _ _ _).
  assert (grows not_check s (oauth_effect manifest (auth_effect manifest reducedMotion s))) as [G1 G2 G3 G4].
  { etransitivity; [apply auth_effect_grows, not_check_parts|apply oauth_quiet]. }
  split; [by right|intros m run Hm|intros m Hm]; by destruct (G4 _ Hm).
Qed.

Lemma reach_session s : site_reachable s -> sl_crashed s = false -> session_ok s.
Proof.
  induction 1 as [l store session s Hl Hs|e s H IH He].
  - unfold start in Hs. destruct (detectCustomerLanguage _ _ _ _ _ _) as [language|]; [|done].
    destruct (readStoredUser store) as [user store']. apply (inj Some) in Hs as <-. apply commit_session, start_unchecked.
  - unfold SiteShell.shell_step. destruct (sl_crashed s) eqn:Ec; [cbn [orb]; congruence|]. cbn [orb].
    destruct (sl_left s); [auto|]. apply commit_session. eapply session_unchecked; [by apply IH|apply before_check_quiet].
Qed.


(** ** Where a sign-in leads *)

(** The page a link asks for: the [redirect] of the query, when it names a page
    of this site that is not one of the sign-in pages. *)
Definition link_target (l : Location) (p : jsstr) : Prop :=
  exists v u, search_get (l_search l) (js "redirect") = Some v /\ v <> []
    /\ url_parse v origin = Some u /\ url_origin u = origin
    /\ ~ In (page_of_path (url_pathname u)) [js "signin"; js "signup"; js "oauthCallback"]
    /\ p = url_pathname u ++ url_search u ++ url_hash u /\ p <> [].

(** Where the dialog of a state leads: to the page of the link; without one, to
    the remembered page, unless it is a sign-in page or needs a user who is
    missing; the page that connects ATF Switch is kept without a user. *)
Inductive destination (s : Shell) : jsstr -> Prop :=
| to_link p : link_target (sl_loc s) p -> destination s p
| to_remembered t :
    (forall p, ~ link_target (sl_loc s) p) -> target_page (return_path (sl_app s)) = Some t ->
    t <> js "signin" -> t <> js "signup" ->
    (hasUser (sl_app s) = true \/ ~ In t protectedPages \/ t = js "atfSwitchConnect") ->
    destination s (return_path (sl_app s))
| to_home t :
    (forall p, ~ link_target (sl_loc s) p) -> target_page (return_path (sl_app s)) = Some t ->
    (t = js "signin" \/ t = js "signup" \/ (hasUser (sl_app s) = false /\ In t protectedPages /\ t <> js "atfSwitchConnect")) ->
    destination s (js "/").

Lemma link_read l p : link_target l p <-> getAuthRedirectFromSearch manifest (l_search l) = p /\ p <> [].
Proof.
  unfold link_target, getAuthRedirectFromSearch, normalizeAuthRedirect. split.
  - intros (v & u & -> & Hv & Hu & Ho & Hp & -> & Hn). destruct v as [|c v]; [done|]. rewrite Hu, Ho, str_eqb_refl. cbn [negb].
    change [js "signin"; js "signup"; js "oauthCallback"] with auth_pages in Hp. apply has_str_false in Hp.
    unfold SiteShell.page_of_path in Hp. rewrite Hp. by split.
  - destruct (search_get _ _) as [[|c v]|]; [by intros [<- ?]| |by intros [<- ?]].
    destruct (url_parse (c :: v) origin) as [u|] eqn:Eu; [|by intros [<- ?]].
    destruct (str_eqb _ _) eqn:Eo; cbn [negb]; [|by intros [<- ?]]. apply str_eqb_eq in Eo.
    destruct (has_str auth_pages _) eqn:Ep; [by intros [<- ?]|]. apply has_str_false in Ep. intros [<- Hn].
    exists (c :: v), u. by split_and!.
Qed.

Lemma no_link l : (forall p, ~ link_target l p) <-> getAuthRedirectFromSearch manifest (l_search l) = [].
Proof.
  split.
  - intros H. destruct (getAuthRedirectFromSearch manifest (l_search l)) as [|c p] eqn:E; [done|]. destruct (H (c :: p)). by apply link_read.
  - intros E p [H Hn]%link_read. congruence.
Qed.

Lemma auth_route_iff t : isAuthRoute t = true <-> t = js "signin" \/ t = js "signup".
Proof. unfold isAuthRoute. by rewrite orb_true_iff, !str_eqb_eq. Qed.

Lemma success_destination s page : renderedPage (sl_app s) = Some page -> destination s (authSuccessPath (page_ctx s)).
Proof.
  intros [t Ht]%rendered_target. unfold authSuccessPath, SiteShell.page_ctx. cbn [px_redirect px_successPath].
  destruct (getAuthRedirectFromSearch manifest (l_search (sl_loc s))) as [|c p] eqn:Er.
  2: { cbn [str_or truthy]. apply to_link, link_read. by split. }
  pose proof (proj2 (no_link (sl_loc s)) Er) as Hno. clear Er. rename Hno into Er. cbn [str_or truthy]. unfold getAuthReturnTarget. rewrite Ht. cbn [default from_option Datatypes.id].
  assert (return_path (sl_app s) <> []) as Hne by (unfold return_path; by destruct (ap_authReturnPath (sl_app s))).
  destruct (isAuthRoute t) eqn:Ea.
  { apply (to_home s t Er Ht). apply auth_route_iff in Ea as [?|?]; auto. }
  assert (t <> js "signin" /\ t <> js "signup") as [N1 N2] by (split; intros ->; by vm_compute in Ea).
  unfold isProtected, isConnectRoute. destruct (hasUser (sl_app s)) eqn:Eu; cbn [negb andb].
  2: destruct (has_str protectedPages t) eqn:Ep; cbn [andb]; [destruct (str_eqb t _) eqn:Ec; cbn [negb]|].
  3: { apply (to_home s t Er Ht). right. right. split_and!; [done|by apply has_str_In|]. intros ->. by rewrite str_eqb_refl in Ec. }
  all: replace (str_or (return_path (sl_app s)) (js "/dashboard")) with (return_path (sl_app s))
         by (by destruct (return_path (sl_app s))); apply (to_remembered s t Er Ht N1 N2).
  - by left.
  - right. right. by apply str_eqb_eq.
  - right. left. by apply has_str_false.
Qed.

(** ** Where the requests of the dialog come from *)

Definition next_site (s s' : Shell) : Prop := exists e, event_real e /\ s' = shell_step e s.

(** The request was started by an event of the dialog [n], earlier in this visit. *)
Definition sent_from (s : Shell) (n : nat) (c : Closure) : Prop :=
  exists s0 a0 e0, site_reachable s0 /\ sl_crashed s0 = false /\ sl_auth s0 = Some (n, a0)
    /\ rtc next_site (shell_step (S_auth e0) s0) s /\ c_successPath c = authSuccessPath (page_ctx s0).

Definition source_known (s : Shell) (t : Task) : Prop :=
  match t with
  | T_auth _ W_status _ => True
  | T_auth n _ c => sent_from s n c
  | _ => True
  end.

Lemma sent_from_c s n c c' : c_successPath c' = c_successPath c -> sent_from s n c -> sent_from s n c'.
Proof. intros E (s0 & a0 & e0 & H1 & H2 & H3 & H4 & H5). exists s0, a0, e0. rewrite E. by split_and!. Qed.

Lemma sent_from_next s s' n c : next_site s s' -> sent_from s n c -> sent_from s' n c.
Proof. intros Hn (s0 & a0 & e0 & H1 & H2 & H3 & H4 & H5). exists s0, a0, e0. split_and!; try done. by eapply rtc_r. Qed.

Lemma origin_next s s' t : next_site s s' -> source_known s t -> source_known s' t.
Proof. intros Hn. destruct t as [n w c| | | |]; try done. destruct w; try done; by apply sent_from_next. Qed.

Lemma origin_of s n w c : sent_from s n c -> source_known s (T_auth n w c).
Proof. by destruct w. Qed.

Lemma effect_to_awaited P es w c : Forall (effect_to P) es -> In (w, c) (awaited es) -> P (c_successPath c).
Proof.
  induction 1 as [|e es He _ IH]; [done|]. destruct e; cbn [awaited omap list_omap]; try exact IH; (intros [[= <- <-]|H]; [exact He|exact (IH H)]).
Qed.

(** An answer carries the path of the request on; the answer with the status of
    the server sends nothing. *)
Lemma origin_answer s n w c aff r : source_known s (T_auth n w c) -> asks (source_known s) n (auth_answered c w aff r).2.
Proof.
  intros Ho w' c' Hin. assert (w = W_status \/ sent_from s n c) as [->|Hs] by (destruct w; auto).
  { revert Hin. cbn [auth_answered]. unfold statusAnswered. repeat case_match; cbn; tauto. }
  apply origin_of. eapply (sent_from_c s n c); [|exact Hs].
  eapply (effect_to_awaited (fun p => p = c_successPath c)); [by apply answer_to|exact Hin].
Qed.

Lemma origin_credential s n c r : source_known s (T_auth n W_credential c) -> asks (source_known s) n (credentialAnswered c r).2.
Proof.
  intros Ho w' c' Hin. apply origin_of. eapply (sent_from_c s n c); [|done].
  eapply (effect_to_awaited (fun p => p = c_successPath c)); [by apply credential_to|exact Hin].
Qed.

Lemma origin_event s n a e : site_reachable s -> sl_crashed s = false -> sl_auth s = Some (n, a) ->
  asks (source_known (shell_step (S_auth e) s)) n (auth_event (page_ctx s) e a).2.
Proof.
  intros Hs Hc Ha w c Hin. apply origin_of. exists s, a, e. split_and!; [done..|apply rtc_refl|].
  eapply (effect_to_awaited (fun p => p = authSuccessPath (page_ctx s))); [by apply event_to|exact Hin].
Qed.

Definition tasks_all (Q : Task -> Prop) (s : Shell) : Prop := forall p, In p (sl_tasks s) -> Q p.2.

Lemma tasks_grow Q s s' : tasks_all Q s -> grows Q s s' -> tasks_all Q s'.
Proof. intros H [_ _ _ G] p [Hp|Hp]%G; [by apply H|done]. Qed.

Lemma self_effect_tasks (Q : Task -> Prop) s : (forall run, Q (T_self run)) -> tasks_all Q s -> tasks_all Q (self_effect s).
Proof.
  intros Hq H. unfold self_effect, fresh_id. cbv zeta. set (changed := match sl_seen s with Some _ => _ | None => _ end).
  destruct (negb changed); [done|]. destruct (has_id _); [|done]. cbn. intros p [Hp|[<-|[]]]%in_app_iff; [by apply H|apply Hq].
Qed.

Lemma commit_tasks (Q : Task -> Prop) s :
  (forall t, match t with T_auth _ w _ => w = W_status | T_self _ => False | _ => True end -> Q t) -> (forall run, Q (T_self run)) ->
  tasks_all Q s -> tasks_all Q (commit s).
Proof.
  intros Hq Hself H. unfold SiteShell.commit. destruct (renderedPage (sl_app s)); [|done]. cbv zeta.
  assert (tasks_all Q (oauth_effect manifest (auth_effect manifest reducedMotion s))) as H1.
  { eapply tasks_grow; [exact H|]. etransitivity; [by apply auth_effect_grows|by apply oauth_effect_grows]. }
  apply (self_effect_tasks Q _ Hself) in H1. eapply tasks_grow in H1; [|by apply oauth_effect_grows]. exact H1.
Qed.

Lemma origin_parts s t : match t with T_auth _ w _ => w = W_status | T_self _ => False | _ => True end -> source_known s t.
Proof. destruct t as [n w c| | | |]; try done. by intros ->. Qed.

Lemma reach_origin s : site_reachable s -> tasks_all (source_known s) s.
Proof.
  induction 1 as [l store session s Hl Hs|e s H IH He].
  - unfold start in Hs. destruct (detectCustomerLanguage _ _ _ _ _ _) as [language|]; [|done].
    destruct (readStoredUser store) as [user store']. apply (inj Some) in Hs as <-.
    apply commit_tasks; [apply origin_parts|done|by intros p []].
  - assert (next_site s (shell_step e s)) as Hn by (by exists e). set (s' := shell_step e s) in *.
    assert (tasks_all (source_known s') s) as Ht by (intros p Hp; by apply (origin_next s), IH).
    unfold s' at 2. unfold SiteShell.shell_step. destruct (sl_crashed s) eqn:Ec; [done|]. cbn [orb]. destruct (sl_left s) eqn:El; [done|].
    apply commit_tasks; [apply origin_parts|done|]. eapply tasks_grow; [exact Ht|]. apply handle_grows.
    + apply origin_parts.
    + intros n a ae -> Ha. by apply origin_event.
    + intros m n w c aff r Hin. apply origin_answer. by apply (Ht (m, _)).
    + intros m n c r Hin. apply origin_credential. by apply (Ht (m, _)).
Qed.

Context {L : WebLaws W}.


(** ** The remembered page *)

(** Where the location, the page or the path to return to are the same. *)
Definition same_route (s s' : Shell) : Prop :=
  sl_loc s' = sl_loc s /\ ap_pathname (sl_app s') = ap_pathname (sl_app s) /\ ap_page (sl_app s') = ap_page (sl_app s)
  /\ ap_authReturnPath (sl_app s') = ap_authReturnPath (sl_app s).

#[local] Instance same_route_preorder : PreOrder same_route.
Proof. split; [by repeat split|]. intros x y z (?&?&?&?) (?&?&?&?). repeat split; congruence. Qed.

Lemma same_site_route s s' : same_site s s' -> same_route s s'.
Proof. by intros []. Qed.

(** The site goes to another address. *)
Definition moves (s s' : Shell) : Prop :=
  exists x, ap_authReturnPath (sl_app x) = ap_authReturnPath (sl_app s) /\ same_route (onPopState x) s'.

(** The dialog replaces the address by the one of its other mode. *)
Definition replaces (s s' : Shell) : Prop :=
  exists p, (p = js "/sign-in" \/ p = js "/register") /\ same_route (set_loc (mkLoc p [] []) s) s'.

(** A handler goes somewhere at its end only. *)
Fixpoint ends_moving (replacing : bool) (es : list Effect) : Prop :=
  match es with
  | [] => True
  | NavigateTo _ _ :: es => es = []
  | ReplaceUrl p :: es => replacing = true /\ es = [] /\ (p = js "/sign-in" \/ p = js "/register")
  | _ :: es => ends_moving replacing es
  end.

Lemma navigate_moves p s s' : navigateTo p s = Some s' -> moves s s'.
Proof.
  unfold SiteShell.navigateTo. destruct (url_parse p origin); [|done]. case_match; [|done]. intros <-%(inj Some).
  by eexists; split; [|reflexivity].
Qed.

Lemma on_auth_route n f s : same_route s (on_auth n f s).
Proof. unfold on_auth. repeat case_match; by repeat split. Qed.

Lemma route_moves s x s' : same_route s x -> moves x s' -> moves s s'.
Proof. intros (_ & _ & _ & H) (y & Hy & Hs). exists y. split; [congruence|done]. Qed.

Lemma moves_route s x s' : moves s x -> same_route x s' -> moves s s'.
Proof. intros (y & Hy & Hs) H. exists y. split; [done|]. by etransitivity. Qed.

Lemma route_replaces s x s' : same_route s x -> replaces x s' -> replaces s s'.
Proof.
  intros (H1 & H2 & H3 & H4) (p & Hp & Hs). exists p. split; [done|]. etransitivity; [|exact Hs].
  repeat split; cbn; congruence.
Qed.

Lemma perform_route b n es s : ends_moving b es ->
  same_route s (perform n es s) \/ moves s (perform n es s) \/ (b = true /\ replaces s (perform n es s)).
Proof.
  revert s. induction es as [|e es IH]; intros s He; [by left|].
  assert (forall x, same_route s x -> ends_moving b es ->
    same_route s (perform n es x) \/ moves s (perform n es x) \/ (b = true /\ replaces s (perform n es x))) as Hx.
  { intros x Hx Hes. destruct (IH x Hes) as [H|[H|[Hb H]]]; [left; by etransitivity|right; left; by eapply route_moves|].
    right; right. split; [done|by eapply route_replaces]. }
  destruct e; cbn [SiteShell.perform ends_moving] in *; try (apply Hx; [by repeat split|exact He]).
  - subst es. destruct (navigateTo path s) as [s'|] eqn:E; [|left; apply on_auth_route]. right. left. by eapply navigate_moves.
  - destruct He as (Hb & -> & Hp). right. right. split; [done|]. by exists path.
Qed.

Lemma guard_ends b c h a : ends_moving b (h a).2 -> ends_moving b (guard_ c h a).2.
Proof. intros H. unfold guard_. by destruct c. Qed.

Lemma mode_ends px m a : ends_moving true (commitMode px m a).2.
Proof. destruct m; cbn; auto. Qed.

Lemma event_ends px e a : ends_moving true (auth_event px e a).2.
Proof.
  destruct e; cbn [auth_event]; unfold on_form, on_step; repeat apply guard_ends; try done.
  - unfold handleSubmit, handleRegister, handleEmailCodeLogin, handleLogin. cbv zeta. repeat case_match; done.
  - unfold handleSendCode. repeat case_match; done.
  - unfold handleForgotPassword. repeat case_match; done.
  - unfold switchMode. repeat case_match; try apply mode_ends; done.
  - destruct (shown_providers a !! i) as [p|]; [|done]. unfold on_form. repeat apply guard_ends. unfold beginOAuth. by case_match.
  - unfold handlePasskeyLogin. repeat case_match; done.
  - unfold onWeChat. by case_match.
  - unfold handleWeChatSubmit. repeat case_match; done.
  - unfold handleTelegramAuth. by case_match.
  - unfold handleTwoFaSubmit. cbv zeta. by case_match.
  - by case_match.
  - case_match; [apply mode_ends|done].
  - by case_match.
  - by case_match.
Qed.

Lemma answer_ends c w aff r : ends_moving false (auth_answered c w aff r).2.
Proof.
  destruct w; cbn [auth_answered];
    unfold statusAnswered, loginAnswered, registerAnswered, registeredLoginAnswered, sendCodeAnswered, forgotAnswered,
      logoutAnswered, oauthStateAnswered, passkeyBeginAnswered, passkeyFinishAnswered, providerAnswered, twoFaAnswered,
      oauth_failed, signed_in, navigateAfterAuth;
    repeat case_match; done.
Qed.

Lemma credential_ends c r : ends_moving false (credentialAnswered c r).2.
Proof. unfold credentialAnswered, oauth_failed. repeat case_match; done. Qed.

Lemma continue_route n k s : ends_moving false k.2 ->
  same_route s (continue_auth manifest n k s) \/ moves s (continue_auth manifest n k s).
Proof.
  intros Hk. unfold continue_auth. pose proof (on_auth_route n k.1 s) as Ha.
  destruct (perform_route false n k.2 (on_auth n k.1 s) Hk) as [H|[H|[? _]]]; [left; by etransitivity|right; by eapply route_moves|done].
Qed.

Lemma oauth_signed_route data s :
  same_route s (oauth_signed_in manifest data s) \/ moves s (oauth_signed_in manifest data s).
Proof.
  unfold oauth_signed_in. cbv zeta. destruct (consumeStoredAuthRedirect _ _) as [t se].
  set (s1 := set_session se (setUser (Some data) s)). assert (same_route s s1) as H1 by (by repeat split).
  destruct (navigateTo _ s1) as [s'|] eqn:E; [right|by left]. eapply route_moves; [exact H1|by eapply navigate_moves].
Qed.

Lemma answer_route id f s : same_route s (answer id f s) \/ moves s (answer id f s).
Proof.
  unfold SiteShell.answer. cbv zeta. destruct (task_at id s) as [t|]; [|by left].
  set (s0 := drop_task id s). assert (same_route s s0) as H0 by (by repeat split). set (r := apiRequest _ f).
  assert (forall x, same_route s0 x \/ moves s0 x -> same_route s x \/ moves s x) as Hx.
  { intros x [H|H]; [left; by etransitivity|right; by eapply route_moves]. }
  destruct t as [n w c|run|l|run l|run l first].
  - destruct (is_credential w) eqn:Hw; [left; by destruct w|].
    replace (match w with W_credential => _ | _ => _ end) with (continue_auth manifest n (auth_answered c w (aff_code s0) r) s0) by (by destruct w).
    apply Hx, continue_route, answer_ends.
  - left. unfold selfAnswered. destruct (negb _); [done|]. repeat case_match; by repeat split.
  - apply Hx. unfold signOutAnswered. cbv zeta. set (s1 := on_app _ (on_store _ s0)).
    assert (same_route s0 s1) as H1 by (by repeat split).
    destruct (navigateTo _ s1) as [s'|] eqn:E; [right|left; by repeat split].
    eapply moves_route; [eapply route_moves; [exact H1|by eapply navigate_moves]|by repeat split].
  - apply Hx. unfold oauthAnswered. destruct (negb _); [by left|]. case_match; [apply oauth_signed_route|left; by repeat split].
  - apply Hx. unfold oauthSelfAnswered. destruct (negb _); [by left|]. case_match; [apply oauth_signed_route|left].
    unfold oauth_fail. case_match; by repeat split.
Qed.

(** Every event stays, goes to an address, or replaces the one of the dialog. *)
Lemma handle_route e s :
  same_route s (shell_handle e s) \/ moves s (shell_handle e s) \/ (sl_auth s <> None /\ replaces s (shell_handle e s)).
Proof.
  destruct e as [e|id f|id r|path|l|l| | |]; cbn [SiteShell.shell_handle].
  - unfold run_handler. destruct (sl_auth s) as [[n a]|] eqn:Ea; [|by left].
    pose proof (event_ends (page_ctx s) e a) as H. destruct (auth_event (page_ctx s) e a) as [a' es].
    set (s1 := set_auth (Some (n, a')) s). assert (same_route s s1) as H1 by (by repeat split).
    destruct (perform_route true n es s1 H) as [Hp|[Hp|[_ Hp]]]; [left; by etransitivity|right; left; by eapply route_moves|].
    right; right. split; [done|by eapply route_replaces].
  - destruct (answer_route id f s) as [H|H]; auto.
  - unfold answer_credential. destruct (task_at id s) as [t|]; [|by left].
    destruct t as [n w c| | | |]; try by left. destruct w; try by left.
    set (s0 := drop_task id s). assert (same_route s s0) as H0 by (by repeat split).
    destruct (continue_route n (credentialAnswered c r) s0 (credential_ends c r)) as [H|H];
      [left; by etransitivity|right; left; by eapply route_moves].
  - destruct (navigateTo path s) as [s'|] eqn:E; [right; left; by eapply navigate_moves|by left].
  - right. left. by eexists; split; [|reflexivity].
  - left. by repeat split.
  - left. by repeat split.
  - left. repeat case_match; by repeat split.
  - left. repeat case_match; by repeat split.
Qed.

Lemma commit_route s : same_route s (commit s).
Proof.
  destruct (renderedPage (sl_app s)) as [page|] eqn:E; [by eapply same_site_route, commit_same|].
  unfold SiteShell.commit. rewrite E. by repeat split.
Qed.

(** What the path to return to is: on an open page, and on the page that connects
    ATF Switch while its address is shown, that address; on a sign-in page with
    a link, the page of the link. *)
Record remembered (s : Shell) : Prop := {
  rm_page : ap_page (sl_app s) = page_of_path (ap_pathname (sl_app s));
  rm_open : isAuthRoute (ap_page (sl_app s)) = false -> isProtected (ap_page (sl_app s)) = false ->
    setupOverlayOpen manifest (sl_app s) = false -> ap_authReturnPath (sl_app s) = getCurrentPath (sl_loc s);
  rm_connect : isConnectRoute (ap_page (sl_app s)) = true -> l_pathname (sl_loc s) = ap_pathname (sl_app s) ->
    ap_authReturnPath (sl_app s) = getCurrentPath (sl_loc s);
  rm_link : forall p, isAuthRoute (ap_page (sl_app s)) = true -> l_search (sl_loc s) <> [] -> link_target (sl_loc s) p ->
    ap_authReturnPath (sl_app s) = p
}.

Lemma remembered_route s s' : same_route s s' -> remembered s -> remembered s'.
Proof.
  intros (E1 & E2 & E3 & E4) [H1 H2 H3 H4]. unfold setupOverlayOpen in *. split; rewrite ?E1, ?E2, ?E3, ?E4 in *; try done.
  unfold setupOverlayOpen. by rewrite E2, E3.
Qed.

Lemma connect_page p : isConnectRoute p = true -> isAuthRoute p = false.
Proof. unfold isConnectRoute. intros ->%str_eqb_eq. by vm_compute. Qed.

Lemma pop_remembered s : remembered (onPopState s).
Proof.
  unfold SiteShell.onPopState. cbv zeta. destruct (default _ (sl_seen s)) as [seenId seenLanguage].
  set (language := selectCustomerLanguageForPath _ _ _ _).
  set (page := page_of_path (l_pathname (sl_loc s))).
  destruct (isAuthRoute page) eqn:Ea.
  - assert (isConnectRoute page = false) as Hc.
    { apply not_true_iff_false. intros H%connect_page. congruence. }
    case_match eqn:Et; cbn [sl_loc on_app] in Et; split; cbn; fold page; try done; try congruence.
    + intros p _ _ [H _]%link_read. done.
    + intros p _ _ [H Hn]%link_read. rewrite H in Et. by destruct p.
  - destruct (_ || _) eqn:Eo; split; cbn; fold page; try done; try congruence.
    + intros _ Hp Hs. change (isProtected page = false) in Hp. apply orb_false_iff in Eo as [_ Eo]. unfold setupOverlayOpen in Hs. cbn in Hs. fold page in Hs.
      rewrite Hs, Hp in Eo. done.
    + intros Hc _. by rewrite Hc in Eo.
Qed.

Lemma dialog_page p : p = js "/sign-in" \/ p = js "/register" -> isConnectRoute (page_of_path p) = false.
Proof.
  intros Hp. unfold SiteShell.page_of_path, getPageKey. destruct (sr_pageKey _) as [k|] eqn:E.
  - revert E. unfold resolveSeoRoute, page_resolution. repeat case_match; cbn [sr_pageKey]; try done; intros Hk%table_get_In;
      cbn [In pageKeyMap] in Hk; repeat (destruct Hk as [[= _ <-]|Hk]; [by vm_compute|]); done.
  - destruct Hp as [->| ->]; by vm_compute.
Qed.

Lemma replaces_remembered s s' : authOverlayOpen (sl_app s) = true -> replaces s s' -> remembered s -> remembered s'.
Proof.
  intros Ho (p & Hp & Hr) [H1 H2 H3 H4]. eapply remembered_route; [exact Hr|]. split; cbn; [done|..].
  - intros Ha Hpr _. change (isProtected (ap_page (sl_app s)) = false) in Hpr. unfold authOverlayOpen in Ho. rewrite Ha, Hpr, andb_false_r in Ho. done.
  - intros Hc E. rewrite H1, <- E, (dialog_page p Hp) in Hc. done.
  - done.
Qed.

Lemma start_remembered l app store session : ap_pathname app = l_pathname l -> ap_page app = page_of_path (l_pathname l) ->
  ap_authReturnPath app = initial_return_path manifest l (ap_user app) ->
  remembered (mkShell l app None None None store session [] 0 0 [] None false).
Proof.
  intros E1 E2 E3. unfold initial_return_path in E3. cbv zeta in E3. split; cbn [sl_app sl_loc]; unfold setupOverlayOpen; rewrite ?E1, ?E2, ?E3; [done|..].
  - intros -> -> ->. cbn [andb]. by destruct (isConnectRoute _).
  - intros Hc _. rewrite (connect_page _ Hc), Hc. unfold isConnectRoute in Hc. apply str_eqb_eq in Hc. by rewrite Hc.
  - intros p -> _ [H Hn]%link_read. rewrite H. unfold str_or. by destruct p.
Qed.

Lemma reach_remembered s : site_reachable s -> remembered s.
Proof.
  induction 1 as [l store session s Hl Hs|e s H IH He].
  - unfold start in Hs. destruct (detectCustomerLanguage _ _ _ _ _ _) as [language|]; [|done].
    destruct (readStoredUser store) as [user store']. apply (inj Some) in Hs as <-.
    eapply remembered_route; [apply commit_route|]. by apply start_remembered.
  - unfold SiteShell.shell_step. destruct (sl_crashed s) eqn:Ec; [done|]. cbn [orb]. destruct (sl_left s); [done|].
    eapply remembered_route; [apply commit_route|]. destruct (handle_route e s) as [Hr|[(x & _ & Hr)|[Ha Hr]]].
    + by eapply remembered_route.
    + eapply remembered_route; [exact Hr|apply pop_remembered].
    + eapply replaces_remembered; [|exact Hr|done]. by eapply reach_overlay.
Qed.

(** A step changes the path to the new address or to the page of its link. *)
Definition return_step (s s' : Shell) : Prop :=
  ap_authReturnPath (sl_app s') = ap_authReturnPath (sl_app s)
  \/ (isAuthRoute (ap_page (sl_app s')) = false /\ ap_authReturnPath (sl_app s') = getCurrentPath (sl_loc s'))
  \/ (isAuthRoute (ap_page (sl_app s')) = true /\ link_target (sl_loc s') (ap_authReturnPath (sl_app s'))).

Lemma pop_return s : return_step s (onPopState s).
Proof.
  unfold SiteShell.onPopState. cbv zeta. destruct (default _ (sl_seen s)) as [seenId seenLanguage].
  set (page := page_of_path (l_pathname (sl_loc s))). destruct (isAuthRoute page) eqn:Ea.
  - case_match eqn:Et; [right; right|by left]. split; [done|]. apply link_read. cbn in *. split; [done|]. intros E. by rewrite E in Et.
  - destruct (_ || _); [right; left|by left]. by split.
Qed.

Lemma return_step_route s x y : return_step s x -> same_route x y -> return_step s y.
Proof. intros H (E1 & E2 & E3 & E4). unfold return_step. by rewrite E1, E3, E4. Qed.


End Visit.

(** ** Examples

    The visit of SiteProps.v: a link to the usage page, the password typed and
    sent; nothing is stored and motion is reduced. *)

Local Abbreviation pages := (Some shipped_manifest).
Local Abbreviation step := (shell_step pages [] (js "en") true).




(** Over the page of the usage, opened without a user, the remembered page is the
    home page: after the sign-in the site shows that one. *)
Theorem protected_page_forgotten :
  let s := visit (mkLoc (js "/dashboard/usage") [] []) in
  authOverlayOpen (sl_app s) = true /\ authSuccessPath (page_ctx pages true s) = js "/".
Proof. by split; vm_compute. Qed.
